(* ===== verification/_CoqProject ===== *)
-Q . S2P
Prelude.v
Bytes.v
Kernel.v
Spinlock.v
Cstring.v
Kalloc.v
Vm.v
Pagetab.v
Copyvm.v
Growvm.v
Screen.v
Sched.v
Wakeups.v
Proc.v
Procsys.v
Waiting.v
Console.v
Kbd.v
Pipe.v
Sleeplock.v
Bio.v
Log.v
Crash.v
Reserve.v
Fs.v
Dinode.v
Txn.v
Smallfs.v
Blocks.v
Inode.v
Content.v
Smalldir.v
Icache.v
Dir.v
Dirent.v
Namei.v
Mkfs.v
Mkimage.v
Mktree.v
Consdev.v
File.v
Fork.v
Syscall.v
Exec.v
Sysfile.v
Sysproc.v
Trap.v
Grep.v
Ulib.v
Shell.v
Shgram.v
Shrun.v
Utils.v
Umalloc.v
