(* ===== verification/Prelude.v ===== *)
(** * A verification development for the xv6 system of this repository

    The program is an x86 xv6: a kernel with five scheduling policies (first
    come first served, shortest job first, best job first, random and round
    robin), process statistics and a few more system calls, and the user programs
    that run on it.  The kernel from the bottom:
    spin locks; the physical page allocator and the page tables; processes, the
    schedulers, [sleep] and [wakeup]; pipes and sleep locks; the buffer cache,
    the log and the file system; open files, the console and the keyboard; the
    system calls and the trap handler.  In user space: the library with [printf]
    and [malloc], the shell, grep and the small programs.  On the host: mkfs, which
    builds the first file system image.

    ** How the code is modelled

    The global variables the modelled code uses are the fields of the record
    [kernel] (Kernel.v); its structs are records with the names of the source,
    its tables are lists, its pointers into tables are indices ([None] where
    they are null), and memory is a function from addresses to bytes.  Machine
    integers are in [Z], with [u32], [s32], [u16], [s16] and [u8] where C wraps.
    A C function is a Rocq function of the same name in the monad [M] of this
    file: [Ok a s] is a return, [Panic m] the kernel's panic, [Sleep pt s] a
    switch to another thread at the place [pt]; what runs after the switch is a
    definition of its own ([sleep_resume], [wait_resume], [pipewrite_from],
    [begin_op_from], ...).

    Interleaving is modelled where a component is about it: on processors in
    Spinlock.v (instructions), Wakeups.v (the instructions of [sleep] and
    [wakeup]) and Procsys.v (critical sections of [ptable.lock], those of
    interrupt handlers included), between processes in Pipe.v, Sleeplock.v and
    Reserve.v.  These are step relations whose steps run the translated code, and
    the theorems hold in all reachable states.  Ghost fields count what the code
    does not: the processes named since boot ([born] in Procsys.v), the blocks an
    operation has logged and who commits ([ops] and [com] in Reserve.v).  Spin locks are a set [held] of held locks for everything
    above spinlock.c; Spinlock.v shows that spinlock.c implements this.  The
    interrupt flag is in Spinlock.v only: above it the number of held locks stands
    for [ncli], and the test of [sched] for the flag is left out.  File
    system and system call code is modelled as its caller runs it to the end, or
    to the place where it sleeps.

    A user program is a tree of system calls ([prog] in Ulib.v), run by any
    system that answers them ([Sys]).  Strings are lists of characters, but the
    shell's parser works on positions in the line it ends with NULs, and [malloc]
    on the words of the memory of the process.

    Code that is not translated enters as a class with its laws or as an
    argument: the disk driver ([Disk] in Bio.v: [iderw] has done the transfer when
    it returns.  memide.c is an instance; the driver of ide.c, which sleeps until
    the interrupt, is not shown to be one), the device switch ([Devsw] in Fs.v, with the console's in
    Consdev.v), the interrupt routine of the IDE driver (an argument in Trap.v).
    A block write is atomic and writes reach the disk in order (Crash.v).

    Loops run on fuel where the recursion is not structural: [rw_fuel] turns for
    [readi] and [writei] (one more than the blocks [n] bytes can touch), a turn
    for each slot or byte of the table or string a loop goes through elsewhere.
    A loop out of fuel panics, so a theorem that a call returns shows that the
    fuel is enough.

    ** Files

    - Prelude.v: record update, the monad, machine integers, framing.
    - Bytes.v: structs in blocks of bytes.  Kernel.v: the data of the kernel.
    - Spinlock.v: spinlock.c and [mycpu].
    - Cstring.v: string.c.  Kalloc.v: kalloc.c.  Vm.v: vm.c.  Pagetab.v: the
      invariant of an address space and what each step of vm.c does to it;
      Copyvm.v and Growvm.v: [copyuvm], [allocuvm] and [deallocuvm].
    - Screen.v: the output half of console.c, down to the cursor of the screen.
    - Sched.v: the schedulers, [sched], [yield], [sleep] and [wakeup] of proc.c.
      Wakeups.v: [sleep] and [wakeup] on two processors, instruction by
      instruction.
    - Proc.v: the other table operations of proc.c.  Procsys.v: the system of
      processes and processors.  Fork.v: [fork], [exit] and [userinit] with the
      open files.
    - Waiting.v: what the systems of waiting processes share.
    - Pipe.v: pipe.c.  Sleeplock.v: sleeplock.c.
    - Bio.v: bio.c and memide.c.  Log.v: log.c.  Crash.v: commit and recovery
      with crashes.  Reserve.v: the users of the log.
    - Fs.v: fs.c up to [writei].  Dir.v: directories and paths of fs.c.
    - Dinode.v, Txn.v, Blocks.v, Inode.v, Content.v: the file system's
      invariants and theorems, from the format of an inode on the disk, over
      blocks inside a transaction, the block allocator and [bmap], to the
      contents of files.  Smallfs.v: the disk of their examples.
    - Icache.v: the invariant of the inode cache, and [iget], [ilock], [iput] and
      the others against it.  Dirent.v: the entries of a directory; Namei.v: walks
      through the directory tree.  Smalldir.v: the disk of their examples.
    - Mkfs.v: mkfs.c.  Mkimage.v: the invariant of the image while it is built;
      Mktree.v: the image as the kernel sees it.
    - Console.v: the input half of console.c, and [procdump].  Consdev.v: the
      console as a device.  Kbd.v: kbd.c and kbd.h.
    - File.v: file.c and [pipealloc].
    - Syscall.v: the arguments of system calls; Sysfile.v: sysfile.c;
      Sysproc.v: sysproc.c and the dispatch of syscall.c.
    - Exec.v: exec.c, elf.h and [loaduvm].  Trap.v: [trap] of trap.c.
    - Ulib.v: ulib.c and printf.c.  Umalloc.v: umalloc.c.  Grep.v: grep.c.
    - Shell.v: the parser of sh.c and the grammar of command lines; Shgram.v:
      the one against the other; Shrun.v: [runcmd] and the main loop of sh.c.
    - Utils.v: cat.c, wc.c, copy.c, echo.c, kill.c, ln.c, mkdir.c, rm.c, zombie.c
      and init.c.

    ** What the theorems show

    - Locks: [mutual_exclusion], [locked_interrupts_off] and [spin_refines_held]
      on any interleaving of instructions; [sleeplock_excludes].
    - Memory: [page_ownership] and [boot_pool], every page is in the pool or
      allocated and never both.  Address spaces, down to the bits of the page
      table entries: [copyuvm_spec] (a forked process has a copy of its own),
      [allocuvm_spec] and [grow_shrink], with running out of memory at any point.
    - Processes: on any number of processors, [one_cpu_per_process],
      [wait_misses_no_exit], [process_tree], [pids_unique] and
      [lock_holder_progress]; [scheduler_policy] and [round_robin_next] say whom
      each policy runs; [sleep_wakeup] says that no wake-up is lost; [wait_spec],
      [waitx_spec] and [allocproc_spec] give the operations on every branch.  The
      pids are unique as long as [nextpid] has not wrapped.
    - Pipes: [pipe_fifo] and [pipe_sleepers].
    - Disk: [bread_reads], [bwrite_read_back] and [bget_lru] for the cache;
      [commit_atomic] and [commit_durable] for the log with a crash after any
      block write; [log_reservation] and [log_waits_for_room] for its users, who
      begin, log at most [MAXOPBLOCKS] blocks, end and commit in any order.
    - Files: [balloc_bfree_spec], [writei_spec] and [writei_readi];
      [dirlink_spec] for the entries of a directory, [namei_spec] for paths.
    - The image: [mkfs_spec] (a file system and a tree in order, with the files of
      the command line) and [mkfs_read] ([namei] and [readi] of the kernel give the
      files back), unless the root directory ends with a block ([mkfs_root_hole]).
    - Console: [consoleintr_edits] (the input ring implements line editing) and
      [kbdintr_types].
    - System calls: [arguments_in_bounds], [find_digit_root_spec].
    - User space: [malloc_spec] and [free_spec] (blocks in use and free tile the
      heap); [parsecmd_sound] and [parsecmd_complete] (the parser of the shell
      accepts exactly the lines of the grammar) and [shell_line] (a line becomes
      the processes, pipes and waits it stands for, whatever call fails);
      [match_correct] and [grep_file] (a file, or any pieces with a newline each);
      [printint_digits] and [printf_atoi]; [cat_copies] and [wc_counts].
    - Defects: [killed_writer_wakes_nobody], [kill_marks_free_slot],
      [bjf_lock_order], [log_one_block_short], [dirlink_found],
      [slice_never_renewed], [mkfs_root_hole], [mkfs_too_many_files],
      [grep_drops_piece], [malloc_wraps] and [copy_hides_read_error] show what the
      code does where it does not do what it means to.

    ** Not modelled

    Assembly (boot, entry, context switch, trap entry), device registers
    (lapic.c, ioapic.c, picirq.c, uart.c, mp.c, ide.c), descriptor tables
    ([seginit], [tvinit]), main.c, the test programs and the user programs that
    print the result of one system call.  [read_head] of log.c stops on a header
    that counts more than [LOGSIZE] blocks, where the code reads past its array.
    Of vm.c the messages that [allocuvm]
    prints when memory is short are left out, and those of mkfs.c. *)

From Stdlib Require Export ZifyBool.
From stdpp Require Export base gmap strings numbers list.
#[global] Open Scope Z_scope.

(** ** Record update

    C assigns one field of a struct at a time.  [x <| f := v |>] is the struct
    [x] after [x.f = v], for any record type that declares its eta expansion. *)

Class Eta (R : Type) := eta : R → R.
Class Setter {R T} (proj : R → T) := mkSetter { modify : (T → T) → R → R }.
Arguments modify {R T} proj {_} _ _.
Arguments mkSetter {R T} proj _.

Ltac solve_setter :=
  match goal with
  | |- @Setter ?R ?T ?proj =>
      let i := constr:(_ : Eta R) in
      let b := eval red in i in
      match eval pattern proj in b with
      | ?F _ => let s := eval cbv beta in (λ f : T → T, F (λ r, f (proj r))) in exact (mkSetter proj s)
      end
  end.
#[export] Hint Extern 1 (Setter _) => solve_setter : typeclass_instances.

Declare Scope record_update_scope.
Notation "x <| proj ::= f |>" := (modify proj f x)
  (at level 1, left associativity) : record_update_scope.
Notation "x <| proj := v |>" := (modify proj (λ _, v) x)
  (at level 1, left associativity) : record_update_scope.
#[global] Open Scope record_update_scope.

(** ** Machine integers

    [uint], [int], [ushort], [short] and [uchar] of types.h: an integer with
    the wrap-around of its width written out. *)

Definition u32 (x : Z) : Z := x mod 2 ^ 32.
Definition u16 (x : Z) : Z := x mod 2 ^ 16.
Definition u8 (x : Z) : Z := x mod 2 ^ 8.
Definition s32 (x : Z) : Z := (x + 2 ^ 31) mod 2 ^ 32 - 2 ^ 31.
Definition s16 (x : Z) : Z := (x + 2 ^ 15) mod 2 ^ 16 - 2 ^ 15.

Definition is_u32 (x : Z) : Prop := 0 ≤ x < 2 ^ 32.
Definition is_s32 (x : Z) : Prop := - 2 ^ 31 ≤ x < 2 ^ 31.
Definition is_u8 (x : Z) : Prop := 0 ≤ x < 2 ^ 8.

Lemma u32_range x : is_u32 (u32 x).
Proof. apply Z.mod_pos_bound. lia. Qed.

Lemma u32_small x : is_u32 x → u32 x = x.
Proof. apply Z.mod_small. Qed.

Lemma s32_range x : is_s32 (s32 x).
Proof. unfold is_s32, s32. pose proof (Z.mod_pos_bound (x + 2 ^ 31) (2 ^ 32)). lia. Qed.

Lemma s32_small x : is_s32 x → s32 x = x.
Proof. unfold is_s32, s32. intros. rewrite Z.mod_small; lia. Qed.

Lemma u32_add_l x y : u32 (u32 x + y) = u32 (x + y).
Proof. unfold u32. by rewrite Zplus_mod_idemp_l. Qed.

Lemma u32_add_r x y : u32 (x + u32 y) = u32 (x + y).
Proof. unfold u32. by rewrite Zplus_mod_idemp_r. Qed.

Lemma u32_sub_l x y : u32 (u32 x - y) = u32 (x - y).
Proof. unfold u32. by rewrite Zminus_mod_idemp_l. Qed.

Lemma u32_sub_r x y : u32 (x - u32 y) = u32 (x - y).
Proof. unfold u32. by rewrite Zminus_mod_idemp_r. Qed.

(** ** The kernel monad

    A kernel function runs on a state and either returns, calls [panic]
    (console.c: the machine freezes and nothing runs after it), or goes to
    sleep on a channel in [sleep] of proc.c and gives up the processor. *)

Inductive res (S C A : Type) : Type :=
| Ok (a : A) (s : S)
| Panic (msg : string)
| Sleep (ch : C) (s : S).
Arguments Ok {S C A} a s.
Arguments Panic {S C A} msg.
Arguments Sleep {S C A} ch s.

(** Like [injection], without computing in the states. *)
Lemma Ok_inj {S C A} (a b : A) (s s' : S) : Ok (C:=C) a s = Ok b s' → a = b ∧ s = s'.
Proof. intros H. by injection H. Qed.
Lemma Sleep_inj {S C A} (c d : C) (s s' : S) : Sleep (A:=A) c s = Sleep d s' → c = d ∧ s = s'.
Proof. intros H. by injection H. Qed.

Definition M (S C A : Type) : Type := S → res S C A.

Definition ret {S C A} (a : A) : M S C A := λ s, Ok a s.
Definition bind {S C A B} (m : M S C A) (f : A → M S C B) : M S C B := λ s,
  match m s with
  | Ok a s' => f a s'
  | Panic msg => Panic msg
  | Sleep ch s' => Sleep ch s'
  end.

Declare Scope kernel_scope.
Notation "x ← y ; z" := (bind y (λ x, z))
  (at level 20, y at level 100, z at level 200, only parsing) : kernel_scope.
Notation "' x ← y ; z" := (bind y (λ x', match x' with x => z end))
  (at level 20, x pattern, y at level 100, z at level 200, only parsing) : kernel_scope.
Notation "y ;; z" := (bind y (λ _, z))
  (at level 100, z at level 200, only parsing, right associativity) : kernel_scope.
#[global] Open Scope kernel_scope.

Section monad.
Context {S C : Type}.

Definition panic {A} (msg : string) : M S C A := λ _, Panic msg.
Definition gets {A} (f : S → A) : M S C A := λ s, Ok (f s) s.
Definition modify_state (f : S → S) : M S C unit := λ s, Ok tt (f s).

(** A [for] loop over a list of indices whose body returns nothing. *)
Fixpoint for_each {A} (l : list A) (body : A → M S C unit) : M S C unit :=
  match l with
  | [] => ret tt
  | x :: l' => body x ;; for_each l' body
  end.

Lemma bind_ok {A B} (m : M S C A) (f : A → M S C B) s a s' :
  m s = Ok a s' → bind m f s = f a s'.
Proof. unfold bind. by intros ->. Qed.

Lemma bind_inv_ok {A B} (m : M S C A) (f : A → M S C B) s b s' :
  bind m f s = Ok b s' → ∃ a s1, m s = Ok a s1 ∧ f a s1 = Ok b s'.
Proof. unfold bind. destruct (m s) eqn:E; by eauto. Qed.

Lemma bind_assoc {A B D} (m : M S C A) (f : A → M S C B) (g : B → M S C D) s :
  bind (bind m f) g s = bind m (λ a, bind (f a) g) s.
Proof. unfold bind. by destruct (m s). Qed.

Lemma bind_ext {A B} (m : M S C A) (f g : A → M S C B) s :
  (∀ a s', m s = Ok a s' → f a s' = g a s') → bind m f s = bind m g s.
Proof. unfold bind. destruct (m s); auto. Qed.

Lemma for_each_app {A} (l1 l2 : list A) body s :
  for_each (l1 ++ l2) body s = (for_each l1 body ;; for_each l2 body) s.
Proof.
  revert s; induction l1 as [|x l1 IH]; intros s; [done|].
  simpl. unfold bind. destruct (body x s); [|done..].
  rewrite IH. done.
Qed.

(** [wp m Q s]: [m] started in [s] returns (it neither panics nor sleeps) and
    its result and final state satisfy [Q]. *)
Definition wp {A} (m : M S C A) (Q : A → S → Prop) (s : S) : Prop :=
  match m s with
  | Ok a s' => Q a s'
  | _ => False
  end.

Lemma wp_bind {A B} (m : M S C A) (f : A → M S C B) Q s :
  wp m (λ a s', wp (f a) Q s') s → wp (bind m f) Q s.
Proof. unfold wp, bind. by destruct (m s). Qed.

Lemma wp_mono {A} (m : M S C A) (P Q : A → S → Prop) s :
  wp m P s → (∀ a s', P a s' → Q a s') → wp m Q s.
Proof. unfold wp. destruct (m s); auto. Qed.

Lemma wp_ok {A} (m : M S C A) Q s : wp m Q s ↔ ∃ a s', m s = Ok a s' ∧ Q a s'.
Proof.
  unfold wp. destruct (m s) as [a s1| |]; split; intros H.
  - eauto.
  - by destruct H as (? & ? & [= <- <-] & ?).
  - done.
  - by destruct H as (? & ? & ? & ?).
  - done.
  - by destruct H as (? & ? & ? & ?).
Qed.

Lemma wp_for_each {A} (I : list A → S → Prop) (l : list A) body s :
  I [] s →
  (∀ l1 x l2 s1, l = l1 ++ x :: l2 → I l1 s1 → wp (body x) (λ _, I (l1 ++ [x])) s1) →
  wp (for_each l body) (λ _, I l) s.
Proof.
  intros H0 Hstep.
  assert (∀ l2 l1 s1, l = l1 ++ l2 → I l1 s1 → wp (for_each l2 body) (λ _, I l) s1) as Hgen.
  { induction l2 as [|x l2 IH]; intros l1 s1 Hl HI.
    - rewrite app_nil_r in Hl. subst. done.
    - simpl. apply wp_bind. eapply wp_mono; [by eapply Hstep|].
      intros [] s2 HI2. eapply (IH (l1 ++ [x])); [|done]. by rewrite <-app_assoc. }
  by apply (Hgen l []).
Qed.

End monad.

(** [mstep] runs the first statement of a sequence whose outcome is known. *)
Ltac mstep H := rewrite (bind_ok _ _ _ _ _ H).
Ltac munfold := unfold bind, ret, panic, gets, modify_state in *; cbv beta match in *.

(** ** Transition sequences: zero or more steps of a relation. *)

Section star.
Context {S : Type} (step : S → S → Prop).

Inductive star : S → S → Prop :=
| star_refl s : star s s
| star_snoc s s1 s2 : star s s1 → step s1 s2 → star s s2.

Lemma star_inv (I : S → Prop) s s' :
  I s → (∀ s1 s2, I s1 → step s1 s2 → I s2) → star s s' → I s'.
Proof. intros H0 Hs. induction 1; eauto. Qed.

Lemma star_trans s1 s2 s3 : star s1 s2 → star s2 s3 → star s1 s3.
Proof. intros H1. induction 1; eauto using star. Qed.

End star.

(** ** Scans of a table

    The kernel finds a slot of a table with a [for] loop that stops at the
    first match; [find_index] is that loop. *)

Fixpoint find_index {A} (f : A → bool) (l : list A) : option nat :=
  match l with
  | [] => None
  | x :: l' => if f x then Some 0%nat else S <$> find_index f l'
  end.

Section find_index.
Context {A : Type} (f : A → bool).

Lemma find_index_Some (l : list A) i :
  find_index f l = Some i ↔
  ∃ x, l !! i = Some x ∧ f x = true ∧ ∀ j y, (j < i)%nat → l !! j = Some y → f y = false.
Proof.
  revert i; induction l as [|x l IH]; intros i; simpl.
  { split; [done|]. by intros (? & ? & _). }
  destruct (f x) eqn:Hx.
  - split.
    + intros [= <-]. exists x. split_and!; [done..|lia].
    + intros (y & Hy & Hfy & Hmin). destruct i as [|i]; [done|].
      specialize (Hmin 0%nat x ltac:(lia) eq_refl). congruence.
  - rewrite fmap_Some. split.
    + intros (k & Hk & ->). apply IH in Hk as (y & Hy & Hfy & Hmin).
      exists y. split_and!; [done..|].
      intros [|j] z Hj Hz; simpl in *; [by simplify_eq|]. eapply Hmin; [|done]. lia.
    + intros (y & Hy & Hfy & Hmin). destruct i as [|i]; simpl in Hy; [congruence|].
      exists i. split; [|done]. apply IH. exists y. split_and!; [done..|].
      intros j z Hj Hz. apply (Hmin (S j)); [lia|done].
Qed.

Lemma find_index_None (l : list A) :
  find_index f l = None ↔ ∀ i x, l !! i = Some x → f x = false.
Proof.
  induction l as [|x l IH]; simpl; [done|].
  destruct (f x) eqn:Hx.
  - split; [done|]. intros H. specialize (H 0%nat x eq_refl). congruence.
  - rewrite fmap_None, IH. split.
    + intros H [|i] y Hy; simpl in *; [congruence|eauto].
    + intros H i y Hy. apply (H (S i) y Hy).
Qed.

Lemma find_index_lt (l : list A) i : find_index f l = Some i → (i < length l)%nat.
Proof. rewrite find_index_Some. intros (x & Hx & _). by eapply lookup_lt_Some. Qed.

End find_index.

(** ** Updating one slot of a table *)

Lemma fmap_alter_same {A B} (g : A → B) (f : A → A) (i : nat) (l : list A) :
  (∀ x, g (f x) = g x) → g <$> alter f i l = g <$> l.
Proof.
  intros H. apply list_eq. intros j. rewrite !list_lookup_fmap.
  destruct (decide (j = i)) as [->|Hne].
  - rewrite list_lookup_alter_eq. destruct (l !! i); simpl; [by rewrite H|done].
  - by rewrite list_lookup_alter_ne by done.
Qed.

Lemma lookup_alter_Some {A} (f : A → A) (l : list A) i j y :
  alter f i l !! j = Some y ↔
  ∃ x, l !! j = Some x ∧ y = if decide (i = j) then f x else x.
Proof.
  rewrite list_lookup_alter. case_decide; subst.
  - rewrite fmap_Some. done.
  - split; [eauto|]. by intros (x & ? & ->).
Qed.

(** ** Framing

    [Pres R RS m]: when [m] returns, the states before and after are related by
    [R]; when it goes to sleep, by [RS].  The instances below push the judgement
    through sequencing, branches and loops, so that a function is framed by the
    frames of the functions it calls. *)

Class Pres {S C A} (R RS : S → S → Prop) (m : M S C A) : Prop :=
  pres s : match m s with
           | Ok _ s' => R s s'
           | Panic _ => True
           | Sleep _ s' => RS s s'
           end.
#[export] Hint Mode Pres - - - - - ! : typeclass_instances.

(** Sleeping after a step that returned is still sleeping. *)
Class SleepTrans {S} (R RS : S → S → Prop) : Prop :=
  { pres_preorder : PreOrder R; sleep_trans a b c : R a b → RS b c → RS a c }.

#[export] Instance sleep_trans_False {S} (R : S → S → Prop) :
  PreOrder R → SleepTrans R (λ _ _, False).
Proof. by split. Qed.
#[export] Instance sleep_trans_same {S} (R : S → S → Prop) : PreOrder R → SleepTrans R R.
Proof. split; [done|]. intros a b c. apply transitivity. Qed.

Section pres.
Context {S C : Type} (R RS : S → S → Prop) `{!SleepTrans R RS}.

#[local] Existing Instance pres_preorder.

Lemma pres_ret {A} (a : A) : Pres R RS (ret (C:=C) a).
Proof. intros s. simpl. reflexivity. Qed.
Lemma pres_gets {A} (f : S → A) : Pres R RS (gets (C:=C) f).
Proof. intros s. simpl. reflexivity. Qed.
Lemma pres_panic {A} msg : Pres R RS (panic (C:=C) (A:=A) msg).
Proof. done. Qed.
Lemma pres_bind {A B} (m : M S C A) (f : A → M S C B) :
  Pres R RS m → (∀ a, Pres R RS (f a)) → Pres R RS (bind m f).
Proof.
  intros Hm Hf s. unfold bind. specialize (Hm s). destruct (m s) as [a s1| |]; [|done..].
  specialize (Hf a s1). destruct (f a s1) as [b s2| |]; [|done|].
  - by transitivity s1.
  - by eapply sleep_trans.
Qed.
Lemma pres_for_each {A} (l : list A) body :
  (∀ x, Pres R RS (body x)) → Pres R RS (for_each (C:=C) l body).
Proof.
  intros Hb. induction l as [|x l IH]; [apply pres_ret|].
  simpl. apply pres_bind; [apply Hb|done].
Qed.
End pres.

Lemma pres_ok {S C A} (R RS : S → S → Prop) (m : M S C A) `{!Pres R RS m} s a s' :
  m s = Ok a s' → R s s'.
Proof. intros H. pose proof (pres (R:=R) (RS:=RS) (m:=m) s) as Hp. by rewrite H in Hp. Qed.

Lemma pres_mono {S C A} (R R' RS RS' : S → S → Prop) (m : M S C A) :
  (∀ a b, R a b → R' a b) → (∀ a b, RS a b → RS' a b) → Pres R RS m → Pres R' RS' m.
Proof. intros H1 H2 Hm s. specialize (Hm s). destruct (m s); auto. Qed.

(** ** The automation of the development *)

(** [solve_pres] decomposes a function along its text; what is left are the
    assignments. *)
Ltac pres_step :=
  lazymatch goal with
  | |- forall _, _ => intros ?
  | |- Pres _ _ (bind _ _) => apply pres_bind; [exact _|..]
  | |- Pres _ _ (ret _) => apply pres_ret; exact _
  | |- Pres _ _ (gets _) => apply pres_gets; exact _
  | |- Pres _ _ (panic _) => apply pres_panic
  | |- Pres _ _ (for_each _ _) => apply pres_for_each; [exact _|]
  | |- Pres _ _ (if ?b then _ else _) => destruct b
  | |- Pres _ _ (match ?x with _ => _ end) => destruct x
  | |- Pres _ _ (let _ := _ in _) => cbv zeta
  | |- Pres _ _ _ => exact _ || assumption
  end.
Ltac solve_pres := repeat pres_step.

Create HintDb xv6 discriminated.
#[export] Hint Resolve u32_range s32_range : xv6.
#[export] Hint Constructors star : xv6.

Ltac destruct_res :=
  match goal with
  | H : context [match ?m with Ok _ _ => _ | Panic _ => _ | Sleep _ _ => _ end] |- _ =>
      let E := fresh "E" in destruct m eqn:E
  | |- context [match ?m with Ok _ _ => _ | Panic _ => _ | Sleep _ _ => _ end] =>
      let E := fresh "E" in destruct m eqn:E
  end.
