(* ===== verification/Bytes.v ===== *)
(** * Structs inside arrays of bytes

    The kernel casts the bytes of a disk block to a struct (the log header, an
    inode, a directory entry).  Here a block is the list of its bytes, and a
    field is a little-endian integer at an offset. *)

From S2P Require Import Prelude.

(** ** Little-endian integers *)

Fixpoint le_val (l : list Z) : Z :=
  match l with
  | [] => 0
  | b :: l' => u8 b + 256 * le_val l'
  end.

Fixpoint le_bytes (n : nat) (v : Z) : list Z :=
  match n with
  | O => []
  | S n' => v mod 256 :: le_bytes n' (v / 256)
  end.

Lemma length_le_bytes n v : length (le_bytes n v) = n.
Proof. revert v; induction n as [|n IH]; intros v; simpl; [done|]. by rewrite IH. Qed.

Lemma le_val_bytes n v : le_val (le_bytes n v) = v mod 256 ^ Z.of_nat n.
Proof.
  revert v; induction n as [|n IH]; intros v; [by rewrite Z.mod_1_r|].
  cbn [le_bytes le_val]. rewrite IH. unfold u8. change (2 ^ 8) with 256. rewrite Z.mod_mod by lia.
  replace (256 ^ Z.of_nat (S n)) with (256 * 256 ^ Z.of_nat n)
    by (rewrite Nat2Z.inj_succ, Z.pow_succ_r; lia).
  rewrite Z.rem_mul_r by (try lia; apply Z.pow_pos_nonneg; lia). lia.
Qed.

Lemma le_val_range l : 0 ≤ le_val l < 256 ^ Z.of_nat (length l).
Proof.
  induction l as [|b l IH]; simpl length; [simpl; lia|].
  rewrite Nat2Z.inj_succ, Z.pow_succ_r by lia. cbn [le_val].
  assert (0 ≤ u8 b < 256) by (apply Z.mod_pos_bound; lia). nia.
Qed.

(** ** A part of a list *)

(** [n] elements from [o] on, and the list with [b] written over them. *)
Definition slice {A} (o n : nat) (l : list A) : list A := take n (drop o l).
Definition splice {A} (o : nat) (b : list A) (l : list A) : list A :=
  take o l ++ b ++ drop (o + length b) l.

Lemma length_slice {A} o n (l : list A) : (o + n ≤ length l)%nat → length (slice o n l) = n.
Proof. intros. unfold slice. rewrite length_take, length_drop. lia. Qed.

Lemma length_splice {A} o b (l : list A) : (o + length b ≤ length l)%nat → length (splice o b l) = length l.
Proof. intros. unfold splice. rewrite !length_app, length_take, length_drop. lia. Qed.

Lemma lookup_slice {A} o n (l : list A) i : (i < n)%nat → slice o n l !! i = l !! (o + i)%nat.
Proof. intros. unfold slice. by rewrite lookup_take_lt, lookup_drop. Qed.

Lemma lookup_slice_ge {A} o n (l : list A) i : (n ≤ i)%nat → slice o n l !! i = None.
Proof. intros. unfold slice. by rewrite lookup_take_ge. Qed.

Lemma lookup_splice {A} o b (l : list A) i :
  (o + length b ≤ length l)%nat →
  splice o b l !! i = if decide (o ≤ i < o + length b)%nat then b !! (i - o)%nat else l !! i.
Proof.
  intros Hl. unfold splice. destruct (decide (i < o)%nat) as [Hi|Hi].
  - rewrite lookup_app_l by (rewrite length_take; lia). rewrite lookup_take_lt by lia.
    by rewrite decide_False by lia.
  - rewrite lookup_app_r by (rewrite length_take; lia).
    rewrite length_take, Nat.min_l by lia. case_decide as Hc.
    + by rewrite lookup_app_l by lia.
    + rewrite lookup_app_r by lia. rewrite lookup_drop. f_equal. lia.
Qed.

Lemma slice_splice_eq {A} o b (l : list A) :
  (o + length b ≤ length l)%nat → slice o (length b) (splice o b l) = b.
Proof.
  intros Hl. apply list_eq. intros i. destruct (decide (i < length b)%nat) as [Hi|Hi].
  - rewrite lookup_slice, lookup_splice, decide_True by lia. f_equal. lia.
  - rewrite lookup_slice_ge by lia. by rewrite lookup_ge_None_2 by lia.
Qed.

Lemma slice_splice_ne {A} o b (l : list A) o' n :
  (o + length b ≤ length l)%nat → (o' + n ≤ o ∨ o + length b ≤ o')%nat →
  slice o' n (splice o b l) = slice o' n l.
Proof.
  intros Hl Ho. apply list_eq. intros i. destruct (decide (i < n)%nat) as [Hi|Hi].
  - rewrite !lookup_slice, lookup_splice by lia. by rewrite decide_False by lia.
  - by rewrite !lookup_slice_ge by lia.
Qed.

Lemma splice_all {A} (b l : list A) : length b = length l → splice 0 b l = b.
Proof. intros H. unfold splice. by rewrite H, take_0, drop_ge, app_nil_r by lia. Qed.

Lemma splice_slice {A} o n (l : list A) : (o + n ≤ length l)%nat → splice o (slice o n l) l = l.
Proof.
  intros Hl. unfold splice. rewrite length_slice by done. unfold slice.
  rewrite <-drop_drop, take_drop. by rewrite take_drop.
Qed.

(** ** Fields *)

Definition get16 (o : nat) (d : list Z) : Z := le_val (slice o 2 d).
Definition get32 (o : nat) (d : list Z) : Z := le_val (slice o 4 d).
Definition put16 (o : nat) (v : Z) (d : list Z) : list Z := splice o (le_bytes 2 v) d.
Definition put32 (o : nat) (v : Z) (d : list Z) : list Z := splice o (le_bytes 4 v) d.

Lemma length_put16 o v d : (o + 2 ≤ length d)%nat → length (put16 o v d) = length d.
Proof. intros. apply length_splice. by rewrite length_le_bytes. Qed.
Lemma length_put32 o v d : (o + 4 ≤ length d)%nat → length (put32 o v d) = length d.
Proof. intros. apply length_splice. by rewrite length_le_bytes. Qed.

Lemma get16_put16 o v d : (o + 2 ≤ length d)%nat → get16 o (put16 o v d) = u16 v.
Proof.
  intros. unfold get16, put16. change 2%nat with (length (le_bytes 2 v)) at 1.
  by rewrite slice_splice_eq, le_val_bytes by (by rewrite length_le_bytes).
Qed.
Lemma get32_put32 o v d : (o + 4 ≤ length d)%nat → get32 o (put32 o v d) = u32 v.
Proof.
  intros. unfold get32, put32. change 4%nat with (length (le_bytes 4 v)) at 1.
  by rewrite slice_splice_eq, le_val_bytes by (by rewrite length_le_bytes).
Qed.

(** A field is not changed by a write elsewhere. *)
Lemma get32_splice o o' b d :
  (o + length b ≤ length d)%nat → (o' + 4 ≤ o ∨ o + length b ≤ o')%nat →
  get32 o' (splice o b d) = get32 o' d.
Proof. intros. unfold get32. by rewrite slice_splice_ne. Qed.
Lemma get16_splice o o' b d :
  (o + length b ≤ length d)%nat → (o' + 2 ≤ o ∨ o + length b ≤ o')%nat →
  get16 o' (splice o b d) = get16 o' d.
Proof. intros. unfold get16. by rewrite slice_splice_ne. Qed.
Lemma get32_put32_ne o o' v d :
  (o + 4 ≤ length d)%nat → (o' + 4 ≤ o ∨ o + 4 ≤ o')%nat → get32 o' (put32 o v d) = get32 o' d.
Proof. intros. unfold put32. by rewrite get32_splice by (by rewrite length_le_bytes). Qed.

Lemma get32_range o d : is_u32 (get32 o d).
Proof.
  unfold get32, is_u32. pose proof (le_val_range (slice o 4 d)) as H.
  assert (Z.of_nat (length (slice o 4 d)) ≤ 4) by (unfold slice; rewrite length_take; lia).
  assert (256 ^ Z.of_nat (length (slice o 4 d)) ≤ 256 ^ 4) by (apply Z.pow_le_mono_r; lia). lia.
Qed.
