(* ===== verification/Kernel.v ===== *)
(** * The data of the kernel

    The constants of param.h, memlayout.h, mmu.h, fs.h, buf.h and fcntl.h, the
    structs of proc.h, x86.h, spinlock.h, sleeplock.h, buf.h, file.h and of
    the .c files that declare their own tables, and the [kernel] record that
    holds every global variable the modelled code reads or writes.  The last
    section gives [acquire] and [release] of a spin lock as the rest of the
    kernel sees them; Spinlock.v shows that spinlock.c implements them. *)

From S2P Require Import Prelude.

(** ** Constants *)

Definition NPROC : nat := 64.
Definition KSTACKSIZE : Z := 4096.
Definition NOFILE : nat := 16.
Definition NFILE : nat := 100.
Definition MAXOPBLOCKS : Z := 10.
Definition LOGSIZE : Z := MAXOPBLOCKS * 3.
Definition NBUF : nat := 30.
Definition QUANTUM : Z := 5.
Definition ROOTDEV : Z := 1.

Definition EXTMEM : Z := 0x100000.
Definition PHYSTOP : Z := 0xE000000.
Definition DEVSPACE : Z := 0xFE000000.
Definition KERNBASE : Z := 0x80000000.
Definition KERNLINK : Z := KERNBASE + EXTMEM.
Definition V2P (a : Z) : Z := u32 (a - KERNBASE).
Definition P2V (a : Z) : Z := u32 (a + KERNBASE).

Definition PGSIZE : Z := 4096.
Definition PGROUNDUP (sz : Z) : Z := Z.land (u32 (sz + PGSIZE - 1)) (u32 (Z.lnot (PGSIZE - 1))).
Definition PGROUNDDOWN (a : Z) : Z := Z.land a (u32 (Z.lnot (PGSIZE - 1))).

Lemma page_mask a : is_u32 a → Z.land a (u32 (Z.lnot (PGSIZE - 1))) = a - a mod PGSIZE.
Proof.
  intros Ha. unfold u32. change (PGSIZE - 1) with (Z.ones 12). change PGSIZE with (2 ^ 12).
  rewrite <-(Z.land_ones (Z.lnot _)) by lia.
  rewrite (Z.land_comm (Z.lnot _)), Z.land_assoc, Z.land_ones, (Z.mod_small a (2 ^ 32)) by (done || lia).
  rewrite <-Z.ldiff_land, Z.ldiff_ones_r, Z.shiftl_mul_pow2, Z.shiftr_div_pow2 by lia.
  pose proof (Z.div_mod a (2 ^ 12)). lia.
Qed.

Lemma PGROUNDDOWN_eq a : is_u32 a → PGROUNDDOWN a = a - a mod PGSIZE.
Proof. apply page_mask. Qed.

Lemma PGROUNDUP_eq a :
  0 ≤ a → a + PGSIZE - 1 < 2 ^ 32 → PGROUNDUP a = a + PGSIZE - 1 - (a + PGSIZE - 1) mod PGSIZE.
Proof.
  intros Ha Hb. unfold PGROUNDUP.
  assert (H : is_u32 (a + PGSIZE - 1)) by (unfold is_u32, PGSIZE in *; lia).
  rewrite (u32_small _ H). by apply page_mask.
Qed.

(** The least page boundary at or above [a]. *)
Lemma PGROUNDUP_bounds a :
  0 ≤ a → a + PGSIZE - 1 < 2 ^ 32 →
  PGROUNDUP a mod PGSIZE = 0 ∧ a ≤ PGROUNDUP a < a + PGSIZE.
Proof.
  intros Ha Hb. rewrite PGROUNDUP_eq by done. unfold PGSIZE in *. Z.div_mod_to_equations. lia.
Qed.

Definition SCHED_FCFS : Z := 0.
Definition SCHED_SJF : Z := 1.
Definition SCHED_BJF : Z := 2.
Definition SCHED_RANDOM : Z := 3.
Definition SCHED_RR : Z := 4.

Definition NINODE : nat := 50.
Definition NDEV : Z := 10.
Definition MAXARG : nat := 32.

Definition ROOTINO : Z := 1.
Definition BSIZE : Z := 512.
Definition NDIRECT : nat := 12.
Definition NINDIRECT : nat := 128.
Definition MAXFILE : Z := 140.
Definition BPB : Z := BSIZE * 8.
Definition IPB : Z := 8.
Definition DIRSIZ : Z := 14.
Definition T_DIR : Z := 1.
Definition T_FILE : Z := 2.
Definition T_DEV : Z := 3.
Definition CONSOLE : Z := 1.
Definition INPUT_BUF : Z := 128.
Definition B_VALID : Z := 2.
Definition B_DIRTY : Z := 4.
Definition PIPESIZE : Z := 512.

(** ** Names of locks and of sleep channels

    In C both are addresses; here an address is the constructor of the object
    it points to, so that two are equal exactly when the C pointers are. *)

Inductive slobj := SlBuf (i : nat) | SlInode (i : nat).

Inductive lockid :=
| LkPtable | LkTicks | LkKmem | LkBcache | LkIcache | LkFtable | LkLog | LkIde | LkCons
| LkPipe (p : Z)
| LkSleep (o : slobj).

Inductive wchan :=
| ChTicks
| ChProc (i : nat)
| ChLog
| ChPipeRead (p : Z)
| ChPipeWrite (p : Z)
| ChBuf (i : nat)
| ChSleeplock (o : slobj)
| ChInput.

#[export] Instance slobj_eq : EqDecision slobj.
Proof. solve_decision. Defined.
#[export] Instance lockid_eq : EqDecision lockid.
Proof. solve_decision. Defined.
#[export] Instance wchan_eq : EqDecision wchan.
Proof. solve_decision. Defined.

(** ** Processes: proc.h, x86.h *)

Inductive procstate := UNUSED | EMBRYO | SLEEPING | RUNNABLE | RUNNING | ZOMBIE.

#[export] Instance procstate_eq : EqDecision procstate.
Proof. solve_decision. Defined.

Record trapframe := mktf {
  tf_edi : Z; tf_esi : Z; tf_ebp : Z; tf_oesp : Z; tf_ebx : Z; tf_edx : Z; tf_ecx : Z; tf_eax : Z;
  tf_gs : Z; tf_fs : Z; tf_es : Z; tf_ds : Z; tf_trapno : Z;
  tf_err : Z; tf_eip : Z; tf_cs : Z; tf_eflags : Z; tf_esp : Z; tf_ss : Z }.
#[export] Instance eta_trapframe : Eta trapframe := λ t,
  mktf (tf_edi t) (tf_esi t) (tf_ebp t) (tf_oesp t) (tf_ebx t) (tf_edx t) (tf_ecx t) (tf_eax t)
       (tf_gs t) (tf_fs t) (tf_es t) (tf_ds t) (tf_trapno t)
       (tf_err t) (tf_eip t) (tf_cs t) (tf_eflags t) (tf_esp t) (tf_ss t).
Definition tf0 : trapframe := mktf 0 0 0 0 0 0 0 0 0 0 0 0 0 0 0 0 0 0 0.

Record context := mkctx { cx_edi : Z; cx_esi : Z; cx_ebx : Z; cx_ebp : Z; cx_eip : Z }.
#[export] Instance eta_context : Eta context := λ c,
  mkctx (cx_edi c) (cx_esi c) (cx_ebx c) (cx_ebp c) (cx_eip c).
Definition ctx0 : context := mkctx 0 0 0 0 0.

(** [p->tf] and [p->context] point into the process's own kernel stack; the
    record holds the structs they point to.  [parent], [cwd] and the entries
    of [ofile] are indices in the table the C pointer points into. *)
Record proc := mkproc {
  sz : Z;
  pgdir : Z;
  kstack : Z;
  state : procstate;
  pid : Z;
  parent : option nat;
  tf : trapframe;
  ctx : context;
  chan : option wchan;
  killed : Z;
  ofile : list (option nat);
  cwd : option nat;
  name : list Z;
  createtime : Z;
  syscall_count : Z;
  good_syscall_count : Z;
  runtime : Z;
  sleeptime : Z;
  exittime : Z;
  priority : Z;
  estimated_burst : Z;
  last_burst_ticks : Z;
  pticks : Z;
  yield_request : Z }.
#[export] Instance eta_proc : Eta proc := λ p,
  mkproc (sz p) (pgdir p) (kstack p) (state p) (pid p) (parent p) (tf p) (ctx p) (chan p)
         (killed p) (ofile p) (cwd p) (name p) (createtime p) (syscall_count p)
         (good_syscall_count p) (runtime p) (sleeptime p) (exittime p) (priority p)
         (estimated_burst p) (last_burst_ticks p) (pticks p) (yield_request p).

(** A slot of the table at boot: a zeroed struct. *)
Definition proc0 : proc :=
  mkproc 0 0 0 UNUSED 0 None tf0 ctx0 None 0 (replicate NOFILE None) None (replicate 16 0)
         0 0 0 0 0 0 0 0 0 0 0.

(** The globals of proc.c and trap.c. *)
Record procst := mkprocst {
  ptable : list proc;
  initproc : option nat;
  current_scheduler : Z;
  nextpid : Z;
  random_seed : Z;
  ticks : Z }.
#[export] Instance eta_procst : Eta procst := λ s,
  mkprocst (ptable s) (initproc s) (current_scheduler s) (nextpid s) (random_seed s) (ticks s).

(** The part of [struct cpu] the modelled code uses, for each processor: the
    process it runs ([proc]), the kernel stack its task state names
    ([ts.esp0]), and its page table register [%cr3].  [me] is the processor
    that executes. *)
Record cpust := mkcpust {
  me : nat; cpu_proc : list (option nat); cpu_esp0 : list Z; cpu_cr3 : list Z }.
#[export] Instance eta_cpust : Eta cpust := λ c,
  mkcpust (me c) (cpu_proc c) (cpu_esp0 c) (cpu_cr3 c).

(** ** Physical memory: kalloc.c

    [bytes] is the memory the kernel addresses; [kend] is the linker's [end]. *)
Record kmemst := mkkmem { use_lock : bool; freelist : Z; kend : Z; bytes : Z → Z }.
#[export] Instance eta_kmemst : Eta kmemst := λ k,
  mkkmem (use_lock k) (freelist k) (kend k) (bytes k).

(** The kernel's own page table, [kpgdir] of vm.c, and what the linker fixes:
    the addresses of [data], [forkret] and [trapret], and the address and size
    of the code of the first process. *)
Record vmst := mkvm {
  kpgdir : Z; kdata : Z; sym_forkret : Z; sym_trapret : Z;
  sym_initcode_start : Z; sym_initcode_size : Z }.
#[export] Instance eta_vmst : Eta vmst := λ v,
  mkvm (kpgdir v) (kdata v) (sym_forkret v) (sym_trapret v) (sym_initcode_start v)
       (sym_initcode_size v).

(** ** Open files and pipes: file.h, pipe.c *)

Inductive fdtype := FD_NONE | FD_PIPE | FD_INODE.
#[export] Instance fdtype_eq : EqDecision fdtype.
Proof. solve_decision. Defined.

Record file := mkfile {
  f_type : fdtype; f_ref : Z; f_readable : Z; f_writable : Z;
  f_pipe : Z; f_ip : option nat; f_off : Z }.
#[export] Instance eta_file : Eta file := λ f,
  mkfile (f_type f) (f_ref f) (f_readable f) (f_writable f) (f_pipe f) (f_ip f) (f_off f).
Definition file0 : file := mkfile FD_NONE 0 0 0 0 None 0.

Record pipe := mkpipe {
  pdata : list Z; nread : Z; nwrite : Z; readopen : Z; writeopen : Z }.
#[export] Instance eta_pipe : Eta pipe := λ p,
  mkpipe (pdata p) (nread p) (nwrite p) (readopen p) (writeopen p).

(** ** Sleep locks, buffers and the log: sleeplock.h, buf.h, log.c *)

Record sleeplock := mksl { sl_locked : Z; sl_pid : Z }.
#[export] Instance eta_sleeplock : Eta sleeplock := λ l, mksl (sl_locked l) (sl_pid l).

(** [prev] and [next] are indices: [i < NBUF] is [&bcache.buf[i]] and [NBUF]
    is [&bcache.head]. *)
Record buf := mkbuf {
  flags : Z; dev : Z; blockno : Z; b_lock : sleeplock; refcnt : Z;
  prev : nat; next : nat; data : list Z }.
#[export] Instance eta_buf : Eta buf := λ b,
  mkbuf (flags b) (dev b) (blockno b) (b_lock b) (refcnt b) (prev b) (next b) (data b).

(** A zeroed buffer. *)
Definition buf0 : buf := mkbuf 0 0 0 (mksl 0 0) 0 0 0 (replicate (Z.to_nat BSIZE) 0).

(** [bcache]: the buffers, followed by the list head at index [NBUF]. *)
Record bcachest := mkbcache { bnodes : list buf }.
#[export] Instance eta_bcachest : Eta bcachest := λ b, mkbcache (bnodes b).

(** [memdisk] of memide.c as an array of blocks, and the history of the block
    writes it has taken (a specification variable: the code never reads it). *)
Record diskst := mkdisk { memdisk : list (list Z); dwrites : list (Z * list Z) }.
#[export] Instance eta_diskst : Eta diskst := λ d, mkdisk (memdisk d) (dwrites d).

Record logst := mklog {
  lg_start : Z; lg_size : Z; outstanding : Z; committing : Z; lg_dev : Z;
  lh_n : Z; lh_block : list Z }.
#[export] Instance eta_logst : Eta logst := λ l,
  mklog (lg_start l) (lg_size l) (outstanding l) (committing l) (lg_dev l) (lh_n l) (lh_block l).

(** ** Inodes and the console: fs.h, file.h, console.c *)

Record superblock := mksb {
  sb_size : Z; sb_nblocks : Z; sb_ninodes : Z; sb_nlog : Z; sb_logstart : Z;
  sb_inodestart : Z; sb_bmapstart : Z }.
#[export] Instance eta_superblock : Eta superblock := λ b,
  mksb (sb_size b) (sb_nblocks b) (sb_ninodes b) (sb_nlog b) (sb_logstart b) (sb_inodestart b)
       (sb_bmapstart b).

Record inode := mkinode {
  i_dev : Z; i_inum : Z; i_ref : Z; i_lock : sleeplock; i_valid : Z;
  i_type : Z; i_major : Z; i_minor : Z; i_nlink : Z; i_size : Z; i_addrs : list Z }.
#[export] Instance eta_inode : Eta inode := λ i,
  mkinode (i_dev i) (i_inum i) (i_ref i) (i_lock i) (i_valid i) (i_type i) (i_major i) (i_minor i)
          (i_nlink i) (i_size i) (i_addrs i).
Definition inode0 : inode :=
  mkinode 0 0 0 (mksl 0 0) 0 0 0 0 0 0 (replicate (S NDIRECT) 0).

(** The variables of console.c and kbd.c: [input], [cons.locking], the text
    memory [crt] with the cursor position the display controller keeps, and
    [shift]; [consout] is the sequence of the characters given to [uartputc] so
    far (a specification variable). *)
Record consst := mkcons {
  in_buf : list Z; in_r : Z; in_w : Z; in_e : Z; cons_locking : bool;
  crt : list Z; crtpos : Z; kbd_shift : Z; consout : list Z }.
#[export] Instance eta_consst : Eta consst := λ c,
  mkcons (in_buf c) (in_r c) (in_w c) (in_e c) (cons_locking c) (crt c) (crtpos c) (kbd_shift c)
         (consout c).
Definition cons0 : consst :=
  mkcons (replicate 128 0) 0 0 0 false (replicate 2000 0) 0 0 [].

(** ** The kernel *)

Record kernel := mkkernel {
  held : list lockid;
  kcpu : cpust;
  kproc : procst;
  kmem : kmemst;
  kvm : vmst;
  ftable : list file;
  pipes : gmap Z pipe;
  kbio : bcachest;
  kdisk : diskst;
  klog : logst;
  icache : list inode;
  sb : superblock;
  kcons : consst }.
#[export] Instance eta_kernel : Eta kernel := λ k,
  mkkernel (held k) (kcpu k) (kproc k) (kmem k) (kvm k) (ftable k) (pipes k) (kbio k) (kdisk k)
           (klog k) (icache k) (sb k) (kcons k).

(** A kernel that has just been loaded: zeroed tables, two processors, and
    [end] one page after the start of the kernel. *)
Definition kernel0 : kernel :=
  {| held := [];
     kcpu := {| me := 0; cpu_proc := [None; None]; cpu_esp0 := [0; 0]; cpu_cr3 := [0; 0] |};
     kproc := {| ptable := replicate NPROC proc0; initproc := None;
                 current_scheduler := SCHED_FCFS; nextpid := 1; random_seed := 1; ticks := 0 |};
     kmem := {| use_lock := false; freelist := 0; kend := KERNLINK + PGSIZE; bytes := λ _, 0 |};
     kvm := {| kpgdir := 0; kdata := KERNLINK + 256; sym_forkret := KERNLINK + 16;
               sym_trapret := KERNLINK + 32; sym_initcode_start := KERNLINK + 512;
               sym_initcode_size := 44 |};
     ftable := replicate NFILE file0;
     pipes := ∅;
     kbio := {| bnodes := [] |};
     kdisk := {| memdisk := []; dwrites := [] |};
     klog := {| lg_start := 0; lg_size := 0; outstanding := 0; committing := 0; lg_dev := 0;
                lh_n := 0; lh_block := replicate 30 0 |};
     icache := replicate NINODE inode0;
     sb := mksb 0 0 0 0 0 0 0;
     kcons := cons0 |}.

(** Where a process gave up the processor in [sched()], with the local
    variables it needs when it comes back: in [sleep] (on [chan], with the lock
    [lk] to take again and [start_ticks]), in [yield] or in [exit]. *)
Inductive swpoint :=
| AtSleep (ch : wchan) (lk : lockid) (start_ticks : Z)
| AtYield
| AtExit.

#[export] Instance swpoint_eq : EqDecision swpoint.
Proof. solve_decision. Defined.

Abbreviation KM := (M kernel swpoint).

(** ** Spin locks as the kernel uses them

    [held] is the set of spin locks of the executing processor, innermost
    first.  [acquire] panics on a lock this processor holds already and
    [release] on one it does not hold; a lock another processor holds makes
    [acquire] spin, which changes nothing. *)

Definition holding (l : lockid) : KM bool := gets (λ s, bool_decide (l ∈ held s)).

Definition acquire (l : lockid) : KM unit :=
  h ← holding l;
  if h then panic "acquire" else modify_state (λ s, s <| held ::= cons l |>).

Definition release (l : lockid) : KM unit :=
  h ← holding l;
  if h then modify_state (λ s, s <| held ::= filter (λ l', l' ≠ l) |>) else panic "release".

Lemma acquire_eq l s :
  acquire l s = if bool_decide (l ∈ held s) then Panic "acquire"
                else Ok tt (s <| held ::= cons l |>).
Proof. unfold acquire, holding. munfold. by destruct (bool_decide _). Qed.

Lemma release_eq l s :
  release l s = if bool_decide (l ∈ held s) then Ok tt (s <| held ::= filter (λ l', l' ≠ l) |>)
                else Panic "release".
Proof. unfold release, holding. munfold. by destruct (bool_decide _). Qed.

Lemma acquire_ok l s : l ∉ held s → acquire l s = Ok tt (s <| held ::= cons l |>).
Proof. intros H. rewrite acquire_eq. by rewrite bool_decide_false. Qed.

Lemma release_ok l s :
  l ∈ held s → release l s = Ok tt (s <| held ::= filter (λ l', l' ≠ l) |>).
Proof. intros H. rewrite release_eq. by rewrite bool_decide_true. Qed.

Lemma filter_ne_fresh (l : lockid) (ls : list lockid) :
  l ∉ ls → filter (λ l', l' ≠ l) ls = ls.
Proof.
  induction ls as [|l' ls IH]; [done|]. rewrite not_elem_of_cons. intros [Hne Hl].
  rewrite filter_cons_True by congruence. by rewrite IH.
Qed.

(** Releasing the innermost lock leaves the others as they were. *)
Lemma filter_ne_cons (l : lockid) (ls : list lockid) :
  l ∉ ls → filter (λ l', l' ≠ l) (l :: ls) = ls.
Proof.
  intros. rewrite filter_cons_False by (intros H'; by apply H'). by apply filter_ne_fresh.
Qed.

(** The processor may take [l]: it does not hold it already. *)
Definition can_lock (l : lockid) (s : kernel) : Prop := l ∉ held s.

Lemma release_cons l ls s :
  held s = l :: ls → l ∉ ls → release l s = Ok tt (s <| held := ls |>).
Proof.
  intros Hs Hl. rewrite release_ok by (rewrite Hs; apply list_elem_of_here).
  f_equal. unfold modify. simpl. by rewrite Hs, filter_ne_cons.
Qed.

(** Taking a lock with no other held. *)
Lemma acquire_free l s : held s = [] → acquire l s = Ok tt (s <| held := [l] |>).
Proof.
  intros Hh. rewrite acquire_ok by (rewrite Hh; apply not_elem_of_nil).
  by destruct s; simpl in *; subst.
Qed.

Lemma release_last l s : held s = [l] → release l s = Ok tt (s <| held := [] |>).
Proof. intros Hh. apply release_cons; [done|apply not_elem_of_nil]. Qed.

(** [myproc()]: the slot the executing processor runs, [None] for a null
    pointer. *)
Definition myproc : KM (option nat) :=
  gets (λ s, cpu_proc (kcpu s) !! me (kcpu s) ≫= id).

(** ** Functions that do not give up the processor *)

#[export] Instance any_preorder : PreOrder (λ _ _ : kernel, True).
Proof. done. Qed.

Abbreviation NoSleep := (Pres (λ _ _ : kernel, True) (λ _ _ : kernel, False)).

Lemma no_sleep {A} (m : KM A) `{!NoSleep m} s pt s' : m s ≠ Sleep pt s'.
Proof. intros H. pose proof (pres (m:=m) s) as Hp. by rewrite H in Hp. Qed.

#[export] Instance no_sleep_modify f : NoSleep (modify_state f : KM unit).
Proof. done. Qed.
#[export] Instance no_sleep_acquire l : NoSleep (acquire l).
Proof. intros s. rewrite acquire_eq. by destruct (bool_decide _). Qed.
#[export] Instance no_sleep_release l : NoSleep (release l).
Proof. intros s. rewrite release_eq. by destruct (bool_decide _). Qed.

(** ** Evaluating concrete runs *)

(** The state a function ends in. *)
Definition after {A} (m : KM A) (s : kernel) : kernel :=
  match m s with Ok _ s' | Sleep _ s' => s' | Panic _ => s end.

Lemma after_ok {A} (m : KM A) s a :
  match m s with Ok a' _ => a' = a | _ => False end → m s = Ok a (after m s).
Proof. unfold after. by destruct (m s); intros; subst. Qed.

Lemma after_sleep {A} (m : KM A) s pt :
  match m s with Sleep pt' _ => pt' = pt | _ => False end → m s = Sleep pt (after m s).
Proof. unfold after. by destruct (m s); intros; subst. Qed.

Ltac evaluate :=
  lazymatch goal with
  | |- _ = Ok _ ?k => unfold k; apply after_ok; vm_compute; reflexivity
  | |- _ = Sleep _ ?k => unfold k; apply after_sleep; vm_compute; reflexivity
  | |- _ => vm_compute; reflexivity
  end.
