(* ===== verification/Spinlock.v ===== *)
(** * Spin locks and interrupt nesting: spinlock.c, mycpu of proc.c

    The processors with their interrupt flag, [ncli] and [intena], and the lock
    words they exchange with the atomic [xchg].  [acquire] and [release] are
    split at the instructions where another processor can observe them, and a
    step relation interleaves the processors.  The theorems: at most one
    processor is inside a critical section, interrupts are off wherever a lock
    is held or waited for, [pushcli]/[popcli] nest, and [acquire]/[release]
    implement the [held]-set operations of Kernel.v. *)

From stdpp Require Import functions.
From S2P Require Import Prelude Kernel.

Module Spin.

(** ** State: struct cpu of proc.h, struct spinlock of spinlock.h *)

Record cpu := mkcpu { apicid : Z; eflags_if : bool; ncli : Z; intena : bool }.
#[export] Instance eta_cpu : Eta cpu := λ c, mkcpu (apicid c) (eflags_if c) (ncli c) (intena c).

Record spinlock := mkspin { locked : Z; lcpu : option nat }.
#[export] Instance eta_spinlock : Eta spinlock := λ l, mkspin (locked l) (lcpu l).

Record smp := mksmp { cpus : list cpu; locks : lockid → spinlock }.
#[export] Instance eta_smp : Eta smp := λ s, mksmp (cpus s) (locks s).

Abbreviation SM := (M smp unit).

(** ** Operations

    [c] is the processor that executes: its flags are the ones [readeflags],
    [cli] and [sti] use and its identifier is what [lapicid()] returns. *)

Definition cpu_of (c : nat) (s : smp) : cpu := default (mkcpu 0 false 0 false) (cpus s !! c).

Definition readeflags (c : nat) : SM bool := gets (λ s, eflags_if (cpu_of c s)).
Definition cli (c : nat) : SM unit :=
  modify_state (λ s, s <| cpus ::= alter (λ x, x <| eflags_if := false |>) c |>).
Definition sti (c : nat) : SM unit :=
  modify_state (λ s, s <| cpus ::= alter (λ x, x <| eflags_if := true |>) c |>).

Definition mycpu (c : nat) : SM nat :=
  eflags ← readeflags c;
  if (eflags : bool) then panic "mycpu called with interrupts enabled"
  else
    i ← gets (λ s, find_index (λ x, apicid x =? apicid (cpu_of c s)) (cpus s));
    match i with
    | Some i => ret i
    | None => panic "unknown apicid"
    end.

Definition initlock (l : lockid) : SM unit :=
  modify_state (λ s, s <| locks ::= <[l := mkspin 0 None]> |>).

Definition pushcli (c : nat) : SM unit :=
  eflags ← readeflags c;
  cli c ;;
  i ← mycpu c;
  modify_state (λ s, s <| cpus ::= alter (λ x,
    (if ncli x =? 0 then x <| intena := eflags |> else x) <| ncli ::= Z.add 1 |>) i |>).

Definition popcli (c : nat) : SM unit :=
  eflags ← readeflags c;
  if (eflags : bool) then panic "popcli - interruptible"
  else
    i ← mycpu c;
    modify_state (λ s, s <| cpus ::= alter (λ x, x <| ncli ::= λ n, n - 1 |>) i |>) ;;
    x ← gets (cpu_of i);
    if ncli x <? 0 then panic "popcli"
    else if (ncli x =? 0) && intena x then sti c else ret tt.

Definition holding (c : nat) (l : lockid) : SM bool :=
  pushcli c ;;
  i ← mycpu c;
  r ← gets (λ s, negb (locked (locks s l) =? 0) && bool_decide (lcpu (locks s l) = Some i));
  popcli c ;;
  ret r.

(** [acquire]: up to the [xchg] loop, one turn of the loop, and after it. *)
Definition acquire_enter (c : nat) (l : lockid) : SM unit :=
  pushcli c ;;
  h ← holding c l;
  if (h : bool) then panic "acquire" else ret tt.

Definition xchg (l : lockid) (newval : Z) : SM Z :=
  old ← gets (λ s, locked (locks s l));
  modify_state (λ s, s <| locks ::= <[l := (locks s l) <| locked := newval |>]> |>) ;;
  ret old.

Definition acquire_done (c : nat) (l : lockid) : SM unit :=
  i ← mycpu c;
  modify_state (λ s, s <| locks ::= <[l := (locks s l) <| lcpu := Some i |>]> |>).

(** The whole of [acquire] when the first [xchg] finds the lock free. *)
Definition acquire (c : nat) (l : lockid) : SM bool :=
  acquire_enter c l ;;
  old ← xchg l 1;
  if old =? 0 then acquire_done c l ;; ret true else ret false.

(** [release]: the check and [lk->cpu = 0], then [lk->locked = 0; popcli()]. *)
Definition release_enter (c : nat) (l : lockid) : SM unit :=
  h ← holding c l;
  if (h : bool)
  then modify_state (λ s, s <| locks ::= <[l := (locks s l) <| lcpu := None |>]> |>)
  else panic "release".

Definition release_done (c : nat) (l : lockid) : SM unit :=
  modify_state (λ s, s <| locks ::= <[l := (locks s l) <| locked := 0 |>]> |>) ;;
  popcli c.

Definition release (c : nat) (l : lockid) : SM unit := release_enter c l ;; release_done c l.

(** ** Interleaving *)

(** Where a processor is: in other code, in the [xchg] loop of [acquire],
    after it, or between the two halves of [release]. *)
Inductive pc := Running | Spinning (l : lockid) | Got (l : lockid) | Releasing (l : lockid).

(** What a processor is doing: its position, the locks it has acquired and not
    yet released, and its [pushcli] calls that [popcli] has not undone yet. *)
Record thread := mkthread { tpc : pc; theld : list lockid; tpush : nat }.
#[export] Instance eta_thread : Eta thread := λ t, mkthread (tpc t) (theld t) (tpush t).

Record config := mkcfg { mach : smp; threads : list thread }.

Definition init_config (ids : list Z) : config :=
  mkcfg (mksmp ((λ a, mkcpu a true 0 false) <$> ids) (λ _, mkspin 0 None))
        ((λ _, mkthread Running [] 0) <$> ids).

Inductive step : config → config → Prop :=
| step_enter c l s s' ts h n :
    ts !! c = Some (mkthread Running h n) → acquire_enter c l s = Ok tt s' →
    step (mkcfg s ts) (mkcfg s' (<[c := mkthread (Spinning l) h n]> ts))
| step_try c l s s' old ts h n :
    ts !! c = Some (mkthread (Spinning l) h n) → xchg l 1 s = Ok old s' →
    step (mkcfg s ts)
         (mkcfg s' (if old =? 0 then <[c := mkthread (Got l) h n]> ts else ts))
| step_got c l s s' ts h n :
    ts !! c = Some (mkthread (Got l) h n) → acquire_done c l s = Ok tt s' →
    step (mkcfg s ts) (mkcfg s' (<[c := mkthread Running (l :: h) n]> ts))
| step_release c l s s' ts h n :
    ts !! c = Some (mkthread Running h n) → release_enter c l s = Ok tt s' →
    step (mkcfg s ts)
         (mkcfg s' (<[c := mkthread (Releasing l) (filter (λ l', l' ≠ l) h) n]> ts))
| step_released c l s s' ts h n :
    ts !! c = Some (mkthread (Releasing l) h n) → release_done c l s = Ok tt s' →
    step (mkcfg s ts) (mkcfg s' (<[c := mkthread Running h n]> ts))
| step_push c s s' ts h n :
    ts !! c = Some (mkthread Running h n) → pushcli c s = Ok tt s' →
    step (mkcfg s ts) (mkcfg s' (<[c := mkthread Running h (S n)]> ts))
| step_pop c s s' ts h n :
    ts !! c = Some (mkthread Running h (S n)) → popcli c s = Ok tt s' →
    step (mkcfg s ts) (mkcfg s' (<[c := mkthread Running h n]> ts)).

(** ** Single operations *)

Definition owns (c : nat) (l : lockid) (s : smp) : bool :=
  negb (locked (locks s l) =? 0) && bool_decide (lcpu (locks s l) = Some c).

Section ops.
Context (s : smp) (c : nat) (x : cpu).
Context (Hx : cpus s !! c = Some x) (Hids : NoDup (apicid <$> cpus s)).

Definition with_cpu (y : cpu) : smp := mksmp (<[c := y]> (cpus s)) (locks s).

Lemma with_cpu_id : with_cpu x = s.
Proof. unfold with_cpu. rewrite list_insert_id by done. by destruct s. Qed.

Lemma cpu_of_eq : cpu_of c s = x.
Proof. unfold cpu_of. by rewrite Hx. Qed.

Lemma find_me : find_index (λ y, apicid y =? apicid (cpu_of c s)) (cpus s) = Some c.
Proof.
  rewrite cpu_of_eq. apply find_index_Some. exists x. split_and!; [done|lia|].
  intros j y Hj Hy. apply Z.eqb_neq. intros Heq.
  assert (j = c); [|lia]. eapply (NoDup_lookup (apicid <$> cpus s)); [done|..].
  - by rewrite list_lookup_fmap, Hy.
  - rewrite list_lookup_fmap, Hx. cbn. by rewrite Heq.
Qed.

Lemma mycpu_ok : eflags_if x = false → mycpu c s = Ok c s.
Proof.
  intros Hif. unfold mycpu, readeflags. munfold. 
  assert (eflags_if (cpu_of c s) = false) as -> by (by rewrite cpu_of_eq).
  cbv beta match. by rewrite find_me.
Qed.
End ops.

Lemma with_cpu_wf s c x y :
  cpus s !! c = Some x → apicid y = apicid x → NoDup (apicid <$> cpus s) →
  cpus (with_cpu s c y) !! c = Some y ∧ NoDup (apicid <$> cpus (with_cpu s c y)).
Proof.
  intros Hx Hy Hnd. unfold with_cpu. simpl. split.
  - apply list_lookup_insert_eq. by eapply lookup_lt_Some.
  - rewrite list_fmap_insert, Hy, list_insert_id; [done|]. by rewrite list_lookup_fmap, Hx.
Qed.

Lemma with_cpu_twice s c y z : with_cpu (with_cpu s c y) c z = with_cpu s c z.
Proof. unfold with_cpu. simpl. by rewrite list_insert_insert_eq. Qed.

Lemma alter_insert_Some {A} (f : A → A) (l : list A) i x :
  l !! i = Some x → alter f i l = <[i := f x]> l.
Proof.
  intros Hx. apply list_eq. intros j. rewrite list_lookup_alter.
  destruct (decide (i = j)) as [<-|Hne].
  - rewrite Hx, list_lookup_insert_eq; [done|]. by eapply lookup_lt_Some.
  - by rewrite list_lookup_insert_ne.
Qed.

Lemma alter_cpu s c x f :
  cpus s !! c = Some x → s <| cpus ::= alter f c |> = with_cpu s c (f x).
Proof.
  intros Hx. unfold with_cpu, modify. f_equal. by apply alter_insert_Some.
Qed.

Lemma pushcli_ok s c x :
  cpus s !! c = Some x → NoDup (apicid <$> cpus s) →
  pushcli c s = Ok tt (with_cpu s c (mkcpu (apicid x) false (ncli x + 1)
                                       (if ncli x =? 0 then eflags_if x else intena x))).
Proof.
  intros Hx Hnd. unfold pushcli, readeflags, cli. munfold.
  rewrite (cpu_of_eq _ _ _ Hx), (alter_cpu _ _ _ _ Hx).
  pose proof (with_cpu_wf s c x (x <| eflags_if := false |>) Hx eq_refl Hnd) as [Hx1 Hnd1].
  rewrite (mycpu_ok _ _ _ Hx1 Hnd1 eq_refl), (alter_cpu _ _ _ _ Hx1), with_cpu_twice.
  cbn. destruct (ncli x =? 0); cbn; by rewrite Z.add_comm.
Qed.

Lemma popcli_ok s c x :
  cpus s !! c = Some x → NoDup (apicid <$> cpus s) → eflags_if x = false → 1 ≤ ncli x →
  popcli c s = Ok tt (with_cpu s c (mkcpu (apicid x) ((ncli x =? 1) && intena x)
                                      (ncli x - 1) (intena x))).
Proof.
  intros Hx Hnd Hif Hn. unfold popcli, readeflags. munfold.
  rewrite (cpu_of_eq _ _ _ Hx), Hif, (mycpu_ok _ _ _ Hx Hnd Hif), (alter_cpu _ _ _ _ Hx).
  pose proof (with_cpu_wf s c x (x <| ncli ::= λ n, n - 1 |>) Hx eq_refl Hnd) as [Hx1 Hnd1].
  rewrite (cpu_of_eq _ _ _ Hx1). cbn.
  rewrite (proj2 (Z.ltb_ge _ _)) by lia.
  assert ((ncli x - 1 =? 0) = (ncli x =? 1)) as -> by lia.
  destruct ((ncli x =? 1) && intena x) eqn:E.
  - unfold sti. munfold. rewrite (alter_cpu _ _ _ _ Hx1), with_cpu_twice. done.
  - destruct x; cbn in *; by subst.
Qed.

Lemma popcli_underflow s c x :
  cpus s !! c = Some x → NoDup (apicid <$> cpus s) → eflags_if x = false → ncli x < 1 →
  popcli c s = Panic "popcli".
Proof.
  intros Hx Hnd Hif Hn. unfold popcli, readeflags. munfold.
  rewrite (cpu_of_eq _ _ _ Hx), Hif, (mycpu_ok _ _ _ Hx Hnd Hif), (alter_cpu _ _ _ _ Hx).
  pose proof (with_cpu_wf s c x (x <| ncli ::= λ n, n - 1 |>) Hx eq_refl Hnd) as [Hx1 _].
  rewrite (cpu_of_eq _ _ _ Hx1). cbn. by rewrite (proj2 (Z.ltb_lt _ _)) by lia.
Qed.

(** A processor's flags agree with its nesting depth. *)
Definition cpu_wf (x : cpu) : Prop := 0 ≤ ncli x ∧ (0 < ncli x → eflags_if x = false).

Lemma holding_ok s c l x :
  cpus s !! c = Some x → NoDup (apicid <$> cpus s) → cpu_wf x →
  holding c l s = Ok (owns c l s)
    (with_cpu s c (x <| intena := if ncli x =? 0 then eflags_if x else intena x |>)).
Proof.
  intros Hx Hnd [Hn0 Hif]. unfold holding.
  mstep (pushcli_ok _ _ _ Hx Hnd). set (y := mkcpu _ _ _ _).
  pose proof (with_cpu_wf s c x y Hx eq_refl Hnd) as [Hx1 Hnd1].
  mstep (mycpu_ok _ _ _ Hx1 Hnd1 eq_refl). unfold gets at 1, bind at 1.
  mstep (popcli_ok _ _ _ Hx1 Hnd1 eq_refl ltac:(subst y; cbn; lia)).
  rewrite with_cpu_twice. unfold ret. f_equal. f_equal. subst y. cbn.
  destruct x as [a f n i]; cbn in *. rewrite Z.add_simpl_r. f_equal.
  destruct (Z.eqb_spec n 0) as [->|Hn]; [done|].
  rewrite Hif by lia. by rewrite (proj2 (Z.eqb_neq _ _)) by lia.
Qed.

Lemma holding_held s c l x :
  cpus s !! c = Some x → NoDup (apicid <$> cpus s) → cpu_wf x → 0 < ncli x →
  holding c l s = Ok (owns c l s) s.
Proof.
  intros Hx Hnd Hwf Hn. rewrite (holding_ok _ _ _ _ Hx Hnd Hwf).
  rewrite (proj2 (Z.eqb_neq _ _)) by lia.
  assert (x <| intena := intena x |> = x) as -> by (by destruct x).
  by rewrite with_cpu_id.
Qed.

(** ** The invariant of the interleaved processors *)

(** [inside l t]: the processor is in the critical section of [l]. *)
Definition inside (l : lockid) (t : thread) : Prop :=
  l ∈ theld t ∨ tpc t = Got l ∨ tpc t = Releasing l.

Definition pcw (p : pc) : Z := match p with Running => 0 | _ => 1 end.

Definition cpu_inv (s : smp) (c : nat) (t : thread) : Prop :=
  ∃ x, cpus s !! c = Some x ∧
       ncli x = Z.of_nat (length (theld t)) + Z.of_nat (tpush t) + pcw (tpc t) ∧
       (0 < ncli x → eflags_if x = false) ∧
       NoDup (theld t) ∧
       (∀ l, tpc t = Got l ∨ tpc t = Releasing l → l ∉ theld t).

Definition lock_inv (lk : spinlock) (l : lockid) (ts : list thread) : Prop :=
  (locked lk = 0 ∧ lcpu lk = None ∧ ∀ c t, ts !! c = Some t → ¬ inside l t) ∨
  (locked lk = 1 ∧ ∃ c t, ts !! c = Some t ∧ inside l t ∧
     (∀ c' t', ts !! c' = Some t' → inside l t' → c' = c) ∧
     lcpu lk = if decide (l ∈ theld t) then Some c else None).

Record inv (g : config) : Prop := mkinv {
  inv_ids : NoDup (apicid <$> cpus (mach g));
  inv_cpu : ∀ c t, threads g !! c = Some t → cpu_inv (mach g) c t;
  inv_lock : ∀ l, lock_inv (locks (mach g) l) l (threads g) }.

Lemma inv_init ids : NoDup ids → inv (init_config ids).
Proof.
  intros Hnd. split; simpl.
  - rewrite <-list_fmap_compose. by rewrite list_fmap_id.
  - intros c t (a & -> & Ha)%list_lookup_fmap_Some.
    exists (mkcpu a true 0 false). simpl. rewrite list_lookup_fmap, Ha.
    split_and!; [done..|lia|constructor|set_solver].
  - intros l. left. split_and!; [done..|].
    intros c t (a & -> & Ha)%list_lookup_fmap_Some. unfold inside. simpl. set_solver.
Qed.

(** A step of processor [c] that concerns other locks than [l] only. *)
Lemma lock_inv_frame lk l ts c t1 t2 :
  ts !! c = Some t1 →
  (inside l t1 ↔ inside l t2) → (l ∈ theld t1 ↔ l ∈ theld t2) →
  lock_inv lk l ts → lock_inv lk l (<[c := t2]> ts).
Proof.
  intros Hc Hin Hheld [(H1 & H2 & H3)|(H1 & c0 & t0 & Hc0 & Hin0 & Huniq & Hcpu)].
  - left. split_and!; [done..|]. intros c' t' [(-> & <- & _)|[Hne ?]]%list_lookup_insert_Some.
    + rewrite <-Hin. eauto.
    + eauto.
  - right. split; [done|]. destruct (decide (c = c0)) as [->|Hne].
    + simplify_eq. exists c0, t2. split_and!.
      * apply list_lookup_insert_eq. by eapply lookup_lt_Some.
      * by apply Hin.
      * intros c' t' [(-> & <- & _)|[Hne ?]]%list_lookup_insert_Some; eauto.
      * rewrite Hcpu. repeat case_decide; tauto.
    + exists c0, t0. split_and!; [by rewrite list_lookup_insert_ne|done| |done].
      intros c' t' [(-> & <- & _)|[Hne' ?]]%list_lookup_insert_Some; [|by eauto].
      rewrite <-Hin. eauto.
Qed.

(** A step that changes the flags of processor [c] and nothing of the others. *)
Lemma cpu_inv_other s c y ls c' t' :
  c ≠ c' → cpu_inv s c' t' → cpu_inv (mksmp (<[c := y]> (cpus s)) ls) c' t'.
Proof.
  intros Hne (x & Hx & H). exists x. split; [|done]. simpl. by rewrite list_lookup_insert_ne.
Qed.

Lemma cpu_inv_locks s c t ls : cpu_inv s c t → cpu_inv (mksmp (cpus s) ls) c t.
Proof. done. Qed.

Lemma length_filter_ne (l : lockid) (ls : list lockid) :
  NoDup ls → l ∈ ls → S (length (filter (λ l', l' ≠ l) ls)) = length ls.
Proof.
  induction 1 as [|l' ls Hl' Hnd IH]; [set_solver|]. intros [<-|Hin]%elem_of_cons.
  - by rewrite filter_ne_cons.
  - rewrite filter_cons_True by set_solver. simpl. by rewrite IH.
Qed.

Section preservation.
Context (s : smp) (ts : list thread) (c : nat) (t : thread).
Context (Hinv : inv (mkcfg s ts)) (Hc : ts !! c = Some t).

Lemma step_cpu : ∃ x, cpus s !! c = Some x ∧ NoDup (apicid <$> cpus s) ∧ cpu_wf x ∧
  ncli x = Z.of_nat (length (theld t)) + Z.of_nat (tpush t) + pcw (tpc t) ∧
  NoDup (theld t) ∧ (∀ l, tpc t = Got l ∨ tpc t = Releasing l → l ∉ theld t).
Proof.
  destruct Hinv as [Hnd Hcpu _]. destruct (Hcpu c t Hc) as (x & Hx & Hn & Hif & Hh & Hg).
  exists x. split_and!; [done..| | |done|done].
  - split; [|done]. rewrite Hn. destruct (tpc t); simpl; lia.
  - done.
Qed.

(** The shape of every step: processor [c] moves to [t'], its flags become [y]
    and the lock words become [ls]. *)
Lemma inv_step y t' ls :
  (∃ x, cpus s !! c = Some x ∧ apicid y = apicid x) →
  ncli y = Z.of_nat (length (theld t')) + Z.of_nat (tpush t') + pcw (tpc t') →
  (0 < ncli y → eflags_if y = false) → NoDup (theld t') →
  (∀ l, tpc t' = Got l ∨ tpc t' = Releasing l → l ∉ theld t') →
  (∀ l, lock_inv (ls l) l (<[c := t']> ts)) →
  inv (mkcfg (mksmp (<[c := y]> (cpus s)) ls) (<[c := t']> ts)).
Proof.
  intros (x & Hx & Hid) Hn Hif Hnd Hg Hls. destruct Hinv as [Hids Hcpu _]. split; simpl.
  - by apply (with_cpu_wf s c x y Hx Hid Hids).
  - intros c' t'' [(-> & <- & _)|[Hne Ht'']]%list_lookup_insert_Some.
    + exists y. split_and!; [|done..]. simpl.
      apply list_lookup_insert_eq. by eapply lookup_lt_Some.
    + apply cpu_inv_other; [done|]. by apply Hcpu.
  - done.
Qed.

(** The same without a change of flags. *)
Lemma inv_step_noflags t' ls :
  Z.of_nat (length (theld t)) + pcw (tpc t) = Z.of_nat (length (theld t')) + pcw (tpc t') →
  tpush t' = tpush t → NoDup (theld t') →
  (∀ l, tpc t' = Got l ∨ tpc t' = Releasing l → l ∉ theld t') →
  (∀ l, lock_inv (ls l) l (<[c := t']> ts)) →
  inv (mkcfg (mksmp (cpus s) ls) (<[c := t']> ts)).
Proof.
  intros Hlen Hpush Hnd Hg Hls. destruct step_cpu as (x & Hx & Hids & [Hw1 Hw2] & Hn & _).
  rewrite <-(list_insert_id (cpus s) c x Hx).
  apply inv_step; eauto. lia.
Qed.

Lemma lock_case l :
  (locked (locks s l) = 0 ∧ lcpu (locks s l) = None ∧ ∀ c t, ts !! c = Some t → ¬ inside l t) ∨
  (locked (locks s l) = 1 ∧ ∃ c t, ts !! c = Some t ∧ inside l t ∧
     (∀ c' t', ts !! c' = Some t' → inside l t' → c' = c) ∧
     lcpu (locks s l) = if decide (l ∈ theld t) then Some c else None).
Proof. apply (inv_lock _ Hinv l). Qed.

(** [holding] answers whether the lock is on this processor's list. *)
Lemma owns_spec l : owns c l s = bool_decide (l ∈ theld t).
Proof.
  unfold owns. destruct (lock_case l) as [(-> & _ & Hno)|(-> & c0 & t0 & Hc0 & Hin & Hu & ->)].
  - simpl. symmetry. apply bool_decide_false. intros Hl. apply (Hno c t Hc). by left.
  - simpl. case_decide as Hl.
    + apply bool_decide_ext. split.
      * intros [= ->]. congruence.
      * intros Hl'. f_equal. symmetry. apply (Hu c t Hc). by left.
    + rewrite bool_decide_false by done. symmetry. apply bool_decide_false. intros Hl'.
      assert (c = c0) as -> by (apply (Hu c t Hc); by left). congruence.
Qed.

End preservation.

(** ** The steps of [acquire] and [release] *)

Definition push (x : cpu) : cpu :=
  mkcpu (apicid x) false (ncli x + 1) (if ncli x =? 0 then eflags_if x else intena x).
Definition pop (x : cpu) : cpu :=
  mkcpu (apicid x) ((ncli x =? 1) && intena x) (ncli x - 1) (intena x).

Lemma owns_with_cpu c l s y : owns c l (with_cpu s c y) = owns c l s.
Proof. done. Qed.

Section steps.
Context (s : smp) (c : nat) (x : cpu).
Context (Hx : cpus s !! c = Some x) (Hids : NoDup (apicid <$> cpus s)) (Hwf : cpu_wf x).

Lemma acquire_enter_eq l :
  acquire_enter c l s = if owns c l s then Panic "acquire" else Ok tt (with_cpu s c (push x)).
Proof.
  unfold acquire_enter. mstep (pushcli_ok _ _ _ Hx Hids). fold (push x).
  pose proof (with_cpu_wf s c x (push x) Hx eq_refl Hids) as [Hx1 Hnd1].
  destruct Hwf as [Hw1 Hw2].
  rewrite (bind_ok _ _ _ _ _ (holding_held _ _ l _ Hx1 Hnd1
    ltac:(split; simpl; [lia|done]) ltac:(simpl; lia))).
  rewrite owns_with_cpu. by destruct (owns c l s).
Qed.

Lemma acquire_done_eq l :
  0 < ncli x →
  acquire_done c l s =
  Ok tt (mksmp (cpus s) (<[l := (locks s l) <| lcpu := Some c |>]> (locks s))).
Proof.
  intros Hn. unfold acquire_done. destruct Hwf as [_ Hif].
  by mstep (mycpu_ok _ _ _ Hx Hids (Hif Hn)).
Qed.

Lemma release_enter_eq l :
  0 < ncli x →
  release_enter c l s =
  if owns c l s then Ok tt (mksmp (cpus s) (<[l := (locks s l) <| lcpu := None |>]> (locks s)))
  else Panic "release".
Proof.
  intros Hn. unfold release_enter. mstep (holding_held _ _ l _ Hx Hids Hwf Hn).
  by destruct (owns c l s).
Qed.

(** With no lock held and no [pushcli] pending, [release] panics. *)
Lemma release_enter_notheld l :
  owns c l s = false → release_enter c l s = Panic "release".
Proof.
  intros Ho. unfold release_enter. mstep (holding_ok _ _ l _ Hx Hids Hwf). by rewrite Ho.
Qed.

Lemma release_done_eq l :
  0 < ncli x →
  release_done c l s =
  Ok tt (mksmp (<[c := pop x]> (cpus s)) (<[l := (locks s l) <| locked := 0 |>]> (locks s))).
Proof.
  intros Hn. destruct Hwf as [_ Hif]. unfold release_done, modify_state, bind.
  rewrite (popcli_ok _ c x); [done..|auto|lia].
Qed.
End steps.

Lemma fn_lookup_insert_ne' (ls : lockid → spinlock) l l' v : l ≠ l' → <[l := v]> ls l' = ls l'.
Proof. apply fn_lookup_insert_ne. Qed.

(** Every lock but [l] keeps its word and its processor. *)
Lemma locks_update (ls : lockid → spinlock) (l : lockid) v (P : lockid → spinlock → Prop) :
  P l v → (∀ l', l' ≠ l → P l' (ls l')) → ∀ l', P l' (<[l := v]> ls l').
Proof.
  intros Hl Hother l'. destruct (decide (l = l')) as [<-|Hne].
  - by rewrite fn_lookup_insert.
  - rewrite fn_lookup_insert_ne by done. auto.
Qed.

Section step_cases.
Context (s : smp) (ts : list thread) (c : nat) (h : list lockid) (n : nat) (l : lockid).
Context (Hinv : inv (mkcfg s ts)).

Lemma frame_all t1 t2 l' :
  ts !! c = Some t1 → (inside l' t1 ↔ inside l' t2) → (l' ∈ theld t1 ↔ l' ∈ theld t2) →
  lock_inv (locks s l') l' (<[c := t2]> ts).
Proof. intros Hc H1 H2. eapply lock_inv_frame; [done..|]. apply (inv_lock _ Hinv). Qed.

Lemma try_inv old s' :
  ts !! c = Some (mkthread (Spinning l) h n) → xchg l 1 s = Ok old s' →
  inv (mkcfg s' (if old =? 0 then <[c := mkthread (Got l) h n]> ts else ts)).
Proof.
  intros Hc [= <- <-].
  destruct (lock_case _ _ Hinv l) as [(H0 & Hcpu & Hno)|(H1 & Hrest)].
  - rewrite H0. simpl. unfold modify; simpl.
    assert (Hl : l ∉ h) by (intros ?; apply (Hno c _ Hc); by left).
    eapply inv_step_noflags; [done|done|by simpl| |simpl|..].
    + done.
    + by destruct (step_cpu _ _ _ _ Hinv Hc) as (? & ? & ? & ? & ? & ? & ?).
    + intros l0 [[= <-]|?]; done.
    + apply (locks_update (locks s) l _ (λ l' lk, lock_inv lk l' _)).
      * right. split; [done|]. exists c, (mkthread (Got l) h n). simpl. split_and!.
        -- apply list_lookup_insert_eq. by eapply lookup_lt_Some.
        -- right. by left.
        -- intros c' t' [(-> & <- & _)|[Hne Ht']]%list_lookup_insert_Some; [done|].
           intros Hin. by destruct (Hno c' t' Ht').
        -- by rewrite decide_False.
      * intros l' Hne. eapply frame_all; [done|..]; unfold inside; simpl; [|done].
        split; [intros [?|[?|?]]|intros [?|[[= ?]|?]]]; try done; by left.
  - rewrite H1. simpl. destruct Hinv as [Hids Hcpus Hlocks]. split; [done|done|].
    simpl. apply (locks_update (locks s) l _ (λ l' lk, lock_inv lk l' _)).
    + right. by split.
    + intros l' _. apply Hlocks.
Qed.

Lemma got_inv s' :
  ts !! c = Some (mkthread (Got l) h n) → acquire_done c l s = Ok tt s' →
  inv (mkcfg s' (<[c := mkthread Running (l :: h) n]> ts)).
Proof.
  intros Hc Hop.
  destruct (step_cpu _ _ _ _ Hinv Hc) as (x & Hx & Hids & Hwf & Hn & Hnd & Hg); simpl in *.
  specialize (Hg l (or_introl eq_refl)).
  rewrite (acquire_done_eq _ _ _ Hx Hids Hwf) in Hop by lia. simplify_eq.
  eapply inv_step_noflags; [done|done|simpl; lia|done|by constructor|simpl; set_solver|].
  apply (locks_update (locks s) l _ (λ l' lk, lock_inv lk l' _)).
  - right. destruct (lock_case _ _ Hinv l) as [(_ & _ & Hno)|(H1 & c0 & t0 & Hc0 & Hin0 & Hu & _)].
    { destruct (Hno c _ Hc). right. by left. }
    split; [done|]. exists c, (mkthread Running (l :: h) n). simpl. split_and!.
    + apply list_lookup_insert_eq. by eapply lookup_lt_Some.
    + left. simpl. set_solver.
    + intros c' t' [(-> & <- & _)|[Hne Ht']]%list_lookup_insert_Some; [done|].
      intros Hin. transitivity c0; [by eapply Hu|]. symmetry. eapply Hu; [done|]. right. by left.
    + by rewrite decide_True by set_solver.
  - intros l' Hne. eapply frame_all; [done|..]; unfold inside; simpl; set_solver.
Qed.

Lemma release_inv s' :
  ts !! c = Some (mkthread Running h n) → release_enter c l s = Ok tt s' →
  inv (mkcfg s' (<[c := mkthread (Releasing l) (filter (λ l', l' ≠ l) h) n]> ts)).
Proof.
  intros Hc Hop.
  destruct (step_cpu _ _ _ _ Hinv Hc) as (x & Hx & Hids & Hwf & Hn & Hnd & Hg); simpl in *.
  destruct (decide (l ∈ h)) as [Hl|Hl]; last first.
  { rewrite (release_enter_notheld _ _ _ Hx Hids Hwf) in Hop; [done|].
    rewrite (owns_spec _ _ _ _ Hinv Hc). by apply bool_decide_false. }
  pose proof (length_filter_ne l h Hnd Hl) as Hlen.
  rewrite (release_enter_eq _ _ _ Hx Hids Hwf), (owns_spec _ _ _ _ Hinv Hc) in Hop by lia.
  rewrite bool_decide_true in Hop by done. simplify_eq.
  eapply inv_step_noflags; [done|done|simpl; lia|done| | |].
  - simpl. by apply list.NoDup_filter.
  - simpl. intros l0 [?|[= <-]]; [done|]. intros [? _]%list_elem_of_filter. done.
  - apply (locks_update (locks s) l _ (λ l' lk, lock_inv lk l' _)).
    + right. destruct (lock_case _ _ Hinv l)
        as [(_ & _ & Hno)|(H1 & c0 & t0 & Hc0 & Hin0 & Hu & _)].
      { destruct (Hno c _ Hc). by left. }
      split; [done|]. eexists c, _. split_and!.
      * apply list_lookup_insert_eq. by eapply lookup_lt_Some.
      * right. by right.
      * intros c' t' [(-> & <- & _)|[Hne Ht']]%list_lookup_insert_Some; [done|].
        intros Hin. transitivity c0; [by eapply Hu|]. symmetry. eapply Hu; [done|]. by left.
      * simpl. rewrite decide_False; [done|]. intros [? _]%list_elem_of_filter. done.
    + intros l' Hne. eapply frame_all; [done|..]; unfold inside; simpl;
        rewrite list_elem_of_filter; [|tauto].
      split; [intros [?|[?|?]]|intros [[? ?]|[?|[= ?]]]]; try done; [by left|by left].
Qed.

Lemma released_inv s' :
  ts !! c = Some (mkthread (Releasing l) h n) → release_done c l s = Ok tt s' →
  inv (mkcfg s' (<[c := mkthread Running h n]> ts)).
Proof.
  intros Hc Hop.
  destruct (step_cpu _ _ _ _ Hinv Hc) as (x & Hx & Hids & Hwf & Hn & Hnd & Hg); simpl in *.
  specialize (Hg l (or_intror eq_refl)). destruct Hwf as [Hw1 Hw2].
  rewrite (release_done_eq _ _ _ Hx Hids (conj Hw1 Hw2)) in Hop by lia. simplify_eq.
  eapply inv_step; [done|done|by exists x|simpl; lia| |done|simpl; naive_solver|].
  - simpl. intros. destruct (Z.eqb_spec (ncli x) 1); [lia|done].
  - apply (locks_update (locks s) l _ (λ l' lk, lock_inv lk l' _)).
    + left. destruct (lock_case _ _ Hinv l)
        as [(_ & _ & Hno)|(H1 & c0 & t0 & Hc0 & Hin0 & Hu & Hcpu)].
      { destruct (Hno c _ Hc). right. by right. }
      assert (c = c0) as <- by (eapply Hu; [done|]; right; by right). simplify_eq.
      simpl in *. rewrite decide_False in Hcpu by done. split_and!; [done..|].
      intros c' t' [(-> & <- & _)|[Hne Ht']]%list_lookup_insert_Some.
      * unfold inside. simpl. naive_solver.
      * intros Hin. destruct Hne. symmetry. by eapply Hu.
    + intros l' Hne. eapply frame_all; [done|..]; unfold inside; simpl; [|done].
      split; [intros [?|[?|[= ?]]]|intros [?|[?|?]]]; try done; by left.
Qed.

(** A step that moves no lock. *)
Lemma flags_inv t t' y :
  ts !! c = Some t → theld t' = theld t →
  (∀ l, tpc t ≠ Got l ∧ tpc t ≠ Releasing l) → (∀ l, tpc t' ≠ Got l ∧ tpc t' ≠ Releasing l) →
  (∃ x, cpus s !! c = Some x ∧ apicid y = apicid x) →
  ncli y = Z.of_nat (length (theld t')) + Z.of_nat (tpush t') + pcw (tpc t') →
  (0 < ncli y → eflags_if y = false) →
  inv (mkcfg (with_cpu s c y) (<[c := t']> ts)).
Proof.
  intros Hc Hheld Hp Hp' Hy Hn Hif.
  destruct (step_cpu _ _ _ _ Hinv Hc) as (x & _ & _ & _ & _ & Hnd & _).
  eapply inv_step; [done..|by rewrite Hheld| |].
  - intros l' [H|H]; by destruct (Hp' l').
  - intros l'. eapply frame_all; [done| |by rewrite Hheld].
    unfold inside. rewrite Hheld. specialize (Hp l'). specialize (Hp' l'). tauto.
Qed.

End step_cases.

Lemma step_inv g g' : inv g → step g g' → inv g'.
Proof.
  intros Hinv. destruct 1 as [c l s s' ts h n Hc Hop|c l s s' old ts h n Hc Hop|
    c l s s' ts h n Hc Hop|c l s s' ts h n Hc Hop|c l s s' ts h n Hc Hop|
    c s s' ts h n Hc Hop|c s s' ts h n Hc Hop];
    destruct (step_cpu _ _ _ _ Hinv Hc) as (x & Hx & Hids & Hwf & Hn & Hnd & Hg); simpl in *.
  - rewrite (acquire_enter_eq _ _ _ Hx Hids Hwf) in Hop.
    destruct (owns c l s); simplify_eq.
    eapply flags_inv; [done|done|done|done|done|by exists x|simpl; lia|done].
  - by eapply try_inv.
  - by eapply got_inv.
  - by eapply release_inv.
  - by eapply released_inv.
  - rewrite (pushcli_ok _ _ _ Hx Hids) in Hop. simplify_eq.
    eapply flags_inv; [done|done|done|done|done|by exists x|simpl; lia|done].
  - destruct Hwf as [Hw1 Hw2]. rewrite (popcli_ok _ _ _ Hx Hids) in Hop by (auto with lia).
    simplify_eq.
    eapply flags_inv; [done|done|done|done|done|by exists x|simpl; lia|].
    simpl. intros. destruct (Z.eqb_spec (ncli x) 1); [lia|done].
Qed.

Lemma reachable_inv ids g : NoDup ids → star step (init_config ids) g → inv g.
Proof. intros Hids. apply star_inv; [by apply inv_init|by apply step_inv]. Qed.

(** ** Properties *)

(** [C35] Mutual exclusion: however the processors interleave, two processors
    are never both inside the critical section of the same lock (between the
    successful [xchg] of [acquire] and the store of [release]). *)
Theorem mutual_exclusion ids g c1 c2 t1 t2 l :
  NoDup ids → star step (init_config ids) g →
  threads g !! c1 = Some t1 → threads g !! c2 = Some t2 →
  inside l t1 → inside l t2 → c1 = c2.
Proof.
  intros Hids Hstar H1 H2 Hin1 Hin2. pose proof (reachable_inv _ _ Hids Hstar) as Hinv.
  destruct (inv_lock _ Hinv l) as [(_ & _ & Hno)|(_ & c & t & _ & _ & Hu & _)].
  - by destruct (Hno c1 t1 H1).
  - transitivity c; [by eapply Hu|]. symmetry. by eapply Hu.
Qed.

(** A processor that holds a spin lock, spins for one or is releasing one
    has its interrupts disabled, so no interrupt handler can run on it and
    deadlock on that lock. *)
Theorem locked_interrupts_off ids g c t :
  NoDup ids → star step (init_config ids) g → threads g !! c = Some t →
  theld t ≠ [] ∨ tpc t ≠ Running → eflags_if (cpu_of c (mach g)) = false.
Proof.
  intros Hids Hstar Hc Ht. pose proof (reachable_inv _ _ Hids Hstar) as Hinv.
  destruct (inv_cpu _ Hinv c t Hc) as (x & Hx & Hn & Hif & _).
  rewrite (cpu_of_eq _ _ _ Hx). apply Hif. rewrite Hn.
  destruct Ht as [Ht|Ht].
  - destruct (theld t); [done|]. simpl. destruct (tpc t); simpl; lia.
  - destruct (tpc t); simpl; [done|lia..].
Qed.

Fixpoint times (n : nat) (m : SM unit) : SM unit :=
  match n with
  | O => ret tt
  | S n' => m ;; times n' m
  end.

Lemma times_push s c x n :
  cpus s !! c = Some x → NoDup (apicid <$> cpus s) →
  times (S n) (pushcli c) s =
  Ok tt (with_cpu s c (mkcpu (apicid x) false (ncli x + Z.of_nat n + 1)
           (if ncli x =? 0 then eflags_if x else intena x))) ∨ ncli x < 0.
Proof.
  destruct (decide (ncli x < 0)) as [|Hn0]; [by right|]. left. revert s x H H0 Hn0.
  induction n as [|n IH]; intros s x Hx Hnd Hn0; cbn [times].
  - mstep (pushcli_ok _ _ _ Hx Hnd). unfold ret. by rewrite Z.add_0_r.
  - mstep (pushcli_ok _ _ _ Hx Hnd). fold (push x).
    pose proof (with_cpu_wf s c x (push x) Hx eq_refl Hnd) as [Hx1 Hnd1].
    cbn [times] in IH. rewrite (IH _ _ Hx1 Hnd1) by (simpl; lia).
    rewrite with_cpu_twice. simpl. rewrite (proj2 (Z.eqb_neq (ncli x + 1) 0)) by lia.
    do 3 f_equal. lia.
Qed.

Lemma times_pop s c x n :
  cpus s !! c = Some x → NoDup (apicid <$> cpus s) → eflags_if x = false →
  Z.of_nat n < ncli x →
  times n (popcli c) s = Ok tt (with_cpu s c (x <| ncli := ncli x - Z.of_nat n |>)).
Proof.
  revert s x. induction n as [|n IH]; intros s x Hx Hnd Hif Hn; cbn [times].
  - rewrite Z.sub_0_r. assert (x <| ncli := ncli x |> = x) as -> by (by destruct x).
    by rewrite with_cpu_id.
  - mstep (popcli_ok s c x Hx Hnd Hif ltac:(lia)). fold (pop x).
    pose proof (with_cpu_wf s c x (pop x) Hx eq_refl Hnd) as [Hx1 Hnd1].
    assert (Hif1 : eflags_if (pop x) = false) by (simpl; by rewrite (proj2 (Z.eqb_neq _ _)) by lia).
    rewrite (IH _ _ Hx1 Hnd1 Hif1) by (simpl; lia).
    rewrite with_cpu_twice. do 2 f_equal. destruct x; simpl in *; subst.
    unfold modify; simpl. f_equal; [|lia]. by rewrite (proj2 (Z.eqb_neq _ _)) by lia.
Qed.

(** [pushcli] and [popcli] are matched: [n] calls of the one undone by [n]
    of the other leave the interrupt flag and the nesting depth as they were,
    and while fewer have been undone interrupts stay off. *)
Theorem cli_nesting s c x n m :
  cpus s !! c = Some x → NoDup (apicid <$> cpus s) → cpu_wf x → (0 < m ≤ n)%nat →
  ∃ s1 x1 s2 x2,
    (times n (pushcli c) ;; times (n - m) (popcli c)) s = Ok tt s1 ∧
    cpus s1 !! c = Some x1 ∧ eflags_if x1 = false ∧ ncli x1 = ncli x + Z.of_nat m ∧
    times m (popcli c) s1 = Ok tt s2 ∧
    cpus s2 !! c = Some x2 ∧ eflags_if x2 = eflags_if x ∧ ncli x2 = ncli x.
Proof.
  intros Hx Hnd [Hw1 Hw2] Hm. destruct n as [|n]; [lia|].
  destruct (times_push s c x n Hx Hnd) as [Hpush|]; [|lia]. set (y := mkcpu _ _ _ _) in Hpush.
  pose proof (with_cpu_wf s c x y Hx eq_refl Hnd) as [Hy Hndy].
  pose proof (times_pop _ c y (S n - m) Hy Hndy eq_refl ltac:(subst y; simpl; lia)) as Hpop.
  rewrite with_cpu_twice in Hpop. set (x1 := y <| ncli := _ |>) in Hpop.
  pose proof (with_cpu_wf s c x x1 Hx eq_refl Hnd) as [Hx1 Hnd1].
  assert (Hn1 : ncli x1 = ncli x + Z.of_nat m) by (subst x1 y; simpl; lia).
  destruct m as [|m]; [lia|].
  pose proof (times_pop _ c x1 m Hx1 Hnd1 eq_refl ltac:(lia)) as Hpop2.
  rewrite with_cpu_twice in Hpop2. set (z := x1 <| ncli := ncli x1 - Z.of_nat m |>) in Hpop2.
  pose proof (with_cpu_wf s c x z Hx eq_refl Hnd) as [Hz Hndz].
  assert (Hnz : ncli z = ncli x + 1) by (subst z; simpl; lia).
  pose proof (popcli_ok _ _ _ Hz Hndz eq_refl ltac:(lia)) as Hlast. fold (pop z) in Hlast.
  rewrite with_cpu_twice in Hlast.
  pose proof (with_cpu_wf s c x (pop z) Hx eq_refl Hnd) as [Hz1 _].
  exists (with_cpu s c x1), x1, (with_cpu s c (pop z)), (pop z). split_and!; [|done..| |done| |].
  - mstep Hpush. done.
  - rewrite <-Hlast. clear -Hpop2. revert Hpop2. generalize (with_cpu s c x1) as s1.
    generalize (with_cpu s c z) as s2. induction m as [|m IH]; intros s2 s1; cbn [times].
    + intros [= ->]. unfold bind, ret. by destruct (popcli c s2) as [[] ?| |].
    + intros (u & s3 & H1 & H2)%bind_inv_ok. destruct u. mstep H1. by apply IH.
  - change (((ncli z =? 1) && (if ncli x =? 0 then eflags_if x else intena x)) = eflags_if x).
    rewrite Hnz. destruct (Z.eqb_spec (ncli x) 0) as [H0|H0].
    + rewrite H0. done.
    + rewrite (proj2 (Z.eqb_neq _ _)) by lia. symmetry. apply Hw2. lia.
  - change (ncli z - 1 = ncli x). lia.
Qed.

Section refinement.
Context (s : smp) (ts : list thread) (c n : nat) (k : kernel).
Context (Hinv : inv (mkcfg s ts)) (Hc : ts !! c = Some (mkthread Running (held k) n)).

Lemma acquire_refines l :
  match Kernel.acquire l k with
  | Ok _ k' => locked (locks s l) = 0 →
      ∃ s', acquire c l s = Ok true s' ∧ ∀ l', owns c l' s' = bool_decide (l' ∈ held k')
  | Panic msg => acquire c l s = Panic msg
  | Sleep _ _ => False
  end.
Proof.
  destruct (step_cpu _ _ _ _ Hinv Hc) as (x & Hx & Hnd & Hwf & Hn & _). simpl in *.
  pose proof (owns_spec _ _ _ _ Hinv Hc) as Howns. simpl in Howns.
  pose proof (acquire_enter_eq _ _ _ Hx Hnd Hwf l) as He. rewrite Howns in He.
  rewrite Kernel.acquire_eq. destruct (decide (l ∈ held k)) as [Hl|Hl].
  - rewrite bool_decide_true in * by done. unfold acquire, bind. by rewrite He.
  - rewrite bool_decide_false in * by done. intros Hfree.
    pose proof (with_cpu_wf s c x (push x) Hx eq_refl Hnd) as [Hx1 Hnd1].
    destruct Hwf as [Hw1 Hw2].
    unfold acquire. mstep He. unfold xchg, gets, modify_state, ret, bind. simpl.
    rewrite Hfree. simpl. rewrite (acquire_done_eq _ _ (push x)); [|done|done| |simpl; lia].
    2:{ split; simpl; [lia|done]. }
    eexists. split; [done|]. intros l'. unfold owns. simpl.
    destruct (decide (l = l')) as [<-|Hne].
    + rewrite !fn_lookup_insert. simpl. rewrite !bool_decide_true by set_solver. done.
    + rewrite !fn_lookup_insert_ne by done. specialize (Howns l'). unfold owns in Howns.
      rewrite Howns. apply bool_decide_ext. set_solver.
Qed.

Lemma release_refines l :
  match Kernel.release l k with
  | Ok _ k' => ∃ s', release c l s = Ok tt s' ∧ ∀ l', owns c l' s' = bool_decide (l' ∈ held k')
  | Panic msg => release c l s = Panic msg
  | Sleep _ _ => False
  end.
Proof.
  destruct (step_cpu _ _ _ _ Hinv Hc) as (x & Hx & Hnd & Hwf & Hn & Hndh & _). simpl in *.
  pose proof (owns_spec _ _ _ _ Hinv Hc) as Howns. simpl in Howns.
  rewrite Kernel.release_eq. destruct (decide (l ∈ held k)) as [Hl|Hl].
  - rewrite bool_decide_true by done.
    pose proof (length_filter_ne _ _ Hndh Hl) as Hlen.
    pose proof (release_enter_eq _ _ _ Hx Hnd Hwf l ltac:(lia)) as He.
    rewrite Howns, bool_decide_true in He by done. unfold release. mstep He.
    rewrite (release_done_eq _ _ x) by (done || lia).
    eexists. split; [done|]. intros l'. unfold owns. simpl.
    destruct (decide (l = l')) as [<-|Hne].
    + rewrite !fn_lookup_insert. simpl. symmetry. apply bool_decide_false.
      intros [? _]%list_elem_of_filter. done.
    + rewrite !fn_lookup_insert_ne by done. specialize (Howns l'). unfold owns in Howns.
      rewrite Howns. apply bool_decide_ext. rewrite list_elem_of_filter. naive_solver.
  - rewrite bool_decide_false by done. unfold release, bind.
    rewrite (release_enter_notheld _ _ _ Hx Hnd Hwf); [done|].
    by rewrite Howns, bool_decide_false.
Qed.
End refinement.

(** [C36] spinlock.c implements the [held]-set locks the rest of the kernel is
    written against: on a processor whose locks are [held k], [acquire] panics
    exactly when [Kernel.acquire] does and otherwise, with the lock free, ends
    with the locks of [Kernel.acquire]; likewise [release]. *)
Theorem spin_refines_held ids g c n (k : kernel) l :
  NoDup ids → star step (init_config ids) g →
  threads g !! c = Some (mkthread Running (held k) n) →
  match Kernel.acquire l k with
  | Ok _ k' => locked (locks (mach g) l) = 0 →
      ∃ s', acquire c l (mach g) = Ok true s' ∧
            ∀ l', owns c l' s' = bool_decide (l' ∈ held k')
  | Panic msg => acquire c l (mach g) = Panic msg
  | Sleep _ _ => False
  end ∧
  match Kernel.release l k with
  | Ok _ k' => ∃ s', release c l (mach g) = Ok tt s' ∧
                     ∀ l', owns c l' s' = bool_decide (l' ∈ held k')
  | Panic msg => release c l (mach g) = Panic msg
  | Sleep _ _ => False
  end.
Proof.
  intros Hids Hstar Hc. pose proof (reachable_inv _ _ Hids Hstar) as Hinv.
  destruct g as [s ts]. split; [by eapply acquire_refines|by eapply release_refines].
Qed.

(** ** The properties on concrete machines *)

(** Two processors; processor 0 acquires [kmem.lock]. *)
Definition two_cpus : config := init_config [0; 1].

Lemma cpu0_locks : ∃ g, star step two_cpus g ∧
  threads g !! 0%nat = Some (mkthread Running [LkKmem] 0).
Proof.
  eexists. split.
  - eapply star_snoc; [eapply star_snoc; [eapply star_snoc; [apply star_refl|]|]|].
    + eapply (step_enter 0 LkKmem); [reflexivity|]. vm_compute. reflexivity.
    + eapply (step_try 0 LkKmem); [reflexivity|]. vm_compute. reflexivity.
    + eapply (step_got 0 LkKmem); [reflexivity|]. vm_compute. reflexivity.
  - reflexivity.
Defined.

Lemma mutual_exclusion_witness : ∃ g t, star step two_cpus g ∧
  threads g !! 0%nat = Some t ∧ inside LkKmem t ∧
  ∀ t', threads g !! 1%nat = Some t' → ¬ inside LkKmem t'.
Proof.
  destruct cpu0_locks as (g & Hstar & H0). exists g, (mkthread Running [LkKmem] 0).
  assert (inside LkKmem (mkthread Running [LkKmem] 0)) by (left; apply list_elem_of_here).
  split_and!; [done..|]. intros t' H1 Hin.
  discriminate (mutual_exclusion [0; 1] g 0 1 _ t' LkKmem
    ltac:(apply (bool_decide_unpack _); vm_compute; exact I) Hstar H0 H1 ltac:(done) Hin).
Defined.

Lemma locked_interrupts_off_witness : ∃ g, star step two_cpus g ∧
  eflags_if (cpu_of 0 (mach g)) = false.
Proof.
  destruct cpu0_locks as (g & Hstar & H0). exists g. split; [done|].
  apply (locked_interrupts_off [0; 1] g 0 (mkthread Running [LkKmem] 0)); [|done..|by left].
  apply (bool_decide_unpack _); vm_compute; exact I.
Defined.

Lemma cli_nesting_witness : ∃ s1 x1 s2 x2,
  (times 3 (pushcli 1) ;; times (3 - 1) (popcli 1)) (mach two_cpus) = Ok tt s1 ∧
  cpus s1 !! 1%nat = Some x1 ∧ eflags_if x1 = false ∧ ncli x1 = 1 ∧
  times 1 (popcli 1) s1 = Ok tt s2 ∧
  cpus s2 !! 1%nat = Some x2 ∧ eflags_if x2 = true ∧ ncli x2 = 0.
Proof.
  apply (cli_nesting (mach two_cpus) 1 (mkcpu 1 true 0 false) 3 1); [done| | |lia].
  - apply (bool_decide_unpack _); vm_compute; exact I.
  - split; simpl; [lia|lia].
Defined.

Lemma spin_refines_held_witness :
  (∃ s', acquire 0 LkKmem (mach two_cpus) = Ok true s' ∧
         ∀ l', owns 0 l' s' = bool_decide (l' ∈ [LkKmem])) ∧
  release 0 LkKmem (mach two_cpus) = Panic "release".
Proof.
  destruct (spin_refines_held [0; 1] two_cpus 0 0 kernel0 LkKmem) as [H1 H2].
  - apply (bool_decide_unpack _); vm_compute; exact I.
  - apply star_refl.
  - reflexivity.
  - split; [|exact H2]. exact (H1 eq_refl).
Defined.

End Spin.
