(* ===== verification/Cstring.v ===== *)
(** * Memory and string routines: string.c

    Memory is a function from addresses to bytes; [memset], [memcmp] and
    [memmove] read and write it at pointers.  For the [str...] routines a
    pointer into a character array is the list of bytes from it on, and an
    assignment through a destination pointer replaces the head of that list. *)

From S2P Require Import Prelude.

Abbreviation memory := (Z → Z).

(** ** memset, memcmp, memmove *)

(** [rep stosb] and [rep stosl] of x86.h. *)
Definition stosb (dst data cnt : Z) (m : memory) : memory :=
  λ a, if (dst <=? a) && (a <? dst + cnt) then u8 data else m a.
Definition stosl (dst data cnt : Z) (m : memory) : memory :=
  λ a, if (dst <=? a) && (a <? dst + 4 * cnt)
       then u8 (Z.shiftr data (8 * ((a - dst) mod 4))) else m a.

Definition memset (dst c n : Z) (m : memory) : memory :=
  if (Z.rem (s32 dst) 4 =? 0) && (n mod 4 =? 0) then
    let c := Z.land c 0xFF in
    stosl dst (Z.lor (Z.lor (Z.lor (u32 (Z.shiftl c 24)) (Z.shiftl c 16)) (Z.shiftl c 8)) c)
          (n / 4) m
  else stosb dst c n m.

Fixpoint memcmp (v1 v2 : Z) (n : nat) (m : memory) : Z :=
  match n with
  | O => 0
  | S n' => if negb (m v1 =? m v2) then m v1 - m v2 else memcmp (v1 + 1) (v2 + 1) n' m
  end.

Definition store (a v : Z) (m : memory) : memory := λ a', if a' =? a then v else m a'.

Fixpoint copy_backward (d s : Z) (n : nat) (m : memory) : memory :=
  match n with
  | O => m
  | S n' => copy_backward (d - 1) (s - 1) n' (store (d - 1) (m (s - 1)) m)
  end.
Fixpoint copy_forward (d s : Z) (n : nat) (m : memory) : memory :=
  match n with
  | O => m
  | S n' => copy_forward (d + 1) (s + 1) n' (store d (m s) m)
  end.

Definition memmove (dst src n : Z) (m : memory) : memory :=
  if (src <? dst) && (dst <? src + n)
  then copy_backward (dst + n) (src + n) (Z.to_nat n) m
  else copy_forward dst src (Z.to_nat n) m.

(** ** strncmp, strncpy, safestrcpy, strlen *)

Definition char_at (p : list Z) : Z := hd 0 p.

Fixpoint strncmp (p q : list Z) (n : nat) : Z :=
  match n with
  | O => 0
  | S n' =>
      if negb (char_at p =? 0) && (char_at p =? char_at q)
      then strncmp (tl p) (tl q) n'
      else u8 (char_at p) - u8 (char_at q)
  end.

(** The second loop of [strncpy]: [while(n-- > 0) *s++ = 0]. *)
Fixpoint zero_fill (s : list Z) (n : nat) : list Z :=
  match n, s with
  | S n', _ :: s' => 0 :: zero_fill s' n'
  | _, _ => s
  end.

Fixpoint strncpy (s t : list Z) (n : nat) : list Z :=
  match n, s with
  | S n', _ :: s' =>
      char_at t :: (if char_at t =? 0 then zero_fill s' n' else strncpy s' (tl t) n')
  | _, _ => s
  end.

(** The loop of [safestrcpy] with [n] the value after [--n], then [*s = 0]. *)
Fixpoint safestrcpy_loop (s t : list Z) (n : nat) : list Z :=
  match n, s with
  | O, _ :: s' => 0 :: s'
  | S n', _ :: s' =>
      if char_at t =? 0 then 0 :: (match s' with [] => [] | _ :: s'' => 0 :: s'' end)
      else char_at t :: safestrcpy_loop s' (tl t) n'
  | _, [] => []
  end.

Definition safestrcpy (s t : list Z) (n : nat) : list Z :=
  match n with
  | O => s
  | S n' => safestrcpy_loop s t n'
  end.

Fixpoint strlen (s : list Z) : Z :=
  match s with
  | [] => 0
  | c :: s' => if c =? 0 then 0 else 1 + strlen s'
  end.

(** ** Properties of the memory routines *)

Lemma splat_byte c k :
  0 ≤ c < 256 → 0 ≤ k < 4 →
  u8 (Z.shiftr (Z.lor (Z.lor (Z.lor (u32 (Z.shiftl c 24)) (Z.shiftl c 16)) (Z.shiftl c 8)) c)
        (8 * k)) = c.
Proof.
  intros Hc Hk.
  assert (Hall : forallb (λ c, forallb (λ k,
      u8 (Z.shiftr (Z.lor (Z.lor (Z.lor (u32 (Z.shiftl c 24)) (Z.shiftl c 16)) (Z.shiftl c 8)) c)
            (8 * k)) =? c) (seqZ 0 4)) (seqZ 0 256) = true) by (vm_compute; reflexivity).
  rewrite forallb_forall in Hall. specialize (Hall c).
  rewrite forallb_forall in Hall. apply Z.eqb_eq, Hall; apply list_elem_of_In, elem_of_seqZ; lia.
Qed.

(** [memset] sets exactly the [n] bytes at [dst] to the low byte of [c],
    on the word-at-a-time path and on the byte path alike. *)
Theorem memset_correct dst c n m a :
  0 ≤ n → memset dst c n m a = if (dst <=? a) && (a <? dst + n) then u8 c else m a.
Proof.
  intros Hn. unfold memset. destruct (_ && _) eqn:E; [|done].
  apply andb_prop in E as [_ Hn4%Z.eqb_eq].
  unfold stosl. rewrite <-(Z.div_exact n 4) in Hn4 by lia. rewrite <-Hn4.
  destruct ((dst <=? a) && (a <? dst + n)); [|done].
  change 255 with (Z.ones 8). rewrite Z.land_ones by lia. fold (u8 c).
  apply splat_byte; [apply Z.mod_pos_bound; lia|]. apply Z.mod_pos_bound. lia.
Qed.

Lemma copy_forward_spec n d s m a :
  ¬ (s < d < s + Z.of_nat n) →
  copy_forward d s n m a =
  if (d <=? a) && (a <? d + Z.of_nat n) then m (s + (a - d)) else m a.
Proof.
  revert d s m. induction n as [|n IH]; intros d s m Hov; cbn [copy_forward].
  - destruct (_ && _) eqn:E; [lia|done].
  - rewrite IH by lia. unfold store.
    destruct ((d <=? a) && (a <? d + Z.of_nat (S n))) eqn:E1;
      destruct ((d + 1 <=? a) && (a <? d + 1 + Z.of_nat n)) eqn:E2; [|..|].
    + rewrite (proj2 (Z.eqb_neq _ _)) by lia. f_equal. lia.
    + assert (a = d) as -> by lia. rewrite Z.eqb_refl. f_equal. lia.
    + lia.
    + by rewrite (proj2 (Z.eqb_neq _ _)) by lia.
Qed.

Lemma copy_backward_spec n d s m a :
  s < d →
  copy_backward d s n m a =
  if (d - Z.of_nat n <=? a) && (a <? d) then m (s + (a - d)) else m a.
Proof.
  revert d s m. induction n as [|n IH]; intros d s m Hov; cbn [copy_backward].
  - destruct (_ && _) eqn:E; [lia|done].
  - rewrite IH by lia. unfold store.
    destruct ((d - Z.of_nat (S n) <=? a) && (a <? d)) eqn:E1;
      destruct ((d - 1 - Z.of_nat n <=? a) && (a <? d - 1)) eqn:E2; [|..|].
    + rewrite (proj2 (Z.eqb_neq _ _)) by lia. f_equal. lia.
    + assert (a = d - 1) as -> by lia. rewrite Z.eqb_refl. f_equal. lia.
    + lia.
    + by rewrite (proj2 (Z.eqb_neq _ _)) by lia.
Qed.

(** [memmove] copies as if through a temporary: whatever the overlap of
    the two areas, every byte of the destination is the byte the source held
    before the call, and no other byte changes. *)
Theorem memmove_correct dst src n m a :
  0 ≤ n → memmove dst src n m a =
          if (dst <=? a) && (a <? dst + n) then m (src + (a - dst)) else m a.
Proof.
  intros Hn. unfold memmove. destruct ((src <? dst) && (dst <? src + n)) eqn:E.
  - rewrite copy_backward_spec, Z2Nat.id by lia.
    replace (dst + n - n) with dst by lia.
    by replace (src + n + (a - (dst + n))) with (src + (a - dst)) by lia.
  - rewrite copy_forward_spec, Z2Nat.id by lia. done.
Qed.

(** ** Properties of the string routines *)

(** The C string at [p], at most [n] bytes of it. *)
Fixpoint cstr (p : list Z) (n : nat) : list Z :=
  match n with
  | O => []
  | S n' => if char_at p =? 0 then [] else char_at p :: cstr (tl p) n'
  end.

Definition bytes_ok (p : list Z) : Prop := Forall is_u8 p.

Lemma char_at_ok p : bytes_ok p → u8 (char_at p) = char_at p.
Proof. intros [|c p' Hc _]; simpl; [done|]. by apply Z.mod_small. Qed.

Lemma bytes_ok_tl p : bytes_ok p → bytes_ok (tl p).
Proof. intros [|c p' _ Hp]; [constructor|done]. Qed.

(** [strncmp] returns 0 exactly for equal strings: the two C strings agree
    up to their terminator or, when both are longer, in their first [n] bytes. *)
Theorem strncmp_zero p q n :
  bytes_ok p → bytes_ok q → strncmp p q n = 0 ↔ cstr p n = cstr q n.
Proof.
  revert p q. induction n as [|n IH]; intros p q Hp Hq; [done|]. cbn [strncmp cstr].
  rewrite (char_at_ok p), (char_at_ok q) by done.
  destruct (Z.eqb_spec (char_at p) 0) as [Hp0|Hp0]; simpl.
  - destruct (Z.eqb_spec (char_at q) 0); [split; [done|lia]|].
    split; [lia|done].
  - destruct (Z.eqb_spec (char_at p) (char_at q)) as [Heq|Hne].
    + rewrite Heq in *. rewrite (proj2 (Z.eqb_neq _ _)) by done.
      rewrite IH by (by apply bytes_ok_tl). split; [by intros ->|congruence].
    + destruct (Z.eqb_spec (char_at q) 0); [split; [lia|done]|]. split; [lia|congruence].
Qed.

Lemma cstr_length p n : (length (cstr p n) ≤ n)%nat.
Proof.
  revert p. induction n as [|n IH]; intros p; cbn [cstr]; [done|].
  destruct (_ =? _); simpl; [lia|]. specialize (IH (tl p)). lia.
Qed.

Lemma cstr_nonzero p n : Forall (λ c, c ≠ 0) (cstr p n).
Proof.
  revert p. induction n as [|n IH]; intros p; cbn [cstr]; [constructor|].
  destruct (Z.eqb_spec (char_at p) 0); by constructor.
Qed.

Lemma cstr_app_nonzero l p n :
  Forall (λ c, c ≠ 0) l → (length l ≤ n)%nat → cstr (l ++ p) n = l ++ cstr p (n - length l).
Proof.
  revert n. induction l as [|c l IH]; intros n Hl Hn.
  - simpl. by rewrite Nat.sub_0_r.
  - inversion_clear Hl. destruct n as [|n]; simpl in Hn; [lia|]. cbn.
    rewrite (proj2 (Z.eqb_neq _ _)) by done. f_equal. apply IH; [done|lia].
Qed.

Lemma zero_fill_spec s n :
  (n ≤ length s)%nat → zero_fill s n = replicate n 0 ++ drop n s.
Proof.
  revert s. induction n as [|n IH]; intros [|c s] Hn; simpl in *; [done..|lia|].
  by rewrite IH by lia.
Qed.

Lemma strncpy_spec s t n :
  (n ≤ length s)%nat →
  strncpy s t n = cstr t n ++ replicate (n - length (cstr t n)) 0 ++ drop n s.
Proof.
  revert s t. induction n as [|n IH]; intros [|c s] t Hn; simpl in *; [done..|lia|].
  destruct (Z.eqb_spec (char_at t) 0) as [Ht|Ht].
  - rewrite zero_fill_spec, Ht by lia. done.
  - simpl. f_equal. apply IH. lia.
Qed.

Lemma cstr_zeros k l n : (n ≤ k)%nat → cstr (replicate k 0 ++ l) n = [].
Proof. intros. destruct n, k; [done|done|lia|done]. Qed.

(** [strncpy] stores the string in the first [n] bytes, pads them with
    zeros and touches nothing after them, so that [strncmp] with the copied
    string finds it: the name written in a directory entry is the name looked
    up. *)
Theorem strncpy_roundtrip s t n :
  (n ≤ length s)%nat → bytes_ok s → bytes_ok t →
  strncmp t (strncpy s t n) n = 0 ∧ length (strncpy s t n) = length s ∧
  drop n (strncpy s t n) = drop n s.
Proof.
  intros Hn Hs Ht. pose proof (cstr_length t n) as Hlen.
  assert (Hok : bytes_ok (strncpy s t n)).
  { clear -Hs Ht. revert s t Hs Ht. induction n as [|n IH]; intros [|c s] t Hs Ht; cbn [strncpy];
      [done..|]. inversion_clear Hs.
    constructor; [destruct Ht; [by split|done]|].
    destruct (_ =? _); [|by apply IH, bytes_ok_tl].
    clear -H0. revert s H0. induction n as [|n IH]; intros [|c s] H0; cbn [zero_fill]; [done..|].
    inversion_clear H0. constructor; [by split|auto]. }
  rewrite strncmp_zero by done. rewrite strncpy_spec by done. split_and!.
  - rewrite cstr_app_nonzero by (done || apply cstr_nonzero).
    rewrite cstr_zeros by done. by rewrite app_nil_r.
  - rewrite !length_app, length_replicate, length_drop. lia.
  - rewrite app_assoc, drop_app_length'; [done|].
    rewrite length_app, length_replicate. lia.
Qed.

Lemma safestrcpy_loop_spec s t n :
  (n < length s)%nat →
  cstr (safestrcpy_loop s t n) (S n) = cstr t n ∧
  length (safestrcpy_loop s t n) = length s ∧
  ∃ i, (i ≤ n)%nat ∧ safestrcpy_loop s t n !! i = Some 0.
Proof.
  revert s t. induction n as [|n IH]; intros [|c s] t Hn; simpl in *; try lia.
  - split_and!; [done..|]. by exists 0%nat.
  - destruct (Z.eqb_spec (char_at t) 0) as [Ht|Ht].
    + simpl. split_and!; [done|by destruct s|]. exists 0%nat. split; [lia|done].
    + destruct (IH s (tl t) ltac:(lia)) as (H1 & H2 & i & Hi & H3). simpl.
      rewrite (proj2 (Z.eqb_neq _ _)) by done. simpl in H1. split_and!.
      * by rewrite H1.
      * by rewrite H2.
      * exists (S i). split; [lia|done].
Qed.

(** [safestrcpy] always leaves a NUL among the [n] bytes it may write, and
    the string before it is [t] cut to [n - 1] bytes. *)
Theorem safestrcpy_terminates s t n :
  (0 < n ≤ length s)%nat →
  cstr (safestrcpy s t n) n = cstr t (n - 1) ∧
  length (safestrcpy s t n) = length s ∧
  ∃ i, (i < n)%nat ∧ safestrcpy s t n !! i = Some 0.
Proof.
  intros [H0 Hn]. destruct n as [|n]; [lia|]. simpl. rewrite Nat.sub_0_r.
  destruct (safestrcpy_loop_spec s t n ltac:(lia)) as (H1 & H2 & i & Hi & H3).
  split_and!; [done..|]. exists i. split; [lia|done].
Qed.

(** ** Witnesses *)

(** An overlapping move: byte [i] of memory is [i]; copy [0..4) to [2..6). *)
Lemma memmove_correct_witness : map (memmove 2 0 4 (λ a, a)) [1; 2; 3; 4; 5; 6] = [1; 0; 1; 2; 3; 6].
Proof. cbn [map]. rewrite !(memmove_correct 2 0 4 (λ a, a)) by lia. reflexivity. Defined.

Lemma strncpy_roundtrip_witness :
  strncmp [97; 98; 0] (strncpy [7; 7; 7; 7; 7] [97; 98; 0] 4) 4 = 0 ∧
  drop 4 (strncpy [7; 7; 7; 7; 7] [97; 98; 0] 4) = [7].
Proof.
  destruct (strncpy_roundtrip [7; 7; 7; 7; 7] [97; 98; 0] 4) as (H1 & _ & H2);
    [simpl; lia|unfold bytes_ok, is_u8; repeat constructor; lia..|].
  split; [exact H1|exact H2].
Defined.

Lemma safestrcpy_terminates_witness :
  cstr (safestrcpy [7; 7; 7] [97; 98; 99; 100; 0] 3) 3 = [97; 98].
Proof.
  destruct (safestrcpy_terminates [7; 7; 7] [97; 98; 99; 100; 0] 3) as [H _]; [simpl; lia|exact H].
Defined.
