(* ===== verification/Kalloc.v ===== *)
(** * The physical page allocator: kalloc.c

    [kmem.freelist] heads a list of free pages linked through their own first
    word.  [chain] relates that structure to the list of the pages on it; the
    theorems follow [kalloc], [kfree] and [freerange] through it, and the
    invariant says that no page is ever both free and allocated. *)

From S2P Require Import Prelude Kernel Cstring.

(** ** Words in memory *)

(** A 32-bit little-endian load and store. *)
Definition load32 (a : Z) (m : memory) : Z :=
  m a + 2 ^ 8 * m (a + 1) + 2 ^ 16 * m (a + 2) + 2 ^ 24 * m (a + 3).
Definition store32 (a v : Z) (m : memory) : memory :=
  λ a', if (a <=? a') && (a' <? a + 4) then (v / 2 ^ (8 * (a' - a))) mod 2 ^ 8 else m a'.

Lemma load_store32 a v m : is_u32 v → load32 a (store32 a v m) = v.
Proof.
  intros [Hv1 Hv2]. unfold load32, store32.
  repeat match goal with |- context [if ?b then _ else _] =>
    replace b with true by (symmetry; lia) end.
  replace (a - a) with 0 by lia. replace (a + 1 - a) with 1 by lia.
  replace (a + 2 - a) with 2 by lia. replace (a + 3 - a) with 3 by lia.
  change (2 ^ (8 * 0)) with 1. change (2 ^ (8 * 1)) with 256.
  change (2 ^ (8 * 2)) with 65536. change (2 ^ (8 * 3)) with 16777216.
  change (2 ^ 8) with 256. change (2 ^ 16) with 65536. change (2 ^ 24) with 16777216.
  change (2 ^ 32) with 4294967296 in Hv2. rewrite Z.div_1_r.
  Z.div_mod_to_equations. lia.
Qed.

(** A load depends on the four bytes it reads. *)
Lemma load32_ext a m m' : (∀ i, a ≤ i < a + 4 → m i = m' i) → load32 a m = load32 a m'.
Proof. intros H. unfold load32. by rewrite !H by lia. Qed.

Lemma store32_other a v m a' : ¬ (a ≤ a' < a + 4) → store32 a v m a' = m a'.
Proof. intros. unfold store32. by destruct (_ && _) eqn:E; [lia|]. Qed.

(** ** Operations *)

Definition kfree (v : Z) : KM unit :=
  e ← gets (λ s, kend (kmem s));
  if negb (v mod PGSIZE =? 0) || (v <? e) || (PHYSTOP <=? V2P v) then panic "kfree"
  else
    modify_state (λ s, s <| kmem ::= λ k, k <| bytes ::= memset v 1 PGSIZE |> |>) ;;
    ul ← gets (λ s, use_lock (kmem s));
    (if (ul : bool) then acquire LkKmem else ret tt) ;;
    modify_state (λ s, s <| kmem ::= λ k,
      k <| bytes ::= store32 v (freelist k) |> <| freelist := v |> |>) ;;
    (if ul then release LkKmem else ret tt).

Definition kalloc : KM Z :=
  ul ← gets (λ s, use_lock (kmem s));
  (if (ul : bool) then acquire LkKmem else ret tt) ;;
  r ← gets (λ s, freelist (kmem s));
  (if negb (r =? 0)
   then modify_state (λ s, s <| kmem ::= λ k, k <| freelist := load32 r (bytes k) |> |>)
   else ret tt) ;;
  (if ul then release LkKmem else ret tt) ;;
  ret r.

(** [for(; p + PGSIZE <= vend; p += PGSIZE) kfree(p);] with a bound on the
    number of turns; [freerange_loop_pages] shows the bound is never reached. *)
Fixpoint freerange_loop (fuel : nat) (p vend : Z) : KM unit :=
  match fuel with
  | O => panic "freerange: out of fuel"
  | S fuel' =>
      if p + PGSIZE <=? vend then kfree p ;; freerange_loop fuel' (p + PGSIZE) vend
      else ret tt
  end.

Definition freerange (vstart vend : Z) : KM unit :=
  let p := PGROUNDUP vstart in
  freerange_loop (S (Z.to_nat ((vend - p) / PGSIZE))) p vend.

Definition kinit1 (vstart vend : Z) : KM unit :=
  modify_state (λ s, s <| kmem ::= λ k, k <| use_lock := false |> |>) ;;
  freerange vstart vend.

Definition kinit2 (vstart vend : Z) : KM unit :=
  freerange vstart vend ;;
  modify_state (λ s, s <| kmem ::= λ k, k <| use_lock := true |> |>).

#[local] Opaque acquire release.

(** ** The free list *)

(** A page [kfree] accepts. *)
Definition page_ok (e v : Z) : Prop :=
  v mod PGSIZE = 0 ∧ e ≤ v ∧ KERNBASE ≤ v < KERNBASE + PHYSTOP.

(** The addresses of the kernel start above [KERNBASE]. *)
Definition kend_ok (e : Z) : Prop := KERNBASE < e.

(** [chain m h l]: the pages linked from [h] are [l]. *)
Inductive chain (m : memory) : Z → list Z → Prop :=
| chain_nil : chain m 0 []
| chain_cons v l : v ≠ 0 → chain m (load32 v m) l → chain m v (v :: l).

Definition freelist_ok (k : kmemst) (l : list Z) : Prop :=
  chain (bytes k) (freelist k) l ∧ NoDup l ∧ Forall (page_ok (kend k)) l.

Lemma page_ok_u32 e v : page_ok e v → is_u32 v.
Proof. unfold page_ok, KERNBASE, PHYSTOP, is_u32. lia. Qed.

Lemma page_ok_nonzero e v : page_ok e v → v ≠ 0.
Proof. unfold page_ok, KERNBASE. lia. Qed.

(** Two pages are the same or do not overlap. *)
Lemma pages_disjoint e v w a :
  page_ok e v → page_ok e w → v ≠ w → v ≤ a < v + PGSIZE → ¬ (w ≤ a < w + PGSIZE).
Proof. unfold page_ok, PGSIZE. intros [Hv _] [Hw _] Hne. Z.div_mod_to_equations. lia. Qed.

Lemma chain_head m h l : chain m h l → Forall (λ v, is_u32 v) l → is_u32 h.
Proof. destruct 1; [by split|]. by inversion 1. Qed.

Lemma chain_ext e m m' h l :
  Forall (page_ok e) l →
  (∀ v a, v ∈ l → v ≤ a < v + PGSIZE → m a = m' a) → chain m h l → chain m' h l.
Proof.
  intros Hok Hext Hch. induction Hch as [|v l Hv Hch IH]; [constructor|].
  inversion_clear Hok. constructor; [done|].
  rewrite <-(load32_ext v m m').
  - apply IH; [done|]. intros. apply (Hext v0); [set_solver|done].
  - intros i Hi. apply (Hext v); [set_solver|]. unfold PGSIZE. lia.
Qed.

(** The state [kfree v] leaves: the page filled with 1, its first word the old
    head, the page the new head. *)
Definition kfreed (v : Z) (k : kmemst) : kmemst :=
  k <| bytes ::= λ m, store32 v (freelist k) (memset v 1 PGSIZE m) |> <| freelist := v |>.

Lemma kfree_check e v :
  kend_ok e → is_u32 v →
  (negb (v mod PGSIZE =? 0) || (v <? e) || (PHYSTOP <=? V2P v)) = false ↔ page_ok e v.
Proof.
  unfold kend_ok, is_u32, page_ok, V2P, u32, KERNBASE, PHYSTOP, PGSIZE. intros He Hv.
  rewrite !orb_false_iff, negb_false_iff, Z.eqb_eq, Z.ltb_ge, Z.leb_gt.
  split.
  - intros [[H1 H2] H3]. rewrite (Z.mod_small (v - _)) in H3 by lia. lia.
  - intros (H1 & H2 & H3). rewrite (Z.mod_small (v - _)) by lia. lia.
Qed.

Lemma kfree_eq v s :
  (use_lock (kmem s) = true → can_lock LkKmem s) → is_u32 v → kend_ok (kend (kmem s)) →
  kfree v s = if decide (page_ok (kend (kmem s)) v) then Ok tt (s <| kmem ::= kfreed v |>)
              else Panic "kfree".
Proof.
  intros Hl Hv He. unfold kfree. rewrite (bind_ok (gets _) _ _ _ _ eq_refl).
  case_decide as Hok.
  - rewrite (proj2 (kfree_check _ _ He Hv) Hok). unfold bind, modify_state, gets. simpl.
    destruct (use_lock (kmem s)) eqn:E.
    + rewrite acquire_ok by exact (Hl eq_refl). simpl.
      rewrite (release_cons _ (held s)) by (exact (Hl eq_refl) || done).
      f_equal. unfold kfreed, modify. simpl. by rewrite E.
    + f_equal. unfold kfreed, modify. simpl. by rewrite E.
  - apply (not_iff_compat (kfree_check _ _ He Hv)) in Hok.
    by apply not_false_iff_true in Hok as ->.
Qed.

(** The state [kalloc] leaves; it returns the old head. *)
Definition kalloced (k : kmemst) : kmemst :=
  if freelist k =? 0 then k else k <| freelist := load32 (freelist k) (bytes k) |>.

Lemma kalloc_eq s :
  (use_lock (kmem s) = true → can_lock LkKmem s) →
  kalloc s = Ok (freelist (kmem s)) (s <| kmem ::= kalloced |>).
Proof.
  intros Hl. unfold kalloc, bind, gets, modify_state.
  destruct (use_lock (kmem s)).
  - rewrite acquire_ok by exact (Hl eq_refl). simpl.
    destruct (freelist (kmem s) =? 0) eqn:E; simpl;
      rewrite (release_cons _ (held s)) by (exact (Hl eq_refl) || done); unfold ret; f_equal;
      destruct s; unfold modify, kalloced; simpl in *; by rewrite E.
  - simpl. destruct (freelist (kmem s) =? 0) eqn:E; simpl; unfold ret;
      f_equal; destruct s; unfold modify, kalloced; simpl in *; by rewrite E.
Qed.

(** ** Properties *)

Lemma kalloced_ok k v l :
  freelist_ok k (v :: l) → freelist k = v ∧ freelist_ok (kalloced k) l.
Proof.
  intros (Hch & Hnd & Hok). inversion Hch as [|v' l' Hv Hch' Hf]; subst.
  apply NoDup_cons in Hnd as [_ Hnd]. inversion_clear Hok. split; [done|].
  unfold kalloced. rewrite (proj2 (Z.eqb_neq _ _)) by done. by split_and!.
Qed.

Lemma freelist_nil k : freelist_ok k [] → freelist k = 0.
Proof. intros (Hch & _). by inversion Hch. Qed.

Lemma kfreed_other v k a : ¬ (v ≤ a < v + PGSIZE) → bytes (kfreed v k) a = bytes k a.
Proof.
  intros Ha. unfold kfreed. simpl. rewrite store32_other by (unfold PGSIZE in *; lia).
  rewrite memset_correct by (unfold PGSIZE; lia). by destruct (_ && _) eqn:E; [lia|].
Qed.

Lemma kfreed_ok k v l :
  freelist_ok k l → page_ok (kend k) v → v ∉ l → freelist_ok (kfreed v k) (v :: l).
Proof.
  intros (Hch & Hnd & Hok) Hv Hl. split_and!; [|by apply NoDup_cons|constructor; [exact Hv|exact Hok]].
  constructor; [by eapply page_ok_nonzero|].
  unfold kfreed at 1. simpl. rewrite load_store32.
  - eapply chain_ext; [done| |done]. intros w a Hw Ha. symmetry. apply kfreed_other.
    rewrite Forall_forall in Hok. eapply pages_disjoint; [by apply Hok|done| |done]. congruence.
  - eapply chain_head; [done|]. eapply Forall_impl; [done|]. intros. by eapply page_ok_u32.
Qed.

(** [kalloc] hands out the first free page and takes it off the list,
    leaving memory alone, or returns 0 when no page is free. *)
Theorem kalloc_spec s l :
  can_lock LkKmem s → freelist_ok (kmem s) l →
  match l with
  | [] => kalloc s = Ok 0 s
  | v :: l' => ∃ s', kalloc s = Ok v s' ∧ v ≠ 0 ∧ freelist_ok (kmem s') l' ∧
                     bytes (kmem s') = bytes (kmem s) ∧ held s' = held s
  end.
Proof.
  intros Hl Hok. rewrite kalloc_eq by done. destruct l as [|v l].
  - rewrite (freelist_nil _ Hok). f_equal. destruct s as [? ? ? k].
    unfold modify, kalloced. simpl in *. by rewrite (freelist_nil _ Hok).
  - destruct (kalloced_ok _ _ _ Hok) as [Hv Hok']. eexists. rewrite Hv.
    split_and!; [done| |done| |done].
    + destruct Hok as (_ & _ & Hpg). inversion_clear Hpg. by eapply page_ok_nonzero.
    + simpl. unfold kalloced. by destruct (_ =? 0).
Qed.

(** [kfree] of a page that is not free puts it at the head of the list,
    fills it with ones (but for the link word) and changes no other byte;
    [kfree] of anything that is not a page of the heap panics. *)
Theorem kfree_spec s l v :
  can_lock LkKmem s → kend_ok (kend (kmem s)) → freelist_ok (kmem s) l → is_u32 v → v ∉ l →
  (page_ok (kend (kmem s)) v →
   ∃ s', kfree v s = Ok tt s' ∧ freelist_ok (kmem s') (v :: l) ∧ held s' = held s ∧
         (∀ a, v + 4 ≤ a < v + PGSIZE → bytes (kmem s') a = 1) ∧
         (∀ a, ¬ (v ≤ a < v + PGSIZE) → bytes (kmem s') a = bytes (kmem s) a)) ∧
  (¬ page_ok (kend (kmem s)) v → kfree v s = Panic "kfree").
Proof.
  intros Hl He Hok Hv Hnin. rewrite kfree_eq by done. split; intros Hpg.
  - rewrite decide_True by done. eexists. split_and!; [done| |done| |].
    + by apply kfreed_ok.
    + intros a Ha. unfold kfreed. simpl. rewrite store32_other by lia.
      rewrite memset_correct by (unfold PGSIZE; lia). by destruct (_ && _) eqn:E; [|lia].
    + intros a Ha. by apply kfreed_other.
  - by rewrite decide_False.
Qed.

(** ** Users of the allocator *)

(** What the rest of the kernel does with pages: take one, give one back that
    it has, and write the ones it has.  The list holds the pages in use. *)
Inductive use_step : kernel * list Z → kernel * list Z → Prop :=
| use_alloc s A v s' :
    kalloc s = Ok v s' → use_step (s, A) (s', if v =? 0 then A else v :: A)
| use_free s A1 v A2 s' :
    kfree v s = Ok tt s' → use_step (s, A1 ++ v :: A2) (s', A1 ++ A2)
| use_write s A m :
    (∀ a, m a ≠ bytes (kmem s) a → ∃ v, v ∈ A ∧ v ≤ a < v + PGSIZE) →
    use_step (s, A) (s <| kmem ::= λ k, k <| bytes := m |> |>, A).

Definition use_inv (P : list Z) (c : kernel * list Z) : Prop :=
  let '(s, A) := c in
  can_lock LkKmem s ∧ kend_ok (kend (kmem s)) ∧
  ∃ l, freelist_ok (kmem s) l ∧ A ++ l ≡ₚ P ∧ NoDup (A ++ l) ∧ Forall (page_ok (kend (kmem s))) A.

Lemma use_write_chain e (A l : list Z) m m' h :
  NoDup (A ++ l) → Forall (page_ok e) A → Forall (page_ok e) l →
  (∀ a, m' a ≠ m a → ∃ v, v ∈ A ∧ v ≤ a < v + PGSIZE) → chain m h l → chain m' h l.
Proof.
  intros Hnd HA Hl Hw. apply (chain_ext e); [done|]. intros w a Hin Ha.
  destruct (decide (m' a = m a)) as [|Hne]; [done|].
  destruct (Hw a Hne) as (v & Hv & Hav). exfalso.
  apply NoDup_app in Hnd as (_ & Hdisj & _). rewrite Forall_forall in HA, Hl.
  eapply (pages_disjoint e w v a); [by apply Hl|by apply HA| |done|done].
  intros ->. by eapply Hdisj.
Qed.

Lemma use_step_inv P c c' : use_inv P c → use_step c c' → use_inv P c'.
Proof.
  intros Hinv Hstep. destruct Hstep as [s A v s' Hop|s A1 v A2 s' Hop|s A m Hw];
    destruct Hinv as (Hl & He & l & Hok & Hperm & Hnd & HA).
  - rewrite kalloc_eq in Hop by done. simplify_eq. split; [done|].
    assert (Hke : kend (kalloced (kmem s)) = kend (kmem s)).
    { unfold kalloced. by destruct (_ =? 0). }
    simpl. rewrite Hke. split; [done|]. destruct l as [|v l].
    + rewrite (freelist_nil _ Hok). simpl. exists []. split_and!; [|done..].
      unfold kalloced. by rewrite (freelist_nil _ Hok).
    + destruct (kalloced_ok _ _ _ Hok) as [Hv Hok']. rewrite Hv.
      destruct Hok as (_ & _ & Hpg). inversion_clear Hpg as [|? ? Hpv Hpl].
      rewrite (proj2 (Z.eqb_neq _ _)) by (by eapply page_ok_nonzero).
      assert (Hp : v :: A ++ l ≡ₚ A ++ v :: l) by apply Permutation_middle.
      exists l. split_and!; [done| | |by constructor].
      * etransitivity; [exact Hp|done].
      * change (NoDup (v :: A ++ l)). by rewrite Hp.
  - apply Forall_app in HA as [HA1 HA2]. inversion_clear HA2 as [|? ? Hpv HA2'].
    assert (Hu : is_u32 v) by (by eapply page_ok_u32).
    rewrite kfree_eq, decide_True in Hop by done. simplify_eq. split; [done|].
    simpl. split; [done|]. exists (v :: l).
    assert (Hp : (A1 ++ v :: A2) ++ l ≡ₚ (A1 ++ A2) ++ v :: l).
    { rewrite <-Permutation_middle. simpl. by rewrite <-Permutation_middle. }
    rewrite Hp in Hnd, Hperm. split_and!; [|done..|by apply Forall_app].
    apply kfreed_ok; [done..|]. apply NoDup_app in Hnd as (_ & _ & Hnd).
    by apply NoDup_cons in Hnd as [? _].
  - split; [done|]. split; [done|]. exists l. split_and!; [|done..].
    destruct Hok as (Hch & Hndl & Hpg). split_and!; [|done..]. simpl.
    by eapply use_write_chain.
Qed.

(** [C24] No page is ever in use twice or both free and in use: whatever
    sequence of [kalloc], [kfree] and writes to pages in use the kernel makes
    from a free list of pages [P], the pages in use and the pages on the free
    list are together exactly [P], each once. *)
Theorem page_ownership s0 P s A :
  can_lock LkKmem s0 → kend_ok (kend (kmem s0)) → freelist_ok (kmem s0) P →
  star use_step (s0, []) (s, A) →
  ∃ l, freelist_ok (kmem s) l ∧ A ++ l ≡ₚ P ∧ NoDup (A ++ l).
Proof.
  intros Hl He Hok Hstar.
  assert (Hinv : use_inv P (s, A)).
  { eapply (star_inv use_step (use_inv P)); [|apply use_step_inv|done].
    split; [done|]. split; [done|]. exists P. destruct Hok as (H1 & H2 & H3). by split_and!. }
  destruct Hinv as (_ & _ & l & ? & ? & ? & _). eauto.
Qed.

(** ** Boot *)

(** The pages from [p] on. *)
Fixpoint page_run (p : Z) (n : nat) : list Z :=
  match n with
  | O => []
  | S n' => p :: page_run (p + PGSIZE) n'
  end.

Lemma page_run_elem p n v :
  v ∈ page_run p n ↔ ∃ i, (i < n)%nat ∧ v = p + Z.of_nat i * PGSIZE.
Proof.
  revert p. induction n as [|n IH]; intros p; cbn [page_run].
  - split; [set_solver|]. intros (i & ? & _). lia.
  - rewrite elem_of_cons, IH. split.
    + intros [->|(i & Hi & ->)]; [exists 0%nat; lia|]. exists (S i). lia.
    + intros ([|i] & Hi & ->); [left; lia|]. right. exists i. lia.
Qed.

(** The loop frees the [n] whole pages between [p] and [vend] and stops within
    [n + 1] tests of its condition. *)
Lemma freerange_loop_pages n : ∀ fuel p vend s l,
  (n < fuel)%nat → Z.of_nat n * PGSIZE ≤ vend - p < Z.of_nat n * PGSIZE + PGSIZE →
  can_lock LkKmem s → kend_ok (kend (kmem s)) → freelist_ok (kmem s) l →
  (∀ v, v ∈ page_run p n → page_ok (kend (kmem s)) v ∧ v ∉ l) →
  ∃ k, freerange_loop fuel p vend s = Ok tt (s <| kmem := k |>) ∧ kend k = kend (kmem s) ∧
       use_lock k = use_lock (kmem s) ∧ freelist_ok k (reverse (page_run p n) ++ l).
Proof.
  induction n as [|n IH]; intros fuel p vend s l Hf Hn Hl He Hok Hpg;
    (destruct fuel as [|fuel]; [lia|]); cbn [freerange_loop page_run].
  - rewrite (proj2 (Z.leb_gt _ _)) by (unfold PGSIZE in *; lia).
    exists (kmem s). by destruct s.
  - rewrite (proj2 (Z.leb_le _ _)) by (unfold PGSIZE in *; lia).
    destruct (Hpg p) as [Hp Hpl]; [cbn [page_run]; set_solver|].
    assert (Hu : is_u32 p) by (by eapply page_ok_u32).
    rewrite (bind_ok (kfree p) _ _ tt (s <| kmem ::= kfreed p |>))
      by (rewrite kfree_eq by done; by rewrite decide_True by done).
    destruct (IH fuel (p + PGSIZE) vend (s <| kmem ::= kfreed p |>) (p :: l))
      as (k & Hk & Hke & Hul & Hkok); [lia|lia|done|done|by apply kfreed_ok| |].
    + intros v Hv. destruct (Hpg v) as [Hv1 Hv2]; [cbn [page_run]; set_solver|].
      split; [done|]. apply page_run_elem in Hv as (i & _ & ->).
      intros [Heq|?]%elem_of_cons; [|done]. unfold PGSIZE in Heq. lia.
    + exists k. split; [exact Hk|]. split_and!; [done|done|].
      rewrite reverse_cons, <-app_assoc. exact Hkok.
Qed.

Lemma freerange_pages vstart vend s l :
  0 ≤ vstart → vstart + PGSIZE ≤ 2 ^ 32 → PGROUNDUP vstart ≤ vend → is_u32 vend →
  can_lock LkKmem s → kend_ok (kend (kmem s)) → kend (kmem s) ≤ vstart →
  vend ≤ KERNBASE + PHYSTOP → freelist_ok (kmem s) l →
  (∀ v, v ∈ l → vend ≤ v ∨ v + PGSIZE ≤ vstart) →
  ∃ k l', freerange vstart vend s = Ok tt (s <| kmem := k |>) ∧ kend k = kend (kmem s) ∧
       use_lock k = use_lock (kmem s) ∧ freelist_ok k l' ∧
       (∀ v, v ∈ l' ↔ v ∈ l ∨ (v mod PGSIZE = 0 ∧ vstart ≤ v ∧ v + PGSIZE ≤ vend)).
Proof.
  intros Hs Hs2 Hp Hv Hl He Hes Hve Hok Hdis. unfold freerange. cbv zeta.
  pose proof (PGROUNDUP_bounds vstart) as Hup.
  set (p := PGROUNDUP vstart) in *. set (n := Z.to_nat ((vend - p) / PGSIZE)).
  assert (Hn : Z.of_nat n * PGSIZE ≤ vend - p < Z.of_nat n * PGSIZE + PGSIZE).
  { unfold n, PGSIZE. Z.div_mod_to_equations. lia. }
  assert (Hrun : ∀ v, v ∈ page_run p n ↔ v mod PGSIZE = 0 ∧ vstart ≤ v ∧ v + PGSIZE ≤ vend).
  { intros v. rewrite page_run_elem. split.
    - intros (i & Hi & ->). unfold PGSIZE in *. Z.div_mod_to_equations. lia.
    - intros (Hm & Hlo & Hhi). exists (Z.to_nat ((v - p) / PGSIZE)).
      unfold PGSIZE in *. Z.div_mod_to_equations. lia. }
  destruct (freerange_loop_pages n (S n) p vend s l) as (k & Hk & Hke & Hul & Hkok);
    [lia|done..| |].
  - intros v (Hm & Hlo & Hhi)%Hrun. split.
    + unfold page_ok, kend_ok, PGSIZE in *. lia.
    + intros Hin. destruct (Hdis v Hin); unfold PGSIZE in *; lia.
  - exists k, (reverse (page_run p n) ++ l). split_and!; [done..|].
    intros v. rewrite elem_of_app, elem_of_reverse, Hrun. tauto.
Qed.

Lemma use_kend P c c' : use_inv P c → star use_step c c' → kend (kmem c'.1) = kend (kmem c.1).
Proof.
  intros Hinv Hstar. induction Hstar as [|c0 c' c'' Hstar IH Hstep]; [done|].
  assert (Hinv' : use_inv P c') by (by eapply (star_inv use_step (use_inv P)); [|apply use_step_inv|]).
  rewrite <-IH by done. destruct Hstep as [s A v s' Hop|s A1 v A2 s' Hop|]; [..|done];
    destruct Hinv' as (Hl & He & l & _ & _ & _ & HA).
  - rewrite kalloc_eq in Hop by done. simplify_eq. simpl. unfold kalloced. by destruct (_ =? 0).
  - apply Forall_app in HA as [_ HA]. inversion_clear HA.
    assert (is_u32 v) by (by eapply page_ok_u32).
    rewrite kfree_eq, decide_True in Hop by done. by simplify_eq.
Qed.

(** The pages of the machine: [end] to [P2V(PHYSTOP)]. *)
Definition early_top : Z := P2V (4 * 1024 * 1024).

Lemma page_ok_split e v :
  kend_ok e → page_ok e v ↔ (v mod PGSIZE = 0 ∧ e ≤ v ∧ v + PGSIZE ≤ early_top) ∨
                (v mod PGSIZE = 0 ∧ e ≤ v ∧ early_top ≤ v ∧ v + PGSIZE ≤ P2V PHYSTOP).
Proof.
  assert (Htop : early_top = 2151677952) by done.
  assert (Hphys : P2V PHYSTOP = KERNBASE + PHYSTOP) by done.
  rewrite Htop, Hphys. unfold page_ok, kend_ok, PHYSTOP, KERNBASE, PGSIZE.
  intros He. Z.div_mod_to_equations. lia.
Qed.

Lemma kinit1_ok e s :
  can_lock LkKmem s → kend (kmem s) = e → kend_ok e → e + PGSIZE ≤ early_top →
  freelist (kmem s) = 0 →
  ∃ k P, kinit1 e early_top s = Ok tt (s <| kmem := k |>) ∧ kend k = e ∧ freelist_ok k P ∧
         (∀ v, v ∈ P ↔ v mod PGSIZE = 0 ∧ e ≤ v ∧ v + PGSIZE ≤ early_top).
Proof.
  intros Hl <- He Het Hf. unfold kinit1, bind, modify_state.
  set (s1 := s <| kmem ::= λ k, k <| use_lock := false |> |>).
  assert (Htop : early_top = 2151677952) by done.
  assert (Hup := PGROUNDUP_bounds (kend (kmem s))).
  destruct (freerange_pages (kend (kmem s)) early_top s1 [])
    as (k & P & Hk & Hke & Hul & Hok & HP);
    try done; try (unfold kend_ok, is_u32, KERNBASE, PGSIZE, PHYSTOP in *; lia).
  - split_and!; [|constructor|constructor]. simpl. rewrite Hf. constructor.
  - set_solver.
  - exists k, P. rewrite Hk. split_and!; try done. intros v. rewrite HP. set_solver.
Qed.

Lemma kinit2_ok s l :
  can_lock LkKmem s → kend_ok (kend (kmem s)) → kend (kmem s) ≤ early_top →
  freelist_ok (kmem s) l → (∀ v, v ∈ l → v + PGSIZE ≤ early_top) →
  ∃ k l', kinit2 early_top (P2V PHYSTOP) s = Ok tt (s <| kmem := k |>) ∧ use_lock k = true ∧
    kend k = kend (kmem s) ∧ freelist_ok k l' ∧
    (∀ v, v ∈ l' ↔ v ∈ l ∨ (v mod PGSIZE = 0 ∧ early_top ≤ v ∧ v + PGSIZE ≤ P2V PHYSTOP)).
Proof.
  intros Hl He Het Hok Hlow. unfold kinit2, bind, modify_state.
  destruct (freerange_pages early_top (P2V PHYSTOP) s l)
    as (k & P & Hk & Hke & Hul & Hkok & HP); try done; [by intros v Hv; right; apply Hlow|].
  rewrite Hk. by eexists _, P.
Qed.

(** Booting puts every page of memory in the pool exactly once:
    [kinit1(end, P2V(4MB))] frees the pages up to 4 MB; whatever the kernel
    then allocates, frees and writes, [kinit2(P2V(4MB), P2V(PHYSTOP))] frees the
    rest, and the pages in use and the free pages are together exactly the
    pages between [end] and [P2V(PHYSTOP)], none of them twice. *)
Theorem boot_pool e s0 :
  can_lock LkKmem s0 → kend (kmem s0) = e → kend_ok e → e + PGSIZE ≤ early_top →
  freelist (kmem s0) = 0 →
  ∃ s1, kinit1 e early_top s0 = Ok tt s1 ∧
  ∀ s A, star use_step (s1, []) (s, A) →
  ∃ s2 l, kinit2 early_top (P2V PHYSTOP) s = Ok tt s2 ∧ use_lock (kmem s2) = true ∧
    freelist_ok (kmem s2) l ∧ NoDup (A ++ l) ∧ (∀ v, v ∈ A ++ l ↔ page_ok e v).
Proof.
  intros Hl Hke He Het Hf.
  destruct (kinit1_ok e s0) as (k1 & P & Hk1 & Hke1 & Hok1 & HP); try done.
  exists (s0 <| kmem := k1 |>). split; [done|]. intros s A Hstar.
  assert (Hinv0 : use_inv P (s0 <| kmem := k1 |>, [])).
  { split; [done|]. split; [by rewrite <-Hke1 in He|]. exists P.
    destruct Hok1 as (? & ? & ?). by split_and!. }
  assert (Hkeq := use_kend _ _ _ Hinv0 Hstar). cbn [fst] in Hkeq. simpl in Hkeq.
  assert (Hinv : use_inv P (s, A)) by (by eapply (star_inv use_step (use_inv P)); [|apply use_step_inv|]).
  destruct Hinv as (Hls & Hes & l & Hok & Hperm & Hnd & HA).
  assert (HAP : ∀ v, v ∈ A ∨ v ∈ l ↔ v mod PGSIZE = 0 ∧ e ≤ v ∧ v + PGSIZE ≤ early_top).
  { intros v. by rewrite <-elem_of_app, Hperm, HP. }
  destruct (kinit2_ok s l) as (k2 & l2 & Hk2 & Hul & Hke2 & Hok2 & Hl2); try done.
  - rewrite Hkeq, Hke1. unfold PGSIZE in *. lia.
  - intros v Hv. destruct (proj1 (HAP v)) as (_ & _ & ?); [by right|done].
  - exists (s <| kmem := k2 |>), l2. split_and!; try done.
    + apply NoDup_app in Hnd as (HndA & Hdisj & _). apply NoDup_app. split_and!; [done| |by apply Hok2].
      intros v HvA [Hvl|Hv]%Hl2; [by eapply Hdisj|].
      destruct (proj1 (HAP v)) as (_ & _ & ?); [by left|]. unfold PGSIZE in *. lia.
    + intros v. rewrite elem_of_app, Hl2, page_ok_split by done.
      pose proof (HAP v). unfold PGSIZE in *. clear -H Het. intuition lia.
Qed.

(** ** Witnesses *)

(** A machine of which only the two pages below [early_top] follow [end]. *)
Definition kernel_boot : kernel :=
  kernel0 <| kmem := {| use_lock := false; freelist := 0;
                             kend := early_top - 2 * PGSIZE; bytes := λ _, 0 |} |>.

Lemma kernel_boot_lock : can_lock LkKmem kernel_boot.
Proof. apply not_elem_of_nil. Qed.

(** One page on the free list. *)
Definition kernel_one : kernel :=
  kernel_boot <| kmem ::= kfreed (early_top - PGSIZE) |>.

Lemma kernel_boot_empty : freelist_ok (kmem kernel_boot) [].
Proof. split_and!; constructor. Qed.

Lemma kernel_one_ok : freelist_ok (kmem kernel_one) [early_top - PGSIZE].
Proof. apply kfreed_ok; [apply kernel_boot_empty|by vm_compute|apply not_elem_of_nil]. Qed.

Lemma kalloc_spec_witness :
  ∃ s', kalloc kernel_one = Ok (early_top - PGSIZE) s' ∧ freelist_ok (kmem s') [].
Proof.
  destruct (kalloc_spec kernel_one [early_top - PGSIZE] kernel_boot_lock kernel_one_ok)
    as (s' & ? & _ & ? & _). by exists s'.
Defined.

Lemma kfree_spec_witness :
  ∃ s', kfree (early_top - PGSIZE) kernel_boot = Ok tt s' ∧
        freelist_ok (kmem s') [early_top - PGSIZE].
Proof.
  destruct (kfree_spec kernel_boot [] (early_top - PGSIZE)) as [H _];
    [apply kernel_boot_lock|done|apply kernel_boot_empty|done|apply not_elem_of_nil|].
  destruct H as (s' & ? & ? & _); [by vm_compute|]. by exists s'.
Defined.

Lemma page_ownership_witness :
  ∃ s l, star use_step (kernel_one, []) (s, [early_top - PGSIZE]) ∧ freelist_ok (kmem s) l ∧
       [early_top - PGSIZE] ++ l ≡ₚ [early_top - PGSIZE].
Proof.
  assert (Hstar : star use_step (kernel_one, [])
                    (kernel_one <| kmem ::= kalloced |>, [early_top - PGSIZE])).
  { eapply star_snoc; [apply star_refl|]. refine (use_alloc _ [] (early_top - PGSIZE) _ _).
    rewrite kalloc_eq by (intros _; exact kernel_boot_lock). done. }
  destruct (page_ownership kernel_one [early_top - PGSIZE] _ _ kernel_boot_lock eq_refl
              kernel_one_ok Hstar) as (l & Hl & Hp & _).
  by exists (kernel_one <| kmem ::= kalloced |>), l.
Defined.

Lemma boot_pool_witness :
  ∃ s1, kinit1 (early_top - 2 * PGSIZE) early_top kernel_boot = Ok tt s1 ∧
  ∃ s2 l, kinit2 early_top (P2V PHYSTOP) s1 = Ok tt s2 ∧ freelist_ok (kmem s2) l.
Proof.
  destruct (boot_pool (early_top - 2 * PGSIZE) kernel_boot kernel_boot_lock eq_refl eq_refl)
    as (s1 & H1 & H2); [by vm_compute|done|].
  exists s1. split; [done|]. destruct (H2 s1 [] (star_refl _ _)) as (s2 & l & ? & _ & ? & _).
  by exists s2, l.
Defined.
