(* ===== verification/Vm.v ===== *)
(** * Page tables: vm.c

    Page directories and page tables are pages of the kernel's memory; an
    entry is a 32-bit word there.  The operations are translated on that
    memory. *)

From S2P Require Import Prelude Kernel Cstring Kalloc.

Definition NPDENTRIES : nat := 1024.
Definition PTE_P : Z := 1.
Definition PTE_W : Z := 2.
Definition PTE_U : Z := 4.
Definition PDX (va : Z) : Z := Z.land (Z.shiftr va 22) 0x3FF.
Definition PTX (va : Z) : Z := Z.land (Z.shiftr va 12) 0x3FF.
Definition PGADDR (d t o : Z) : Z :=
  u32 (Z.lor (Z.lor (Z.shiftl d 22) (Z.shiftl t 12)) o).
Definition PTE_ADDR (pte : Z) : Z := Z.land pte (u32 (Z.lnot 0xFFF)).
Definition PTE_FLAGS (pte : Z) : Z := Z.land pte 0xFFF.

(** [*p] and [*p = v] for a pointer to a word of kernel memory, and [memset]
    and [memmove] on it. *)
Definition rd32 (a : Z) : KM Z := gets (λ s, load32 a (bytes (kmem s))).
Definition wr32 (a v : Z) : KM unit :=
  modify_state (λ s, s <| kmem ::= λ k, k <| bytes ::= store32 a v |> |>).
Definition kmemset (dst c n : Z) : KM unit :=
  modify_state (λ s, s <| kmem ::= λ k, k <| bytes ::= memset dst c n |> |>).
Definition kmemmove (dst src n : Z) : KM unit :=
  modify_state (λ s, s <| kmem ::= λ k, k <| bytes ::= memmove dst src n |> |>).

Definition is_set (x b : Z) : bool := negb (Z.land x b =? 0).

(** ** Operations *)

Definition walkpgdir (d va : Z) (alloc : bool) : KM Z :=
  let pde := d + 4 * PDX va in
  e ← rd32 pde;
  if is_set e PTE_P then ret (P2V (PTE_ADDR e) + 4 * PTX va)
  else if negb alloc then ret 0
  else
    pgtab ← kalloc;
    if pgtab =? 0 then ret 0
    else
      kmemset pgtab 0 PGSIZE ;;
      wr32 pde (Z.lor (Z.lor (Z.lor (V2P pgtab) PTE_P) PTE_W) PTE_U) ;;
      ret (pgtab + 4 * PTX va).

(** The [for(;;)] of [mappages]: [n + 1] turns reach [a == last]. *)
Fixpoint mappages_loop (n : nat) (d a pa perm : Z) : KM Z :=
  pte ← walkpgdir d a true;
  if pte =? 0 then ret (-1)
  else
    e ← rd32 pte;
    if is_set e PTE_P then panic "remap"
    else
      wr32 pte (Z.lor (Z.lor pa perm) PTE_P) ;;
      match n with
      | O => ret 0
      | S n' => mappages_loop n' d (u32 (a + PGSIZE)) (u32 (pa + PGSIZE)) perm
      end.

Definition mappages (d va size pa perm : Z) : KM Z :=
  let a := PGROUNDDOWN va in
  let last := PGROUNDDOWN (u32 (va + size - 1)) in
  mappages_loop (Z.to_nat (u32 (last - a) / PGSIZE)) d a pa perm.

(** The loop of [deallocuvm]; [fuel] bounds the turns. *)
Fixpoint deallocuvm_loop (fuel : nat) (d a oldsz : Z) : KM unit :=
  match fuel with
  | O => panic "deallocuvm: out of fuel"
  | S fuel' =>
      if a <? oldsz then
        pte ← walkpgdir d a false;
        if pte =? 0 then
          deallocuvm_loop fuel' d (u32 (u32 (PGADDR (PDX a + 1) 0 0 - PGSIZE) + PGSIZE)) oldsz
        else
          e ← rd32 pte;
          if is_set e PTE_P then
            let pa := PTE_ADDR e in
            if pa =? 0 then panic "kfree"
            else
              kfree (P2V pa) ;;
              wr32 pte 0 ;;
              deallocuvm_loop fuel' d (u32 (a + PGSIZE)) oldsz
          else deallocuvm_loop fuel' d (u32 (a + PGSIZE)) oldsz
      else ret tt
  end.

Definition deallocuvm (d oldsz newsz : Z) : KM Z :=
  if oldsz <=? newsz then ret oldsz
  else
    let a := PGROUNDUP newsz in
    deallocuvm_loop (S (Z.to_nat ((oldsz - a) / PGSIZE + 1))) d a oldsz ;;
    ret newsz.

Definition freevm (d : Z) : KM unit :=
  if d =? 0 then panic "freevm: no pgdir"
  else
    deallocuvm d KERNBASE 0 ;;
    for_each (seq 0 NPDENTRIES) (λ i,
      e ← rd32 (d + 4 * Z.of_nat i);
      if is_set e PTE_P then kfree (P2V (PTE_ADDR e)) else ret tt) ;;
    kfree d.

Record kmap_entry := mkkmap { virt : Z; phys_start : Z; phys_end : Z; perm : Z }.

(** [kmap[]], given the linker's [data]. *)
Definition kmap (data : Z) : list kmap_entry :=
  [ mkkmap KERNBASE 0 EXTMEM PTE_W;
    mkkmap KERNLINK (V2P KERNLINK) (V2P data) 0;
    mkkmap data (V2P data) PHYSTOP PTE_W;
    mkkmap DEVSPACE DEVSPACE 0 PTE_W ].

Fixpoint setupkvm_loop (d : Z) (ks : list kmap_entry) : KM Z :=
  match ks with
  | [] => ret d
  | k :: ks' =>
      r ← mappages d (virt k) (u32 (phys_end k - phys_start k)) (phys_start k) (perm k);
      if r <? 0 then freevm d ;; ret 0 else setupkvm_loop d ks'
  end.

Definition setupkvm : KM Z :=
  d ← kalloc;
  if d =? 0 then ret 0
  else
    kmemset d 0 PGSIZE ;;
    if DEVSPACE <? P2V PHYSTOP then panic "PHYSTOP too high"
    else data ← gets (λ s, kdata (kvm s)); setupkvm_loop d (kmap data).

(** [lcr3]: load the page table register of the executing processor. *)
Definition lcr3 (v : Z) : KM unit :=
  modify_state (λ s, s <| kcpu ::= λ c, c <| cpu_cr3 ::= <[me c := v]> |> |>).

Definition switchkvm : KM unit := d ← gets (λ s, kpgdir (kvm s)); lcr3 (V2P d).

Definition kvmalloc : KM unit :=
  d ← setupkvm;
  modify_state (λ s, s <| kvm ::= λ v, v <| kpgdir := d |> |>) ;;
  switchkvm.

Definition switchuvm (p : option nat) : KM unit :=
  match p with
  | None => panic "switchuvm: no process"
  | Some i =>
      pr ← gets (λ s, default proc0 (ptable (kproc s) !! i));
      if kstack pr =? 0 then panic "switchuvm: no kstack"
      else if pgdir pr =? 0 then panic "switchuvm: no pgdir"
      else
        modify_state (λ s, s <| kcpu ::= λ c,
          c <| cpu_esp0 ::= <[me c := u32 (kstack pr + KSTACKSIZE)]> |> |>) ;;
        lcr3 (V2P (pgdir pr))
  end.

Definition inituvm (d init sz : Z) : KM unit :=
  if PGSIZE <=? sz then panic "inituvm: more than a page"
  else
    mem ← kalloc;
    kmemset mem 0 PGSIZE ;;
    _ ← mappages d 0 PGSIZE (V2P mem) (Z.lor PTE_W PTE_U);
    kmemmove mem init sz.

(** The loop of [allocuvm]; it returns [None] when memory ran out and the new
    pages were given back. *)
Fixpoint allocuvm_loop (fuel : nat) (d a oldsz newsz : Z) : KM Z :=
  match fuel with
  | O => panic "allocuvm: out of fuel"
  | S fuel' =>
      if a <? newsz then
        mem ← kalloc;
        if mem =? 0 then deallocuvm d newsz oldsz ;; ret 0
        else
          kmemset mem 0 PGSIZE ;;
          r ← mappages d a PGSIZE (V2P mem) (Z.lor PTE_W PTE_U);
          if r <? 0 then deallocuvm d newsz oldsz ;; kfree mem ;; ret 0
          else allocuvm_loop fuel' d (u32 (a + PGSIZE)) oldsz newsz
      else ret newsz
  end.

Definition allocuvm (d oldsz newsz : Z) : KM Z :=
  if KERNBASE <=? newsz then ret 0
  else if newsz <? oldsz then ret oldsz
  else
    let a := PGROUNDUP oldsz in
    allocuvm_loop (S (Z.to_nat ((newsz - a) / PGSIZE + 1))) d a oldsz newsz.

Definition clearpteu (d uva : Z) : KM unit :=
  pte ← walkpgdir d uva false;
  if pte =? 0 then panic "clearpteu"
  else e ← rd32 pte; wr32 pte (Z.land e (u32 (Z.lnot PTE_U))).

Fixpoint copyuvm_loop (fuel : nat) (old d i sz : Z) : KM Z :=
  match fuel with
  | O => panic "copyuvm: out of fuel"
  | S fuel' =>
      if i <? sz then
        pte ← walkpgdir old i false;
        if pte =? 0 then panic "copyuvm: pte should exist"
        else
          e ← rd32 pte;
          if negb (is_set e PTE_P) then panic "copyuvm: page not present"
          else
            mem ← kalloc;
            if mem =? 0 then freevm d ;; ret 0
            else
              kmemmove mem (P2V (PTE_ADDR e)) PGSIZE ;;
              r ← mappages d i PGSIZE (V2P mem) (PTE_FLAGS e);
              if r <? 0 then kfree mem ;; freevm d ;; ret 0
              else copyuvm_loop fuel' old d (u32 (i + PGSIZE)) sz
      else ret d
  end.

Definition copyuvm (old sz : Z) : KM Z :=
  d ← setupkvm;
  if d =? 0 then ret 0
  else copyuvm_loop (S (Z.to_nat (sz / PGSIZE + 1))) old d 0 sz.

(** The processor's own translation: two present entries lead from a virtual
    address to the kernel address of the same byte. *)
Definition translate (m : memory) (d va : Z) : option Z :=
  let pde := load32 (d + 4 * PDX va) m in
  if is_set pde PTE_P then
    let pte := load32 (P2V (PTE_ADDR pde) + 4 * PTX va) m in
    if is_set pte PTE_P then Some (P2V (PTE_ADDR pte) + va mod PGSIZE) else None
  else None.

(** A load at an address below [KERNBASE] goes through the page table in
    [%cr3]; a fault in the kernel ends in [panic("trap")]. *)
Definition rd32_low (a : Z) : KM Z :=
  s ← gets id;
  match translate (bytes (kmem s)) (P2V (default 0 (cpu_cr3 (kcpu s) !! me (kcpu s)))) a with
  | Some ka => rd32 ka
  | None => panic "trap"
  end.

(** [uva2ka] reads [*pte] without a test for a null [pte]: a [uva] whose page
    table does not exist makes it read the word at address 0. *)
Definition uva2ka (d uva : Z) : KM Z :=
  pte ← walkpgdir d uva false;
  e ← (if pte =? 0 then rd32_low 0 else rd32 pte);
  if negb (is_set e PTE_P) then ret 0
  else if negb (is_set e PTE_U) then ret 0
  else ret (P2V (PTE_ADDR e)).

Fixpoint copyout_loop (fuel : nat) (d va buf len : Z) : KM Z :=
  match fuel with
  | O => panic "copyout: out of fuel"
  | S fuel' =>
      if 0 <? len then
        let va0 := PGROUNDDOWN va in
        pa0 ← uva2ka d va0;
        if pa0 =? 0 then ret (-1)
        else
          let n := Z.min (PGSIZE - (va - va0)) len in
          kmemmove (pa0 + (va - va0)) buf n ;;
          copyout_loop fuel' d (u32 (va0 + PGSIZE)) (buf + n) (len - n)
      else ret 0
  end.

Definition copyout (d va p len : Z) : KM Z :=
  copyout_loop (S (Z.to_nat (len / PGSIZE + 2))) d va p len.

#[local] Opaque acquire release.

(** ** What the operations leave alone *)

(** Only the contents of memory and the free list change. *)
Definition kmem_frame (s s' : kernel) : Prop :=
  ∃ f b, s' = s <| kmem ::= λ k, k <| freelist := f |> <| bytes := b |> |>.

#[export] Instance kmem_frame_preorder : PreOrder kmem_frame.
Proof.
  split.
  - intros s. exists (freelist (kmem s)), (bytes (kmem s)). by destruct s as [? ? ? []].
  - intros s1 s2 s3 (f & b & ->) (f' & b' & ->). by exists f', b'.
Qed.

(** A function that works on memory: it does not sleep either. *)
Abbreviation KmemOnly := (Pres kmem_frame (λ _ _, False)).

Section kmem_only.

Lemma kmem_only_modify (f : kmemst → kmemst) :
  (∀ k, f k = k <| freelist := freelist (f k) |> <| bytes := bytes (f k) |>) →
  KmemOnly (modify_state (λ s, s <| kmem ::= f |>) : KM unit).
Proof.
  intros Hf s. exists (freelist (f (kmem s))), (bytes (f (kmem s))).
  unfold modify. simpl. by rewrite Hf at 1.
Qed.

#[export] Instance kmem_only_rd32 a : KmemOnly (rd32 a).
Proof. unfold rd32. solve_pres. Qed.
#[export] Instance kmem_only_wr32 a v : KmemOnly (wr32 a v).
Proof. by apply kmem_only_modify. Qed.
#[export] Instance kmem_only_memset d c n : KmemOnly (kmemset d c n).
Proof. by apply kmem_only_modify. Qed.
#[export] Instance kmem_only_memmove d s n : KmemOnly (kmemmove d s n).
Proof. by apply kmem_only_modify. Qed.

(** The allocator panics when its lock is held, whatever else happens. *)
Lemma kmem_lock_cases s :
  (use_lock (kmem s) = true → can_lock LkKmem s) ∨ (use_lock (kmem s) = true ∧ LkKmem ∈ held s).
Proof.
  destruct (decide (LkKmem ∈ held s)); [|by left].
  destruct (use_lock (kmem s)) eqn:E; [by right|]. left. by intros.
Qed.

#[export] Instance kmem_only_kalloc : KmemOnly kalloc.
Proof.
  intros s. destruct (kmem_lock_cases s) as [Hl|[Hu Hin]].
  - rewrite kalloc_eq by done. unfold kalloced, modify. simpl. destruct (_ =? 0).
    + exists (freelist (kmem s)), (bytes (kmem s)). by destruct s as [? ? ? []].
    + by eexists _, (bytes (kmem s)).
  - unfold kalloc, bind, gets. rewrite Hu. by rewrite acquire_eq, bool_decide_true.
Qed.

#[export] Instance kmem_only_kfree v : KmemOnly (kfree v).
Proof.
  unfold kfree. apply pres_bind; [exact _|solve_pres|]. intros e. destruct (_ || _); [solve_pres|].
  apply pres_bind; [exact _|by apply kmem_only_modify|]. intros _ s.
  unfold bind, gets, modify_state. destruct (use_lock (kmem s)).
  - rewrite acquire_eq. case_bool_decide as Hin; [done|].
    rewrite (release_cons _ (held s)) by done. by eexists v, _.
  - by eexists v, _.
Qed.

#[export] Instance kmem_only_walkpgdir d va al : KmemOnly (walkpgdir d va al).
Proof. unfold walkpgdir. solve_pres. Qed.
#[export] Instance kmem_only_mappages_loop n d a pa pe : KmemOnly (mappages_loop n d a pa pe).
Proof. revert a pa. induction n; intros; simpl; solve_pres. Qed.
#[export] Instance kmem_only_mappages d va sz pa pe : KmemOnly (mappages d va sz pa pe).
Proof. unfold mappages. solve_pres. Qed.
#[export] Instance kmem_only_deallocuvm_loop n d a o : KmemOnly (deallocuvm_loop n d a o).
Proof. revert a. induction n; intros; simpl; solve_pres. Qed.
#[export] Instance kmem_only_deallocuvm d o n : KmemOnly (deallocuvm d o n).
Proof. unfold deallocuvm. solve_pres. Qed.
#[export] Instance kmem_only_freevm d : KmemOnly (freevm d).
Proof. unfold freevm. solve_pres. Qed.
#[export] Instance kmem_only_setupkvm_loop d ks : KmemOnly (setupkvm_loop d ks).
Proof. induction ks; simpl; solve_pres. Qed.
#[export] Instance kmem_only_setupkvm : KmemOnly setupkvm.
Proof. unfold setupkvm. solve_pres. Qed.
#[export] Instance kmem_only_inituvm d i n : KmemOnly (inituvm d i n).
Proof. unfold inituvm. solve_pres. Qed.
#[export] Instance kmem_only_allocuvm_loop n d a o z : KmemOnly (allocuvm_loop n d a o z).
Proof. revert a. induction n; intros; simpl; solve_pres. Qed.
#[export] Instance kmem_only_allocuvm d o n : KmemOnly (allocuvm d o n).
Proof. unfold allocuvm. solve_pres. Qed.
#[export] Instance kmem_only_clearpteu d u : KmemOnly (clearpteu d u).
Proof. unfold clearpteu. solve_pres. Qed.
#[export] Instance kmem_only_copyuvm_loop n o d i z : KmemOnly (copyuvm_loop n o d i z).
Proof. revert i. induction n; intros; simpl; solve_pres. Qed.
#[export] Instance kmem_only_copyuvm o z : KmemOnly (copyuvm o z).
Proof. unfold copyuvm. solve_pres. Qed.
#[export] Instance kmem_only_uva2ka d u : KmemOnly (uva2ka d u).
Proof. unfold uva2ka, rd32_low. solve_pres. Qed.
#[export] Instance kmem_only_copyout_loop n d va p l : KmemOnly (copyout_loop n d va p l).
Proof. revert va p l. induction n; intros; simpl; solve_pres. Qed.
#[export] Instance kmem_only_copyout d va p l : KmemOnly (copyout d va p l).
Proof. unfold copyout. solve_pres. Qed.

End kmem_only.

(** They do not sleep. *)
#[export] Instance kmem_only_no_sleep {A} (m : KM A) : KmemOnly m → NoSleep m | 10.
Proof. by apply pres_mono. Qed.
