(* ===== verification/Pagetab.v ===== *)
(** * Address spaces

    What the operations of vm.c do to a page table and to the pages in use: the
    tables of a page directory and the entries in them, the user pages they map,
    and the free list, which together account for every page. *)

From Stdlib Require Import Sorted.
From stdpp Require Import list_tactics.
From S2P Require Import Prelude Kernel Cstring Kalloc Vm.

(** ** Words of pages *)

Definition word (m : memory) (p x : Z) : Z := load32 (p + 4 * x) m.

Definition on_page (p a : Z) : Prop := p ≤ a < p + PGSIZE.

(** [m'] differs from [m] on the pages [S] at most. *)
Definition same_but (S : list Z) (m m' : memory) : Prop :=
  ∀ a, (∀ p, p ∈ S → ¬ on_page p a) → m' a = m a.

Lemma same_but_refl S m : same_but S m m.
Proof. by intros a _. Qed.

Lemma same_but_trans S S1 S2 m m1 m2 :
  same_but S1 m m1 → same_but S2 m1 m2 → S1 ⊆ S → S2 ⊆ S → same_but S m m2.
Proof. intros H1 H2 HS1 HS2 a Ha. rewrite H2, H1; [done|..]; intros p Hp; apply Ha; set_solver. Qed.

Lemma same_but_mono S S' m m' : same_but S m m' → S ⊆ S' → same_but S' m m'.
Proof. intros H HS a Ha. apply H. intros p Hp. apply Ha. set_solver. Qed.

(** Pages outside [S] keep their bytes and words. *)
Lemma same_page e S m m' p a :
  same_but S m m' → Forall (page_ok e) S → page_ok e p → p ∉ S → on_page p a → m' a = m a.
Proof.
  intros Hs HS Hp Hin Ha. apply Hs. intros q Hq. rewrite Forall_forall in HS.
  eapply (pages_disjoint e p q a); [done|by apply HS|set_solver|done].
Qed.

Lemma same_word e S m m' p x :
  same_but S m m' → Forall (page_ok e) S → page_ok e p → p ∉ S → 0 ≤ x < 1024 → word m' p x = word m p x.
Proof.
  intros Hs HS Hp Hin Hx. apply load32_ext. intros a Ha.
  eapply same_page; try done. unfold on_page, PGSIZE. lia.
Qed.

Lemma word_store e m p q x y v :
  page_ok e p → page_ok e q → 0 ≤ x < 1024 → 0 ≤ y < 1024 → is_u32 v →
  word (store32 (p + 4 * x) v m) q y = if decide (q = p ∧ y = x) then v else word m q y.
Proof.
  intros Hp Hq Hx Hy Hv. unfold word. destruct (decide (q = p ∧ y = x)) as [[-> ->]|Hne].
  - by apply load_store32.
  - apply load32_ext. intros a Ha. apply store32_other. destruct Hp as [Hp _], Hq as [Hq _]. unfold PGSIZE in *.
    assert (q + 4 * y ≠ p + 4 * x) by (intros He; apply Hne; Z.div_mod_to_equations; lia).
    Z.div_mod_to_equations. lia.
Qed.

Lemma store_same_but p x v m : 0 ≤ x < 1024 → same_but [p] m (store32 (p + 4 * x) v m).
Proof.
  intros Hx a Ha. apply store32_other. specialize (Ha p (list_elem_of_here _ _)). unfold on_page, PGSIZE in Ha. lia.
Qed.

Lemma memset_same_but p c m : same_but [p] m (memset p c PGSIZE m).
Proof.
  intros a Ha. rewrite memset_correct by done. specialize (Ha p (list_elem_of_here _ _)).
  unfold on_page in Ha. destruct (_ && _) eqn:E; [lia|done].
Qed.

Lemma word_memset p m x : 0 ≤ x < 1024 → word (memset p 0 PGSIZE m) p x = 0.
Proof.
  intros Hx. unfold word, load32. rewrite !memset_correct by done. unfold PGSIZE.
  repeat (destruct (_ && _) eqn:E; [clear E|lia]). done.
Qed.

(** ** Entries *)

(** An entry for the page [p] with flags. *)
Definition mk_pte (p fl : Z) : Z := Z.lor (Z.lor (V2P p) fl) PTE_P.
Definition pte_page (e : Z) : Z := P2V (PTE_ADDR e).
Definition present (e : Z) : bool := is_set e PTE_P.

Lemma pte_bits pa fl :
  is_u32 pa → pa mod PGSIZE = 0 → 0 ≤ fl < PGSIZE →
  PTE_ADDR (Z.lor pa fl) = pa ∧ PTE_FLAGS (Z.lor pa fl) = fl ∧ is_u32 (Z.lor pa fl).
Proof.
  intros Hu Hpa Hfl. unfold PTE_ADDR, PTE_FLAGS.
  assert (Hlow : ∀ n, 0 ≤ n < 12 → Z.testbit pa n = false).
  { intros n Hn. rewrite <-(Z.mod_pow2_bits_low pa 12 n) by lia. change (2 ^ 12) with PGSIZE. rewrite Hpa. apply Z.bits_0. }
  assert (Hhigh : ∀ n, 12 ≤ n → Z.testbit fl n = false).
  { intros n Hn. rewrite <-(Z.mod_small fl (2 ^ 12)) by (unfold PGSIZE in *; lia). by apply Z.mod_pow2_bits_high. }
  assert (Hor : Z.lor pa fl = pa + fl).
  { symmetry. rewrite Z.add_nocarry_lxor.
    - apply Z.bits_inj'. intros n Hn. rewrite Z.lxor_spec, Z.lor_spec.
      destruct (decide (n < 12)); [rewrite Hlow by lia|rewrite (Hhigh n) by lia]; by destruct (Z.testbit _ _).
    - apply Z.bits_inj'. intros n Hn. rewrite Z.land_spec, Z.bits_0.
      destruct (decide (n < 12)); [by rewrite Hlow by lia|rewrite (Hhigh n) by lia; apply andb_false_r]. }
  rewrite Hor. unfold is_u32, PGSIZE in *. split_and!.
  - change (u32 (Z.lnot 4095)) with (u32 (Z.lnot (PGSIZE - 1))). rewrite page_mask by (unfold is_u32; Z.div_mod_to_equations; lia).
    unfold PGSIZE. Z.div_mod_to_equations. lia.
  - change 4095 with (Z.ones 12). rewrite Z.land_ones by lia. change (2 ^ 12) with 4096. Z.div_mod_to_equations. lia.
  - lia.
  - Z.div_mod_to_equations. lia.
Qed.

Lemma V2P_page e p : kend_ok e → page_ok e p → V2P p = p - KERNBASE ∧ is_u32 (V2P p) ∧ V2P p mod PGSIZE = 0 ∧ P2V (V2P p) = p.
Proof.
  unfold kend_ok, page_ok, V2P, P2V, is_u32, KERNBASE, PHYSTOP, PGSIZE. intros He (H1 & H2 & H3).
  rewrite (u32_small (p - 2147483648)) by (unfold is_u32; lia).
  rewrite u32_small by (unfold is_u32; lia). split_and!; [done|lia|lia|Z.div_mod_to_equations; lia|lia].
Qed.

Lemma lor_P_range fl : 0 ≤ fl < PGSIZE → 0 ≤ Z.lor fl PTE_P < PGSIZE.
Proof.
  intros Hf. split; [apply Z.lor_nonneg; unfold PTE_P; lia|]. change PGSIZE with (2 ^ 12).
  assert (Hb : ∀ n, 12 ≤ n → Z.testbit (Z.lor fl PTE_P) n = false).
  { intros n Hn. rewrite Z.lor_spec. rewrite <-(Z.mod_small fl (2 ^ 12)) by (change PGSIZE with (2 ^ 12) in Hf; lia).
    rewrite Z.mod_pow2_bits_high by lia. unfold PTE_P. rewrite Z.bits_above_log2; [done|done|simpl; lia]. }
  assert (Hpos : 0 < Z.lor fl PTE_P).
  { assert (0 ≤ Z.lor fl PTE_P) by (apply Z.lor_nonneg; unfold PTE_P; lia).
    destruct (Z.eq_dec (Z.lor fl PTE_P) 0) as [E|]; [|lia]. by apply Z.lor_eq_0_iff in E as [_ E]. }
  apply Z.log2_lt_pow2; [done|]. destruct (Z.lt_ge_cases (Z.log2 (Z.lor fl PTE_P)) 12) as [|Hge]; [done|].
  pose proof (Hb _ Hge) as Hf'. by rewrite Z.bit_log2 in Hf'.
Qed.

(** What is stored as an entry is read as one. *)
Lemma mk_pte_ok e p fl :
  kend_ok e → page_ok e p → 0 ≤ fl < PGSIZE →
  pte_page (mk_pte p fl) = p ∧ present (mk_pte p fl) = true ∧ is_u32 (mk_pte p fl) ∧
  PTE_FLAGS (mk_pte p fl) = Z.lor fl PTE_P.
Proof.
  intros He Hp Hf. destruct (V2P_page e p He Hp) as (_ & Hu & Hm & HP).
  unfold mk_pte. rewrite <-Z.lor_assoc.
  destruct (pte_bits (V2P p) (Z.lor fl PTE_P) Hu Hm (lor_P_range _ Hf)) as (Ha & Hfl & Hu').
  split_and!; [unfold pte_page; by rewrite Ha| |done|done].
  unfold present, is_set. apply negb_true_iff, Z.eqb_neq. intros H0.
  assert (Hb : Z.testbit (Z.land (Z.lor (V2P p) (Z.lor fl PTE_P)) PTE_P) 0 = false) by (by rewrite H0).
  rewrite Z.land_spec, !Z.lor_spec in Hb. change (Z.testbit PTE_P 0) with true in Hb.
  by rewrite !orb_true_r in Hb.
Qed.

(** ** Directories *)

(** The table for entry [i] of the directory [d]; the tables; the entry for the
    virtual page [n]. *)
Definition tab (m : memory) (d i : Z) : option Z :=
  if present (word m d i) then Some (pte_page (word m d i)) else None.
Definition tabs (m : memory) (d : Z) : list Z := omap (tab m d) (seqZ 0 1024).
Definition ent (m : memory) (d n : Z) : Z :=
  match tab m d (n / 1024) with Some t => word m t (n mod 1024) | None => 0 end.

(** Virtual pages of 32-bit addresses. *)
Definition vpage (n : Z) : Prop := 0 ≤ n < 2 ^ 20.

Lemma vpage_index n : vpage n → 0 ≤ n / 1024 < 1024 ∧ 0 ≤ n mod 1024 < 1024.
Proof. unfold vpage. intros. split; Z.div_mod_to_equations; lia. Qed.

Lemma PDX_page n o : vpage n → 0 ≤ o < PGSIZE → PDX (PGSIZE * n + o) = n / 1024.
Proof.
  unfold vpage, PDX, PGSIZE. intros. rewrite Z.shiftr_div_pow2 by lia.
  change 0x3FF with (Z.ones 10). rewrite Z.land_ones by lia. change (2 ^ 22) with 4194304.
  change (2 ^ 10) with 1024. Z.div_mod_to_equations. lia.
Qed.

Lemma PTX_page n o : vpage n → 0 ≤ o < PGSIZE → PTX (PGSIZE * n + o) = n mod 1024.
Proof.
  unfold vpage, PTX, PGSIZE. intros. rewrite Z.shiftr_div_pow2 by lia.
  change 0x3FF with (Z.ones 10). rewrite Z.land_ones by lia. change (2 ^ 12) with 4096.
  change (2 ^ 10) with 1024. Z.div_mod_to_equations. lia.
Qed.

(** [omap] over the indices of a directory. *)
Lemma seqZ_split a n i : a ≤ i < a + n → seqZ a n = seqZ a (i - a) ++ i :: seqZ (i + 1) (a + n - i - 1).
Proof.
  intros Hi. replace n with ((i - a) + (a + n - i)) at 1 by lia. rewrite seqZ_app by lia. f_equal.
  rewrite seqZ_cons by lia. f_equal; [lia|]. f_equal; lia.
Qed.

Lemma omap_ext_in {A B} (f g : A → option B) (l : list A) : (∀ x, x ∈ l → f x = g x) → omap f l = omap g l.
Proof.
  induction l as [|x l IH]; intros H; [done|]. csimpl. rewrite (H x) by set_solver.
  rewrite IH by (intros y Hy; apply H; set_solver). done.
Qed.

(** One more index has a value. *)
Lemma omap_insert {B} (f g : Z → option B) a n i t :
  a ≤ i < a + n → f i = None → g i = Some t → (∀ j, a ≤ j < a + n → j ≠ i → g j = f j) →
  omap g (seqZ a n) ≡ₚ t :: omap f (seqZ a n).
Proof.
  intros Hi Hf Hg Hj. rewrite (seqZ_split a n i Hi), !omap_app. csimpl. rewrite Hf, Hg. csimpl.
  rewrite (omap_ext_in g f (seqZ a (i - a))) by (intros j Hin; apply elem_of_seqZ in Hin; apply Hj; lia).
  rewrite (omap_ext_in g f (seqZ (i + 1) _)) by (intros j Hin; apply elem_of_seqZ in Hin; apply Hj; lia).
  symmetry. apply Permutation_middle.
Qed.

Lemma NoDup_omap_inj {B} (f : Z → option B) a n i j t :
  NoDup (omap f (seqZ a n)) → a ≤ i < a + n → a ≤ j < a + n → f i = Some t → f j = Some t → i = j.
Proof.
  assert (Hlt : ∀ i j, NoDup (omap f (seqZ a n)) → a ≤ i → i < j < a + n → f i = Some t → f j = Some t → False).
  { intros i' j' Hnd Hi Hj Hfi Hfj. rewrite (seqZ_split a n i') in Hnd by lia. rewrite omap_app in Hnd.
    csimpl in Hnd. rewrite Hfi in Hnd. apply NoDup_app in Hnd as (_ & _ & Hnd).
    apply NoDup_cons in Hnd as [Hnin _]. apply Hnin.
    apply list_elem_of_omap. exists j'. split; [apply elem_of_seqZ; lia|done]. }
  intros Hnd Hi Hj Hfi Hfj. destruct (Z.lt_trichotomy i j) as [H|[H|H]]; [|done|].
  - destruct (Hlt i j Hnd); try done; lia.
  - destruct (Hlt j i Hnd); try done; lia.
Qed.

(** ** Address spaces *)

(** User pages: the pages of the entries below [KERNBASE]. *)
Definition upage (m : memory) (d n : Z) : option Z :=
  if present (ent m d n) then Some (pte_page (ent m d n)) else None.
Definition NUSER : Z := 2 ^ 19.
Lemma length_omap_le {A B} (f : A → option B) xs : (length (omap f xs) ≤ length xs)%nat.
Proof. induction xs as [|x xs IH]; csimpl; [lia|]. destruct (f x); simpl; lia. Qed.

Definition upages (m : memory) (d : Z) : list Z := omap (upage m d) (seqZ 0 NUSER).

(** The directory [d] with its tables [Tb] and user pages [U], other pages [X]
    in use, and the free pages [l]: no page has two roles. *)
Record aspace (e : Z) (k : kmemst) (d : Z) (Tb U X l : list Z) : Prop := {
  as_kend : kend k = e;
  as_end : kend_ok e;
  as_free : freelist_ok k l;
  as_tabs : tabs (bytes k) d ≡ₚ Tb;
  as_user : upages (bytes k) d ≡ₚ U;
  as_nodup : NoDup (d :: Tb ++ U ++ X ++ l);
  as_pages : Forall (page_ok e) (d :: Tb ++ U ++ X) }.

Lemma as_tabs_length e k d Tb U X l : aspace e k d Tb U X l → (length Tb ≤ 1024)%nat.
Proof.
  intros Ha. rewrite <-(as_tabs _ _ _ _ _ _ _ Ha). unfold tabs. etrans; [apply length_omap_le|]. by rewrite length_seqZ.
Qed.

Lemma as_page e k d Tb U X l p : aspace e k d Tb U X l → p ∈ d :: Tb ++ U ++ X ++ l → page_ok e p.
Proof.
  intros [Hk _ (_ & _ & Hl) _ _ _ Hp] Hin. rewrite Forall_forall in Hp, Hl. rewrite Hk in Hl.
  assert (p ∈ l ∨ p ∈ d :: Tb ++ U ++ X) as [|] by set_solver; [by apply Hl|by apply Hp].
Qed.

(** The directory, its tables and the free list only. *)
Record pdir (e : Z) (k : kmemst) (d : Z) (Tb l : list Z) : Prop := {
  pd_kend : kend k = e;
  pd_free : freelist_ok k l;
  pd_tabs : tabs (bytes k) d ≡ₚ Tb;
  pd_nodup : NoDup (d :: Tb ++ l);
  pd_pages : Forall (page_ok e) (d :: Tb) }.

Lemma as_pdir e k d Tb U X l : aspace e k d Tb U X l → pdir e k d Tb l.
Proof.
  intros [Hk He Hf Ht Hu Hnd Hp]. split; try done.
  - apply NoDup_cons in Hnd as [Hd Hnd]. apply NoDup_app in Hnd as (HT & HTd & Hnd). constructor; [set_solver|].
    apply NoDup_app. split_and!; [done|set_solver|]. rewrite app_assoc in Hnd. by apply NoDup_app in Hnd as (_ & _ & ?).
  - rewrite Forall_cons, Forall_app in Hp. rewrite Forall_cons. tauto.
Qed.

Lemma pd_page e k d Tb l p : pdir e k d Tb l → p ∈ d :: Tb → page_ok e p.
Proof. intros [_ _ _ _ Hp]. rewrite Forall_forall in Hp. apply Hp. Qed.

(** The table of an entry. *)
Lemma pd_tab e k d Tb l i t :
  pdir e k d Tb l → 0 ≤ i < 1024 → tab (bytes k) d i = Some t → t ∈ Tb ∧ t ≠ d.
Proof.
  intros Ha Hi Ht. assert (Hin : t ∈ Tb).
  { rewrite <-(pd_tabs _ _ _ _ _ Ha). apply list_elem_of_omap. exists i. split; [apply elem_of_seqZ; lia|done]. }
  split; [done|]. intros ->. pose proof (pd_nodup _ _ _ _ _ Ha) as Hnd. apply NoDup_cons in Hnd. set_solver.
Qed.

Lemma as_tab e k d Tb U X l i t :
  aspace e k d Tb U X l → 0 ≤ i < 1024 → tab (bytes k) d i = Some t → t ∈ Tb ∧ t ≠ d.
Proof. intros Ha. by eapply pd_tab, as_pdir. Qed.

Lemma pd_tabs_nodup e k d Tb l : pdir e k d Tb l → NoDup (tabs (bytes k) d).
Proof.
  intros Ha. rewrite (pd_tabs _ _ _ _ _ Ha). pose proof (pd_nodup _ _ _ _ _ Ha) as Hnd.
  apply NoDup_cons in Hnd as [_ Hnd]. by apply NoDup_app in Hnd as [? _].
Qed.

Lemma tab_inj m d i j t :
  NoDup (tabs m d) → 0 ≤ i < 1024 → 0 ≤ j < 1024 → tab m d i = Some t → tab m d j = Some t → i = j.
Proof. unfold tabs. intros Hnd Hi Hj. by apply (NoDup_omap_inj (tab m d) 0 1024). Qed.

Lemma tabs_ext m m' d : (∀ i, 0 ≤ i < 1024 → tab m' d i = tab m d i) → tabs m' d = tabs m d.
Proof. intros H. apply omap_ext_in. intros i Hi. apply elem_of_seqZ in Hi. apply H. lia. Qed.

Lemma upages_ext m m' d : (∀ n, 0 ≤ n < NUSER → upage m' d n = upage m d n) → upages m' d = upages m d.
Proof. intros H. apply omap_ext_in. intros n Hn. apply elem_of_seqZ in Hn. apply H. lia. Qed.

Lemma tabs_add m m' d i t :
  0 ≤ i < 1024 → tab m d i = None → tab m' d i = Some t → (∀ j, 0 ≤ j < 1024 → j ≠ i → tab m' d j = tab m d j) →
  tabs m' d ≡ₚ t :: tabs m d.
Proof. intros Hi H0 H1 Hj. unfold tabs. apply (omap_insert (tab m d) (tab m' d) 0 1024 i t); try done; lia. Qed.

Lemma upages_add m m' d n p :
  0 ≤ n < NUSER → upage m d n = None → upage m' d n = Some p →
  (∀ j, 0 ≤ j < NUSER → j ≠ n → upage m' d j = upage m d j) → upages m' d ≡ₚ p :: upages m d.
Proof. intros Hi H0 H1 Hj. unfold upages. apply (omap_insert (upage m d) (upage m' d) 0 NUSER n p); try done; lia. Qed.

Lemma upage_in m d n p : 0 ≤ n < NUSER → upage m d n = Some p → p ∈ upages m d.
Proof. intros Hn Hp. apply list_elem_of_omap. exists n. split; [apply elem_of_seqZ; lia|done]. Qed.

Lemma upages_none m d : (∀ n, 0 ≤ n < NUSER → upage m d n = None) → upages m d = [].
Proof.
  intros H. unfold upages. assert (Hl : ∀ l, (∀ n, n ∈ l → upage m d n = None) → omap (upage m d) l = []).
  { induction l as [|n l IH]; [done|]. intros Hn. csimpl. rewrite Hn by set_solver. apply IH. set_solver. }
  apply Hl. intros n Hn. apply elem_of_seqZ in Hn. apply H. lia.
Qed.

Lemma tabs_none m d : (∀ i, 0 ≤ i < 1024 → tab m d i = None) → tabs m d = [].
Proof.
  intros H. unfold tabs. assert (Hl : ∀ l, (∀ i, i ∈ l → tab m d i = None) → omap (tab m d) l = []).
  { induction l as [|i l IH]; [done|]. intros Hi. csimpl. rewrite Hi by set_solver. apply IH. set_solver. }
  apply Hl. intros i Hi. apply elem_of_seqZ in Hi. apply H. lia.
Qed.

Lemma omap_fmap_list {A B C} (f : B → option C) (g : A → B) (l : list A) : omap f (g <$> l) = omap (f ∘ g) l.
Proof. induction l as [|x l IH]; [done|]. csimpl. by rewrite IH. Qed.

(** The tables in the order [freevm] frees them. *)
Lemma tabs_seq m d : tabs m d = omap (λ j, tab m d (Z.of_nat j)) (seq 0 NPDENTRIES).
Proof.
  unfold tabs, seqZ. rewrite omap_fmap_list. change (Z.to_nat 1024) with NPDENTRIES. apply omap_ext_in.
  intros j _. simpl. by rewrite Z.add_0_r.
Qed.

#[local] Opaque tabs upages.

(** A change of pages that are not free leaves the free list alone. *)
Lemma freelist_same_but e k l S m :
  freelist_ok k l → kend k = e → same_but S (bytes k) m → Forall (page_ok e) S → (∀ p, p ∈ S → p ∉ l) →
  freelist_ok (k <| bytes := m |>) l.
Proof.
  intros (Hch & Hnd & Hok) He Hs HS Hd. split_and!; [|done|done]. eapply chain_ext; [done| |done].
  intros v a Hv Ha. symmetry. rewrite He, Forall_forall in Hok.
  eapply (same_page e S); [done|done|by apply Hok|intros Hin; by apply (Hd v)|done].
Qed.

(** Entry [n] becomes [v]. *)
Section SetEnt.
Context (e : Z) (k : kmemst) (d : Z) (Tb l : list Z) (n t v : Z).
Context (Ha : pdir e k d Tb l) (Hn : vpage n) (Ht : tab (bytes k) d (n / 1024) = Some t) (Hv : is_u32 v).

Definition set_word : kmemst := k <| bytes ::= store32 (t + 4 * (n mod 1024)) v |>.

Lemma set_word_page : t ∈ Tb ∧ t ≠ d ∧ page_ok e t ∧ page_ok e d.
Proof using All.
  destruct (vpage_index n Hn) as [Hi _]. destruct (pd_tab _ _ _ _ _ _ _ Ha Hi Ht) as [Hin Hne].
  split_and!; [done|done|..]; apply (pd_page _ _ _ _ _ _ Ha); set_solver.
Qed.

Lemma set_word_same : same_but [t] (bytes k) (bytes set_word).
Proof using All. apply store_same_but. by destruct (vpage_index n Hn). Qed.

Lemma set_word_tab i : 0 ≤ i < 1024 → tab (bytes set_word) d i = tab (bytes k) d i.
Proof using All.
  intros Hi. destruct set_word_page as (_ & Hne & Hpt & Hpd), (vpage_index n Hn). unfold tab.
  assert (Hw : word (bytes set_word) d i = word (bytes k) d i).
  { unfold set_word. simpl. rewrite (word_store e) by done. rewrite decide_False; [done|]. intros [? _]. congruence. }
  by rewrite Hw.
Qed.

Lemma set_word_ent n' : vpage n' → ent (bytes set_word) d n' = if decide (n' = n) then v else ent (bytes k) d n'.
Proof using All.
  intros Hn'. destruct (vpage_index n' Hn') as [Hi Hx], (vpage_index n Hn) as [Hi0 Hx0].
  destruct set_word_page as (_ & _ & Hpt & _). unfold ent. rewrite set_word_tab by done.
  destruct (tab (bytes k) d (n' / 1024)) as [t'|] eqn:Et.
  - destruct (pd_tab _ _ _ _ _ _ _ Ha Hi Et) as [Hin' _].
    assert (Hpt' : page_ok e t') by (apply (pd_page _ _ _ _ _ _ Ha); set_solver).
    unfold set_word at 1. simpl. rewrite (word_store e) by done.
    destruct (decide (n' = n)) as [->|Hne].
    + assert (t' = t) by congruence. by rewrite decide_True.
    + rewrite decide_False; [done|]. intros [-> Hmod]. apply Hne.
      assert (n' / 1024 = n / 1024).
      { by apply (tab_inj (bytes k) d _ _ t (pd_tabs_nodup _ _ _ _ _ Ha)). }
      Z.div_mod_to_equations. lia.
  - rewrite decide_False; [done|]. intros ->. congruence.
Qed.

Lemma set_word_tabs : tabs (bytes set_word) d = tabs (bytes k) d.
Proof using All. apply tabs_ext. intros i Hi. by apply set_word_tab. Qed.

Lemma set_word_free : freelist_ok set_word l.
Proof using All.
  destruct set_word_page as (Hin & _ & Hpt & _). pose proof (pd_nodup _ _ _ _ _ Ha) as Hnd.
  apply (freelist_same_but e k l [t] (bytes set_word)); [apply Ha|apply Ha|apply set_word_same|by constructor|].
  intros p Hp%list_elem_of_singleton. subst p. apply NoDup_cons in Hnd as [_ Hnd].
  apply NoDup_app in Hnd as (_ & Hd & _). set_solver.
Qed.

Lemma set_word_upage n' : vpage n' → n' ≠ n → upage (bytes set_word) d n' = upage (bytes k) d n'.
Proof using All. intros Hn' Hne. unfold upage. by rewrite set_word_ent, decide_False. Qed.
End SetEnt.

Lemma NoDup_perm (l l' : list Z) : NoDup l → l ≡ₚ l' → NoDup l'.
Proof. by intros H <-. Qed.

Lemma Forall_perm (P : Z → Prop) (l l' : list Z) : Forall P l → l ≡ₚ l' → Forall P l'.
Proof. by intros H <-. Qed.

(** ** Changes of roles *)

Lemma aspace_perm e k d Tb U X Tb' U' X' l :
  aspace e k d Tb U X l → Tb ≡ₚ Tb' → U ≡ₚ U' → X ≡ₚ X' → aspace e k d Tb' U' X' l.
Proof.
  intros [Hk He Hf Ht Hu Hnd Hp] HT HU HX. split; try done.
  - by rewrite Ht.
  - by rewrite Hu.
  - by rewrite <-HT, <-HU, <-HX.
  - by rewrite <-HT, <-HU, <-HX.
Qed.

(** A change outside of the directory and the tables. *)
Lemma same_ents e k d Tb U X l S m' :
  aspace e k d Tb U X l → same_but S (bytes k) m' → Forall (page_ok e) S → (∀ p, p ∈ S → p ∉ d :: Tb) →
  (∀ i, 0 ≤ i < 1024 → tab m' d i = tab (bytes k) d i) ∧
  (∀ n, vpage n → ent m' d n = ent (bytes k) d n) ∧
  tabs m' d = tabs (bytes k) d ∧ upages m' d = upages (bytes k) d.
Proof.
  intros Ha Hs HS Hd.
  assert (Hw : ∀ p x, p ∈ d :: Tb → 0 ≤ x < 1024 → word m' p x = word (bytes k) p x).
  { intros p x Hp Hx. eapply (same_word e S); try done; [apply (as_page _ _ _ _ _ _ _ _ Ha); set_solver|].
    intros Hin. by apply (Hd p). }
  assert (Ht : ∀ i, 0 ≤ i < 1024 → tab m' d i = tab (bytes k) d i).
  { intros i Hi. unfold tab. by rewrite Hw by (done || set_solver). }
  assert (He : ∀ n, vpage n → ent m' d n = ent (bytes k) d n).
  { intros n Hn. destruct (vpage_index n Hn) as [Hi Hx]. unfold ent. rewrite Ht by done.
    destruct (tab (bytes k) d (n / 1024)) as [t|] eqn:E; [|done].
    destruct (as_tab _ _ _ _ _ _ _ _ _ Ha Hi E). apply Hw; [set_solver|done]. }
  split_and!; [done|done|by apply tabs_ext|apply upages_ext].
  intros n Hn. unfold upage. by rewrite He by (unfold vpage, NUSER in *; lia).
Qed.

(** Writing to pages that are in use but are not tables. *)
Lemma aspace_write e k d Tb U X l S m' :
  aspace e k d Tb U X l → same_but S (bytes k) m' → S ⊆ U ++ X →
  aspace e (k <| bytes := m' |>) d Tb U X l ∧ (∀ n, vpage n → ent m' d n = ent (bytes k) d n).
Proof.
  intros Ha Hs HS. pose proof (as_nodup _ _ _ _ _ _ _ Ha) as Hnd.
  apply NoDup_cons in Hnd as [Hd Hnd]. apply NoDup_app in Hnd as (HT & HTd & Hnd).
  rewrite app_assoc in Hnd. apply NoDup_app in Hnd as (_ & HUX & _).
  assert (HSp : Forall (page_ok e) S).
  { apply Forall_forall. intros p Hp. apply (as_page _ _ _ _ _ _ _ _ Ha). specialize (HS p Hp). set_solver. }
  destruct (same_ents e k d Tb U X l S m') as (H1 & H2 & H3 & H4); try done.
  { intros p Hp Hin. specialize (HS p Hp). apply elem_of_cons in Hin as [->|Hin]; [set_solver|].
    apply (HTd p Hin). set_solver. }
  split; [|done]. destruct Ha as [Hk He Hf Ht Hu Hnd' Hp]. split; simpl; try done.
  - eapply freelist_same_but; try done. intros p Hin. apply HUX. by apply HS.
  - by rewrite H3.
  - by rewrite H4.
Qed.

(** A page of zeros becomes the table of entry [i]. *)
Lemma aspace_table e k d Tb U X l t i v :
  aspace e k d Tb U (t :: X) l → 0 ≤ i < 1024 → tab (bytes k) d i = None →
  (∀ x, 0 ≤ x < 1024 → word (bytes k) t x = 0) → is_u32 v → present v = true → pte_page v = t →
  let k' := k <| bytes ::= store32 (d + 4 * i) v |> in
  aspace e k' d (t :: Tb) U X l ∧ tab (bytes k') d i = Some t ∧
  (∀ n, vpage n → ent (bytes k') d n = ent (bytes k) d n) ∧ same_but [d] (bytes k) (bytes k').
Proof.
  intros Ha Hi Hnone Hz Hv Hpv Hpg k'.
  pose proof (as_page _ _ _ _ _ _ _ d Ha ltac:(set_solver)) as Hpd.
  pose proof (as_nodup _ _ _ _ _ _ _ Ha) as Hnd.
  assert (Htd : t ≠ d) by (intros ->; apply NoDup_cons in Hnd; set_solver).
  assert (Hw : ∀ p x, page_ok e p → 0 ≤ x < 1024 →
    word (bytes k') p x = if decide (p = d ∧ x = i) then v else word (bytes k) p x).
  { intros p x Hp Hx. unfold k'. simpl. by apply (word_store e). }
  assert (Hti : tab (bytes k') d i = Some t) by (unfold tab; rewrite Hw, decide_True by done; by rewrite Hpv, Hpg).
  assert (Htj : ∀ j, 0 ≤ j < 1024 → j ≠ i → tab (bytes k') d j = tab (bytes k) d j).
  { intros j Hj Hne. unfold tab. rewrite Hw by done. rewrite decide_False; [done|]. intros [_ ?]; done. }
  assert (Hent : ∀ n, vpage n → ent (bytes k') d n = ent (bytes k) d n).
  { intros n Hn. destruct (vpage_index n Hn) as [Hi' Hx]. unfold ent.
    destruct (decide (n / 1024 = i)) as [->|Hne].
    - rewrite Hti, Hnone, Hw by (done || apply (as_page _ _ _ _ _ _ _ _ Ha); set_solver).
      rewrite decide_False by tauto. by apply Hz.
    - rewrite Htj by done. destruct (tab (bytes k) d (n / 1024)) as [t'|] eqn:E; [|done].
      destruct (as_tab _ _ _ _ _ _ _ _ _ Ha Hi' E) as [Hin Hne'].
      rewrite Hw by (done || apply (as_page _ _ _ _ _ _ _ _ Ha); set_solver). by rewrite decide_False by tauto. }
  assert (Hs : same_but [d] (bytes k) (bytes k')) by (by apply store_same_but).
  split_and!; try done. destruct Ha as [Hk He Hf Ht Hu _ Hp]. split; try done.
  - apply (freelist_same_but e k l [d] (bytes k')); try done; [by constructor|].
    intros p Hp'%list_elem_of_singleton. subst p. apply NoDup_cons in Hnd as [Hnd _]. set_solver.
  - rewrite (tabs_add (bytes k) (bytes k') d i t) by done. by rewrite Ht.
  - rewrite <-Hu. erewrite upages_ext; [done|]. intros n Hn. unfold upage.
    by rewrite Hent by (unfold vpage, NUSER in *; lia).
  - eapply NoDup_perm; [exact Hnd|]. solve_Permutation.
  - eapply Forall_perm; [exact Hp|]. solve_Permutation.
Qed.

(** A page in use is mapped for user page [n]. *)
Lemma aspace_map e k d Tb U X l n t p fl :
  aspace e k d Tb U (p :: X) l → 0 ≤ n < NUSER → tab (bytes k) d (n / 1024) = Some t →
  present (ent (bytes k) d n) = false → 0 ≤ fl < PGSIZE →
  aspace e (set_word k n t (mk_pte p fl)) d Tb (p :: U) X l.
Proof.
  intros Ha Hn Ht Hnp Hfl. assert (Hvn : vpage n) by (unfold vpage, NUSER in *; lia).
  pose proof (as_page _ _ _ _ _ _ _ p Ha ltac:(set_solver)) as Hp.
  destruct (mk_pte_ok e p fl (as_end _ _ _ _ _ _ _ Ha) Hp Hfl) as (Hpg & Hpr & Hu & _).
  pose proof (set_word_free _ _ _ _ _ _ _ _ (as_pdir _ _ _ _ _ _ _ Ha) Hvn Ht Hu) as Hfree.
  pose proof (set_word_tabs _ _ _ _ _ _ _ _ (as_pdir _ _ _ _ _ _ _ Ha) Hvn Ht Hu) as Htabs.
  destruct Ha as [Hk He Hf Htb Hus Hnd Hpp] eqn:Ea. clear Ea. split; try done.
  - by rewrite Htabs.
  - rewrite (upages_add (bytes k) (bytes (set_word k n t (mk_pte p fl))) d n p); [by rewrite Hus|done|..].
    + unfold upage. by rewrite Hnp.
    + unfold upage. rewrite (set_word_ent _ _ _ _ _ _ _ _ (as_pdir _ _ _ _ _ _ _ Ha) Hvn Ht Hu n Hvn), decide_True by done. by rewrite Hpr, Hpg.
    + intros j Hj Hne. apply (set_word_upage _ _ _ _ _ _ _ _ (as_pdir _ _ _ _ _ _ _ Ha) Hvn Ht Hu); [unfold vpage, NUSER in *; lia|done].
  - eapply NoDup_perm; [exact Hnd|]. solve_Permutation.
  - eapply Forall_perm; [exact Hpp|]. solve_Permutation.
Qed.

(** An entry of the kernel's half. *)
Lemma aspace_map_kernel e k d Tb U X l n t v :
  aspace e k d Tb U X l → NUSER ≤ n → vpage n → tab (bytes k) d (n / 1024) = Some t → is_u32 v →
  aspace e (set_word k n t v) d Tb U X l.
Proof.
  intros Ha Hn Hvn Ht Hu.
  pose proof (set_word_free _ _ _ _ _ _ _ _ (as_pdir _ _ _ _ _ _ _ Ha) Hvn Ht Hu) as Hfree.
  pose proof (set_word_tabs _ _ _ _ _ _ _ _ (as_pdir _ _ _ _ _ _ _ Ha) Hvn Ht Hu) as Htabs.
  destruct Ha as [Hk He Hf Htb Hus Hnd Hpp] eqn:Ea. clear Ea. split; try done.
  - by rewrite Htabs.
  - rewrite <-Hus. erewrite upages_ext; [done|]. intros j Hj.
    apply (set_word_upage _ _ _ _ _ _ _ _ (as_pdir _ _ _ _ _ _ _ Ha) Hvn Ht Hu); [unfold vpage, NUSER in *; lia|lia].
Qed.

(** User page [n] is given back and unmapped, in this order. *)
Lemma aspace_unmap e k d Tb U X l n t :
  aspace e k d Tb U X l → 0 ≤ n < NUSER → tab (bytes k) d (n / 1024) = Some t →
  present (ent (bytes k) d n) = true →
  let p := pte_page (ent (bytes k) d n) in
  let k' := set_word (kfreed p k) n t 0 in
  ∃ U', U ≡ₚ p :: U' ∧ aspace e k' d Tb U' X (p :: l) ∧
    (∀ n', vpage n' → ent (bytes k') d n' = if decide (n' = n) then 0 else ent (bytes k) d n') ∧
    same_but [t; p] (bytes k) (bytes k').
Proof.
  intros Ha Hn Ht Hpr p k'. assert (Hvn : vpage n) by (unfold vpage, NUSER in *; lia). assert (Hu : is_u32 0) by done.
  assert (HpU : p ∈ U).
  { rewrite <-(as_user _ _ _ _ _ _ _ Ha). apply (upage_in _ _ n); [done|]. unfold upage. by rewrite Hpr. }
  assert (Hp : page_ok e p) by (apply (as_page _ _ _ _ _ _ _ _ Ha); set_solver).
  pose proof (as_nodup _ _ _ _ _ _ _ Ha) as Hnd. set (k1 := kfreed p k) in *.
  assert (Hpn : p ∉ d :: Tb ++ X ++ l).
  { apply elem_of_Permutation in HpU as [U1 HU1]. rewrite HU1 in Hnd.
    assert (Hnd' : NoDup (p :: d :: Tb ++ U1 ++ X ++ l)) by (eapply NoDup_perm; [exact Hnd|solve_Permutation]).
    apply NoDup_cons in Hnd' as [Hnin _]. set_solver. }
  assert (Hs1 : same_but [p] (bytes k) (bytes k1)).
  { intros a Hna. apply kfreed_other. apply (Hna p). set_solver. }
  destruct (same_ents e k d Tb U X l [p] (bytes k1) Ha Hs1) as (Htab1 & Hent1 & Htabs1 & Hup1);
    [by constructor|intros q Hq%list_elem_of_singleton; set_solver|].
  assert (Hpd : pdir e k1 d Tb (p :: l)).
  { destruct (as_pdir _ _ _ _ _ _ _ Ha) as [Hk Hf Htb Hnd1 Hpp]. split; try done.
    - apply kfreed_ok; [done|by rewrite Hk|set_solver].
    - by rewrite Htabs1.
    - apply (NoDup_perm (p :: d :: Tb ++ l)); [|solve_Permutation]. apply NoDup_cons. split; [set_solver|done]. }
  assert (Ht1 : tab (bytes k1) d (n / 1024) = Some t) by (rewrite Htab1 by (by apply vpage_index); done).
  pose proof (set_word_ent _ _ _ _ _ _ _ _ Hpd Hvn Ht1 Hu) as Hent. fold k' in Hent.
  assert (Hadd : upages (bytes k) d ≡ₚ p :: upages (bytes k') d).
  { apply (upages_add _ _ d n p); [done|..].
    - unfold upage. by rewrite Hent, decide_True.
    - unfold upage. by rewrite Hpr.
    - intros j Hj Hne. assert (vpage j) by (unfold vpage, NUSER in *; lia). unfold upage.
      by rewrite Hent, decide_False, Hent1 by done. }
  exists (upages (bytes k') d). rewrite (as_user _ _ _ _ _ _ _ Ha) in Hadd. split_and!; [done| |..].
  - destruct Ha as [Hk He Hf Htb Hus _ Hpp]. split; try done.
    + apply (set_word_free _ _ _ _ _ _ _ _ Hpd Hvn Ht1 Hu).
    + unfold k'. rewrite (set_word_tabs _ _ _ _ _ _ _ _ Hpd Hvn Ht1 Hu). by rewrite Htabs1.
    + eapply NoDup_perm; [exact Hnd|]. rewrite Hadd. solve_Permutation.
    + rewrite Hadd in Hpp. rewrite !Forall_cons, !Forall_app, !Forall_cons in *. tauto.
  - intros n' Hn'. rewrite Hent by done. case_decide; [done|]. by apply Hent1.
  - eapply same_but_trans; [exact Hs1|apply (set_word_same _ _ _ _ _ _ _ _ Hpd Hvn Ht1 Hu)|set_solver|set_solver].
Qed.

(** ** Running the operations *)

#[local] Opaque acquire release.

(** The kernel with the memory [k]; [s0] has the rest. *)
Definition wth (s0 : kernel) (k : kmemst) : kernel := s0 <| kmem := k |>.

Section Run.
Context (s0 : kernel) (Hl0 : can_lock LkKmem s0).
#[local] Abbreviation at_ k := (wth s0 k).

Lemma rd32_run a k : rd32 a (at_ k) = Ok (load32 a (bytes k)) (at_ k).
Proof. done. Qed.

Lemma wr32_run a v k : wr32 a v (at_ k) = Ok tt (at_ (k <| bytes ::= store32 a v |>)).
Proof. done. Qed.

Lemma kmemset_run p c n k : kmemset p c n (at_ k) = Ok tt (at_ (k <| bytes ::= memset p c n |>)).
Proof. done. Qed.

Lemma kmemmove_run p q n k : kmemmove p q n (at_ k) = Ok tt (at_ (k <| bytes := memmove p q n (bytes k) |>)).
Proof. done. Qed.

Lemma kalloc_none k : freelist_ok k [] → kalloc (at_ k) = Ok 0 (at_ k).
Proof using Hl0.
  intros Hf. rewrite kalloc_eq by (intros _; exact Hl0). change (kmem (at_ k)) with k.
  rewrite (freelist_nil _ Hf). f_equal. unfold wth, modify. simpl. f_equal.
  unfold kalloced. by rewrite (freelist_nil _ Hf).
Qed.

(** [kalloc] of an address space: the page is in use but in no role yet. *)
Lemma kalloc_some e k d Tb U X p l :
  aspace e k d Tb U X (p :: l) →
  ∃ k', kalloc (at_ k) = Ok p (at_ k') ∧ aspace e k' d Tb U (p :: X) l ∧ bytes k' = bytes k ∧ p ≠ 0 ∧ page_ok e p.
Proof using Hl0.
  intros Ha. pose proof (as_page _ _ _ _ _ _ _ p Ha ltac:(set_solver)) as Hp.
  destruct Ha as [Hk He Hf Ht Hu Hnd Hpg]. destruct (kalloced_ok _ _ _ Hf) as [Hv Hf'].
  assert (Hb : bytes (kalloced k) = bytes k) by (unfold kalloced; by destruct (_ =? 0)).
  exists (kalloced k). split_and!; [|split|done|by eapply page_ok_nonzero|done].
  - rewrite kalloc_eq by (intros _; exact Hl0). change (kmem (at_ k)) with k. rewrite Hv. done.
  - unfold kalloced. by destruct (_ =? 0).
  - done.
  - done.
  - by rewrite Hb.
  - by rewrite Hb.
  - eapply NoDup_perm; [exact Hnd|]. solve_Permutation.
  - inversion_clear Hpg as [|? ? Hd Hr]. constructor; [done|]. rewrite !Forall_app in *. simpl.
    rewrite Forall_cons. tauto.
Qed.

(** [kfree] of a page that is in use and has no role. *)
Lemma kfree_run e k d Tb U X p l :
  aspace e k d Tb U (p :: X) l →
  ∃ k', kfree p (at_ k) = Ok tt (at_ k') ∧ aspace e k' d Tb U X (p :: l) ∧ same_but [p] (bytes k) (bytes k') ∧
    (∀ n, vpage n → ent (bytes k') d n = ent (bytes k) d n).
Proof using Hl0.
  intros Ha. pose proof (as_page _ _ _ _ _ _ _ p Ha ltac:(set_solver)) as Hp.
  pose proof (as_nodup _ _ _ _ _ _ _ Ha) as Hnd.
  assert (Hs : same_but [p] (bytes k) (bytes (kfreed p k))).
  { intros a Hna. apply kfreed_other. apply (Hna p). set_solver. }
  assert (Hpn : p ∉ d :: Tb ++ U ++ X ++ l).
  { assert (Hnd' : NoDup (p :: d :: Tb ++ U ++ X ++ l)) by (eapply NoDup_perm; [exact Hnd|solve_Permutation]).
    by apply NoDup_cons in Hnd' as [? _]. }
  destruct (same_ents e k d Tb U (p :: X) l [p] (bytes (kfreed p k)) Ha Hs) as (H1 & H2 & H3 & H4);
    [by constructor|intros q Hq%list_elem_of_singleton; set_solver|].
  exists (kfreed p k). split; [|split; [|done]].
  - rewrite kfree_eq; [|intros _; exact Hl0|by eapply page_ok_u32|].
    + change (kmem (at_ k)) with k. rewrite (as_kend _ _ _ _ _ _ _ Ha). by rewrite decide_True.
    + change (kmem (at_ k)) with k. rewrite (as_kend _ _ _ _ _ _ _ Ha). apply Ha.
  - destruct Ha as [Hk He Hf Ht Hu _ Hpp]. split; try done.
    + apply kfreed_ok; [done|by rewrite Hk|set_solver].
    + by rewrite H3.
    + by rewrite H4.
    + eapply NoDup_perm; [exact Hnd|]. solve_Permutation.
    + rewrite !Forall_cons, !Forall_app, Forall_cons in Hpp. rewrite Forall_cons, !Forall_app. tauto.
Qed.

(** [walkpgdir] without allocation. *)
Lemma walk_run k d n o :
  vpage n → 0 ≤ o < PGSIZE →
  walkpgdir d (PGSIZE * n + o) false (at_ k) =
  Ok (match tab (bytes k) d (n / 1024) with Some t => t + 4 * (n mod 1024) | None => 0 end) (at_ k).
Proof.
  intros Hn Ho. unfold walkpgdir. rewrite PDX_page, PTX_page by done.
  rewrite (bind_ok _ _ _ _ _ (rd32_run _ _)). fold (word (bytes k) d (n / 1024)).
  unfold tab, present, pte_page. by destruct (is_set _ _).
Qed.

(** [walkpgdir] with allocation: the table is there, or a free page becomes it,
    or no page is free.  The entries do not change. *)
Lemma walk_alloc_run e k d Tb U X l n :
  aspace e k d Tb U X l → vpage n →
  (l = [] ∧ walkpgdir d (PGSIZE * n) true (at_ k) = Ok 0 (at_ k)) ∨
  ∃ t k' N l', walkpgdir d (PGSIZE * n) true (at_ k) = Ok (t + 4 * (n mod 1024)) (at_ k') ∧
    l = N ++ l' ∧ aspace e k' d (N ++ Tb) U X l' ∧ tab (bytes k') d (n / 1024) = Some t ∧
    (∀ n', vpage n' → ent (bytes k') d n' = ent (bytes k) d n') ∧ same_but (d :: N) (bytes k) (bytes k').
Proof using Hl0.
  intros Ha Hn. destruct (vpage_index n Hn) as [Hi Hx]. unfold walkpgdir.
  replace (PGSIZE * n) with (PGSIZE * n + 0) by lia. rewrite PDX_page, PTX_page by (done || by split).
  rewrite (bind_ok _ _ _ _ _ (rd32_run _ _)). fold (word (bytes k) d (n / 1024)).
  fold (present (word (bytes k) d (n / 1024))). destruct (present (word (bytes k) d (n / 1024))) eqn:Hpr.
  { right. exists (pte_page (word (bytes k) d (n / 1024))), k, [], l. unfold tab. rewrite Hpr.
    split_and!; try done. }
  cbn [negb]. destruct l as [|t l].
  { left. split; [done|]. by rewrite (bind_ok _ _ _ _ _ (kalloc_none k (as_free _ _ _ _ _ _ _ Ha))). }
  right. destruct (kalloc_some e k d Tb U X t l Ha) as (k1 & Hr1 & Ha1 & Hb1 & Ht0 & Hpt).
  rewrite (bind_ok _ _ _ _ _ Hr1), (proj2 (Z.eqb_neq _ _) Ht0), (bind_ok _ _ _ _ _ (kmemset_run _ _ _ _)).
  destruct (aspace_write e k1 d Tb U (t :: X) l [t] (memset t 0 PGSIZE (bytes k1)) Ha1) as [Ha2 Hent2];
    [apply memset_same_but|set_solver|]. change (k1 <| bytes ::= _ |>) with (k1 <| bytes := memset t 0 PGSIZE (bytes k1) |>).
  set (k2 := k1 <| bytes := memset t 0 PGSIZE (bytes k1) |>) in *.
  rewrite (bind_ok _ _ _ _ _ (wr32_run _ _ _)).
  assert (Hv : Z.lor (Z.lor (Z.lor (V2P t) PTE_P) PTE_W) PTE_U = mk_pte t 6).
  { unfold mk_pte. rewrite <-!Z.lor_assoc. done. }
  rewrite Hv. destruct (mk_pte_ok e t 6 (as_end _ _ _ _ _ _ _ Ha) Hpt ltac:(done)) as (Hpg & Hp' & Hu & _).
  assert (Htd : t ≠ d) by (intros ->; pose proof (as_nodup _ _ _ _ _ _ _ Ha) as Hnd; apply NoDup_cons in Hnd; set_solver).
  assert (Hw2 : word (bytes k2) d (n / 1024) = word (bytes k) d (n / 1024)).
  { rewrite <-Hb1. eapply (same_word e [t]); [apply memset_same_but|by constructor|
      apply (as_page _ _ _ _ _ _ _ _ Ha); set_solver|set_solver|done]. }
  destruct (aspace_table e k2 d Tb U X l t (n / 1024) (mk_pte t 6)) as (Ha3 & Ht3 & He3 & Hs3); try done.
  { unfold tab. by rewrite Hw2, Hpr. }
  { intros x Hx'. by apply word_memset. }
  eexists t, _, [t], l. split; [reflexivity|]. split_and!; try done.
  - intros n' Hn'. rewrite He3, Hent2 by done. by rewrite Hb1.
  - eapply same_but_trans; [|exact Hs3|set_solver|set_solver]. rewrite <-Hb1. apply (same_but_mono [t]); [|set_solver].
    apply memset_same_but.
Qed.

(** *** mappages *)

(** One turn of the loop. *)
Lemma map_turn e k d Tb U X l n v (K : KM Z) :
  aspace e k d Tb U X l → vpage n → present (ent (bytes k) d n) = false →
  let turn :=
    pte ← walkpgdir d (PGSIZE * n) true;
    if pte =? 0 then ret (-1)
    else
      e ← rd32 pte;
      if is_set e PTE_P then panic "remap" else wr32 pte v ;; K in
  (l = [] ∧ turn (at_ k) = Ok (-1) (at_ k)) ∨
  ∃ t k1 N l', turn (at_ k) = K (at_ (set_word k1 n t v)) ∧ l = N ++ l' ∧ aspace e k1 d (N ++ Tb) U X l' ∧
    tab (bytes k1) d (n / 1024) = Some t ∧
    (∀ n', vpage n' → ent (bytes k1) d n' = ent (bytes k) d n') ∧ same_but (d :: N) (bytes k) (bytes k1).
Proof using Hl0.
  intros Ha Hn Hnp turn. destruct (vpage_index n Hn) as [Hi Hx]. unfold turn.
  destruct (walk_alloc_run e k d Tb U X l n Ha Hn) as [[-> Hw]|(t & k1 & N & l' & Hw & Hl & Ha1 & Ht & He & Hs)].
  { left. by rewrite (bind_ok _ _ _ _ _ Hw). }
  right. exists t, k1, N, l'. split; [|done]. rewrite (bind_ok _ _ _ _ _ Hw).
  destruct (as_tab _ _ _ _ _ _ _ _ _ Ha1 Hi Ht) as [Hin _].
  assert (Hpt : page_ok e t) by (apply (as_page _ _ _ _ _ _ _ _ Ha1); set_solver).
  rewrite (proj2 (Z.eqb_neq _ 0)) by (destruct Hpt as (_ & _ & Hpt); unfold KERNBASE in Hpt; lia).
  rewrite (bind_ok _ _ _ _ _ (rd32_run _ _)).
  assert (Hent : load32 (t + 4 * (n mod 1024)) (bytes k1) = ent (bytes k) d n).
  { rewrite <-He by done. unfold ent. by rewrite Ht. }
  rewrite Hent. unfold present in Hnp. rewrite Hnp. by rewrite (bind_ok _ _ _ _ _ (wr32_run _ _ _)).
Qed.

Lemma PGROUNDDOWN_page n o : vpage n → 0 ≤ o < PGSIZE → PGROUNDDOWN (PGSIZE * n + o) = PGSIZE * n.
Proof.
  intros Hn Ho. unfold vpage, PGSIZE in *. rewrite PGROUNDDOWN_eq by (unfold is_u32; lia).
  unfold PGSIZE. Z.div_mod_to_equations. lia.
Qed.

(** Mapping one user page. *)
Lemma map_user_run e k d Tb U X p l n fl :
  aspace e k d Tb U (p :: X) l → 0 ≤ n < NUSER → present (ent (bytes k) d n) = false → 0 ≤ fl < PGSIZE →
  (l = [] ∧ mappages d (PGSIZE * n) PGSIZE (V2P p) fl (at_ k) = Ok (-1) (at_ k)) ∨
  ∃ k' N l', mappages d (PGSIZE * n) PGSIZE (V2P p) fl (at_ k) = Ok 0 (at_ k') ∧ l = N ++ l' ∧
    aspace e k' d (N ++ Tb) (p :: U) X l' ∧
    (∀ n', vpage n' → ent (bytes k') d n' = if decide (n' = n) then mk_pte p fl else ent (bytes k) d n') ∧
    same_but (d :: N ++ Tb) (bytes k) (bytes k').
Proof using Hl0.
  intros Ha Hn Hnp Hfl. assert (Hvn : vpage n) by (unfold vpage, NUSER in *; lia). unfold mappages.
  assert (H1 : PGROUNDDOWN (PGSIZE * n) = PGSIZE * n).
  { rewrite <-(Z.add_0_r (PGSIZE * n)) at 1. apply PGROUNDDOWN_page; [done|by split]. }
  assert (H2 : PGROUNDDOWN (u32 (PGSIZE * n + PGSIZE - 1)) = PGSIZE * n).
  { rewrite u32_small by (unfold is_u32, vpage, PGSIZE in *; lia). rewrite <-Z.add_sub_assoc.
    apply PGROUNDDOWN_page; [done|unfold PGSIZE; lia]. }
  rewrite H1, H2, Z.sub_diag. change (Z.to_nat (u32 0 / PGSIZE)) with 0%nat. cbn [mappages_loop].
  destruct (map_turn e k d Tb U (p :: X) l n (mk_pte p fl) (ret 0) Ha Hvn Hnp)
    as [[-> Hr]|(t & k1 & N & l' & Hr & Hl & Ha1 & Ht & He & Hs)]; [by left|right].
  exists (set_word k1 n t (mk_pte p fl)), N, l'. split; [exact Hr|]. split; [done|].
  assert (Hp : page_ok e p) by (apply (as_page _ _ _ _ _ _ _ _ Ha); set_solver).
  destruct (mk_pte_ok e p fl (as_end _ _ _ _ _ _ _ Ha) Hp Hfl) as (_ & _ & Hu & _).
  split_and!.
  - apply aspace_map; try done. by rewrite He.
  - intros n' Hn'. rewrite (set_word_ent _ _ _ _ _ _ _ _ (as_pdir _ _ _ _ _ _ _ Ha1) Hvn Ht Hu n' Hn'). by case_decide; [|apply He].
  - destruct (vpage_index n Hvn) as [Hi _]. destruct (as_tab _ _ _ _ _ _ _ _ _ Ha1 Hi Ht) as [Hin _].
    eapply same_but_trans; [exact Hs|apply (set_word_same _ _ _ _ _ _ _ _ (as_pdir _ _ _ _ _ _ _ Ha1) Hvn Ht Hu)|set_solver|set_solver].
Qed.

(** Mapping a range of the kernel's half. *)
Lemma map_range_run e d U X perm c : ∀ k Tb l n pa,
  aspace e k d Tb U X l → NUSER ≤ n → n + Z.of_nat c < 2 ^ 20 →
  (∀ n', n ≤ n' ≤ n + Z.of_nat c → present (ent (bytes k) d n') = false) →
  0 ≤ perm < PGSIZE → 0 ≤ pa → pa mod PGSIZE = 0 → pa + PGSIZE * Z.of_nat c < 2 ^ 32 →
  ∃ r k' N l', mappages_loop c d (PGSIZE * n) pa perm (at_ k) = Ok r (at_ k') ∧ l = N ++ l' ∧
    aspace e k' d (N ++ Tb) U X l' ∧ same_but (d :: N ++ Tb) (bytes k) (bytes k') ∧
    (r = -1 ∧ l' = [] ∨ r = 0 ∧ ∀ n', vpage n' → ent (bytes k') d n' =
       if decide (n ≤ n' ≤ n + Z.of_nat c) then Z.lor (Z.lor (pa + PGSIZE * (n' - n)) perm) PTE_P
       else ent (bytes k) d n').
Proof using Hl0.
  induction c as [|c IH]; intros k Tb l n pa Ha Hn Hc Hnp Hperm Hpa Hal Hmax.
  all: assert (Hvn : vpage n) by (unfold vpage, NUSER in *; lia).
  all: assert (Hu : is_u32 (Z.lor (Z.lor pa perm) PTE_P)).
  1, 3: rewrite <-Z.lor_assoc; apply (pte_bits pa); [unfold is_u32, PGSIZE in *; lia|done|by apply lor_P_range].
  - cbn [mappages_loop].
    destruct (map_turn e k d Tb U X l n (Z.lor (Z.lor pa perm) PTE_P) (ret 0) Ha Hvn ltac:(apply Hnp; lia))
      as [[-> Hr]|(t & k1 & N & l' & Hr & Hl & Ha1 & Ht & He & Hs)].
    { exists (-1), k, [], []. split_and!; try done. by left. }
    destruct (vpage_index n Hvn) as [Hi _]. destruct (as_tab _ _ _ _ _ _ _ _ _ Ha1 Hi Ht) as [Hin _].
    eexists 0, _, N, l'. split; [exact Hr|]. split_and!; [done|by apply aspace_map_kernel|..].
    + eapply same_but_trans; [exact Hs|apply (set_word_same _ _ _ _ _ _ _ _ (as_pdir _ _ _ _ _ _ _ Ha1) Hvn Ht Hu)|set_solver|set_solver].
    + right. split; [done|]. intros n' Hn'. rewrite (set_word_ent _ _ _ _ _ _ _ _ (as_pdir _ _ _ _ _ _ _ Ha1) Hvn Ht Hu n' Hn').
      repeat case_decide; try lia; [by subst; rewrite Z.sub_diag, Z.mul_0_r, Z.add_0_r|by apply He].
  - cbn [mappages_loop].
    destruct (map_turn e k d Tb U X l n (Z.lor (Z.lor pa perm) PTE_P)
                (mappages_loop c d (u32 (PGSIZE * n + PGSIZE)) (u32 (pa + PGSIZE)) perm) Ha Hvn ltac:(apply Hnp; lia))
      as [[-> Hr]|(t & k1 & N & l' & Hr & Hl & Ha1 & Ht & He & Hs)].
    { exists (-1), k, [], []. split_and!; try done. by left. }
    destruct (vpage_index n Hvn) as [Hi _]. destruct (as_tab _ _ _ _ _ _ _ _ _ Ha1 Hi Ht) as [Hin _].
    pose proof (set_word_ent _ _ _ _ _ _ _ _ (as_pdir _ _ _ _ _ _ _ Ha1) Hvn Ht Hu) as Hent.
    pose proof (aspace_map_kernel _ _ _ _ _ _ _ _ _ _ Ha1 Hn Hvn Ht Hu) as Ha2.
    set (k2 := set_word k1 n t (Z.lor (Z.lor pa perm) PTE_P)) in *.
    destruct (IH k2 (N ++ Tb) l' (n + 1) (pa + PGSIZE)) as (r & k' & N' & l'' & Hr' & Hl' & Ha' & Hs' & Hcase);
      try done; [lia|lia| |unfold PGSIZE in *; lia|unfold PGSIZE in *; Z.div_mod_to_equations; lia|lia|].
    { intros n' Hn'. rewrite Hent by (unfold vpage, NUSER in *; lia). rewrite decide_False by lia.
      rewrite He by (unfold vpage, NUSER in *; lia). apply Hnp. lia. }
    exists r, k', (N ++ N'), l''. split_and!.
    + rewrite Hr. rewrite u32_small by (unfold is_u32, NUSER, PGSIZE in *; lia).
      rewrite u32_small by (unfold is_u32, PGSIZE in *; lia).
      by replace (PGSIZE * n + PGSIZE) with (PGSIZE * (n + 1)) by lia.
    + by rewrite Hl, Hl', app_assoc.
    + eapply aspace_perm; [exact Ha'|solve_Permutation|done|done].
    + eapply same_but_trans; [|exact Hs'|..].
      * eapply (same_but_trans (d :: N ++ Tb)); [exact Hs|apply (set_word_same _ _ _ _ _ _ _ _ (as_pdir _ _ _ _ _ _ _ Ha1) Hvn Ht Hu)|..];
          set_solver.
      * set_solver.
      * set_solver.
    + destruct Hcase as [[-> ->]|[-> Hcase]]; [by left|right]. split; [done|]. intros n' Hn'. rewrite Hcase by done.
      repeat case_decide; try lia; [do 2 f_equal; unfold PGSIZE; lia|..].
      * rewrite Hent, decide_True by (done || lia). do 2 f_equal. unfold PGSIZE. lia.
      * rewrite Hent, decide_False by (done || lia). by apply He.
Qed.

(** *** deallocuvm *)

Lemma next_dir n :
  0 ≤ n < NUSER →
  u32 (u32 (PGADDR (n / 1024 + 1) 0 0 - PGSIZE) + PGSIZE) = PGSIZE * (1024 * (n / 1024 + 1)).
Proof.
  intros Hn. unfold PGADDR. rewrite Z.shiftl_0_l, !Z.lor_0_r, Z.shiftl_mul_pow2 by lia.
  change (2 ^ 22) with 4194304. unfold NUSER in Hn. change (2 ^ 19) with 524288 in Hn.
  assert (0 ≤ n / 1024 < 512) by (Z.div_mod_to_equations; lia).
  assert (Hi : ∀ x, 0 ≤ x < 4294967296 → u32 x = x) by (intros x Hx; by apply u32_small).
  unfold PGSIZE. rewrite (Hi ((n / 1024 + 1) * 4194304)) by lia. rewrite (Hi (_ - 4096)) by lia. rewrite Hi; lia.
Qed.

(** The entries of a missing table. *)
Lemma no_table m d n n' :
  tab m d (n / 1024) = None → n ≤ n' < 1024 * (n / 1024 + 1) → ent m d n' = 0.
Proof.
  intros Ht Hn. unfold ent. replace (n' / 1024) with (n / 1024) by (Z.div_mod_to_equations; lia). by rewrite Ht.
Qed.

Definition unmapped (m m' : memory) (d n sz : Z) : Prop :=
  ∀ n', vpage n' → ent m' d n' = if decide (n ≤ n' ∧ PGSIZE * n' < sz ∧ present (ent m d n') = true) then 0
                                 else ent m d n'.

Lemma unmapped_next m m1 m' d n n1 sz :
  n ≤ n1 → (∀ n', vpage n' → n ≤ n' < n1 → PGSIZE * n' < sz → present (ent m d n') = true → ent m1 d n' = 0) →
  (∀ n', vpage n' → (n' < n ∨ n1 ≤ n' ∨ present (ent m d n') = false) → ent m1 d n' = ent m d n') →
  (∀ n', n ≤ n' < n1 → PGSIZE * n' < sz) →
  unmapped m1 m' d n1 sz → unmapped m m' d n sz.
Proof.
  intros Hle H0 Hsame Hlt Hu n' Hn'. rewrite Hu by done.
  destruct (decide (n ≤ n' < n1)) as [Hin|Hout].
  - rewrite decide_False by lia. destruct (present (ent m d n')) eqn:Hp.
    + rewrite decide_True by (split_and!; [lia|by apply Hlt|done]). by apply H0; [|..|apply Hlt|].
    + rewrite decide_False by (intros (_ & _ & ?); done). by apply Hsame; [|right; right].
  - rewrite Hsame by (done || lia). repeat case_decide; try done; (exfalso; naive_solver lia).
Qed.

Lemma dealloc_run e d Tb X sz fuel : ∀ k U l n,
  aspace e k d Tb U X l → 0 ≤ n → sz ≤ KERNBASE → (0 < fuel)%nat → (sz - PGSIZE * n) / PGSIZE + 1 < Z.of_nat fuel →
  ∃ k' U' F, deallocuvm_loop fuel d (PGSIZE * n) sz (at_ k) = Ok tt (at_ k') ∧ U ≡ₚ F ++ U' ∧
    aspace e k' d Tb U' X (F ++ l) ∧ unmapped (bytes k) (bytes k') d n sz ∧ same_but (Tb ++ F) (bytes k) (bytes k').
Proof using Hl0.
  induction fuel as [|fuel IH]; [lia|]. intros k U l n Ha Hn Hsz _ Hf. cbn [deallocuvm_loop].
  destruct (Z.ltb_spec (PGSIZE * n) sz) as [Hlt|Hge].
  2: { exists k, U, []. split_and!; try done. intros n' Hn'. rewrite decide_False; [done|].
       intros (? & ? & _). unfold PGSIZE in *. lia. }
  assert (Hnu : 0 ≤ n < NUSER) by (unfold NUSER, KERNBASE, PGSIZE in *; lia).
  assert (Hvn : vpage n) by (unfold vpage, NUSER in *; lia).
  assert (Hfuel : ∀ n1, n + 1 ≤ n1 → (0 < fuel)%nat ∧ (sz - PGSIZE * n1) / PGSIZE + 1 < Z.of_nat fuel).
  { intros n1 Hn1. unfold PGSIZE in *. split; Z.div_mod_to_equations; lia. }
  destruct (Hfuel (n + 1)) as [Hf1 Hf2]; [lia|].
  pose proof (walk_run k d n 0 Hvn ltac:(done)) as Hw. rewrite Z.add_0_r in Hw. rewrite (bind_ok _ _ _ _ _ Hw).
  assert (Hpdx : PDX (PGSIZE * n) = n / 1024) by (rewrite <-(Z.add_0_r (PGSIZE * n)); by apply PDX_page).
  destruct (tab (bytes k) d (n / 1024)) as [t|] eqn:Ht.
  - destruct (vpage_index n Hvn) as [Hi _]. destruct (as_tab _ _ _ _ _ _ _ _ _ Ha Hi Ht) as [Hin _].
    assert (Hpt : page_ok e t) by (apply (as_page _ _ _ _ _ _ _ _ Ha); set_solver).
    rewrite (proj2 (Z.eqb_neq _ 0)) by (destruct Hpt as (_ & _ & Hpt); unfold KERNBASE in Hpt; Z.div_mod_to_equations; lia).
    rewrite (bind_ok _ _ _ _ _ (rd32_run _ _)).
    assert (Hent : load32 (t + 4 * (n mod 1024)) (bytes k) = ent (bytes k) d n) by (unfold ent; by rewrite Ht).
    rewrite Hent. fold (present (ent (bytes k) d n)).
    rewrite u32_small by (unfold is_u32, PGSIZE, NUSER in *; lia).
    replace (PGSIZE * n + PGSIZE) with (PGSIZE * (n + 1)) by lia.
    destruct (present (ent (bytes k) d n)) eqn:Hpr.
    + destruct (aspace_unmap e k d Tb U X l n t Ha Hnu Ht Hpr) as (U1 & HU1 & Ha1 & He1 & Hs1).
      set (p := pte_page (ent (bytes k) d n)) in *. set (k1 := set_word (kfreed p k) n t 0) in *.
      assert (Hp : page_ok e p) by (apply (as_page _ _ _ _ _ _ _ _ Ha1); set_solver).
      assert (Hpa : PTE_ADDR (ent (bytes k) d n) ≠ 0).
      { intros H0. unfold p, pte_page in Hp. rewrite H0 in Hp. pose proof (as_end _ _ _ _ _ _ _ Ha) as He.
        destruct Hp as (_ & Hp & _). change (P2V 0) with KERNBASE in Hp. unfold kend_ok in He. lia. }
      rewrite (proj2 (Z.eqb_neq _ 0) Hpa). fold (pte_page (ent (bytes k) d n)). fold p.
      assert (Hkf : kfree p (at_ k) = Ok tt (at_ (kfreed p k))).
      { rewrite kfree_eq; [|intros _; exact Hl0|by eapply page_ok_u32|];
          change (kmem (at_ k)) with k; rewrite (as_kend _ _ _ _ _ _ _ Ha); [by rewrite decide_True|apply Ha]. }
      rewrite (bind_ok _ _ _ _ _ Hkf), (bind_ok _ _ _ _ _ (wr32_run _ _ _)). fold (set_word (kfreed p k) n t 0). fold k1.
      destruct (IH k1 U1 (p :: l) (n + 1) Ha1) as (k' & U' & F & Hr & HU & Ha' & Hun & Hs); try done; [lia|].
      exists k', U', (F ++ [p]). split_and!.
      * done.
      * rewrite HU1, HU. solve_Permutation.
      * by rewrite <-app_assoc.
      * eapply (unmapped_next _ (bytes k1)); [|..|exact Hun]; [lia|..].
        -- intros n' Hn' Hin' _ _. rewrite He1, decide_True by (done || lia). done.
        -- intros n' Hn' Hc. rewrite He1 by done. case_decide; [|done]. subst n'. destruct Hc as [|[|]]; [lia|lia|congruence].
        -- intros n' Hn'. by assert (n' = n) as -> by lia.
      * eapply same_but_trans; [exact Hs1|exact Hs|set_solver|set_solver].
    + destruct (IH k U l (n + 1)) as (k' & U' & F & Hr & HU & Ha' & Hun & Hs); try done; [lia|].
      exists k', U', F. split_and!; try done. eapply (unmapped_next _ (bytes k)); [|..|exact Hun]; [lia|..].
      * intros n' Hn' Hin' _ Hp'. assert (n' = n) as -> by lia. congruence.
      * done.
      * intros n' Hn'. by assert (n' = n) as -> by lia.
  - rewrite Z.eqb_refl, Hpdx, next_dir by done.
    destruct (Hfuel (1024 * (n / 1024 + 1))) as [Hf3 Hf4]; [Z.div_mod_to_equations; lia|].
    destruct (IH k U l (1024 * (n / 1024 + 1))) as (k' & U' & F & Hr & HU & Ha' & Hun & Hs); try done;
      [Z.div_mod_to_equations; lia|].
    exists k', U', F. split_and!; try done. intros n' Hn'. rewrite Hun by done.
    destruct (decide (n ≤ n' < 1024 * (n / 1024 + 1))) as [Hr'|Hr'].
    + rewrite (no_table _ _ n n') by done. by repeat case_decide.
    + assert (Hiff : 1024 * (n / 1024 + 1) ≤ n' ↔ n ≤ n') by (Z.div_mod_to_equations; lia).
      destruct (decide (1024 * _ ≤ n' ∧ _)) as [Hc|Hc], (decide (n ≤ n' ∧ _)) as [Hc'|Hc']; tauto.
Qed.

(** *** freevm *)

Lemma kfree_raw e k p l :
  kend k = e → kend_ok e → freelist_ok k l → page_ok e p → p ∉ l →
  kfree p (at_ k) = Ok tt (at_ (kfreed p k)) ∧ freelist_ok (kfreed p k) (p :: l) ∧
  same_but [p] (bytes k) (bytes (kfreed p k)).
Proof using Hl0.
  intros Hk He Hf Hp Hin. split_and!.
  - rewrite kfree_eq; [|intros _; exact Hl0|by eapply page_ok_u32|]; change (kmem (at_ k)) with k; rewrite Hk;
      [by rewrite decide_True|done].
  - apply kfreed_ok; [done|by rewrite Hk|done].
  - intros a Hna. apply kfreed_other. apply (Hna p). set_solver.
Qed.

Lemma free_tables e d m0 js : ∀ k l,
  kend k = e → kend_ok e → freelist_ok k l →
  NoDup (d :: omap (λ j, tab m0 d (Z.of_nat j)) js ++ l) →
  Forall (page_ok e) (d :: omap (λ j, tab m0 d (Z.of_nat j)) js) →
  (∀ j, j ∈ js → 0 ≤ Z.of_nat j < 1024 ∧ word (bytes k) d (Z.of_nat j) = word m0 d (Z.of_nat j)) →
  ∃ k' F, for_each js (λ i,
      e ← rd32 (d + 4 * Z.of_nat i);
      if is_set e PTE_P then kfree (P2V (PTE_ADDR e)) else ret tt) (at_ k) = Ok tt (at_ k') ∧
    F ≡ₚ omap (λ j, tab m0 d (Z.of_nat j)) js ∧ kend k' = e ∧ freelist_ok k' (F ++ l) ∧
    same_but F (bytes k) (bytes k').
Proof using Hl0.
  induction js as [|j js IH]; intros k l Hk He Hf Hnd Hp Hw.
  { exists k, []. by split_and!. }
  cbn [for_each]. destruct (Hw j (list_elem_of_here _ _)) as [Hj Hwj].
  unfold bind at 1. rewrite (bind_ok _ _ _ _ _ (rd32_run _ _)). fold (word (bytes k) d (Z.of_nat j)). rewrite Hwj.
  csimpl in Hnd. csimpl in Hp. csimpl. unfold tab at 1 in Hnd. unfold tab at 1 in Hp. unfold tab at 1.
  fold (present (word m0 d (Z.of_nat j))). fold (pte_page (word m0 d (Z.of_nat j))).
  destruct (present (word m0 d (Z.of_nat j))).
  - set (p := pte_page (word m0 d (Z.of_nat j))) in *. simpl in Hnd, Hp.
    rewrite !Forall_cons in Hp. destruct Hp as (Hpd & Hpp & Hpr).
    assert (Hnd' : NoDup (p :: d :: omap (λ j, tab m0 d (Z.of_nat j)) js ++ l)) by (eapply NoDup_perm; [exact Hnd|solve_Permutation]).
    apply NoDup_cons in Hnd' as [Hpn Hnd'].
    destruct (kfree_raw e k p l) as (Hr & Hf1 & Hs1); try done; [set_solver|]. rewrite Hr.
    destruct (IH (kfreed p k) (p :: l)) as (k' & F & Hr' & HF & Hk' & Hf' & Hs'); try done.
    + apply (NoDup_perm (p :: d :: omap (λ j, tab m0 d (Z.of_nat j)) js ++ l)); [by apply NoDup_cons|solve_Permutation].
    + by constructor.
    + intros j' Hj'. destruct (Hw j') as [Hr1 Hw1]; [set_solver|]. split; [done|].
      rewrite <-Hw1. eapply (same_word e [p]); [done|by constructor|done|set_solver|done].
    + exists k', (F ++ [p]). split_and!; [done|rewrite HF; solve_Permutation|done|by rewrite <-app_assoc|].
      eapply same_but_trans; [exact Hs1|exact Hs'|set_solver|set_solver].
  - simpl. destruct (IH k l) as (k' & F & Hr' & HF & Hk' & Hf' & Hs'); try done; [|by exists k', F].
    intros j' Hj'. apply Hw. set_solver.
Qed.

Lemma freevm_run e k d Tb U X l :
  aspace e k d Tb U X l →
  ∃ k' F, freevm d (at_ k) = Ok tt (at_ k') ∧ F ≡ₚ d :: Tb ++ U ∧ kend k' = e ∧ freelist_ok k' (F ++ l) ∧
    same_but F (bytes k) (bytes k').
Proof using Hl0.
  intros Ha. pose proof (as_page _ _ _ _ _ _ _ d Ha ltac:(set_solver)) as Hpd. unfold freevm.
  rewrite (proj2 (Z.eqb_neq d 0)) by (by eapply page_ok_nonzero).
  unfold deallocuvm. change (KERNBASE <=? 0) with false. cbv iota. change (PGROUNDUP 0) with (PGSIZE * 0).
  destruct (dealloc_run e d Tb X KERNBASE (S (Z.to_nat ((KERNBASE - PGSIZE * 0) / PGSIZE + 1))) k U l 0 Ha)
    as (k1 & U1 & F1 & Hr1 & HU1 & Ha1 & Hun & Hs1); [lia|lia|lia|unfold KERNBASE, PGSIZE; lia|].
  rewrite (bind_assoc (deallocuvm_loop _ _ _ _)). rewrite (bind_ok _ _ _ _ _ Hr1).
  rewrite (bind_ok (ret 0) _ _ _ _ eq_refl).
  assert (HU0 : U1 = []).
  { apply Permutation_nil_r. rewrite <-(as_user _ _ _ _ _ _ _ Ha1). rewrite upages_none; [done|].
    intros n Hn. assert (vpage n) by (unfold vpage, NUSER in *; lia). unfold upage. rewrite Hun by done.
    destruct (present (ent (bytes k) d n)) eqn:Hp.
    - rewrite decide_True; [done|]. unfold KERNBASE, PGSIZE, NUSER in *. split_and!; [lia|lia|done].
    - by rewrite decide_False, Hp by (intros (_ & _ & ?); done). }
  subst U1. pose proof (as_pdir _ _ _ _ _ _ _ Ha1) as Hpdr.
  destruct (free_tables e d (bytes k1) (seq 0 NPDENTRIES) k1 (F1 ++ l)) as (k2 & F2 & Hr2 & HF2 & Hk2 & Hf2 & Hs2).
  - apply Hpdr.
  - apply Ha.
  - apply Hpdr.
  - rewrite <-tabs_seq. pose proof (pd_nodup _ _ _ _ _ Hpdr) as Hnd. eapply NoDup_perm; [exact Hnd|].
    by rewrite (pd_tabs _ _ _ _ _ Hpdr).
  - rewrite <-tabs_seq. eapply Forall_perm; [apply Hpdr|]. by rewrite (pd_tabs _ _ _ _ _ Hpdr).
  - intros j Hj. apply elem_of_seq in Hj. unfold NPDENTRIES in Hj. split; [lia|done].
  - rewrite (bind_ok _ _ _ _ _ Hr2). rewrite <-tabs_seq, (pd_tabs _ _ _ _ _ Hpdr) in HF2.
    assert (Hdn : d ∉ F2 ++ F1 ++ l).
    { rewrite HF2. pose proof (pd_nodup _ _ _ _ _ Hpdr) as Hnd. by apply NoDup_cons in Hnd as [? _]. }
    destruct (kfree_raw e k2 d (F2 ++ F1 ++ l)) as (Hr3 & Hf3 & Hs3); try done; [apply Ha|].
    exists (kfreed d k2), (d :: F2 ++ F1). split_and!; try done.
    + rewrite HF2, HU1, app_nil_r. done.
    + by rewrite <-app_comm_cons, <-app_assoc.
    + assert (HT2 : Tb ⊆ F2) by (intros p Hp; by rewrite HF2).
      assert (Hs12 : same_but (F2 ++ F1) (bytes k) (bytes k2)).
      { eapply same_but_trans; [exact Hs1|exact Hs2|clear -HT2; set_solver|clear; set_solver]. }
      eapply same_but_trans; [exact Hs12|exact Hs3|clear; set_solver|clear; set_solver].
Qed.

(** *** setupkvm *)

(** A range of [kmap] as pages: [virt] is page [n] and there are [c + 1]. *)
Definition krange (k : kmap_entry) (n : Z) (c : nat) : Prop :=
  virt k = PGSIZE * n ∧ u32 (phys_end k - phys_start k) = PGSIZE * (Z.of_nat c + 1) ∧
  NUSER ≤ n ∧ n + Z.of_nat c < 2 ^ 20 ∧ 0 ≤ perm k < PGSIZE ∧
  0 ≤ phys_start k ∧ phys_start k mod PGSIZE = 0 ∧ phys_start k + PGSIZE * Z.of_nat c < 2 ^ 32.

Lemma map_kmap_run e k d Tb U X l km n c :
  aspace e k d Tb U X l → krange km n c →
  (∀ n', n ≤ n' ≤ n + Z.of_nat c → present (ent (bytes k) d n') = false) →
  ∃ r k' N l', mappages d (virt km) (u32 (phys_end km - phys_start km)) (phys_start km) (perm km) (at_ k) = Ok r (at_ k') ∧
    l = N ++ l' ∧ aspace e k' d (N ++ Tb) U X l' ∧ same_but (d :: N ++ Tb) (bytes k) (bytes k') ∧
    (r = -1 ∧ l' = [] ∨ r = 0 ∧ ∀ n', vpage n' → ent (bytes k') d n' =
       if decide (n ≤ n' ≤ n + Z.of_nat c) then Z.lor (Z.lor (phys_start km + PGSIZE * (n' - n)) (perm km)) PTE_P
       else ent (bytes k) d n').
Proof using Hl0.
  intros Ha (Hv & Hsz & Hn & Hc & Hp & Hs & Hal & Hmax) Hnp. unfold mappages. rewrite Hv, Hsz.
  assert (H1 : PGROUNDDOWN (PGSIZE * n) = PGSIZE * n).
  { rewrite <-(Z.add_0_r (PGSIZE * n)) at 1. apply PGROUNDDOWN_page; [unfold vpage, NUSER in *; lia|by split]. }
  assert (H2 : PGROUNDDOWN (u32 (PGSIZE * n + PGSIZE * (Z.of_nat c + 1) - 1)) = PGSIZE * (n + Z.of_nat c)).
  { rewrite u32_small by (unfold is_u32, NUSER, PGSIZE in *; lia).
    replace (PGSIZE * n + PGSIZE * (Z.of_nat c + 1) - 1) with (PGSIZE * (n + Z.of_nat c) + (PGSIZE - 1)) by (unfold PGSIZE; lia).
    apply PGROUNDDOWN_page; [unfold vpage, NUSER in *; lia|unfold PGSIZE; lia]. }
  rewrite H1, H2. assert (Z.to_nat (u32 (PGSIZE * (n + Z.of_nat c) - PGSIZE * n) / PGSIZE) = c) as ->.
  { replace (PGSIZE * (n + Z.of_nat c) - PGSIZE * n) with (Z.of_nat c * PGSIZE) by lia.
    rewrite u32_small by (unfold is_u32, NUSER, PGSIZE in *; lia). rewrite Z.div_mul by done. lia. }
  by apply map_range_run.
Qed.

(** What the ranges [rs] map: the first pages and counts with the entries. *)
Definition kmapped (m : memory) (d : Z) (rs : list (kmap_entry * (Z * nat))) : Prop :=
  ∀ km n c, (km, (n, c)) ∈ rs → ∀ n', n ≤ n' ≤ n + Z.of_nat c →
    ent m d n' = Z.lor (Z.lor (phys_start km + PGSIZE * (n' - n)) (perm km)) PTE_P.

Lemma setup_loop_run e d X rs : ∀ k Tb l,
  aspace e k d Tb [] X l → Forall (λ '(km, (n, c)), krange km n c) rs →
  StronglySorted (λ '(_, (n, c)) '(_, (n', _)), n + Z.of_nat c < n') rs →
  (∀ km n c n', (km, (n, c)) ∈ rs → n ≤ n' ≤ n + Z.of_nat c → present (ent (bytes k) d n') = false) →
  ∃ r k', setupkvm_loop d (fst <$> rs) (at_ k) = Ok r (at_ k') ∧
    ((r = 0 ∧ ∃ F N l', l = N ++ l' ∧ F ≡ₚ d :: N ++ Tb ∧ kend k' = e ∧ freelist_ok k' (F ++ l') ∧
        same_but F (bytes k) (bytes k') ∧ (length F ≤ 1025)%nat ∧ l' = []) ∨
     (r = d ∧ ∃ N l', l = N ++ l' ∧ aspace e k' d (N ++ Tb) [] X l' ∧ same_but (d :: N ++ Tb) (bytes k) (bytes k') ∧
        kmapped (bytes k') d rs ∧
        ∀ n', vpage n' → (∀ km n c, (km, (n, c)) ∈ rs → ¬ (n ≤ n' ≤ n + Z.of_nat c)) →
          ent (bytes k') d n' = ent (bytes k) d n')).
Proof using Hl0.
  induction rs as [|[km [n c]] rs IH]; intros k Tb l Ha Hok Hsort Hnp.
  { exists d, k. split; [done|]. right. split; [done|]. exists [], l. split_and!; try done.
    intros km n c Hin. by apply not_elem_of_nil in Hin. }
  apply Forall_cons in Hok as [Hk Hok]. apply StronglySorted_inv in Hsort as [Hsort Hlt].
  rewrite Forall_forall in Hlt. cbn [fmap list_fmap fst setupkvm_loop].
  destruct (map_kmap_run e k d Tb [] X l km n c Ha Hk) as (r & k1 & N & l1 & Hr & Hl & Ha1 & Hs1 & Hcase).
  { intros n' Hn'. eapply (Hnp km n c); [set_solver|done]. }
  rewrite (bind_ok _ _ _ _ _ Hr). destruct Hcase as [[-> ->]|[-> Hent]].
  - change (-1 <? 0) with true. cbv iota. destruct (freevm_run e k1 d (N ++ Tb) [] X [] Ha1) as (k2 & F & Hr2 & HF & Hk2 & Hf2 & Hs2).
    exists 0, k2. split; [by rewrite (bind_ok _ _ _ _ _ Hr2)|]. left. split; [done|]. exists F, N, [].
    rewrite app_nil_r in HF. split_and!; try done.
    + eapply same_but_trans; [exact Hs1|exact Hs2|intros p Hp; by rewrite HF|done].
    + rewrite HF. pose proof (as_tabs_length _ _ _ _ _ _ _ Ha1). simpl. lia.
  - change (0 <? 0) with false. cbv iota.
    assert (Hvn : ∀ km' n1 c1 n', (km', (n1, c1)) ∈ rs → n1 ≤ n' ≤ n1 + Z.of_nat c1 → vpage n' ∧ n + Z.of_nat c < n').
    { intros km' n1 c1 n' Hin Hn'. pose proof (Hlt _ Hin) as Hl'. simpl in Hl'. rewrite Forall_forall in Hok.
      destruct (Hok _ Hin) as (_ & _ & H3 & H4 & _). unfold vpage, NUSER in *. lia. }
    destruct (IH k1 (N ++ Tb) l1 Ha1 Hok Hsort) as (r & k' & Hr' & Hcase).
    { intros km' n1 c1 n' Hin Hn'. destruct (Hvn _ _ _ _ Hin Hn'). rewrite Hent, decide_False by (done || lia).
      eapply (Hnp km' n1 c1); [set_solver|done]. }
    exists r, k'. split; [done|].
    destruct Hcase as [[-> (F & N' & l' & Hl' & HF & Hk' & Hf' & Hs' & HFl & Hl0')]|[-> (N' & l' & Hl' & Ha' & Hs' & Hmap & Hrest)]].
    + left. split; [done|]. exists F, (N ++ N'), l'. split_and!; try done.
      * by rewrite Hl, Hl', app_assoc.
      * rewrite HF. solve_Permutation.
      * eapply same_but_trans; [exact Hs1|exact Hs'|intros p Hp; rewrite HF; set_solver|done].
    + right. split; [done|]. exists (N ++ N'), l'. split_and!.
      * by rewrite Hl, Hl', app_assoc.
      * eapply aspace_perm; [exact Ha'|solve_Permutation|done|done].
      * eapply same_but_trans; [exact Hs1|exact Hs'|set_solver|set_solver].
      * intros km' n1 c1 Hin n' Hn'. apply elem_of_cons in Hin as [Heq|Hin]; [|by eapply Hmap].
        simplify_eq. destruct Hk as (_ & _ & H3 & H4 & _).
        assert (vpage n') by (unfold vpage, NUSER in *; lia).
        rewrite Hrest; [by rewrite Hent, decide_True|done|].
        intros km2 n2 c2 Hin2 Hn2. destruct (Hvn _ _ _ _ Hin2 Hn2). lia.
      * intros n' Hn' Hout. rewrite Hrest; [|done|].
        -- rewrite Hent by done. apply decide_False. apply (Hout km). by left.
        -- intros km2 n2 c2 Hin2. apply (Hout km2). by right.
Qed.

(** A directory of zeros. *)
Lemma aspace_new e k d X l :
  kend k = e → kend_ok e → freelist_ok k l → (∀ x, 0 ≤ x < 1024 → word (bytes k) d x = 0) →
  NoDup (d :: X ++ l) → Forall (page_ok e) (d :: X) →
  aspace e k d [] [] X l ∧ ∀ n, vpage n → ent (bytes k) d n = 0.
Proof.
  intros Hk He Hf Hz Hnd Hp.
  assert (Ht : ∀ i, 0 ≤ i < 1024 → tab (bytes k) d i = None) by (intros i Hi; unfold tab; by rewrite Hz).
  assert (Hent : ∀ n, vpage n → ent (bytes k) d n = 0).
  { intros n Hn. unfold ent. rewrite Ht by (by apply vpage_index). done. }
  split; [|done]. split; try done.
  - by rewrite tabs_none.
  - rewrite upages_none; [done|]. intros n Hn. unfold upage. by rewrite Hent by (unfold vpage, NUSER in *; lia).
Qed.

(** [data] as the linker script places it. *)
Definition data_ok (data : Z) : Prop := KERNLINK < data < KERNBASE + PHYSTOP ∧ data mod PGSIZE = 0.

Definition kranges (data : Z) : list (kmap_entry * (Z * nat)) :=
  [ (mkkmap KERNBASE 0 EXTMEM PTE_W, (KERNBASE / PGSIZE, 255%nat));
    (mkkmap KERNLINK (V2P KERNLINK) (V2P data) 0,
      (KERNLINK / PGSIZE, Z.to_nat ((data - KERNLINK) / PGSIZE - 1)));
    (mkkmap data (V2P data) PHYSTOP PTE_W,
      (data / PGSIZE, Z.to_nat ((KERNBASE + PHYSTOP - data) / PGSIZE - 1)));
    (mkkmap DEVSPACE DEVSPACE 0 PTE_W, (DEVSPACE / PGSIZE, Z.to_nat ((2 ^ 32 - DEVSPACE) / PGSIZE - 1))) ].

Lemma kranges_ok data :
  data_ok data →
  Forall (λ '(km, (n, c)), krange km n c) (kranges data) ∧
  StronglySorted (λ '(_, (n, c)) '(_, (n', _)), n + Z.of_nat c < n') (kranges data).
Proof.
  intros [Hd Hal]. assert (HV : V2P data = data - KERNBASE).
  { unfold V2P. apply u32_small. unfold is_u32, KERNLINK, KERNBASE, PHYSTOP, EXTMEM in *. lia. }
  unfold kranges. change (V2P KERNLINK) with EXTMEM.
  change KERNLINK with 0x80100000 in *. change KERNBASE with 0x80000000 in *. change PHYSTOP with 0xE000000 in *.
  split.
  - repeat apply Forall_cons_2; [..|by apply Forall_nil]; unfold krange; cbn [virt phys_start phys_end perm].
    + by vm_compute.
    + rewrite HV. unfold EXTMEM, PGSIZE, NUSER in *.
      rewrite u32_small by (unfold is_u32; lia). split_and!; (done || Z.div_mod_to_equations; lia).
    + rewrite HV. unfold PGSIZE, NUSER, PTE_W in *.
      rewrite u32_small by (unfold is_u32; lia). split_and!; (done || Z.div_mod_to_equations; lia).
    + by vm_compute.
  - unfold DEVSPACE, PGSIZE in *. repeat constructor; Z.div_mod_to_equations; lia.
Qed.

Lemma setupkvm_run e k X l :
  kend k = e → kend_ok e → freelist_ok k l → NoDup (X ++ l) → Forall (page_ok e) X → data_ok (kdata (kvm s0)) →
  ∃ r k', setupkvm (at_ k) = Ok r (at_ k') ∧
    ((r = 0 ∧ (length l ≤ 1025)%nat ∧ ∃ l', l' ≡ₚ l ∧ kend k' = e ∧ freelist_ok k' l' ∧ same_but l (bytes k) (bytes k')) ∨
     (r ≠ 0 ∧ ∃ Tb l', l ≡ₚ r :: Tb ++ l' ∧ aspace e k' r Tb [] X l' ∧ same_but (r :: Tb) (bytes k) (bytes k') ∧
        kmapped (bytes k') r (kranges (kdata (kvm s0))) ∧ ∀ n, 0 ≤ n < NUSER → ent (bytes k') r n = 0)).
Proof using Hl0.
  intros Hk He Hf Hnd HX Hdata. unfold setupkvm. destruct l as [|d l].
  { exists 0, k. rewrite (bind_ok _ _ _ _ _ (kalloc_none k Hf)). split; [done|]. left. split_and!; [done|simpl; lia|]. by exists []. }
  destruct (kalloced_ok _ _ _ Hf) as [Hv Hf1]. pose proof Hf as (_ & Hndl & Hpl). rewrite Hk in Hpl.
  apply Forall_cons in Hpl as [Hpd Hpl].
  assert (Hr : kalloc (at_ k) = Ok d (at_ (kalloced k))).
  { rewrite kalloc_eq by (intros _; exact Hl0). change (kmem (at_ k)) with k. by rewrite Hv. }
  assert (Hb : bytes (kalloced k) = bytes k ∧ kend (kalloced k) = kend k) by (unfold kalloced; by destruct (_ =? 0)).
  destruct Hb as [Hb Hke]. rewrite (bind_ok _ _ _ _ _ Hr), (proj2 (Z.eqb_neq d 0)) by (by eapply page_ok_nonzero).
  rewrite (bind_ok _ _ _ _ _ (kmemset_run _ _ _ _)). change (DEVSPACE <? P2V PHYSTOP) with false. cbv iota.
  rewrite (bind_ok (gets _) _ _ _ _ eq_refl). change (kvm (at_ _)) with (kvm s0).
  change ((kalloced k) <| bytes ::= _ |>) with ((kalloced k) <| bytes := memset d 0 PGSIZE (bytes (kalloced k)) |>).
  set (k1 := (kalloced k) <| bytes := memset d 0 PGSIZE (bytes (kalloced k)) |>).
  assert (Hnd1 : NoDup (d :: X ++ l)) by (eapply NoDup_perm; [exact Hnd|solve_Permutation]).
  assert (Hdl : d ∉ l) by (apply NoDup_cons in Hnd1 as [? _]; set_solver).
  assert (Hf2 : freelist_ok k1 l).
  { apply (freelist_same_but e (kalloced k) l [d] (memset d 0 PGSIZE (bytes (kalloced k)))); [exact Hf1|by rewrite Hke|apply memset_same_but|by constructor|].
    intros p Hp%list_elem_of_singleton. by subst p. }
  destruct (aspace_new e k1 d X l) as [Ha1 Hent1]; try done; [by rewrite <-Hk, <-Hke|
    intros x Hx; by apply word_memset|by constructor|].
  assert (Hs1 : same_but [d] (bytes k) (bytes k1)) by (rewrite <-Hb; apply memset_same_but).
  destruct (kranges_ok _ Hdata) as [Hok Hsort].
  destruct (setup_loop_run e d X (kranges (kdata (kvm s0))) k1 [] l Ha1 Hok Hsort) as (r & k' & Hr' & Hcase).
  { intros km n c n' Hin Hn'. rewrite Forall_forall in Hok. destruct (Hok _ Hin) as (_ & _ & H3 & H4 & _).
    rewrite Hent1; [done|]. unfold vpage, NUSER in *. lia. }
  exists r, k'. split; [exact Hr'|].
  destruct Hcase as [[-> (F & N & l' & Hl' & HF & Hk' & Hf' & Hs' & HFl & Hl0')]|[-> (N & l' & Hl' & Ha' & Hs' & Hmap & Hrest)]].
  - left. split_and!; [done|rewrite Hl', Hl0', app_nil_r; rewrite HF, app_nil_r in HFl; done|]. exists (F ++ l'). split_and!; try done.
    + rewrite HF, Hl'. solve_Permutation.
    + eapply same_but_trans; [exact Hs1|exact Hs'|set_solver|].
      intros p Hp. rewrite HF in Hp. rewrite Hl'. set_solver.
  - right. split; [by eapply page_ok_nonzero|]. rewrite app_nil_r in *. exists N, l'. split_and!; try done.
    + by rewrite Hl'.
    + eapply same_but_trans; [exact Hs1|exact Hs'|set_solver|set_solver].
    + intros n Hn. assert (vpage n) by (unfold vpage, NUSER in *; lia). rewrite Hrest; [by apply Hent1|done|].
      intros km n1 c1 Hin. rewrite Forall_forall in Hok. destruct (Hok _ Hin) as (_ & _ & H3 & _). lia.
Qed.
End Run.
