(* ===== verification/Copyvm.v ===== *)
(** * Copying an address space: copyuvm of vm.c

    The child of a [fork] gets a page table that maps fresh pages with the
    contents and the permissions of the parent's; when memory runs out every
    page that was taken goes back to the free list. *)

From stdpp Require Import list_tactics.
From S2P Require Import Prelude Kernel Cstring Kalloc Vm Pagetab.

(** ** The processor's translation by entries *)

Lemma translate_ent m d n o :
  vpage n → 0 ≤ o < PGSIZE →
  translate m d (PGSIZE * n + o) = if present (ent m d n) then Some (pte_page (ent m d n) + o) else None.
Proof.
  intros Hn Ho. unfold translate. rewrite PDX_page, PTX_page by done.
  fold (word m d (n / 1024)). fold (present (word m d (n / 1024))). fold (pte_page (word m d (n / 1024))).
  unfold ent, tab. destruct (present (word m d (n / 1024))); [|done].
  fold (word m (pte_page (word m d (n / 1024))) (n mod 1024)).
  assert (Hm : (PGSIZE * n + o) mod PGSIZE = o).
  { rewrite Z.add_comm, Z.mul_comm, Z.mod_add by done. by apply Z.mod_small. }
  by rewrite Hm.
Qed.

Lemma flags_present x : present x = true → Z.lor (PTE_FLAGS x) PTE_P = PTE_FLAGS x.
Proof.
  unfold present, is_set, PTE_FLAGS. intros Hp. apply negb_true_iff, Z.eqb_neq in Hp.
  assert (Hb : Z.testbit x 0 = true).
  { destruct (Z.testbit x 0) eqn:E; [done|]. destruct Hp. apply Z.bits_inj'. intros n Hn.
    rewrite Z.land_spec, Z.bits_0. destruct (decide (n = 0)) as [->|]; [by rewrite E|].
    replace (Z.testbit PTE_P n) with false; [apply andb_false_r|]. symmetry.
    apply Z.bits_above_log2; [done|]. simpl. lia. }
  apply Z.bits_inj'. intros n Hn. rewrite Z.lor_spec, Z.land_spec.
  destruct (decide (n = 0)) as [->|]; [by rewrite Hb|].
  replace (Z.testbit PTE_P n) with false; [apply orb_false_r|]. symmetry.
  apply Z.bits_above_log2; [done|]. simpl. lia.
Qed.

Lemma flags_range x : 0 ≤ PTE_FLAGS x < PGSIZE.
Proof.
  unfold PTE_FLAGS. change 0xFFF with (Z.ones 12). rewrite Z.land_ones by lia.
  change PGSIZE with (2 ^ 12). by apply Z.mod_pos_bound.
Qed.

(** ** The loop *)

(** The pages below [sz] of the parent [old] are among the pages [X]. *)
Record parent_ok (m : memory) (old sz : Z) (X : list Z) : Prop := {
  po_dir : old ∈ X;
  po_tab : ∀ n, 0 ≤ n → PGSIZE * n < sz → ∃ t, tab m old (n / 1024) = Some t ∧ t ∈ X;
  po_page : ∀ n, 0 ≤ n → PGSIZE * n < sz → present (ent m old n) = true ∧ pte_page (ent m old n) ∈ X }.

(** Page [n] of [d] in [m] is a copy of page [n] of [old] in [m0]. *)
Definition copy_of (m0 m : memory) (old d n : Z) : Prop :=
  present (ent m d n) = true ∧ PTE_FLAGS (ent m d n) = PTE_FLAGS (ent m0 old n) ∧
  ∀ o, 0 ≤ o < PGSIZE → m (pte_page (ent m d n) + o) = m0 (pte_page (ent m0 old n) + o).

(** The first [i] user pages are copied, and there are no others. *)
Definition copied (m0 m : memory) (old d i : Z) : Prop :=
  (∀ n, 0 ≤ n < i → copy_of m0 m old d n) ∧ (∀ n, i ≤ n < NUSER → present (ent m d n) = false).

Lemma on_page_off p o : 0 ≤ o < PGSIZE → on_page p (p + o).
Proof. unfold on_page. lia. Qed.

(** A copy is not touched by a change elsewhere. *)
Lemma copy_of_same e k m' m0 old d n Tb U X l S :
  aspace e k d Tb U X l → same_but S (bytes k) m' → Forall (page_ok e) S → (∀ p, p ∈ S → p ∉ U) →
  0 ≤ n < NUSER → ent m' d n = ent (bytes k) d n →
  copy_of m0 (bytes k) old d n → copy_of m0 m' old d n.
Proof.
  intros Ha Hs HS Hd Hn He (Hp & Hf & Hc). unfold copy_of. rewrite He. split_and!; [done|done|].
  intros o Ho. rewrite <-Hc by done.
  assert (HU : pte_page (ent (bytes k) d n) ∈ U).
  { rewrite <-(as_user _ _ _ _ _ _ _ Ha). apply (upage_in _ _ n); [done|]. unfold upage. by rewrite Hp. }
  eapply (same_page e S); try done; [|intros Hin; by apply (Hd _ Hin)|by apply on_page_off].
  apply (as_page _ _ _ _ _ _ _ _ Ha). set_solver.
Qed.

#[local] Opaque acquire release.
#[local] Opaque tabs upages.

Section Copy.
Context (s0 : kernel) (Hl0 : can_lock LkKmem s0).
#[local] Abbreviation at_ k := (wth s0 k).

(** The parent as the loop sees it: its pages are not free ones. *)
Lemma parent_same e l0 X m0 m old sz n :
  parent_ok m0 old sz X → same_but l0 m0 m → Forall (page_ok e) l0 → Forall (page_ok e) X → (∀ p, p ∈ X → p ∉ l0) →
  0 ≤ n → PGSIZE * n < sz → sz ≤ KERNBASE →
  tab m old (n / 1024) = tab m0 old (n / 1024) ∧ ent m old n = ent m0 old n ∧
  ∀ o, 0 ≤ o < PGSIZE → m (pte_page (ent m0 old n) + o) = m0 (pte_page (ent m0 old n) + o).
Proof.
  intros [Hdir Htab Hpg] Hs Hl HX Hd Hn Hlt Hsz. rewrite Forall_forall in HX.
  assert (Hvn : vpage n) by (unfold vpage, KERNBASE, PGSIZE in *; lia). destruct (vpage_index n Hvn) as [Hi Hx].
  assert (Hw : ∀ p x, p ∈ X → 0 ≤ x < 1024 → word m p x = word m0 p x).
  { intros p x Hp Hx'. by eapply (same_word e l0); [done|done|apply HX|apply Hd|]. }
  assert (Ht : tab m old (n / 1024) = tab m0 old (n / 1024)) by (unfold tab; by rewrite Hw).
  destruct (Htab n Hn Hlt) as (t & Ht0 & HtX). destruct (Hpg n Hn Hlt) as [_ HpX]. split_and!; [done|..].
  - unfold ent. rewrite Ht, Ht0. by apply Hw.
  - intros o Ho. by eapply (same_page e l0); [done|done|apply HX|apply Hd|apply on_page_off].
Qed.

(** Giving everything back. *)
Lemma copy_abort e k d Tb U X l l0 m0 :
  aspace e k d Tb U X l → l0 ≡ₚ d :: Tb ++ U ++ l → same_but l0 m0 (bytes k) →
  ∃ k', (freevm d ;; ret 0) (at_ k) = Ok 0 (at_ k') ∧ kend k' = e ∧ same_but l0 m0 (bytes k') ∧
    ∃ l', l' ≡ₚ l0 ∧ freelist_ok k' l'.
Proof using Hl0.
  intros Ha Hl Hs. destruct (freevm_run s0 Hl0 e k d Tb U X l Ha) as (k' & F & Hr & HF & Hk & Hf & Hs').
  exists k'. split_and!; [by rewrite (bind_ok _ _ _ _ _ Hr)|done|..].
  - eapply same_but_trans; [exact Hs|exact Hs'|done|]. intros p Hp. rewrite Hl. rewrite HF in Hp. set_solver.
  - exists (F ++ l). split; [|done]. rewrite HF, Hl. solve_Permutation.
Qed.

(** What the loop keeps: the child [d] has [i] copied pages; it and the free
    pages are the pages [l0] that were free at the start, and nothing else has
    changed since. *)
Record copying (e : Z) (m0 : memory) (l0 : list Z) (old d : Z) (X : list Z) (i : Z)
    (k : kmemst) (Tb U l : list Z) : Prop := {
  cp_space : aspace e k d Tb U X l;
  cp_pages : l0 ≡ₚ d :: Tb ++ U ++ l;
  cp_same : same_but l0 m0 (bytes k);
  cp_copied : copied m0 (bytes k) old d i;
  cp_count : Z.of_nat (length U) = i }.

(** Too few pages are free for [sz] bytes, a directory and its tables. *)
Definition few_pages (l : list Z) (sz : Z) : Prop := PGSIZE * (Z.of_nat (length l) - 1026) < sz.

(** The contents of a page that has been copied and mapped. *)
Lemma copying_step e m0 l0 old d X i k Tb U l k1 k3 N p l1 l2 src :
  copying e m0 l0 old d X i k Tb U l → 0 ≤ i < NUSER → l = p :: l1 → l1 = N ++ l2 →
  aspace e k1 d Tb U (p :: X) l1 → bytes k1 = bytes k →
  let m2 := memmove p src PGSIZE (bytes k1) in
  aspace e k3 d (N ++ Tb) (p :: U) X l2 → same_but (d :: N ++ Tb) m2 (bytes k3) →
  (∀ n', vpage n' → ent (bytes k3) d n' = if decide (n' = i) then mk_pte p (PTE_FLAGS (ent m0 old i)) else ent (bytes k) d n') →
  present (ent m0 old i) = true → src = pte_page (ent m0 old i) →
  (∀ o, 0 ≤ o < PGSIZE → bytes k (src + o) = m0 (src + o)) →
  copying e m0 l0 old d X (i + 1) k3 (N ++ Tb) (p :: U) l2.
Proof.
  intros [Ha Hl Hs Hc Hcnt] Hi -> -> Ha1 Hb1 m2 Ha3 Hs3 Hent Hpr Hsrc Hcont.
  assert (Hvi : vpage i) by (unfold vpage, NUSER in *; lia).
  assert (Hpp : page_ok e p) by (apply (as_page _ _ _ _ _ _ _ _ Ha1); set_solver).
  destruct (mk_pte_ok e p (PTE_FLAGS (ent m0 old i)) (as_end _ _ _ _ _ _ _ Ha) Hpp (flags_range _)) as (Hpg & Hpp' & _ & Hfl).
  assert (Hs2 : same_but [p] (bytes k) m2).
  { intros a Hna. unfold m2. rewrite memmove_correct by done. rewrite Hb1.
    specialize (Hna p (list_elem_of_here _ _)). unfold on_page in Hna. destruct (_ && _) eqn:E; [lia|done]. }
  pose proof (as_nodup _ _ _ _ _ _ _ Ha3) as Hnd3.
  assert (Hpn : (p ∉ d :: N ++ Tb) ∧ p ∉ U).
  { assert (Hnd' : NoDup (p :: (d :: N ++ Tb) ++ U ++ X ++ l2)) by (eapply NoDup_perm; [exact Hnd3|solve_Permutation]).
    apply NoDup_cons in Hnd' as [Hnin _]. set_solver. }
  destruct Hpn as [Hpd HpU].
  assert (HUd : ∀ q, q ∈ d :: N ++ Tb → q ∉ U).
  { assert (Hnd' : NoDup ((d :: N ++ Tb) ++ (p :: U) ++ X ++ l2)) by (eapply NoDup_perm; [exact Hnd3|solve_Permutation]).
    apply NoDup_app in Hnd' as (_ & Hdisj & _). set_solver. }
  assert (Hs23 : same_but (p :: d :: N ++ Tb) (bytes k) (bytes k3)).
  { eapply same_but_trans; [exact Hs2|exact Hs3|set_solver|set_solver]. }
  split; [done|..].
  - rewrite Hl. solve_Permutation.
  - eapply same_but_trans; [exact Hs|exact Hs23|done|]. intros q Hq. rewrite Hl. set_solver.
  - split.
    + intros n Hn. assert (Hvn : vpage n) by (unfold vpage, NUSER in *; lia).
      destruct (decide (n = i)) as [->|Hne].
      * unfold copy_of. rewrite Hent, decide_True by done. rewrite Hpg. split_and!; [done|by rewrite Hfl, flags_present|].
        intros o Ho. rewrite <-Hsrc, <-Hcont by done.
        rewrite (same_page e (d :: N ++ Tb) m2 (bytes k3) p) by
          (done || by apply on_page_off ||
           (apply Forall_forall; intros q Hq; apply (as_page _ _ _ _ _ _ _ _ Ha3); set_solver)).
        unfold m2. rewrite memmove_correct by done. rewrite Hb1.
        destruct (_ && _) eqn:E; [f_equal; lia|lia].
      * eapply (copy_of_same e k (bytes k3) m0 old d n Tb U X _ (p :: d :: N ++ Tb) Ha Hs23).
        -- apply Forall_forall. intros q Hq. apply (as_page _ _ _ _ _ _ _ _ Ha3). set_solver.
        -- intros q Hq. apply elem_of_cons in Hq as [->|Hq]; [done|by apply HUd].
        -- lia.
        -- by rewrite Hent, decide_False.
        -- apply Hc. lia.
    + intros n Hn. assert (Hvn : vpage n) by (unfold vpage, NUSER in *; lia).
      rewrite Hent, decide_False by (done || lia). apply Hc. lia.
  - simpl. lia.
Qed.

Lemma copy_run e m0 l0 old d X sz fuel : ∀ k Tb U l i,
  copying e m0 l0 old d X i k Tb U l → parent_ok m0 old sz X → Forall (page_ok e) l0 → Forall (page_ok e) X →
  (∀ p, p ∈ X → p ∉ l0) → 0 ≤ i → sz ≤ KERNBASE → PGSIZE * i < sz + PGSIZE →
  (0 < fuel)%nat → (sz - PGSIZE * i) / PGSIZE + 1 < Z.of_nat fuel →
  ∃ r k', copyuvm_loop fuel old d (PGSIZE * i) sz (at_ k) = Ok r (at_ k') ∧ kend k' = e ∧ same_but l0 m0 (bytes k') ∧
    ((r = 0 ∧ few_pages l0 sz ∧ ∃ l', l' ≡ₚ l0 ∧ freelist_ok k' l') ∨
     (r = d ∧ ∃ Tb' U' l' i', copying e m0 l0 old d X i' k' Tb' U' l' ∧ sz ≤ PGSIZE * i' < sz + PGSIZE ∧
        ∀ n, NUSER ≤ n → vpage n → ent (bytes k') d n = ent (bytes k) d n)).
Proof using Hl0.
  induction fuel as [|fuel IH]; [lia|]. intros k Tb U l i Hcp Hpo Hl0p HXp Hdisj Hi Hsz Hb _ Hf.
  destruct Hcp as [Ha Hl Hs Hc Hcnt] eqn:Ecp. clear Ecp. cbn [copyuvm_loop].
  destruct (Z.ltb_spec (PGSIZE * i) sz) as [Hlt|Hge].
  2: { exists d, k. split_and!; [done|apply Ha|done|]. right. split; [done|]. exists Tb, U, l, i. split_and!; done. }
  assert (Hiu : 0 ≤ i < NUSER) by (unfold NUSER, KERNBASE, PGSIZE in *; lia).
  assert (Hvi : vpage i) by (unfold vpage, NUSER in *; lia).
  destruct (parent_same e l0 X m0 (bytes k) old sz i Hpo Hs Hl0p HXp Hdisj Hi Hlt Hsz) as (Ht & He & Hcont).
  destruct (po_tab _ _ _ _ Hpo i Hi Hlt) as (t & Ht0 & HtX). destruct (po_page _ _ _ _ Hpo i Hi Hlt) as [Hpr HpX].
  pose proof (walk_run s0 k old i 0 Hvi ltac:(done)) as Hw. rewrite Z.add_0_r, Ht, Ht0 in Hw.
  rewrite (bind_ok _ _ _ _ _ Hw). rewrite Forall_forall in HXp. pose proof (HXp t HtX) as Hpt.
  destruct (vpage_index i Hvi) as [Hdi Hxi].
  rewrite (proj2 (Z.eqb_neq _ 0)) by (destruct Hpt as (_ & _ & Hpt'); unfold KERNBASE in Hpt'; lia).
  rewrite (bind_ok _ _ _ _ _ (rd32_run s0 _ _)).
  assert (Hent : load32 (t + 4 * (i mod 1024)) (bytes k) = ent m0 old i).
  { rewrite <-He. unfold ent. by rewrite Ht, Ht0. }
  rewrite Hent. fold (present (ent m0 old i)). rewrite Hpr. cbn [negb]. fold (pte_page (ent m0 old i)).
  pose proof (as_tabs_length _ _ _ _ _ _ _ Ha) as HTb.
  assert (Hfew : (length l ≤ 1)%nat → few_pages l0 sz).
  { intros Hll. unfold few_pages. rewrite Hl. cbn [length]. rewrite !length_app. unfold PGSIZE in *. lia. }
  destruct l as [|p l1].
  { rewrite (bind_ok _ _ _ _ _ (kalloc_none s0 Hl0 k (as_free _ _ _ _ _ _ _ Ha))), Z.eqb_refl.
    destruct (copy_abort e k d Tb U X [] l0 m0 Ha Hl Hs) as (k' & Hr & Hk' & Hs' & Hl'). exists 0, k'.
    split_and!; try done. left. split_and!; [done|apply Hfew; simpl; lia|done]. }
  destruct (kalloc_some s0 Hl0 e k d Tb U X p l1 Ha) as (k1 & Hr1 & Ha1 & Hb1 & Hp0 & Hpp).
  rewrite (bind_ok _ _ _ _ _ Hr1), (proj2 (Z.eqb_neq p 0) Hp0).
  set (src := pte_page (ent m0 old i)) in *.
  set (m2 := memmove p src PGSIZE (bytes k1)).
  assert (Hs2 : same_but [p] (bytes k1) m2).
  { intros a Hna. unfold m2. rewrite memmove_correct by done.
    specialize (Hna p (list_elem_of_here _ _)). unfold on_page in Hna. destruct (_ && _) eqn:E; [lia|done]. }
  destruct (aspace_write e k1 d Tb U (p :: X) l1 [p] m2 Ha1 Hs2) as [Ha2 He2]; [set_solver|].
  set (k2 := k1 <| bytes := m2 |>) in *.
  pose proof (kmemmove_run s0 p src PGSIZE k1) as Hmv. fold m2 in Hmv. fold k2 in Hmv.
  rewrite (bind_ok _ _ _ _ _ Hmv). clear Hmv.
  assert (Hent2 : ∀ n, vpage n → ent (bytes k2) d n = ent (bytes k) d n) by (intros n Hn; rewrite <-Hb1; by apply He2).
  destruct (map_user_run s0 Hl0 e k2 d Tb U X p l1 i (PTE_FLAGS (ent m0 old i)) Ha2 Hiu)
    as [[-> Hr3]|(k3 & N & l2 & Hr3 & Hl2 & Ha3 & He3 & Hs3)].
  { rewrite Hent2 by done. apply Hc. lia. }
  { apply flags_range. }
  - rewrite (bind_ok _ _ _ _ _ Hr3). change (-1 <? 0) with true. cbv iota.
    destruct (kfree_run s0 Hl0 e k2 d Tb U X p [] Ha2) as (k3 & Hr4 & Ha4 & Hs4 & _).
    rewrite (bind_ok _ _ _ _ _ Hr4).
    assert (Hs5 : same_but l0 m0 (bytes k3)).
    { eapply (same_but_trans l0 l0 [p]); [exact Hs| |done|intros q Hq; rewrite Hl; set_solver].
      eapply (same_but_trans [p]); [rewrite <-Hb1; exact Hs2|exact Hs4|done|done]. }
    destruct (copy_abort e k3 d Tb U X [p] l0 m0 Ha4 Hl Hs5) as (k' & Hr & Hk' & Hs' & Hl'). exists 0, k'.
    split_and!; try done. left. split_and!; [done|by apply Hfew|done].
  - rewrite (bind_ok _ _ _ _ _ Hr3). change (0 <? 0) with false. cbv iota.
    rewrite u32_small by (unfold is_u32, NUSER, PGSIZE in *; lia).
    replace (PGSIZE * i + PGSIZE) with (PGSIZE * (i + 1)) by lia.
    assert (He3' : ∀ n', vpage n' → ent (bytes k3) d n' =
      if decide (n' = i) then mk_pte p (PTE_FLAGS (ent m0 old i)) else ent (bytes k) d n').
    { intros n' Hn'. rewrite He3 by done. case_decide; [done|by apply Hent2]. }
    destruct (IH k3 (N ++ Tb) (p :: U) l2 (i + 1)) as (r & k' & Hr & Hk' & Hs' & Hcase).
    + eapply (copying_step e m0 l0 old d X i k Tb U (p :: l1) k1 k3 N p l1 l2 src); try done.
    + done.
    + done.
    + by apply Forall_forall.
    + done.
    + lia.
    + done.
    + lia.
    + unfold PGSIZE in *. Z.div_mod_to_equations. lia.
    + unfold PGSIZE in *. Z.div_mod_to_equations. lia.
    + exists r, k'. split_and!; try done.
      destruct Hcase as [Hcase|[-> (Tb' & U' & l' & i' & Hcp' & Hi' & Hker)]]; [by left|right].
      split; [done|]. exists Tb', U', l', i'. split_and!; try done; [apply Hi'..|].
      intros n Hn Hvn. rewrite Hker by done. rewrite He3', decide_False by (done || lia). done.
Qed.
End Copy.

(** ** Properties *)

(** An address space after others have taken the pages [Y] off the free list and
    changed only pages that were free. *)
Lemma aspace_keep e k k' d Tb U X l Y l' :
  aspace e k d Tb U X l → same_but l (bytes k) (bytes k') → kend k' = e → freelist_ok k' l' → l ≡ₚ Y ++ l' →
  aspace e k' d Tb U (X ++ Y) l'.
Proof.
  intros Ha Hs Hk Hf Hl. pose proof (as_nodup _ _ _ _ _ _ _ Ha) as Hnd.
  assert (Hlp : Forall (page_ok e) l).
  { apply Forall_forall. intros p Hp. apply (as_page _ _ _ _ _ _ _ _ Ha). set_solver. }
  assert (Hnd' : NoDup ((d :: Tb) ++ U ++ X ++ l)) by (eapply NoDup_perm; [exact Hnd|solve_Permutation]).
  apply NoDup_app in Hnd' as (_ & Hdj & _).
  destruct (same_ents e k d Tb U X l l (bytes k') Ha Hs Hlp) as (_ & _ & H3 & H4).
  { intros p Hp Hin. apply (Hdj p Hin). set_solver. }
  destruct Ha as [_ He _ Ht Hu _ Hp]. split; try done.
  - by rewrite H3.
  - by rewrite H4.
  - eapply NoDup_perm; [exact Hnd|]. rewrite Hl. solve_Permutation.
  - rewrite Hl, Forall_app in Hlp. rewrite !Forall_cons, !Forall_app in *. tauto.
Qed.

Lemma wth_kmem s : wth s (kmem s) = s.
Proof. by destruct s. Qed.

(** [C14] The memory of a forked process.  Let [old] be a page directory whose
    tables and user pages, the other pages in use and the free pages are all
    different, with every page below [sz] present.  [copyuvm] changes no byte
    outside of the pages that were free.  It returns 0, which happens only when
    too few pages are free for a copy of [sz] bytes, a directory and its tables,
    and then the same pages are free again: nothing leaks.  Or it returns a
    directory of pages that were free, which maps the kernel as [kmap] says, maps
    each page below [sz] with the parent's permissions to a page of its own that
    has the parent's bytes, and maps nothing else below [KERNBASE]; the parent's
    address space is as it was, and the two share no page. *)
Theorem copyuvm_spec s e old Tb U X l sz :
  can_lock LkKmem s → data_ok (kdata (kvm s)) → aspace e (kmem s) old Tb U X l → 0 ≤ sz ≤ KERNBASE →
  (∀ n, 0 ≤ n → PGSIZE * n < sz → present (ent (bytes (kmem s)) old n) = true) →
  ∃ r s', copyuvm old sz s = Ok r s' ∧ s' = s <| kmem := kmem s' |> ∧
    same_but l (bytes (kmem s)) (bytes (kmem s')) ∧
    ((r = 0 ∧ few_pages l sz ∧ ∃ l', l' ≡ₚ l ∧ aspace e (kmem s') old Tb U X l') ∨
     (r ≠ 0 ∧ ∃ Tb' U' l', l ≡ₚ r :: Tb' ++ U' ++ l' ∧
        aspace e (kmem s') old Tb U (X ++ r :: Tb' ++ U') l' ∧
        aspace e (kmem s') r Tb' U' (old :: Tb ++ U ++ X) l' ∧
        kmapped (bytes (kmem s')) r (kranges (kdata (kvm s))) ∧
        (∀ n, 0 ≤ n → PGSIZE * n < sz →
           PTE_FLAGS (ent (bytes (kmem s')) r n) = PTE_FLAGS (ent (bytes (kmem s)) old n)) ∧
        (∀ va, 0 ≤ va < sz → ∃ a a', translate (bytes (kmem s)) old va = Some a ∧
           translate (bytes (kmem s')) r va = Some a' ∧ bytes (kmem s') a' = bytes (kmem s) a) ∧
        (∀ n, sz ≤ PGSIZE * n → n < NUSER → present (ent (bytes (kmem s')) r n) = false))).
Proof.
  intros Hlk Hdata Ha Hsz Hpres. set (m0 := bytes (kmem s)) in *. pose proof (as_nodup _ _ _ _ _ _ _ Ha) as Hnd.
  set (X' := old :: Tb ++ U ++ X).
  assert (Hnd' : NoDup (X' ++ l)) by (eapply NoDup_perm; [exact Hnd|unfold X'; solve_Permutation]).
  assert (Hdj : ∀ p, p ∈ X' → p ∉ l) by (by apply NoDup_app in Hnd' as (_ & ? & _)).
  assert (Hlp : Forall (page_ok e) l).
  { apply Forall_forall. intros p Hp. apply (as_page _ _ _ _ _ _ _ _ Ha). set_solver. }
  assert (HXp : Forall (page_ok e) X') by apply Ha.
  assert (Hpo : parent_ok m0 old sz X').
  { split; [unfold X'; set_solver|..]; intros n Hn Hlt;
      assert (Hnu : 0 ≤ n < NUSER) by (unfold NUSER, KERNBASE, PGSIZE in *; lia);
      assert (Hvn : vpage n) by (unfold vpage, NUSER in *; lia); destruct (vpage_index n Hvn) as [Hi _];
      pose proof (Hpres n Hn Hlt) as Hp.
    - destruct (tab m0 old (n / 1024)) as [t|] eqn:Ht; [|by unfold ent in Hp; rewrite Ht in Hp].
      exists t. split; [done|]. destruct (as_tab _ _ _ _ _ _ _ _ _ Ha Hi Ht). unfold X'. set_solver.
    - split; [done|]. assert (HU : pte_page (ent m0 old n) ∈ U); [|unfold X'; set_solver].
      rewrite <-(as_user _ _ _ _ _ _ _ Ha). apply (upage_in _ _ n); [done|]. unfold upage. fold m0. by rewrite Hp. }
  destruct (setupkvm_run s Hlk e (kmem s) X' l) as (r & k1 & Hr1 & Hcase); try done; [apply Ha..|].
  rewrite wth_kmem in Hr1. unfold copyuvm. rewrite (bind_ok _ _ _ _ _ Hr1).
  destruct Hcase as [[-> (Hfew & l' & Hl' & Hk1 & Hf1 & Hs1)]|[Hr0 (Tb1 & l1 & Hl1 & Ha1 & Hs1 & Hkm & Hu1)]].
  { rewrite Z.eqb_refl. exists 0, (wth s k1). split_and!; try done. left. split_and!; [done|unfold few_pages, PGSIZE; lia|]. exists l'. split; [done|].
    rewrite <-(app_nil_r X). by eapply (aspace_keep e (kmem s) k1). }
  rewrite (proj2 (Z.eqb_neq r 0) Hr0).
  assert (Hcp : copying e m0 l old r X' 0 k1 Tb1 [] l1).
  { split; try done.
    - eapply same_but_mono; [exact Hs1|]. intros p Hp. rewrite Hl1. set_solver.
    - split; [lia|]. intros n Hn. by rewrite Hu1. }
  destruct (copy_run s Hlk e m0 l old r X' sz (S (Z.to_nat (sz / PGSIZE + 1))) k1 Tb1 [] l1 0)
    as (r' & k' & Hr2 & Hk' & Hs2 & Hcase); try done; [lia|unfold PGSIZE; lia|lia| |].
  { rewrite Z.mul_0_r, Z.sub_0_r. pose proof (Z.div_pos sz PGSIZE ltac:(lia) ltac:(done)). lia. }
  rewrite Z.mul_0_r in Hr2. exists r', (wth s k'). split_and!; try done.
  destruct Hcase as [[-> (Hfew & l' & Hl' & Hf')]|[-> (Tb' & U' & l' & i' & [Ha' Hl' _ [Hcopy Hnone] _] & Hi' & Hker)]].
  { left. split_and!; [done|done|]. exists l'. split; [done|].
    rewrite <-(app_nil_r X). by eapply (aspace_keep e (kmem s) k'). }
  right. split; [done|]. exists Tb', U', l'. change (kmem (wth s k')) with k'.
  assert (Hcop : ∀ n, 0 ≤ n → PGSIZE * n < sz → copy_of m0 (bytes k') old r n).
  { intros n Hn Hlt. apply Hcopy. unfold PGSIZE in *. lia. }
  split_and!; try done.
  - eapply (aspace_keep e (kmem s) k'); try done; [apply Ha'|]. rewrite Hl'. solve_Permutation.
  - intros km n c Hin n' Hn'. destruct (kranges_ok _ Hdata) as [Hok _]. rewrite Forall_forall in Hok.
    destruct (Hok _ Hin) as (_ & _ & H3 & H4 & _). rewrite Hker; [by eapply Hkm|lia|unfold vpage, NUSER in *; lia].
  - intros n Hn Hlt. by destruct (Hcop n Hn Hlt) as (_ & ? & _).
  - intros va Hva. set (n := va / PGSIZE). set (o := va mod PGSIZE).
    assert (Hvo : va = PGSIZE * n + o) by (by apply Z.div_mod).
    assert (Ho : 0 ≤ o < PGSIZE) by (by apply Z.mod_pos_bound).
    assert (Hn : 0 ≤ n) by (by apply Z.div_pos; [lia|]).
    assert (Hvn : vpage n) by (unfold vpage, KERNBASE, PGSIZE in *; lia).
    destruct (Hcop n Hn ltac:(lia)) as (Hp & _ & Hb). rewrite Hvo, !translate_ent, Hp by done.
    rewrite (Hpres n Hn) by lia. do 2 eexists. split_and!; [done|done|by apply Hb].
  - intros n Hn Hlt. apply Hnone. unfold PGSIZE in *. lia.
Qed.

(** An address space with one user page, at page 0, and 2000 free pages. *)
Definition ex_end : Z := KERNLINK + PGSIZE.
Definition ex_page (i : Z) : Z := KERNBASE + 0x200000 + i * PGSIZE.
Definition ex_free : list Z := page_run (ex_page 3) 2000.
Definition ex_pool (ps : list Z) : kmemst :=
  foldr kfreed {| use_lock := true; freelist := 0; kend := ex_end; bytes := store32 (ex_page 2) 42 (λ _, 0) |} ps.
Definition ex_dir : kmemst :=
  (ex_pool ex_free) <| bytes ::= store32 (ex_page 0 + 4 * 0) (mk_pte (ex_page 1) 6) |>.
Definition ex_kmem : kmemst := set_word ex_dir 0 (ex_page 1) (mk_pte (ex_page 2) 6).
Definition ex_kernel : kernel :=
  kernel0 <| kmem := ex_kmem |> <| kvm ::= λ v, v <| kdata := KERNLINK + PGSIZE |> |>.

Lemma ex_page_ok i : 0 ≤ i < 3000 → page_ok ex_end (ex_page i).
Proof.
  intros Hi. unfold page_ok, ex_end, ex_page, KERNLINK, KERNBASE, EXTMEM, PHYSTOP, PGSIZE.
  split_and!; [Z.div_mod_to_equations|..]; lia.
Qed.

Lemma ex_free_elem v : v ∈ ex_free → ∃ i, 3 ≤ i < 2003 ∧ v = ex_page i.
Proof.
  intros (i & Hi & ->)%page_run_elem. exists (3 + Z.of_nat i). unfold ex_page, PGSIZE. lia.
Qed.

Lemma page_run_nodup p n : NoDup (page_run p n).
Proof.
  revert p. induction n as [|n IH]; intros p; [constructor|]. cbn [page_run]. apply NoDup_cons. split; [|done].
  intros (i & _ & Hi)%page_run_elem. unfold PGSIZE in Hi. lia.
Qed.

Lemma ex_pool_ok ps :
  NoDup ps → Forall (page_ok ex_end) ps →
  kend (ex_pool ps) = ex_end ∧ freelist_ok (ex_pool ps) ps ∧
  same_but ps (store32 (ex_page 2) 42 (λ _, 0)) (bytes (ex_pool ps)).
Proof.
  induction ps as [|p ps IH]; intros Hnd Hp.
  { split_and!; [done| |done]. split_and!; [constructor|constructor|by apply Forall_nil]. }
  apply NoDup_cons in Hnd as [Hin Hnd]. apply Forall_cons in Hp as [Hpp Hp].
  destruct (IH Hnd Hp) as (Hk & Hf & Hs). split_and!; [done|..].
  - change (ex_pool (p :: ps)) with (kfreed p (ex_pool ps)). apply kfreed_ok; [done|by rewrite Hk|done].
  - change (ex_pool (p :: ps)) with (kfreed p (ex_pool ps)). eapply (same_but_trans _ ps [p]); [exact Hs| |set_solver|set_solver].
    intros a Hna. apply kfreed_other. apply (Hna p). set_solver.
Qed.

Lemma ex_free_ok : NoDup ex_free ∧ Forall (page_ok ex_end) ex_free.
Proof.
  split; [apply page_run_nodup|]. apply Forall_forall. intros v (i & Hi & ->)%ex_free_elem. apply ex_page_ok. lia.
Qed.

Lemma ex_page_inj i j : ex_page i = ex_page j → i = j.
Proof. unfold ex_page, PGSIZE. lia. Qed.

Lemma ex_not_free i : 0 ≤ i < 3 → ex_page i ∉ ex_free.
Proof. intros Hi (j & Hj & Hij%ex_page_inj)%ex_free_elem. lia. Qed.

(** The words of the first two pages are zero. *)
Lemma ex_word i x : 0 ≤ i < 2 → 0 ≤ x < 1024 → word (bytes (ex_pool ex_free)) (ex_page i) x = 0.
Proof.
  intros Hi Hx. destruct ex_free_ok as [Hnd Hp]. destruct (ex_pool_ok ex_free Hnd Hp) as (_ & _ & Hs).
  rewrite (same_word ex_end _ _ _ _ _ Hs); [|done|apply ex_page_ok; lia|apply ex_not_free; lia|done].
  unfold word, load32, store32, ex_page, PGSIZE. repeat (destruct (_ && _) eqn:E; [lia|clear E]). done.
Qed.

Lemma ex_nodup : NoDup ([ex_page 0; ex_page 1; ex_page 2] ++ ex_free).
Proof.
  destruct ex_free_ok as [Hnd _]. apply NoDup_app. split_and!; [| |done].
  - repeat (apply NoDup_cons; split; [intros Hin; repeat (apply elem_of_cons in Hin as [Hin%ex_page_inj|Hin]; [done|]);
      by apply not_elem_of_nil in Hin|]). constructor.
  - intros v Hv. repeat (apply elem_of_cons in Hv as [->|Hv]; [apply ex_not_free; lia|]). by apply not_elem_of_nil in Hv.
Qed.

(** Over any memory with these free pages and empty first pages. *)
Lemma ex_build k l d t p :
  kend k = ex_end → freelist_ok k l → page_ok ex_end d → page_ok ex_end t → page_ok ex_end p →
  NoDup ([d; t; p] ++ l) → (∀ x, 0 ≤ x < 1024 → word (bytes k) d x = 0 ∧ word (bytes k) t x = 0) →
  let k1 := k <| bytes ::= store32 (d + 4 * 0) (mk_pte t 6) |> in
  let k2 := set_word k1 0 t (mk_pte p 6) in
  aspace ex_end k2 d [t] [p] [] l ∧
  (∀ n, vpage n → ent (bytes k2) d n = if decide (n = 0) then mk_pte p 6 else 0).
Proof.
  intros Hk Hf Hd Ht Hp Hnd Hz k1 k2. assert (He : kend_ok ex_end) by done.
  destruct (aspace_new ex_end k d [t; p] l Hk He Hf) as [Ha0 He0]; [by intros x Hx; apply Hz|exact Hnd|rewrite !Forall_cons; split_and!; [done..|by apply Forall_nil]|].
  destruct (mk_pte_ok ex_end t 6 He Ht) as (Hpg1 & Hpr1 & Hu1 & _); [done|].
  destruct (mk_pte_ok ex_end p 6 He Hp) as (_ & _ & Hu2 & _); [done|].
  destruct (aspace_table ex_end k d [] [] [p] l t 0 (mk_pte t 6) Ha0) as (Ha1 & Ht1 & He1 & _);
    [done|unfold tab; by rewrite (proj1 (Hz 0 ltac:(done)))|by intros x Hx; apply Hz|done|done|done|].
  fold k1 in Ha1, Ht1, He1.
  split.
  - apply (aspace_map ex_end k1 d [t] [] [] l 0 t p 6 Ha1); [done|exact Ht1| |done]. rewrite He1, He0 by done. done.
  - intros n Hn. unfold k2.
    rewrite (set_word_ent ex_end k1 d [t] l 0 t (mk_pte p 6) (as_pdir _ _ _ _ _ _ _ Ha1) ltac:(done) Ht1 Hu2 n Hn).
    case_decide; [done|]. by rewrite He1, He0 by done.
Qed.

Lemma ex_space :
  aspace ex_end ex_kmem (ex_page 0) [ex_page 1] [ex_page 2] [] ex_free ∧
  (∀ n, vpage n → ent (bytes ex_kmem) (ex_page 0) n = if decide (n = 0) then mk_pte (ex_page 2) 6 else 0).
Proof.
  destruct ex_free_ok as [Hnd Hp]. destruct (ex_pool_ok ex_free Hnd Hp) as (Hk & Hf & _).
  apply (ex_build (ex_pool ex_free) ex_free (ex_page 0) (ex_page 1) (ex_page 2) Hk Hf);
    [apply ex_page_ok; lia..|exact ex_nodup|].
  intros x Hx. split; apply ex_word; lia.
Qed.

Lemma page_run_length p n : length (page_run p n) = n.
Proof. revert p. induction n as [|n IH]; intros p; [done|]. cbn [page_run length]. by rewrite IH. Qed.

Lemma ex_many sz : sz ≤ 900 * PGSIZE → ¬ few_pages ex_free sz.
Proof. intros Hsz. unfold few_pages, ex_free. rewrite page_run_length. unfold PGSIZE in *. lia. Qed.

#[local] Opaque ex_kmem ex_free.

(** The page is copied. *)
Lemma copyuvm_spec_witness :
  ∃ r s', copyuvm (ex_page 0) PGSIZE ex_kernel = Ok r s' ∧
    r ≠ 0 ∧ ∃ a a', translate (bytes ex_kmem) (ex_page 0) 0 = Some a ∧
        translate (bytes (kmem s')) r 0 = Some a' ∧ bytes (kmem s') a' = bytes ex_kmem a.
Proof.
  destruct ex_space as [Ha He].
  destruct (copyuvm_spec ex_kernel ex_end (ex_page 0) [ex_page 1] [ex_page 2] [] ex_free PGSIZE)
    as (r & s' & Hr & _ & _ & Hcase).
  - apply not_elem_of_nil.
  - by split; [split|].
  - exact Ha.
  - by split.
  - intros n Hn Hlt. unfold PGSIZE in Hlt. assert (n = 0) as -> by lia.
    change (bytes (kmem ex_kernel)) with (bytes ex_kmem). rewrite He by done. by vm_compute.
  - exists r, s'. split; [exact Hr|]. destruct Hcase as [(H0 & Hfew & _)|[H0 (Tb' & U' & l' & _ & _ & _ & _ & _ & Hva & _)]].
    + exfalso. by apply (ex_many PGSIZE).
    + split; [exact H0|]. apply (Hva 0). by split.
Defined.
