(* ===== verification/Growvm.v ===== *)
(** * Growing and shrinking an address space: allocuvm and deallocuvm of vm.c

    [allocuvm] gives a process pages of zeros between its old and its new size;
    when memory runs out it takes back what it has given.  [deallocuvm] frees
    exactly the pages between the two sizes. *)

From stdpp Require Import list_tactics.
From S2P Require Import Prelude Kernel Cstring Kalloc Vm Pagetab Copyvm.

Definition zero_page (m : memory) (p : Z) : Prop := ∀ a, on_page p a → m a = 0.

(** The user pages [n0 .. i) of [d] have been made, from the pages [P], with
    the tables [N]; the pages [Y] have been taken and not mapped yet; everything
    else is as in [m0]. *)
Record growing (e : Z) (m0 : memory) (d : Z) (Tb0 U0 X l0 : list Z) (n0 i : Z)
    (k : kmemst) (N P Y l : list Z) : Prop := {
  gw_space : aspace e k d (N ++ Tb0) (P ++ U0) (Y ++ X) l;
  gw_pages : l0 ≡ₚ N ++ P ++ Y ++ l;
  gw_same : same_but (d :: Tb0 ++ l0) m0 (bytes k);
  gw_user : upages m0 d ≡ₚ U0;
  gw_count : Z.of_nat (length P) = i - n0;
  gw_new : ∀ n, n0 ≤ n < i → ∃ p, p ∈ P ∧ ent (bytes k) d n = mk_pte p 6 ∧ zero_page (bytes k) p;
  gw_old : ∀ n, vpage n → ¬ (n0 ≤ n < i) → ent (bytes k) d n = ent m0 d n }.

Lemma zero_page_same e S m m' p :
  same_but S m m' → Forall (page_ok e) S → page_ok e p → p ∉ S → zero_page m p → zero_page m' p.
Proof. intros Hs HS Hp Hin Hz a Ha. rewrite (same_page e S m m' p a); [by apply Hz|done..]. Qed.

Lemma zero_page_memset p m : zero_page (memset p 0 PGSIZE m) p.
Proof. intros a Ha. rewrite memset_correct by done. unfold on_page in Ha. by destruct (_ && _) eqn:E; [|lia]. Qed.

#[local] Opaque acquire release tabs upages ex_kmem ex_free.

Section Grow.
Context (s0 : kernel) (Hl0 : can_lock LkKmem s0).
#[local] Abbreviation at_ k := (wth s0 k).

(** [deallocuvm] between two sizes. *)
Lemma deallocuvm_run e k d Tb U X l oldsz newsz :
  aspace e k d Tb U X l → 0 ≤ newsz < oldsz → oldsz ≤ KERNBASE →
  ∃ k' U' F, deallocuvm d oldsz newsz (at_ k) = Ok newsz (at_ k') ∧ U ≡ₚ F ++ U' ∧
    aspace e k' d Tb U' X (F ++ l) ∧
    unmapped (bytes k) (bytes k') d (PGROUNDUP newsz / PGSIZE) oldsz ∧ same_but (Tb ++ F) (bytes k) (bytes k').
Proof using Hl0.
  intros Ha Hsz Hk. unfold deallocuvm. rewrite (proj2 (Z.leb_gt _ _)) by lia.
  destruct (PGROUNDUP_bounds newsz) as [Hm Hb]; [lia|unfold KERNBASE, PGSIZE in *; lia|].
  set (a := PGROUNDUP newsz) in *. set (n := a / PGSIZE).
  assert (Hn : a = PGSIZE * n) by (unfold n, PGSIZE in *; Z.div_mod_to_equations; lia).
  rewrite Hn. destruct (dealloc_run s0 Hl0 e d Tb X oldsz (S (Z.to_nat ((oldsz - PGSIZE * n) / PGSIZE + 1))) k U l n Ha)
    as (k' & U' & F & Hr & HU & Ha' & Hun & Hs); [unfold PGSIZE in *; lia|lia|lia| |].
  { assert (- PGSIZE < oldsz - PGSIZE * n) by lia. unfold PGSIZE in *. Z.div_mod_to_equations. lia. }
  exists k', U', F. split_and!; try done. by rewrite (bind_ok _ _ _ _ _ Hr).
Qed.

(** A failed growth: the new pages go back, the tables stay. *)
Lemma grow_abort e m0 d Tb0 U0 X l0 n0 i k N P Y l oldsz newsz :
  growing e m0 d Tb0 U0 X l0 n0 i k N P Y l → 0 ≤ oldsz < newsz → newsz ≤ KERNBASE → n0 = PGROUNDUP oldsz / PGSIZE →
  PGSIZE * i < newsz + PGSIZE → (∀ n, n0 ≤ n → PGSIZE * n < newsz → ent m0 d n = 0) →
  ∃ k' F, deallocuvm d newsz oldsz (at_ k) = Ok oldsz (at_ k') ∧ F ≡ₚ P ∧
    aspace e k' d (N ++ Tb0) U0 (Y ++ X) (F ++ l) ∧ (∀ n, vpage n → ent (bytes k') d n = ent m0 d n) ∧
    same_but (d :: Tb0 ++ l0) m0 (bytes k').
Proof using Hl0.
  intros [Ha Hl Hs Hu0 Hcnt Hnew Hold] Hsz Hk Hn0 Hi Hnp.
  assert (Hn0' : 0 ≤ n0).
  { subst n0. destruct (PGROUNDUP_bounds oldsz) as [_ ?]; [lia|unfold KERNBASE, PGSIZE in *; lia|].
    apply Z.div_pos; [lia|done]. }
  destruct (deallocuvm_run e k d (N ++ Tb0) (P ++ U0) (Y ++ X) l newsz oldsz Ha Hsz Hk) as (k' & U' & F & Hr & HU & Ha' & Hun & Hs').
  rewrite <-Hn0 in Hun.
  assert (Hent : ∀ n, vpage n → ent (bytes k') d n = ent m0 d n).
  { intros n Hn. rewrite Hun by done. destruct (decide (n0 ≤ n < i)) as [Hin|Hout].
    - destruct (Hnew n Hin) as (p & HpP & He & _).
      assert (Hpp : page_ok e p) by (apply (as_page _ _ _ _ _ _ _ _ Ha); set_solver).
      destruct (mk_pte_ok e p 6 (as_end _ _ _ _ _ _ _ Ha) Hpp ltac:(done)) as (_ & Hpr & _).
      assert (Hlt : PGSIZE * n < newsz) by (unfold PGSIZE in *; lia).
      rewrite He, Hpr, (Hnp n) by (lia || done). by rewrite decide_True by (split_and!; [lia|done|done]).
    - rewrite Hold by done. case_decide as Hc; [|done]. destruct Hc as (Hc1 & Hc2 & Hc3). by rewrite Hnp. }
  assert (HU' : U' ≡ₚ U0).
  { rewrite <-(as_user _ _ _ _ _ _ _ Ha'), <-Hu0. erewrite upages_ext; [done|]. intros n Hn. unfold upage.
    by rewrite Hent by (unfold vpage, NUSER in *; lia). }
  assert (HF : F ≡ₚ P). { rewrite HU' in HU. symmetry. by apply (Permutation_app_inv_r U0). }
  exists k', F. split_and!; try done.
  - eapply aspace_perm; [exact Ha'|done|done|done].
  - eapply same_but_trans; [exact Hs|exact Hs'|done|]. intros q Hq. apply elem_of_app in Hq as [Hq|Hq].
    + apply elem_of_cons. right. apply elem_of_app in Hq as [Hq|Hq]; apply elem_of_app; [right; rewrite Hl; set_solver|by left].
    + apply elem_of_cons. right. apply elem_of_app. right. rewrite HF in Hq. rewrite Hl. set_solver.
Qed.

(** One page of zeros more. *)
Lemma growing_step e m0 d Tb0 U0 X l0 n0 i k N P l k1 k3 N' p l1 l2 :
  growing e m0 d Tb0 U0 X l0 n0 i k N P [] l → 0 ≤ n0 ≤ i → i < NUSER → l = p :: l1 → l1 = N' ++ l2 →
  aspace e k1 d (N ++ Tb0) (P ++ U0) (p :: X) l1 → bytes k1 = bytes k →
  let m2 := memset p 0 PGSIZE (bytes k1) in
  aspace e k3 d (N' ++ N ++ Tb0) (p :: P ++ U0) X l2 → same_but (d :: N' ++ N ++ Tb0) m2 (bytes k3) →
  (∀ n', vpage n' → ent (bytes k3) d n' = if decide (n' = i) then mk_pte p 6 else ent (bytes k) d n') →
  growing e m0 d Tb0 U0 X l0 n0 (i + 1) k3 (N' ++ N) (p :: P) [] l2.
Proof.
  intros [Ha Hl Hs Hu0 Hcnt Hnew Hold] Hi Hiu -> -> Ha1 Hb1 m2 Ha3 Hs3 Hent.
  pose proof (as_nodup _ _ _ _ _ _ _ Ha3) as Hnd3.
  assert (Hdj : ∀ q, q ∈ d :: N' ++ N ++ Tb0 → q ∉ p :: P).
  { assert (Hnd' : NoDup ((d :: N' ++ N ++ Tb0) ++ (p :: P) ++ U0 ++ X ++ l2)) by (eapply NoDup_perm; [exact Hnd3|solve_Permutation]).
    apply NoDup_app in Hnd' as (_ & Hdisj & _). set_solver. }
  assert (HpP : p ∉ P).
  { assert (Hnd' : NoDup (p :: P ++ d :: N' ++ N ++ Tb0 ++ U0 ++ X ++ l2)) by (eapply NoDup_perm; [exact Hnd3|solve_Permutation]).
    apply NoDup_cons in Hnd'. set_solver. }
  assert (Hpg : ∀ q, q ∈ d :: N' ++ N ++ Tb0 ++ p :: P → page_ok e q).
  { intros q Hq. apply (as_page _ _ _ _ _ _ _ _ Ha3). set_solver. }
  assert (Hs2 : same_but [p] (bytes k) m2) by (rewrite <-Hb1; apply memset_same_but).
  assert (Hz : ∀ q, q ∈ p :: P → zero_page m2 q → zero_page (bytes k3) q).
  { intros q Hq. apply (zero_page_same e (d :: N' ++ N ++ Tb0)); [done| |apply Hpg; set_solver|].
    - apply Forall_forall. intros r Hr. apply Hpg. set_solver.
    - intros Hin. by apply (Hdj q). }
  split; try done.
  - by rewrite <-app_assoc.
  - rewrite Hl. solve_Permutation.
  - eapply (same_but_trans _ _ (p :: d :: N' ++ N ++ Tb0)); [exact Hs| |done|].
    + eapply same_but_trans; [exact Hs2|exact Hs3|set_solver|set_solver].
    + intros q Hq. rewrite elem_of_cons, elem_of_app, Hl. set_solver.
  - simpl. lia.
  - intros n Hn. assert (vpage n) by (unfold vpage, NUSER in *; lia). rewrite Hent by done.
    destruct (decide (n = i)) as [->|Hne].
    + exists p. split_and!; [set_solver|done|]. apply Hz; [set_solver|]. apply zero_page_memset.
    + destruct (Hnew n ltac:(lia)) as (q & Hq & He & Hzq). exists q. split_and!; [set_solver|done|].
      apply Hz; [set_solver|]. eapply (zero_page_same e [p]); [exact Hs2|by constructor; [apply Hpg; set_solver|apply Forall_nil]|
        apply Hpg; set_solver|set_solver|done].
  - intros n Hn Hout. rewrite Hent, decide_False by (done || lia). apply Hold; [done|lia].
Qed.

(** What a failed [allocuvm] leaves: its pages are free again, but for the tables it made. *)
Definition grow_failed e m0 d Tb0 U0 X l0 sz (k' : kmemst) : Prop :=
  few_pages l0 sz ∧
  same_but (d :: Tb0 ++ l0) m0 (bytes k') ∧
  ∃ N' l', l0 ≡ₚ N' ++ l' ∧ aspace e k' d (N' ++ Tb0) U0 X l' ∧ ∀ n, vpage n → ent (bytes k') d n = ent m0 d n.

Section Loop.
Context (e : Z) (m0 : memory) (d : Z) (Tb0 U0 X l0 : list Z) (n0 oldsz newsz : Z).
Hypothesis Ho : 0 ≤ oldsz.
Hypothesis Hnk : newsz < KERNBASE.
Hypothesis Hn0 : PGROUNDUP oldsz = PGSIZE * n0.
Hypothesis Hon : oldsz ≤ PGSIZE * n0.
Hypothesis Hz : ∀ n, n0 ≤ n → PGSIZE * n < newsz → ent m0 d n = 0.

#[local] Abbreviation grown i k N P Y l := (growing e m0 d Tb0 U0 X l0 n0 i k N P Y l).

Lemma grow_few i k N P Y :
  PGSIZE * i < newsz → (length Y ≤ 1)%nat → grown i k N P Y [] → few_pages l0 (newsz - PGSIZE * n0).
Proof.
  intros Hlt HY [Ha Hl _ _ Hcnt _ _]. pose proof (as_tabs_length _ _ _ _ _ _ _ Ha) as HN. rewrite length_app in HN.
  unfold few_pages. rewrite Hl, !length_app. cbn [length]. unfold PGSIZE in *. lia.
Qed.

(** Both exits of a failing turn. *)
Lemma grow_exit i k N P :
  n0 ≤ i → PGSIZE * i < newsz → grown i k N P [] [] →
  ∃ k', (deallocuvm d newsz oldsz ;; ret 0) (at_ k) = Ok 0 (at_ k') ∧ grow_failed e m0 d Tb0 U0 X l0 (newsz - PGSIZE * n0) k'.
Proof using Hl0 Ho Hnk Hn0 Hon Hz.
  intros Hi Hlt Hg. pose proof (gw_pages _ _ _ _ _ _ _ _ _ _ _ _ _ _ Hg) as Hl.
  destruct (grow_abort e m0 d Tb0 U0 X l0 n0 i k N P [] [] oldsz newsz Hg) as (k' & F & Hr & HF & Ha & He & Hs);
    [unfold PGSIZE in *; lia|lia|by rewrite Hn0, Z.mul_comm, Z.div_mul|unfold PGSIZE in *; lia|done|].
  exists k'. rewrite (bind_ok _ _ _ _ _ Hr). split; [done|]. split_and!; [eapply grow_few; [exact Hlt| |exact Hg]; simpl; lia|done|]. exists N, (F ++ []).
  split_and!; [|done|done]. by rewrite HF, Hl.
Qed.

Lemma grow_exit_page i k N P p :
  n0 ≤ i → PGSIZE * i < newsz → grown i k N P [p] [] →
  ∃ k', (deallocuvm d newsz oldsz ;; kfree p ;; ret 0) (at_ k) = Ok 0 (at_ k') ∧ grow_failed e m0 d Tb0 U0 X l0 (newsz - PGSIZE * n0) k'.
Proof using Hl0 Ho Hnk Hn0 Hon Hz.
  intros Hi Hlt Hg. pose proof (gw_pages _ _ _ _ _ _ _ _ _ _ _ _ _ _ Hg) as Hl.
  destruct (grow_abort e m0 d Tb0 U0 X l0 n0 i k N P [p] [] oldsz newsz Hg) as (k1 & F & Hr & HF & Ha & He & Hs);
    [unfold PGSIZE in *; lia|lia|by rewrite Hn0, Z.mul_comm, Z.div_mul|unfold PGSIZE in *; lia|done|].
  destruct (kfree_run s0 Hl0 e k1 d (N ++ Tb0) U0 X p (F ++ []) Ha) as (k' & Hr' & Ha' & Hs' & He').
  exists k'. rewrite (bind_ok _ _ _ _ _ Hr), (bind_ok _ _ _ _ _ Hr'). split; [done|]. split_and!.
  - eapply grow_few; [exact Hlt| |exact Hg]; simpl; lia.
  - eapply same_but_trans; [exact Hs|exact Hs'|done|]. intros q Hq. rewrite elem_of_cons, elem_of_app, Hl. set_solver.
  - exists N, (p :: F ++ []). split_and!; [rewrite HF, Hl; solve_Permutation|done|].
    intros n Hn. by rewrite He', He.
Qed.

(** The loop of [allocuvm]: it makes all the pages, or takes them back. *)
Lemma grow_run fuel : ∀ i k N P l,
  grown i k N P [] l → 0 ≤ n0 ≤ i → (0 < fuel)%nat → (newsz - PGSIZE * i) / PGSIZE + 1 < Z.of_nat fuel →
  (i = n0 ∨ PGSIZE * i < newsz + PGSIZE) →
  ∃ r k', allocuvm_loop fuel d (PGSIZE * i) oldsz newsz (at_ k) = Ok r (at_ k') ∧
    ((r = 0 ∧ grow_failed e m0 d Tb0 U0 X l0 (newsz - PGSIZE * n0) k') ∨
     (r = newsz ∧ ∃ i' N' P' l', grown i' k' N' P' [] l' ∧ newsz ≤ PGSIZE * i' ∧
        (i' = n0 ∨ PGSIZE * i' < newsz + PGSIZE))).
Proof using All.
  induction fuel as [|fuel IH]; [lia|]. intros i k N P l Hg Hi _ Hf Hb. cbn [allocuvm_loop].
  destruct (Z.ltb_spec (PGSIZE * i) newsz) as [Hlt|Hge].
  2: { exists newsz, k. split; [done|]. right. split; [done|]. by exists i, N, P, l. }
  assert (Hiu : 0 ≤ i < NUSER) by (unfold NUSER, KERNBASE, PGSIZE in *; lia).
  assert (Hvi : vpage i) by (unfold vpage, NUSER in *; lia).
  pose proof (gw_space _ _ _ _ _ _ _ _ _ _ _ _ _ _ Hg) as Ha. cbn [app] in Ha.
  destruct l as [|p l1].
  { rewrite (bind_ok _ _ _ _ _ (kalloc_none s0 Hl0 k (as_free _ _ _ _ _ _ _ Ha))), Z.eqb_refl.
    destruct (grow_exit i k N P (proj2 Hi) Hlt Hg) as (k' & Hr & Hx). exists 0, k'. split; [done|by left]. }
  destruct (kalloc_some s0 Hl0 e k d _ _ X p l1 Ha) as (k1 & Hr1 & Ha1 & Hb1 & Hp0 & Hpp).
  rewrite (bind_ok _ _ _ _ _ Hr1), (proj2 (Z.eqb_neq p 0) Hp0).
  set (m2 := memset p 0 PGSIZE (bytes k1)).
  assert (Hs2 : same_but [p] (bytes k1) m2) by apply memset_same_but.
  destruct (aspace_write e k1 d _ _ (p :: X) l1 [p] m2 Ha1 Hs2) as [Ha2 He2]; [set_solver|].
  set (k2 := k1 <| bytes := m2 |>) in *.
  assert (Hmv : kmemset p 0 PGSIZE (at_ k1) = Ok tt (at_ k2)) by apply kmemset_run.
  rewrite (bind_ok _ _ _ _ _ Hmv). clear Hmv.
  assert (Hent2 : ∀ n, vpage n → ent (bytes k2) d n = ent (bytes k) d n) by (intros n Hn; rewrite <-Hb1; by apply He2).
  assert (Hg2 : grown i k2 N P [p] l1).
  { destruct Hg as [_ Hl Hs Hu Hcnt Hnew Hold]. split; try done.
    - eapply same_but_trans; [exact Hs|rewrite <-Hb1; exact Hs2|done|].
      intros q Hq. rewrite elem_of_cons, elem_of_app, Hl. set_solver.
    - intros n Hn. destruct (Hnew n Hn) as (q & Hq & He & Hzq). exists q. rewrite Hent2 by (unfold vpage, NUSER in *; lia).
      split_and!; [done|done|]. eapply (zero_page_same e [p] (bytes k1)); [exact Hs2|by constructor|..].
      + apply (as_page _ _ _ _ _ _ _ _ Ha). set_solver.
      + pose proof (as_nodup _ _ _ _ _ _ _ Ha) as Hnd.
        assert (Hnd' : NoDup (p :: P ++ d :: N ++ Tb0 ++ U0 ++ X ++ l1)) by (eapply NoDup_perm; [exact Hnd|solve_Permutation]).
        apply NoDup_cons in Hnd'. set_solver.
      + by rewrite Hb1.
    - intros n Hn Hout. rewrite Hent2 by done. by apply Hold. }
  destruct (map_user_run s0 Hl0 e k2 d _ _ X p l1 i 6 Ha2 Hiu) as [[-> Hr3]|(k3 & N' & l2 & Hr3 & Hl2 & Ha3 & He3 & Hs3)].
  { rewrite Hent2 by done. rewrite (gw_old _ _ _ _ _ _ _ _ _ _ _ _ _ _ Hg) by (done || lia). rewrite Hz by (lia || done). done. }
  { done. }
  - change (Z.lor PTE_W PTE_U) with 6. rewrite (bind_ok _ _ _ _ _ Hr3). change (-1 <? 0) with true. cbv iota.
    destruct (grow_exit_page i k2 N P p (proj2 Hi) Hlt Hg2) as (k' & Hr & Hx). exists 0, k'. split; [done|by left].
  - change (Z.lor PTE_W PTE_U) with 6. rewrite (bind_ok _ _ _ _ _ Hr3). change (0 <? 0) with false. cbv iota.
    rewrite u32_small by (unfold is_u32, NUSER, PGSIZE in *; lia).
    replace (PGSIZE * i + PGSIZE) with (PGSIZE * (i + 1)) by lia.
    apply (IH (i + 1) k3 (N' ++ N) (p :: P) l2).
    + eapply (growing_step e m0 d Tb0 U0 X l0 n0 i k N P (p :: l1) k1 k3 N' p l1 l2); try done; [lia|].
      intros n' Hn'. rewrite He3 by done. case_decide; [done|by apply Hent2].
    + lia.
    + unfold PGSIZE in *. Z.div_mod_to_equations. lia.
    + unfold PGSIZE in *. Z.div_mod_to_equations. lia.
    + right. lia.
Qed.
End Loop.
End Grow.

(** ** Properties *)

(** [allocuvm] on the kernel's memory, from its first page on. *)
Lemma allocuvm_run s e d Tb U X l oldsz newsz :
  can_lock LkKmem s → aspace e (kmem s) d Tb U X l → 0 ≤ oldsz ≤ newsz → newsz < KERNBASE →
  let m := bytes (kmem s) in
  let n0 := PGROUNDUP oldsz / PGSIZE in
  (∀ n, PGROUNDUP oldsz ≤ PGSIZE * n < newsz → ent m d n = 0) →
  PGROUNDUP oldsz = PGSIZE * n0 ∧ oldsz ≤ PGSIZE * n0 < oldsz + PGSIZE ∧ 0 ≤ n0 ∧
  ∃ r k', allocuvm d oldsz newsz s = Ok r (wth s k') ∧
    ((r = 0 ∧ grow_failed e m d Tb U X l (newsz - PGROUNDUP oldsz) k') ∨
     (r = newsz ∧ ∃ i N P l', growing e m d Tb U X l n0 i k' N P [] l' ∧
        (∀ n, n0 ≤ n < i ↔ PGROUNDUP oldsz ≤ PGSIZE * n < newsz) ∧ (i = n0 ∨ PGSIZE * i < newsz + PGSIZE))).
Proof.
  intros Hlk Ha Ho Hk m n0 Hz.
  destruct (PGROUNDUP_bounds oldsz) as [Hm Hb]; [lia|unfold KERNBASE, PGSIZE in *; lia|].
  assert (Hn0 : PGROUNDUP oldsz = PGSIZE * n0) by (unfold n0, PGSIZE in *; Z.div_mod_to_equations; lia).
  assert (Hpos : 0 ≤ n0) by (apply Z.div_pos; [lia|done]).
  split_and!; [done|lia|lia|done|]. unfold allocuvm.
  rewrite (proj2 (Z.leb_gt _ _)), (proj2 (Z.ltb_ge _ _)) by lia.
  destruct (grow_run s Hlk e m d Tb U X l n0 oldsz newsz ltac:(lia) Hk Hn0 ltac:(lia))
    with (fuel := S (Z.to_nat ((newsz - PGROUNDUP oldsz) / PGSIZE + 1))) (i := n0) (k := kmem s) (N := @nil Z) (P := @nil Z) (l := l)
    as (r & k' & Hr & Hcase).
  - intros n Hn Hlt. apply Hz. unfold PGSIZE in *. lia.
  - split; try done; [by rewrite <-(as_user _ _ _ _ _ _ _ Ha)|simpl; lia|lia].
  - lia.
  - lia.
  - rewrite <-Hn0. assert (- PGSIZE < newsz - PGROUNDUP oldsz) by lia. unfold PGSIZE in *. Z.div_mod_to_equations. lia.
  - by left.
  - exists r, k'. rewrite wth_kmem, <-Hn0 in Hr. split; [done|].
    destruct Hcase as [?|[-> (i & N & P & l' & Hg & Hi & Hi')]]; [left; by rewrite Hn0|right]. split; [done|].
    exists i, N, P, l'. split_and!; [done| |done]. intros n. unfold PGSIZE in *. lia.
Qed.

(** [C15] Growing a process.  [allocuvm] changes nothing but the process's page
    directory and tables and pages that were free.  It returns 0, which happens only
    when too few pages are free; then no entry of the address space has changed
    and every page it took is free again except for page tables, which the
    process keeps.  Or it returns the new size:
    every page from the old size, rounded up, to the new one is mapped for the
    user to write, each to a page of its own, all of it zero; the entries of
    all other pages are as they were. *)
Theorem allocuvm_spec s e d Tb U X l oldsz newsz :
  can_lock LkKmem s → aspace e (kmem s) d Tb U X l → 0 ≤ oldsz ≤ newsz → newsz < KERNBASE →
  let m := bytes (kmem s) in
  (∀ n, PGROUNDUP oldsz ≤ PGSIZE * n < newsz → ent m d n = 0) →
  ∃ r s' N P l', allocuvm d oldsz newsz s = Ok r s' ∧ s' = s <| kmem := kmem s' |> ∧
    let m' := bytes (kmem s') in
    same_but (d :: Tb ++ l) m m' ∧ l ≡ₚ N ++ P ++ l' ∧ aspace e (kmem s') d (N ++ Tb) (P ++ U) X l' ∧
    ((r = 0 ∧ few_pages l (newsz - PGROUNDUP oldsz) ∧ P = [] ∧ ∀ n, vpage n → ent m' d n = ent m d n) ∨
     (r = newsz ∧
        (∀ n, PGROUNDUP oldsz ≤ PGSIZE * n < newsz → PTE_FLAGS (ent m' d n) = Z.lor PTE_P (Z.lor PTE_W PTE_U)) ∧
        (∀ va, PGROUNDUP oldsz ≤ va < newsz → ∃ a, translate m' d va = Some a ∧ m' a = 0) ∧
        (∀ n, vpage n → ¬ (PGROUNDUP oldsz ≤ PGSIZE * n < newsz) → ent m' d n = ent m d n))).
Proof.
  intros Hlk Ha Ho Hk m Hz.
  destruct (allocuvm_run s e d Tb U X l oldsz newsz Hlk Ha Ho Hk Hz) as (Hn0 & Hb & Hpos & r & k' & Hr & Hcase).
  destruct Hcase as [[-> (Hfew & Hs & N & l' & Hl & Ha' & He)]|[-> (i & N & P & l' & [Ha' Hl Hs _ _ Hnew Hold] & Hi & _)]].
  { exists 0, (wth s k'), N, [], l'. cbv zeta. split_and!; try done. by left. }
  exists newsz, (wth s k'), N, P, l'. cbv zeta. split_and!; try done. right. change (kmem (wth s k')) with k'.
  assert (Hnew' : ∀ n, PGROUNDUP oldsz ≤ PGSIZE * n < newsz → ∃ p, ent (bytes k') d n = mk_pte p 6 ∧
    present (mk_pte p 6) = true ∧ pte_page (mk_pte p 6) = p ∧ PTE_FLAGS (mk_pte p 6) = 7 ∧ zero_page (bytes k') p).
  { intros n Hn%Hi. destruct (Hnew n Hn) as (p & Hp & He & Hzp). exists p.
    destruct (mk_pte_ok e p 6 (as_end _ _ _ _ _ _ _ Ha)) as (H1 & H2 & _ & H3); [|done|by split_and!].
    apply (as_page _ _ _ _ _ _ _ _ Ha'). set_solver. }
  split_and!; [done|..].
  - intros n Hn. destruct (Hnew' n Hn) as (p & He & _ & _ & Hfl & _). by rewrite He.
  - intros va Hva. set (n := va / PGSIZE). set (o := va mod PGSIZE).
    assert (Hvo : va = PGSIZE * n + o) by (by apply Z.div_mod).
    assert (Hoff : 0 ≤ o < PGSIZE) by (by apply Z.mod_pos_bound).
    assert (Hvn : vpage n) by (unfold vpage, KERNBASE, PGSIZE in *; lia).
    destruct (Hnew' n) as (p & He & Hpr & Hpg & _ & Hzp); [unfold PGSIZE in *; lia|].
    rewrite Hvo, translate_ent, He, Hpr, Hpg by done. exists (p + o). split; [done|]. apply Hzp. unfold on_page. lia.
  - intros n Hn Hout. apply Hold; [done|]. by rewrite Hi.
Qed.

Lemma ex_blank n : PGROUNDUP PGSIZE ≤ PGSIZE * n < 2 * PGSIZE → ent (bytes (kmem ex_kernel)) (ex_page 0) n = 0.
Proof.
  change (PGROUNDUP PGSIZE) with 4096. intros Hn. unfold PGSIZE in Hn.
  change (bytes (kmem ex_kernel)) with (bytes ex_kmem). destruct ex_space as [_ He].
  rewrite He by (unfold vpage; lia). apply decide_False. lia.
Qed.

(** One more page, and a byte of it. *)
Lemma allocuvm_spec_witness :
  ∃ r s', allocuvm (ex_page 0) PGSIZE (2 * PGSIZE) ex_kernel = Ok r s' ∧
    r = 2 * PGSIZE ∧ ∃ a, translate (bytes (kmem s')) (ex_page 0) 5000 = Some a ∧ bytes (kmem s') a = 0.
Proof.
  destruct ex_space as [Ha He].
  destruct (allocuvm_spec ex_kernel ex_end (ex_page 0) [ex_page 1] [ex_page 2] [] ex_free PGSIZE (2 * PGSIZE))
    as (r & s' & N & P & l' & Hr & _ & _ & _ & _ & Hcase).
  - apply not_elem_of_nil.
  - exact Ha.
  - by split.
  - done.
  - exact ex_blank.
  - exists r, s'. split; [exact Hr|]. destruct Hcase as [(_ & Hfew & _)|(H2 & _ & Hva & _)].
    + exfalso. revert Hfew. by apply ex_many.
    + split; [exact H2|]. apply Hva. by split.
Defined.

(** [C16] Shrinking undoes growing: after [allocuvm] from [oldsz] to [newsz],
    [deallocuvm] from [newsz] to [oldsz] returns [oldsz] and every entry of the
    address space is what it was before; the pages that were free are free
    again, except for the page tables made for the new pages. *)
Theorem grow_shrink s e d Tb U X l oldsz newsz s' :
  can_lock LkKmem s → aspace e (kmem s) d Tb U X l → 0 ≤ oldsz < newsz → newsz < KERNBASE →
  (∀ n, PGROUNDUP oldsz ≤ PGSIZE * n < newsz → ent (bytes (kmem s)) d n = 0) →
  allocuvm d oldsz newsz s = Ok newsz s' →
  ∃ s'' N l', deallocuvm d newsz oldsz s' = Ok oldsz s'' ∧ l ≡ₚ N ++ l' ∧
    aspace e (kmem s'') d (N ++ Tb) U X l' ∧ same_but (d :: Tb ++ l) (bytes (kmem s)) (bytes (kmem s'')) ∧
    ∀ n, vpage n → ent (bytes (kmem s'')) d n = ent (bytes (kmem s)) d n.
Proof.
  intros Hlk Ha Ho Hk Hz Hal.
  destruct (allocuvm_run s e d Tb U X l oldsz newsz Hlk Ha ltac:(lia) Hk Hz) as (Hn0 & Hb & Hpos & r & k' & Hr & Hcase).
  rewrite Hal in Hr. apply Ok_inj in Hr as [<- ->].
  destruct Hcase as [[-> _]|[_ (i & N & P & l' & Hg & Hi & Hi')]]; [lia|].
  destruct (grow_abort s Hlk _ _ _ _ _ _ _ _ _ _ _ _ _ _ oldsz newsz Hg) as (k'' & F & Hr & HF & Ha' & He & Hs);
    [lia|lia|done|unfold PGSIZE in *; lia|intros n Hn Hlt; apply Hz; unfold PGSIZE in *; lia|].
  exists (wth s k''), N, (F ++ l'). split_and!; try done.
  rewrite HF. apply (gw_pages _ _ _ _ _ _ _ _ _ _ _ _ _ _ Hg).
Qed.

Lemma ex_grown : ∃ s', allocuvm (ex_page 0) PGSIZE (2 * PGSIZE) ex_kernel = Ok (2 * PGSIZE) s'.
Proof.
  destruct ex_space as [Ha He].
  destruct (allocuvm_run ex_kernel ex_end (ex_page 0) [ex_page 1] [ex_page 2] [] ex_free PGSIZE (2 * PGSIZE))
    as (_ & _ & _ & r & k' & Hr & Hcase); [apply not_elem_of_nil|exact Ha|by split|done| |].
  - exact ex_blank.
  - destruct Hcase as [(_ & Hfew & _)|[-> _]]; [|by eexists]. exfalso. revert Hfew. by apply ex_many.
Qed.

(** The second page goes. *)
Lemma grow_shrink_witness :
  ∃ s' s'', allocuvm (ex_page 0) PGSIZE (2 * PGSIZE) ex_kernel = Ok (2 * PGSIZE) s' ∧
    deallocuvm (ex_page 0) (2 * PGSIZE) PGSIZE s' = Ok PGSIZE s'' ∧
    ∀ n, vpage n → ent (bytes (kmem s'')) (ex_page 0) n = ent (bytes ex_kmem) (ex_page 0) n.
Proof.
  destruct ex_space as [Ha He]. destruct ex_grown as [s' Hal]. exists s'.
  destruct (grow_shrink ex_kernel ex_end (ex_page 0) [ex_page 1] [ex_page 2] [] ex_free PGSIZE (2 * PGSIZE) s')
    as (s'' & N & l' & Hr & _ & _ & _ & Hent).
  - apply not_elem_of_nil.
  - exact Ha.
  - by split.
  - done.
  - exact ex_blank.
  - exact Hal.
  - exists s''. split; [exact Hal|]. split; [exact Hr|exact Hent].
Defined.
