(* ===== verification/Screen.v ===== *)
(** * Printing: the output half of console.c

    [consputc] to the serial port and the screen, and [cprintf].  The scheduler
    prints too, so this comes before it; the input half is in Console.v. *)

From Stdlib Require Import Ascii String.
From S2P Require Import Prelude Kernel.
Open Scope Z_scope.

(** ** Characters *)

Definition chr (c : ascii) : Z := Z.of_N (N_of_ascii c).
Fixpoint str (s : string) : list Z :=
  match s with EmptyString => [] | String c s' => chr c :: str s' end.

Definition C (c : ascii) : Z := chr c - 0x40.
Definition BACKSPACE : Z := 0x100.
Definition NL : Z := 10.
Definition CR : Z := 13.
Definition DEL : Z := 0x7f.

(** ** Output *)

Definition getcons : KM consst := gets kcons.
Definition updcons (f : consst → consst) : KM unit := modify_state (λ s, s <| kcons ::= f |>).

(** [uartputc]: the characters sent to the serial port. *)
Definition uartputc (c : Z) : KM unit := updcons (λ k, k <| consout ::= λ l, l ++ [u8 c] |>).

(** The screen after [c], from the cursor position [pos]: the position and the
    text memory that [cgaputc] computes, or [None] where it panics. *)
Definition cga_scroll (pos : Z) (m : list Z) : Z * list Z :=
  if 24 <=? pos / 80 then
    let m1 := take (23 * 80) (drop 80 m) ++ drop (23 * 80) m in
    let pos1 := pos - 80 in
    (pos1, take (Z.to_nat pos1) m1 ++ replicate (Z.to_nat (24 * 80 - pos1)) 0 ++ drop (24 * 80) m1)
  else (pos, m).

Definition cga_put (c : Z) (pos : Z) (m : list Z) : option (Z * list Z) :=
  let '(pos1, m1) :=
    if c =? NL then (pos + (80 - pos mod 80), m)
    else if c =? BACKSPACE then (if 0 <? pos then pos - 1 else pos, m)
    else (pos + 1, <[Z.to_nat pos := Z.lor (Z.land c 0xff) 0x0700]> m) in
  if (pos1 <? 0) || (25 * 80 <? pos1) then None
  else
    let '(pos2, m2) := cga_scroll pos1 m1 in
    Some (pos2, <[Z.to_nat pos2 := Z.lor (chr " ") 0x0700]> m2).

Definition cgaputc (c : Z) : KM unit :=
  k ← getcons;
  match cga_put c (crtpos k) (crt k) with
  | None => panic "pos under/overflow"
  | Some (pos, m) => updcons (λ k, k <| crtpos := pos |> <| crt := m |>)
  end.

Definition consputc (c : Z) : KM unit :=
  (if c =? BACKSPACE then uartputc 8 ;; uartputc (chr " ") ;; uartputc 8
   else uartputc c) ;;
  cgaputc c.

(** *** printint *)

Definition digits : list Z := str "0123456789abcdef".

(** [do buf[i++] = digits[x % base]; while((x /= base) != 0)], with the digits
    in the order of [buf]; [fuel] bounds their number. *)
Fixpoint digit_loop (fuel : nat) (x base : Z) : list Z :=
  match fuel with
  | O => []
  | S fuel' =>
      nth (Z.to_nat (x mod base)) digits 0 ::
      (if x / base =? 0 then [] else digit_loop fuel' (x / base) base)
  end.

(** The characters [printint] prints.  Ten digits are enough for base 10, and
    eight for base 16. *)
Definition printint (xx base : Z) (sign : bool) : list Z :=
  let neg := sign && (xx <? 0) in
  let x := if neg then u32 (- xx) else u32 xx in
  reverse (digit_loop 16 x base ++ (if neg then [chr "-"] else [])).

(** *** cprintf *)

(** An argument of [cprintf]: a word, or a string ([None] is the null pointer). *)
Inductive carg := CInt (x : Z) | CStr (s : option (list Z)).

(** The characters of a formatted string.  A format that asks for an argument
    that is missing, or of the other kind, would read arbitrary memory: [None]. *)
Fixpoint format (fmt : list Z) (args : list carg) : option (list Z) :=
  match fmt with
  | [] => Some []
  | c :: fmt1 =>
      if negb (c =? chr "%") then cons c <$> format fmt1 args
      else
        match fmt1 with
        | [] => Some []
        | c :: fmt2 =>
            if c =? chr "d" then
              match args with
              | CInt x :: args' => app (printint (s32 x) 10 true) <$> format fmt2 args'
              | _ => None
              end
            else if (c =? chr "x") || (c =? chr "p") then
              match args with
              | CInt x :: args' => app (printint (s32 x) 16 false) <$> format fmt2 args'
              | _ => None
              end
            else if c =? chr "s" then
              match args with
              | CStr s :: args' => app (default (str "(null)") s) <$> format fmt2 args'
              | _ => None
              end
            else if c =? chr "%" then cons (chr "%") <$> format fmt2 args
            else app [chr "%"; c] <$> format fmt2 args
        end
  end.

Definition cprintf (fmt : string) (args : list carg) : KM unit :=
  k ← getcons;
  (if cons_locking k then acquire LkCons else ret tt) ;;
  match format (str fmt) args with
  | None => panic "cprintf"
  | Some l => for_each l consputc
  end ;;
  (if cons_locking k then release LkCons else ret tt).

(** The string in a [char] array, up to its terminating zero. *)
Fixpoint cstring (l : list Z) : list Z :=
  match l with
  | [] => []
  | c :: l' => if c =? 0 then [] else c :: cstring l'
  end.

#[local] Opaque acquire release.

(** ** The screen *)

(** The cursor is on one of the first 24 lines of the text memory. *)
Definition screen_ok (k : consst) : Prop :=
  0 ≤ crtpos k < 24 * 80 ∧ length (crt k) = 2000%nat.

Lemma cga_scroll_ok pos m :
  0 ≤ pos ≤ 24 * 80 → length m = 2000%nat →
  ∃ pos' m', cga_scroll pos m = (pos', m') ∧ 0 ≤ pos' < 24 * 80 ∧ length m' = 2000%nat.
Proof.
  intros Hp Hm. unfold cga_scroll. destruct (Z.leb_spec 24 (pos / 80)) as [H|H].
  - assert (pos = 1920) as -> by (Z.div_mod_to_equations; lia). eexists _, _. split; [done|].
    split; [lia|]. rewrite !length_app, length_replicate, length_take, !length_drop, !length_app,
      length_take, !length_drop, Hm. done.
  - eexists _, _. split; [done|]. split; [|done]. Z.div_mod_to_equations. lia.
Qed.

Lemma cga_put_ok c pos m :
  0 ≤ pos < 24 * 80 → length m = 2000%nat →
  ∃ pos' m', cga_put c pos m = Some (pos', m') ∧ 0 ≤ pos' < 24 * 80 ∧ length m' = 2000%nat.
Proof.
  intros Hp Hm. unfold cga_put.
  match goal with |- context [let '(_, _) := ?e in _] => set (x := e) end.
  assert (Hx : 0 ≤ fst x ≤ 24 * 80 ∧ length (snd x) = 2000%nat).
  { unfold x. destruct (c =? NL); [|destruct (c =? BACKSPACE)]; cbn [fst snd].
    - split; [|done]. Z.div_mod_to_equations. lia.
    - split; [|done]. destruct (Z.ltb_spec 0 pos); lia.
    - split; [lia|]. by rewrite length_insert. }
  destruct x as [pos1 m1]. cbn [fst snd] in Hx. destruct Hx as [Hp1 Hm1].
  rewrite (proj2 (Z.ltb_ge _ _)), (proj2 (Z.ltb_ge _ _)) by lia. cbn [orb].
  destruct (cga_scroll_ok pos1 m1 Hp1 Hm1) as (pos2 & m2 & -> & Hp2 & Hm2).
  eexists _, _. split; [done|]. split; [done|]. by rewrite length_insert.
Qed.

(** [k'] is [k] with the characters [out] sent and shown: nothing else of the
    console differs. *)
Record shown (out : list Z) (k k' : consst) : Prop := {
  sh_buf : in_buf k' = in_buf k; sh_r : in_r k' = in_r k; sh_w : in_w k' = in_w k;
  sh_e : in_e k' = in_e k; sh_lock : cons_locking k' = cons_locking k;
  sh_shift : kbd_shift k' = kbd_shift k; sh_out : consout k' = consout k ++ out;
  sh_ok : screen_ok k' }.

Definition echo (c : Z) : list Z := if c =? BACKSPACE then [8; chr " "; 8] else [u8 c].

Lemma shown_refl k : screen_ok k → shown [] k k.
Proof. intros H. split; try done. by rewrite app_nil_r. Qed.

Lemma shown_trans o1 o2 k1 k2 k3 : shown o1 k1 k2 → shown o2 k2 k3 → shown (o1 ++ o2) k1 k3.
Proof.
  intros [] []. split; try congruence. by rewrite app_assoc, <-sh_out0.
Qed.

Lemma with_cons_eq s f : s <| kcons ::= f |> = s <| kcons := f (kcons s) |>.
Proof. done. Qed.

(** A run of the console that only shows characters. *)
Definition shows (out : list Z) (m : KM unit) : Prop :=
  ∀ s, screen_ok (kcons s) →
  ∃ k', m s = Ok tt (s <| kcons := k' |>) ∧ shown out (kcons s) k'.

Lemma consputc_shows c : shows (echo c) (consputc c).
Proof.
  intros s [Hp Hm]. unfold consputc.
  set (k1 := (kcons s) <| consout ::= λ l, l ++ echo c |>).
  assert (H1 : (if c =? BACKSPACE then uartputc 8 ;; uartputc (chr " ") ;; uartputc 8 else uartputc c) s
               = Ok tt (s <| kcons := k1 |>)).
  { unfold k1, echo, uartputc, updcons. destruct (c =? BACKSPACE); [|done]. munfold. cbn.
    by rewrite <-!app_assoc. }
  rewrite (bind_ok _ _ _ _ _ H1). unfold cgaputc, getcons.
  rewrite (bind_ok (gets kcons) _ _ _ _ eq_refl).
  destruct (cga_put_ok c (crtpos (kcons s)) (crt (kcons s)) Hp Hm) as (pos' & m' & E & Hp' & Hm').
  change (crtpos (kcons (s <| kcons := k1 |>))) with (crtpos (kcons s)).
  change (crt (kcons (s <| kcons := k1 |>))) with (crt (kcons s)). rewrite E.
  exists (k1 <| crtpos := pos' |> <| crt := m' |>). split; [by destruct s|by split].
Qed.

Lemma for_each_shows {A} (l : list A) (f : A → KM unit) (out : A → list Z) :
  (∀ x, x ∈ l → shows (out x) (f x)) → shows (concat (out <$> l)) (for_each l f).
Proof.
  induction l as [|x l IH]; intros Hf s Hs.
  - exists (kcons s). split; [by destruct s|by apply shown_refl].
  - destruct (Hf x (list_elem_of_here _ _) s Hs) as (k1 & H1 & Hk1). simpl.
    rewrite (bind_ok _ _ _ _ _ H1).
    destruct (IH (λ y Hy, Hf y (list_elem_of_further _ _ _ Hy)) (s <| kcons := k1 |>)) as (k2 & H2 & Hk2).
    { apply (sh_ok _ _ _ Hk1). }
    exists k2. rewrite H2. split; [by destruct s|by eapply shown_trans].
Qed.

(** [cprintf] outside of the console's lock. *)
Lemma cprintf_shows fmt args l s :
  format (str fmt) args = Some l → LkCons ∉ held s → screen_ok (kcons s) →
  ∃ k', cprintf fmt args s = Ok tt (s <| kcons := k' |>) ∧ shown (concat (echo <$> l)) (kcons s) k'.
Proof.
  intros Hf Hh Hs. unfold cprintf, getcons. rewrite (bind_ok (gets kcons) _ _ _ _ eq_refl), Hf.
  pose proof (for_each_shows l consputc echo (λ x _, consputc_shows x)) as Hl.
  destruct (cons_locking (kcons s)).
  - rewrite (bind_ok _ _ _ _ _ (acquire_ok _ _ Hh)).
    set (s1 := s <| held ::= cons LkCons |>).
    destruct (Hl s1) as (k' & H1 & Hk'); [exact Hs|].
    rewrite (bind_ok _ _ _ _ _ H1), (release_cons _ (held s)) by done.
    exists k'. split; [by destruct s|done].
  - rewrite (bind_ok (ret tt) _ _ _ _ eq_refl). destruct (Hl s Hs) as (k' & H1 & Hk').
    rewrite (bind_ok _ _ _ _ _ H1). by exists k'.
Qed.

(** Functions that print and do nothing else, outside of the console's lock. *)
Definition prints (m : KM unit) : Prop :=
  ∀ s, LkCons ∉ held s → screen_ok (kcons s) →
  ∃ k' out, m s = Ok tt (s <| kcons := k' |>) ∧ shown out (kcons s) k'.

Lemma prints_ret : prints (ret tt).
Proof. intros s _ Hs. exists (kcons s), []. split; [by destruct s|by apply shown_refl]. Qed.

Lemma prints_cprintf fmt args : is_Some (format (str fmt) args) → prints (cprintf fmt args).
Proof. intros [l Hl] s Hh Hs. destruct (cprintf_shows _ _ _ s Hl Hh Hs) as (k' & ? & ?). eauto. Qed.

Lemma prints_gets {A} (f : kernel → A) (m : A → KM unit) :
  (∀ a, prints (m a)) → prints (a ← gets f; m a).
Proof. intros Hm s Hh Hs. rewrite (bind_ok (gets f) _ _ _ _ eq_refl). by apply Hm. Qed.

Lemma prints_seq m1 m2 : prints m1 → prints m2 → prints (m1 ;; m2).
Proof.
  intros H1 H2 s Hh Hs. destruct (H1 s Hh Hs) as (k1 & o1 & E1 & Hk1). rewrite (bind_ok _ _ _ _ _ E1).
  destruct (H2 (s <| kcons := k1 |>)) as (k2 & o2 & E2 & Hk2); [exact Hh|exact (sh_ok _ _ _ Hk1)|].
  exists k2, (o1 ++ o2). rewrite E2. split; [by destruct s|by eapply shown_trans].
Qed.

Lemma prints_for_each {A} (l : list A) f : (∀ x, prints (f x)) → prints (for_each l f).
Proof. intros Hf. induction l; [apply prints_ret|by apply prints_seq]. Qed.

(** ** Nothing but the console changes *)

Definition cons_only (s s' : kernel) : Prop := s' = s <| kcons := kcons s' |>.

#[export] Instance cons_only_preorder : PreOrder cons_only.
Proof.
  split; [by intros []|]. intros s1 s2 s3 H12 H23. unfold cons_only in *. rewrite H12 in H23. by destruct s1.
Qed.

(** A function that at most prints. *)
Abbreviation ConsOnly := (Pres cons_only (λ _ _ : kernel, False)).

#[export] Instance cons_only_updcons f : ConsOnly (updcons f).
Proof. intros []. done. Qed.
#[export] Instance cons_only_consputc c : ConsOnly (consputc c).
Proof. unfold consputc, uartputc, cgaputc, getcons. solve_pres. Qed.

Lemma cons_only_held ls s s' : cons_only (s <| held := ls |>) s' → cons_only s (s' <| held := held s |>).
Proof. unfold cons_only. intros ->. by destruct s. Qed.

#[export] Instance cons_only_cprintf fmt args : ConsOnly (cprintf fmt args).
Proof.
  intros s. unfold cprintf, getcons. rewrite (bind_ok (gets kcons) _ _ _ _ eq_refl).
  destruct (format (str fmt) args) as [l|].
  2: { unfold bind. destruct (cons_locking _); [|done]. rewrite acquire_eq. by destruct (bool_decide _). }
  assert (Hl : ConsOnly (for_each l consputc)) by solve_pres.
  destruct (cons_locking (kcons s)).
  - unfold bind. rewrite acquire_eq. case_bool_decide as Hh; [done|].
    set (s1 := s <| held ::= cons LkCons |>). pose proof (Hl s1) as H1.
    destruct (for_each l consputc s1) as [[] s2| |]; [|done..].
    assert (Hh2 : held s2 = LkCons :: held s) by (unfold cons_only in H1; rewrite H1; done).
    rewrite (release_cons _ (held s)) by done. by apply cons_only_held in H1.
  - rewrite (bind_ok (ret tt) _ _ _ _ eq_refl). unfold bind. pose proof (Hl s) as H1.
    by destruct (for_each l consputc s) as [[] s2| |].
Qed.
