(* ===== verification/Sched.v ===== *)
(** * Processes and the processor: the scheduling half of proc.c

    The process table, the five policies of [scheduler], the switch between a
    process and the scheduler of its processor, and [sleep] and [wakeup].

    [swtch] exchanges two threads.  A call of [sched] by a process therefore
    ends the run of the process here, with the outcome [Sleep pt s]: [pt] is
    the place in [sleep], [yield] or [exit] from which the process continues
    when the scheduler picks it again.  In the same way [scheduler_start] runs
    a scheduler up to its [swtch] to a process and [scheduler_back] from the
    return of that [swtch] on.  [ptable.lock] is held across every [swtch]. *)

From Stdlib Require Import String.
From S2P Require Import Prelude Kernel Cstring Kalloc Vm Screen.
Open Scope Z_scope.

(** The kernel as processor [c] sees it when it holds the locks [ls]. *)
Definition on (c : nat) (ls : list lockid) (k : kernel) : kernel :=
  k <| held := ls |> <| kcpu ::= λ x, x <| me := c |> |>.

(** ** The table *)

Definition getp (i : nat) : KM proc := gets (λ s, default proc0 (ptable (kproc s) !! i)).
Definition updp (i : nat) (f : proc → proc) : KM unit :=
  modify_state (λ s, s <| kproc ::= λ p, p <| ptable ::= alter f i |> |>).
Definition get_ticks : KM Z := gets (λ s, ticks (kproc s)).

(** A dereference of [myproc()].  A processor with no process runs its
    scheduler on [kpgdir], where the null pointer faults, and [trap] panics. *)
Definition curproc : KM nat :=
  p ← myproc;
  match p with
  | Some i => ret i
  | None => panic "trap"
  end.

Definition runnable (p : proc) : bool := bool_decide (state p = RUNNABLE).

(** [rand()], the linear congruential generator. *)
Definition lcg (seed : Z) : Z := u32 (seed * 1664525 + 1013904223).
Definition rand : KM Z :=
  modify_state (λ s, s <| kproc ::= λ p, p <| random_seed ::= lcg |> |>) ;;
  gets (λ s, random_seed (kproc s)).

(** ** The five policies *)

(** The loop of FCFS and SJF: [best] is the pointer the loop keeps (with
    what it points to), [better p b] the test that replaces it by [p]. *)
Fixpoint select_loop (better : proc → proc → bool) (i : nat) (l : list proc)
    (best : option (nat * proc)) : option (nat * proc) :=
  match l with
  | [] => best
  | p :: l' =>
      select_loop better (S i) l'
        (if negb (runnable p) then best
         else match best with
              | None => Some (i, p)
              | Some (j, b) => if better p b then Some (i, p) else Some (j, b)
              end)
  end.

Definition select (better : proc → proc → bool) (l : list proc) : option nat :=
  fst <$> select_loop better 0 l None.

Definition fcfs_better (p b : proc) : bool := createtime p <? createtime b.
Definition sjf_better (p b : proc) : bool := estimated_burst p <? estimated_burst b.
Definition bjf_better (p b : proc) : bool :=
  (priority p <? priority b) ||
  ((priority p =? priority b) && (createtime p <? createtime b)).

(** The branch of BJF: the same loop, with what it prints about every tenth pid
    while it holds [ptable.lock]; it also tells whether a process is runnable. *)
Definition bjf_considering : string := "DEBUG: BJF considering PID %d, Priority %d
".
Definition bjf_selected : string := "DEBUG: BJF selected new best: PID %d, prio: %d
".

Fixpoint bjf_loop (i : nat) (l : list proc) (best : option (nat * proc)) (found : bool)
    : KM (option (nat * proc) * bool) :=
  match l with
  | [] => ret (best, found)
  | p :: l' =>
      if negb (runnable p) then bjf_loop (S i) l' best found else
      (if Z.rem (pid p) 10 =? 0 then
         cprintf bjf_considering [CInt (pid p); CInt (priority p)]
       else ret tt) ;;
      if match best with None => true | Some (_, b) => bjf_better p b end then
        (if Z.rem (pid p) 10 =? 0 then
           cprintf bjf_selected [CInt (pid p); CInt (priority p)]
         else ret tt) ;;
        bjf_loop (S i) l' (Some (i, p)) true
      else bjf_loop (S i) l' best true
  end.

Definition bjf_pick : KM (option nat) :=
  l ← gets (λ s, ptable (kproc s));
  '(best, runnable_found) ← bjf_loop 0 l None false;
  match best with
  | Some (i, _) => ret (Some i)
  | None =>
      (if runnable_found : bool then
         cprintf "DEBUG: BJF ERROR: Found runnable processes but selected none!
" []
       else ret tt) ;;
      ret None
  end.

(** The second loop of RANDOM: the [target]-th runnable process. *)
Fixpoint nth_runnable (i : nat) (l : list proc) (current target : Z) : option nat :=
  match l with
  | [] => None
  | p :: l' =>
      if negb (runnable p) then nth_runnable (S i) l' current target
      else if current =? target then Some i
      else nth_runnable (S i) l' (current + 1) target
  end.

Definition runnable_count (l : list proc) : Z := Z.of_nat (length (filter runnable l)).

Definition random_pick : KM (option nat) :=
  l ← gets (λ s, ptable (kproc s));
  if 0 <? runnable_count l then
    r ← rand;
    ret (nth_runnable 0 l 0 (r mod runnable_count l))
  else ret None.

(** The loop of RR from slot [i] on, up to the next process it runs. *)
Definition rr_next (i : nat) (l : list proc) : option nat :=
  Nat.add i <$> find_index runnable (drop i l).

(** ** The scheduler *)

Definition set_cpu_proc (p : option nat) : KM unit :=
  modify_state (λ s, s <| kcpu ::= λ c, c <| cpu_proc ::= <[me c := p]> |> |>).

(** [c->proc = p; switchuvm(p); p->state = RUNNING; swtch(...)] *)
Definition dispatch (p : nat) : KM (option nat) :=
  set_cpu_proc (Some p) ;;
  switchuvm (Some p) ;;
  updp p (λ q, q <| state := RUNNING |>) ;;
  ret (Some p).

(** Whether the policy is round robin: any value but the other four. *)
Definition is_rr (pol : Z) : bool :=
  negb (pol =? SCHED_FCFS) && negb (pol =? SCHED_SJF) &&
  negb (pol =? SCHED_BJF) && negb (pol =? SCHED_RANDOM).

Definition choose (pol : Z) : KM (option nat) :=
  l ← gets (λ s, ptable (kproc s));
  if pol =? SCHED_FCFS then ret (select fcfs_better l)
  else if pol =? SCHED_SJF then ret (select sjf_better l)
  else if pol =? SCHED_BJF then bjf_pick
  else if pol =? SCHED_RANDOM then random_pick
  else ret (rr_next 0 l).

(** One turn of [scheduler]'s [for(;;)] up to the [swtch] to the process it
    returns, or to the end of the turn when it finds none.  The process is
    returned with the policy in force, which tells [scheduler_back] whether
    the [swtch] was the one inside the loop of RR. *)
Definition scheduler_start : KM (option nat * Z) :=
  acquire LkPtable ;;
  pol ← gets (λ s, current_scheduler (kproc s));
  c ← choose pol;
  match c with
  | Some p => r ← dispatch p; ret (r, pol)
  | None => release LkPtable ;; ret (None, pol)
  end.

(** From the return of [swtch] in the branch of policy [pol] for process [p]
    to the next [swtch] of the loop of RR or to the end of the turn. *)
Definition scheduler_back (p : nat) (pol : Z) : KM (option nat * Z) :=
  switchkvm ;;
  set_cpu_proc None ;;
  l ← gets (λ s, ptable (kproc s));
  match (if is_rr pol then rr_next (S p) l else None) with
  | Some q => r ← dispatch q; ret (r, pol)
  | None => release LkPtable ;; ret (None, pol)
  end.

(** ** Giving up the processor *)

(** Instructions that another processor may come between: locking, unlocking,
    and a change of the state. *)
Inductive kop := KAcq (l : lockid) | KRel (l : lockid) | KDo (f : kernel → kernel).

Definition run_op (o : kop) : KM unit :=
  match o with KAcq l => acquire l | KRel l => release l | KDo f => modify_state f end.

Fixpoint run_ops (os : list kop) : KM unit :=
  match os with [] => ret tt | o :: os' => run_op o ;; run_ops os' end.

(** A write to slot [i]. *)
Definition set_slot (i : nat) (f : proc → proc) (s : kernel) : kernel :=
  s <| kproc ::= λ p, p <| ptable ::= alter f i |> |>.

(** The checks of [sched]; [mycpu()->ncli] is the number of locks held.  There is
    no interrupt flag in this state, so the test for it is not here, nor is
    [intena], which [sched] saves for it; Spinlock.v has both.  The call does not
    return here, so it has every type. *)
Definition sched {A} (pt : swpoint) : KM A :=
  h ← holding LkPtable;
  n ← gets (λ s, length (held s));
  if negb h then panic "sched ptable.lock"
  else if negb (n =? 1)%nat then panic "sched locks"
  else
    i ← curproc;
    p ← getp i;
    if bool_decide (state p = RUNNING) then panic "sched running"
    else λ s, Sleep pt s.

Definition yield : KM unit :=
  acquire LkPtable ;;
  i ← curproc;
  updp i (λ q, q <| state := RUNNABLE |>) ;;
  updp i (λ q, q <| yield_request := 0 |>) ;;
  sched AtYield.

(** What [yield] does when [sched] returns. *)
Definition yield_resume : KM unit := release LkPtable.

(** [sleep] before [sched]: it takes [ptable.lock] and then gives up [lk]; it
    marks the process. *)
Definition sleep_locks (lk : lockid) : list kop :=
  if bool_decide (lk = LkPtable) then [] else [KAcq LkPtable; KRel lk].
Definition sleep_marks (i : nat) (ch : wchan) : list kop :=
  [KDo (set_slot i (λ q, q <| chan := Some ch |>)); KDo (set_slot i (λ q, q <| state := SLEEPING |>))].

Definition sleep {A} (ch : wchan) (lk : lockid) : KM A :=
  p ← myproc;
  match p with
  | None => panic "sleep"
  | Some i =>
      run_ops (sleep_locks lk) ;;
      start_ticks ← get_ticks;
      run_ops (sleep_marks i ch) ;;
      sched (AtSleep ch lk start_ticks)
  end.

(** What [sleep] does when [sched] returns. *)
Definition sleep_resume (i : nat) (lk : lockid) (start_ticks : Z) : KM unit :=
  t ← get_ticks;
  updp i (λ q, q <| sleeptime ::= λ x, u32 (x + u32 (t - start_ticks)) |>) ;;
  updp i (λ q, q <| chan := None |>) ;;
  (if bool_decide (lk = LkPtable) then ret tt
   else release LkPtable ;; acquire lk).

(** The body of the loop of [wakeup1]; the null channel is [None]. *)
Definition wake (ch : option wchan) (p : proc) : proc :=
  if bool_decide (state p = SLEEPING) && bool_decide (chan p = ch)
  then p <| state := RUNNABLE |> else p.

Definition wake_all (ch : option wchan) (s : kernel) : kernel :=
  s <| kproc ::= λ p, p <| ptable ::= fmap (wake ch) |> |>.
Definition wakeup1 (ch : option wchan) : KM unit := modify_state (wake_all ch).

Definition wakeup_ops (ch : wchan) : list kop := [KAcq LkPtable; KDo (wake_all (Some ch)); KRel LkPtable].
Definition wakeup (ch : wchan) : KM unit := run_ops (wakeup_ops ch).

#[local] Opaque acquire release.

(** ** What the policies choose *)

(** A test of the loop of FCFS, SJF and BJF is a strict weak order. *)
Class Ranking (better : proc → proc → bool) : Prop := {
  ranking_irrefl p : better p p = false;
  ranking_trans p q r : better p q = true → better q r = true → better p r = true;
  ranking_total p q r : better p r = true → better p q = true ∨ better q r = true }.

#[export] Instance fcfs_ranking : Ranking fcfs_better.
Proof. unfold fcfs_better. split; lia. Qed.
#[export] Instance sjf_ranking : Ranking sjf_better.
Proof. unfold sjf_better. split; lia. Qed.
#[export] Instance bjf_ranking : Ranking bjf_better.
Proof. unfold bjf_better. split; lia. Qed.

(** Slot [i] is the first of the best runnable slots of [l]. *)
Definition first_best (better : proc → proc → bool) (l : list proc) (i : nat) : Prop :=
  ∃ p, l !! i = Some p ∧ state p = RUNNABLE ∧
  ∀ j q, l !! j = Some q → state q = RUNNABLE →
    better q p = false ∧ ((j < i)%nat → better p q = true).

Section select.
Context (better : proc → proc → bool) `{!Ranking better}.

(** What the loop knows after the slots [l1]. *)
Definition best_so_far (l1 : list proc) (best : option (nat * proc)) : Prop :=
  match best with
  | None => Forall (λ p, state p ≠ RUNNABLE) l1
  | Some (i, p) => l1 !! i = Some p ∧ first_best better l1 i
  end.

Lemma best_so_far_step l1 p best :
  best_so_far l1 best →
  best_so_far (l1 ++ [p])
    (if negb (runnable p) then best
     else match best with
          | None => Some (length l1, p)
          | Some (j, b) => if better p b then Some (length l1, p) else Some (j, b)
          end).
Proof.
  intros Hb. unfold runnable. case_bool_decide as Hp; simpl.
  - destruct best as [[j b]|]; simpl in Hb.
    + destruct Hb as [Hj (b' & Hj' & Hrb & Hall)]. simplify_eq.
      destruct (better p b) eqn:Epb.
      * split; [by apply list_lookup_middle|].
        exists p. rewrite list_lookup_middle by done. split_and!; [done..|].
        intros k q Hq Hrq. apply lookup_snoc_Some in Hq as [[Hk Hq]|[-> <-]].
        -- destruct (Hall k q Hq Hrq) as [Hqb _]. split.
           ++ destruct (better q p) eqn:Eqp; [|done]. by rewrite (ranking_trans q p b) in Hqb.
           ++ intros _. destruct (ranking_total p q b Epb) as [|]; congruence.
        -- split; [apply ranking_irrefl|lia].
      * split; [by apply lookup_app_l_Some|]. exists b. split_and!; [by apply lookup_app_l_Some|done|].
        intros k q Hq Hrq. apply lookup_snoc_Some in Hq as [[Hk Hq]|[-> <-]]; [by apply Hall|].
        split; [done|]. apply lookup_lt_Some in Hj. lia.
    + split; [by rewrite list_lookup_middle|]. exists p.
      rewrite list_lookup_middle by done. split_and!; [done..|].
      intros k q Hq Hrq. apply lookup_snoc_Some in Hq as [[Hk Hq]|[-> <-]].
      * exfalso. rewrite Forall_forall in Hb. eapply (Hb q); [|done].
        by eapply list_elem_of_lookup_2.
      * split; [apply ranking_irrefl|lia].
  - destruct best as [[j b]|]; simpl in *.
    + destruct Hb as [Hj (b' & Hj' & Hrb & Hall)]. simplify_eq.
      split; [by apply lookup_app_l_Some|]. exists b. split_and!; [by apply lookup_app_l_Some|done|].
      intros k q Hq Hrq. apply lookup_snoc_Some in Hq as [[Hk Hq]|[-> <-]]; [by apply Hall|done].
    + apply Forall_app. by repeat constructor.
Qed.

Lemma select_loop_ok l2 : ∀ l1 best,
  best_so_far l1 best → best_so_far (l1 ++ l2) (select_loop better (length l1) l2 best).
Proof.
  induction l2 as [|p l2 IH]; intros l1 best Hb; simpl; [by rewrite app_nil_r|].
  rewrite (cons_middle p), app_assoc.
  replace (S (length l1)) with (length (l1 ++ [p])) by (rewrite length_app; simpl; lia).
  apply IH. by apply best_so_far_step.
Qed.

(** The loop finds the first best slot, or nothing is runnable. *)
Lemma select_spec l :
  match select better l with
  | Some i => first_best better l i
  | None => Forall (λ p, state p ≠ RUNNABLE) l
  end.
Proof.
  unfold select. pose proof (select_loop_ok l [] None) as H. simpl in H.
  destruct (select_loop better 0 l None) as [[i p]|]; simpl; [apply H|apply H]; constructor.
Qed.
End select.

(** The runnable slots of a table whose first slot is number [i], in order. *)
Fixpoint runnable_slots (i : nat) (l : list proc) : list nat :=
  match l with
  | [] => []
  | p :: l' => if runnable p then i :: runnable_slots (S i) l' else runnable_slots (S i) l'
  end.

Lemma runnable_slots_length i l : Z.of_nat (length (runnable_slots i l)) = runnable_count l.
Proof.
  unfold runnable_count. revert i. induction l as [|p l IH]; intros i; [done|]. simpl.
  rewrite filter_cons. unfold runnable in *. case_bool_decide; simpl.
  - rewrite Nat2Z.inj_succ, IH. lia.
  - apply IH.
Qed.

Lemma runnable_slots_elem i l j :
  j ∈ runnable_slots i l ↔ ∃ k p, j = (i + k)%nat ∧ l !! k = Some p ∧ state p = RUNNABLE.
Proof.
  revert i. induction l as [|p l IH]; intros i; simpl.
  { split; [set_solver|]. by intros (? & ? & _ & ? & _). }
  assert (Htl : j ∈ runnable_slots (S i) l ↔
    ∃ k p', j = (i + S k)%nat ∧ l !! k = Some p' ∧ state p' = RUNNABLE).
  { rewrite IH. split; intros (k & p' & -> & ?); exists k, p'; (split; [lia|done]). }
  unfold runnable. case_bool_decide as Hp.
  - rewrite elem_of_cons, Htl. split.
    + intros [->|(k & p' & -> & ? & ?)]; [exists 0%nat, p; split; [lia|done]|].
      by exists (S k), p'.
    + intros ([|k] & p' & -> & Hk & Hr); simpl in Hk; [left; lia|right; eauto].
  - rewrite Htl. split.
    + intros (k & p' & -> & ? & ?). by exists (S k), p'.
    + intros ([|k] & p' & -> & Hk & Hr); simpl in Hk; [congruence|eauto].
Qed.

Lemma nth_runnable_slots l : ∀ i current target,
  current ≤ target →
  nth_runnable i l current target = runnable_slots i l !! Z.to_nat (target - current).
Proof.
  induction l as [|p l IH]; intros i c t Hct; simpl; [done|].
  destruct (runnable p); simpl; [|by apply IH].
  destruct (c =? t) eqn:E.
  - by replace (Z.to_nat (t - c)) with 0%nat by lia.
  - replace (Z.to_nat (t - c)) with (S (Z.to_nat (t - (c + 1)))) by lia.
    simpl. apply IH. lia.
Qed.

Lemma rr_next_Some i l j :
  rr_next i l = Some j ↔
  (i ≤ j)%nat ∧ (∃ p, l !! j = Some p ∧ state p = RUNNABLE) ∧
  (∀ k p, (i ≤ k < j)%nat → l !! k = Some p → state p ≠ RUNNABLE).
Proof.
  unfold rr_next. rewrite fmap_Some. setoid_rewrite find_index_Some.
  unfold runnable. setoid_rewrite bool_decide_eq_true. setoid_rewrite bool_decide_eq_false.
  setoid_rewrite lookup_drop. split.
  - intros (k & (p & Hp & Hr & Hmin) & ->). split_and!; [lia|eauto|].
    intros k' q Hk Hq. apply (Hmin (k' - i)%nat); [lia|]. by rewrite <-Hq; f_equal; lia.
  - intros (Hij & (p & Hp & Hr) & Hmin). exists (j - i)%nat. split; [|lia]. exists p.
    split_and!; [by rewrite <-Hp; f_equal; lia|done|]. intros k q Hk Hq.
    apply (Hmin (i + k)%nat q); [lia|done].
Qed.

Lemma rr_next_None i l :
  rr_next i l = None ↔ ∀ k p, (i ≤ k)%nat → l !! k = Some p → state p ≠ RUNNABLE.
Proof.
  unfold rr_next. rewrite fmap_None, find_index_None.
  unfold runnable. setoid_rewrite bool_decide_eq_false. setoid_rewrite lookup_drop. split.
  - intros H k p Hik Hk. apply (H (k - i)%nat). by rewrite <-Hk; f_equal; lia.
  - intros H k p Hk. apply (H (i + k)%nat p); [lia|done].
Qed.

(** The process policy [pol] owes the processor. *)
Definition chosen (pol : Z) (l : list proc) (seed : Z) (i : nat) : Prop :=
  if pol =? SCHED_FCFS then first_best fcfs_better l i
  else if pol =? SCHED_SJF then first_best sjf_better l i
  else if pol =? SCHED_BJF then first_best bjf_better l i
  else if pol =? SCHED_RANDOM
       then runnable_slots 0 l !! Z.to_nat (lcg seed mod runnable_count l) = Some i
  else rr_next 0 l = Some i.

(** The seed after the choice: only RANDOM draws a number, and only when it has
    a choice to make. *)
Definition next_seed (pol : Z) (l : list proc) (seed : Z) : Z :=
  if (pol =? SCHED_RANDOM) && (0 <? runnable_count l) then lcg seed else seed.

Lemma chosen_runnable pol l seed i :
  chosen pol l seed i → ∃ p, l !! i = Some p ∧ state p = RUNNABLE.
Proof.
  unfold chosen, first_best. repeat case_match; try (intros (p & ? & ? & _); by eauto).
  - intros Hi%list_elem_of_lookup_2. apply runnable_slots_elem in Hi as (k & p & -> & ? & ?). eauto.
  - intros (_ & ? & _)%rr_next_Some. done.
Qed.

(** Whether the policy prints: BJF does, about the runnable processes with every
    tenth pid. *)
Definition bjf_prints (l : list proc) : bool := existsb (λ p, runnable p && (Z.rem (pid p) 10 =? 0)) l.
Definition may_print (pol : Z) (s : kernel) : Prop :=
  pol = SCHED_BJF → bjf_prints (ptable (kproc s)) = true → (LkCons ∉ held s) ∧ screen_ok (kcons s).

(** The loop of BJF takes the decisions of [select_loop], and only prints. *)
Lemma bjf_loop_inv l : ∀ i best found s r s',
  bjf_loop i l best found s = Ok r s' → (found = true → is_Some best) →
  fst r = select_loop bjf_better i l best ∧ cons_only s s' ∧ (snd r = true → is_Some (fst r)) ∧
  (Forall (λ p, state p ≠ RUNNABLE) l → s' = s).
Proof.
  induction l as [|p l IH]; intros i best found s r s' H Hf; simpl in H.
  { injection H as <- <-. split_and!; [done|reflexivity|done|done]. }
  simpl. unfold runnable in *. case_bool_decide as Hp; simpl in *.
  2: { destruct (IH _ _ _ _ _ _ H Hf) as (? & ? & ? & Hs). split_and!; [done..|]. intros [_ ?]%Forall_cons. auto. }
  assert (Hno : Forall (λ p, state p ≠ RUNNABLE) (p :: l) → s' = s) by (by intros [? _]%Forall_cons).
  apply bind_inv_ok in H as ([] & s1 & H1 & H).
  assert (C1 : cons_only s s1) by (destruct (Z.rem _ _ =? 0); [by eapply pres_ok; [apply cons_only_cprintf|]|by injection H1 as <-]).
  destruct (match best with None => true | Some (_, b) => bjf_better p b end) eqn:Eb.
  - apply bind_inv_ok in H as ([] & s2 & H2 & H).
    assert (C2 : cons_only s1 s2) by (destruct (Z.rem _ _ =? 0); [by eapply pres_ok; [apply cons_only_cprintf|]|by injection H2 as <-]).
    destruct (IH _ _ _ _ _ _ H) as (E & C3 & ? & _); [by eexists|]. split_and!; [|by etransitivity; [|etransitivity]|done|done].
    rewrite E. destruct best as [[j b]|]; [by rewrite Eb|done].
  - destruct best as [[j b]|]; [|done]. destruct (IH _ _ _ _ _ _ H) as (E & C3 & ? & _); [by eexists|].
    split_and!; [by rewrite E, Eb|by etransitivity|done|done].
Qed.

(** It ends, when it can take the console's lock. *)
Lemma bjf_loop_runs l : ∀ i best found s,
  (bjf_prints l = true → (LkCons ∉ held s) ∧ screen_ok (kcons s)) → ∃ r s', bjf_loop i l best found s = Ok r s'.
Proof.
  induction l as [|p l IH]; intros i best found s Hs; simpl; [by eexists _, _|]. simpl in Hs.
  destruct (runnable p); simpl in *; [|by apply IH].
  assert (Hpr : ∀ fmt s1, is_Some (format (str fmt) [CInt (pid p); CInt (priority p)]) →
    ((Z.rem (pid p) 10 =? 0) || bjf_prints l = true → (LkCons ∉ held s1) ∧ screen_ok (kcons s1)) →
    ∃ s2, (if Z.rem (pid p) 10 =? 0 then cprintf fmt [CInt (pid p); CInt (priority p)] else ret tt) s1 = Ok tt s2 ∧
      ((Z.rem (pid p) 10 =? 0) || bjf_prints l = true → (LkCons ∉ held s2) ∧ screen_ok (kcons s2))).
  { intros fmt s1 Hf H1. destruct (Z.rem (pid p) 10 =? 0); [|by exists s1]. destruct (H1 eq_refl) as [Hh Hk].
    destruct (prints_cprintf fmt _ Hf s1 Hh Hk) as (k' & out & E & Hk'). exists (s1 <| kcons := k' |>).
    split; [done|]. intros _. split; [done|exact (sh_ok _ _ _ Hk')]. }
  destruct (Hpr bjf_considering s) as (s1 & E1 & H1); [by eexists|exact Hs|]. rewrite (bind_ok _ _ _ _ _ E1).
  destruct (match best with None => true | Some (_, b) => bjf_better p b end).
  - destruct (Hpr bjf_selected s1) as (s2 & E2 & H2); [by eexists|exact H1|]. rewrite (bind_ok _ _ _ _ _ E2).
    apply IH. intros Hl. apply H2. by rewrite Hl, orb_true_r.
  - apply IH. intros Hl. apply H1. by rewrite Hl, orb_true_r.
Qed.

#[export] Instance cons_only_bjf_loop i l best found : ConsOnly (bjf_loop i l best found).
Proof. revert i best found. induction l as [|p l IH]; intros; simpl; solve_pres. Qed.
#[export] Instance cons_only_bjf_pick : ConsOnly bjf_pick.
Proof. unfold bjf_pick. solve_pres. Qed.

Lemma bjf_pick_inv s c s' :
  bjf_pick s = Ok c s' → c = select bjf_better (ptable (kproc s)) ∧ cons_only s s' ∧
  (Forall (λ p, state p ≠ RUNNABLE) (ptable (kproc s)) → s' = s).
Proof.
  unfold bjf_pick. intros H. rewrite (bind_ok (gets _) _ _ _ _ eq_refl) in H.
  apply bind_inv_ok in H as ([best found] & s1 & H1 & H).
  destruct (bjf_loop_inv _ _ _ _ _ _ _ H1) as (E & HC & Hf & Hs); [done|]. cbn [fst snd] in *.
  unfold select. rewrite <-E. destruct best as [[i p]|].
  - injection H as <- <-. done.
  - destruct found; [by destruct (Hf eq_refl)|]. by injection H as <- <-.
Qed.

(** What a policy that has found process [c], or none, leaves behind. *)
Definition choice (pol : Z) (s s' : kernel) (c : option nat) : Prop :=
  let l := ptable (kproc s) in
  let seed := random_seed (kproc s) in
  (∃ kc, s' = s <| kproc ::= λ p, p <| random_seed := next_seed pol l seed |> |> <| kcons := kc |>) ∧
  match c with
  | Some i => chosen pol l seed i
  | None => s' = s ∧ Forall (λ p, state p ≠ RUNNABLE) l
  end.

(** A choice that draws no number. *)
Lemma choice_same pol s s' c :
  next_seed pol (ptable (kproc s)) (random_seed (kproc s)) = random_seed (kproc s) → cons_only s s' →
  (Forall (λ p, state p ≠ RUNNABLE) (ptable (kproc s)) → s' = s) →
  match c with
  | Some i => chosen pol (ptable (kproc s)) (random_seed (kproc s)) i
  | None => Forall (λ p, state p ≠ RUNNABLE) (ptable (kproc s))
  end → choice pol s s' c.
Proof.
  intros Hn Hc Hs Hm. split.
  - exists (kcons s'). rewrite Hn. unfold cons_only in Hc. rewrite Hc at 1. by destruct s as [? ? []].
  - destruct c; auto.
Qed.

Lemma random_pick_spec s :
  ∃ c s', random_pick s = Ok c s' ∧ choice SCHED_RANDOM s s' c.
Proof.
  set (l := ptable (kproc s)). unfold random_pick, rand. munfold. fold l. rewrite <-(runnable_slots_length 0 l).
  destruct (0 <? Z.of_nat (length (runnable_slots 0 l))) eqn:E5.
  - eexists _, _. split; [done|]. split.
    + exists (kcons s). unfold next_seed. fold l. rewrite <-(runnable_slots_length 0 l), E5. by destruct s as [? ? []].
    + fold l. rewrite nth_runnable_slots, Z.sub_0_r by (apply Z.mod_pos_bound; lia).
      unfold chosen. simpl. rewrite <-(runnable_slots_length 0 l).
      destruct (runnable_slots 0 l !! _) eqn:E6; [done|]. apply lookup_ge_None in E6.
      pose proof (Z.mod_pos_bound (lcg (random_seed (kproc s))) (Z.of_nat (length (runnable_slots 0 l)))). lia.
  - eexists None, s. split; [done|]. apply choice_same; [|reflexivity|done|].
    + unfold next_seed. fold l. by rewrite <-(runnable_slots_length 0 l), E5.
    + apply Forall_forall. intros p Hp Hr. apply list_elem_of_lookup in Hp as [k Hk].
      assert (Hin : k ∈ runnable_slots 0 l) by (apply runnable_slots_elem; eauto).
      apply list_elem_of_lookup in Hin as [? Hin%lookup_lt_Some]. lia.
Qed.

Lemma next_seed_other pol l seed : pol ≠ SCHED_RANDOM → next_seed pol l seed = seed.
Proof. intros H. unfold next_seed. by rewrite (proj2 (Z.eqb_neq _ _) H). Qed.

(** The choice of every policy; [choose] fails only where BJF cannot print. *)
Lemma choose_spec pol s :
  match choose pol s with
  | Ok c s' => choice pol s s' c
  | Panic _ => ¬ may_print pol s
  | Sleep _ _ => False
  end.
Proof.
  unfold choose. rewrite (bind_ok (gets _) _ _ _ _ eq_refl). set (l := ptable (kproc s)).
  destruct (Z.eqb_spec pol SCHED_FCFS) as [->|N1].
  { apply choice_same; [done|reflexivity|done|]. apply (select_spec fcfs_better). }
  destruct (Z.eqb_spec pol SCHED_SJF) as [->|N2].
  { apply choice_same; [done|reflexivity|done|]. apply (select_spec sjf_better). }
  destruct (Z.eqb_spec pol SCHED_BJF) as [->|N3].
  { destruct (bjf_pick s) as [c s'| |] eqn:E.
    - destruct (bjf_pick_inv _ _ _ E) as (-> & HC & Hs). apply choice_same; [done..|]. apply (select_spec bjf_better).
    - intros Hm. unfold bjf_pick in E. rewrite (bind_ok (gets _) _ _ _ _ eq_refl) in E.
      destruct (bjf_loop_runs l 0 None false s (Hm eq_refl)) as ([best found] & s' & E').
      rewrite (bind_ok _ _ _ _ _ E') in E. destruct (bjf_loop_inv _ _ _ _ _ _ _ E') as (_ & _ & Hf & _); [done|].
      destruct best as [[]|]; [done|]. destruct found; [by destruct (Hf eq_refl)|done].
    - pose proof (cons_only_bjf_pick s) as HC. by rewrite E in HC. }
  destruct (Z.eqb_spec pol SCHED_RANDOM) as [->|N4].
  - destruct (random_pick_spec s) as (c & s' & E & HC). by rewrite E.
  - apply choice_same; [by apply next_seed_other|reflexivity|done|]. unfold chosen.
    rewrite (proj2 (Z.eqb_neq _ _) N1), (proj2 (Z.eqb_neq _ _) N2), (proj2 (Z.eqb_neq _ _) N3), (proj2 (Z.eqb_neq _ _) N4).
    destruct (rr_next 0 l) eqn:E5; [done|]. apply Forall_lookup. intros k p Hk.
    rewrite rr_next_None in E5. eapply E5; [|done]. lia.
Qed.

Lemma next_seed_idle pol l seed :
  Forall (λ p, state p ≠ RUNNABLE) l → next_seed pol l seed = seed.
Proof.
  intros Hl. unfold next_seed. replace (runnable_count l) with 0; [by rewrite andb_false_r|].
  unfold runnable_count. induction Hl as [|p l Hp Hl IH]; [done|].
  rewrite filter_cons, decide_False; [done|]. unfold runnable. rewrite bool_decide_false by done. by intros [].
Qed.

(** ** What the scheduler does with the choice *)

(** Process [i] runs on this processor, on its own page table and kernel
    stack. *)
Definition dispatched (i : nat) (p : proc) (s : kernel) : kernel :=
  s <| kcpu ::= λ c, c <| cpu_proc ::= <[me c := Some i]> |>
                       <| cpu_esp0 ::= <[me c := u32 (kstack p + KSTACKSIZE)]> |>
                       <| cpu_cr3 ::= <[me c := V2P (pgdir p)]> |> |>
    <| kproc ::= λ k, k <| ptable ::= alter (λ q, q <| state := RUNNING |>) i |> |>.

(** Every runnable process has a kernel stack and a page table. *)
Definition dispatchable (l : list proc) : Prop :=
  ∀ i p, l !! i = Some p → state p = RUNNABLE → kstack p ≠ 0 ∧ pgdir p ≠ 0.

Lemma dispatch_ok i p s :
  ptable (kproc s) !! i = Some p → kstack p ≠ 0 → pgdir p ≠ 0 →
  dispatch i s = Ok (Some i) (dispatched i p s).
Proof.
  intros Hp Hk Hd. unfold dispatch, switchuvm, set_cpu_proc, lcr3, updp. munfold. simpl.
  rewrite Hp. simpl. by rewrite (proj2 (Z.eqb_neq _ _) Hk), (proj2 (Z.eqb_neq _ _) Hd).
Qed.

(** When some process is runnable, the turn of the scheduler ends in the switch
    to the one the policy owes the processor; the process is RUNNING there, with
    its page table and kernel stack loaded, and nothing else changes but the
    generator.  When no process is runnable, nothing changes. *)
Lemma scheduler_start_ok s :
  can_lock LkPtable s → dispatchable (ptable (kproc s)) →
  let l := ptable (kproc s) in
  let pol := current_scheduler (kproc s) in
  let seed := random_seed (kproc s) in
  match scheduler_start s with
  | Ok (Some i, pol') s' =>
      pol' = pol ∧ chosen pol l seed i ∧ ∃ p kc, l !! i = Some p ∧ state p = RUNNABLE ∧
      s' = dispatched i p (s <| kproc ::= λ k, k <| random_seed := next_seed pol l seed |> |>
                             <| kcons := kc |> <| held ::= cons LkPtable |>)
  | Ok (None, _) s' => s' = s ∧ Forall (λ p, state p ≠ RUNNABLE) l
  | Panic _ => ¬ may_print pol s
  | Sleep _ _ => False
  end.
Proof.
  intros Hl Hd. cbv zeta. unfold scheduler_start.
  rewrite (bind_ok _ _ _ _ _ (acquire_ok _ _ Hl)).
  rewrite (bind_ok (gets _) _ _ _ _ eq_refl). set (s1 := s <| held ::= cons LkPtable |>).
  change (current_scheduler (kproc s1)) with (current_scheduler (kproc s)).
  pose proof (choose_spec (current_scheduler (kproc s)) s1) as Hc.
  destruct (choose (current_scheduler (kproc s)) s1) as [[i|] s2| |] eqn:E.
  - rewrite (bind_ok _ _ _ _ _ E). destruct Hc as [(kc & ->) Hch].
    destruct (chosen_runnable _ _ _ _ Hch) as (p & Hp & Hr). destruct (Hd i p Hp Hr) as [Hk Hg].
    erewrite (bind_ok (dispatch i)) by (by apply dispatch_ok). split; [done|]. split; [done|].
    exists p, kc. by split_and!.
  - rewrite (bind_ok _ _ _ _ _ E). destruct Hc as (_ & -> & Hno).
    erewrite (bind_ok (release LkPtable)) by (by apply (release_cons _ (held s))).
    split; [|done]. by destruct s.
  - unfold bind. rewrite E. intros Hm. apply Hc. intros Hp Hpr. destruct (Hm Hp Hpr) as [Hh Hs]. split; [|done].
    unfold s1. simpl. by apply not_elem_of_cons.
  - done.
Qed.

(** After the process gives the processor back, the scheduler is on the
    kernel's page table with no process.  Under RR it runs the next runnable
    slot of the same pass; otherwise, or at the end of the table, it releases the
    lock. *)
Lemma scheduler_back_ok s i pol ls :
  held s = LkPtable :: ls → LkPtable ∉ ls → dispatchable (ptable (kproc s)) →
  let l := ptable (kproc s) in
  let s1 := s <| kcpu ::= λ c, c <| cpu_proc ::= <[me c := None]> |>
                              <| cpu_cr3 ::= <[me c := V2P (kpgdir (kvm s))]> |> |> in
  match scheduler_back i pol s with
  | Ok (Some j, pol') s' =>
      pol' = pol ∧ is_rr pol = true ∧ (i < j)%nat ∧
      (∀ k q, (i < k < j)%nat → l !! k = Some q → state q ≠ RUNNABLE) ∧
      ∃ p, l !! j = Some p ∧ state p = RUNNABLE ∧ s' = dispatched j p s1
  | Ok (None, _) s' =>
      s' = s1 <| held := ls |> ∧
      (is_rr pol = true → ∀ k q, (i < k)%nat → l !! k = Some q → state q ≠ RUNNABLE)
  | _ => False
  end.
Proof.
  intros Hh Hl Hd. cbv zeta. unfold scheduler_back, switchkvm, lcr3, set_cpu_proc. munfold. simpl.
  destruct (is_rr pol) eqn:Er; [destruct (rr_next _ _) as [j|] eqn:Ej|].
  - apply rr_next_Some in Ej as (Hij & (p & Hp & Hr) & Hmin).
    destruct (Hd j p Hp Hr) as [Hk Hg]. erewrite dispatch_ok by done.
    split_and!; [done|done|lia| |]. { intros k q Hkj. apply Hmin. lia. }
    by exists p.
  - rewrite (release_cons _ ls) by done. split; [done|]. intros _ k q Hk.
    apply (proj1 (rr_next_None _ _) Ej). lia.
  - by rewrite (release_cons _ ls) by done.
Qed.

(** ** Switching away *)

(** The executing processor runs process [i]. *)
Definition runs (s : kernel) (i : nat) : Prop := cpu_proc (kcpu s) !! me (kcpu s) = Some (Some i).

Lemma myproc_runs s i : runs s i → myproc s = Ok (Some i) s.
Proof. unfold runs, myproc, gets. by intros ->. Qed.

Lemma curproc_runs s i : runs s i → curproc s = Ok i s.
Proof. intros H. unfold curproc. by rewrite (bind_ok _ _ _ _ _ (myproc_runs _ _ H)). Qed.

(** Only the locks held and the process table differ. *)
Definition with_table (f : list proc → list proc) (s : kernel) : kernel :=
  s <| kproc ::= λ k, k <| ptable ::= f |> |>.

Lemma sched_eq {A} pt s i p :
  held s = [LkPtable] → runs s i → ptable (kproc s) !! i = Some p → state p ≠ RUNNING →
  sched (A:=A) pt s = Sleep pt s.
Proof.
  intros Hh Hr Hp Hst. unfold sched, holding, getp.
  rewrite (bind_ok (gets _) _ _ _ _ eq_refl), (bind_ok (gets _) _ _ _ _ eq_refl), Hh.
  change (bool_decide (LkPtable ∈ [LkPtable])) with true. simpl.
  rewrite (bind_ok _ _ _ _ _ (curproc_runs _ _ Hr)), (bind_ok (gets _) _ _ _ _ eq_refl), Hp.
  simpl. by rewrite bool_decide_false.
Qed.

Definition put_to_sleep (ch : wchan) (p : proc) : proc :=
  p <| chan := Some ch |> <| state := SLEEPING |>.

(** [sleep] releases [lk] only once it has [ptable.lock], and leaves the
    process asleep with that lock alone held. *)
Lemma sleep_eq {A} ch lk s i p :
  held s = [lk] → runs s i → ptable (kproc s) !! i = Some p →
  sleep (A:=A) ch lk s = Sleep (AtSleep ch lk (ticks (kproc s)))
                    (with_table (alter (put_to_sleep ch) i) s <| held := [LkPtable] |>).
Proof.
  intros Hh Hr Hp. unfold sleep. rewrite (bind_ok _ _ _ _ _ (myproc_runs _ _ Hr)).
  rewrite (bind_ok _ _ s tt (s <| held := [LkPtable] |>)).
  - unfold get_ticks, sleep_marks, set_slot. cbn [run_ops run_op]. munfold. simpl.
    erewrite sched_eq; simpl; [|done|exact Hr| |].
    + unfold with_table. do 2 f_equal. unfold modify. simpl. f_equal. f_equal.
      by rewrite list_alter_alter_eq.
    + by rewrite !list_lookup_alter_eq, Hp.
    + done.
  - unfold sleep_locks. case_bool_decide as Hlk; subst; cbn [run_ops run_op].
    + by destruct s; simpl in *; subst.
    + rewrite (bind_ok (acquire LkPtable) _ s tt (s <| held ::= cons LkPtable |>))
        by (apply acquire_ok; rewrite Hh; set_solver).
      erewrite (bind_ok (release lk)) by (apply release_ok; simpl; rewrite Hh; set_solver).
      unfold ret. f_equal. unfold modify. simpl.
      rewrite Hh, filter_cons_True, filter_cons_False by (congruence || by intros []). done.
Qed.

Definition wake_yield (p : proc) : proc := p <| state := RUNNABLE |> <| yield_request := 0 |>.

Lemma yield_eq s i p :
  held s = [] → runs s i → ptable (kproc s) !! i = Some p →
  yield s = Sleep AtYield (with_table (alter wake_yield i) s <| held := [LkPtable] |>).
Proof.
  intros Hh Hr Hp. unfold yield.
  rewrite (bind_ok (acquire LkPtable) _ s tt (s <| held ::= cons LkPtable |>))
    by (apply acquire_ok; rewrite Hh; set_solver).
  rewrite (bind_ok curproc _ _ i (s <| held ::= cons LkPtable |>))
    by (by apply curproc_runs). unfold updp. munfold. simpl.
  erewrite sched_eq; simpl; [|by rewrite Hh|exact Hr| |].
  - unfold with_table. do 2 f_equal. unfold modify. simpl. rewrite Hh. f_equal. f_equal.
    by rewrite list_alter_alter_eq.
  - by rewrite !list_lookup_alter_eq, Hp.
  - done.
Qed.

Lemma wakeup_eq ch s :
  can_lock LkPtable s → wakeup ch s = Ok tt (with_table (fmap (wake (Some ch))) s).
Proof.
  intros Hl. unfold wakeup, wakeup_ops. cbn [run_ops run_op]. rewrite (bind_ok _ _ _ _ _ (acquire_ok _ _ Hl)).
  rewrite (bind_ok (modify_state _) _ _ _ _ eq_refl).
  erewrite (bind_ok (release LkPtable)) by (by apply (release_cons _ (held s))). by destruct s.
Qed.

(** [sched] does not return to its caller in the same run. *)
Lemma sched_not_ok {A} pt s (a : A) s' : sched pt s ≠ Ok a s'.
Proof.
  intros H. unfold sched in H.
  apply bind_inv_ok in H as (h & s1 & _ & H). apply bind_inv_ok in H as (n & s2 & _ & H).
  destruct (negb h); [done|]. destruct (negb _); [done|].
  apply bind_inv_ok in H as (i & s3 & _ & H). apply bind_inv_ok in H as (p & s4 & _ & H).
  by destruct (bool_decide _).
Qed.

Lemma sleep_not_ok {A} ch lk s (a : A) s' : sleep ch lk s ≠ Ok a s'.
Proof.
  intros H. unfold sleep in H. apply bind_inv_ok in H as ([i|] & s1 & _ & H); [|done].
  apply bind_inv_ok in H as ([] & s2 & _ & H). apply bind_inv_ok in H as (t & s3 & _ & H).
  apply bind_inv_ok in H as ([] & s4 & _ & H). by eapply sched_not_ok.
Qed.

(** What follows a call of [sched] or [sleep] is run by [scheduler] later. *)
Lemma sched_bind {A B} pt (f : A → KM B) s : bind (sched pt) f s = sched pt s.
Proof.
  unfold sched. rewrite bind_assoc, !(bind_ok (holding _) _ _ _ _ eq_refl).
  rewrite bind_assoc, !(bind_ok (gets _) _ _ _ _ eq_refl).
  destruct (negb _); [done|]. destruct (negb _); [done|].
  rewrite bind_assoc. apply bind_ext. intros i s1 _. rewrite bind_assoc.
  apply bind_ext. intros p s2 _. by destruct (bool_decide _).
Qed.

Lemma sleep_bind {A B} ch lk (f : A → KM B) s : bind (sleep ch lk) f s = sleep ch lk s.
Proof.
  unfold sleep. rewrite bind_assoc. apply bind_ext. intros [i|] s1 _; [|done].
  do 3 (rewrite bind_assoc; apply bind_ext; intros ? ? _). apply sched_bind.
Qed.

#[export] Instance no_sleep_sleep_resume i lk t : NoSleep (sleep_resume i lk t).
Proof. unfold sleep_resume, get_ticks, updp. solve_pres. Qed.

(** ** Properties *)

(** What each policy promises: slot [i] with process [p] goes before, or is,
    slot [j] with process [q]. *)
Definition precedes (pol : Z) (i : nat) (p : proc) (j : nat) (q : proc) : Prop :=
  (pol = SCHED_FCFS → createtime p ≤ createtime q ∧
     (createtime p = createtime q → (i ≤ j)%nat)) ∧
  (pol = SCHED_SJF → estimated_burst p ≤ estimated_burst q ∧
     (estimated_burst p = estimated_burst q → (i ≤ j)%nat)) ∧
  (pol = SCHED_BJF → priority p ≤ priority q ∧
     (priority p = priority q → createtime p ≤ createtime q ∧
        (createtime p = createtime q → (i ≤ j)%nat))) ∧
  (is_rr pol = true → (i ≤ j)%nat).

Lemma first_best_le better l i p j q :
  first_best better l i → l !! i = Some p → l !! j = Some q → state q = RUNNABLE →
  better q p = false ∧ (better p q = false → (i ≤ j)%nat).
Proof.
  intros (p' & Hp & _ & Hall) Hi Hj Hq. simplify_eq. destruct (Hall j q Hj Hq) as [H1 H2].
  split; [done|]. intros H3. destruct (decide (j < i)%nat); [|lia]. rewrite H2 in H3; done.
Qed.

Lemma chosen_precedes pol l seed i p j q :
  chosen pol l seed i → l !! i = Some p → l !! j = Some q → state q = RUNNABLE →
  precedes pol i p j q.
Proof.
  intros Hch Hi Hj Hq. unfold precedes, is_rr. unfold chosen in Hch. split_and!.
  - intros ->. destruct (first_best_le _ _ _ _ _ _ Hch Hi Hj Hq) as [H1 H2].
    unfold fcfs_better in *. lia.
  - intros ->. destruct (first_best_le _ _ _ _ _ _ Hch Hi Hj Hq) as [H1 H2].
    unfold sjf_better in *. lia.
  - intros ->. destruct (first_best_le _ _ _ _ _ _ Hch Hi Hj Hq) as [H1 H2].
    unfold bjf_better in *. lia.
  - destruct (pol =? SCHED_FCFS), (pol =? SCHED_SJF), (pol =? SCHED_BJF), (pol =? SCHED_RANDOM);
      try done. intros _. apply rr_next_Some in Hch as (_ & _ & Hmin).
    destruct (decide (j < i)%nat); [|lia]. destruct (Hmin j q); [lia|done..].
Qed.

(** The turn reports the policy in force. *)
Lemma scheduler_start_pol s r pol s' :
  scheduler_start s = Ok (r, pol) s' → pol = current_scheduler (kproc s).
Proof.
  intros H. unfold scheduler_start in H.
  apply bind_inv_ok in H as ([] & s1 & Ha & H). rewrite acquire_eq in Ha.
  destruct (bool_decide _); [done|]. injection Ha as <-.
  apply bind_inv_ok in H as (pol' & s2 & [= <- <-] & H). apply bind_inv_ok in H as (c & s3 & _ & H).
  destruct c; apply bind_inv_ok in H as (? & ? & _ & [= _ <- _]); done.
Qed.

Lemma scheduler_back_pol i s r pol pol' s' :
  scheduler_back i pol s = Ok (r, pol') s' → pol' = pol.
Proof.
  intros H. unfold scheduler_back in H. do 3 apply bind_inv_ok in H as (? & ? & _ & H).
  destruct (if is_rr pol then _ else _); apply bind_inv_ok in H as (? & ? & _ & [= _ <- _]); done.
Qed.

(** [C22] The scheduler gives the processor to the process the policy promises.
    If a process is RUNNABLE, the turn ends in a switch to a RUNNABLE process
    [p] such that, for every RUNNABLE process [q]: under FCFS [p] was created
    no later than [q]; under SJF its estimated burst is no longer; under BJF its
    priority number is no larger and, when equal, it was created no later; in
    each case with the lower slot winning a tie; under RR [p] has the lowest
    slot.  If no process is RUNNABLE the turn ends with nothing changed.  The
    scheduler waits for no other processor here: it is given [ptable.lock] and,
    where BJF has something to print ([may_print]), [cons.lock], which it does not
    hold already, with the cursor on the screen. *)
Theorem scheduler_policy s :
  can_lock LkPtable s → dispatchable (ptable (kproc s)) →
  (me (kcpu s) < length (cpu_proc (kcpu s)))%nat → may_print (current_scheduler (kproc s)) s →
  let l := ptable (kproc s) in
  let pol := current_scheduler (kproc s) in
  (Forall (λ p, state p ≠ RUNNABLE) l → scheduler_start s = Ok (None, pol) s) ∧
  ((∃ i p, l !! i = Some p ∧ state p = RUNNABLE) →
   ∃ i p s', scheduler_start s = Ok (Some i, pol) s' ∧ l !! i = Some p ∧ state p = RUNNABLE ∧
     ptable (kproc s') = alter (λ q, q <| state := RUNNING |>) i l ∧ runs s' i ∧
     ∀ j q, l !! j = Some q → state q = RUNNABLE → precedes pol i p j q).
Proof.
  intros Hl Hd Hme Hpr. cbv zeta. pose proof (scheduler_start_ok s Hl Hd) as H. cbv zeta in H. split.
  - intros Hno. destruct (scheduler_start s) as [[[i|] pol'] s'| |] eqn:E; try done.
    + destruct H as (_ & _ & p & _ & Hp & Hst & _). rewrite Forall_lookup in Hno. by destruct (Hno i p).
    + destruct H as [-> _]. by rewrite (scheduler_start_pol _ _ _ _ E).
  - intros (i0 & p0 & Hi0 & Hr0).
    destruct (scheduler_start s) as [[[i|] pol'] s'| |] eqn:E; try done.
    + destruct H as (-> & Hch & p & kc & Hp & Hst & ->). eexists i, p, _. split_and!; try done.
      * unfold runs. simpl. by rewrite list_lookup_insert_eq.
      * intros j q Hj Hq. by eapply chosen_precedes.
    + destruct H as (_ & Hno). rewrite Forall_lookup in Hno. by destruct (Hno i0 p0).
Qed.

(** Round robin passes over no one: when the process in slot [i] gives the
    processor back inside the pass, the scheduler goes to the next RUNNABLE slot
    after [i], or ends the pass when no slot after [i] is RUNNABLE; under the
    other policies it always ends the turn.  It is on the kernel's page table
    in between, and a turn that ends has released [ptable.lock]. *)
Theorem round_robin_next s i pol :
  held s = [LkPtable] → dispatchable (ptable (kproc s)) →
  (me (kcpu s) < length (cpu_proc (kcpu s)))%nat →
  let l := ptable (kproc s) in
  ∃ r s', scheduler_back i pol s = Ok (r, pol) s' ∧
  match r with
  | Some j => is_rr pol = true ∧ (i < j)%nat ∧ runs s' j ∧
      (∃ p, l !! j = Some p ∧ state p = RUNNABLE) ∧
      (∀ k q, (i < k < j)%nat → l !! k = Some q → state q ≠ RUNNABLE)
  | None => held s' = [] ∧ ptable (kproc s') = l ∧
      (is_rr pol = true → ∀ k q, (i < k)%nat → l !! k = Some q → state q ≠ RUNNABLE)
  end.
Proof.
  intros Hh Hd Hme. cbv zeta.
  pose proof (scheduler_back_ok s i pol [] Hh ltac:(apply not_elem_of_nil) Hd) as H. cbv zeta in H.
  destruct (scheduler_back i pol s) as [[r pol'] s'| |] eqn:E; try done.
  assert (pol' = pol) as -> by (by eapply scheduler_back_pol).
  exists r, s'. split; [done|]. destruct r as [j|].
  - destruct H as (_ & Hrr & Hij & Hmin & p & Hp & Hst & ->). split_and!; try done; [|by exists p].
    unfold runs. simpl. rewrite list_lookup_insert_eq; [done|]. by rewrite length_insert.
  - destruct H as (-> & Hno). done.
Qed.

(** ** Witnesses *)

(** Three processes, two of them RUNNABLE. *)
Definition sched_table : list proc :=
  [ proc0 <| state := SLEEPING |> <| pid := 1 |> <| chan := Some ChTicks |>;
    proc0 <| state := RUNNABLE |> <| pid := 2 |> <| kstack := PGSIZE |> <| pgdir := PGSIZE |>
          <| createtime := 9 |> <| estimated_burst := 5 |> <| priority := 60 |>;
    proc0 <| state := RUNNABLE |> <| pid := 10 |> <| kstack := PGSIZE |> <| pgdir := PGSIZE |>
          <| createtime := 10 |> <| estimated_burst := 5 |> <| priority := 20 |> ].

Definition sched_kernel (pol : Z) (ls : list lockid) : kernel :=
  kernel0 <| kproc ::= λ k, k <| ptable := sched_table |> <| current_scheduler := pol |> |>
          <| held := ls |>.

Lemma sched_table_dispatchable : dispatchable sched_table.
Proof. intros [|[|[|i]]] p Hp Hst; by simplify_eq/=. Qed.

Lemma scheduler_policy_witness :
  ∃ i p s', scheduler_start (sched_kernel SCHED_BJF []) = Ok (Some i, SCHED_BJF) s' ∧
    sched_table !! i = Some p ∧ ∀ j q, sched_table !! j = Some q → state q = RUNNABLE →
    precedes SCHED_BJF i p j q.
Proof.
  destruct (scheduler_policy (sched_kernel SCHED_BJF [])) as [_ H];
    [apply not_elem_of_nil|apply sched_table_dispatchable|simpl; lia|by split; [apply not_elem_of_nil|]|].
  destruct H as (i & p & s' & H1 & H2 & _ & _ & _ & H3).
  - eexists 2%nat, _. split; reflexivity.
  - exists i, p, s'. split; [exact H1|]. split; [exact H2|exact H3].
Defined.

Lemma round_robin_next_witness :
  ∃ r s', scheduler_back 1 SCHED_RR (sched_kernel SCHED_RR [LkPtable]) = Ok (r, SCHED_RR) s'.
Proof.
  destruct (round_robin_next (sched_kernel SCHED_RR [LkPtable]) 1 SCHED_RR) as (r & s' & H & _);
    [reflexivity|apply sched_table_dispatchable|simpl; lia|by exists r, s'].
Defined.

(** The same kernel with process 1 running on the first processor. *)
Definition sched_running (ls : list lockid) : kernel :=
  (sched_kernel SCHED_RR ls) <| kcpu ::= λ c, c <| cpu_proc := [Some 1%nat] |> |>.
