(* ===== verification/Wakeups.v ===== *)
(** * No wake-up is lost: sleep and wakeup on two processors

    A process has tested a condition under the lock [lk] and calls [sleep]; on
    another processor somebody makes the condition true under the same lock and
    calls [wakeup].  Here the two run instruction by instruction, in any order
    the locks allow. *)

From S2P Require Import Prelude Kernel Cstring Kalloc Vm Sched.

(** ** Processors that interleave *)

(** The kernel, the locks each processor holds, and what each has left to do. *)
Record mach := mkmach { mk : kernel; mlocks : list (list lockid); mtodo : list (list kop) }.

(** Processor [c] may execute [o]: a lock it wants is not another processor's. *)
Definition may_run (c : nat) (o : kop) (H : list (list lockid)) : Prop :=
  match o with
  | KAcq l => ∀ c' ls, H !! c' = Some ls → l ∈ ls → c' = c
  | _ => True
  end.

Inductive mach_step : mach → mach → Prop :=
| ms_run c o os ls k H T k' :
    T !! c = Some (o :: os) → H !! c = Some ls → may_run c o H →
    run_op o (on c ls k) = Ok tt k' →
    mach_step (mkmach k H T) (mkmach k' (<[c := held k']> H) (<[c := os]> T)).

(** Processor 0: the rest of [sleep] of process [i], and the release of
    [ptable.lock] by the scheduler or the process that [sched] switches to. *)
Definition sleeper (i : nat) (ch : wchan) (lk : lockid) : list kop :=
  sleep_locks lk ++ sleep_marks i ch ++ [KRel LkPtable].

(** Processor 1: a section under [lk] that changes the state by [g] and wakes
    the channel. *)
Definition waker (g : kernel → kernel) (ch : wchan) (lk : lockid) : list kop :=
  [KAcq lk; KDo g] ++ wakeup_ops ch ++ [KRel lk].

(** ** Where the two can be *)

Section wakeups.
Context (i : nat) (ch : wchan) (lk : lockid) (g : kernel → kernel).
Context (Hlk : lk ≠ LkPtable).
Context (Hg : ∀ k, ptable (kproc (g k)) = ptable (kproc k) ∧ held (g k) = held k).

(** The sleeper after [n] instructions, and the waker after [m]. *)
Definition sleeper_locks (n : nat) : list lockid :=
  match n with 0 => [lk] | 1 => [LkPtable; lk] | 2 | 3 | 4 => [LkPtable] | _ => [] end%nat.
Definition waker_locks (m : nat) : list lockid :=
  match m with 1 | 2 | 5 => [lk] | 3 | 4 => [LkPtable; lk] | _ => [] end%nat.

(** The slot of the sleeper. *)
Definition slot_at (n m : nat) (p : proc) : Prop :=
  (n = 3%nat → chan p = Some ch) ∧
  ((4 ≤ n)%nat → (m ≤ 3)%nat → state p = SLEEPING ∧ chan p = Some ch) ∧
  ((4 ≤ m)%nat → state p = RUNNABLE).

Definition both_at (σ : mach) (n m : nat) : Prop :=
  mlocks σ = [sleeper_locks n; waker_locks m] ∧
  mtodo σ = [drop n (sleeper i ch lk); drop m (waker g ch lk)] ∧
  (n ≤ 5)%nat ∧ (m ≤ 6)%nat ∧ ((n < 2)%nat → m = 0%nat) ∧ ((3 ≤ m)%nat → n = 5%nat) ∧
  ∃ p, ptable (kproc (mk σ)) !! i = Some p ∧ slot_at n m p.

Lemma sleeper_eq : sleeper i ch lk = [KAcq LkPtable; KRel lk; KDo (set_slot i (λ q, q <| chan := Some ch |>));
  KDo (set_slot i (λ q, q <| state := SLEEPING |>)); KRel LkPtable].
Proof. unfold sleeper, sleep_locks. by rewrite bool_decide_false. Qed.

(** The next instruction of the sleeper can always be executed. *)
Lemma sleeper_next σ n m :
  both_at σ n m → (n < 5)%nat →
  ∃ o k', drop n (sleeper i ch lk) = o :: drop (S n) (sleeper i ch lk) ∧ may_run 0 o (mlocks σ) ∧
    run_op o (on 0 (sleeper_locks n) (mk σ)) = Ok tt k' ∧ held k' = sleeper_locks (S n) ∧
    ∃ p, ptable (kproc k') !! i = Some p ∧ slot_at (S n) m p.
Proof.
  intros (HH & HT & Hn & Hm & Hn2 & Hm3 & p & Hp & Hs1 & Hs2 & Hs3) Hlt. rewrite sleeper_eq, HH.
  assert (Hm2 : (m ≤ 2)%nat) by lia. unfold slot_at in *.
  destruct n as [|[|[|[|[|n]]]]]; [..|lia]; cbn [drop sleeper_locks]; eexists _, _; (split; [done|]); cbn [may_run run_op].
  - rewrite Hn2 by lia. split; [|rewrite acquire_ok by set_solver; split; [done|split; [done|exists p; split; [done|lia]]]].
    intros [|[|c]] ls Hc Hl; simplify_eq/=; set_solver.
  - rewrite release_ok by (simpl; set_solver). split; [done|]. split; [done|].
    split; [simpl; rewrite filter_cons_True, filter_cons_False by (congruence || by intros []); done|].
    exists p. split; [done|lia].
  - split; [done|]. split; [done|]. split; [done|]. simpl. rewrite list_lookup_alter_eq, Hp. eexists. split; [done|].
    split; [done|]. lia.
  - split; [done|]. split; [done|]. split; [done|]. simpl. rewrite list_lookup_alter_eq, Hp. eexists. split; [done|].
    split; [done|]. split; [|lia]. intros _ _. split; [done|]. by apply Hs1.
  - rewrite release_last by done. split; [done|]. split; [done|]. split; [done|]. exists p. split; [done|].
    split; [lia|]. split; [intros _ _; apply Hs2; lia|lia].
Qed.

(** The waker's, if the sleeper does not have the lock it wants. *)
Lemma waker_next σ n m :
  both_at σ n m → (m < 6)%nat →
  ∃ o, drop m (waker g ch lk) = o :: drop (S m) (waker g ch lk) ∧
    (n = 5%nat → may_run 1 o (mlocks σ)) ∧
    (may_run 1 o (mlocks σ) → ((n < 2)%nat → S m = 0%nat) ∧ ((3 ≤ S m)%nat → n = 5%nat) ∧
     ∃ k', run_op o (on 1 (waker_locks m) (mk σ)) = Ok tt k' ∧ held k' = waker_locks (S m) ∧
       ∃ p, ptable (kproc k') !! i = Some p ∧ slot_at n (S m) p).
Proof.
  intros (HH & HT & Hn & Hm & Hn2 & Hm3 & p & Hp & Hs1 & Hs2 & Hs3) Hlt. rewrite HH. unfold slot_at in *.
  destruct m as [|[|[|[|[|[|m]]]]]]; [..|lia]; cbn [drop waker_locks]; eexists; (split; [done|]); cbn [may_run run_op].
  - split. { intros ->. intros [|[|c]] ls Hc Hl; simplify_eq/=; set_solver. }
    intros Hr. assert (2 ≤ n)%nat.
    { destruct n as [|[|n]]; [..|lia]; specialize (Hr 0%nat _ eq_refl); simpl in Hr; exfalso;
        assert (0%nat = 1%nat) by (apply Hr; set_solver); done. }
    split; [lia|]. split; [lia|]. rewrite acquire_ok by set_solver. eexists. split; [done|]. split; [done|].
    exists p. split; [done|]. split; [done|]. split; [intros; apply Hs2; lia|lia].
  - split; [done|]. intros _. split; [lia|]. split; [lia|]. eexists. split; [done|].
    destruct (Hg (on 1 [lk] (mk σ))) as [Ht Hh]. split; [exact Hh|]. exists p. split; [exact (eq_trans (f_equal (.!! i) Ht) Hp)|].
    split; [done|]. split; [intros; apply Hs2; lia|lia].
  - split. { intros ->. intros [|[|c]] ls Hc Hl; simplify_eq/=; set_solver. }
    intros Hr. assert (n = 5%nat) as ->.
    { destruct n as [|[|[|[|[|n]]]]]; try lia; specialize (Hr 0%nat _ eq_refl); simpl in Hr; exfalso;
        assert (0%nat = 1%nat) by (apply Hr; set_solver); done. }
    split; [lia|]. split; [lia|]. rewrite acquire_ok by (simpl; set_solver). eexists. split; [done|]. split; [done|].
    exists p. split; [done|]. split; [lia|]. split; [intros; apply Hs2; lia|lia].
  - assert (n = 5%nat) as -> by lia. split; [done|]. intros _. split; [lia|]. split; [lia|]. eexists. split; [done|].
    split; [done|]. simpl. rewrite list_lookup_fmap, Hp. eexists. split; [done|]. split; [lia|]. split; [lia|].
    intros _. destruct Hs2 as [E1 E2]; [lia..|]. unfold wake. by rewrite !bool_decide_true.
  - assert (n = 5%nat) as -> by lia. split; [done|]. intros _. split; [lia|]. split; [lia|].
    rewrite (release_cons _ [lk]) by (done || set_solver). eexists. split; [done|]. split; [done|]. exists p.
    split; [done|]. split; [lia|]. split; [lia|]. intros _. apply Hs3. lia.
  - assert (n = 5%nat) as -> by lia. split; [done|]. intros _. split; [lia|]. split; [lia|].
    rewrite release_last by done. eexists. split; [done|]. split; [done|]. exists p.
    split; [done|]. split; [lia|]. split; [lia|]. intros _. apply Hs3. lia.
Qed.

Lemma both_step σ σ' n m :
  both_at σ n m → mach_step σ σ' → both_at σ' (S n) m ∨ both_at σ' n (S m).
Proof.
  intros Hb Hst. destruct Hst as [c o os ls k H T k' HT HH Hr Hk]. pose proof Hb as (EH & ET & Hn & Hm & Hn2 & Hm3 & _).
  simpl in EH, ET. subst H T. destruct c as [|[|c]]; [| |done]; injection HT as HT; injection HH as <-.
  - left. destruct (decide (n < 5)%nat) as [Hlt|]; [|by rewrite sleeper_eq, drop_ge in HT by (simpl; lia)].
    destruct (sleeper_next _ _ _ Hb Hlt) as (o' & k'' & Ed & _ & Hk' & Hh & p & Hp & Hs). rewrite Ed in HT.
    injection HT as -> <-. simpl in Hk'. rewrite Hk' in Hk. injection Hk as <-. unfold both_at. cbn [mlocks mtodo mk]. rewrite Hh.
    split_and!; [done|done|lia|lia| |lia|by exists p]. intros. lia.
  - right. destruct (decide (m < 6)%nat) as [Hlt|]; [|by rewrite drop_ge in HT by (simpl; lia)].
    destruct (waker_next _ _ _ Hb Hlt) as (o' & Ed & _ & Hnx). rewrite Ed in HT. injection HT as -> <-.
    destruct (Hnx Hr) as (H2 & H3 & k'' & Hk' & Hh & p & Hp & Hs). simpl in Hk'. rewrite Hk' in Hk. injection Hk as <-.
    unfold both_at. cbn [mlocks mtodo mk]. rewrite Hh. split_and!; [done|done|lia|lia|done|done|by exists p].
Qed.

Lemma both_progress σ n m : both_at σ n m → (n < 5 ∨ m < 6)%nat → ∃ σ', mach_step σ σ'.
Proof.
  intros Hb Hlt. pose proof Hb as (EH & ET & Hn & Hm & Hn2 & Hm3 & _). destruct σ as [k H T]. simpl in EH, ET. subst H T.
  destruct (decide (n < 5)%nat) as [Hn5|Hn5].
  - destruct (sleeper_next _ _ _ Hb Hn5) as (o & k' & Ed & Hr & Hk & _). eexists.
    eapply (ms_run 0); [by rewrite Ed|done|done|exact Hk].
  - assert (n = 5%nat) as -> by lia. destruct (waker_next _ _ _ Hb ltac:(lia)) as (o & Ed & Hr & Hnx).
    destruct (Hnx (Hr eq_refl)) as (_ & _ & k' & Hk & _). eexists. eapply (ms_run 1); [by rewrite <-Ed|done|by apply Hr|exact Hk].
Qed.

Lemma both_reach k p σ :
  ptable (kproc k) !! i = Some p →
  star mach_step (mkmach k [[lk]; []] [sleeper i ch lk; waker g ch lk]) σ → ∃ n m, both_at σ n m.
Proof.
  intros Hp Hs. eapply (star_inv mach_step (λ σ, ∃ n m, both_at σ n m)); [|..|done].
  - exists 0%nat, 0%nat. split_and!; try done; try lia. exists p. split; [done|]. split_and!; lia.
  - intros τ τ' (n & m & Hb) Hst. destruct (both_step _ _ _ _ Hb Hst); eauto.
Qed.
End wakeups.

(** ** Properties *)

(** [C23] No wake-up is lost between testing a condition and sleeping on it.  A
    process calls [sleep] with the lock [lk] of the condition held, and another
    processor changes the state under [lk] and wakes the channel.  However the
    instructions of the two interleave, as far as the locks let them, they do not
    block each other, and when both are done the sleeper is RUNNABLE.  Run alone,
    [sleep] leaves the process asleep on the channel with [ptable.lock] held, and
    [wakeup] makes RUNNABLE every process that sleeps on the channel, and no
    other. *)
Theorem sleep_wakeup s ch lk i p g σ :
  lk ≠ LkPtable → held s = [lk] → runs s i → ptable (kproc s) !! i = Some p →
  (∀ k, ptable (kproc (g k)) = ptable (kproc k) ∧ held (g k) = held k) →
  star mach_step (mkmach s [[lk]; []] [sleeper i ch lk; waker g ch lk]) σ →
  ((∃ σ', mach_step σ σ') ∨
   (mtodo σ = [[]; []] ∧ mlocks σ = [[]; []] ∧ ∃ p', ptable (kproc (mk σ)) !! i = Some p' ∧ state p' = RUNNABLE)) ∧
  (∃ s1, sleep (A:=unit) ch lk s = Sleep (AtSleep ch lk (ticks (kproc s))) s1 ∧
    held s1 = [LkPtable] ∧
    ptable (kproc s1) !! i = Some (p <| chan := Some ch |> <| state := SLEEPING |>) ∧
    ∀ j, j ≠ i → ptable (kproc s1) !! j = ptable (kproc s) !! j) ∧
  (∀ s2, can_lock LkPtable s2 → ∃ s3, wakeup ch s2 = Ok tt s3 ∧
     ∀ j q, ptable (kproc s2) !! j = Some q →
       ptable (kproc s3) !! j =
       Some (if decide (state q = SLEEPING ∧ chan q = Some ch) then q <| state := RUNNABLE |> else q)).
Proof.
  intros Hlk Hh Hr Hp Hg Hs. split_and!.
  - destruct (both_reach i ch lk g Hlk Hg s p σ Hp Hs) as (n & m & Hb).
    destruct (decide (n < 5 ∨ m < 6)%nat) as [Hlt|Hge]; [left; by eapply both_progress|right].
    destruct Hb as (EH & ET & Hn & Hm & _ & _ & q & Hq & _ & _ & Hst).
    assert (n = 5%nat) as -> by lia. assert (m = 6%nat) as -> by lia.
    rewrite EH, ET, sleeper_eq by done. split_and!; [done|done|]. exists q. split; [done|]. apply Hst. lia.
  - eexists. split; [by eapply sleep_eq|]. split_and!; [done|simpl; by rewrite list_lookup_alter_eq, Hp|].
    intros j Hj. simpl. by rewrite list_lookup_alter_ne.
  - intros s2 Hl. eexists. split; [by apply wakeup_eq|]. intros j q Hq. simpl.
    rewrite list_lookup_fmap, Hq. simpl. f_equal. unfold wake.
    do 2 case_bool_decide; simpl; case_decide; tauto.
Qed.

(** ** Witness *)

(** Process 1 waits for a tick of the clock. *)
Definition wakeups_kernel : kernel :=
  kernel0 <| kproc ::= λ k, k <| ptable := [proc0; proc0 <| state := RUNNING |> <| pid := 2 |>] |> |>
          <| kcpu ::= λ c, c <| cpu_proc := [Some 1%nat] |> |> <| held := [LkTicks] |>.
Definition tick (s : kernel) : kernel := s <| kproc ::= λ k, k <| ticks ::= λ t, u32 (t + 1) |> |>.

Lemma sleep_wakeup_witness :
  ∃ s1, sleep (A:=unit) ChTicks LkTicks wakeups_kernel = Sleep (AtSleep ChTicks LkTicks 0) s1 ∧ held s1 = [LkPtable].
Proof.
  destruct (sleep_wakeup wakeups_kernel ChTicks LkTicks 1 (proc0 <| state := RUNNING |> <| pid := 2 |>) tick
              (mkmach wakeups_kernel [[LkTicks]; []] [sleeper 1 ChTicks LkTicks; waker tick ChTicks LkTicks]))
    as (_ & (s1 & H1 & H2 & _) & _).
  - discriminate.
  - reflexivity.
  - reflexivity.
  - reflexivity.
  - intros k. split; reflexivity.
  - apply star_refl.
  - exists s1. split; [exact H1|exact H2].
Defined.
