(* ===== verification/Proc.v ===== *)
(** * Processes: the table operations of proc.c

    [allocproc], [growproc], [wait], [waitx], [kill], [get_uncle_count] and the
    parts of [fork] and [exit] that work on the process table.  Procsys.v puts
    them together with the scheduler on several processors; Fork.v adds the
    files and directories to [fork], [exit] and [userinit]. *)

From S2P Require Import Prelude Kernel Cstring Kalloc Vm Sched.

(** ** Making a process *)

Definition SIZEOF_TRAPFRAME : Z := 76.
Definition SIZEOF_CONTEXT : Z := 20.

(** The slot [found:] initialises; [p->killed] and the rest stay as they were. *)
Definition embryo (pid' now : Z) (p : proc) : proc :=
  p <| state := EMBRYO |> <| pid := pid' |> <| createtime := now |>
    <| syscall_count := 0 |> <| good_syscall_count := 0 |> <| runtime := 0 |>
    <| sleeptime := 0 |> <| exittime := 0 |> <| priority := 60 |> <| estimated_burst := 5 |>
    <| last_burst_ticks := 0 |> <| pticks := 0 |> <| yield_request := 0 |>.

(** [allocproc] up to the release of the lock. *)
Definition allocproc_slot : KM (option nat) :=
  acquire LkPtable ;;
  l ← gets (λ s, ptable (kproc s));
  match find_index (λ p, bool_decide (state p = UNUSED)) l with
  | None => release LkPtable ;; ret None
  | Some i =>
      n ← gets (λ s, nextpid (kproc s));
      t ← get_ticks;
      modify_state (λ s, s <| kproc ::= λ k, k <| nextpid := s32 (n + 1) |> |>) ;;
      updp i (embryo n t) ;;
      release LkPtable ;;
      ret (Some i)
  end.

(** The rest of [allocproc]: the kernel stack, with the return address
    [trapret] above a context that starts at [forkret]. *)
Definition allocproc_stack (i : nat) : KM (option nat) :=
  k ← kalloc;
  updp i (λ p, p <| kstack := k |>) ;;
  if k =? 0 then
    updp i (λ p, p <| state := UNUSED |>) ;;
    ret None
  else
    v ← gets kvm;
    let sp := k + KSTACKSIZE - SIZEOF_TRAPFRAME - 4 in
    wr32 sp (sym_trapret v) ;;
    updp i (λ p, p <| ctx := ctx0 <| cx_eip := sym_forkret v |> |>) ;;
    ret (Some i).

Definition allocproc : KM (option nat) :=
  p ← allocproc_slot;
  match p with
  | None => ret None
  | Some i => allocproc_stack i
  end.

(** [fork] gives up: [copyuvm] found no memory. *)
Definition fork_abort (np : nat) : KM unit :=
  p ← getp np;
  kfree (kstack p) ;;
  updp np (λ q, q <| kstack := 0 |>) ;;
  updp np (λ q, q <| state := UNUSED |>).

(** The child [fork] makes of the current process [c] in slot [cur], on page
    table [d], with the duplicates of the open files. *)
Definition fork_ofile (c : proc) (np : proc) : list (option nat) :=
  zip_with (λ f g, if f is Some _ then f else g) (ofile c) (ofile np).

Definition fork_image (cur : nat) (c : proc) (d : Z) (np : proc) : proc :=
  np <| pgdir := d |> <| sz := sz c |> <| parent := Some cur |>
     <| tf := (tf c) <| tf_eax := 0 |> |> <| ofile := fork_ofile c np |> <| cwd := cwd c |>
     <| name := safestrcpy (name np) (name c) 16 |>.

(** [fork] (and [userinit]) let the scheduler see the process. *)
Definition publish (np : nat) : KM unit :=
  acquire LkPtable ;;
  updp np (λ p, p <| state := RUNNABLE |>) ;;
  release LkPtable.

Definition growproc (n : Z) : KM Z :=
  i ← curproc;
  p ← getp i;
  r ← (if 0 <? n then
     z ← allocuvm (pgdir p) (sz p) (u32 (sz p + n));
     ret (if z =? 0 then None else Some z)
   else if n <? 0 then
     z ← deallocuvm (pgdir p) (sz p) (u32 (sz p + n));
     ret (if z =? 0 then None else Some z)
   else ret (Some (sz p)));
  match r with
  | None => ret (-1)
  | Some z =>
      updp i (λ q, q <| sz := z |>) ;;
      switchuvm (Some i) ;;
      ret 0
  end.

(** ** Ending a process *)

(** [exit] up to the closing of the files. *)
Definition exit_enter : KM nat :=
  cur ← curproc;
  ini ← gets (λ s, initproc (kproc s));
  if bool_decide (ini = Some cur) then panic "init exiting" else ret cur.

(** [exit] from [acquire(&ptable.lock)] on: the process's files and directory
    are closed already. *)
Definition exit_table (cur : nat) : KM unit :=
  acquire LkPtable ;;
  c ← getp cur;
  ini ← gets (λ s, initproc (kproc s));
  wakeup1 (ChProc <$> parent c) ;;
  for_each (seq 0 NPROC) (λ j,
    p ← getp j;
    if bool_decide (parent p = Some cur) then
      updp j (λ q, q <| parent := ini |>) ;;
      if bool_decide (state p = ZOMBIE) then wakeup1 (ChProc <$> ini) else ret tt
    else ret tt) ;;
  t ← get_ticks;
  updp cur (λ q, q <| exittime := t |>) ;;
  updp cur (λ q, q <| state := ZOMBIE |>) ;;
  sched AtExit.

(** The scan of [wait]: the first zombie child of [cur], and [havekids]. *)
Fixpoint wait_scan (cur i : nat) (l : list proc) (havekids : bool) : option nat * bool :=
  match l with
  | [] => (None, havekids)
  | p :: l' =>
      if negb (bool_decide (parent p = Some cur)) then wait_scan cur (S i) l' havekids
      else if bool_decide (state p = ZOMBIE) then (Some i, true)
      else wait_scan cur (S i) l' true
  end.

(** A reaped slot. *)
Definition reaped (p : proc) : proc :=
  p <| pid := 0 |> <| parent := None |> <| name ::= <[0%nat := 0]> |> <| killed := 0 |>
    <| state := UNUSED |>.

Definition reap (i : nat) : KM unit :=
  p ← getp i;
  kfree (kstack p) ;;
  updp i (λ q, q <| kstack := 0 |>) ;;
  freevm (pgdir p) ;;
  updp i reaped ;;
  release LkPtable.

(** One turn of the loop of [wait], with the lock held. *)
Definition wait_turn (cur : nat) : KM Z :=
  l ← gets (λ s, ptable (kproc s));
  match wait_scan cur 0 l false with
  | (Some i, _) =>
      p ← getp i;
      reap i ;;
      ret (pid p)
  | (None, havekids) =>
      c ← getp cur;
      if negb havekids || negb (killed c =? 0) then release LkPtable ;; ret (-1)
      else sleep (ChProc cur) LkPtable
  end.

Definition wait : KM Z :=
  cur ← curproc;
  acquire LkPtable ;;
  wait_turn cur.

(** [wait] continues after its [sleep]. *)
Definition wait_resume (cur : nat) (start_ticks : Z) : KM Z :=
  sleep_resume cur LkPtable start_ticks ;;
  wait_turn cur.

(** [waitx] also stores through its two pointers when it reaps a child. *)
Definition waitx_turn (cur : nat) : KM (Z * option (Z * Z)) :=
  l ← gets (λ s, ptable (kproc s));
  match wait_scan cur 0 l false with
  | (Some i, _) =>
      p ← getp i;
      reap i ;;
      ret (pid p, Some (s32 (u32 (u32 (exittime p - createtime p) - runtime p)), s32 (runtime p)))
  | (None, havekids) =>
      c ← getp cur;
      if negb havekids || negb (killed c =? 0) then release LkPtable ;; ret (-1, None)
      else sleep (ChProc cur) LkPtable
  end.

Definition waitx : KM (Z * option (Z * Z)) :=
  cur ← curproc;
  acquire LkPtable ;;
  waitx_turn cur.

Definition waitx_resume (cur : nat) (start_ticks : Z) : KM (Z * option (Z * Z)) :=
  sleep_resume cur LkPtable start_ticks ;;
  waitx_turn cur.

(** ** Naming a process by its pid *)

(** What [kill] does to the process it finds. *)
Definition killed_proc (p : proc) : proc :=
  let p' := p <| killed := 1 |> in
  if bool_decide (state p' = SLEEPING) then p' <| state := RUNNABLE |> else p'.

Definition kill (pid' : Z) : KM Z :=
  acquire LkPtable ;;
  l ← gets (λ s, ptable (kproc s));
  match find_index (λ p, pid p =? pid') l with
  | Some i =>
      updp i killed_proc ;;
      release LkPtable ;;
      ret 0
  | None => release LkPtable ;; ret (-1)
  end.

Definition is_uncle (l : list proc) (grandparent parent' j : nat) : bool :=
  match l !! j with
  | Some p => negb (bool_decide (state p = UNUSED)) && bool_decide (parent p = Some grandparent) &&
              negb (j =? parent')%nat
  | None => false
  end.

Definition get_uncle_count (pid' : Z) : KM Z :=
  acquire LkPtable ;;
  l ← gets (λ s, ptable (kproc s));
  let found := find_index (λ p, negb (bool_decide (state p = UNUSED)) && (pid p =? pid')) l in
  let par := (found ≫= λ i, l !! i) ≫= parent in
  match par with
  | None => release LkPtable ;; ret (-1)
  | Some q =>
      pq ← getp q;
      match parent pq with
      | None => release LkPtable ;; ret 0
      | Some g =>
          release LkPtable ;;
          ret (Z.of_nat (length (filter (is_uncle l g q) (seq 0 NPROC))))
      end
  end.

#[local] Opaque acquire release.

(** ** What the operations do to the table *)

Lemma acquire_ptable s : held s = [] → acquire LkPtable s = Ok tt (s <| held := [LkPtable] |>).
Proof.
  intros Hh. rewrite acquire_ok by (rewrite Hh; apply not_elem_of_nil).
  by destruct s; simpl in *; subst.
Qed.

Lemma release_ptable s : held s = [LkPtable] → release LkPtable s = Ok tt (s <| held := [] |>).
Proof. intros Hh. apply (release_cons _ []); [done|apply not_elem_of_nil]. Qed.

Lemma updp_eq i f s : updp i f s = Ok tt (with_table (alter f i) s).
Proof. done. Qed.

Lemma kill_eq pid' s :
  held s = [] →
  kill pid' s = match find_index (λ p, pid p =? pid') (ptable (kproc s)) with
                | Some i => Ok 0 (with_table (alter killed_proc i) s)
                | None => Ok (-1) s
                end.
Proof.
  intros Hh. unfold kill. rewrite (bind_ok _ _ _ _ _ (acquire_ptable _ Hh)).
  rewrite (bind_ok (gets _) _ _ _ _ eq_refl).
  destruct (find_index _ _) as [i|] eqn:E.
  - rewrite (bind_ok _ _ _ _ _ (updp_eq _ _ _)).
    erewrite (bind_ok (release LkPtable)) by (by apply release_ptable).
    by destruct s; simpl in *; subst.
  - erewrite (bind_ok (release LkPtable)) by (by apply release_ptable).
    by destruct s; simpl in *; subst.
Qed.

Lemma publish_eq np s :
  held s = [] →
  publish np s = Ok tt (with_table (alter (λ p, p <| state := RUNNABLE |>) np) s).
Proof.
  intros Hh. unfold publish. rewrite (bind_ok _ _ _ _ _ (acquire_ptable _ Hh)).
  rewrite (bind_ok _ _ _ _ _ (updp_eq _ _ _)), release_ptable by done.
  by destruct s; simpl in *; subst.
Qed.

Lemma allocproc_slot_eq s :
  held s = [] →
  allocproc_slot s =
  match find_index (λ p, bool_decide (state p = UNUSED)) (ptable (kproc s)) with
  | Some i => Ok (Some i) (with_table (alter (embryo (nextpid (kproc s)) (ticks (kproc s))) i) s
                <| kproc ::= λ k, k <| nextpid := s32 (nextpid (kproc s) + 1) |> |>)
  | None => Ok None s
  end.
Proof.
  intros Hh. unfold allocproc_slot. rewrite (bind_ok _ _ _ _ _ (acquire_ptable _ Hh)).
  rewrite (bind_ok (gets _) _ _ _ _ eq_refl).
  destruct (find_index _ _) as [i|] eqn:E.
  - unfold get_ticks, updp. munfold. rewrite release_ptable by done.
    by destruct s; simpl in *; subst.
  - erewrite (bind_ok (release LkPtable)) by (by apply release_ptable). by destruct s; simpl in *; subst.
Qed.

(** The scan of [wait] finds the first zombie child, if there is one. *)
Lemma wait_scan_spec cur l : ∀ i hk,
  match wait_scan cur i l hk with
  | (Some j, _) => ∃ k p, j = (i + k)%nat ∧ l !! k = Some p ∧ parent p = Some cur ∧
                   state p = ZOMBIE ∧
                   ∀ k' q, (k' < k)%nat → l !! k' = Some q → parent q = Some cur → state q ≠ ZOMBIE
  | (None, hk') => (∀ k p, l !! k = Some p → parent p = Some cur → state p ≠ ZOMBIE) ∧
                   (hk' = true ↔ hk = true ∨ ∃ k p, l !! k = Some p ∧ parent p = Some cur)
  end.
Proof.
  induction l as [|p l IH]; intros i hk; simpl.
  { split; [done|]. split; [by left|]. by intros [|(? & ? & ? & _)]. }
  assert (Hstep : ∀ hk', (parent p = Some cur → state p ≠ ZOMBIE) →
    (hk' = true ↔ hk = true ∨ parent p = Some cur) →
    match wait_scan cur (S i) l hk' with
    | (Some j, _) => ∃ k q, j = (i + k)%nat ∧ (p :: l) !! k = Some q ∧ parent q = Some cur ∧
                   state q = ZOMBIE ∧ ∀ k' q', (k' < k)%nat → (p :: l) !! k' = Some q' →
                   parent q' = Some cur → state q' ≠ ZOMBIE
    | (None, h) => (∀ k q, (p :: l) !! k = Some q → parent q = Some cur → state q ≠ ZOMBIE) ∧
                   (h = true ↔ hk = true ∨ ∃ k q, (p :: l) !! k = Some q ∧ parent q = Some cur)
    end).
  { intros hk' Hp Hhk. specialize (IH (S i) hk'). destruct (wait_scan cur (S i) l hk') as [[j|] h].
    - destruct IH as (k & q & -> & Hk & ? & ? & Hmin). exists (S k), q.
      split_and!; [lia|done..|]. intros [|k'] q' Hk' Hq'; [by simplify_eq/=|].
      apply (Hmin k'); [lia|done].
    - destruct IH as [Hno Hh]. split; [intros [|k] q Hq; [by simplify_eq/=|by eapply Hno]|].
      rewrite Hh, Hhk. split.
      + intros [[?|?]|(k & q & ?)]; [by left|right; by exists 0%nat, p|right; by exists (S k), q].
      + intros [?|([|k] & q & Hq & ?)]; simplify_eq/=; eauto. }
  case_bool_decide as Hpar; simpl; [case_bool_decide as Hz|].
  - exists 0%nat, p. split_and!; [lia|done..|]. intros; lia.
  - apply Hstep; [done|]. split; [by right|done].
  - apply Hstep; [done|]. split; [by left|by intros [|]].
Qed.

(** The state after a change of the table and of memory, with the lock free. *)
Definition table_and_mem (f : list proc → list proc) (s s' : kernel) : Prop :=
  ∃ fr b, s' = with_table f s <| kmem ::= λ k, k <| freelist := fr |> <| bytes := b |> |>
                 <| held := [] |>.

Definition reaped_slot (p : proc) : proc := reaped (p <| kstack := 0 |>).

Lemma kmem_frame_inv {A} (m : KM A) `{!KmemOnly m} s a s' :
  m s = Ok a s' → ∃ fr b, s' = s <| kmem ::= λ k, k <| freelist := fr |> <| bytes := b |> |>.
Proof. exact (pres_ok kmem_frame (λ _ _, False) m s a s'). Qed.

Lemma reap_ok i s s' :
  held s = [LkPtable] → reap i s = Ok tt s' → table_and_mem (alter reaped_slot i) s s'.
Proof.
  intros Hh H. unfold reap in H.
  apply bind_inv_ok in H as (p & s1 & [= <- <-] & H).
  apply bind_inv_ok in H as ([] & s2 & (f1 & b1 & ->)%kmem_frame_inv & H); [|exact _].
  apply bind_inv_ok in H as ([] & s3 & [= <-] & H).
  apply bind_inv_ok in H as ([] & s4 & (f2 & b2 & ->)%kmem_frame_inv & H); [|exact _].
  apply bind_inv_ok in H as ([] & s5 & [= <-] & H).
  rewrite release_ptable in H by done. simplify_eq. exists f2, b2.
  unfold with_table, modify. simpl. do 2 f_equal. by rewrite list_alter_alter_eq.
Qed.

#[export] Instance no_sleep_reap i : NoSleep (reap i).
Proof. unfold reap, getp, updp. solve_pres. Qed.

(** No child of [cur] has exited. *)
Definition no_zombie_child (cur : nat) (l : list proc) : Prop :=
  ∀ k p, l !! k = Some p → parent p = Some cur → state p ≠ ZOMBIE.

(** How one turn of [wait] ends. *)
Lemma wait_turn_ok cur s r s' :
  held s = [LkPtable] → wait_turn cur s = Ok r s' →
  (∃ i p, ptable (kproc s) !! i = Some p ∧ parent p = Some cur ∧ state p = ZOMBIE ∧ r = pid p ∧
          table_and_mem (alter reaped_slot i) s s') ∨
  (no_zombie_child cur (ptable (kproc s)) ∧ r = -1 ∧ s' = s <| held := [] |>).
Proof.
  intros Hh H. unfold wait_turn in H. rewrite (bind_ok (gets _) _ _ _ _ eq_refl) in H.
  pose proof (wait_scan_spec cur (ptable (kproc s)) 0 false) as Hscan.
  destruct (wait_scan _ _ _ _) as [[i|] hk].
  - destruct Hscan as (k & p & -> & Hp & Hpar & Hz & _). simpl in H. left. exists k, p.
    apply bind_inv_ok in H as (p' & s1 & [= <- <-] & H).
    apply bind_inv_ok in H as ([] & s2 & Hr & [= <- <-]). rewrite Hp.
    split_and!; try done. by apply reap_ok.
  - destruct Hscan as [Hno _]. apply bind_inv_ok in H as (c & s1 & [= <- <-] & H).
    destruct (negb hk || _).
    + rewrite (bind_ok _ _ _ _ _ (release_ptable s Hh)) in H. injection H as <- <-. right. split; [exact Hno|done].
    + by apply sleep_not_ok in H.
Qed.

Lemma wait_turn_sleep cur s pt s' :
  held s = [LkPtable] → runs s cur → is_Some (ptable (kproc s) !! cur) →
  wait_turn cur s = Sleep pt s' →
  no_zombie_child cur (ptable (kproc s)) ∧ pt = AtSleep (ChProc cur) LkPtable (ticks (kproc s)) ∧
  s' = with_table (alter (put_to_sleep (ChProc cur)) cur) s.
Proof.
  intros Hh Hr [c Hc] H. unfold wait_turn in H. rewrite (bind_ok (gets _) _ _ _ _ eq_refl) in H.
  pose proof (wait_scan_spec cur (ptable (kproc s)) 0 false) as Hscan.
  destruct (wait_scan _ _ _ _) as [[i|] hk].
  - exfalso. unfold getp in H. rewrite (bind_ok (gets _) _ _ _ _ eq_refl) in H.
    unfold bind in H. destruct (reap i s) eqn:E; try done. by apply no_sleep in E; [|exact _].
  - destruct Hscan as [Hno _]. unfold getp in H. rewrite (bind_ok (gets _) _ _ _ _ eq_refl) in H.
    destruct (negb hk || _).
    + by rewrite (bind_ok _ _ _ _ _ (release_ptable s Hh)) in H.
    + erewrite sleep_eq in H by done. simplify_eq. split_and!; [done..|].
      by destruct s; simpl in *; subst.
Qed.

(** [waitx] takes the same decisions as [wait]. *)
Lemma waitx_turn_wait cur s : wait_turn cur s = (r ← waitx_turn cur; ret r.1) s.
Proof.
  unfold wait_turn, waitx_turn. rewrite bind_assoc, !(bind_ok (gets _) _ _ _ _ eq_refl).
  destruct (wait_scan _ _ _ _) as [[i|] hk]; unfold getp;
    rewrite bind_assoc, !(bind_ok (gets _) _ _ _ _ eq_refl).
  - rewrite bind_assoc. unfold bind. by destruct (reap i s).
  - destruct (negb hk || _); [|by rewrite sleep_bind].
    rewrite bind_assoc. unfold bind. by destruct (release LkPtable s).
Qed.

(** One turn of the loop of [exit] over the table. *)
Definition adopt (cur : nat) (ini : option nat) (l : list proc) (j : nat) : list proc :=
  match l !! j with
  | Some p =>
      if bool_decide (parent p = Some cur) then
        let l' := alter (λ q, q <| parent := ini |>) j l in
        if bool_decide (state p = ZOMBIE) then wake (ChProc <$> ini) <$> l' else l'
      else l
  | None => l
  end.

Lemma adopt_length cur ini l j : length (adopt cur ini l j) = length l.
Proof. unfold adopt. repeat case_match; by rewrite ?length_fmap, ?length_alter. Qed.

Definition exited (now : Z) (p : proc) : proc := p <| exittime := now |> <| state := ZOMBIE |>.

Definition exit_loop (cur : nat) (ini : option nat) (js : list nat) (l : list proc) : list proc :=
  foldl (adopt cur ini) l js.

Lemma exit_loop_eq cur ini js : ∀ s,
  (∀ j, j ∈ js → (j < length (ptable (kproc s)))%nat) →
  for_each js (λ j,
    p ← getp j;
    if bool_decide (parent p = Some cur) then
      updp j (λ q, q <| parent := ini |>) ;;
      if bool_decide (state p = ZOMBIE) then wakeup1 (ChProc <$> ini) else ret tt
    else ret tt) s = Ok tt (with_table (exit_loop cur ini js) s).
Proof.
  induction js as [|j js IH]; intros s Hj; [by destruct s as [? ? []]|].
  cbn [for_each]. rewrite (bind_ok _ _ _ tt (with_table (λ l, adopt cur ini l j) s)).
  - rewrite IH; [done|]. intros k Hk. simpl. rewrite adopt_length. apply Hj. set_solver.
  - unfold getp. rewrite (bind_ok (gets _) _ _ _ _ eq_refl).
    destruct (lookup_lt_is_Some_2 (ptable (kproc s)) j) as [p Hp]; [apply Hj; set_solver|].
    unfold with_table, adopt, updp, wakeup1. munfold. rewrite Hp. simpl. rewrite Hp.
    case_bool_decide; [|by destruct s as [? ? []]]. by case_bool_decide.
Qed.

(** A scan of the table does not change which slots exist. *)
Lemma exit_loop_length cur ini js l : length (exit_loop cur ini js l) = length l.
Proof.
  unfold exit_loop. revert l. induction js as [|j js IH]; intros l; [done|].
  simpl. by rewrite IH, adopt_length.
Qed.

Lemma exit_enter_eq {A} (K : nat → KM A) i s :
  runs s i → (cur ← exit_enter; K cur) s =
    if bool_decide (initproc (kproc s) = Some i) then Panic "init exiting" else K i s.
Proof.
  intros Hr. unfold exit_enter. rewrite bind_assoc, (bind_ok _ _ _ _ _ (curproc_runs _ _ Hr)), bind_assoc.
  rewrite (bind_ok (gets _) _ _ _ _ eq_refl). by destruct (bool_decide _).
Qed.

Lemma exit_table_eq cur c s :
  held s = [] → runs s cur → ptable (kproc s) !! cur = Some c →
  length (ptable (kproc s)) = NPROC →
  exit_table cur s =
  Sleep AtExit
    (with_table (λ l, alter (exited (ticks (kproc s))) cur
                        (exit_loop cur (initproc (kproc s)) (seq 0 NPROC)
                           (wake (ChProc <$> parent c) <$> l))) s <| held := [LkPtable] |>).
Proof.
  intros Hh Hr Hc Hlen. unfold exit_table. rewrite (bind_ok _ _ _ _ _ (acquire_ptable _ Hh)).
  unfold getp at 1. rewrite !(bind_ok (gets _) _ _ _ _ eq_refl).
  set (s1 := s <| held := [LkPtable] |>).
  replace (ptable (kproc s1) !! cur) with (Some c) by (by rewrite <-Hc). cbn [default].
  rewrite (bind_ok (wakeup1 _) _ s1 tt (with_table (fmap (wake (ChProc <$> parent c))) s1)) by done.
  assert (Hj : ∀ j, j ∈ seq 0 NPROC →
    (j < length (ptable (kproc (with_table (fmap (wake (ChProc <$> parent c))) s1))))%nat).
  { intros j Hj%elem_of_seq. simpl. rewrite length_fmap. unfold s1. simpl. lia. }
  revert Hj. generalize (seq 0 NPROC). intros js Hj.
  rewrite (bind_ok (for_each _ _) _ _ _ _ (exit_loop_eq _ _ _ _ Hj)).
  unfold get_ticks. rewrite (bind_ok (gets _) _ _ _ _ eq_refl).
  rewrite !(bind_ok (updp _ _) _ _ _ _ eq_refl).
  destruct (lookup_lt_is_Some_2 (exit_loop cur (initproc (kproc s)) js
              (wake (ChProc <$> parent c) <$> ptable (kproc s))) cur) as [c' Hc'].
  { rewrite exit_loop_length, length_fmap. by eapply lookup_lt_Some. }
  erewrite sched_eq; [|done|exact Hr| |].
  - unfold with_table, modify, s1. simpl. by rewrite list_alter_alter_eq.
  - simpl. rewrite !list_lookup_alter_eq. unfold s1. simpl. by rewrite Hc'.
  - done.
Qed.

Lemma wait_eq s i :
  held s = [] → runs s i → wait s = wait_turn i (s <| held := [LkPtable] |>).
Proof.
  intros Hh Hr. unfold wait. rewrite (bind_ok _ _ _ _ _ (curproc_runs _ _ Hr)).
  by rewrite (bind_ok _ _ _ _ _ (acquire_ptable _ Hh)).
Qed.

Lemma waitx_eq s i :
  held s = [] → runs s i → waitx s = waitx_turn i (s <| held := [LkPtable] |>).
Proof.
  intros Hh Hr. unfold waitx. rewrite (bind_ok _ _ _ _ _ (curproc_runs _ _ Hr)).
  by rewrite (bind_ok _ _ _ _ _ (acquire_ptable _ Hh)).
Qed.

(** A result of [waitx], as the result of [wait] it goes with. *)
Lemma waitx_turn_ok cur s r s' : waitx_turn cur s = Ok r s' → wait_turn cur s = Ok r.1 s'.
Proof. intros H. by rewrite waitx_turn_wait, (bind_ok _ _ _ _ _ H). Qed.

Lemma waitx_turn_sleep cur s pt s' :
  waitx_turn cur s = Sleep pt s' → wait_turn cur s = Sleep pt s'.
Proof. intros H. rewrite waitx_turn_wait. unfold bind. by rewrite H. Qed.

Lemma get_uncle_count_ok pid' s r s' :
  held s = [] → get_uncle_count pid' s = Ok r s' → s' = s.
Proof.
  intros Hh H. unfold get_uncle_count in H. rewrite (bind_ok _ _ _ _ _ (acquire_ptable _ Hh)) in H.
  rewrite (bind_ok (gets _) _ _ _ _ eq_refl) in H. cbv zeta in H.
  assert (Hrel : ∀ a : Z, (release LkPtable ;; ret a) (s <| held := [LkPtable] |>) = Ok a s).
  { intros a. erewrite (bind_ok (release LkPtable)) by (by apply release_ptable).
    unfold ret. f_equal. by destruct s; simpl in *; subst. }
  destruct (_ ≫= parent) as [q|]; [|rewrite Hrel in H; congruence].
  apply bind_inv_ok in H as (pq & s1 & [= _ <-] & H).
  destruct (parent pq); rewrite Hrel in H; congruence.
Qed.

#[export] Instance no_sleep_get_uncle_count pid' : NoSleep (get_uncle_count pid').
Proof. unfold get_uncle_count, getp. solve_pres. Qed.

Lemma sleep_resume_ok i lk t s s' :
  held s = [LkPtable] → sleep_resume i lk t s = Ok tt s' →
  kcpu s' = kcpu s ∧
  ∃ f, kproc s' = (kproc s) <| ptable ::= alter f i |> ∧
       (∀ p, f p = p <| sleeptime := sleeptime (f p) |> <| chan := None |>) ∧
       (lk = LkPtable → s' = with_table (alter f i) s).
Proof.
  intros Hh H. unfold sleep_resume, get_ticks in H. rewrite (bind_ok (gets _) _ _ _ _ eq_refl) in H.
  rewrite !(bind_ok (updp _ _) _ _ _ _ eq_refl) in H.
  set (f := λ p : proc, p <| sleeptime ::= λ x, u32 (x + u32 (ticks (kproc s) - t)) |> <| chan := None |>).
  assert (Hf : ∀ l, alter (λ q, q <| chan := None |>) i
     (alter (λ q, q <| sleeptime ::= λ x, u32 (x + u32 (ticks (kproc s) - t)) |>) i l) = alter f i l)
    by (intros l; by rewrite list_alter_alter_eq).
  case_bool_decide as Hlk.
  - injection H as <-. split; [done|]. exists f. unfold with_table, modify. simpl. by rewrite Hf.
  - apply bind_inv_ok in H as ([] & s1 & Hrel & Hacq). rewrite release_ptable in Hrel by done.
    injection Hrel as <-. rewrite acquire_ok in Hacq by apply not_elem_of_nil. injection Hacq as <-.
    split; [done|]. exists f. unfold modify. simpl. by rewrite Hf.
Qed.

(** ** Properties *)

(** [j] is the first zombie child of [cur]. *)
Definition first_zombie_child (cur : nat) (l : list proc) (j : nat) (p : proc) : Prop :=
  l !! j = Some p ∧ parent p = Some cur ∧ state p = ZOMBIE ∧
  ∀ k q, (k < j)%nat → l !! k = Some q → parent q = Some cur → state q ≠ ZOMBIE.

Definition has_child (cur : nat) (l : list proc) : Prop :=
  ∃ k p, l !! k = Some p ∧ parent p = Some cur.

Lemma wait_scan_cases cur l :
  match wait_scan cur 0 l false with
  | (Some j, _) => ∃ p, first_zombie_child cur l j p
  | (None, hk) => no_zombie_child cur l ∧ (hk = true ↔ has_child cur l)
  end.
Proof.
  pose proof (wait_scan_spec cur l 0 false) as H.
  destruct (wait_scan cur 0 l false) as [[j|] hk].
  - destruct H as (k & p & -> & ? & ? & ? & ?). by exists p.
  - destruct H as [? Hk]. split; [done|]. rewrite Hk. unfold has_child. naive_solver.
Qed.

(** [wait], on every branch.  With a zombie child it frees the slot of the
    first one, its stack and its memory, and returns its pid; the only other
    possibility is a panic of the allocator over that memory.  With no zombie
    child it returns -1 if it has no child at all or was killed, and otherwise
    goes to sleep on itself with its children still there. *)
Theorem wait_spec s cur c :
  held s = [] → runs s cur → ptable (kproc s) !! cur = Some c →
  let l := ptable (kproc s) in
  match wait s with
  | Ok r s' =>
      (∃ j p, first_zombie_child cur l j p ∧ r = pid p ∧
              table_and_mem (alter reaped_slot j) s s') ∨
      (no_zombie_child cur l ∧ (¬ has_child cur l ∨ killed c ≠ 0) ∧ r = -1 ∧ s' = s)
  | Sleep pt s' =>
      no_zombie_child cur l ∧ has_child cur l ∧ killed c = 0 ∧
      pt = AtSleep (ChProc cur) LkPtable (ticks (kproc s)) ∧
      s' = with_table (alter (put_to_sleep (ChProc cur)) cur) s <| held := [LkPtable] |>
  | Panic _ => ∃ j p, first_zombie_child cur l j p
  end.
Proof.
  intros Hh Hr Hc. cbv zeta. rewrite (wait_eq _ cur) by done. unfold wait_turn.
  rewrite (bind_ok (gets _) _ _ _ _ eq_refl).
  change (ptable (kproc (s <| held := [LkPtable] |>))) with (ptable (kproc s)).
  pose proof (wait_scan_cases cur (ptable (kproc s))) as Hscan.
  destruct (wait_scan cur 0 _ false) as [[j|] hk].
  - destruct Hscan as [p Hz]. unfold getp. rewrite (bind_ok (gets _) _ _ _ _ eq_refl).
    unfold bind. destruct (reap j _) as [[] s2| |] eqn:E; [|by exists j, p|].
    + left. exists j, p. split; [done|]. destruct Hz as (Hj & _). simpl. rewrite Hj.
      split; [done|]. apply reap_ok in E as (fr & b & ->); [|done]. by exists fr, b.
    + by apply no_sleep in E; [|exact _].
  - destruct Hscan as [Hno Hk]. unfold getp. rewrite (bind_ok (gets _) _ _ _ _ eq_refl).
    simpl. rewrite Hc. simpl. destruct (negb hk || negb (killed c =? 0)) eqn:Eb.
    + erewrite (bind_ok (release LkPtable)) by (by apply release_ptable). simpl.
      right. split_and!; [done| |done|by destruct s; simpl in *; subst].
      apply orb_true_iff in Eb as [Eb|Eb]; [left|right; lia].
      rewrite <-Hk. by destruct hk.
    + erewrite sleep_eq by done. apply orb_false_iff in Eb as [Eb1 Eb2].
      split_and!; [done|apply Hk; by destruct hk|lia|done|done].
Qed.

(** [waitx] does what [wait] does and, for the child it reaps, reports
    the ticks it ran and the rest of its life: the two times add up to the
    ticks between its creation and its exit. *)
Theorem waitx_spec s cur r :
  held s = [] → runs s cur →
  wait s = (x ← waitx; ret x.1) s ∧
  (∀ s', waitx s = Ok r s' →
   match r.2 with
   | None => r.1 = -1
   | Some (wtime, rtime) => ∃ j p, first_zombie_child cur (ptable (kproc s)) j p ∧ r.1 = pid p ∧
       (is_u32 (runtime p) → is_u32 (exittime p) → is_u32 (createtime p) →
        0 ≤ exittime p - createtime p < 2 ^ 31 → runtime p ≤ exittime p - createtime p →
        rtime = runtime p ∧ wtime + rtime = exittime p - createtime p ∧ 0 ≤ wtime)
   end).
Proof.
  intros Hh Hr. rewrite (wait_eq _ cur) by done.
  assert (E : (x ← waitx; ret x.1) s = (x ← waitx_turn cur; ret x.1) (s <| held := [LkPtable] |>))
    by (unfold bind; by rewrite (waitx_eq _ cur)).
  rewrite E. split; [apply waitx_turn_wait|]. intros s' H. rewrite (waitx_eq _ cur) in H by done.
  unfold waitx_turn in H. rewrite (bind_ok (gets _) _ _ _ _ eq_refl) in H.
  change (ptable (kproc (s <| held := [LkPtable] |>))) with (ptable (kproc s)) in H.
  pose proof (wait_scan_cases cur (ptable (kproc s))) as Hscan.
  destruct (wait_scan cur 0 _ false) as [[j|] hk].
  - destruct Hscan as [p Hz]. unfold getp in H. rewrite (bind_ok (gets _) _ _ _ _ eq_refl) in H.
    apply bind_inv_ok in H as ([] & s2 & _ & [= <- <-]).
    assert (Hj := Hz). destruct Hj as (Hj & _). simpl. rewrite Hj. simpl.
    exists j, p. split; [done|]. split; [done|]. intros Hu1 Hu2 Hu3 Hlt Hle.
    rewrite (u32_small (_ - createtime p)) by (unfold is_u32; lia).
    rewrite u32_small by (unfold is_u32 in *; lia).
    rewrite !s32_small by (unfold is_s32, is_u32 in *; lia). lia.
  - apply bind_inv_ok in H as (c & s1 & _ & H). destruct (negb hk || _).
    + by apply bind_inv_ok in H as ([] & s2 & _ & [= <- <-]).
    + by apply sleep_not_ok in H.
Qed.

(** [kill] marks the first slot with the pid as killed, and makes it
    RUNNABLE if it sleeps, so that it comes to see the mark; no other slot
    changes.  It fails, changing nothing, when no slot has the pid. *)
Theorem kill_spec s pid' :
  held s = [] →
  let l := ptable (kproc s) in
  (∃ i p, l !! i = Some p ∧ pid p = pid' ∧ (∀ j q, (j < i)%nat → l !! j = Some q → pid q ≠ pid') ∧
     ∃ s', kill pid' s = Ok 0 s' ∧ held s' = [] ∧
       ptable (kproc s') !! i =
         Some (p <| killed := 1 |> <| state := if decide (state p = SLEEPING) then RUNNABLE else state p |>) ∧
       (∀ j, j ≠ i → ptable (kproc s') !! j = l !! j)) ∨
  ((∀ i p, l !! i = Some p → pid p ≠ pid') ∧ kill pid' s = Ok (-1) s).
Proof.
  intros Hh. cbv zeta. rewrite kill_eq by done.
  destruct (find_index _ _) as [i|] eqn:E.
  - left. apply find_index_Some in E as (p & Hi & Hp & Hmin). exists i, p.
    split_and!; [done|lia| |].
    { intros j q Hj Hq. specialize (Hmin j q Hj Hq). simpl in Hmin. lia. }
    eexists. split; [done|]. split_and!; [done| |].
    + simpl. rewrite list_lookup_alter_eq, Hi. simpl. f_equal. unfold killed_proc. simpl.
      by case_bool_decide; case_decide.
    + intros j Hj. simpl. by rewrite list_lookup_alter_ne.
  - right. rewrite find_index_None in E. split; [|done]. intros i p Hi.
    specialize (E i p Hi). simpl in E. lia.
Qed.

(** A process can be killed before it exists.  The scan of [kill] looks
    at free slots too, whose pid is 0: [kill(0)] succeeds and leaves the mark
    on a free slot, and [allocproc] does not clear it, so the next process made
    in that slot is born killed. *)
Theorem kill_marks_free_slot s i p :
  held s = [] → ptable (kproc s) !! i = Some p → state p = UNUSED → pid p = 0 →
  (∀ j q, (j < i)%nat → ptable (kproc s) !! j = Some q → state q ≠ UNUSED ∧ pid q ≠ 0) →
  ∃ s1 s2 q, kill 0 s = Ok 0 s1 ∧ allocproc_slot s1 = Ok (Some i) s2 ∧
    ptable (kproc s2) !! i = Some q ∧ state q = EMBRYO ∧ killed q = 1.
Proof.
  intros Hh Hi Hu Hp Hmin.
  assert (E1 : find_index (λ p, pid p =? 0) (ptable (kproc s)) = Some i).
  { apply find_index_Some. exists p. split_and!; [done|lia|]. intros j q Hj Hq.
    destruct (Hmin j q Hj Hq). lia. }
  set (s1 := with_table (alter killed_proc i) s).
  assert (E2 : find_index (λ p, bool_decide (state p = UNUSED)) (ptable (kproc s1)) = Some i).
  { apply find_index_Some. exists (killed_proc p). simpl. rewrite list_lookup_alter_eq, Hi.
    unfold killed_proc. simpl. rewrite Hu. split_and!; [done..|]. intros j q Hj Hq.
    rewrite list_lookup_alter_ne in Hq by lia. apply bool_decide_false. by apply (Hmin j q). }
  eexists s1, _, _. split; [by rewrite kill_eq, E1|].
  split; [by rewrite allocproc_slot_eq, E2|].
  simpl. rewrite !list_lookup_alter_eq, Hi. split; [done|]. split; [done|].
  unfold killed_proc. simpl. by rewrite Hu.
Qed.

(** [allocproc] takes the first free slot and the next pid, with zeroed
    counters, the default priority and burst, and a kernel stack of its own
    whose context starts at [forkret] with the return address [trapret] above
    it; with a full table it changes nothing, and without memory for the stack
    it leaves the slot free. *)
Theorem allocproc_spec s :
  held s = [] →
  let l := ptable (kproc s) in
  match find_index (λ p, bool_decide (state p = UNUSED)) l with
  | None => allocproc s = Ok None s
  | Some i => ∃ p q r s', l !! i = Some p ∧ state p = UNUSED ∧ allocproc s = Ok r s' ∧
      (∀ j, j ≠ i → ptable (kproc s') !! j = l !! j) ∧ ptable (kproc s') !! i = Some q ∧
      if freelist (kmem s) =? 0 then r = None ∧ state q = UNUSED
      else r = Some i ∧ state q = EMBRYO ∧ pid q = nextpid (kproc s) ∧
           kstack q = freelist (kmem s) ∧ cx_eip (ctx q) = sym_forkret (kvm s) ∧
           (is_u32 (sym_trapret (kvm s)) →
            load32 (kstack q + KSTACKSIZE - SIZEOF_TRAPFRAME - 4) (bytes (kmem s'))
            = sym_trapret (kvm s)) ∧
           createtime q = ticks (kproc s) ∧ runtime q = 0 ∧ sleeptime q = 0 ∧
           priority q = 60 ∧ estimated_burst q = 5 ∧ pticks q = 0 ∧ killed q = killed p
  end.
Proof.
  intros Hh. cbv zeta. pose proof (allocproc_slot_eq s Hh) as Hslot.
  destruct (find_index _ _) as [i|] eqn:E;
    [|unfold allocproc; by rewrite (bind_ok _ _ _ _ _ Hslot)].
  apply find_index_Some in E as (p & Hi & Hu & _). apply bool_decide_eq_true in Hu.
  set (s1 := with_table (alter (embryo (nextpid (kproc s)) (ticks (kproc s))) i) s
               <| kproc ::= λ k, k <| nextpid := s32 (nextpid (kproc s) + 1) |> |>) in *.
  assert (Ha : allocproc s = allocproc_stack i s1)
    by (unfold allocproc; by rewrite (bind_ok _ _ _ _ _ Hslot)).
  assert (Hkal : kalloc s1 = Ok (freelist (kmem s)) (s1 <| kmem ::= kalloced |>)).
  { rewrite kalloc_eq; [done|]. intros _. unfold can_lock. simpl. rewrite Hh. apply not_elem_of_nil. }
  unfold allocproc_stack in Ha. rewrite (bind_ok _ _ _ _ _ Hkal) in Ha.
  rewrite (bind_ok (updp _ _) _ _ _ _ eq_refl) in Ha. destruct (freelist (kmem s) =? 0).
  - rewrite (bind_ok (updp _ _) _ _ _ _ eq_refl) in Ha. eexists p, _, _, _.
    split; [done|]. split; [done|]. split; [exact Ha|]. split_and!; simpl; [..|done|].
    + intros j Hj. by rewrite !list_lookup_alter_ne.
    + by rewrite !list_lookup_alter_eq, Hi.
    + done.
  - rewrite (bind_ok (gets _) _ _ _ _ eq_refl), (bind_ok (wr32 _ _) _ _ _ _ eq_refl) in Ha.
    rewrite (bind_ok (updp _ _) _ _ _ _ eq_refl) in Ha. eexists p, _, _, _.
    split; [done|]. split; [done|]. split; [exact Ha|]. split; [|split].
    + intros j Hj. simpl. by rewrite !list_lookup_alter_ne.
    + simpl. by rewrite !list_lookup_alter_eq, Hi.
    + split_and!; try done. intros Htr. simpl. by rewrite load_store32.
Qed.

(** ** Witnesses *)

(** Process 1 runs and has the sleeping child 0; slot 3 is free. *)
Definition family_table : list proc :=
  [ proc0 <| state := SLEEPING |> <| pid := 5 |> <| parent := Some 1%nat |>;
    proc0 <| state := RUNNING |> <| pid := 2 |> <| kstack := PGSIZE |> <| pgdir := PGSIZE |>;
    proc0 <| state := RUNNABLE |> <| pid := 3 |>;
    proc0 ].

Definition family_kernel : kernel :=
  (sched_running []) <| kproc ::= λ k, k <| ptable := family_table |> <| nextpid := 6 |> |>.

Lemma wait_spec_witness :
  wait family_kernel =
  Sleep (AtSleep (ChProc 1) LkPtable 0)
    (with_table (alter (put_to_sleep (ChProc 1)) 1%nat) family_kernel <| held := [LkPtable] |>).
Proof.
  pose proof (wait_spec family_kernel 1 (default proc0 (family_table !! 1%nat))
                eq_refl eq_refl eq_refl) as H.
  destruct (wait family_kernel) as [r s'|m|pt s'] eqn:E; [discriminate E..|].
  destruct H as (_ & _ & _ & -> & ->). reflexivity.
Defined.

Lemma waitx_spec_witness : wait family_kernel = (x ← waitx; ret x.1) family_kernel.
Proof. apply (waitx_spec family_kernel 1 (0, None) eq_refl eq_refl). Defined.

Lemma kill_spec_witness : ∃ s', kill 5 family_kernel = Ok 0 s' ∧ held s' = [].
Proof.
  destruct (kill_spec family_kernel 5 eq_refl) as [(i & p & _ & _ & _ & s' & H1 & H2 & _)|[H _]].
  - by exists s'.
  - exfalso. apply (H 0%nat (default proc0 (family_table !! 0%nat))); vm_compute; reflexivity.
Defined.

Lemma kill_marks_free_slot_witness :
  ∃ s1 s2 q, kill 0 family_kernel = Ok 0 s1 ∧ allocproc_slot s1 = Ok (Some 3%nat) s2 ∧
    ptable (kproc s2) !! 3%nat = Some q ∧ state q = EMBRYO ∧ killed q = 1.
Proof.
  apply (kill_marks_free_slot family_kernel 3 proc0 eq_refl eq_refl eq_refl eq_refl).
  intros [|[|[|j]]] q Hj Hq; simplify_eq/=; [done..|lia].
Defined.

Lemma allocproc_spec_witness : ∃ s', allocproc family_kernel = Ok None s'.
Proof.
  destruct (allocproc_spec family_kernel eq_refl) as (p & q & r & s' & _ & _ & H1 & _ & _ & H2 & _).
  exists s'. by rewrite H1, H2.
Defined.
