(* ===== verification/Procsys.v ===== *)
(** * The process system: proc.c on several processors

    Every change of the process table is made with [ptable.lock] held, or is a
    write of a process to its own slot or to the slot [fork] is filling for it.
    The transition system below interleaves these sections: its steps run the
    definitions of Sched.v and Proc.v on the shared kernel state, and [phase]
    says who has [ptable.lock] across a [swtch].  The invariant [inv] holds in
    every reachable state; the theorems at the end read it off. *)

From S2P Require Import Prelude Kernel Cstring Kalloc Vm Sched Proc.

(** ** Configurations *)

(** [Free]: no section is in progress.  [InProc c]: the scheduler of processor
    [c] has just switched to a process, which has the lock.  [InSched c]: a
    process has just switched back to the scheduler of [c], which has it. *)
Inductive phase := Free | InProc (c : nat) | InSched (c : nat).

(** Where a process's kernel thread is: running; not started (its context
    begins at [forkret]); or inside [sched]. *)
Inductive pcs := TRun | TNew | TAt (pt : swpoint).

(** How far a [fork] has come with the slot it was given. *)
Inductive stage := FSlot | FStack | FFilled.

#[export] Instance phase_eq : EqDecision phase.
Proof. solve_decision. Defined.
#[export] Instance pcs_eq : EqDecision pcs.
Proof. solve_decision. Defined.
#[export] Instance stage_eq : EqDecision stage.
Proof. solve_decision. Defined.

Record thr := mkthr { pc : pcs; frk : option (nat * stage) }.
#[export] Instance eta_thr : Eta thr := λ t, mkthr (pc t) (frk t).

(** [spol]: the policy each suspended scheduler took its branch for; [born]: the
    number of processes [allocproc] has named since [userinit] (a specification
    variable). *)
Record sys := mksys { sk : kernel; ph : phase; th : list thr; spol : list Z; born : Z }.

Definition cpu_of (k : kernel) : list (option nat) := cpu_proc (kcpu k).
Definition tab_of (k : kernel) : list proc := ptable (kproc k).

Definition set_pc (i : nat) (x : pcs) : list thr → list thr := alter (λ t, t <| pc := x |>) i.
Definition set_frk (i : nat) (x : option (nat * stage)) : list thr → list thr :=
  alter (λ t, t <| frk := x |>) i.

(** ** Steps

    The last step stands for the rest of the kernel, which leaves the process
    table alone: memory, files, the clock, the scheduling policy. *)

(** A change of a slot that is not a transition of the process: the counters
    and times, the registers, a new size or page table, the name, priorities,
    open files.  Its own thread, an interrupt or a system call that names it by
    pid makes it. *)
Definition benign (f : proc → proc) : Prop :=
  ∀ q, state (f q) = state q ∧ pid (f q) = pid q ∧ parent (f q) = parent q ∧
       chan (f q) = chan q ∧ kstack (f q) = kstack q ∧ (pgdir q ≠ 0 → pgdir (f q) ≠ 0).

(** The sections a running process [i] executes from start to end, with the
    locks it may hold; [fk] says whether it may be inside [fork]. *)
Inductive section (i : nat) : list lockid → bool → KM unit → Prop :=
| sec_yield fk : section i [] fk yield
| sec_sleep ch lk :
    lk ≠ LkPtable → (∀ j, ch ≠ ChProc j) → section i [lk] false (sleep ch lk)
| sec_wakeup fk ls ch : LkPtable ∉ ls → section i ls fk (wakeup ch)
| sec_kill pid' : section i [] false (kill pid' ;; ret tt)
| sec_wait : section i [] false (wait ;; ret tt)
| sec_waitx : section i [] false (waitx ;; ret tt)
| sec_exit : section i [] false (cur ← exit_enter; exit_table cur)
| sec_uncle pid' : section i [] false (get_uncle_count pid' ;; ret tt)
| sec_update fk j f : benign f → section i [] fk (updp j f).

(** The continuation of a process at the place where it gave up the processor. *)
Inductive continuation (i : nat) : pcs → KM unit → Prop :=
| cont_new : continuation i TNew (release LkPtable)
| cont_yield : continuation i (TAt AtYield) yield_resume
| cont_sleep ch lk t :
    lk ≠ LkPtable → continuation i (TAt (AtSleep ch lk t)) (sleep_resume i lk t)
| cont_wait ch t :
    continuation i (TAt (AtSleep ch LkPtable t)) (wait_resume i t ;; ret tt)
| cont_waitx ch t :
    continuation i (TAt (AtSleep ch LkPtable t)) (waitx_resume i t ;; ret tt).

Inductive sys_step : sys → sys → Prop :=
| st_idle c n k t sp pol k' :
    cpu_of k !! c = Some None →
    scheduler_start (on c [] k) = Ok (None, pol) k' →
    sys_step (mksys k Free t sp n) (mksys k' Free t sp n)
| st_pick c n k t sp i pol k' :
    cpu_of k !! c = Some None →
    scheduler_start (on c [] k) = Ok (Some i, pol) k' →
    sys_step (mksys k Free t sp n) (mksys k' (InProc c) t (<[c := pol]> sp) n)
| st_back c n k t sp i pol pol' k' :
    cpu_of k !! c = Some (Some i) → sp !! c = Some pol →
    scheduler_back i pol (on c [LkPtable] k) = Ok (None, pol') k' →
    sys_step (mksys k (InSched c) t sp n) (mksys k' Free t sp n)
| st_next c n k t sp i j pol pol' k' :
    cpu_of k !! c = Some (Some i) → sp !! c = Some pol →
    scheduler_back i pol (on c [LkPtable] k) = Ok (Some j, pol') k' →
    sys_step (mksys k (InSched c) t sp n) (mksys k' (InProc c) t sp n)
| st_resume c n k t sp i x m k' :
    cpu_of k !! c = Some (Some i) → pc <$> t !! i = Some x → continuation i x m →
    m (on c [LkPtable] k) = Ok tt k' →
    sys_step (mksys k (InProc c) t sp n) (mksys k' Free (set_pc i TRun t) sp n)
| st_resume_off c n k t sp i x m pt k' :
    cpu_of k !! c = Some (Some i) → pc <$> t !! i = Some x → continuation i x m →
    m (on c [LkPtable] k) = Sleep pt k' →
    sys_step (mksys k (InProc c) t sp n) (mksys k' (InSched c) (set_pc i (TAt pt) t) sp n)
| st_section c n k t sp i fk ls m ti k' :
    cpu_of k !! c = Some (Some i) → t !! i = Some ti → pc ti = TRun →
    (fk = false → frk ti = None) → section i ls fk m →
    m (on c ls k) = Ok tt k' →
    sys_step (mksys k Free t sp n) (mksys k' Free t sp n)
| st_section_off c n k t sp i fk ls m ti pt k' :
    cpu_of k !! c = Some (Some i) → t !! i = Some ti → pc ti = TRun →
    (fk = false → frk ti = None) → section i ls fk m →
    m (on c ls k) = Sleep pt k' →
    sys_step (mksys k Free t sp n) (mksys k' (InSched c) (set_pc i (TAt pt) t) sp n)
| st_slot c n k t sp i np k' :
    cpu_of k !! c = Some (Some i) → t !! i = Some (mkthr TRun None) →
    allocproc_slot (on c [] k) = Ok (Some np) k' →
    sys_step (mksys k Free t sp n) (mksys k' Free (set_frk i (Some (np, FSlot)) t) sp (n + 1))
| st_stack c n k t sp i np r k' :
    cpu_of k !! c = Some (Some i) → t !! i = Some (mkthr TRun (Some (np, FSlot))) →
    allocproc_stack np (on c [] k) = Ok r k' →
    sys_step (mksys k Free t sp n)
             (mksys k' Free (set_frk i (if r is Some _ then Some (np, FStack) else None) t) sp n)
| st_abort c n k t sp i np k' :
    cpu_of k !! c = Some (Some i) → t !! i = Some (mkthr TRun (Some (np, FStack))) →
    fork_abort np (on c [] k) = Ok tt k' →
    sys_step (mksys k Free t sp n) (mksys k' Free (set_frk i None t) sp n)
| st_fill c n k t sp i np p d :
    cpu_of k !! c = Some (Some i) → t !! i = Some (mkthr TRun (Some (np, FStack))) →
    tab_of k !! i = Some p → d ≠ 0 →
    sys_step (mksys k Free t sp n)
      (mksys (with_table (alter (fork_image i p d) np) k) Free
             (set_frk i (Some (np, FFilled)) t) sp n)
| st_publish c n k t sp i np k' :
    cpu_of k !! c = Some (Some i) → t !! i = Some (mkthr TRun (Some (np, FFilled))) →
    publish np (on c [] k) = Ok tt k' →
    sys_step (mksys k Free t sp n) (mksys k' Free (set_pc np TNew (set_frk i None t)) sp n)
(** An interrupt wakes somebody, also on a processor that runs no process. *)
| st_intr c n k t sp ls ch k' :
    LkPtable ∉ ls → wakeup ch (on c ls k) = Ok tt k' →
    sys_step (mksys k Free t sp n) (mksys k' Free t sp n)
| st_other n k k' ph t sp :
    tab_of k' = tab_of k → initproc (kproc k') = initproc (kproc k) →
    nextpid (kproc k') = nextpid (kproc k) → cpu_of k' = cpu_of k →
    sys_step (mksys k ph t sp n) (mksys k' ph t sp n).

(** ** The invariant

    In two parts: [fam], on who is whose child, who forks what and who waits;
    and [run], on who runs where. *)

Definition alive (st : procstate) : Prop := st = RUNNABLE ∨ st = RUNNING ∨ st = SLEEPING.

(** A place from which the scheduler may let a process continue. *)
Definition resumable (x : pcs) : Prop :=
  match x with
  | TNew | TAt AtYield | TAt (AtSleep _ _ _) => True
  | _ => False
  end.

(** A process that [fork] has finished and [wait] has not taken away. *)
Definition made (st : procstate) : Prop := st ≠ UNUSED ∧ st ≠ EMBRYO.

(** [np] is the number of the next process; as long as it fits in an int it is
    [nextpid]. *)
Record fam (l : list proc) (t : list thr) (ini : nat) (np : Z) : Prop := {
  fam_unused i p : l !! i = Some p → state p = UNUSED → parent p = None;
  fam_embryo i p : l !! i = Some p → state p = EMBRYO →
    ∃ q t' st, t !! q = Some t' ∧ frk t' = Some (i, st) ∧
      parent p = (if decide (st = FFilled) then Some q else None) ∧
      (st ≠ FSlot → kstack p ≠ 0) ∧ (st = FFilled → pgdir p ≠ 0);
  fam_fork q t' i st : t !! q = Some t' → frk t' = Some (i, st) →
    (∃ p, l !! i = Some p ∧ state p = EMBRYO) ∧
    (∃ pq, l !! q = Some pq ∧ (state pq = RUNNABLE ∨ state pq = RUNNING));
  fam_fork_inj q q' t1 t2 i st st' : t !! q = Some t1 → t !! q' = Some t2 →
    frk t1 = Some (i, st) → frk t2 = Some (i, st') → q = q';
  fam_parent i p q : l !! i = Some p → parent p = Some q →
    ∃ pq, l !! q = Some pq ∧ alive (state pq) ∧ q ≠ i;
  fam_wait q pq i p : l !! q = Some pq → state pq = SLEEPING → chan pq = Some (ChProc q) →
    l !! i = Some p → parent p = Some q → state p ≠ ZOMBIE;
  fam_pid i p : np ≤ 2 ^ 31 → l !! i = Some p → state p ≠ UNUSED → 0 < pid p < np;
  fam_pid_inj i j p q : np ≤ 2 ^ 31 → l !! i = Some p → l !! j = Some q → state p ≠ UNUSED → state q ≠ UNUSED →
    pid p = pid q → i = j;
  fam_init : ∃ p, l !! ini = Some p ∧ alive (state p) ∧ parent p = None;
  fam_child i p : l !! i = Some p → made (state p) → i ≠ ini → is_Some (parent p) }.

Definition slot_ok (cpu : list (option nat)) (ph : phase) (i : nat) (p : proc) (t : thr) : Prop :=
  match state p with
  | UNUSED | EMBRYO => True
  | RUNNABLE | SLEEPING => kstack p ≠ 0 ∧ pgdir p ≠ 0 ∧ resumable (pc t)
  | RUNNING => kstack p ≠ 0 ∧ pgdir p ≠ 0 ∧
      ∃ c, cpu !! c = Some (Some i) ∧
           ((ph = InProc c ∧ resumable (pc t)) ∨ (ph ≠ InProc c ∧ pc t = TRun))
  | ZOMBIE => kstack p ≠ 0 ∧ pgdir p ≠ 0
  end.

Record run (l : list proc) (cpu : list (option nat)) (ph : phase) (t : list thr) : Prop := {
  run_len : length l = length t;
  run_slot i p ti : l !! i = Some p → t !! i = Some ti → slot_ok cpu ph i p ti;
  run_cpu c i : cpu !! c = Some (Some i) →
    ∃ p, l !! i = Some p ∧
         ((ph = InSched c ∧ state p ∈ [RUNNABLE; SLEEPING; ZOMBIE]) ∨
          (ph ≠ InSched c ∧ state p = RUNNING));
  run_cpu_inj c c' i : cpu !! c = Some (Some i) → cpu !! c' = Some (Some i) → c = c';
  run_asleep i ti ch lk tk : t !! i = Some ti → pc ti = TAt (AtSleep ch lk tk) → frk ti = None }.

(** *** Changes of single slots *)

(** [p'] is [p] after a change that keeps its family: its own moves between
    running, runnable and asleep (but for [wait]), and writes by others. *)
Definition softf (p p' : proc) : Prop :=
  pid p' = pid p ∧ parent p' = parent p ∧ kstack p' = kstack p ∧ (pgdir p ≠ 0 → pgdir p' ≠ 0) ∧
  ((state p' = state p ∧ (state p = SLEEPING → chan p' = chan p)) ∨
   (alive (state p) ∧ (state p' = RUNNABLE ∨ state p' = RUNNING))).

Lemma softf_alive p p' : softf p p' → alive (state p) → alive (state p').
Proof.
  intros (_ & _ & _ & _ & [[-> _]|[_ [->| ->]]]); [done|by left..|by right; left].
Qed.

Lemma softf_state p p' st :
  softf p p' → ¬ alive st → (state p' = st ↔ state p = st).
Proof.
  intros (_ & _ & _ & _ & [[-> _]|[Ha Hr]]) Hst; [done|].
  split; intros <-; destruct Hst; [|done]. destruct Hr as [->| ->]; [by left|by right; left].
Qed.

Lemma softf_made p p' : softf p p' → made (state p') → made (state p).
Proof.
  intros S [H1 H2]. split; intros E; [apply H1|apply H2]; apply (softf_state _ _ _ S); try done; by intros [|[]].
Qed.

Lemma Forall2_back {A} (R : A → A → Prop) l l' i x' :
  Forall2 R l l' → l' !! i = Some x' → ∃ x, l !! i = Some x ∧ R x x'.
Proof. intros H Hi. destruct (Forall2_lookup_r _ _ _ _ _ H Hi) as (x & ? & ?). eauto. Qed.

Lemma Forall2_fwd {A} (R : A → A → Prop) l l' i x :
  Forall2 R l l' → l !! i = Some x → ∃ x', l' !! i = Some x' ∧ R x x'.
Proof. intros H Hi. destruct (Forall2_lookup_l _ _ _ _ _ H Hi) as (x' & ? & ?). eauto. Qed.

Lemma fam_softf l l' t ini np :
  Forall2 softf l l' → fam l t ini np → fam l' t ini np.
Proof.
  intros Hs [Hun Hemb Hfork Hfinj Hpar Hwait Hpid Hpinj Hini Hkid].
  pose proof (λ i p', Forall2_back softf l l' i p' Hs) as Bk.
  pose proof (λ i p, Forall2_fwd softf l l' i p Hs) as Fw.
  split; [..|done| | | | | |].
  - intros i p' Hi Hst. destruct (Bk i p' Hi) as (p & Hp & S).
    apply (softf_state _ _ _ S) in Hst; [|by intros [|[]]].
    destruct S as (_ & -> & _). eauto.
  - intros i p' Hi Hst. destruct (Bk i p' Hi) as (p & Hp & S).
    apply (softf_state _ _ _ S) in Hst; [|by intros [|[]]].
    destruct (Hemb i p Hp Hst) as (q & t' & st & ? & ? & ? & ? & ?).
    destruct S as (_ & -> & -> & Sd & _). exists q, t', st. split_and!; auto.
  - intros q t' i st Hq Hf. destruct (Hfork q t' i st Hq Hf) as [(p & Hp & Hst) (pq & Hpq & Hsq)].
    destruct (Fw i p Hp) as (p' & Hp' & S). destruct (Fw q pq Hpq) as (pq' & Hpq' & S').
    split; [exists p'|exists pq']; (split; [done|]).
    + apply (softf_state _ _ _ S); [by intros [|[]]|done].
    + destruct S' as (_ & _ & _ & _ & [[-> _]|[_ ?]]); done.
  - intros i p' q Hi Hq. destruct (Bk i p' Hi) as (p & Hp & (_ & Spar & _)). rewrite Spar in Hq.
    destruct (Hpar i p q Hp Hq) as (pq & Hpq & Ha & ?).
    destruct (Fw q pq Hpq) as (pq' & Hpq' & S'). exists pq'. split_and!; [done| |done].
    by eapply softf_alive.
  - intros q pq' i p' Hq Hsl Hch Hi Hpq Hz.
    destruct (Bk q pq' Hq) as (pq & Hq0 & S). destruct (Bk i p' Hi) as (p & Hp & S').
    apply (softf_state _ _ _ S') in Hz; [|by intros [|[]]]. destruct S' as (_ & Spar & _).
    rewrite Spar in Hpq. destruct S as (_ & _ & _ & _ & [[Sst Sch]|[_ Sr]]);
      [|destruct Sr; congruence].
    rewrite Sst in Hsl. rewrite Sch in Hch by done. by eapply (Hwait q pq i p).
  - intros i p' Hnp Hi Hst. destruct (Bk i p' Hi) as (p & Hp & S).
    rewrite (softf_state _ _ _ S) in Hst by (by intros [|[]]). destruct S as (-> & _). eauto.
  - intros i j p' q' Hnp Hi Hj Hst Hst' Heq.
    destruct (Bk i p' Hi) as (p & Hp & S). destruct (Bk j q' Hj) as (q & Hq & S').
    rewrite (softf_state _ _ _ S) in Hst by (by intros [|[]]).
    rewrite (softf_state _ _ _ S') in Hst' by (by intros [|[]]).
    destruct S as (E1 & _). destruct S' as (E2 & _). eapply Hpinj; eauto. congruence.
  - destruct Hini as (p & Hp & Ha & Hn). destruct (Fw ini p Hp) as (p' & Hp' & S).
    exists p'. split_and!; [done|by eapply softf_alive|]. by destruct S as (_ & -> & _).
  - intros i p' Hi Hm Hne. destruct (Bk i p' Hi) as (p & Hp & S).
    destruct (S) as (_ & -> & _). apply (Hkid i p); [done|by eapply softf_made|done].
Qed.

Lemma Forall2_alter (R : proc → proc → Prop) f i l :
  (∀ p, R p p) → (∀ p, l !! i = Some p → R p (f p)) → Forall2 R l (alter f i l).
Proof.
  intros Hr Hf. apply Forall2_same_length_lookup_2; [by rewrite length_alter|].
  intros j x y Hx Hy. apply lookup_alter_Some in Hy as (x' & Hx' & ->).
  simplify_eq. case_decide; [subst; by apply Hf|apply Hr].
Qed.

Lemma softf_refl p : softf p p.
Proof. split_and!; [done..|]. by left. Qed.

(** A process that is not in [fork] goes to sleep; if it waits for a child, none
    has exited. *)
Lemma fam_sleep l t ini np i p ti ch :
  fam l t ini np → l !! i = Some p → alive (state p) → t !! i = Some ti → frk ti = None →
  (ch = ChProc i → ∀ j q, l !! j = Some q → parent q = Some i → state q ≠ ZOMBIE) →
  fam (alter (put_to_sleep ch) i l) t ini np.
Proof.
  intros [Hun Hemb Hfork Hfinj Hpar Hwait Hpid Hpinj Hini Hkid] Hi Ha Hti Hf Hch.
  assert (Hal : ∀ j q, l !! j = Some q → alive (state q) →
    ∃ q', alter (put_to_sleep ch) i l !! j = Some q' ∧ alive (state q') ∧ parent q' = parent q).
  { intros j q Hj Hq. rewrite list_lookup_alter. case_decide; [subst; rewrite Hj|by exists q].
    eexists. split_and!; [done| |done]. by right; right. }
  assert (Hpar' : ∀ j q, alter (put_to_sleep ch) i l !! j = Some q →
    ∃ q0, l !! j = Some q0 ∧ pid q = pid q0 ∧ parent q = parent q0 ∧
          (¬ alive (state q) → q = q0) ∧ (state q ≠ UNUSED → state q0 ≠ UNUSED) ∧ (j ≠ i → q = q0)).
  { intros j q Hj. apply lookup_alter_Some in Hj as (q0 & Hq0 & ->). exists q0.
    case_decide; subst; split_and!; try done.
    - intros []. by right; right.
    - simplify_eq. intros _ Hq. rewrite Hq in Ha. by destruct Ha as [|[]]. }
  split; [..|done| | | | | |].
  - intros j q Hj Hst. destruct (Hpar' j q Hj) as (q0 & Hq0 & _ & _ & Hna & _).
    assert (q = q0) as -> by (apply Hna; rewrite Hst; by intros [|[]]). eauto.
  - intros j q Hj Hst. destruct (Hpar' j q Hj) as (q0 & Hq0 & _ & _ & Hna & _).
    assert (q = q0) as -> by (apply Hna; rewrite Hst; by intros [|[]]). eauto.
  - intros q t' j st Hq Hfr. destruct (Hfork q t' j st Hq Hfr) as [(e & He & Hst) (pq & Hpq & Hsq)].
    split; [exists e|exists pq]; (split; [|done]); rewrite list_lookup_alter_ne; try done.
    + intros ->. simplify_eq. rewrite Hst in Ha. by destruct Ha as [|[]].
    + intros ->. congruence.
  - intros j q r Hj Hr. destruct (Hpar' j q Hj) as (q0 & Hq0 & _ & Hp & _). rewrite Hp in Hr.
    destruct (Hpar j q0 r Hq0 Hr) as (pr & Hpr & Har & ?).
    destruct (Hal r pr Hpr Har) as (pr' & ? & ? & _). eauto.
  - intros q pq j x Hq Hsl Hc Hj Hpx Hz.
    destruct (Hpar' j x Hj) as (x0 & Hx0 & _ & _ & Hna & _).
    assert (x = x0) as -> by (apply Hna; rewrite Hz; by intros [|[]]).
    destruct (decide (q = i)) as [->|Hqi].
    + rewrite list_lookup_alter_eq, Hi in Hq. simplify_eq/=. by apply (Hch eq_refl j x0).
    + destruct (Hpar' q pq Hq) as (q0 & Hq0 & _ & _ & _ & _ & Heq).
      rewrite Heq in Hsl, Hc by done. by eapply (Hwait q q0 j x0).
  - intros j q Hnp Hj Hst. destruct (Hpar' j q Hj) as (q0 & Hq0 & -> & _ & _ & Hu & _). eauto.
  - intros j k q r Hnp Hj Hk Hst Hst' Heq.
    destruct (Hpar' j q Hj) as (q0 & Hq0 & E1 & _ & _ & Hu & _).
    destruct (Hpar' k r Hk) as (r0 & Hr0 & E2 & _ & _ & Hu' & _).
    eapply Hpinj; eauto. congruence.
  - destruct Hini as (q & Hq & Haq & Hn). destruct (Hal ini q Hq Haq) as (q' & ? & ? & ?).
    exists q'. split_and!; [done..|congruence].
  - intros j q Hj Hm Hne. destruct (Hpar' j q Hj) as (q0 & Hq0 & _ & -> & _ & _ & Heq).
    apply (Hkid j q0); [done| |done]. destruct (decide (j = i)) as [->|Hji]; [|by rewrite <-Heq].
    simplify_eq. by destruct Ha as [->|[->| ->]].
Qed.

(** [slots]: case analysis on which slot of an updated table is meant. *)
Ltac slots :=
  repeat match goal with
  | H : alter _ _ _ !! _ = Some _ |- _ =>
      apply lookup_alter_Some in H as (? & ? & ->)
  | H : context [decide (?a = ?b)] |- _ => destruct (decide (a = b)); subst
  | |- context [decide (@eq nat ?a ?b)] => destruct (decide (a = b)); subst
  end; simplify_eq/=.

(** [by_wait]: the child in slot [j] of a waiting process [q] is no zombie. *)
Ltac by_wait Hw q j :=
  match goal with
  | H1 : ?l !! q = Some ?a, H2 : ?l !! j = Some ?b |- _ => by apply (Hw q a j b)
  end.

(** The slot of [j] after a change of slot [i]. *)
Lemma alter_keep {A} (f : A → A) i j (l : list A) x (P : A → Prop) :
  l !! j = Some x → P x → (i = j → P (f x)) → ∃ y, alter f i l !! j = Some y ∧ P y.
Proof.
  intros Hj HP Hf. rewrite list_lookup_alter. case_decide; [subst|by exists x].
  rewrite Hj. eexists. split; [done|]. auto.
Qed.

(** A process other than [initproc] exits once it has no children left and its
    parent is not asleep in [wait]. *)
Lemma fam_exit l t ini np i p ti now :
  fam l t ini np → l !! i = Some p → alive (state p) → i ≠ ini →
  t !! i = Some ti → frk ti = None →
  (∀ j q, l !! j = Some q → parent q ≠ Some i) →
  (∀ q pq, parent p = Some q → l !! q = Some pq → state pq = SLEEPING →
           chan pq ≠ Some (ChProc q)) →
  fam (alter (exited now) i l) t ini np.
Proof.
  intros [Hun Hemb Hfork Hfinj Hpar Hwait Hpid Hpinj Hini Hkid] Hi Ha Hne Hti Hf Hkids Hq.
  assert (Hiu : state p ≠ UNUSED) by (intros E; rewrite E in Ha; by destruct Ha as [|[]]).
  split; [..|done| | | | | |].
  - intros j q Hj Hst. slots; eauto.
  - intros j q Hj Hst. slots; eauto.
  - intros q t' j st Hq' Hfr. destruct (Hfork q t' j st Hq' Hfr) as [(e & He & Hst) (pq & Hpq & Hsq)].
    split; (eapply alter_keep; [done..|]); intros ->; simplify_eq.
    rewrite Hst in Ha. by destruct Ha as [|[]].
  - intros j q r Hj Hr. assert (Hex : ∃ q0, l !! j = Some q0 ∧ parent q0 = Some r) by (slots; eauto).
    destruct Hex as (q0 & Hq0 & Hp0). destruct (Hpar j q0 r Hq0 Hp0) as (pr & Hpr & Har).
    eapply (alter_keep _ _ _ _ _ (λ y, alive (state y) ∧ r ≠ j)); [done..|].
    intros ->. by destruct (Hkids j q0 Hq0).
  - intros q pq j x Hq' Hsl Hc Hj Hpx Hz. slots; [by eapply Hq|by_wait Hwait q j].
  - intros j q Hnp Hj Hst. slots; eauto.
  - intros j k q r Hnp Hj Hk Hst Hst' Heq. slots; eauto.
  - destruct Hini as (q & ? & ?).
    eapply (alter_keep _ _ _ _ _ (λ y, alive (state y) ∧ parent y = None)); [done..|].
    by intros ->.
  - intros j q Hj Hm Hji. slots; [|eauto]. apply (Hkid j p); [done| |done]. by destruct Ha as [->|[->| ->]].
Qed.

(** A waiting parent takes a zombie child out of the table. *)
Lemma fam_reap l t ini np i p f :
  fam l t ini np → l !! i = Some p → state p = ZOMBIE →
  (∀ q, state (f q) = UNUSED ∧ parent (f q) = None) →
  fam (alter f i l) t ini np.
Proof.
  intros [Hun Hemb Hfork Hfinj Hpar Hwait Hpid Hpinj Hini Hkid] Hi Hz Hf.
  assert (Hna : ¬ alive (state p)) by (rewrite Hz; by intros [|[]]).
  assert (Hst' : ∀ q, state (f q) = UNUSED) by apply Hf.
  assert (Hpa' : ∀ q, parent (f q) = None) by apply Hf.
  split; [..|done| | | | | |].
  - intros j q Hj Hst. slots; eauto.
  - intros j q Hj Hst. slots; [congruence|eauto].
  - intros q t' j st Hq' Hfr. destruct (Hfork q t' j st Hq' Hfr) as [(e & He & Hst) (pq & Hpq & Hsq)].
    split; (eapply alter_keep; [done..|]); intros ->; simplify_eq; [|destruct Hsq]; congruence.
  - intros j q r Hj Hr. slots; [congruence|]. destruct (Hpar j x r H Hr) as (pr & Hpr & Har).
    eapply (alter_keep _ _ _ _ _ (λ y, alive (state y) ∧ r ≠ j)); [done..|].
    intros ->. destruct Har. by simplify_eq.
  - intros q pq j x Hq' Hsl Hc Hj Hpx Hzx. slots; try congruence. by_wait Hwait q j.
  - intros j q Hnp Hj Hst. slots; eauto.
  - intros j k q r Hnp Hj Hk Hs1 Hs2 Heq. slots; try done; eauto; congruence.
  - destruct Hini as (q & ? & Ha).
    eapply (alter_keep _ _ _ _ _ (λ y, alive (state y) ∧ parent y = None)); [done..|].
    intros ->. destruct Ha. by simplify_eq.
  - intros j q Hj Hm Hji. slots; [destruct Hm as [Hm _]; by rewrite Hst' in Hm|eauto].
Qed.

(** The moves of [fork] with the slot [i] it works on: process [j] gets the
    slot, gives it back, or goes on with it. *)
Definition fork_moved (i j : nat) (p' : proc) (x : option stage) : Prop :=
  match x with
  | Some st => state p' = EMBRYO ∧ parent p' = (if decide (st = FFilled) then Some j else None) ∧
               (st ≠ FSlot → kstack p' ≠ 0) ∧ (st = FFilled → pgdir p' ≠ 0)
  | None => (state p' = UNUSED ∧ parent p' = None) ∨ (state p' = RUNNABLE ∧ parent p' = Some j)
  end.

Lemma fork_moved_state i j p' x :
  fork_moved i j p' x → state p' ∈ [UNUSED; EMBRYO; RUNNABLE].
Proof. destruct x; simpl; [intros (-> & _)|intros [[-> _]|[-> _]]]; set_solver. Qed.

Section fork_move.
Context (l : list proc) (t : list thr) (ini : nat) (np : Z).
Context (i j : nat) (p q : proc) (ti : thr) (f : proc → proc) (x : option stage) (np' : Z).
Context (F : fam l t ini np) (Hi : l !! i = Some p) (Hj : l !! j = Some q)
  (Hq : state q = RUNNING) (Hti : t !! j = Some ti).
Context (Hown : (state p = UNUSED ∧ frk ti = None) ∨ (∃ st, frk ti = Some (i, st)))
  (Hmv : fork_moved i j (f p) x) (Hnp : np ≤ np')
  (Hpid : np' ≤ 2 ^ 31 → state (f p) ≠ UNUSED → 0 < pid (f p) < np' ∧
     ∀ k y, k ≠ i → l !! k = Some y → state y ≠ UNUSED → pid y ≠ pid (f p)).

Lemma fork_slot_state : state p = UNUSED ∨ state p = EMBRYO.
Proof.
  destruct Hown as [[? _]|[st Hst]]; [by left|].
  destruct (fam_fork _ _ _ _ F _ _ _ _ Hti Hst) as [(y & ? & ?) _]. right. congruence.
Qed.

Lemma fork_slot_dead : ¬ alive (state p).
Proof. destruct fork_slot_state as [->| ->]; by intros [|[]]. Qed.

Lemma fork_slot_ne : i ≠ j.
Proof.
  pose proof fork_slot_dead as Hd. intros Heq. assert (p = q) as Hpq by congruence.
  destruct Hd. rewrite Hpq, Hq. by right; left.
Qed.

(** Nobody else works on the slot. *)
Lemma fork_slot_owner r t' st : t !! r = Some t' → frk t' = Some (i, st) → r = j.
Proof.
  intros Hr Hf. destruct Hown as [[Hu _]|[st' Hst]].
  - destruct (fam_fork _ _ _ _ F _ _ _ _ Hr Hf) as [(y & ? & ?) _]. congruence.
  - by eapply (fam_fork_inj _ _ _ _ F).
Qed.

(** The process [j] works on no other slot. *)
Lemma fork_slot_only k st : frk ti = Some (k, st) → k = i.
Proof. destruct Hown as [[_ ?]|[st' Hst]]; congruence. Qed.

Lemma fam_fork_move_forks :
  let t' := set_frk j ((λ st, (i, st)) <$> x) t in
  (∀ r tr k st, t' !! r = Some tr → frk tr = Some (k, st) →
    (∃ y, alter f i l !! k = Some y ∧ state y = EMBRYO) ∧
    (∃ y, alter f i l !! r = Some y ∧ (state y = RUNNABLE ∨ state y = RUNNING))) ∧
  (∀ r r' t1 t2 k st st', t' !! r = Some t1 → t' !! r' = Some t2 →
    frk t1 = Some (k, st) → frk t2 = Some (k, st') → r = r').
Proof.
  assert (Hdead := fork_slot_dead). assert (Hne := fork_slot_ne).
  assert (Howner := fork_slot_owner). intros t'. split.
  - intros r tr k st Hr Hf. unfold t', set_frk in Hr. slots.
    + destruct x as [st'|]; simplify_eq/=. destruct Hmv as (He & _). split.
      * rewrite list_lookup_alter_eq, Hi. by eexists.
      * rewrite list_lookup_alter_ne by done. by exists q; auto.
    + destruct (fam_fork _ _ _ _ F _ _ _ _ H Hf) as [(y & Hy & Hsy) (z & Hz & Hsz)].
      split; (eapply alter_keep; [done..|]); intros ->; simplify_eq.
      * destruct n. symmetry. by eapply Howner.
      * destruct Hdead. unfold alive. tauto.
  - intros r r' t1 t2 k st st' H1 H2 Hf1 Hf2. unfold t', set_frk in H1, H2. slots; try done.
    + destruct x; simplify_eq/=. by eapply Howner.
    + destruct x; simplify_eq/=. symmetry. by eapply Howner.
    + by eapply (fam_fork_inj _ _ _ _ F).
Qed.

Lemma fam_fork_move : fam (alter f i l) (set_frk j ((λ st, (i, st)) <$> x) t) ini np'.
Proof.
  assert (Hdead := fork_slot_dead). assert (Hne := fork_slot_ne).
  assert (Honly := fork_slot_only). assert (Hmst := fork_moved_state _ _ _ _ Hmv).
  destruct fam_fork_move_forks as [HF1 HF2].
  split; [..|exact HF1|exact HF2| | | | | |].
  - intros k y Hk Hst. slots; [|by eapply (fam_unused _ _ _ _ F)].
    destruct x; simpl in Hmv; [destruct Hmv; congruence|]. destruct Hmv as [[]|[]]; congruence.
  - intros k y Hk Hst. slots.
    + destruct x as [st|]; simpl in Hmv; [|destruct Hmv as [[]|[]]; congruence].
      exists j, (ti <| frk := Some (k, st) |>), st. unfold set_frk.
      rewrite list_lookup_alter_eq, Hti. destruct Hmv as (_ & ? & ? & ?). by split_and!.
    + destruct (fam_embryo _ _ _ _ F _ _ H Hst) as (r & t' & st & Hr & Hf & ?). exists r, t', st.
      unfold set_frk. rewrite list_lookup_alter_ne; [done|]. intros <-. simplify_eq.
      by destruct n; symmetry; eapply Honly.
  - intros k y r Hk Hr. slots.
    + assert (r = j) as ->; [|rewrite list_lookup_alter_ne by done; exists q; rewrite Hq].
      { destruct x as [st|]; simpl in Hmv; [|destruct Hmv as [[]|[]]; congruence].
        destruct Hmv as (_ & ? & _). case_decide; congruence. }
      split_and!; [done|by right; left|done].
    + destruct (fam_parent _ _ _ _ F _ _ _ H Hr) as (z & Hz & Ha).
      eapply (alter_keep _ _ _ _ _ (λ y, alive (state y) ∧ r ≠ k)); [done..|].
      intros ->. destruct Ha. by simplify_eq.
  - intros r z k y Hr Hsl Hc Hk Hpy Hz. slots; try (rewrite Hsl in Hmst; set_solver);
      try (rewrite Hz in Hmst; set_solver).
    pose proof (fam_wait _ _ _ _ F) as Hw. by_wait Hw r k.
  - intros k y Hb Hk Hst. slots; [by apply Hpid|].
    pose proof (fam_pid _ _ _ _ F _ _ ltac:(lia) H Hst). lia.
  - intros k1 k2 y1 y2 Hb H1 H2 Hs1 Hs2 Heq. slots; try done.
    + exfalso. by eapply (proj2 (Hpid Hb Hs2) k1).
    + exfalso. by eapply (proj2 (Hpid Hb Hs1) k2).
    + eapply (fam_pid_inj _ _ _ _ F); try done. lia.
  - destruct (fam_init _ _ _ _ F) as (y & Hy & Ha).
    eapply (alter_keep _ _ _ _ _ (λ y, alive (state y) ∧ parent y = None)); [done..|].
    intros ->. destruct Ha. by simplify_eq.
  - intros k y Hk Hm Hki. slots; [|by eapply (fam_child _ _ _ _ F)]. destruct Hm as [Hm1 Hm2].
    destruct x as [st|]; simpl in Hmv; [by destruct Hmv|]. destruct Hmv as [[? _]|[_ ->]]; [done|by eexists].
Qed.
End fork_move.

(** [initproc] takes over a child, which is no zombie it sleeps on. *)
Lemma fam_adopt l t ini np i p cur :
  fam l t ini np → l !! i = Some p → parent p = Some cur → state p ≠ EMBRYO →
  (state p = ZOMBIE → ∀ q, l !! ini = Some q → state q = SLEEPING →
                      chan q ≠ Some (ChProc ini)) →
  fam (alter (λ q, q <| parent := Some ini |>) i l) t ini np.
Proof.
  intros [Hun Hemb Hfork Hfinj Hpar Hwait Hpid Hpinj Hini Hkid] Hi Hc Hne Hz.
  split; [..|done| | | | | |].
  - intros j q Hj Hst. slots; [|eauto]. rewrite (Hun _ _ Hi Hst) in Hc. done.
  - intros j q Hj Hst. slots; eauto.
  - intros q t' j st Hq' Hfr. destruct (Hfork q t' j st Hq' Hfr) as [(e & He & Hst) (pq & Hpq & Hsq)].
    split; (eapply alter_keep; [done..|]); by intros ->.
  - intros j q r Hj Hr. destruct Hini as (y & Hy & Hay & Hny).
    assert (Hex : ∃ pr, l !! r = Some pr ∧ alive (state pr) ∧ r ≠ j)
      by (slots; [exists y; split_and!; [done..|]; intros ->; congruence|eauto]).
    destruct Hex as (pr & Hpr & Ha).
    by eapply (alter_keep _ _ _ _ _ (λ y, alive (state y) ∧ r ≠ j)).
  - intros q pq j x Hq Hsl Hch Hj Hpx Hzx. slots; try by_wait Hwait q j; by eapply Hz.
  - intros j q Hnp Hj Hst. slots; eauto.
  - intros j k q r Hnp Hj Hk Hst Hst' Heq. slots; eauto.
  - destruct Hini as (q & Hq & Ha & Hn).
    eapply (alter_keep _ _ _ _ _ (λ y, alive (state y) ∧ parent y = None)); [done..|].
    intros ->. congruence.
  - intros j q Hj Hm Hji. slots; [by eexists|eauto].
Qed.

Lemma fam_pc l t ini np i x : fam l t ini np → fam l (set_pc i x t) ini np.
Proof.
  intros [Hun Hemb Hfork Hfinj Hpar Hwait Hpid Hpinj Hini Hkid].
  assert (Hfwd : ∀ q t', t !! q = Some t' → ∃ t1, set_pc i x t !! q = Some t1 ∧ frk t1 = frk t').
  { intros q t' Hq. unfold set_pc. eapply (alter_keep _ _ _ _ _ (λ y, frk y = frk t')); by try done. }
  assert (Hback : ∀ q t1, set_pc i x t !! q = Some t1 → ∃ t', t !! q = Some t' ∧ frk t1 = frk t').
  { intros q t1 Hq. unfold set_pc in Hq. slots; eauto. }
  split; try done.
  - intros j p Hj He. destruct (Hemb j p Hj He) as (q & t' & st & Hq & Hf & ?).
    destruct (Hfwd q t' Hq) as (t1 & Ht1 & E). exists q, t1, st. by rewrite E.
  - intros q t1 j st Hq Hf. destruct (Hback q t1 Hq) as (t' & Ht' & E). rewrite E in Hf. eauto.
  - intros q q' t1 t2 j st st' H1 H2 F1 F2.
    destruct (Hback q t1 H1) as (u1 & ? & E1), (Hback q' t2 H2) as (u2 & ? & E2).
    rewrite E1 in F1. rewrite E2 in F2. eauto.
Qed.

(** A wake-up keeps the family. *)
Lemma softf_wake ch p : softf p (wake ch p).
Proof.
  unfold wake. case_bool_decide as Hs; simpl; [|apply softf_refl].
  case_bool_decide; [|apply softf_refl]. split_and!; [done..|]. right.
  split; [by right; right|by left].
Qed.

Lemma fam_wake ch l t ini np : fam l t ini np → fam (wake ch <$> l) t ini np.
Proof.
  apply fam_softf. apply Forall2_fmap_r, Forall_Forall2_diag, Forall_forall.
  intros p _. apply softf_wake.
Qed.

(** Whoever slept on [ch] does so no longer. *)
Lemma wake_awake ch (l : list proc) i p :
  (wake ch <$> l) !! i = Some p → state p = SLEEPING → chan p ≠ ch.
Proof.
  rewrite list_lookup_fmap, fmap_Some. intros (q & Hq & ->). unfold wake.
  do 2 case_bool_decide; simpl; congruence.
Qed.

(** A process that is not in [fork] has no unfinished child. *)
Lemma fam_child_embryo l t ini np i p cur tc :
  fam l t ini np → t !! cur = Some tc → frk tc = None →
  l !! i = Some p → parent p = Some cur → state p ≠ EMBRYO.
Proof.
  intros F Htc Hf Hi Hp He. destruct (fam_embryo _ _ _ _ F _ _ Hi He) as (q & t' & st & Hq & Hfr & Hpar & _).
  case_decide; congruence.
Qed.

Lemma fam_adopt_step l t ini np cur tc j :
  fam l t ini np → t !! cur = Some tc → frk tc = None →
  fam (adopt cur (Some ini) l j) t ini np.
Proof.
  intros F Htc Hf. unfold adopt. destruct (l !! j) as [p|] eqn:Hj; [|done].
  case_bool_decide as Hpar; [|done].
  assert (He : state p ≠ EMBRYO) by (by eapply fam_child_embryo).
  case_bool_decide as Hz; [|by eapply fam_adopt].
  rewrite (list_fmap_alter _ _ (λ q, q <| parent := Some ini |>)).
  - eapply (fam_adopt _ _ _ _ _ (wake (ChProc <$> Some ini) p)).
    + by apply fam_wake.
    + by rewrite list_lookup_fmap, Hj.
    + unfold wake. by rewrite Hz.
    + unfold wake. by rewrite Hz.
    + intros _ q Hq Hs. by eapply wake_awake.
  - apply Forall_forall. intros q _. unfold wake. by destruct (_ && _).
Qed.

(** What the loop of [exit] has done after the slots [js]. *)
Lemma fam_exit_loop l t ini np cur tc js :
  fam l t ini np → t !! cur = Some tc → frk tc = None →
  fam (exit_loop cur (Some ini) js l) t ini np.
Proof.
  intros F Htc Hf. unfold exit_loop. revert l F. induction js as [|j js IH]; intros l F; [done|].
  simpl. apply IH. by eapply fam_adopt_step.
Qed.

(** A turn changes parents, from [cur] to [initproc], and wakes sleepers. *)
Definition adopted (cur ini : nat) (p p' : proc) : Prop :=
  (parent p' = parent p ∨ (parent p = Some cur ∧ parent p' = Some ini)) ∧
  kstack p' = kstack p ∧ pgdir p' = pgdir p ∧ pid p' = pid p ∧ chan p' = chan p ∧
  (state p' = state p ∨ (state p = SLEEPING ∧ state p' = RUNNABLE)).

Lemma adopted_refl cur ini p : adopted cur ini p p.
Proof. split_and!; by try left. Qed.

Lemma adopted_wake cur ini ch p p' : adopted cur ini p p' → adopted cur ini p (wake ch p').
Proof.
  intros (Hp & ? & ? & ? & ? & Hs). unfold wake. do 2 case_bool_decide; simpl; try by split_and!.
  split_and!; simpl; try done. destruct Hs as [Hs|[_ Hs]]; [|congruence]. right. split; congruence.
Qed.

Lemma adopt_adopted cur ini l j : Forall2 (adopted cur ini) l (adopt cur (Some ini) l j).
Proof.
  unfold adopt. destruct (l !! j) as [p|] eqn:Hj;
    [|by apply Forall_Forall2_diag, Forall_forall; intros; apply adopted_refl].
  case_bool_decide as Hp;
    [|by apply Forall_Forall2_diag, Forall_forall; intros; apply adopted_refl].
  assert (Hal : Forall2 (adopted cur ini) l (alter (λ q, q <| parent := Some ini |>) j l)).
  { apply Forall2_alter; [apply adopted_refl|]. intros q Hq. simplify_eq.
    split_and!; try done; [by right|by left]. }
  case_bool_decide; [|done]. apply Forall2_fmap_r.
  eapply Forall2_impl; [done|]. intros. by apply adopted_wake.
Qed.

(** Nothing goes to sleep in the loop, and the children of [cur] it has seen
    are [initproc]'s. *)
Lemma exit_loop_adopted cur ini js : ∀ l j p',
  ini ≠ cur → exit_loop cur (Some ini) js l !! j = Some p' →
  ∃ p, l !! j = Some p ∧ adopted cur ini p p' ∧ (j ∈ js → parent p' ≠ Some cur).
Proof.
  unfold exit_loop. induction js as [|k js IH]; intros l j p' Hne Hj; simpl in Hj.
  { exists p'. split_and!; [done|apply adopted_refl|set_solver]. }
  apply IH in Hj as (p1 & Hp1 & A1 & Hn1); [|done].
  destruct (Forall2_back _ _ _ _ _ (adopt_adopted cur ini l k) Hp1) as (p & Hp & A0).
  exists p. split; [done|]. split.
  - destruct A0 as (P0 & K0 & D0 & I0 & C0 & S0), A1 as (P1 & K1 & D1 & I1 & C1 & S1).
    split_and!; [|congruence..|].
    + destruct P0 as [E0|[E0 E0']], P1 as [E1|[E1 E1']]; rewrite ?E0, ?E1, ?E0' in *; auto.
    + destruct S0 as [E0|[E0 E0']], S1 as [E1|[E1 E1']]; rewrite ?E0, ?E1, ?E0' in *; auto.
  - intros [->|Hjs]%elem_of_cons; [|by apply Hn1].
    assert (Hnk : parent p1 ≠ Some cur).
    { revert Hp1. unfold adopt. rewrite Hp. case_bool_decide as Hpc;
        [|intros ?; by simplify_eq].
      case_bool_decide; rewrite ?list_lookup_fmap, list_lookup_alter_eq, Hp; simpl;
        intros ?; simplify_eq; unfold wake; repeat case_match; simpl; congruence. }
    destruct A1 as ([E1|[E1 E1']] & _); congruence.
Qed.

(** The table [exit] leaves. *)
Definition exit_result (cur ini : nat) (c : proc) (now : Z) (l : list proc) : list proc :=
  alter (exited now) cur
    (exit_loop cur (Some ini) (seq 0 NPROC) (wake (ChProc <$> parent c) <$> l)).

Lemma exit_result_back cur ini c l j p2 :
  length l = NPROC → ini ≠ cur →
  exit_loop cur (Some ini) (seq 0 NPROC) (wake (ChProc <$> parent c) <$> l) !! j = Some p2 →
  parent p2 ≠ Some cur ∧ ∃ p, l !! j = Some p ∧ adopted cur ini p p2 ∧
  (state p2 = SLEEPING → chan p2 ≠ ChProc <$> parent c).
Proof.
  intros Hlen Hne Hj. pose proof Hj as Hlt%lookup_lt_Some.
  rewrite exit_loop_length, length_fmap, Hlen in Hlt.
  apply exit_loop_adopted in Hj as (p1 & Hp1 & A & Hn); [|done].
  split; [apply Hn, elem_of_seq; lia|]. pose proof Hp1 as Hw.
  rewrite list_lookup_fmap, fmap_Some in Hp1. destruct Hp1 as (p & Hp & ->). exists p.
  split; [done|]. pose proof (adopted_wake cur ini (ChProc <$> parent c) p p (adopted_refl _ _ _)) as W.
  destruct A as (P1 & K1 & D1 & I1 & C1 & S1), W as (P0 & K0 & D0 & I0 & C0 & S0). split.
  - split_and!; [|congruence..|].
    + destruct P0 as [E0|[E0 E0']], P1 as [E1|[E1 E1']]; rewrite ?E0, ?E1, ?E0' in *; auto.
    + destruct S0 as [E0|[E0 E0']], S1 as [E1|[E1 E1']]; rewrite ?E0, ?E1, ?E0' in *; auto.
  - intros Hs. rewrite C1. eapply wake_awake; [done|]. destruct S1 as [|[]]; congruence.
Qed.

Lemma fam_exit_result l t ini np cur c tc now :
  fam l t ini np → length l = NPROC → l !! cur = Some c → state c = RUNNING → ini ≠ cur →
  t !! cur = Some tc → frk tc = None →
  fam (exit_result cur ini c now l) t ini np.
Proof.
  intros F Hlen Hc Hrun Hne Htc Hf. unfold exit_result.
  set (l2 := exit_loop _ _ _ _).
  assert (F2 : fam l2 t ini np) by (eapply fam_exit_loop; [by apply fam_wake|done..]).
  destruct (lookup_lt_is_Some_2 l2 cur) as [c2 Hc2].
  { unfold l2. rewrite exit_loop_length, length_fmap. by eapply lookup_lt_Some. }
  destruct (exit_result_back cur ini c l cur c2 Hlen Hne Hc2) as (_ & c0 & Hc0 & A & _).
  simplify_eq. destruct A as (P & _ & _ & _ & _ & S).
  assert (Hp2 : parent c2 = parent c).
  { destruct P as [|[Hself _]]; [done|].
    by destruct (fam_parent _ _ _ _ F _ _ _ Hc Hself) as (? & _ & _ & ?). }
  eapply fam_exit; try done.
  - right; left. destruct S as [|[]]; congruence.
  - intros j q Hj. by destruct (exit_result_back cur ini c l j q Hlen Hne Hj) as [? _].
  - intros q pq Hq Hpq Hs. destruct (exit_result_back cur ini c l q pq Hlen Hne Hpq) as (_ & _ & _ & _ & Hn).
    rewrite Hp2 in Hq. rewrite Hq in Hn. by apply Hn.
Qed.

(** *** Who runs where *)

(** [p'] is [p] after a write to its slot that does not concern its thread. *)
Definition softr (p p' : proc) : Prop :=
  (state p ∈ [UNUSED; EMBRYO; ZOMBIE] ∧ state p' ∈ [UNUSED; EMBRYO]) ∨
  ((kstack p ≠ 0 ∧ pgdir p ≠ 0 → kstack p' ≠ 0 ∧ pgdir p' ≠ 0) ∧
   (state p' = state p ∨ (state p = SLEEPING ∧ state p' = RUNNABLE))).

Lemma softr_refl p : softr p p.
Proof. right. split; [done|by left]. Qed.

Lemma run_softr l l' cpu t : Forall2 softr l l' → run l cpu Free t → run l' cpu Free t.
Proof.
  intros Hs [Hlen Hslot Hcpu Hcinj Hasl]. split; [| | |done..].
  - rewrite <-Hlen. symmetry. by eapply Forall2_length.
  - intros i p' ti Hi Hti. destruct (Forall2_back _ _ _ _ _ Hs Hi) as (p & Hp & S).
    specialize (Hslot i p ti Hp Hti). unfold slot_ok in *.
    destruct S as [[_ S]|[Sk [->|[E ->]]]].
    + destruct (state p'); try done; set_solver.
    + destruct (state p); try done; tauto.
    + rewrite E in Hslot. tauto.
  - intros c i Hc. destruct (Hcpu c i Hc) as (p & Hp & [[? _]|[_ Hst]]); [done|].
    destruct (Forall2_fwd _ _ _ _ _ Hs Hp) as (p' & Hp' & S). exists p'. split; [done|].
    right. split; [done|]. unfold softr in S. rewrite Hst in S.
    destruct S as [[S _]|[_ [->|[E _]]]]; [set_solver|done..].
Qed.

Lemma run_frk l cpu ph t i x :
  run l cpu ph t → pc <$> t !! i = Some TRun → run l cpu ph (set_frk i x t).
Proof.
  intros [Hlen Hslot Hcpu Hcinj Hasl] Hi. unfold set_frk.
  split; [by rewrite Hlen; symmetry; apply length_alter| |done..|].
  - intros j p tj Hj Htj. apply lookup_alter_Some in Htj as (t0 & Ht0 & ->).
    specialize (Hslot j p t0 Hj Ht0). by case_decide.
  - intros j tj ch lk tk Hj Hpc. apply lookup_alter_Some in Hj as (t0 & Ht0 & ->).
    case_decide; subst; simplify_eq/=; [|eauto]. rewrite Ht0 in Hi. simplify_eq/=. congruence.
Qed.

(** The scheduler of an idle processor starts a process. *)
Lemma run_dispatch l cpu t c i p :
  run l cpu Free t → cpu !! c = Some None → l !! i = Some p → state p = RUNNABLE →
  run (alter (λ q, q <| state := RUNNING |>) i l) (<[c := Some i]> cpu) (InProc c) t.
Proof.
  intros [Hlen Hslot Hcpu Hcinj Hasl] Hc Hi Hst.
  assert (Hl : (c < length cpu)%nat) by (by eapply lookup_lt_Some).
  assert (Hno : ∀ c', cpu !! c' ≠ Some (Some i)).
  { intros c' Hc'. destruct (Hcpu c' i Hc') as (q & Hq & [[? _]|[_ ?]]); [done|congruence]. }
  split; [..|done].
  - by rewrite length_alter.
  - intros j q tj Hj Htj. slots.
    + specialize (Hslot _ _ _ Hi Htj). unfold slot_ok in *. rewrite Hst in Hslot. simpl.
      destruct Hslot as (? & ? & ?). split_and!; [done..|]. exists c.
      rewrite list_lookup_insert_eq by done. auto.
    + specialize (Hslot _ _ _ H Htj). unfold slot_ok in *. destruct (state x); try done.
      destruct Hslot as (? & ? & c' & Hc' & [[? _]|[_ Hpc]]); [done|]. split_and!; [done..|].
      assert (c ≠ c') by congruence. exists c'. rewrite list_lookup_insert_ne by done.
      split; [done|]. right. split; [congruence|done].
  - intros c' j Hc'. apply list_lookup_insert_Some in Hc' as [(<- & Hj & _)|[Hne Hc']]; simplify_eq.
    + rewrite list_lookup_alter_eq, Hi. eexists. split; [done|]. by right.
    + destruct (Hcpu c' j Hc') as (q & Hq & [[? _]|[_ ?]]); [done|].
      exists q. rewrite list_lookup_alter_ne by (intros ->; by eapply Hno). split; [done|]. by right.
  - intros c1 c2 j H1 H2.
    apply list_lookup_insert_Some in H1 as [(<- & ? & _)|[? H1]];
    apply list_lookup_insert_Some in H2 as [(<- & ? & _)|[? H2]]; simplify_eq; try done.
    + by destruct (Hno c2).
    + by destruct (Hno c1).
    + by eapply Hcinj.
Qed.

(** The scheduler is back from its process. *)
Lemma run_back l cpu t c :
  run l cpu (InSched c) t → run l (<[c := None]> cpu) Free t.
Proof.
  intros [Hlen Hslot Hcpu Hcinj Hasl]. split; [done|..|done].
  - intros i p ti Hi Hti. specialize (Hslot i p ti Hi Hti). unfold slot_ok in *.
    destruct (state p) eqn:Est; try done.
    destruct Hslot as (? & ? & c' & Hc' & [[? _]|[_ Hpc]]); [done|]. split_and!; [done..|].
    destruct (Hcpu c' i Hc') as (q & Hq & [[? E]|[? _]]); simplify_eq;
      [rewrite Est in E; set_solver|].
    exists c'. rewrite list_lookup_insert_ne by congruence. auto.
  - intros c' i Hc'. apply list_lookup_insert_Some in Hc' as [(_ & ? & _)|[Hne Hc']]; [done|].
    destruct (Hcpu c' i Hc') as (q & Hq & [[? _]|[_ ?]]); [congruence|]. exists q. auto.
  - intros c1 c2 i H1 H2.
    apply list_lookup_insert_Some in H1 as [(_ & ? & _)|[? H1]]; [done|].
    apply list_lookup_insert_Some in H2 as [(_ & ? & _)|[? H2]]; [done|]. by eapply Hcinj.
Qed.

(** The running process gives up its processor. *)
Lemma run_off l cpu t c i p f pt :
  run l cpu Free t → cpu !! c = Some (Some i) → l !! i = Some p →
  kstack (f p) = kstack p → pgdir (f p) = pgdir p →
  (state (f p) = ZOMBIE ∨
   ((state (f p) = RUNNABLE ∨ state (f p) = SLEEPING) ∧ resumable (TAt pt))) →
  (∀ ch lk tk, pt = AtSleep ch lk tk → frk <$> t !! i = Some None) →
  run (alter f i l) cpu (InSched c) (set_pc i (TAt pt) t).
Proof.
  intros [Hlen Hslot Hcpu Hcinj Hasl] Hc Hi Hk Hd Hst Hf. unfold set_pc.
  split; [by rewrite !length_alter|..|done|].
  - intros j q tj Hj Htj. apply lookup_alter_Some in Hj as (q0 & Hq0 & ->).
    apply lookup_alter_Some in Htj as (t0 & Ht0 & ->). specialize (Hslot j q0 t0 Hq0 Ht0).
    case_decide; subst; simplify_eq.
    + destruct (Hcpu c j Hc) as (q & Hq & [[? _]|[_ E]]); [done|]. simplify_eq.
      unfold slot_ok in *. rewrite E in Hslot. rewrite Hk, Hd. destruct Hslot as (? & ? & _).
      by destruct Hst as [->|[[->| ->] Hr]].
    + unfold slot_ok in *. destruct (state q0); try done.
      destruct Hslot as (? & ? & c' & Hc' & [[? _]|[_ ?]]); [done|]. split_and!; [done..|].
      exists c'. auto.
  - intros c' j Hc'. destruct (decide (i = j)) as [<-|Hij].
    + assert (c' = c) as -> by (by eapply Hcinj). rewrite list_lookup_alter_eq, Hi.
      eexists. split; [done|]. left. split; [done|].
      destruct Hst as [->|[[->| ->] _]]; set_solver.
    + rewrite list_lookup_alter_ne by done.
      destruct (Hcpu c' j Hc') as (q & Hq & [[? _]|[_ E]]); [done|]. exists q. split; [done|].
      right. split; [|done]. intros [= <-]. congruence.
  - intros j tj ch lk tk Hj Hpc. apply lookup_alter_Some in Hj as (t0 & Ht0 & ->).
    case_decide; subst; simplify_eq/=; [|eauto]. rewrite Ht0 in Hf.
    specialize (Hf _ _ _ eq_refl). by simplify_eq/=.
Qed.

(** The process the scheduler switched to continues. *)
Lemma run_resume l cpu t c i :
  run l cpu (InProc c) t → cpu !! c = Some (Some i) → run l cpu Free (set_pc i TRun t).
Proof.
  intros [Hlen Hslot Hcpu Hcinj Hasl] Hc. unfold set_pc.
  split; [by rewrite Hlen; symmetry; apply length_alter|..|done|].
  - intros j q tj Hj Htj. apply lookup_alter_Some in Htj as (t0 & Ht0 & ->).
    specialize (Hslot j q t0 Hj Ht0). unfold slot_ok in *. case_decide; subst.
    + destruct (Hcpu c j Hc) as (q' & Hq & [[? _]|[_ E]]); [done|]. simplify_eq.
      rewrite E in *. destruct Hslot as (? & ? & _). split_and!; [done..|]. exists c. auto.
    + destruct (state q); try done.
      destruct Hslot as (? & ? & c' & Hc' & [[[= <-] _]|[_ ?]]); [congruence|].
      split_and!; [done..|]. exists c'. auto.
  - intros c' j Hc'. destruct (Hcpu c' j Hc') as (q & Hq & [[? _]|[_ E]]); [done|]. exists q. auto.
  - intros j tj ch lk tk Hj Hpc. slots; eauto.
Qed.

(** A new process is ready to be scheduled. *)
Lemma run_publish l cpu t i p :
  run l cpu Free t → l !! i = Some p → state p = EMBRYO → kstack p ≠ 0 → pgdir p ≠ 0 →
  run (alter (λ q, q <| state := RUNNABLE |>) i l) cpu Free (set_pc i TNew t).
Proof.
  intros [Hlen Hslot Hcpu Hcinj Hasl] Hi He Hk Hd. unfold set_pc.
  split; [by rewrite !length_alter|..|done|].
  - intros j q tj Hj Htj. apply lookup_alter_Some in Hj as (q0 & Hq0 & ->).
    apply lookup_alter_Some in Htj as (t0 & Ht0 & ->). specialize (Hslot j q0 t0 Hq0 Ht0).
    case_decide; subst; simplify_eq; [by split_and!|done].
  - intros c j Hc. destruct (Hcpu c j Hc) as (q & Hq & [[? _]|[_ E]]); [done|].
    rewrite list_lookup_alter_ne by congruence. exists q. auto.
  - intros j tj ch lk tk Hj Hpc. slots; eauto.
Qed.


(** *** The steps keep it *)

Lemma run_dispatchable l cpu ph t : run l cpu ph t → dispatchable l.
Proof.
  intros R i p Hi Hst. destruct (lookup_lt_is_Some_2 t i) as [ti Hti].
  { rewrite <-(run_len _ _ _ _ R). by eapply lookup_lt_Some. }
  pose proof (run_slot _ _ _ _ R _ _ _ Hi Hti) as Hok. unfold slot_ok in Hok.
  rewrite Hst in Hok. tauto.
Qed.

(** The process on a processor between sections is RUNNING. *)
Lemma run_running l cpu t c i :
  run l cpu Free t → cpu !! c = Some (Some i) → ∃ p, l !! i = Some p ∧ state p = RUNNING.
Proof.
  intros R Hc. destruct (run_cpu _ _ _ _ R _ _ Hc) as (p & ? & [[? _]|[_ ?]]); eauto; done.
Qed.

(** [nextpid] after [n] more processes than [userinit] makes: an int wraps. *)
Definition pid_count (n np : Z) : Prop := 0 ≤ n ∧ np = s32 (2 + n).

(** The invariant in terms of the parts of the state it is about. *)
Definition good (n : Z) (k : kernel) (ph : phase) (t : list thr) : Prop :=
  ∃ ini, initproc (kproc k) = Some ini ∧ pid_count n (nextpid (kproc k)) ∧ length (tab_of k) = NPROC ∧
    fam (tab_of k) t ini (2 + n) ∧ run (tab_of k) (cpu_of k) ph t.

Lemma softf_running p : alive (state p) → softf p (p <| state := RUNNING |>).
Proof. intros Ha. split_and!; [done..|]. right. auto. Qed.

Lemma good_dispatched n k t c i p s :
  good n k Free t → cpu_of k !! c = Some None → tab_of k !! i = Some p → state p = RUNNABLE →
  me (kcpu s) = c → tab_of s = tab_of k → cpu_of s = cpu_of k →
  initproc (kproc s) = initproc (kproc k) → nextpid (kproc s) = nextpid (kproc k) →
  good n (dispatched i p s) (InProc c) t.
Proof.
  intros (ini & Hini & Hnp & Hlen & F & R) Hc Hi Hst Hme Ht Hcpu Hin Hn.
  exists ini. unfold tab_of, cpu_of, dispatched in *. simpl. rewrite Hin, Hn, Ht, Hcpu, Hme.
  split_and!; [done..|by rewrite length_alter| |].
  - eapply fam_softf; [|done]. apply Forall2_alter; [apply softf_refl|]. intros q Hq. simplify_eq.
    apply softf_running. by left.
  - by eapply run_dispatch.
Qed.

(** [k'] is [k] but for the table and what the invariant is not about. *)
Definition same_but_table (k k' : kernel) : Prop :=
  cpu_of k' = cpu_of k ∧ initproc (kproc k') = initproc (kproc k) ∧
  nextpid (kproc k') = nextpid (kproc k).

Lemma good_soft n k k' t :
  good n k Free t → same_but_table k k' →
  Forall2 (λ p p', softf p p' ∧ softr p p') (tab_of k) (tab_of k') → good n k' Free t.
Proof.
  intros (ini & Hini & Hnp & Hlen & F & R) (Hc & Hi & Hn) Hs. exists ini. rewrite Hc, Hi, Hn.
  split_and!; [done..|by rewrite <-Hlen; symmetry; eapply Forall2_length| |].
  - eapply fam_softf; [|done]. eapply Forall2_impl; [done|]. by intros ? ? [? _].
  - eapply run_softr; [|done]. eapply Forall2_impl; [done|]. by intros ? ? [_ ?].
Qed.

Lemma good_alter n k k' t i f :
  good n k Free t → same_but_table k k' → tab_of k' = alter f i (tab_of k) →
  (∀ p, tab_of k !! i = Some p → softf p (f p) ∧ softr p (f p)) → good n k' Free t.
Proof.
  intros G Hsame Ht Hf. eapply good_soft; [done..|]. rewrite Ht.
  apply Forall2_alter; [|done]. intros p. split; [apply softf_refl|apply softr_refl].
Qed.

Lemma softr_wake ch p : softr p (wake ch p).
Proof.
  unfold wake. do 2 case_bool_decide; try apply softr_refl. right. split; [done|]. by right.
Qed.

Lemma soft_killed p : softf p (killed_proc p) ∧ softr p (killed_proc p).
Proof.
  unfold killed_proc. simpl. case_bool_decide as Hs; simpl.
  - split; [|right; split; [done|by right]]. split_and!; [done..|]. right. split; [by right; right|by left].
  - split; [|right; split; [done|by left]]. split_and!; [done..|]. by left.
Qed.

Lemma soft_benign f p : benign f → softf p (f p) ∧ softr p (f p).
Proof.
  intros Hf. destruct (Hf p) as (E1 & E2 & E3 & E4 & E5 & E6). split.
  - split_and!; [done..|]. by left.
  - right. rewrite E5. split; [tauto|by left].
Qed.

Lemma good_woken n k t c ls ch : good n k Free t → good n (with_table (fmap (wake (Some ch))) (on c ls k)) Free t.
Proof.
  intros G. eapply good_soft; [done|done|]. apply Forall2_fmap_r, Forall_Forall2_diag, Forall_forall. intros q _.
  split; [apply softf_wake|apply softr_wake].
Qed.

(** A child is reaped between two states of the table. *)
Lemma good_reap n k k' t i p :
  good n k Free t → same_but_table k k' → tab_of k !! i = Some p → state p = ZOMBIE →
  tab_of k' = alter reaped_slot i (tab_of k) → good n k' Free t.
Proof.
  intros (ini & Hini & Hnp & Hlen & F & R) (Hc & Hin & Hn) Hi Hz Ht.
  exists ini. rewrite Hc, Hin, Hn, Ht. split_and!; [done..|by rewrite length_alter| |].
  - by eapply fam_reap.
  - eapply run_softr; [|done]. apply Forall2_alter; [apply softr_refl|].
    intros q Hq. simplify_eq. left. rewrite Hz. split; set_solver.
Qed.

(** The running process [i] is off its processor [c], asleep. *)
Lemma good_asleep n k k' t c i ti ch lk tk :
  good n k Free t → same_but_table k k' → cpu_of k !! c = Some (Some i) →
  t !! i = Some ti → frk ti = None → (ch = ChProc i → no_zombie_child i (tab_of k)) →
  tab_of k' = alter (put_to_sleep ch) i (tab_of k) →
  good n k' (InSched c) (set_pc i (TAt (AtSleep ch lk tk)) t).
Proof.
  intros (ini & Hini & Hnp & Hlen & F & R) (Hcpu & Hin & Hn) Hc Hti Hf Hch Ht.
  destruct (run_running _ _ _ _ _ R Hc) as (p & Hi & Hrun).
  exists ini. rewrite Hcpu, Hin, Hn, Ht. split_and!; [done..|by rewrite length_alter| |].
  - apply fam_pc. eapply (fam_sleep _ _ _ _ _ p); try done. rewrite Hrun. by right; left.
  - eapply (run_off _ _ _ _ _ p); try done; [right; split; [by right|done]|].
    intros _ _ _ _. by rewrite Hti, <-Hf.
Qed.

(** [exit] of process [i] on processor [c]. *)
Lemma good_exit n k k' t c i ti p ini now :
  good n k Free t → same_but_table k k' → cpu_of k !! c = Some (Some i) →
  t !! i = Some ti → frk ti = None → tab_of k !! i = Some p →
  initproc (kproc k) = Some ini → ini ≠ i →
  tab_of k' = exit_result i ini p now (tab_of k) →
  good n k' (InSched c) (set_pc i (TAt AtExit) t).
Proof.
  intros (ini' & Hini & Hnp & Hlen & F & R) (Hcpu & Hin & Hn) Hc Hti Hf Hi Hini' Hne Ht.
  rewrite Hini in Hini'. simplify_eq.
  destruct (run_running _ _ _ _ _ R Hc) as (p' & Hp' & Hrun). simplify_eq.
  exists ini. rewrite Hcpu, Hin, Hn, Ht.
  split_and!; [done..|by unfold exit_result; rewrite length_alter, exit_loop_length, length_fmap| |].
  - apply fam_pc. by eapply fam_exit_result.
  - unfold exit_result. set (l2 := exit_loop _ _ _ _).
    destruct (lookup_lt_is_Some_2 l2 i) as [c2 Hc2].
    { unfold l2. rewrite exit_loop_length, length_fmap. by eapply lookup_lt_Some. }
    eapply (run_off _ _ _ _ _ c2); try done; [|by left]. eapply run_softr; [|done].
    apply Forall2_same_length_lookup_2.
    { unfold l2. by rewrite exit_loop_length, length_fmap. }
    intros j q q2 Hq Hq2. destruct (exit_result_back i ini p _ j q2 Hlen Hne Hq2) as (_ & q0 & Hq0 & A & _).
    simplify_eq. destruct A as (_ & Ek & Ed & _ & _ & Es). right. by rewrite Ek, Ed.
Qed.

Lemma good_same n k k' t ph :
  good n k ph t → same_but_table k k' → tab_of k' = tab_of k → good n k' ph t.
Proof.
  intros (ini & Hini & Hnp & Hlen & F & R) (Hc & Hi & Hn) Ht. exists ini.
  by rewrite Hc, Hi, Hn, Ht.
Qed.

(** One turn of [wait] or [waitx] with the lock held. *)
Lemma good_wait_ok n k s t i r k' :
  good n k Free t → same_but_table k s → tab_of s = tab_of k → held s = [LkPtable] →
  wait_turn i s = Ok r k' → good n k' Free t.
Proof.
  intros G (Hc & Hin & Hn) Ht Hh H. apply wait_turn_ok in H; [|done].
  destruct H as [(j & p & Hj & _ & Hz & _ & (fr & b & ->))|(_ & _ & ->)].
  - eapply (good_reap _ k _ _ j p); [done|by split_and!|by rewrite <-Ht|done|].
    unfold tab_of in *. simpl. by rewrite Ht.
  - eapply good_same; [done|by split_and!|done].
Qed.

Lemma good_wait_off n k s t c i ti pt k' :
  good n k Free t → same_but_table k s → tab_of s = tab_of k → held s = [LkPtable] →
  me (kcpu s) = c → cpu_of k !! c = Some (Some i) → t !! i = Some ti → frk ti = None →
  wait_turn i s = Sleep pt k' → good n k' (InSched c) (set_pc i (TAt pt) t).
Proof.
  intros G Hsame Ht Hh Hme Hc Hti Hf H. pose proof Hsame as (Hcpu & Hin & Hn).
  destruct (G) as (ini & _ & _ & _ & _ & R).
  destruct (run_running _ _ _ _ _ R Hc) as (p & Hi & Hrun).
  apply wait_turn_sleep in H; [|done|..].
  - destruct H as (Hno & -> & ->). eapply good_asleep; try done.
    + intros _. by rewrite <-Ht.
    + unfold tab_of in *. simpl. by rewrite Ht.
  - unfold runs. rewrite Hme. change (cpu_of s !! c = Some (Some i)). by rewrite Hcpu.
  - exists p. change (tab_of s !! i = Some p). by rewrite Ht.
Qed.

(** The sections that end in a return of the process. *)
Lemma good_section n k t c i fk ls m k' :
  good n k Free t → cpu_of k !! c = Some (Some i) →
  section i ls fk m → m (on c ls k) = Ok tt k' → good n k' Free t.
Proof.
  intros G Hc Hsec Hm. pose proof G as (ini & Hini & Hnp & Hlen & F & R).
  destruct (run_running _ _ _ _ _ R Hc) as (p & Hi & Hrun).
  destruct Hsec as [fk|ch lk Hlk Hch|fk ls ch Hls|pid'| | | |pid'|fk j f Hf].
  - erewrite yield_eq in Hm by done. done.
  - by apply sleep_not_ok in Hm.
  - rewrite wakeup_eq in Hm by done. simplify_eq. by apply (good_woken _ k).
  - apply bind_inv_ok in Hm as (r & s1 & Hm & [= <-]). rewrite kill_eq in Hm by done.
    destruct (find_index _ _) as [j|]; simplify_eq.
    + eapply (good_alter _ k _ _ j); [done..|]. intros q _. apply soft_killed.
    + by eapply good_same.
  - apply bind_inv_ok in Hm as (r & s1 & Hm & [= <-]). rewrite (wait_eq _ i) in Hm by done.
    by eapply good_wait_ok in Hm.
  - apply bind_inv_ok in Hm as (r & s1 & Hm & [= <-]). rewrite (waitx_eq _ i) in Hm by done.
    apply waitx_turn_ok in Hm. by eapply good_wait_ok in Hm.
  - rewrite (exit_enter_eq _ i) in Hm by done. case_bool_decide as Hne; [done|].
    erewrite exit_table_eq in Hm by done. done.
  - apply bind_inv_ok in Hm as (r & s1 & Hm & [= <-]).
    apply get_uncle_count_ok in Hm as ->; [|done]. by eapply good_same.
  - rewrite updp_eq in Hm. simplify_eq. eapply (good_alter _ k _ _ j); [done..|].
    intros q _. by apply soft_benign.
Qed.

#[local] Opaque exit_loop.

(** The sections that give up the processor. *)
Lemma good_section_off n k t c i ti fk ls m pt k' :
  good n k Free t → cpu_of k !! c = Some (Some i) → t !! i = Some ti →
  (fk = false → frk ti = None) →
  section i ls fk m → m (on c ls k) = Sleep pt k' → good n k' (InSched c) (set_pc i (TAt pt) t).
Proof.
  intros G Hc Hti Hfk Hsec Hm. pose proof G as (ini & Hini & Hnp & Hlen & F & R).
  destruct (run_running _ _ _ _ _ R Hc) as (p & Hi & Hrun).
  destruct Hsec as [fk|ch lk Hlk Hch|fk ls ch Hls|pid'| | | |pid'|fk j f Hf].
  - erewrite yield_eq in Hm by done. simplify_eq. exists ini.
    split_and!; [done..|by unfold tab_of in *; simpl; rewrite length_alter| |].
    + apply fam_pc. eapply fam_softf; [|done]. apply Forall2_alter; [apply softf_refl|].
      intros q Hq. change (tab_of k !! i = Some q) in Hq. assert (q = p) as -> by congruence.
      split_and!; [done..|]. right. split; [by rewrite Hrun; right; left|by left].
    + eapply (run_off _ _ _ _ _ p wake_yield); try done. right. split; [by left|done].
  - erewrite sleep_eq in Hm by done. simplify_eq. eapply good_asleep; try done; [by apply Hfk|].
    intros ->. by destruct (Hch i).
  - by rewrite wakeup_eq in Hm.
  - unfold bind in Hm. rewrite kill_eq in Hm by done. by destruct (find_index _ _).
  - unfold bind in Hm. rewrite (wait_eq _ i) in Hm by done.
    destruct (wait_turn _ _) eqn:E; simplify_eq. eapply good_wait_off in E; try done. by apply Hfk.
  - unfold bind in Hm. rewrite (waitx_eq _ i) in Hm by done.
    destruct (waitx_turn _ _) eqn:E; simplify_eq. apply waitx_turn_sleep in E.
    eapply good_wait_off in E; try done. by apply Hfk.
  - rewrite (exit_enter_eq _ i) in Hm by done. case_bool_decide as Hne; [done|].
    erewrite exit_table_eq in Hm by done. injection Hm as <- <-.
    eapply (good_exit _ k _ _ c i ti p ini (ticks (kproc k)) G);
      [done|done|done|by apply Hfk|done|done|intros ->; by apply Hne|].
    unfold tab_of, with_table, exit_result. simpl. by rewrite Hini.
  - unfold bind in Hm. destruct (get_uncle_count _ _) eqn:E; simplify_eq.
    by apply no_sleep in E; [|exact _].
  - done.
Qed.

(** The process the scheduler switched to is running again. *)
Lemma good_resume n k t c i :
  good n k (InProc c) t → cpu_of k !! c = Some (Some i) → good n k Free (set_pc i TRun t).
Proof.
  intros (ini & Hini & Hnp & Hlen & F & R) Hc. exists ini. split_and!; [done..| |].
  - by apply fam_pc.
  - by eapply run_resume.
Qed.

Lemma set_pc_twice i x y t : set_pc i x (set_pc i y t) = set_pc i x t.
Proof. unfold set_pc. by rewrite list_alter_alter_eq. Qed.

(** It returns from [sleep]. *)
Lemma good_sleep_resume n k t c i lk tk s' :
  good n k Free t → cpu_of k !! c = Some (Some i) →
  sleep_resume i lk tk (on c [LkPtable] k) = Ok tt s' → good n s' Free t ∧ same_but_table k s'.
Proof.
  intros G Hc H. pose proof G as (ini & _ & _ & _ & _ & R).
  destruct (run_running _ _ _ _ _ R Hc) as (p & Hi & Hrun).
  apply sleep_resume_ok in H as (Hcpu & f & Hk & Hf & _); [|done].
  assert (Hs : same_but_table k s').
  { unfold same_but_table, cpu_of. by rewrite Hcpu, Hk. }
  split; [|done]. eapply (good_alter _ k _ _ i f); [done|done|unfold tab_of; by rewrite Hk|].
  intros q Hq. simplify_eq. rewrite Hf. split; [split_and!|right]; simpl; try done.
  - left. rewrite Hrun. done.
  - split; [done|by left].
Qed.

Lemma good_continuation n k t c i x m k' :
  good n k (InProc c) t → cpu_of k !! c = Some (Some i) →
  continuation i x m → m (on c [LkPtable] k) = Ok tt k' → good n k' Free (set_pc i TRun t).
Proof.
  intros G Hc Hcont Hm. apply (good_resume _ _ _ _ i) in G; [|done].
  destruct Hcont as [| |ch lk tk Hlk|ch tk|ch tk].
  - rewrite release_ptable in Hm by done. injection Hm as <-. by eapply good_same.
  - unfold yield_resume in Hm. rewrite release_ptable in Hm by done. injection Hm as <-.
    by eapply good_same.
  - by eapply good_sleep_resume.
  - apply bind_inv_ok in Hm as (r & s1 & Hm & [= <-]).
    apply bind_inv_ok in Hm as ([] & s2 & Hs & Hm).
    pose proof (good_sleep_resume _ _ _ _ _ _ _ _ G Hc Hs) as [G2 _].
    apply sleep_resume_ok in Hs as (_ & f & _ & _ & Hs); [|done].
    rewrite (Hs eq_refl) in *. by eapply (good_wait_ok _ _ _ _ i).
  - apply bind_inv_ok in Hm as (r & s1 & Hm & [= <-]).
    apply bind_inv_ok in Hm as ([] & s2 & Hs & Hm). apply waitx_turn_ok in Hm.
    pose proof (good_sleep_resume _ _ _ _ _ _ _ _ G Hc Hs) as [G2 _].
    apply sleep_resume_ok in Hs as (_ & f & _ & _ & Hs); [|done].
    rewrite (Hs eq_refl) in *. by eapply (good_wait_ok _ _ _ _ i).
Qed.

Lemma good_continuation_off n k t c i x m pt k' :
  good n k (InProc c) t → cpu_of k !! c = Some (Some i) → pc <$> t !! i = Some x →
  continuation i x m → m (on c [LkPtable] k) = Sleep pt k' →
  good n k' (InSched c) (set_pc i (TAt pt) t).
Proof.
  intros G Hc Hx Hcont Hm.
  assert (Hfr : ∀ ch tk, x = TAt (AtSleep ch LkPtable tk) → ∃ ti, t !! i = Some ti ∧ frk ti = None).
  { intros ch tk ->. destruct (t !! i) as [ti|] eqn:Hti; simplify_eq/=. exists ti.
    split; [done|]. destruct G as (ini & _ & _ & _ & _ & R). by eapply (run_asleep _ _ _ _ R). }
  apply (good_resume _ _ _ _ i) in G; [|done].
  assert (Hwait : ∀ ch tk s2, x = TAt (AtSleep ch LkPtable tk) →
    sleep_resume i LkPtable tk (on c [LkPtable] k) = Ok tt s2 → wait_turn i s2 = Sleep pt k' →
    good n k' (InSched c) (set_pc i (TAt pt) t)).
  { intros ch tk s2 Ex Hs Hw. destruct (Hfr ch tk Ex) as (ti & Hti & Hf).
    pose proof (good_sleep_resume _ _ _ _ _ _ _ _ G Hc Hs) as [G2 Hsame].
    apply sleep_resume_ok in Hs as (_ & f & _ & _ & Hs); [|done]. rewrite (Hs eq_refl) in *.
    rewrite <-(set_pc_twice i (TAt pt) TRun).
    eapply (good_wait_off _ _ _ _ c i (ti <| pc := TRun |>)); [exact G2|done..| |done|exact Hw].
    unfold set_pc. by rewrite list_lookup_alter_eq, Hti. }
  destruct Hcont as [| |ch lk tk Hlk|ch tk|ch tk].
  - by rewrite release_ptable in Hm.
  - unfold yield_resume in Hm. by rewrite release_ptable in Hm.
  - by apply no_sleep in Hm; [|exact _].
  - unfold wait_resume in Hm. rewrite bind_assoc in Hm. unfold bind in Hm.
    destruct (sleep_resume _ _ _ _) as [[] s2| |] eqn:Hs; [|done|].
    + destruct (wait_turn i s2) eqn:Hw; simplify_eq. by eapply Hwait.
    + by apply no_sleep in Hs; [|exact _].
  - unfold waitx_resume in Hm. rewrite bind_assoc in Hm. unfold bind in Hm.
    destruct (sleep_resume _ _ _ _) as [[] s2| |] eqn:Hs; [|done|].
    + destruct (waitx_turn i s2) eqn:Hw; simplify_eq. apply waitx_turn_sleep in Hw. by eapply Hwait.
    + by apply no_sleep in Hs; [|exact _].
Qed.

(** A move of [fork] of process [j] with the slot [i]. *)
Lemma good_fork_move n n' k k' t c i j p f x ti :
  good n k Free t → cpu_of k !! c = Some (Some j) → t !! j = Some ti → pc ti = TRun →
  tab_of k !! i = Some p →
  (state p = UNUSED ∧ frk ti = None) ∨ (∃ st, frk ti = Some (i, st)) →
  cpu_of k' = cpu_of k → initproc (kproc k') = initproc (kproc k) →
  n ≤ n' → pid_count n' (nextpid (kproc k')) → tab_of k' = alter f i (tab_of k) →
  fork_moved i j (f p) x → (state (f p) = UNUSED ∨ state (f p) = EMBRYO) →
  (2 + n' ≤ 2 ^ 31 → state (f p) ≠ UNUSED → 0 < pid (f p) < 2 + n' ∧
     ∀ m y, m ≠ i → tab_of k !! m = Some y → state y ≠ UNUSED → pid y ≠ pid (f p)) →
  good n' k' Free (set_frk j ((λ st, (i, st)) <$> x) t).
Proof.
  intros G Hc Hti Hpc Hi Hown Ecpu Eini Hle Hcount Htab Hmv Hst Hpid.
  pose proof G as (ini & Hini & Hn & Hlen & F & R).
  destruct (run_running _ _ _ _ _ R Hc) as (q & Hq & Hrun).
  exists ini. rewrite Ecpu, Eini, Htab. split_and!; [done|done|by rewrite length_alter| |].
  - eapply (fam_fork_move _ _ _ (2 + n) i j p q ti); try done. lia.
  - apply run_frk; [|by rewrite Hti, <-Hpc]. eapply run_softr; [|done].
    apply Forall2_alter; [apply softr_refl|]. intros p' Hp'.
    assert (p' = p) as -> by congruence. left.
    split; [|destruct Hst as [->| ->]; set_solver].
    destruct (fork_slot_state _ _ _ _ i j p ti F Hi Hti Hown) as [->| ->]; set_solver.
Qed.

Lemma pid_count_next n np : pid_count n np → pid_count (n + 1) (s32 (np + 1)).
Proof. intros [Hn ->]. split; [lia|]. unfold s32. Z.div_mod_to_equations. lia. Qed.

Lemma good_slot n k t c j np k' :
  good n k Free t → cpu_of k !! c = Some (Some j) → t !! j = Some (mkthr TRun None) →
  allocproc_slot (on c [] k) = Ok (Some np) k' →
  good (n + 1) k' Free (set_frk j (Some (np, FSlot)) t).
Proof.
  intros G Hc Hti H. pose proof G as (ini & Hini & Hn & Hlen & F & R).
  rewrite allocproc_slot_eq in H by done. destruct (find_index _ _) as [i|] eqn:E; [|done].
  injection H as -> <-. apply find_index_Some in E as (p & Hi & Hu & _).
  apply bool_decide_eq_true in Hu. change (tab_of k !! np = Some p) in Hi.
  eapply (good_fork_move n _ k _ _ c np j p (embryo (nextpid (kproc k)) (ticks (kproc k))) (Some FSlot));
    try done; simpl.
  - by left.
  - lia.
  - by apply pid_count_next.
  - split_and!; try done. by eapply (fam_unused _ _ _ _ F).
  - by right.
  - intros Hb _. destruct Hn as [Hn0 ->]. rewrite s32_small by (unfold is_s32; lia).
    split; [lia|]. intros m y _ Hy Hyu. pose proof (fam_pid _ _ _ _ F _ _ ltac:(lia) Hy Hyu). lia.
Qed.

(** The moves that keep the pid of the slot [i] of a [fork]. *)
Lemma good_fork_keep n k k' t c i j p f st x :
  good n k Free t → cpu_of k !! c = Some (Some j) →
  t !! j = Some (mkthr TRun (Some (i, st))) → tab_of k !! i = Some p →
  same_but_table k k' → tab_of k' = alter f i (tab_of k) → pid (f p) = pid p →
  fork_moved i j (f p) x → (state (f p) = UNUSED ∨ state (f p) = EMBRYO) →
  good n k' Free (set_frk j ((λ st, (i, st)) <$> x) t).
Proof.
  intros G Hc Hti Hi (Ecpu & Eini & Enp) Htab Hpid Hmv Hst.
  pose proof G as (ini & Hini & Hn & Hlen & F & R).
  eapply (good_fork_move n n k _ _ c i j p f x); try done; [by right; exists st|by rewrite Enp|].
  intros Hb _. rewrite Hpid.
  destruct (fam_fork _ _ _ _ F _ _ i st Hti eq_refl) as [(e & He & Hse) _]. simplify_eq.
  split; [by apply (fam_pid _ _ _ _ F i); [..|congruence]|].
  intros m y Hni Hy Hyu Heq. apply Hni. by eapply (fam_pid_inj _ _ _ _ F m i y p); [..|congruence|].
Qed.

(** The slot a [fork] works on. *)
Lemma good_fork_slot n k t j i st :
  good n k Free t → t !! j = Some (mkthr TRun (Some (i, st))) →
  ∃ p, tab_of k !! i = Some p ∧ state p = EMBRYO ∧
       parent p = (if decide (st = FFilled) then Some j else None) ∧
       (st ≠ FSlot → kstack p ≠ 0) ∧ (st = FFilled → pgdir p ≠ 0).
Proof.
  intros (ini & Hini & Hn & Hlen & F & R) Hti.
  destruct (fam_fork _ _ _ _ F _ _ i st Hti eq_refl) as [(p & Hi & He) _]. exists p.
  split; [done|]. split; [done|].
  destruct (fam_embryo _ _ _ _ F _ _ Hi He) as (q & t' & st' & Hq & Hf & Hrest).
  assert (q = j) as -> by (by eapply (fam_fork_inj _ _ _ _ F)). rewrite Hti in Hq. injection Hq as <-. by injection Hf as <-.
Qed.

Lemma good_stack n k t c j i r k' :
  good n k Free t → cpu_of k !! c = Some (Some j) →
  t !! j = Some (mkthr TRun (Some (i, FSlot))) → allocproc_stack i (on c [] k) = Ok r k' →
  good n k' Free (set_frk j (if r is Some _ then Some (i, FStack) else None) t).
Proof.
  intros G Hc Hti H. destruct (good_fork_slot _ _ _ _ _ _ G Hti) as (p & Hi & He & Hpar & _).
  unfold allocproc_stack in H.
  apply bind_inv_ok in H as (ks & s1 & (fr & b & ->)%kmem_frame_inv & H); [|exact _].
  rewrite (bind_ok (updp _ _) _ _ _ _ eq_refl) in H. destruct (ks =? 0) eqn:Hks.
  - rewrite (bind_ok (updp _ _) _ _ _ _ eq_refl) in H. injection H as <- <-.
    eapply (good_fork_keep _ k _ _ c i j p
              (λ q, q <| kstack := ks |> <| state := UNUSED |>) FSlot None); try done.
    + unfold tab_of. simpl. by rewrite list_alter_alter_eq.
    + by left.
    + by left.
  - unfold wr32, updp in H. munfold. injection H as <- <-.
    eapply (good_fork_keep _ k _ _ c i j p
              (λ q, q <| kstack := ks |> <| ctx := ctx0 <| cx_eip := sym_forkret (kvm k) |> |>)
              FSlot (Some FStack)); try done.
    + unfold tab_of. simpl. by rewrite list_alter_alter_eq.
    + split_and!; simpl; try done. intros _. lia.
    + by right.
Qed.

Lemma good_abort n k t c j i k' :
  good n k Free t → cpu_of k !! c = Some (Some j) →
  t !! j = Some (mkthr TRun (Some (i, FStack))) → fork_abort i (on c [] k) = Ok tt k' →
  good n k' Free (set_frk j None t).
Proof.
  intros G Hc Hti H. destruct (good_fork_slot _ _ _ _ _ _ G Hti) as (p & Hi & He & Hpar & _).
  unfold fork_abort, getp in H. rewrite (bind_ok (gets _) _ _ _ _ eq_refl) in H.
  apply bind_inv_ok in H as ([] & s1 & (fr & b & ->)%kmem_frame_inv & H); [|exact _].
  rewrite (bind_ok (updp _ _) _ _ _ _ eq_refl) in H. injection H as <-.
  eapply (good_fork_keep _ k _ _ c i j p
            (λ q, q <| kstack := 0 |> <| state := UNUSED |>) FStack None); try done.
  - unfold tab_of. simpl. by rewrite list_alter_alter_eq.
  - by left.
  - by left.
Qed.

Lemma good_fill n k t c j i pj d :
  good n k Free t → cpu_of k !! c = Some (Some j) →
  t !! j = Some (mkthr TRun (Some (i, FStack))) → tab_of k !! j = Some pj → d ≠ 0 →
  good n (with_table (alter (fork_image j pj d) i) k) Free (set_frk j (Some (i, FFilled)) t).
Proof.
  intros G Hc Hti Hj Hd.
  destruct (good_fork_slot _ _ _ _ _ _ G Hti) as (p & Hi & He & Hpar & Hk & _).
  eapply (good_fork_keep _ k _ _ c i j p (fork_image j pj d) FStack (Some FFilled)); try done.
  - split_and!; try done. intros _. by apply Hk.
  - by right.
Qed.

Lemma good_publish n k t c j i k' :
  good n k Free t → cpu_of k !! c = Some (Some j) →
  t !! j = Some (mkthr TRun (Some (i, FFilled))) → publish i (on c [] k) = Ok tt k' →
  good n k' Free (set_pc i TNew (set_frk j None t)).
Proof.
  intros G Hc Hti H.
  destruct (good_fork_slot _ _ _ _ _ _ G Hti) as (p & Hi & He & Hpar & Hk & Hd).
  pose proof G as (ini & Hini & Hn & Hlen & F & R).
  destruct (run_running _ _ _ _ _ R Hc) as (q & Hq & Hrun).
  rewrite publish_eq in H by done. injection H as <-. exists ini.
  split_and!; [done|done|by unfold tab_of; simpl; rewrite length_alter| |].
  - apply fam_pc.
    eapply (fam_fork_move _ _ _ (2 + n) i j p q _ _ None); try done.
    + right. by exists FFilled.
    + by right.
    + intros Hb _. split; [by apply (fam_pid _ _ _ _ F i p Hb Hi); rewrite He|].
      intros m y Hni Hy Hyu Heq. apply Hni.
      by eapply (fam_pid_inj _ _ _ _ F m i y p); [..|congruence|].
  - eapply run_publish; [|done|done|by apply Hk|by apply Hd].
    apply run_frk; [done|]. by rewrite Hti.
Qed.

(** ** Reachable states *)

Definition inv (σ : sys) : Prop := good (born σ) (sk σ) (ph σ) (th σ).

Lemma good_back n k t c i pol r k' :
  good n k (InSched c) t → cpu_of k !! c = Some (Some i) →
  scheduler_back i pol (on c [LkPtable] k) = Ok r k' →
  match r.1 with None => good n k' Free t | Some _ => good n k' (InProc c) t end.
Proof.
  intros (ini & Hini & Hn & Hlen & F & R) Hc H.
  pose proof (run_dispatchable _ _ _ _ R) as Hd.
  pose proof (scheduler_back_ok (on c [LkPtable] k) i pol [] eq_refl
                ltac:(apply not_elem_of_nil) Hd) as Hb. cbv zeta in Hb.
  rewrite H in Hb. destruct r as [[j|] pol']; simpl.
  - destruct Hb as (_ & _ & _ & _ & p & Hj & Hst & ->).
    assert (Hlt : (c < length (cpu_of k))%nat) by (by eapply lookup_lt_Some).
    eapply (good_dispatched _ (k <| kcpu ::= λ x, x <| cpu_proc ::= <[c := None]> |> |>));
      try done.
    + exists ini. split_and!; try done. by apply run_back.
    + unfold cpu_of. simpl. by rewrite list_lookup_insert_eq.
  - destruct Hb as (-> & _). exists ini. split_and!; try done. by apply (run_back _ (cpu_of k)).
Qed.

Lemma sys_step_inv σ σ' : inv σ → sys_step σ σ' → inv σ'.
Proof.
  unfold inv. intros G Hstep.
  destruct Hstep; simpl in *;
    try solve [by eapply good_section | by eapply good_section_off | by eapply good_continuation
              | by eapply good_continuation_off | by eapply good_slot | by eapply good_stack
              | by eapply good_abort | by eapply good_fill | by eapply good_publish ].
  - pose proof G as (ini & _ & _ & _ & _ & R). apply run_dispatchable in R.
    pose proof (scheduler_start_ok (on c [] k) ltac:(apply not_elem_of_nil) R) as Hs.
    cbv zeta in Hs. rewrite H0 in Hs. destruct Hs as [-> _]. by eapply good_same.
  - pose proof G as (ini & _ & _ & _ & _ & R). apply run_dispatchable in R.
    pose proof (scheduler_start_ok (on c [] k) ltac:(apply not_elem_of_nil) R) as Hs.
    cbv zeta in Hs. rewrite H0 in Hs. destruct Hs as (_ & _ & p & kc & Hp & Hst & ->).
    by eapply (good_dispatched _ k).
  - exact (good_back _ _ _ _ _ _ _ _ G H H1).
  - exact (good_back _ _ _ _ _ _ _ _ G H H1).
  - rewrite wakeup_eq in H0 by done. injection H0 as <-. by apply (good_woken _ k).
  - eapply good_same; [done|by split_and!|done].
Qed.

(** The state [userinit] leaves: one process, ready for its first switch, in
    slot 0; every processor in its scheduler. *)
Definition booted (σ : sys) : Prop :=
  ph σ = Free ∧ th σ = replicate NPROC (mkthr TNew None) ∧
  Forall (λ x, x = None) (cpu_of (sk σ)) ∧
  initproc (kproc (sk σ)) = Some 0%nat ∧ nextpid (kproc (sk σ)) = 2 ∧ born σ = 0 ∧
  ∃ p, tab_of (sk σ) = p :: replicate (NPROC - 1) proc0 ∧ state p = RUNNABLE ∧ pid p = 1 ∧
       parent p = None ∧ kstack p ≠ 0 ∧ pgdir p ≠ 0.

Lemma booted_slot p i q :
  (p :: replicate (NPROC - 1) proc0) !! i = Some q → (i = 0%nat ∧ q = p) ∨ q = proc0.
Proof.
  destruct i as [|i]; intros Hi; [left; by injection Hi|right].
  change (replicate (NPROC - 1) proc0 !! i = Some q) in Hi.
  by apply lookup_replicate in Hi as [-> _].
Qed.

Lemma booted_inv σ : booted σ → inv σ.
Proof.
  intros (Hph & Hth & Hcpu & Hini & Hnp & Hborn & p & Htab & Hst & Hpid & Hpar & Hk & Hd).
  assert (Hcn : ∀ c i, cpu_of (sk σ) !! c ≠ Some (Some i)).
  { intros c i Hc. rewrite Forall_lookup in Hcpu. by specialize (Hcpu c _ Hc). }
  assert (Hfrk : ∀ q t', th σ !! q = Some t' → t' = mkthr TNew None).
  { intros q t'. rewrite Hth. by intros [-> _]%lookup_replicate. }
  assert (Hsl : ∀ i q, tab_of (sk σ) !! i = Some q → (i = 0%nat ∧ q = p) ∨ q = proc0).
  { intros i q. rewrite Htab. apply booted_slot. }
  exists 0%nat. rewrite Hph, Hnp, Hborn. split_and!; [done|done|by rewrite Htab| |].
  - split.
    + intros i q Hi _. by destruct (Hsl i q Hi) as [[_ ->]| ->].
    + intros i q Hi He. destruct (Hsl i q Hi) as [[_ ->]| ->]; [congruence|done].
    + intros q t' i st Hq Hf. by rewrite (Hfrk q t' Hq) in Hf.
    + intros q q' t1 t2 i st st' Hq _ Hf. by rewrite (Hfrk q t1 Hq) in Hf.
    + intros i q r Hi Hr. destruct (Hsl i q Hi) as [[_ ->]| ->]; [congruence|done].
    + intros q pq i x Hq Hs _ Hi Hx. destruct (Hsl i x Hi) as [[_ ->]| ->]; [congruence|done].
    + intros i q _ Hi Hu. destruct (Hsl i q Hi) as [[_ ->]| ->]; [rewrite Hpid; lia|done].
    + intros i j q r _ Hi Hj Hu Hu' _. destruct (Hsl i q Hi) as [[-> _]| ->]; [|done].
      by destruct (Hsl j r Hj) as [[-> _]| ->].
    + exists p. rewrite Htab. split_and!; [done|by left|done].
    + intros i q Hi [Hu _] Hne. destruct (Hsl i q Hi) as [[-> _]| ->]; done.
  - split.
    + by rewrite Htab, Hth.
    + intros i q ti Hi Hti. rewrite (Hfrk i ti Hti).
      destruct (Hsl i q Hi) as [[_ ->]| ->]; [|done]. unfold slot_ok. by rewrite Hst.
    + intros c i Hc. by destruct (Hcn c i).
    + intros c c' i Hc. by destruct (Hcn c i).
    + intros i ti ch lk tk Hti Hpc. by rewrite (Hfrk i ti Hti) in Hpc.
Qed.

Lemma sys_reachable_inv σ0 σ : booted σ0 → star sys_step σ0 σ → inv σ.
Proof.
  intros Hb Hs. eapply (star_inv sys_step inv); [by apply booted_inv|apply sys_step_inv|done].
Qed.

(** The process a scheduler has switched to can continue. *)
Lemma run_continuation l cpu t c i :
  run l cpu (InProc c) t → cpu !! c = Some (Some i) →
  ∃ p x m, l !! i = Some p ∧ state p = RUNNING ∧ pc <$> t !! i = Some x ∧ continuation i x m.
Proof.
  intros R Hc. destruct (run_cpu _ _ _ _ R c i Hc) as (p & Hi & [[? _]|[_ Hst]]); [done|].
  destruct (lookup_lt_is_Some_2 t i) as [ti Hti].
  { rewrite <-(run_len _ _ _ _ R). by eapply lookup_lt_Some. }
  pose proof (run_slot _ _ _ _ R _ _ _ Hi Hti) as Hok. unfold slot_ok in Hok.
  rewrite Hst in Hok. destruct Hok as (_ & _ & c1 & Hc1 & Hpc).
  assert (c1 = c) as -> by (by eapply (run_cpu_inj _ _ _ _ R)).
  destruct Hpc as [[_ Hr]|[? _]]; [|done]. exists p, (pc ti).
  destruct (pc ti) as [| |[ch lk tk| |]] eqn:E; try done.
  - eexists. rewrite Hti. simpl. rewrite E. split_and!; [done..|constructor].
  - destruct (decide (lk = LkPtable)) as [->|]; eexists; rewrite Hti; simpl; rewrite E;
      (split_and!; [done..|by constructor]).
  - eexists. rewrite Hti. simpl. rewrite E. split_and!; [done..|constructor].
Qed.

(** ** Properties *)

(** [C17] A process never runs on two processors, and between the critical
    sections a process is RUNNING exactly when some processor runs it. *)
Theorem one_cpu_per_process σ0 σ :
  booted σ0 → star sys_step σ0 σ →
  (∀ c c' i, cpu_of (sk σ) !! c = Some (Some i) → cpu_of (sk σ) !! c' = Some (Some i) → c = c') ∧
  (ph σ = Free → ∀ i p, tab_of (sk σ) !! i = Some p →
     state p = RUNNING ↔ ∃ c, cpu_of (sk σ) !! c = Some (Some i)).
Proof.
  intros Hb Hs. destruct (sys_reachable_inv _ _ Hb Hs) as (ini & _ & _ & _ & _ & R).
  split; [apply (run_cpu_inj _ _ _ _ R)|]. intros Hf i p Hi. rewrite Hf in R. split.
  - intros Hst. destruct (lookup_lt_is_Some_2 (th σ) i) as [ti Hti].
    { rewrite <-(run_len _ _ _ _ R). by eapply lookup_lt_Some. }
    pose proof (run_slot _ _ _ _ R _ _ _ Hi Hti) as Hok. unfold slot_ok in Hok.
    rewrite Hst in Hok. destruct Hok as (_ & _ & c & Hc & _). by exists c.
  - intros (c & Hc). destruct (run_running _ _ _ _ _ R Hc) as (q & ? & ?). congruence.
Qed.

(** [C18] No exit is lost: a process asleep in [wait] or [waitx] has no child
    that has exited, whatever the interleaving of the processors; and the
    child's exit itself makes a sleeping parent RUNNABLE. *)
Theorem wait_misses_no_exit σ0 σ q pq i p :
  booted σ0 → star sys_step σ0 σ →
  tab_of (sk σ) !! q = Some pq → tab_of (sk σ) !! i = Some p → parent p = Some q →
  state p = ZOMBIE → ¬ (state pq = SLEEPING ∧ chan pq = Some (ChProc q)).
Proof.
  intros Hb Hs Hq Hi Hp Hz [Hsl Hch].
  destruct (sys_reachable_inv _ _ Hb Hs) as (ini & _ & _ & _ & F & _).
  by apply (fam_wait _ _ _ _ F q pq i p).
Qed.

(** The children that [exit] of process [cur] leaves. *)
Lemma exit_result_parents cur ini c now l j p :
  length l = NPROC → ini ≠ cur → l !! j = Some p →
  ∃ p', exit_result cur ini c now l !! j = Some p' ∧
        parent p' = if decide (parent p = Some cur) then Some ini else parent p.
Proof.
  intros Hlen Hne Hj. unfold exit_result. set (l2 := exit_loop _ _ _ _).
  destruct (lookup_lt_is_Some_2 l2 j) as [p2 Hp2].
  { unfold l2. rewrite exit_loop_length, length_fmap. by eapply lookup_lt_Some. }
  destruct (exit_result_back cur ini c l j p2 Hlen Hne Hp2) as (Hn & p0 & Hp0 & (P & _) & _).
  assert (p0 = p) as -> by congruence.
  assert (Hp : parent p2 = if decide (parent p = Some cur) then Some ini else parent p).
  { destruct (decide (parent p = Some cur)), P as [E|[E1 E2]]; congruence. }
  rewrite list_lookup_alter. destruct (decide (cur = j)) as [->|]; rewrite Hp2; (eexists; split; [done|exact Hp]).
Qed.

Lemma exit_parents n k t c i pt k' :
  good n k Free t → cpu_of k !! c = Some (Some i) →
  (cur ← exit_enter; exit_table cur) (on c [] k) = Sleep pt k' →
  initproc (kproc k) ≠ Some i ∧
  ∀ j p, tab_of k !! j = Some p →
    ∃ p', tab_of k' !! j = Some p' ∧
          parent p' = if decide (parent p = Some i) then initproc (kproc k) else parent p.
Proof.
  intros (ini & Hini & _ & Hlen & _ & R) Hc H. destruct (run_running _ _ _ _ _ R Hc) as (c0 & Hi & Hrun).
  rewrite (exit_enter_eq _ i) in H by done. case_bool_decide as Hne; [done|]. split; [done|].
  erewrite exit_table_eq in H by done. injection H as _ <-. intros j p Hj.
  destruct (exit_result_parents i ini c0 (ticks (kproc k)) (tab_of k) j p) as (p' & Hp' & E);
    [done|intros ->; by apply Hne|done|].
  exists p'. rewrite Hini. split; [|done]. rewrite <-Hp'. unfold exit_result. rewrite <-Hini. done.
Qed.

(** [C19] The process tree stays a tree of live processes: every process that
    [fork] has finished, but [initproc], has a parent; a parent is another
    process, which has not exited and is not being made; free slots have none.
    [exit] gives the children of the process that exits, and no others, to
    [initproc]; it panics for [initproc] itself, which stays alive and has no
    parent. *)
Theorem process_tree σ0 σ :
  booted σ0 → star sys_step σ0 σ →
  (∀ i p, tab_of (sk σ) !! i = Some p → made (state p) → initproc (kproc (sk σ)) ≠ Some i →
     is_Some (parent p)) ∧
  (∀ i p q, tab_of (sk σ) !! i = Some p → parent p = Some q →
     state p ≠ UNUSED ∧ q ≠ i ∧ ∃ pq, tab_of (sk σ) !! q = Some pq ∧ alive (state pq)) ∧
  (∀ c i pt k', ph σ = Free → cpu_of (sk σ) !! c = Some (Some i) →
     (cur ← exit_enter; exit_table cur) (on c [] (sk σ)) = Sleep pt k' →
     initproc (kproc (sk σ)) ≠ Some i ∧
     ∀ j p, tab_of (sk σ) !! j = Some p →
       ∃ p', tab_of k' !! j = Some p' ∧
             parent p' = if decide (parent p = Some i) then initproc (kproc (sk σ)) else parent p) ∧
  (∃ ini p, initproc (kproc (sk σ)) = Some ini ∧ tab_of (sk σ) !! ini = Some p ∧
     alive (state p) ∧ parent p = None).
Proof.
  intros Hb Hs. pose proof (sys_reachable_inv _ _ Hb Hs) as G. pose proof G as (ini & Hini & _ & _ & F & _). split_and!.
  - intros i p Hi Hm Hne. apply (fam_child _ _ _ _ F i p Hi Hm). congruence.
  - intros i p q Hi Hq. destruct (fam_parent _ _ _ _ F i p q Hi Hq) as (pq & ? & ? & ?).
    split_and!; [|done|by exists pq]. intros Hu. by rewrite (fam_unused _ _ _ _ F i p Hi Hu) in Hq.
  - intros c i pt k' Hf Hc H. unfold inv in G. rewrite Hf in G. by eapply exit_parents.
  - destruct (fam_init _ _ _ _ F) as (p & ? & ? & ?). by exists ini, p.
Qed.

(** [C20] Pids name processes as long as [nextpid] has not wrapped around: if
    [allocproc] has named at most 2^31 - 2 processes since boot, the processes in
    the table have different positive pids.  [nextpid] itself is an int that
    wraps: nothing in the code keeps it from handing out a negative pid, or one
    that is in use, after that. *)
Theorem pids_unique σ0 σ i j p q :
  booted σ0 → star sys_step σ0 σ →
  tab_of (sk σ) !! i = Some p → tab_of (sk σ) !! j = Some q →
  state p ≠ UNUSED → state q ≠ UNUSED →
  nextpid (kproc (sk σ)) = s32 (2 + born σ) ∧
  (born σ ≤ 2 ^ 31 - 2 → 0 < pid p < 2 + born σ ∧ (pid p = pid q → i = j)).
Proof.
  intros Hb Hs Hi Hj Hp Hq. destruct (sys_reachable_inv _ _ Hb Hs) as (ini & _ & [_ Hn] & _ & F & _).
  split; [done|]. intros Hle. assert (Hb31 : 2 + born σ ≤ 2 ^ 31) by lia.
  split; [by eapply (fam_pid _ _ _ _ F)|by apply (fam_pid_inj _ _ _ _ F)].
Qed.

(** [C21] Whoever has [ptable.lock] across a switch gets on with it.  A scheduler
    that takes the lock, or gets it back from a process, does not panic and ends
    its turn or reaches the next switch, and the process it switches to is inside
    [yield] or [sleep] or new, never one that has exited.  On the way it asks for
    no other lock, since it may hold any others already, but for [cons.lock] when
    BJF has a process with a tenth pid to print: there it also needs a sane
    screen, and it waits for whoever has [cons.lock]. *)
Theorem lock_holder_progress σ0 σ c :
  booted σ0 → star sys_step σ0 σ →
  match ph σ with
  | Free => ∀ ls, cpu_of (sk σ) !! c = Some None → LkPtable ∉ ls →
            may_print (current_scheduler (kproc (sk σ))) (on c ls (sk σ)) →
            ∃ r k', scheduler_start (on c ls (sk σ)) = Ok r k'
  | InSched c' => ∀ ls i pol, cpu_of (sk σ) !! c' = Some (Some i) → LkPtable ∉ ls →
            ∃ r k', scheduler_back i pol (on c' (LkPtable :: ls) (sk σ)) = Ok r k'
  | InProc c' => ∀ i, cpu_of (sk σ) !! c' = Some (Some i) →
            ∃ p x m, tab_of (sk σ) !! i = Some p ∧ state p = RUNNING ∧
                     pc <$> th σ !! i = Some x ∧ continuation i x m
  end.
Proof.
  intros Hb Hs. destruct (sys_reachable_inv _ _ Hb Hs) as (ini & _ & _ & _ & _ & R).
  pose proof (run_dispatchable _ _ _ _ R) as Hd. destruct (ph σ) as [|c'|c'] eqn:Hph.
  - intros ls Hc Hls Hpr. pose proof (scheduler_start_ok (on c ls (sk σ)) Hls Hd) as H.
    cbv zeta in H. destruct (scheduler_start _) as [r k'| |]; [by exists r, k'|by destruct H|done].
  - intros i Hc. exact (run_continuation _ _ _ _ _ R Hc).
  - intros ls i pol Hc Hls.
    pose proof (scheduler_back_ok (on c' (LkPtable :: ls) (sk σ)) i pol ls eq_refl Hls Hd) as H.
    cbv zeta in H. destruct (scheduler_back _ _ _) as [r k'| |]; [by exists r, k'|done..].
Qed.

(** ** Witnesses *)

Definition init_slot : proc :=
  proc0 <| state := RUNNABLE |> <| pid := 1 |> <| kstack := KERNLINK + 16 * PGSIZE |>
        <| pgdir := KERNLINK + 17 * PGSIZE |>.

Definition boot_kernel : kernel :=
  kernel0 <| kproc ::= λ k, k <| ptable := init_slot :: replicate (NPROC - 1) proc0 |>
                              <| initproc := Some 0%nat |> <| nextpid := 2 |> |>
          <| kmem ::= λ k, k <| use_lock := true |> <| freelist := KERNLINK + 18 * PGSIZE |> |>.

Definition boot_sys : sys := mksys boot_kernel Free (replicate NPROC (mkthr TNew None)) [0; 0] 0.

Lemma boot_sys_booted : booted boot_sys.
Proof.
  split_and!; try done; [by repeat constructor|]. by exists init_slot.
Qed.

(** The first process starts on processor 1, forks, and its child runs on
    processor 0 and exits. *)
Definition k1 : kernel := after scheduler_start (on 1 [] boot_kernel).
Definition k2 : kernel := after (release LkPtable) (on 1 [LkPtable] k1).
Definition k3 : kernel := after allocproc_slot (on 1 [] k2).
Definition k4 : kernel := after (allocproc_stack 1) (on 1 [] k3).
Definition k5 : kernel :=
  with_table (alter (fork_image 0 (default proc0 (tab_of k4 !! 0%nat)) PGSIZE) 1%nat) k4.
Definition k6 : kernel := after (publish 1) (on 1 [] k5).
Definition k7 : kernel := after scheduler_start (on 0 [] k6).
Definition k8 : kernel := after (release LkPtable) (on 0 [LkPtable] k7).
Definition k9 : kernel := after (cur ← exit_enter; exit_table cur) (on 0 [] k8).

Definition t0 : list thr := replicate NPROC (mkthr TNew None).
Definition t2 : list thr := set_pc 0 TRun t0.
Definition t3 : list thr := set_frk 0 (Some (1%nat, FSlot)) t2.
Definition t4 : list thr := set_frk 0 (Some (1%nat, FStack)) t3.
Definition t5 : list thr := set_frk 0 (Some (1%nat, FFilled)) t4.
Definition t6 : list thr := set_pc 1 TNew (set_frk 0 None t5).
Definition t8 : list thr := set_pc 1 TRun t6.
Definition t9 : list thr := set_pc 1 (TAt AtExit) t8.

Definition forked_sys : sys := mksys k6 Free t6 [0; 0] 1.
Definition zombie_sys : sys := mksys k9 (InSched 0) t9 [0; 0] 1.

Lemma forked_reachable : star sys_step boot_sys forked_sys.
Proof.
  apply star_snoc with (mksys k5 Free t5 [0; 0] 1).
  2: { refine (st_publish 1 1 k5 t5 _ 0 1 k6 _ _ _); evaluate. }
  apply star_snoc with (mksys k4 Free t4 [0; 0] 1).
  2: { refine (st_fill 1 1 k4 t4 _ 0 1 (default proc0 (tab_of k4 !! 0%nat)) PGSIZE _ _ _ _);
       [evaluate..|done]. }
  apply star_snoc with (mksys k3 Free t3 [0; 0] 1).
  2: { refine (st_stack 1 1 k3 t3 _ 0 1 (Some 1%nat) k4 _ _ _); evaluate. }
  apply star_snoc with (mksys k2 Free t2 [0; 0] 0).
  2: { refine (st_slot 1 0 k2 t2 _ 0 1 k3 _ _ _); evaluate. }
  apply star_snoc with (mksys k1 (InProc 1) t0 [0; 0] 0).
  2: { refine (st_resume 1 0 k1 t0 _ 0 TNew _ k2 _ _ (cont_new 0) _); evaluate. }
  apply star_snoc with boot_sys; [apply star_refl|].
  refine (st_pick 1 0 boot_kernel t0 [0; 0] 0 0 k1 _ _); evaluate.
Qed.

Lemma zombie_reachable : star sys_step boot_sys zombie_sys.
Proof.
  apply star_snoc with (mksys k8 Free t8 [0; 0] 1).
  2: { refine (st_section_off 0 1 k8 t8 _ 1 false [] (cur ← exit_enter; exit_table cur) (mkthr TRun None) AtExit k9
                 _ _ _ _ _ _); [evaluate..|done|apply sec_exit|evaluate]. }
  apply star_snoc with (mksys k7 (InProc 0) t6 [0; 0] 1).
  2: { refine (st_resume 0 1 k7 t6 _ 1 TNew _ k8 _ _ (cont_new 1) _); evaluate. }
  apply star_snoc with forked_sys; [apply forked_reachable|].
  refine (st_pick 0 1 k6 t6 [0; 0] 1 0 k7 _ _); evaluate.
Qed.

Lemma one_cpu_per_process_witness :
  ∃ p, tab_of (sk forked_sys) !! 0%nat = Some p ∧ state p = RUNNING ∧
       (state p = RUNNING ↔ ∃ c, cpu_of (sk forked_sys) !! c = Some (Some 0%nat)).
Proof.
  destruct (one_cpu_per_process boot_sys forked_sys boot_sys_booted forked_reachable) as [_ H].
  exists (default proc0 (tab_of (sk forked_sys) !! 0%nat)).
  split; [vm_compute; reflexivity|]. split; [vm_compute; reflexivity|].
  apply (H eq_refl). vm_compute. reflexivity.
Defined.

Lemma wait_misses_no_exit_witness :
  ∃ p q, tab_of (sk zombie_sys) !! 1%nat = Some p ∧ state p = ZOMBIE ∧ tab_of (sk zombie_sys) !! 0%nat = Some q ∧
         ¬ (state q = SLEEPING ∧ chan q = Some (ChProc 0)).
Proof.
  exists (default proc0 (tab_of (sk zombie_sys) !! 1%nat)), (default proc0 (tab_of (sk zombie_sys) !! 0%nat)).
  split; [vm_compute; reflexivity|]. split; [vm_compute; reflexivity|].
  split; [vm_compute; reflexivity|].
  apply (wait_misses_no_exit boot_sys zombie_sys 0 _ 1 (default proc0 (tab_of (sk zombie_sys) !! 1%nat))
           boot_sys_booted zombie_reachable); vm_compute; reflexivity.
Defined.

Lemma process_tree_witness :
  ∃ p q, tab_of (sk zombie_sys) !! 1%nat = Some p ∧ parent p = Some 0%nat ∧
         tab_of (sk zombie_sys) !! 0%nat = Some q ∧ alive (state q).
Proof.
  destruct (process_tree boot_sys zombie_sys boot_sys_booted zombie_reachable) as (_ & H & _).
  destruct (H 1%nat (default proc0 (tab_of (sk zombie_sys) !! 1%nat)) 0%nat) as (_ & _ & q & Hq & Ha);
    [vm_compute; reflexivity..|].
  exists (default proc0 (tab_of (sk zombie_sys) !! 1%nat)), q. split; [vm_compute; reflexivity|].
  split; [vm_compute; reflexivity|]. split; [exact Hq|exact Ha].
Defined.

Lemma pids_unique_witness :
  ∃ p q, tab_of (sk zombie_sys) !! 0%nat = Some p ∧ tab_of (sk zombie_sys) !! 1%nat = Some q ∧ pid p ≠ pid q ∧
         0 < pid p < 2 + born zombie_sys.
Proof.
  exists (default proc0 (tab_of (sk zombie_sys) !! 0%nat)), (default proc0 (tab_of (sk zombie_sys) !! 1%nat)).
  destruct (pids_unique boot_sys zombie_sys 0 1 (default proc0 (tab_of (sk zombie_sys) !! 0%nat))
             (default proc0 (tab_of (sk zombie_sys) !! 1%nat)) boot_sys_booted zombie_reachable)
    as [_ H]; [vm_compute; congruence..|]. destruct H as [H1 H2]; [discriminate|].
  split; [vm_compute; reflexivity|]. split; [vm_compute; reflexivity|].
  split; [|exact H1]. intros E. discriminate (H2 E).
Defined.

Lemma lock_holder_progress_witness :
  ∃ r k', scheduler_back 1 SCHED_RR (on 0 [LkPtable] (sk zombie_sys)) = Ok r k'.
Proof.
  apply (lock_holder_progress boot_sys zombie_sys 0 boot_sys_booted zombie_reachable).
  - vm_compute. reflexivity.
  - apply not_elem_of_nil.
Defined.
