(* ===== verification/Waiting.v ===== *)
(** * Code that waits for a condition

    The kernel waits for a condition with a loop around [sleep]: with the lock
    of the condition held it tests, sleeps if it has to, and tests again.  What
    runs without giving up the processor is a section: it begins with the call,
    or with the return from the [sleep], and ends with the [release] of the
    lock or in the next [sleep].  This file has what the systems of such
    sections (pipes, sleep locks, the log) share. *)

From S2P Require Import Prelude Kernel Sched Proc.

(** How a section under the lock [lk] begins. *)
Inductive entry (lk : lockid) (i : nat) : list lockid → KM unit → Prop :=
| en_call : entry lk i [] (acquire lk)
| en_woken tk : entry lk i [LkPtable] (sleep_resume i lk tk).

(** Processor [c] runs process [i]. *)
Definition runs_on (c i : nat) (k : kernel) : Prop :=
  cpu_proc (kcpu k) !! c = Some (Some i) ∧
  ∃ pr, ptable (kproc k) !! i = Some pr ∧ state pr = RUNNING.

(** Process [j] sleeps on [ch]. *)
Definition sleeps (k : kernel) (j : nat) (ch : wchan) : Prop :=
  ∃ pr, ptable (kproc k) !! j = Some pr ∧ state pr = SLEEPING ∧ chan pr = Some ch.

(** The state a section starts in: [k], with the lock held, and a table in
    which nobody has fallen asleep and the pids are the same. *)
Definition entered (lk : lockid) (i : nat) (k s : kernel) : Prop :=
  (∃ c f, s = on c [lk] (with_table f k)) ∧ runs s i ∧
  pid <$> ptable (kproc s) = pid <$> ptable (kproc k) ∧
  is_Some (ptable (kproc s) !! i) ∧
  ∀ j ch, sleeps s j ch → sleeps k j ch.

Lemma entry_ok lk i ls e c k s :
  lk ≠ LkPtable → runs_on c i k → entry lk i ls e → e (on c ls k) = Ok tt s → entered lk i k s.
Proof.
  intros Hlk (Hc & pr & Hi & Hst) He H. destruct He as [|tk].
  - rewrite acquire_ok in H by apply not_elem_of_nil. injection H as <-.
    split_and!; [|done..|by eexists|done]. exists c, id. by destruct k as [? ? []].
  - unfold sleep_resume, get_ticks in H. rewrite (bind_ok (gets _) _ _ _ _ eq_refl) in H.
    rewrite !(bind_ok (updp _ _) _ _ _ _ eq_refl) in H. rewrite bool_decide_false in H by done.
    erewrite (bind_ok (release _)) in H by (by apply release_ptable).
    rewrite acquire_ok in H by apply not_elem_of_nil. injection H as <-.
    split_and!; try done.
    + by eexists c, (λ _, _).
    + simpl. by rewrite !fmap_alter_same.
    + simpl. rewrite !list_lookup_alter_eq, Hi. by eexists.
    + intros j ch (q & Hq & Hs & Hch). simpl in Hq.
      apply lookup_alter_Some in Hq as (q1 & Hq1 & ->).
      apply lookup_alter_Some in Hq1 as (q2 & Hq2 & ->). case_decide; subst.
      * simpl in Hch. done.
      * by exists q2.
Qed.

Lemma entry_no_sleep lk i ls e : entry lk i ls e → NoSleep e.
Proof. intros []; exact _. Qed.

(** [e ;; m] where [e] is an entry: [m] runs in the state it enters. *)
Lemma entry_then {A} lk i ls e (m : KM A) c k (r : res kernel swpoint A) :
  lk ≠ LkPtable → runs_on c i k → entry lk i ls e → (e ;; m) (on c ls k) = r →
  (∃ s, entered lk i k s ∧ m s = r) ∨ ∃ msg, r = Panic msg.
Proof.
  intros Hlk Hr He <-. unfold bind. destruct (e (on c ls k)) as [[] s|msg|pt s'] eqn:E.
  - left. exists s. split; [by eapply entry_ok|done].
  - by right; exists msg.
  - pose proof (entry_no_sleep _ _ _ _ He). by apply no_sleep in E.
Qed.

(** The same, when the section does not panic. *)
Lemma entry_ok_then {A} lk i ls e (m : KM A) c k a k' :
  lk ≠ LkPtable → runs_on c i k → entry lk i ls e → (e ;; m) (on c ls k) = Ok a k' →
  ∃ s, entered lk i k s ∧ m s = Ok a k'.
Proof. intros Hlk Hr He H. destruct (entry_then _ _ _ _ _ _ _ _ Hlk Hr He H) as [?|[? ?]]; done. Qed.

Lemma entry_sleep_then {A} lk i ls e (m : KM A) c k pt k' :
  lk ≠ LkPtable → runs_on c i k → entry lk i ls e → (e ;; m) (on c ls k) = Sleep pt k' →
  ∃ s, entered lk i k s ∧ m s = Sleep pt k'.
Proof. intros Hlk Hr He H. destruct (entry_then _ _ _ _ _ _ _ _ Hlk Hr He H) as [?|[? ?]]; done. Qed.

(** ** Who sleeps after a wake-up and after a [sleep] *)

(** The process table after a wake-up. *)
Definition woken (ch : wchan) (l : list proc) : list proc := wake (Some ch) <$> l.

Lemma sleeps_woken k k' j ch ch' :
  ptable (kproc k') = woken ch (ptable (kproc k)) → sleeps k' j ch' → sleeps k j ch' ∧ ch' ≠ ch.
Proof.
  intros Ht (pr & Hj & Hs & Hc). rewrite Ht in Hj. unfold woken in Hj.
  rewrite list_lookup_fmap, fmap_Some in Hj. destruct Hj as (q & Hq & ->). unfold wake in *.
  do 2 case_bool_decide; simpl in *; simplify_eq; (split; [by exists q|]); congruence.
Qed.

Lemma sleeps_alter k k' i j ch ch' :
  ptable (kproc k') = alter (put_to_sleep ch) i (ptable (kproc k)) → sleeps k' j ch' →
  sleeps k j ch' ∨ (j = i ∧ ch' = ch).
Proof.
  intros Ht (pr & Hj & Hs & Hc). rewrite Ht in Hj. apply lookup_alter_Some in Hj as (q & Hq & ->).
  case_decide; subst; simplify_eq/=; [by right|]. left. by exists q.
Qed.
