(* ===== verification/Console.v ===== *)
(** * The console: the input half of console.c, procdump of proc.c

    The input line that the interrupt handler edits.  [consoleread] and
    [consolewrite], which are device functions of the file system, are in
    Consdev.v. *)

From Stdlib Require Import Ascii String.
From S2P Require Import Prelude Kernel Cstring Kalloc Vm Screen Sched Proc Waiting.
Open Scope Z_scope.

(** *** procdump *)

(** [getcallerpcs]: the return addresses on the stack whose frame pointer chain
    starts at [v - 2]. *)
Fixpoint callerpcs_loop (i : nat) (ebp : Z) (m : memory) : list Z :=
  match i with
  | O => []
  | S i' =>
      if (ebp =? 0) || (ebp <? KERNBASE) || (ebp =? 0xffffffff) then replicate i 0
      else load32 (ebp + 4) m :: callerpcs_loop i' (load32 ebp m) m
  end.
Definition getcallerpcs (v : Z) : KM (list Z) :=
  gets (λ s, callerpcs_loop 10 (u32 (v - 8)) (bytes (kmem s))).

Definition procdump_state (st : procstate) : string :=
  match st with
  | UNUSED => "unused" | EMBRYO => "embryo" | SLEEPING => "sleep " | RUNNABLE => "runble"
  | RUNNING => "run   " | ZOMBIE => "zombie"
  end.

(** The addresses [procdump] prints: up to the first zero. *)
Definition procdump : KM unit :=
  for_each (seq 0 NPROC) (λ i,
    p ← getp i;
    if bool_decide (state p = UNUSED) then ret tt else
    cprintf "%d %s %s" [CInt (pid p); CStr (Some (str (procdump_state (state p))));
                        CStr (Some (cstring (name p)))] ;;
    (if bool_decide (state p = SLEEPING) then
       pc ← getcallerpcs (u32 (cx_ebp (ctx p) + 8));
       for_each (cstring pc) (λ a, cprintf " %p" [CInt a])
     else ret tt) ;;
    cprintf (String "010" EmptyString) []).

(** ** Input *)

Definition in_at (k : consst) (i : Z) : Z := nth (Z.to_nat (i mod INPUT_BUF)) (in_buf k) 0.

(** The loop of ^U. *)
Fixpoint kill_line (fuel : nat) : KM unit :=
  match fuel with
  | O => ret tt
  | S fuel' =>
      k ← getcons;
      if negb (in_e k =? in_w k) && negb (in_at k (u32 (in_e k - 1)) =? NL) then
        updcons (λ k, k <| in_e := u32 (in_e k - 1) |>) ;;
        consputc BACKSPACE ;;
        kill_line fuel'
      else ret tt
  end.

(** What [consoleintr] does with the character [c]; it tells whether it is ^P.
    The array has signed characters: what it keeps of [c] is its low byte, sign
    extended, here the byte itself. *)
Definition consoleintr_char (c : Z) : KM bool :=
  if c =? C "P" then ret true
  else if c =? C "U" then kill_line (Z.to_nat INPUT_BUF + 1) ;; ret false
  else if (c =? C "H") || (c =? DEL) then
    k ← getcons;
    (if negb (in_e k =? in_w k) then
       updcons (λ k, k <| in_e := u32 (in_e k - 1) |>) ;;
       consputc BACKSPACE
     else ret tt) ;;
    ret false
  else
    k ← getcons;
    (if negb (c =? 0) && (u32 (in_e k - in_r k) <? INPUT_BUF) then
       let c := if c =? CR then NL else c in
       updcons (λ k, k <| in_buf ::= <[Z.to_nat (in_e k mod INPUT_BUF) := u8 c]> |>
                       <| in_e := u32 (in_e k + 1) |>) ;;
       consputc c ;;
       k ← getcons;
       if (c =? NL) || (c =? C "D") || (in_e k =? u32 (in_r k + INPUT_BUF)) then
         updcons (λ k, k <| in_w := in_e k |>) ;;
         wakeup ChInput
       else ret tt
     else ret tt) ;;
    ret false.

(** The characters [getc] gives before it answers -1. *)
Fixpoint consoleintr_loop (cs : list Z) (doprocdump : bool) : KM bool :=
  match cs with
  | [] => ret doprocdump
  | c :: cs' => d ← consoleintr_char c; consoleintr_loop cs' (doprocdump || d)
  end.

Definition consoleintr (cs : list Z) : KM unit :=
  acquire LkCons ;;
  d ← consoleintr_loop cs false;
  release LkCons ;;
  if (d : bool) then procdump else ret tt.

#[local] Opaque acquire release.

(** ** The input line

    What the user sees of the buffer: [q], the characters ready for
    [consoleread], and [l], the line being edited. *)

Definition cons_line (k : consst) (q l : list Z) : Prop :=
  length (in_buf k) = Z.to_nat INPUT_BUF ∧ is_u32 (in_r k) ∧
  in_w k = u32 (in_r k + Z.of_nat (length q)) ∧
  in_e k = u32 (in_r k + Z.of_nat (length q) + Z.of_nat (length l)) ∧
  Z.of_nat (length q) + Z.of_nat (length l) ≤ INPUT_BUF ∧
  (∀ i c, (q ++ l) !! i = Some c →
          in_buf k !! Z.to_nat ((in_r k + Z.of_nat i) mod INPUT_BUF) = Some c) ∧
  NL ∉ l.

(** A typed character: ^U drops the line, ^H and DEL its last character, ^P
    nothing; a newline, a ^D or a full buffer makes the line ready. *)
Definition typed (c : Z) (x : list Z * list Z) : list Z * list Z :=
  let '(q, l) := x in
  if c =? C "P" then (q, l)
  else if c =? C "U" then (q, [])
  else if (c =? C "H") || (c =? DEL) then (q, removelast l)
  else if negb (c =? 0) && (Z.of_nat (length (q ++ l)) <? INPUT_BUF) then
    let c := if c =? CR then NL else c in
    if (c =? NL) || (c =? C "D") || (Z.of_nat (length (q ++ l)) + 1 =? INPUT_BUF)
    then (q ++ l ++ [c], [])
    else (q, l ++ [c])
  else (q, l).

Lemma u32_mod_input x : u32 x mod INPUT_BUF = x mod INPUT_BUF.
Proof.
  unfold u32, INPUT_BUF. change (2 ^ 32) with (33554432 * 128).
  rewrite Z.mul_comm, Z.rem_mul_r by lia. rewrite Z.mul_comm, Z.mod_add by lia.
  apply Z.mod_mod. lia.
Qed.

Lemma cons_line_shown out k k' q l : shown out k k' → cons_line k q l → cons_line k' q l.
Proof. intros [Hb Hr Hw He _ _ _ _] ?. unfold cons_line. by rewrite Hb, Hr, Hw, He. Qed.

Lemma cons_line_e_w k q l : cons_line k q l → (in_e k =? in_w k) = bool_decide (l = []).
Proof.
  intros (_ & Hr & Hw & He & Hlen & _). rewrite Hw, He. unfold u32, INPUT_BUF, is_u32 in *.
  case_bool_decide as E; [subst; apply Z.eqb_eq; f_equal; simpl; lia|].
  apply Z.eqb_neq. destruct l as [|c l]; [done|]. simpl in *. Z.div_mod_to_equations. lia.
Qed.

Lemma cons_line_used k q l :
  cons_line k q l → u32 (in_e k - in_r k) = Z.of_nat (length (q ++ l)).
Proof.
  intros (_ & Hr & _ & -> & Hlen & _). rewrite length_app. unfold u32, INPUT_BUF, is_u32 in *.
  Z.div_mod_to_equations. lia.
Qed.

Lemma cons_line_full k q l :
  cons_line k q l →
  (in_e k =? u32 (in_r k + INPUT_BUF)) = (Z.of_nat (length (q ++ l)) =? INPUT_BUF).
Proof.
  intros (_ & Hr & _ & -> & Hlen & _). rewrite length_app. unfold u32, INPUT_BUF, is_u32 in *.
  destruct (Z.eqb_spec (Z.of_nat (length q + length l)) 128) as [E|E].
  - apply Z.eqb_eq. f_equal. lia.
  - apply Z.eqb_neq. Z.div_mod_to_equations. lia.
Qed.

(** The character before the edit position is the last one of the line. *)
Lemma cons_line_last k q l c :
  cons_line k q (l ++ [c]) → in_at k (u32 (in_e k - 1)) = c.
Proof.
  intros (Hb & Hr & _ & -> & Hlen & Hat & _). unfold in_at. rewrite length_app in *. simpl in *.
  rewrite u32_mod_input, Zminus_mod, u32_mod_input, <-Zminus_mod.
  specialize (Hat (length q + length l)%nat c). rewrite app_assoc, <-length_app in Hat.
  rewrite lookup_app_r, Nat.sub_diag in Hat by lia. specialize (Hat eq_refl).
  rewrite length_app in Hat.
  apply nth_lookup_Some. rewrite <-Hat. do 3 f_equal. lia.
Qed.

Lemma cons_line_erase k q l c :
  cons_line k q (l ++ [c]) → cons_line (k <| in_e := u32 (in_e k - 1) |>) q l.
Proof.
  intros (Hb & Hr & Hw & He & Hlen & Hat & Hnl). rewrite length_app in *. simpl in *.
  split_and!; simpl; try done.
  - rewrite He. unfold u32. rewrite Zminus_mod_idemp_l. f_equal. lia.
  - lia.
  - intros i x Hi. apply Hat. rewrite app_assoc. by apply lookup_app_l_Some.
  - intros H. apply Hnl. set_solver.
Qed.

Lemma cons_line_snoc k q l c :
  cons_line k q l → Z.of_nat (length (q ++ l)) < INPUT_BUF → c ≠ NL →
  cons_line (k <| in_buf ::= <[Z.to_nat (in_e k mod INPUT_BUF) := c]> |>
               <| in_e := u32 (in_e k + 1) |>) q (l ++ [c]).
Proof.
  intros (Hb & Hr & Hw & He & Hlen & Hat & Hnl) Hlt Hc. rewrite length_app in Hlt.
  split_and!; simpl; try done.
  - by rewrite length_insert.
  - rewrite He, u32_add_l, length_app. simpl. f_equal. lia.
  - rewrite length_app. simpl. lia.
  - intros i x Hi. rewrite He, u32_mod_input. rewrite app_assoc in Hi.
    apply lookup_snoc_Some in Hi as [[Hi Hx]|[-> ->]].
    + rewrite list_lookup_insert_ne; [by apply Hat|]. rewrite length_app in Hi.
      unfold INPUT_BUF in *. Z.div_mod_to_equations. lia.
    + rewrite length_app, Nat2Z.inj_add, Z.add_assoc, list_lookup_insert_eq; [done|].
      rewrite Hb. unfold INPUT_BUF. Z.div_mod_to_equations. lia.
  - set_solver.
Qed.

(** Making the line ready, whatever its last character is. *)
Lemma cons_line_ready k q l c :
  cons_line k q l → Z.of_nat (length (q ++ l)) < INPUT_BUF →
  let k1 := k <| in_buf ::= <[Z.to_nat (in_e k mod INPUT_BUF) := c]> |>
              <| in_e := u32 (in_e k + 1) |> in
  cons_line (k1 <| in_w := in_e k1 |>) (q ++ l ++ [c]) [].
Proof.
  intros (Hb & Hr & Hw & He & Hlen & Hat & Hnl) Hlt k1. unfold k1. rewrite length_app in Hlt.
  split_and!; simpl; try done.
  - by rewrite length_insert.
  - rewrite He, u32_add_l, !length_app. simpl. f_equal. lia.
  - rewrite He, u32_add_l, !length_app. simpl. f_equal. lia.
  - rewrite !length_app. simpl. lia.
  - intros i x Hi. rewrite He, u32_mod_input. rewrite app_nil_r, app_assoc in Hi.
    apply lookup_snoc_Some in Hi as [[Hi Hx]|[-> ->]].
    + rewrite list_lookup_insert_ne; [by apply Hat|]. rewrite length_app in Hi.
      unfold INPUT_BUF in *. Z.div_mod_to_equations. lia.
    + rewrite length_app, Nat2Z.inj_add, Z.add_assoc, list_lookup_insert_eq; [done|].
      rewrite Hb. unfold INPUT_BUF. Z.div_mod_to_equations. lia.
  - apply not_elem_of_nil.
Qed.

(** What handling characters does, from ready characters [q0] to [q] and the
    line [l]: who sleeps for input still does, unless a line became ready. *)
Record intr_post (q0 q l : list Z) (s s' : kernel) : Prop := {
  ip_held : held s' = held s;
  ip_locking : cons_locking (kcons s') = cons_locking (kcons s);
  ip_line : cons_line (kcons s') q l;
  ip_screen : screen_ok (kcons s');
  ip_sleep : ∀ j, sleeps s' j ChInput → sleeps s j ChInput ∧ q = q0 }.

Lemma intr_post_trans q0 q1 q2 l1 l2 s s1 s2 :
  intr_post q0 q1 l1 s s1 → intr_post q1 q2 l2 s1 s2 → intr_post q0 q2 l2 s s2.
Proof.
  intros [] []. split; try done; [congruence..|].
  intros j Hj. destruct (ip_sleep1 j Hj) as [Hs ->]. by apply ip_sleep0.
Qed.

(** A change of the console alone. *)
Lemma intr_post_cons q l s k' :
  cons_locking k' = cons_locking (kcons s) → cons_line k' q l → screen_ok k' →
  intr_post q q l s (s <| kcons := k' |>).
Proof. intros. by split. Qed.

(** Erasing the last character of the line. *)
Lemma erase_ok s q l c :
  cons_line (kcons s) q (l ++ [c]) → screen_ok (kcons s) →
  ∃ s', (updcons (λ k, k <| in_e := u32 (in_e k - 1) |>) ;; consputc BACKSPACE) s = Ok tt s' ∧
    intr_post q q l s s'.
Proof.
  intros Hl Hs. unfold updcons.
  rewrite (bind_ok (modify_state _) _ _ _ _ eq_refl).
  match goal with |- ∃ _, consputc _ ?x = _ ∧ _ => set (s1 := x) end.
  destruct (consputc_shows BACKSPACE s1 Hs) as (k' & H1 & Hk').
  eexists. split; [exact H1|]. change (s1 <| kcons := k' |>) with (s <| kcons := k' |>).
  apply intr_post_cons; [apply (sh_lock _ _ _ Hk')| |apply (sh_ok _ _ _ Hk')].
  eapply cons_line_shown; [done|]. by apply (cons_line_erase _ _ _ c).
Qed.

(** ^U: the line has no newline, so all of it goes. *)
Lemma kill_line_ok l : ∀ fuel s q,
  cons_line (kcons s) q l → screen_ok (kcons s) → (length l < fuel)%nat →
  ∃ s', kill_line fuel s = Ok tt s' ∧ intr_post q q [] s s'.
Proof.
  induction l as [|c l IH] using rev_ind; intros fuel s q Hl Hs Hf; (destruct fuel as [|fuel]; [lia|]);
    cbn [kill_line]; unfold getcons; rewrite (bind_ok (gets kcons) _ _ _ _ eq_refl);
    rewrite (cons_line_e_w _ _ _ Hl).
  - exists s. split; [done|]. by split.
  - rewrite bool_decide_false by (by destruct l). rewrite (cons_line_last _ _ _ _ Hl).
    assert (Hc : c ≠ NL). { destruct Hl as (_ & _ & _ & _ & _ & _ & Hnl). set_solver. }
    rewrite (proj2 (Z.eqb_neq _ _) Hc). cbn [negb andb].
    destruct (erase_ok _ _ _ _ Hl Hs) as (s1 & H1 & Hp1).
    rewrite <-bind_assoc, (bind_ok _ _ _ _ _ H1).
    rewrite length_app in Hf. simpl in Hf.
    destruct (IH fuel s1 q) as (s2 & H2 & Hp2); [by apply (ip_line _ _ _ _ _ Hp1)
      |by apply (ip_screen _ _ _ _ _ Hp1)|lia|].
    exists s2. split; [done|]. by eapply intr_post_trans.
Qed.

Lemma snoc_or_nil {A} (l : list A) : l = [] ∨ ∃ l' x, l = l' ++ [x].
Proof. destruct l as [|x l] using rev_ind; [by left|right; eauto]. Qed.

Lemma u8_small x : is_u8 x → u8 x = x.
Proof. intros H. by apply Z.mod_small. Qed.

(** Making the input ready wakes who waits for it. *)
Lemma ready_ok s q0 q l :
  held s = [LkCons] → cons_line ((kcons s) <| in_w := in_e (kcons s) |>) q l → screen_ok (kcons s) →
  ∃ s', (updcons (λ k, k <| in_w := in_e k |>) ;; wakeup ChInput) s = Ok tt s' ∧
    intr_post q0 q l s s'.
Proof.
  intros Hh Hl Hs. unfold updcons. rewrite (bind_ok (modify_state _) _ _ _ _ eq_refl).
  rewrite wakeup_eq by (unfold can_lock; simpl; rewrite Hh; set_solver).
  eexists. split; [done|]. split; try done.
  intros j Hj. by apply (sleeps_woken s _ j ChInput ChInput) in Hj as [_ Hj].
Qed.

(** An ordinary character for which there is room. *)
Lemma put_char_ok c s q l :
  is_u8 c → cons_line (kcons s) q l → screen_ok (kcons s) → held s = [LkCons] →
  Z.of_nat (length (q ++ l)) < INPUT_BUF →
  let ready := (c =? NL) || (c =? C "D") || (Z.of_nat (length (q ++ l)) + 1 =? INPUT_BUF) in
  ∃ s', (updcons (λ k, k <| in_buf ::= <[Z.to_nat (in_e k mod INPUT_BUF) := u8 c]> |>
                         <| in_e := u32 (in_e k + 1) |>) ;;
         consputc c ;;
         k ← getcons;
         if (c =? NL) || (c =? C "D") || (in_e k =? u32 (in_r k + INPUT_BUF)) then
           updcons (λ k, k <| in_w := in_e k |>) ;;
           wakeup ChInput
         else ret tt) s = Ok tt s' ∧
    intr_post q (if ready then q ++ l ++ [c] else q) (if ready then [] else l ++ [c]) s s'.
Proof.
  intros Hc Hl Hs Hh Hlt ready. rewrite (u8_small c Hc). unfold updcons at 1.
  rewrite (bind_ok (modify_state _) _ _ _ _ eq_refl).
  match goal with |- ∃ _, _ ?x = _ ∧ _ => set (s1 := x) end.
  destruct (consputc_shows c s1 Hs) as (k2 & H2 & Hk2). rewrite (bind_ok _ _ _ _ _ H2).
  change (s1 <| kcons := k2 |>) with (s <| kcons := k2 |>).
  unfold getcons. rewrite (bind_ok (gets kcons) _ _ _ _ eq_refl).
  change (kcons (s <| kcons := k2 |>)) with k2.
  assert (Hfull : (in_e k2 =? u32 (in_r k2 + INPUT_BUF)) = (Z.of_nat (length (q ++ l)) + 1 =? INPUT_BUF)).
  { rewrite (sh_e _ _ _ Hk2), (sh_r _ _ _ Hk2).
    destruct Hl as (_ & Hr & _ & He & _). cbn. rewrite He, length_app in *.
    unfold u32, INPUT_BUF, is_u32 in *. rewrite Zplus_mod_idemp_l.
    destruct (Z.eqb_spec (Z.of_nat (length q + length l) + 1) 128) as [E|E].
    - apply Z.eqb_eq. f_equal. lia.
    - apply Z.eqb_neq. Z.div_mod_to_equations. lia. }
  rewrite Hfull. fold ready. destruct ready eqn:Er.
  - destruct (ready_ok (s <| kcons := k2 |>) q (q ++ l ++ [c]) []) as (s' & H' & Hp);
      [exact Hh| |exact (sh_ok _ _ _ Hk2)|].
    + pose proof (cons_line_ready (kcons s) q l c Hl Hlt) as Hr.
      destruct Hk2 as [E1 E2 E3 E4 _ _ _ _]. unfold cons_line in *. cbn in *. by rewrite E1, E2, E4.
    + exists s'. split; [done|]. destruct Hp. split; try done.
      rewrite ip_locking0. exact (sh_lock _ _ _ Hk2).
  - eexists. split; [done|]. apply intr_post_cons; [exact (sh_lock _ _ _ Hk2)| |exact (sh_ok _ _ _ Hk2)].
    eapply cons_line_shown; [exact Hk2|]. apply (cons_line_snoc (kcons s)); [done..|].
    unfold ready in Er. intros ->. by rewrite Z.eqb_refl in Er.
Qed.

(** One character. *)
Lemma consoleintr_char_ok c s q l :
  is_u8 c → cons_line (kcons s) q l → screen_ok (kcons s) → held s = [LkCons] →
  ∃ s', consoleintr_char c s = Ok (c =? C "P") s' ∧
    intr_post q (fst (typed c (q, l))) (snd (typed c (q, l))) s s'.
Proof.
  intros Hc Hl Hs Hh. unfold consoleintr_char, typed.
  destruct (c =? C "P"); [exists s; split; [done|by split]|].
  destruct (c =? C "U").
  { destruct (kill_line_ok l (Z.to_nat INPUT_BUF + 1) s q Hl Hs) as (s1 & H1 & Hp1).
    { destruct Hl as (_ & _ & _ & _ & Hlen & _). unfold INPUT_BUF in *. lia. }
    exists s1. by rewrite (bind_ok _ _ _ _ _ H1). }
  unfold getcons. destruct ((c =? C "H") || (c =? DEL)).
  { rewrite (bind_ok (gets kcons) _ _ _ _ eq_refl), (cons_line_e_w _ _ _ Hl).
    destruct (snoc_or_nil l) as [->|(l' & x & ->)].
    - exists s. split; [done|by split].
    - rewrite bool_decide_false by (by destruct l'). cbn [negb].
      destruct (erase_ok _ _ _ _ Hl Hs) as (s1 & H1 & Hp1). exists s1.
      rewrite (bind_ok _ _ _ _ _ H1). split; [done|]. cbn [snd fst]. by rewrite removelast_last. }
  rewrite (bind_ok (gets kcons) _ _ _ _ eq_refl), (cons_line_used _ _ _ Hl).
  destruct (negb (c =? 0) && _) eqn:E; [|exists s; split; [done|by split]].
  apply andb_true_iff in E as [_ Hlt%Z.ltb_lt].
  set (c' := if c =? CR then NL else c).
  assert (Hc' : is_u8 c') by (unfold c', NL, is_u8 in *; destruct (c =? CR); lia).
  clearbody c'. destruct (put_char_ok c' s q l Hc' Hl Hs Hh Hlt) as (s' & H' & Hp).
  exists s'. rewrite (bind_ok _ _ _ _ _ H'). split; [done|].
  by destruct ((c' =? NL) || (c' =? C "D") || _).
Qed.

Lemma prints_procdump : prints procdump.
Proof.
  apply prints_for_each. intros i. apply prints_gets. intros p.
  destruct (bool_decide _); [apply prints_ret|].
  apply prints_seq; [apply prints_cprintf; by eexists|]. apply prints_seq.
  - destruct (bool_decide _); [|apply prints_ret]. apply prints_gets. intros pc.
    apply prints_for_each. intros a. apply prints_cprintf. by eexists.
  - apply prints_cprintf. by eexists.
Qed.

Lemma consoleintr_loop_ok cs : ∀ s q l d,
  Forall is_u8 cs → cons_line (kcons s) q l → screen_ok (kcons s) → held s = [LkCons] →
  ∃ s' d', consoleintr_loop cs d s = Ok d' s' ∧
    intr_post q (fst (foldl (flip typed) (q, l) cs)) (snd (foldl (flip typed) (q, l) cs)) s s'.
Proof.
  induction cs as [|c cs IH]; intros s q l d Hcs Hl Hs Hh.
  { exists s, d. split; [done|]. by split. }
  apply Forall_cons in Hcs as [Hc Hcs].
  destruct (consoleintr_char_ok c s q l Hc Hl Hs Hh) as (s1 & H1 & Hp1).
  cbn [foldl consoleintr_loop]. rewrite (bind_ok _ _ _ _ _ H1). change (flip typed (q, l) c) with (typed c (q, l)).
  destruct (typed c (q, l)) as [q1 l1]. simpl in Hp1.
  destruct (IH s1 q1 l1 (d || (c =? C "P")) Hcs) as (s2 & d2 & H2 & Hp2).
  - by apply (ip_line _ _ _ _ _ Hp1).
  - by apply (ip_screen _ _ _ _ _ Hp1).
  - by rewrite (ip_held _ _ _ _ _ Hp1).
  - exists s2, d2. split; [done|]. exact (intr_post_trans _ _ _ _ _ _ _ _ Hp1 Hp2).
Qed.

(** The whole handler. *)
Lemma consoleintr_ok s q l cs :
  Forall is_u8 cs → cons_line (kcons s) q l → screen_ok (kcons s) → held s = [] →
  (q ≠ [] → ∀ j, ¬ sleeps s j ChInput) →
  let x := foldl (flip typed) (q, l) cs in
  ∃ s', consoleintr cs s = Ok tt s' ∧ held s' = [] ∧
    cons_line (kcons s') (fst x) (snd x) ∧ screen_ok (kcons s') ∧
    (fst x ≠ [] → ∀ j, ¬ sleeps s' j ChInput).
Proof.
  intros Hcs Hl Hs Hh Hw x. unfold consoleintr. rewrite (bind_ok _ _ _ _ _ (acquire_free _ _ Hh)).
  set (s0 := s <| held := [LkCons] |>).
  destruct (consoleintr_loop_ok cs s0 q l false Hcs Hl Hs eq_refl) as (s1 & d & H1 & Hp). fold x in Hp.
  rewrite (bind_ok _ _ _ _ _ H1), (bind_ok _ _ _ _ _ (release_last _ _ (ip_held _ _ _ _ _ Hp))).
  set (s2 := s1 <| held := [] |>).
  assert (Hsl : fst x ≠ [] → ∀ j, ¬ sleeps s2 j ChInput).
  { intros Hx j Hj. destruct (ip_sleep _ _ _ _ _ Hp j Hj) as [Hj' Hq]. rewrite Hq in Hx.
    by apply (Hw Hx j). }
  destruct d.
  - destruct (prints_procdump s2) as (k' & out & H' & Hk');
      [apply not_elem_of_nil|exact (ip_screen _ _ _ _ _ Hp)|].
    eexists. split; [exact H'|]. split; [done|]. split; [|split; [exact (sh_ok _ _ _ Hk')|exact Hsl]].
    exact (cons_line_shown _ _ _ _ _ Hk' (ip_line _ _ _ _ _ Hp)).
  - eexists. split; [done|]. split; [done|]. split; [exact (ip_line _ _ _ _ _ Hp)|].
    split; [exact (ip_screen _ _ _ _ _ Hp)|exact Hsl].
Qed.

(** ** Properties *)

(** [C37] The interrupt handler of the console edits a line.  The ring with its
    three indices, which wrap around at 2^32, behaves as the pair of the
    characters ready to be read and the line being edited: ^U drops the line, ^H
    and DEL its last character, and a newline, ^D or a full buffer makes the line
    ready; a character that finds the buffer full is lost.  The handler returns
    with the lock free (also when ^P lists the processes), keeps the cursor on
    the screen, and leaves nobody asleep who waits for input that has become
    ready. *)
Theorem consoleintr_edits s q l cs :
  Forall is_u8 cs → cons_line (kcons s) q l → screen_ok (kcons s) → held s = [] →
  (q ≠ [] → ∀ j, ¬ sleeps s j ChInput) →
  let x := foldl (flip typed) (q, l) cs in
  ∃ s', consoleintr cs s = Ok tt s' ∧ held s' = [] ∧
    cons_line (kcons s') (fst x) (snd x) ∧ screen_ok (kcons s') ∧
    (fst x ≠ [] → ∀ j, ¬ sleeps s' j ChInput).
Proof. apply consoleintr_ok. Qed.

(** A reader asleep, and a line typed with corrections. *)
Definition typing_k : kernel :=
  kernel0 <| kproc ::= λ k, k <| ptable := [ proc0 <| state := SLEEPING |> <| chan := Some ChInput |> ] |> |>.
Definition typing : list Z := str "lx" ++ [C "H"] ++ str "z" ++ [C "U"] ++ str "lz" ++ [DEL] ++ str "s" ++ [CR].

Lemma consoleintr_edits_witness :
  ∃ s', consoleintr typing typing_k = Ok tt s' ∧ cons_line (kcons s') (str "ls" ++ [NL]) [] ∧
        ¬ sleeps s' 0 ChInput.
Proof.
  destruct (consoleintr_edits typing_k [] [] typing) as (s' & H & _ & Hl & _ & Hw).
  - unfold is_u8. apply (bool_decide_unpack _). vm_compute. exact I.
  - split_and!; [reflexivity|split; [apply Z.le_refl|reflexivity]|reflexivity|reflexivity| | |].
    + vm_compute. discriminate.
    + intros i c Hi. destruct i; discriminate Hi.
    + apply not_elem_of_nil.
  - split; [vm_compute; split; congruence|reflexivity].
  - reflexivity.
  - intros Hq. destruct (Hq eq_refl).
  - exists s'. split; [exact H|]. split; [exact Hl|]. apply Hw. vm_compute. discriminate.
Defined.

(** ** Two locks in two orders *)







