(* ===== verification/Kbd.v ===== *)
(** * The keyboard: kbd.h and kbd.c

    The tables that map scan codes to characters and [kbdgetc], which follows
    the modifier keys. *)

From Stdlib Require Import Ascii String.
From S2P Require Import Prelude Kernel Sched Waiting Screen Console.
Open Scope Z_scope.

Definition SHIFT : Z := 1.
Definition CTL : Z := 2.
Definition ALT : Z := 4.
Definition CAPSLOCK : Z := 8.
Definition NUMLOCK : Z := 16.
Definition SCROLLLOCK : Z := 32.
Definition E0ESC : Z := 64.

Definition KEY_HOME : Z := 0xE0.
Definition KEY_END : Z := 0xE1.
Definition KEY_UP : Z := 0xE2.
Definition KEY_DN : Z := 0xE3.
Definition KEY_LF : Z := 0xE4.
Definition KEY_RT : Z := 0xE5.
Definition KEY_PGUP : Z := 0xE6.
Definition KEY_PGDN : Z := 0xE7.
Definition KEY_INS : Z := 0xE8.
Definition KEY_DEL : Z := 0xE9.

(** A [uchar[256]] with its first elements and its designated ones. *)
Definition table (l : list Z) (des : list (Z * Z)) : list Z :=
  foldl (λ t x, <[Z.to_nat (fst x) := snd x]> t) (l ++ replicate (256 - length l) 0) des.

Definition shiftcode : list Z := table []
  [ (0x1D, CTL); (0x2A, SHIFT); (0x36, SHIFT); (0x38, ALT); (0x9D, CTL); (0xB8, ALT) ].

Definition togglecode : list Z := table []
  [ (0x3A, CAPSLOCK); (0x45, NUMLOCK); (0x46, SCROLLLOCK) ].

Definition normalmap : list Z := table
  [ 0; 0x1B; chr "1"; chr "2"; chr "3"; chr "4"; chr "5"; chr "6";
    chr "7"; chr "8"; chr "9"; chr "0"; chr "-"; chr "="; 8; 9;
    chr "q"; chr "w"; chr "e"; chr "r"; chr "t"; chr "y"; chr "u"; chr "i";
    chr "o"; chr "p"; chr "["; chr "]"; 10; 0; chr "a"; chr "s";
    chr "d"; chr "f"; chr "g"; chr "h"; chr "j"; chr "k"; chr "l"; chr ";";
    chr "'"; chr "`"; 0; 92; chr "z"; chr "x"; chr "c"; chr "v";
    chr "b"; chr "n"; chr "m"; chr ","; chr "."; chr "/"; 0; chr "*";
    0; chr " "; 0; 0; 0; 0; 0; 0;
    0; 0; 0; 0; 0; 0; 0; chr "7";
    chr "8"; chr "9"; chr "-"; chr "4"; chr "5"; chr "6"; chr "+"; chr "1";
    chr "2"; chr "3"; chr "0"; chr "."; 0; 0; 0; 0 ]
  [ (0x9C, 10); (0xB5, chr "/"); (0xC8, KEY_UP); (0xD0, KEY_DN);
    (0xC9, KEY_PGUP); (0xD1, KEY_PGDN); (0xCB, KEY_LF); (0xCD, KEY_RT);
    (0x97, KEY_HOME); (0xCF, KEY_END); (0xD2, KEY_INS); (0xD3, KEY_DEL) ].

Definition shiftmap : list Z := table
  [ 0; 0x1B; chr "!"; chr "@"; chr "#"; chr "$"; chr "%"; chr "^";
    chr "&"; chr "*"; chr "("; chr ")"; chr "_"; chr "+"; 8; 9;
    chr "Q"; chr "W"; chr "E"; chr "R"; chr "T"; chr "Y"; chr "U"; chr "I";
    chr "O"; chr "P"; chr "{"; chr "}"; 10; 0; chr "A"; chr "S";
    chr "D"; chr "F"; chr "G"; chr "H"; chr "J"; chr "K"; chr "L"; chr ":";
    34; chr "~"; 0; chr "|"; chr "Z"; chr "X"; chr "C"; chr "V";
    chr "B"; chr "N"; chr "M"; chr "<"; chr ">"; chr "?"; 0; chr "*";
    0; chr " "; 0; 0; 0; 0; 0; 0;
    0; 0; 0; 0; 0; 0; 0; chr "7";
    chr "8"; chr "9"; chr "-"; chr "4"; chr "5"; chr "6"; chr "+"; chr "1";
    chr "2"; chr "3"; chr "0"; chr "."; 0; 0; 0; 0 ]
  [ (0x9C, 10); (0xB5, chr "/"); (0xC8, KEY_UP); (0xD0, KEY_DN);
    (0xC9, KEY_PGUP); (0xD1, KEY_PGDN); (0xCB, KEY_LF); (0xCD, KEY_RT);
    (0x97, KEY_HOME); (0xCF, KEY_END); (0xD2, KEY_INS); (0xD3, KEY_DEL) ].

Definition ctlmap : list Z := table
  [ 0; 0; 0; 0; 0; 0; 0; 0;
    0; 0; 0; 0; 0; 0; 0; 0;
    u8 (C "Q"); u8 (C "W"); u8 (C "E"); u8 (C "R"); u8 (C "T"); u8 (C "Y"); u8 (C "U"); u8 (C "I");
    u8 (C "O"); u8 (C "P"); 0; 0; 13; 0; u8 (C "A"); u8 (C "S");
    u8 (C "D"); u8 (C "F"); u8 (C "G"); u8 (C "H"); u8 (C "J"); u8 (C "K"); u8 (C "L"); 0;
    0; 0; 0; 28; u8 (C "Z"); u8 (C "X"); u8 (C "C"); u8 (C "V");
    u8 (C "B"); u8 (C "N"); u8 (C "M"); 0; 0; u8 (C "/"); 0; 0 ]
  [ (0x9C, 13); (0xB5, u8 (C "/")); (0xC8, KEY_UP); (0xD0, KEY_DN);
    (0xC9, KEY_PGUP); (0xD1, KEY_PGDN); (0xCB, KEY_LF); (0xCD, KEY_RT);
    (0x97, KEY_HOME); (0xCF, KEY_END); (0xD2, KEY_INS); (0xD3, KEY_DEL) ].

Definition at_code (t : list Z) (i : Z) : Z := nth (Z.to_nat i) t 0.

(** [charcode[shift & (CTL|SHIFT)]] *)
Definition charcode (sh : Z) : list Z :=
  let i := Z.land sh (Z.lor CTL SHIFT) in
  if i =? 0 then normalmap else if i =? 1 then shiftmap else ctlmap.

(** [c] with the case of letters exchanged if caps lock is on. *)
Definition capslock (sh c : Z) : Z :=
  if Z.land sh CAPSLOCK =? 0 then c
  else if (chr "a" <=? c) && (c <=? chr "z") then c + (chr "A" - chr "a")
  else if (chr "A" <=? c) && (c <=? chr "Z") then c + (chr "a" - chr "A")
  else c.

(** [kbdgetc] when the controller has the byte [data]: the result and the new
    [shift].  With no byte it returns -1. *)
Definition kbdgetc (data sh : Z) : Z * Z :=
  if data =? 0xE0 then (0, Z.lor sh E0ESC)
  else if negb (Z.land data 0x80 =? 0) then
    let data := if Z.land sh E0ESC =? 0 then Z.land data 0x7F else data in
    (0, Z.land sh (u32 (Z.lnot (Z.lor (at_code shiftcode data) E0ESC))))
  else
    let esc := negb (Z.land sh E0ESC =? 0) in
    let data := if esc then Z.lor data 0x80 else data in
    let sh := if esc then Z.land sh (u32 (Z.lnot E0ESC)) else sh in
    let sh := Z.lxor (Z.lor sh (at_code shiftcode data)) (at_code togglecode data) in
    (capslock sh (at_code (charcode sh) data), sh).

(** The characters of the bytes the controller has, one after the other. *)
Fixpoint kbd_chars (datas : list Z) (sh : Z) : list Z * Z :=
  match datas with
  | [] => ([], sh)
  | d :: datas' =>
      let '(c, sh1) := kbdgetc d sh in
      let '(cs, sh2) := kbd_chars datas' sh1 in
      (c :: cs, sh2)
  end.

Definition kbdintr (datas : list Z) : KM unit :=
  k ← getcons;
  let '(cs, sh) := kbd_chars datas (kbd_shift k) in
  updcons (λ k, k <| kbd_shift := sh |>) ;;
  consoleintr cs.

#[local] Opaque acquire release.

(** ** Properties *)

Definition byte_codes : list Z := Z.of_nat <$> seq 0 256.
Definition shift_states : list Z := Z.of_nat <$> seq 0 128.

(** [kbdgetc] on every byte in every state of the modifiers. *)
Definition kbd_check (d sh : Z) : bool :=
  let '(c, sh') := kbdgetc d sh in
  (0 <=? c) && (c <? 256) && (0 <=? sh') && (sh' <? 128).

Lemma kbd_check_all : forallb (λ d, forallb (kbd_check d) shift_states) byte_codes = true.
Proof. vm_compute. reflexivity. Qed.

Lemma elem_of_upto x n : 0 ≤ x < Z.of_nat n → x ∈ (Z.of_nat <$> seq 0 n).
Proof.
  intros H. apply list_elem_of_fmap. exists (Z.to_nat x). split; [lia|]. apply elem_of_seq. lia.
Qed.

Lemma kbdgetc_range d sh :
  is_u8 d → 0 ≤ sh < 128 → is_u8 (fst (kbdgetc d sh)) ∧ 0 ≤ snd (kbdgetc d sh) < 128.
Proof.
  intros Hd Hs. pose proof kbd_check_all as H. rewrite forallb_forall in H.
  specialize (H d). rewrite forallb_forall in H.
  specialize (H ltac:(apply list_elem_of_In, elem_of_upto; unfold is_u8 in Hd; lia) sh
                ltac:(apply list_elem_of_In, elem_of_upto; lia)).
  unfold kbd_check in H. destruct (kbdgetc d sh) as [c sh']. cbn [fst snd].
  apply andb_true_iff in H as [[[H1 H2]%andb_true_iff H3]%andb_true_iff H4].
  unfold is_u8. lia.
Qed.

Lemma kbd_chars_range ds : ∀ sh,
  Forall is_u8 ds → 0 ≤ sh < 128 →
  Forall is_u8 (fst (kbd_chars ds sh)) ∧ 0 ≤ snd (kbd_chars ds sh) < 128.
Proof.
  induction ds as [|d ds IH]; intros sh Hds Hsh; [done|]. apply Forall_cons in Hds as [Hd Hds].
  destruct (kbdgetc_range d sh Hd Hsh) as [Hc Hsh1]. cbn [kbd_chars].
  destruct (kbdgetc d sh) as [c sh1]. destruct (IH sh1 Hds Hsh1) as [Hcs Hsh2].
  destruct (kbd_chars ds sh1) as [cs sh2]. split; [by constructor|done].
Qed.

(** The keyboard interrupt.  Whatever bytes the controller delivers and
    whatever modifiers are down, [kbdintr] types the characters [kbdgetc] makes
    of them: it returns with the lock free, the input line edited by these
    characters, the cursor on the screen, and nobody asleep for input that has
    become ready. *)
Theorem kbdintr_types s q l ds :
  Forall is_u8 ds → 0 ≤ kbd_shift (kcons s) < 128 →
  cons_line (kcons s) q l → screen_ok (kcons s) → held s = [] →
  (q ≠ [] → ∀ j, ¬ sleeps s j ChInput) →
  let x := foldl (flip typed) (q, l) (fst (kbd_chars ds (kbd_shift (kcons s)))) in
  ∃ s', kbdintr ds s = Ok tt s' ∧ held s' = [] ∧ cons_line (kcons s') (fst x) (snd x) ∧
    screen_ok (kcons s') ∧ (fst x ≠ [] → ∀ j, ¬ sleeps s' j ChInput).
Proof.
  intros Hds Hsh Hl Hs Hh Hw. destruct (kbd_chars_range ds _ Hds Hsh) as [Hcs Hsh'].
  unfold kbdintr, getcons. rewrite (bind_ok (gets kcons) _ _ _ _ eq_refl).
  destruct (kbd_chars ds (kbd_shift (kcons s))) as [cs sh]. cbn [fst snd] in *. unfold updcons.
  rewrite (bind_ok (modify_state _) _ _ _ _ eq_refl).
  match goal with |- context [consoleintr cs ?y] => set (s1 := y) end.
  exact (consoleintr_ok s1 q l cs Hcs Hl Hs Hh Hw).
Qed.

(** Shift down, [l], shift up, [s], Enter. *)
Lemma kbdintr_types_witness :
  ∃ s', kbdintr [0x2A; 0x26; 0xAA; 0x1F; 0x1C] typing_k = Ok tt s' ∧
        cons_line (kcons s') (str "Ls" ++ [NL]) [].
Proof.
  destruct (kbdintr_types typing_k [] [] [0x2A; 0x26; 0xAA; 0x1F; 0x1C]) as (s' & H & _ & Hl & _).
  - unfold is_u8. apply (bool_decide_unpack _). vm_compute. exact I.
  - vm_compute. split; congruence.
  - split_and!; [reflexivity|split; [apply Z.le_refl|reflexivity]|reflexivity|reflexivity| | |].
    + vm_compute. discriminate.
    + intros i c Hi. destruct i; discriminate Hi.
    + apply not_elem_of_nil.
  - split; [vm_compute; split; congruence|reflexivity].
  - reflexivity.
  - intros Hq. destruct (Hq eq_refl).
  - exists s'. split; [exact H|exact Hl].
Defined.
