(* ===== verification/Pipe.v ===== *)
(** * Pipes: pipe.c

    A pipe is a page of memory that holds a ring of [PIPESIZE] bytes and two
    32-bit counters.  [pipewrite] and [piperead] run with the pipe's lock held
    and may sleep in the middle; [pipewrite_from] and [piperead_from] are their
    code from the place where they (re)test the ring, so that a sleeping call
    continues with them.  The abstraction is a bounded queue of bytes. *)

From S2P Require Import Prelude Kernel Cstring Kalloc Vm Sched Proc Waiting.

(** ** The ring *)

(** [p->nwrite == p->nread + PIPESIZE] *)
Definition pipe_full (p : pipe) : bool := nwrite p =? u32 (nread p + PIPESIZE).
(** [p->nread == p->nwrite] *)
Definition pipe_empty (p : pipe) : bool := nread p =? nwrite p.

(** [p->data[p->nwrite++ % PIPESIZE] = c] *)
Definition push (c : Z) (p : pipe) : pipe :=
  p <| pdata ::= <[Z.to_nat (nwrite p mod PIPESIZE) := c]> |> <| nwrite := u32 (nwrite p + 1) |>.

(** [p->data[p->nread++ % PIPESIZE]] *)
Definition pop (p : pipe) : Z * pipe :=
  (default 0 (pdata p !! Z.to_nat (nread p mod PIPESIZE)), p <| nread := u32 (nread p + 1) |>).

(** The loop of [pipewrite] up to the first byte it has no room for; it leaves
    the bytes still to write. *)
Fixpoint write_loop (p : pipe) (rest : list Z) : pipe * list Z :=
  match rest with
  | [] => (p, [])
  | c :: rest' => if pipe_full p then (p, rest) else write_loop (push c p) rest'
  end.

(** The second loop of [piperead]. *)
Fixpoint read_loop (p : pipe) (n : nat) : pipe * list Z :=
  match n with
  | O => (p, [])
  | S n' =>
      if pipe_empty p then (p, [])
      else let '(c, p1) := pop p in
           let '(p2, out) := read_loop p1 n' in (p2, c :: out)
  end.

(** ** Operations *)

Definition pipe0 : pipe := mkpipe [] 0 0 0 0.
Definition getpipe (a : Z) : KM pipe := gets (λ s, default pipe0 (pipes s !! a)).
Definition setpipe (a : Z) (p : pipe) : KM unit := modify_state (λ s, s <| pipes ::= <[a := p]> |>).

(** [myproc()->killed] *)
Definition is_killed : KM bool :=
  i ← curproc;
  p ← getp i;
  ret (negb (killed p =? 0)).

(** [pipewrite] with the lock held, when the bytes [rest] of the [n] bytes are
    still to be written. *)
Definition pipewrite_from (a : Z) (rest : list Z) (n : Z) : KM Z :=
  p ← getpipe a;
  let '(p', rest') := write_loop p rest in
  setpipe a p' ;;
  match rest' with
  | [] =>
      wakeup (ChPipeRead a) ;;
      release (LkPipe a) ;;
      ret n
  | _ :: _ =>
      k ← (if readopen p' =? 0 then ret true else is_killed);
      if (k : bool) then release (LkPipe a) ;; ret (-1)
      else
        wakeup (ChPipeRead a) ;;
        sleep (ChPipeWrite a) (LkPipe a)
  end.

(** [addr] holds the bytes [src]; [n] is their number (or negative, and [src]
    is empty). *)
Definition pipewrite (a : Z) (src : list Z) (n : Z) : KM Z :=
  acquire (LkPipe a) ;;
  pipewrite_from a src n.

(** [piperead] with the lock held; it returns the count and the bytes. *)
Definition piperead_from (a : Z) (n : Z) : KM (Z * list Z) :=
  p ← getpipe a;
  if pipe_empty p && negb (writeopen p =? 0) then
    k ← is_killed;
    if (k : bool) then release (LkPipe a) ;; ret (-1, [])
    else sleep (ChPipeRead a) (LkPipe a)
  else
    let '(p', out) := read_loop p (Z.to_nat n) in
    setpipe a p' ;;
    wakeup (ChPipeWrite a) ;;
    release (LkPipe a) ;;
    ret (Z.of_nat (length out), out).

Definition piperead (a : Z) (n : Z) : KM (Z * list Z) :=
  acquire (LkPipe a) ;;
  piperead_from a n.

Definition pipeclose (a : Z) (writable : bool) : KM unit :=
  acquire (LkPipe a) ;;
  p ← getpipe a;
  (if writable then
     setpipe a (p <| writeopen := 0 |>) ;;
     wakeup (ChPipeRead a)
   else
     setpipe a (p <| readopen := 0 |>) ;;
     wakeup (ChPipeWrite a)) ;;
  p' ← getpipe a;
  if (readopen p' =? 0) && (writeopen p' =? 0) then
    release (LkPipe a) ;;
    modify_state (λ s, s <| pipes ::= delete a |>) ;;
    kfree a
  else release (LkPipe a).

#[local] Opaque acquire release.

(** ** The ring is a bounded queue *)

(** The ring [p] holds the bytes [q], oldest first. *)
Definition pipe_queue (p : pipe) (q : list Z) : Prop :=
  length (pdata p) = Z.to_nat PIPESIZE ∧ Z.of_nat (length q) ≤ PIPESIZE ∧
  is_u32 (nread p) ∧ nwrite p = u32 (nread p + Z.of_nat (length q)) ∧
  ∀ i c, q !! i = Some c → pdata p !! Z.to_nat ((nread p + Z.of_nat i) mod PIPESIZE) = Some c.

Lemma u32_mod_pipesize x : u32 x mod PIPESIZE = x mod PIPESIZE.
Proof.
  unfold u32, PIPESIZE. change (2 ^ 32) with (8388608 * 512).
  rewrite Z.mul_comm, Z.rem_mul_r by lia. rewrite Z.mul_comm, Z.mod_add by lia.
  apply Z.mod_mod. lia.
Qed.

Lemma pipe_full_spec p q : pipe_queue p q → pipe_full p = bool_decide (length q = Z.to_nat PIPESIZE).
Proof.
  intros (_ & Hq & Hr & Hw & _). unfold pipe_full. rewrite Hw.
  unfold u32, PIPESIZE, is_u32 in *. case_bool_decide as E.
  - rewrite E. apply Z.eqb_eq. f_equal.
  - apply Z.eqb_neq. Z.div_mod_to_equations. lia.
Qed.

Lemma pipe_empty_spec p q : pipe_queue p q → pipe_empty p = bool_decide (q = []).
Proof.
  intros (_ & Hq & Hr & Hw & _). unfold pipe_empty. rewrite Hw.
  unfold u32, PIPESIZE, is_u32 in *. case_bool_decide as E.
  - subst q. rewrite Z.add_0_r, Z.mod_small by lia. apply Z.eqb_refl.
  - apply Z.eqb_neq. destruct q as [|c q]; [done|]. simpl in *. Z.div_mod_to_equations. lia.
Qed.

Lemma push_queue p q c :
  pipe_queue p q → Z.of_nat (length q) < PIPESIZE → pipe_queue (push c p) (q ++ [c]).
Proof.
  intros (Hd & Hq & Hr & Hw & Hdata) Hlt. unfold push. split_and!; simpl.
  - by rewrite length_insert.
  - rewrite length_app. simpl. lia.
  - done.
  - rewrite length_app, Hw, u32_add_l. simpl. f_equal. lia.
  - intros i x Hi. rewrite Hw, u32_mod_pipesize.
    apply lookup_snoc_Some in Hi as [[Hi Hx]|[-> ->]].
    + rewrite list_lookup_insert_ne; [by apply Hdata|].
      unfold PIPESIZE in *. Z.div_mod_to_equations. lia.
    + rewrite list_lookup_insert_eq; [done|]. rewrite Hd. unfold PIPESIZE.
      Z.div_mod_to_equations. lia.
Qed.

Lemma pop_queue p c q :
  pipe_queue p (c :: q) → ∃ p', pop p = (c, p') ∧ pipe_queue p' q ∧
    readopen p' = readopen p ∧ writeopen p' = writeopen p.
Proof.
  intros (Hd & Hq & Hr & Hw & Hdata). unfold pop. eexists. split; [|split].
  - f_equal. specialize (Hdata 0%nat c eq_refl). rewrite Z.add_0_r in Hdata. by rewrite Hdata.
  - split_and!; simpl in *; [done|lia|apply u32_range| |].
    + rewrite Hw, u32_add_l. f_equal. lia.
    + intros i x Hi. specialize (Hdata (S i) x Hi).
      rewrite <-Z.add_mod_idemp_l by done. rewrite u32_mod_pipesize.
      rewrite Z.add_mod_idemp_l by done. rewrite <-Hdata. do 3 f_equal. lia.
  - done.
Qed.

(** The write loop appends a prefix of its bytes, and stops short only when the
    queue is full. *)
Lemma write_loop_queue rest : ∀ p q p' rest',
  pipe_queue p q → write_loop p rest = (p', rest') →
  ∃ w, rest = w ++ rest' ∧ pipe_queue p' (q ++ w) ∧
       (rest' ≠ [] → length (q ++ w) = Z.to_nat PIPESIZE) ∧
       readopen p' = readopen p ∧ writeopen p' = writeopen p.
Proof.
  induction rest as [|c rest IH]; intros p q p' rest' Hq Hw; simpl in Hw.
  { simplify_eq. exists []. rewrite (app_nil_r q). by split_and!. }
  rewrite (pipe_full_spec _ _ Hq) in Hw. case_bool_decide as Hf; simplify_eq.
  { exists []. rewrite (app_nil_r q). by split_and!. }
  assert (Hlt : Z.of_nat (length q) < PIPESIZE).
  { destruct Hq as (_ & Hle & _). unfold PIPESIZE in *. lia. }
  destruct (IH _ (q ++ [c]) _ _ (push_queue _ _ c Hq Hlt) Hw) as (w & -> & Hq' & Hfull & Hro & Hwo).
  exists (c :: w). rewrite <-app_assoc in Hq', Hfull. by split_and!.
Qed.

(** A full ring takes no byte. *)
Lemma write_loop_full p q rest :
  pipe_queue p q → length q = Z.to_nat PIPESIZE → write_loop p rest = (p, rest).
Proof.
  intros Hq Hl. destruct rest; [done|]. simpl. by rewrite (pipe_full_spec _ _ Hq), bool_decide_true.
Qed.

(** The read loop takes the oldest bytes: as many as asked for, or all. *)
Lemma read_loop_queue n : ∀ p q p' out,
  pipe_queue p q → read_loop p n = (p', out) →
  ∃ q', q = out ++ q' ∧ pipe_queue p' q' ∧ length out = (n `min` length q)%nat ∧
        readopen p' = readopen p ∧ writeopen p' = writeopen p.
Proof.
  induction n as [|n IH]; intros p q p' out Hq Hr; cbn [read_loop] in Hr.
  { simplify_eq. by exists q. }
  rewrite (pipe_empty_spec _ _ Hq) in Hr. case_bool_decide as He; simplify_eq.
  { by exists []. }
  destruct q as [|c q]; [done|]. destruct (pop_queue _ _ _ Hq) as (p1 & Hpop & Hq1 & Hro & Hwo).
  rewrite Hpop in Hr. destruct (read_loop p1 n) as [p2 out'] eqn:E. simplify_eq.
  destruct (IH _ _ _ _ Hq1 E) as (q' & -> & Hq' & Hlen & Hro' & Hwo').
  exists q'. split_and!; [done|done|simpl in *; lia|congruence|congruence].
Qed.

(** ** What the sections do *)

(** The effect of a section on the kernel: new contents for pipe [a], a change
    of the table, and the locks held. *)
Definition pipe_update (a : Z) (p : pipe) (f : list proc → list proc) (ls : list lockid)
    (s : kernel) : kernel :=
  (with_table f s) <| pipes ::= <[a := p]> |> <| held := ls |>.

Lemma is_killed_eq s i pr :
  runs s i → ptable (kproc s) !! i = Some pr → is_killed s = Ok (negb (killed pr =? 0)) s.
Proof.
  intros Hr Hp. unfold is_killed. rewrite (bind_ok _ _ _ _ _ (curproc_runs _ _ Hr)).
  unfold getp. rewrite (bind_ok (gets _) _ _ _ _ eq_refl). by rewrite Hp.
Qed.

(** [pipewrite_from]: all written; or full and failing; or full and asleep. *)
Lemma pipewrite_from_eq s a rest n i pr p p' rest' :
  held s = [LkPipe a] → runs s i → ptable (kproc s) !! i = Some pr → pipes s !! a = Some p →
  write_loop p rest = (p', rest') →
  pipewrite_from a rest n s =
  match rest' with
  | [] => Ok n (pipe_update a p' (woken (ChPipeRead a)) [] s)
  | _ :: _ =>
      if (readopen p' =? 0) || negb (killed pr =? 0)
      then Ok (-1) (pipe_update a p' id [] s)
      else Sleep (AtSleep (ChPipeWrite a) (LkPipe a) (ticks (kproc s)))
             (pipe_update a p' (λ l, alter (put_to_sleep (ChPipeWrite a)) i (woken (ChPipeRead a) l))
                [LkPtable] s)
  end.
Proof.
  intros Hh Hr Hi Hp Hw. unfold pipewrite_from, getpipe.
  rewrite (bind_ok (gets _) _ _ _ _ eq_refl), Hp. change (default pipe0 (Some p)) with p. rewrite Hw.
  rewrite (bind_ok (setpipe _ _) _ _ _ _ eq_refl).
  set (s1 := s <| pipes ::= <[a := p']> |>).
  assert (Hl : can_lock LkPtable s1) by (unfold can_lock; simpl; rewrite Hh; set_solver).
  assert (Hrel : ∀ f, release (LkPipe a) (with_table f s1) = Ok tt (pipe_update a p' f [] s)).
  { intros f. by rewrite (release_cons _ []); [|done|apply not_elem_of_nil]. }
  destruct rest' as [|c rest'].
  - rewrite (bind_ok _ _ _ _ _ (wakeup_eq _ _ Hl)). by rewrite (bind_ok _ _ _ _ _ (Hrel _)).
  - assert (Hs1 : s1 = with_table id s1) by (by destruct s as [? ? []]).
    assert (Hk : (if readopen p' =? 0 then ret true else is_killed) s1 =
                 Ok ((readopen p' =? 0) || negb (killed pr =? 0)) s1).
    { destruct (readopen p' =? 0); [done|]. by apply (is_killed_eq s1 i pr). }
    rewrite (bind_ok _ _ _ _ _ Hk). destruct (_ || _).
    + rewrite Hs1. by rewrite (bind_ok _ _ _ _ _ (Hrel _)).
    + rewrite (bind_ok _ _ _ _ _ (wakeup_eq _ _ Hl)).
      erewrite sleep_eq; [done|done|exact Hr|]. simpl. by rewrite list_lookup_fmap, Hi.
Qed.

Lemma piperead_from_eq s a n i pr p :
  held s = [LkPipe a] → runs s i → ptable (kproc s) !! i = Some pr → pipes s !! a = Some p →
  piperead_from a n s =
  if pipe_empty p && negb (writeopen p =? 0) then
    if negb (killed pr =? 0) then Ok (-1, []) (s <| held := [] |>)
    else Sleep (AtSleep (ChPipeRead a) (LkPipe a) (ticks (kproc s)))
           (with_table (alter (put_to_sleep (ChPipeRead a)) i) s <| held := [LkPtable] |>)
  else
    let '(p', out) := read_loop p (Z.to_nat n) in
    Ok (Z.of_nat (length out), out) (pipe_update a p' (woken (ChPipeWrite a)) [] s).
Proof.
  intros Hh Hr Hi Hp. unfold piperead_from, getpipe.
  rewrite (bind_ok (gets _) _ _ _ _ eq_refl), Hp. change (default pipe0 (Some p)) with p.
  destruct (pipe_empty p && _).
  - rewrite (bind_ok _ _ _ _ _ (is_killed_eq _ _ _ Hr Hi)). destruct (negb _).
    + by rewrite (bind_ok _ _ _ _ _ (release_cons _ [] s Hh ltac:(apply not_elem_of_nil))).
    + by erewrite sleep_eq.
  - destruct (read_loop p (Z.to_nat n)) as [p' out].
    rewrite (bind_ok (setpipe _ _) _ _ _ _ eq_refl).
    set (s1 := s <| pipes ::= <[a := p']> |>).
    assert (Hl : can_lock LkPtable s1) by (unfold can_lock; simpl; rewrite Hh; set_solver).
    rewrite (bind_ok _ _ _ _ _ (wakeup_eq _ _ Hl)).
    erewrite (bind_ok (release _)) by (by apply (release_cons _ []); [|apply not_elem_of_nil]).
    done.
Qed.

(** ** All uses of one pipe *)

(** The kernel, with the bytes that have gone into pipe [a] and come out of it,
    and whether some [pipewrite] has failed. *)
Record pst := mkpst { pk : kernel; pW : list Z; pR : list Z; pfail : bool }.

(** The bytes one section of [pipewrite] puts into the ring. *)
Definition written (p : pipe) (rest : list Z) : list Z :=
  take (length rest - length (write_loop p rest).2) rest.

Inductive pipe_step (a : Z) : pst → pst → Prop :=
| ps_write c i ls e k W R b p rest n r k' :
    runs_on c i k → pipes k !! a = Some p → entry (LkPipe a) i ls e → 0 ≤ n →
    (e ;; pipewrite_from a rest n) (on c ls k) = Ok r k' →
    pipe_step a (mkpst k W R b) (mkpst k' (W ++ written p rest) R (b || (r =? -1)))
| ps_write_sleep c i ls e k W R b p rest n pt k' :
    runs_on c i k → pipes k !! a = Some p → entry (LkPipe a) i ls e →
    (e ;; pipewrite_from a rest n) (on c ls k) = Sleep pt k' →
    pipe_step a (mkpst k W R b) (mkpst k' (W ++ written p rest) R b)
| ps_read c i ls e k W R b p n r out k' :
    runs_on c i k → pipes k !! a = Some p → entry (LkPipe a) i ls e →
    (e ;; piperead_from a n) (on c ls k) = Ok (r, out) k' →
    pipe_step a (mkpst k W R b) (mkpst k' W (R ++ out) b)
| ps_read_sleep c i ls e k W R b p n pt k' :
    runs_on c i k → pipes k !! a = Some p → entry (LkPipe a) i ls e →
    (e ;; piperead_from a n) (on c ls k) = Sleep pt k' →
    pipe_step a (mkpst k W R b) (mkpst k' W R b)
| ps_close c i k W R b p wr k' :
    runs_on c i k → pipes k !! a = Some p →
    pipeclose a wr (on c [] k) = Ok tt k' →
    pipe_step a (mkpst k W R b) (mkpst k' W R b)
| ps_other k k' W R b :
    pipes k' !! a = pipes k !! a →
    (∀ j ch, ch = ChPipeRead a ∨ ch = ChPipeWrite a → sleeps k' j ch → sleeps k j ch) →
    pipe_step a (mkpst k W R b) (mkpst k' W R b).

(** What holds of the pipe at the end of every section. *)
Definition pipe_ok (a : Z) (k : kernel) (p : pipe) (q W R : list Z) (b : bool) : Prop :=
  pipe_queue p q ∧ W = R ++ q ∧
  (∀ j, sleeps k j (ChPipeWrite a) → length q = Z.to_nat PIPESIZE ∧ readopen p ≠ 0) ∧
  (b = false → ∀ j, sleeps k j (ChPipeRead a) → q = [] ∧ writeopen p ≠ 0).

Definition pipe_inv (a : Z) (σ : pst) : Prop :=
  ∀ p, pipes (pk σ) !! a = Some p → ∃ q, pipe_ok a (pk σ) p q (pW σ) (pR σ) (pfail σ).

Lemma entered_pipe a i k s :
  entered (LkPipe a) i k s →
  held s = [LkPipe a] ∧ runs s i ∧ is_Some (ptable (kproc s) !! i) ∧ pipes s = pipes k ∧
  ∀ j ch, sleeps s j ch → sleeps k j ch.
Proof. by intros ((c & f & ->) & Hr & _ & Hi & Hsl). Qed.

Lemma pipe_write_inv a i k s W R b p rest n r k' :
  pipe_inv a (mkpst k W R b) → pipes k !! a = Some p → entered (LkPipe a) i k s → 0 ≤ n →
  pipewrite_from a rest n s = Ok r k' →
  pipe_inv a (mkpst k' (W ++ written p rest) R (b || (r =? -1))).
Proof.
  intros Hinv Hp (Hh & Hr & [pr Hi] & Hpipes & Hsl)%entered_pipe Hn H.
  destruct (Hinv p Hp) as (q & Hq & HW & Hws & Hrs). simpl in HW, Hws, Hrs.
  unfold written. destruct (write_loop p rest) as [p' rest'] eqn:E. simpl.
  destruct (write_loop_queue _ _ _ _ _ Hq E) as (w & -> & Hq' & Hfull & Hro & Hwo).
  erewrite pipewrite_from_eq in H by (done || by rewrite Hpipes).
  replace (take _ (w ++ rest')) with w
    by (rewrite length_app; replace (_ - _)%nat with (length w) by lia; by rewrite take_app_length).
  assert (HW' : W ++ w = R ++ q ++ w) by (by rewrite HW, app_assoc).
  assert (Hwfull : ∀ j, sleeps s j (ChPipeWrite a) → w = [] ∧ length q = Z.to_nat PIPESIZE ∧ readopen p ≠ 0).
  { intros j Hj. destruct (Hws j (Hsl _ _ Hj)) as [Hl Hro']. split; [|done].
    rewrite (write_loop_full _ _ _ Hq Hl) in E. injection E as _ E.
    destruct w as [|x w]; [done|]. apply (f_equal length) in E.
    rewrite length_app in E. simpl in E. lia. }
  destruct rest' as [|x rest'].
  - injection H as <- <-. intros p1 Hp1. simpl in Hp1. rewrite lookup_insert_eq in Hp1. simplify_eq.
    exists (q ++ w). split_and!; [done..| |].
    + intros j Hj. simpl in Hj. apply (sleeps_woken s _ j (ChPipeRead a)) in Hj as [Hj _]; [|done].
      destruct (Hwfull j Hj) as (-> & ? & ?). by rewrite app_nil_r, Hro.
    + intros _ j Hj. simpl in Hj. apply (sleeps_woken s _ j (ChPipeRead a)) in Hj as [_ Hj]; [|done]. done.
  - destruct (_ || _); [|done]. injection H as <- <-. intros p1 Hp1. simpl in Hp1.
    rewrite lookup_insert_eq in Hp1. simplify_eq. exists (q ++ w). split_and!; [done..| |].
    + intros j (pr' & Hj). simpl in Hj. destruct (Hwfull j) as (-> & ? & ?); [by exists pr'|].
      by rewrite app_nil_r, Hro.
    + simpl. by rewrite orb_true_r.
Qed.

Lemma pipe_write_sleep_inv a i k s W R b p rest n pt k' :
  pipe_inv a (mkpst k W R b) → pipes k !! a = Some p → entered (LkPipe a) i k s →
  pipewrite_from a rest n s = Sleep pt k' →
  pipe_inv a (mkpst k' (W ++ written p rest) R b).
Proof.
  intros Hinv Hp (Hh & Hr & [pr Hi] & Hpipes & Hsl)%entered_pipe H.
  destruct (Hinv p Hp) as (q & Hq & HW & Hws & Hrs). simpl in HW, Hws, Hrs.
  unfold written. destruct (write_loop p rest) as [p' rest'] eqn:E. simpl.
  destruct (write_loop_queue _ _ _ _ _ Hq E) as (w & -> & Hq' & Hfull & Hro & Hwo).
  erewrite pipewrite_from_eq in H by (done || by rewrite Hpipes).
  replace (take _ (w ++ rest')) with w
    by (rewrite length_app; replace (_ - _)%nat with (length w) by lia; by rewrite take_app_length).
  destruct rest' as [|x rest']; [done|].
  destruct (_ || _) eqn:Eb; [done|]. injection H as _ <-. intros p1 Hp1. simpl in Hp1.
  rewrite lookup_insert_eq in Hp1. simplify_eq. apply orb_false_iff in Eb as [Eb _].
  exists (q ++ w). split_and!; [done|by rewrite app_assoc| |].
  - intros j _. split; [by apply Hfull|lia].
  - intros _ j Hj. simpl in Hj.
    apply (sleeps_alter (with_table (woken (ChPipeRead a)) s) _ i j (ChPipeWrite a)) in Hj as [Hj|[_ ?]]; [|done|done].
    by apply (sleeps_woken s _ j (ChPipeRead a)) in Hj as [_ Hj].
Qed.

Lemma pipe_read_inv a i k s W R b p n r out k' :
  pipe_inv a (mkpst k W R b) → pipes k !! a = Some p → entered (LkPipe a) i k s →
  piperead_from a n s = Ok (r, out) k' →
  pipe_inv a (mkpst k' W (R ++ out) b).
Proof.
  intros Hinv Hp (Hh & Hr & [pr Hi] & Hpipes & Hsl)%entered_pipe H.
  destruct (Hinv p Hp) as (q & Hq & HW & Hws & Hrs). simpl in HW, Hws, Hrs.
  erewrite piperead_from_eq in H by (done || by rewrite Hpipes).
  destruct (pipe_empty p && _) eqn:Ee.
  - destruct (negb (killed pr =? 0)); [|done]. injection H as <- <- <-. rewrite app_nil_r.
    intros p1 Hp1. simpl in Hp1. rewrite Hpipes, Hp in Hp1. injection Hp1 as <-. exists q.
    split_and!; [done..| |].
    + intros j Hj. by apply (Hws j), Hsl.
    + intros Hb j Hj. by apply (Hrs Hb j), Hsl.
  - destruct (read_loop p (Z.to_nat n)) as [p' o] eqn:E. injection H as <- <- <-.
    destruct (read_loop_queue _ _ _ _ _ Hq E) as (q' & -> & Hq' & Hlen & Hro & Hwo).
    intros p1 Hp1. simpl in Hp1. rewrite lookup_insert_eq in Hp1. simplify_eq.
    exists q'. split_and!; [done|by simpl; rewrite <-app_assoc| |].
    + intros j Hj. simpl in Hj. apply (sleeps_woken s _ j (ChPipeWrite a)) in Hj as [_ Hj]; [|done]. done.
    + intros Hb j Hj. simpl in Hj, Hb. apply (sleeps_woken s _ j (ChPipeWrite a)) in Hj as [Hj _]; [|done].
      destruct (Hrs Hb j (Hsl _ _ Hj)) as [[-> ->]%app_eq_nil Hwr]. by rewrite Hwo.
Qed.

Lemma pipe_read_sleep_inv a i k s W R b p n pt k' :
  pipe_inv a (mkpst k W R b) → pipes k !! a = Some p → entered (LkPipe a) i k s →
  piperead_from a n s = Sleep pt k' →
  pipe_inv a (mkpst k' W R b).
Proof.
  intros Hinv Hp (Hh & Hr & [pr Hi] & Hpipes & Hsl)%entered_pipe H.
  destruct (Hinv p Hp) as (q & Hq & HW & Hws & Hrs). simpl in HW, Hws, Hrs.
  erewrite piperead_from_eq in H by (done || by rewrite Hpipes).
  destruct (pipe_empty p && _) eqn:Ee; [|by destruct (read_loop _ _)].
  destruct (negb (killed pr =? 0)); [done|]. injection H as _ <-.
  apply andb_true_iff in Ee as [Ee Ew]. rewrite (pipe_empty_spec _ _ Hq) in Ee.
  apply bool_decide_eq_true in Ee as ->.
  intros p1 Hp1. simpl in Hp1. rewrite Hpipes, Hp in Hp1. injection Hp1 as <-. exists [].
  split_and!; [done..| |].
  - intros j Hj. simpl in Hj. apply (sleeps_alter s _ i j (ChPipeRead a)) in Hj as [Hj|[_ ?]]; [|done|done].
    by apply (Hws j), Hsl.
  - intros _ j _. split; [done|]. lia.
Qed.

Definition closed (wr : bool) (p : pipe) : pipe :=
  if wr then p <| writeopen := 0 |> else p <| readopen := 0 |>.
Definition other_end (a : Z) (wr : bool) : wchan := if wr then ChPipeRead a else ChPipeWrite a.

(** Closing an end wakes the other; the last close frees the page. *)
Lemma pipeclose_ok s a wr p s' :
  held s = [] → pipes s !! a = Some p → pipeclose a wr s = Ok tt s' →
  if (readopen (closed wr p) =? 0) && (writeopen (closed wr p) =? 0) then pipes s' !! a = None
  else s' = pipe_update a (closed wr p) (woken (other_end a wr)) [] s.
Proof.
  intros Hh Hp H. unfold pipeclose, getpipe in H.
  rewrite (bind_ok _ _ _ _ _ (acquire_free _ _ Hh)) in H.
  rewrite (bind_ok (gets _) _ _ _ _ eq_refl) in H. simpl in H. rewrite Hp in H. simpl in H.
  set (s1 := pipe_update a (closed wr p) (woken (other_end a wr)) [LkPipe a] s).
  rewrite (bind_ok _ _ _ tt s1) in H.
  - rewrite (bind_ok (gets _) _ _ _ _ eq_refl) in H. simpl in H. rewrite lookup_insert_eq in H.
    simpl in H. destruct (_ && _).
    + erewrite (bind_ok (release _)) in H by (by apply (release_cons _ []); [|apply not_elem_of_nil]).
      rewrite (bind_ok (modify_state _) _ _ _ _ eq_refl) in H.
      apply kmem_frame_inv in H as (fr & b & ->); [|exact _]. simpl. by rewrite lookup_delete_eq.
    + rewrite (release_cons _ []) in H by (done || apply not_elem_of_nil). by injection H as <-.
  - destruct wr; rewrite (bind_ok (setpipe _ _) _ _ _ _ eq_refl), wakeup_eq;
      try done; unfold can_lock; simpl; set_solver.
Qed.

Lemma pipe_close_inv a c i k W R b p wr k' :
  pipe_inv a (mkpst k W R b) → runs_on c i k → pipes k !! a = Some p →
  pipeclose a wr (on c [] k) = Ok tt k' → pipe_inv a (mkpst k' W R b).
Proof.
  intros Hinv _ Hp H. destruct (Hinv p Hp) as (q & Hq & HW & Hws & Hrs). simpl in HW, Hws, Hrs.
  apply pipeclose_ok with (p := p) in H; [|done..]. destruct (_ && _).
  { intros p1 Hp1. simpl in Hp1. congruence. }
  subst k'. intros p1 Hp1. simpl in Hp1. rewrite lookup_insert_eq in Hp1. injection Hp1 as <-.
  exists q. split_and!; [by destruct wr|done|..].
  - intros j Hj. simpl in Hj. apply (sleeps_woken k _ j (other_end a wr)) in Hj as [Hj Hne]; [|done].
    destruct wr; [by apply Hws in Hj|done].
  - intros Hb j Hj. simpl in Hj. apply (sleeps_woken k _ j (other_end a wr)) in Hj as [Hj Hne]; [|done].
    destruct wr; [done|by apply Hrs in Hj].
Qed.

Lemma pipe_step_inv a σ σ' : pipe_inv a σ → pipe_step a σ σ' → pipe_inv a σ'.
Proof.
  intros Hinv Hstep.
  destruct Hstep as [c i ls e k W R b p rest n r k' Hr Hp He Hn H
                    |c i ls e k W R b p rest n pt k' Hr Hp He H
                    |c i ls e k W R b p n r out k' Hr Hp He H
                    |c i ls e k W R b p n pt k' Hr Hp He H
                    |c i k W R b p wr k' Hr Hp H|k k' W R b Hp Hsl].
  - destruct (entry_ok_then (LkPipe a) _ _ _ _ _ _ _ _ ltac:(done) Hr He H) as (s & Hs & Hm).
    by eapply pipe_write_inv.
  - destruct (entry_sleep_then (LkPipe a) _ _ _ _ _ _ _ _ ltac:(done) Hr He H) as (s & Hs & Hm).
    by eapply pipe_write_sleep_inv.
  - destruct (entry_ok_then (LkPipe a) _ _ _ _ _ _ _ _ ltac:(done) Hr He H) as (s & Hs & Hm).
    by eapply pipe_read_inv.
  - destruct (entry_sleep_then (LkPipe a) _ _ _ _ _ _ _ _ ltac:(done) Hr He H) as (s & Hs & Hm).
    by eapply pipe_read_sleep_inv.
  - by eapply pipe_close_inv.
  - intros p1 Hp1. simpl in Hp1. rewrite Hp in Hp1.
    destruct (Hinv p1 Hp1) as (q & Hq & HW & Hws & Hrs). exists q. split_and!; [done..| |].
    + intros j Hj. apply (Hws j), Hsl; [by right|done].
    + intros Hb j Hj. apply (Hrs Hb j), Hsl; [by left|done].
Qed.

(** A pipe [pipealloc] has just made: empty, both ends open, nobody asleep on
    it. *)
Definition fresh_pipe (a : Z) (σ : pst) : Prop :=
  pW σ = [] ∧ pR σ = [] ∧ pfail σ = false ∧
  (∃ p, pipes (pk σ) !! a = Some p ∧ length (pdata p) = Z.to_nat PIPESIZE ∧
        nread p = 0 ∧ nwrite p = 0) ∧
  (∀ j ch, ch = ChPipeRead a ∨ ch = ChPipeWrite a → ¬ sleeps (pk σ) j ch).

Lemma fresh_pipe_inv a σ : fresh_pipe a σ → pipe_inv a σ.
Proof.
  intros (HW & HR & Hb & (p & Hp & Hlen & Hnr & Hnw) & Hsl) p1 Hp1. simplify_eq. exists [].
  split_and!.
  - unfold pipe_queue. rewrite Hnr, Hnw. split_and!; done.
  - by rewrite HW, HR.
  - intros j Hj. by destruct (Hsl j (ChPipeWrite a)); [right|].
  - intros _ j Hj. by destruct (Hsl j (ChPipeRead a)); [left|].
Qed.

Lemma pipe_reachable a σ0 σ : fresh_pipe a σ0 → star (pipe_step a) σ0 σ → pipe_inv a σ.
Proof.
  intros Hf Hs. eapply (star_inv (pipe_step a) (pipe_inv a));
    [by apply fresh_pipe_inv|apply pipe_step_inv|done].
Qed.

(** ** Properties *)

(** [C25] A pipe is a first-in first-out queue.  However the writers, readers and
    closers of a pipe interleave, sleep and wake, the bytes read so far are
    exactly the first of the bytes written so far, in order, and the rest of
    them, at most [PIPESIZE], are what the ring holds, also after the 32-bit
    counters have wrapped around. *)
Theorem pipe_fifo a σ0 σ p :
  fresh_pipe a σ0 → star (pipe_step a) σ0 σ → pipes (pk σ) !! a = Some p →
  ∃ q, pW σ = pR σ ++ q ∧ pipe_queue p q ∧ Z.of_nat (length q) ≤ PIPESIZE ∧
       nwrite p = u32 (nread p + Z.of_nat (length q)).
Proof.
  intros Hf Hs Hp. destruct (pipe_reachable _ _ _ Hf Hs p Hp) as (q & Hq & HW & _).
  exists q. split_and!; [done|done|apply Hq|apply Hq].
Qed.

(** [C26] Nobody sleeps on a pipe without a reason: a process asleep in
    [pipewrite] has a full ring and an open read end before it, and, as long as
    no [pipewrite] has failed, a process asleep in [piperead] has an empty ring
    and an open write end before it.  So no wake-up is missed. *)
Theorem pipe_sleepers a σ0 σ p j :
  fresh_pipe a σ0 → star (pipe_step a) σ0 σ → pipes (pk σ) !! a = Some p →
  (sleeps (pk σ) j (ChPipeWrite a) → pipe_full p = true ∧ readopen p ≠ 0) ∧
  (pfail σ = false → sleeps (pk σ) j (ChPipeRead a) → pipe_empty p = true ∧ writeopen p ≠ 0).
Proof.
  intros Hf Hs Hp. destruct (pipe_reachable _ _ _ Hf Hs p Hp) as (q & Hq & _ & Hws & Hrs). split.
  - intros Hj. destruct (Hws j Hj) as [Hl Hro]. rewrite (pipe_full_spec _ _ Hq).
    by rewrite bool_decide_true.
  - intros Hb Hj. destruct (Hrs Hb j Hj) as [-> Hwo]. by rewrite (pipe_empty_spec _ _ Hq).
Qed.

(** A [pipewrite] that fails loses a wake-up.  When the writer has been
    killed and its bytes do not fit, it fills the ring and returns -1 without a
    [wakeup]: a reader that slept on the empty pipe still sleeps although the
    ring is full. *)
Theorem killed_writer_wakes_nobody s a src n i pr p j :
  held s = [] → runs s i → ptable (kproc s) !! i = Some pr → killed pr ≠ 0 →
  pipes s !! a = Some p → pipe_queue p [] → (Z.to_nat PIPESIZE < length src)%nat →
  sleeps s j (ChPipeRead a) →
  ∃ s' p', pipewrite a src n s = Ok (-1) s' ∧ pipes s' !! a = Some p' ∧ pipe_full p' = true ∧
           sleeps s' j (ChPipeRead a).
Proof.
  intros Hh Hr Hi Hk Hp Hq Hlen Hj. unfold pipewrite.
  rewrite (bind_ok _ _ _ _ _ (acquire_free _ _ Hh)).
  destruct (write_loop p src) as [p' rest'] eqn:E.
  destruct (write_loop_queue _ _ _ _ _ Hq E) as (w & -> & Hq' & Hfull & _).
  assert (Hne : rest' ≠ []).
  { intros ->. rewrite app_nil_r in Hlen. destruct Hq' as (_ & Hle & _).
    rewrite app_nil_l in Hle. unfold PIPESIZE in *. lia. }
  erewrite (pipewrite_from_eq _ a _ n i pr p); [|done..].
  destruct rest' as [|x rest']; [done|].
  rewrite (proj2 (Z.eqb_neq _ _) Hk), orb_true_r. eexists _, p'. split; [done|].
  split; [by simpl; rewrite lookup_insert_eq|]. split.
  - rewrite (pipe_full_spec _ _ Hq'), bool_decide_true; [done|]. by apply Hfull.
  - destruct Hj as (q & ? & ?). by exists q.
Qed.

(** ** Witnesses *)

(** Process 0 runs on the first processor and process 1 on the second; the pipe
    at page 4096 is new. *)
Definition pipe_table : list proc :=
  [ proc0 <| state := RUNNING |> <| pid := 1 |>; proc0 <| state := RUNNING |> <| pid := 2 |> ].
Definition pipe_kernel (tab : list proc) (p : pipe) : kernel :=
  kernel0 <| kproc ::= λ k, k <| ptable := tab |> |>
          <| kcpu ::= λ c, c <| cpu_proc := [Some 0%nat; Some 1%nat] |> |>
          <| pipes := {[PGSIZE := p]} |>.
Definition new_pipe : pipe := mkpipe (replicate (Z.to_nat PIPESIZE) 0) 0 0 1 1.

(** Process 1 reads and sleeps; then process 0 writes two bytes. *)
Definition pipe_k0 : kernel := pipe_kernel pipe_table new_pipe.
Definition pipe_k1 : kernel :=
  after (acquire (LkPipe PGSIZE) ;; piperead_from PGSIZE 4) (on 1 [] pipe_k0).
Definition pipe_k2 : kernel :=
  after (acquire (LkPipe PGSIZE) ;; pipewrite_from PGSIZE [7; 8] 2) (on 0 [] pipe_k1).

Lemma pipe_k0_fresh : fresh_pipe PGSIZE (mkpst pipe_k0 [] [] false).
Proof.
  split_and!; try done.
  - exists new_pipe. split_and!; vm_compute; reflexivity.
  - intros [|[|j]] ch _ (pr & Hj & Hs & Hc); by simplify_eq/=.
Qed.

Lemma pipe_step1 :
  pipe_step PGSIZE (mkpst pipe_k0 [] [] false) (mkpst pipe_k1 [] [] false).
Proof.
  refine (ps_read_sleep PGSIZE 1 1 [] _ pipe_k0 [] [] false new_pipe 4
            (AtSleep (ChPipeRead PGSIZE) (LkPipe PGSIZE) 0) pipe_k1 _ _ (en_call _ _) _);
    [|evaluate..].
  split; [evaluate|]. eexists. split; vm_compute; reflexivity.
Qed.

Lemma pipe_step2 :
  pipe_step PGSIZE (mkpst pipe_k1 [] [] false) (mkpst pipe_k2 [7; 8] [] false).
Proof.
  refine (ps_write PGSIZE 0 0 [] _ pipe_k1 [] [] false new_pipe [7; 8] 2 2 pipe_k2
            _ _ (en_call _ _) _ _); [|evaluate|lia|evaluate].
  split; [evaluate|]. eexists. split; vm_compute; reflexivity.
Qed.

Lemma pipe_fifo_witness :
  ∃ p q, pipes pipe_k2 !! PGSIZE = Some p ∧ [7; 8] = [] ++ q ∧ pipe_queue p q.
Proof.
  set (p := default pipe0 (pipes pipe_k2 !! PGSIZE)).
  destruct (pipe_fifo PGSIZE (mkpst pipe_k0 [] [] false) (mkpst pipe_k2 [7; 8] [] false) p)
    as (q & H1 & H2 & _).
  - exact pipe_k0_fresh.
  - exact (star_snoc _ _ _ _ (star_snoc _ _ _ _ (star_refl _ _) pipe_step1) pipe_step2).
  - vm_compute. reflexivity.
  - exists p, q. split; [vm_compute; reflexivity|]. split; [exact H1|exact H2].
Defined.

Lemma pipe_sleepers_witness :
  sleeps pipe_k1 1 (ChPipeRead PGSIZE) ∧ pipe_empty new_pipe = true ∧ writeopen new_pipe ≠ 0.
Proof.
  assert (Hs : sleeps pipe_k1 1 (ChPipeRead PGSIZE))
    by (eexists; split_and!; vm_compute; reflexivity).
  split; [exact Hs|].
  destruct (pipe_sleepers PGSIZE (mkpst pipe_k0 [] [] false) (mkpst pipe_k1 [] [] false) new_pipe 1)
    as [_ H].
  - exact pipe_k0_fresh.
  - exact (star_snoc _ _ _ _ (star_refl _ _) pipe_step1).
  - vm_compute. reflexivity.
  - exact (H eq_refl Hs).
Defined.

(** A killed writer with 513 bytes, and a reader asleep on the empty pipe. *)
Definition killed_table : list proc :=
  [ proc0 <| state := RUNNING |> <| pid := 1 |> <| killed := 1 |>;
    proc0 <| state := SLEEPING |> <| pid := 2 |> <| chan := Some (ChPipeRead PGSIZE) |> ].

Lemma killed_writer_wakes_nobody_witness :
  ∃ s' p', pipewrite PGSIZE (replicate 513 5) 513 (pipe_kernel killed_table new_pipe) = Ok (-1) s' ∧
    pipes s' !! PGSIZE = Some p' ∧ pipe_full p' = true ∧ sleeps s' 1 (ChPipeRead PGSIZE).
Proof.
  apply (killed_writer_wakes_nobody (pipe_kernel killed_table new_pipe) PGSIZE (replicate 513 5) 513 0
           (default proc0 (killed_table !! 0%nat)) new_pipe 1).
  - reflexivity.
  - reflexivity.
  - reflexivity.
  - simpl. lia.
  - reflexivity.
  - split_and!; [reflexivity|vm_compute; discriminate|vm_compute; split; congruence|reflexivity|].
    intros i c Hc. rewrite lookup_nil in Hc. discriminate Hc.
  - rewrite length_replicate. vm_compute. lia.
  - eexists. split_and!; reflexivity.
Defined.
