(* ===== verification/Sleeplock.v ===== *)
(** * Sleep locks: sleeplock.c

    A sleep lock is a word [locked] and the pid of its holder, protected by a
    spin lock; who finds it taken sleeps.  The kernel has one in each buffer
    and in each inode.  [acquiresleep_from] is [acquiresleep] from the test of
    its loop on, where a process continues that has been woken. *)

From S2P Require Import Prelude Kernel Sched Proc Waiting.

(** ** Operations *)

(** The lock of an object, and an update of it. *)
Definition sl_of (o : slobj) (s : kernel) : sleeplock :=
  match o with
  | SlBuf i => b_lock (default buf0 (bnodes (kbio s) !! i))
  | SlInode i => i_lock (default inode0 (icache s !! i))
  end.

Definition set_sl (o : slobj) (l : sleeplock) (s : kernel) : kernel :=
  match o with
  | SlBuf i => s <| kbio ::= λ b, b <| bnodes ::= alter (λ x, x <| b_lock := l |>) i |> |>
  | SlInode i => s <| icache ::= alter (λ x, x <| i_lock := l |>) i |>
  end.

Definition initsleeplock (o : slobj) : KM unit := modify_state (set_sl o (mksl 0 0)).

Definition acquiresleep_from (o : slobj) : KM unit :=
  l ← gets (sl_of o);
  if negb (sl_locked l =? 0) then sleep (ChSleeplock o) (LkSleep o)
  else
    i ← curproc;
    p ← getp i;
    modify_state (set_sl o (mksl 1 (pid p))) ;;
    release (LkSleep o).

Definition acquiresleep (o : slobj) : KM unit :=
  acquire (LkSleep o) ;;
  acquiresleep_from o.

Definition releasesleep (o : slobj) : KM unit :=
  acquire (LkSleep o) ;;
  modify_state (set_sl o (mksl 0 0)) ;;
  wakeup (ChSleeplock o) ;;
  release (LkSleep o).

Definition holdingsleep (o : slobj) : KM bool :=
  acquire (LkSleep o) ;;
  l ← gets (sl_of o);
  r ← (if sl_locked l =? 0 then ret false
       else i ← curproc; p ← getp i; ret (sl_pid l =? pid p));
  release (LkSleep o) ;;
  ret r.

(** ** What they do *)

Definition sl_exists (o : slobj) (s : kernel) : Prop :=
  match o with
  | SlBuf i => is_Some (bnodes (kbio s) !! i)
  | SlInode i => is_Some (icache s !! i)
  end.

Lemma sl_of_set o l s : sl_exists o s → sl_of o (set_sl o l s) = l.
Proof.
  destruct o as [i|i]; intros [x Hx]; simpl in *; by rewrite list_lookup_alter_eq, Hx.
Qed.

Lemma set_sl_exists o l s : sl_exists o s → sl_exists o (set_sl o l s).
Proof.
  destruct o as [i|i]; intros [x Hx]; simpl in *; rewrite list_lookup_alter_eq, Hx; by eexists.
Qed.

(** The lock does not depend on the locks held, the processor or the table. *)
Lemma sl_of_table o f s : sl_of o (with_table f s) = sl_of o s.
Proof. by destruct o. Qed.
Lemma sl_of_held o ls s : sl_of o (s <| held := ls |>) = sl_of o s.
Proof. by destruct o. Qed.
Lemma sl_of_on o c ls s : sl_of o (on c ls s) = sl_of o s.
Proof. by destruct o. Qed.
Lemma sl_exists_on o c ls f s : sl_exists o s → sl_exists o (on c ls (with_table f s)).
Proof. by destruct o. Qed.

Lemma set_sl_kproc o l s : kproc (set_sl o l s) = kproc s.
Proof. by destruct o. Qed.
Lemma set_sl_held o l s : held (set_sl o l s) = held s.
Proof. by destruct o. Qed.
Lemma set_sl_kcpu o l s : kcpu (set_sl o l s) = kcpu s.
Proof. by destruct o. Qed.

Lemma getp_eq i p s : ptable (kproc s) !! i = Some p → getp i s = Ok p s.
Proof. intros H. unfold getp, gets. by rewrite H. Qed.

Lemma acquiresleep_from_eq o s i p :
  held s = [LkSleep o] → runs s i → ptable (kproc s) !! i = Some p →
  acquiresleep_from o s =
  if sl_locked (sl_of o s) =? 0 then Ok tt ((set_sl o (mksl 1 (pid p)) s) <| held := [] |>)
  else Sleep (AtSleep (ChSleeplock o) (LkSleep o) (ticks (kproc s)))
         (with_table (alter (put_to_sleep (ChSleeplock o)) i) s <| held := [LkPtable] |>).
Proof.
  intros Hh Hr Hp. unfold acquiresleep_from. rewrite (bind_ok (gets _) _ _ _ _ eq_refl).
  destruct (_ =? 0); simpl.
  - rewrite (bind_ok _ _ _ _ _ (curproc_runs _ _ Hr)), (bind_ok _ _ _ _ _ (getp_eq _ _ _ Hp)).
    rewrite (bind_ok (modify_state _) _ _ _ _ eq_refl), release_last; [done|].
    by rewrite set_sl_held.
  - by erewrite sleep_eq.
Qed.

Lemma acquiresleep_eq o s i p :
  held s = [] → runs s i → ptable (kproc s) !! i = Some p → sl_locked (sl_of o s) = 0 →
  acquiresleep o s = Ok tt (set_sl o (mksl 1 (pid p)) s).
Proof.
  intros Hh Hr Hp Hl. unfold acquiresleep. rewrite (bind_ok _ _ _ _ _ (acquire_free _ _ Hh)).
  erewrite acquiresleep_from_eq by done. rewrite sl_of_held, Hl. simpl.
  by destruct o, s; simpl in *; subst.
Qed.

Lemma releasesleep_eq o s :
  held s = [] →
  releasesleep o s = Ok tt (with_table (woken (ChSleeplock o)) (set_sl o (mksl 0 0) s)).
Proof.
  intros Hh. unfold releasesleep. rewrite (bind_ok _ _ _ _ _ (acquire_free _ _ Hh)).
  rewrite (bind_ok (modify_state _) _ _ _ _ eq_refl).
  erewrite (bind_ok (wakeup _)) by (apply wakeup_eq; unfold can_lock; rewrite set_sl_held; set_solver).
  rewrite release_last by (by destruct o). by destruct o, s; simpl in *; subst.
Qed.

Lemma holdingsleep_eq o s i p :
  held s = [] → runs s i → ptable (kproc s) !! i = Some p →
  holdingsleep o s = Ok (negb (sl_locked (sl_of o s) =? 0) && (sl_pid (sl_of o s) =? pid p)) s.
Proof.
  intros Hh Hr Hp. unfold holdingsleep. rewrite (bind_ok _ _ _ _ _ (acquire_free _ _ Hh)).
  set (s1 := s <| held := [LkSleep o] |>).
  rewrite (bind_ok (gets _) _ _ _ _ eq_refl). replace (sl_of o s1) with (sl_of o s) by (by destruct o).
  erewrite (bind_ok _ _ s1).
  - rewrite (bind_ok _ _ _ _ _ (release_last (LkSleep o) s1 eq_refl)). unfold ret, s1.
    by destruct s; simpl in *; subst.
  - destruct (_ =? 0); [done|].
    assert (Hr1 : runs s1 i) by exact Hr. assert (Hp1 : ptable (kproc s1) !! i = Some p) by exact Hp.
    by rewrite (bind_ok _ _ _ _ _ (curproc_runs _ _ Hr1)), (bind_ok _ _ _ _ _ (getp_eq _ _ _ Hp1)).
Qed.

(** ** One sleep lock, all its users *)

(** The kernel, and the processes between their [acquiresleep] and their
    [releasesleep]. *)
Record slst := mkslst { slk : kernel; crit : gset nat }.

Inductive sl_step (o : slobj) : slst → slst → Prop :=
| ss_acquire c i ls e k C k' :
    runs_on c i k → entry (LkSleep o) i ls e →
    (e ;; acquiresleep_from o) (on c ls k) = Ok tt k' →
    sl_step o (mkslst k C) (mkslst k' ({[i]} ∪ C))
| ss_acquire_sleep c i ls e k C pt k' :
    runs_on c i k → entry (LkSleep o) i ls e →
    (e ;; acquiresleep_from o) (on c ls k) = Sleep pt k' →
    sl_step o (mkslst k C) (mkslst k' C)
| ss_release c i k C k' :
    runs_on c i k → i ∈ C → releasesleep o (on c [] k) = Ok tt k' →
    sl_step o (mkslst k C) (mkslst k' (C ∖ {[i]}))
(** Anything that leaves the lock alone, puts nobody to sleep on it and does
    not take a process away that is inside. *)
| ss_other k k' C :
    sl_exists o k' → sl_of o k' = sl_of o k →
    (∀ j, sleeps k' j (ChSleeplock o) → sleeps k j (ChSleeplock o)) →
    (∀ j, j ∈ C → pid <$> ptable (kproc k') !! j = pid <$> ptable (kproc k) !! j) →
    sl_step o (mkslst k C) (mkslst k' C).

Definition sl_inv (o : slobj) (σ : slst) : Prop :=
  sl_exists o (slk σ) ∧
  (sl_locked (sl_of o (slk σ)) = 0 → crit σ = ∅ ∧ ∀ j, ¬ sleeps (slk σ) j (ChSleeplock o)) ∧
  (sl_locked (sl_of o (slk σ)) ≠ 0 →
   ∃ i, crit σ = {[i]} ∧
        pid <$> ptable (kproc (slk σ)) !! i = Some (sl_pid (sl_of o (slk σ)))).

(** What a section of [acquiresleep] finds. *)
Lemma entered_sl o i k s :
  entered (LkSleep o) i k s →
  held s = [LkSleep o] ∧ runs s i ∧ (∃ p, ptable (kproc s) !! i = Some p) ∧
  sl_of o s = sl_of o k ∧ (sl_exists o k → sl_exists o s) ∧
  (∀ j, pid <$> ptable (kproc s) !! j = pid <$> ptable (kproc k) !! j) ∧
  ∀ j ch, sleeps s j ch → sleeps k j ch.
Proof.
  intros ((c & f & ->) & Hr & Hpid & [p Hp] & Hsl). split_and!; try done.
  - by exists p.
  - intros j. by rewrite <-!list_lookup_fmap, Hpid.
Qed.

Lemma sl_acquire_inv o c i ls e k C k' :
  sl_inv o (mkslst k C) → runs_on c i k → entry (LkSleep o) i ls e →
  (e ;; acquiresleep_from o) (on c ls k) = Ok tt k' → sl_inv o (mkslst k' ({[i]} ∪ C)).
Proof.
  intros (Hex & Hfree & _) Hr He H. simpl in *.
  destruct (entry_ok_then (LkSleep o) _ _ _ _ _ _ _ _ ltac:(done) Hr He H)
    as (s & (Hh & Hr' & (p & Hp) & Hof & Hex' & Hpid & Hsl)%entered_sl & Hm).
  erewrite acquiresleep_from_eq in Hm by done. rewrite Hof in Hm.
  destruct (Z.eqb_spec (sl_locked (sl_of o k)) 0) as [Hl|]; [|done]. injection Hm as <-.
  destruct (Hfree Hl) as [-> _]. unfold sl_inv. cbn [slk crit].
  set (k' := mkkernel _ _ _ _ _ _ _ _ _ _ _ _ _).
  assert (sl_of o k' = mksl 1 (pid p)) as -> by exact (sl_of_set o _ s (Hex' Hex)).
  split_and!; [|done|].
  - destruct o; by apply (set_sl_exists _ _ _ (Hex' Hex)).
  - intros _. exists i. rewrite union_empty_r_L. split; [done|].
    assert (kproc k' = kproc s) as -> by exact (set_sl_kproc o _ s). by rewrite Hp.
Qed.

Lemma sl_acquire_sleep_inv o c i ls e k C pt k' :
  sl_inv o (mkslst k C) → runs_on c i k → entry (LkSleep o) i ls e →
  (e ;; acquiresleep_from o) (on c ls k) = Sleep pt k' → sl_inv o (mkslst k' C).
Proof.
  intros (Hex & _ & Hbusy) Hr He H. simpl in *.
  destruct (entry_sleep_then (LkSleep o) _ _ _ _ _ _ _ _ ltac:(done) Hr He H)
    as (s & (Hh & Hr' & (p & Hp) & Hof & Hex' & Hpid & Hsl)%entered_sl & Hm).
  erewrite acquiresleep_from_eq in Hm by done. rewrite Hof in Hm.
  destruct (Z.eqb_spec (sl_locked (sl_of o k)) 0) as [|Hl]; [done|]. injection Hm as _ <-.
  unfold sl_inv. cbn [slk crit]. set (k' := with_table _ _).
  assert (sl_of o k' = sl_of o k) as -> by exact Hof. split_and!; [|done|].
  - destruct o; by apply (Hex' Hex).
  - intros _. destruct (Hbusy Hl) as (j & HC & Hj). exists j. split; [done|].
    unfold k'. simpl. rewrite <-list_lookup_fmap, fmap_alter_same by done. by rewrite list_lookup_fmap, Hpid.
Qed.

Lemma sl_release_inv o c i k C k' :
  sl_inv o (mkslst k C) → i ∈ C → releasesleep o (on c [] k) = Ok tt k' →
  sl_inv o (mkslst k' (C ∖ {[i]})).
Proof.
  intros (Hex & Hfree & Hbusy) Hi H. simpl in *.
  rewrite releasesleep_eq in H by done. injection H as <-.
  assert (Hex' : sl_exists o (on c [] k)) by (by destruct o).
  unfold sl_inv. cbn [slk crit]. set (k' := with_table _ _).
  assert (sl_of o k' = mksl 0 0) as -> by exact (sl_of_set o _ _ Hex'). split_and!; [|intros _|done].
  - destruct o; by apply (set_sl_exists _ _ _ Hex').
  - split.
    + destruct (decide (sl_locked (sl_of o k) = 0)) as [Hl|Hl].
      * destruct (Hfree Hl) as [-> _]. set_solver.
      * destruct (Hbusy Hl) as (j & -> & _). set_solver.
    + intros j Hj. apply (sleeps_woken (set_sl o (mksl 0 0) (on c [] k)) _ j (ChSleeplock o)) in Hj as [_ Hj];
        done.
Qed.

Lemma sl_step_inv o σ σ' : sl_inv o σ → sl_step o σ σ' → sl_inv o σ'.
Proof.
  intros Hinv Hstep.
  destruct Hstep as [c i ls e k C k' Hr He H|c i ls e k C pt k' Hr He H|c i k C k' Hr Hi H
                    |k k' C Hex Hof Hsl Hpid].
  - by eapply sl_acquire_inv.
  - by eapply sl_acquire_sleep_inv.
  - by eapply sl_release_inv.
  - destruct Hinv as (_ & Hfree & Hbusy). unfold sl_inv. simpl in *. rewrite Hof. split_and!; [done| |].
    + intros Hl. destruct (Hfree Hl) as [-> Hns]. split; [done|]. intros j Hj. by apply (Hns j), Hsl.
    + intros Hl. destruct (Hbusy Hl) as (i & -> & Hi). exists i. split; [done|].
      by rewrite Hpid by set_solver.
Qed.

(** A lock just made by [initsleeplock], that nobody sleeps on. *)
Definition fresh_sl (o : slobj) (σ : slst) : Prop :=
  sl_exists o (slk σ) ∧ sl_locked (sl_of o (slk σ)) = 0 ∧ crit σ = ∅ ∧
  ∀ j, ¬ sleeps (slk σ) j (ChSleeplock o).

Lemma sl_reachable o σ0 σ : fresh_sl o σ0 → star (sl_step o) σ0 σ → sl_inv o σ.
Proof.
  intros (Hex & Hl & HC & Hns) Hs.
  eapply (star_inv (sl_step o) (sl_inv o)); [|apply sl_step_inv|done].
  split_and!; [done|done|by intros []].
Qed.

(** ** A process that waits for its own lock *)

(** Process [me], which is inside, waits in [acquiresleep] for the same lock: all
    that can happen to the lock but the [releasesleep] that [me] is not able to
    reach. *)
Definition self_step (o : slobj) (me : nat) (σ σ' : slst) : Prop := sl_step o σ σ' ∧ me ∈ crit σ'.

(** Whatever happens, neither [me] nor anybody else gets out of [acquiresleep]:
    a process that is woken, by [kill] for example, sleeps again. *)
Definition locked_out (o : slobj) (me : nat) (k : kernel) : Prop :=
  ∀ σ c i ls e k', star (self_step o me) (mkslst k {[me]}) σ → runs_on c i (slk σ) → entry (LkSleep o) i ls e →
    (e ;; acquiresleep_from o) (on c ls (slk σ)) ≠ Ok tt k'.

Lemma self_deadlock o me k :
  sl_exists o k → sl_locked (sl_of o k) ≠ 0 → pid <$> ptable (kproc k) !! me = Some (sl_pid (sl_of o k)) →
  locked_out o me k.
Proof.
  intros Hex Hl Hp σ c i ls e k' Hs Hr He H.
  assert (Hinv : sl_inv o σ ∧ me ∈ crit σ).
  { eapply (star_inv (self_step o me) (λ σ, sl_inv o σ ∧ me ∈ crit σ)); [| |done].
    - split; [split_and!; [done|done|by exists me]|]. simpl. set_solver.
    - intros τ τ' [Hi _] [Hst Hme]. split; [by eapply sl_step_inv|done]. }
  destruct Hinv as [(_ & Hfree & _) Hme].
  destruct (entry_ok_then (LkSleep o) _ _ _ _ _ _ _ _ ltac:(done) Hr He H)
    as (s & (Hh & Hr' & (p & Hpp) & Hof & _)%entered_sl & Hm).
  erewrite acquiresleep_from_eq in Hm by done. rewrite Hof in Hm.
  destruct (Z.eqb_spec (sl_locked (sl_of o (slk σ))) 0) as [Hz|]; [|done].
  destruct (Hfree Hz) as [HC _]. rewrite HC in Hme. set_solver.
Qed.

(** ** Properties *)

(** [C34] A sleep lock excludes: however its users interleave, sleep and wake, at
    most one process is between [acquiresleep] and [releasesleep]; nobody sleeps
    on a lock that is free, so no wake-up is missed; and [holdingsleep] tells a
    process whether it is the one inside. *)
Theorem sleeplock_excludes o σ0 σ :
  fresh_sl o σ0 → star (sl_step o) σ0 σ →
  (∀ i j, i ∈ crit σ → j ∈ crit σ → i = j) ∧
  (∀ j, sleeps (slk σ) j (ChSleeplock o) → crit σ ≠ ∅) ∧
  ∀ c i p, runs_on c i (slk σ) → ptable (kproc (slk σ)) !! i = Some p →
    (∀ j q, ptable (kproc (slk σ)) !! j = Some q → pid q = pid p → j = i) →
    holdingsleep o (on c [] (slk σ)) = Ok (bool_decide (i ∈ crit σ)) (on c [] (slk σ)).
Proof.
  intros Hf Hs. destruct (sl_reachable _ _ _ Hf Hs) as (_ & Hfree & Hbusy).
  destruct (decide (sl_locked (sl_of o (slk σ)) = 0)) as [Hl|Hl].
  - destruct (Hfree Hl) as [-> Hns]. split_and!; [set_solver|intros j Hj; by apply Hns in Hj|].
    intros c i p [Hr _] Hp Hu. erewrite holdingsleep_eq by done. rewrite sl_of_on, Hl.
    by rewrite bool_decide_false by set_solver.
  - destruct (Hbusy Hl) as (h & HC & Hh). rewrite HC. split_and!; [set_solver|set_solver|].
    intros c i p [Hr _] Hp Hu. erewrite holdingsleep_eq by done.
    rewrite sl_of_on, (proj2 (Z.eqb_neq _ _) Hl). simpl. f_equal.
    apply fmap_Some in Hh as (q & Hq & ->). case_bool_decide as Hi.
    + apply elem_of_singleton in Hi as ->. rewrite Hp in Hq. simplify_eq. apply Z.eqb_refl.
    + apply Z.eqb_neq. intros Heq. apply Hi. by rewrite (Hu h q Hq Heq), elem_of_singleton.
Qed.

(** ** Witness *)

(** Processes 0 and 1 run on the two processors; 0 takes the lock of inode 3,
    then 1 tries. *)
Definition sl_k0 : kernel :=
  kernel0 <| kproc ::= λ k, k <| ptable := [ proc0 <| state := RUNNING |> <| pid := 1 |>;
                                             proc0 <| state := RUNNING |> <| pid := 2 |> ] |> |>
          <| kcpu ::= λ c, c <| cpu_proc := [Some 0%nat; Some 1%nat] |> |>.
Definition sl_k1 : kernel :=
  after (acquire (LkSleep (SlInode 3)) ;; acquiresleep_from (SlInode 3)) (on 0 [] sl_k0).
Definition sl_k2 : kernel :=
  after (acquire (LkSleep (SlInode 3)) ;; acquiresleep_from (SlInode 3)) (on 1 [] sl_k1).

Lemma sl_run : star (sl_step (SlInode 3)) (mkslst sl_k0 ∅) (mkslst sl_k2 ({[0%nat]} ∪ ∅)).
Proof.
  apply star_snoc with (mkslst sl_k1 ({[0%nat]} ∪ ∅)); [apply star_snoc with (mkslst sl_k0 ∅)|].
  - apply star_refl.
  - apply (ss_acquire _ 0 0 [] (acquire (LkSleep (SlInode 3)))); [|constructor|evaluate].
    split; [evaluate|]. eexists. split; vm_compute; reflexivity.
  - apply (ss_acquire_sleep _ 1 1 [] (acquire (LkSleep (SlInode 3))) _ _
             (AtSleep (ChSleeplock (SlInode 3)) (LkSleep (SlInode 3)) 0)); [|constructor|evaluate].
    split; [evaluate|]. eexists. split; vm_compute; reflexivity.
Qed.

Lemma sleeplock_excludes_witness :
  sleeps sl_k2 1 (ChSleeplock (SlInode 3)) ∧ ({[0%nat]} ∪ ∅ : gset nat) ≠ ∅.
Proof.
  assert (Hs : sleeps sl_k2 1 (ChSleeplock (SlInode 3)))
    by (eexists; split_and!; vm_compute; reflexivity).
  split; [exact Hs|].
  destruct (sleeplock_excludes (SlInode 3) (mkslst sl_k0 ∅) (mkslst sl_k2 ({[0%nat]} ∪ ∅)))
    as (_ & H & _); [| |exact (H 1%nat Hs)].
  - split_and!; [by eexists|reflexivity|reflexivity|].
    intros [|[|j]] (pr & Hj & Hst & Hc); by simplify_eq/=.
  - exact sl_run.
Defined.
