(* ===== verification/Bio.v ===== *)
(** * The buffer cache: bio.c, memide.c

    [NBUF] buffers in a doubly linked ring through a head node, most recently
    used first.  The ring is represented by the list of the buffers in it, and
    the cache by the contents it gives to every block of the disk.  bio.c calls
    a disk driver through [iderw]; the class [Disk] is what it relies on, and
    memide.c is an instance of it. *)

From S2P Require Import Prelude Kernel Sched Proc Waiting Sleeplock.

(** ** The ring of buffers *)

Definition HEAD : nat := NBUF.

(** The node at index [i], [head] included. *)
Definition nd (l : list buf) (i : nat) : buf := default buf0 (l !! i).
Definition set_next (i j : nat) : list buf → list buf := alter (λ b, b <| next := j |>) i.
Definition set_prev (i j : nat) : list buf → list buf := alter (λ b, b <| prev := j |>) i.

(** [b->next = head.next; b->prev = &head; head.next->prev = b; head.next = b] *)
Definition push_front (i : nat) (l : list buf) : list buf :=
  let l := set_next i (next (nd l HEAD)) l in
  let l := set_prev i HEAD l in
  let l := set_prev (next (nd l HEAD)) i l in
  set_next HEAD i l.

(** [b->next->prev = b->prev; b->prev->next = b->next] *)
Definition unlink (i : nat) (l : list buf) : list buf :=
  let l := set_prev (next (nd l i)) (prev (nd l i)) l in
  set_next (prev (nd l i)) (next (nd l i)) l.

(** A walk from node [i] along [dir] to the first buffer with [P], up to
    [head].  A ring has [NBUF] buffers, so [S NBUF] steps reach [head]. *)
Fixpoint scan (dir : buf → nat) (P : buf → bool) (l : list buf) (fuel i : nat) : option nat :=
  match fuel with
  | O => None
  | S fuel' =>
      if decide (i = HEAD) then None
      else if P (nd l i) then Some i
      else scan dir P l fuel' (dir (nd l i))
  end.

(** ** Operations *)

Definition upd_nodes (f : list buf → list buf) (s : kernel) : kernel :=
  s <| kbio ::= λ b, b <| bnodes ::= f |> |>.
Definition getb (i : nat) : KM buf := gets (λ s, nd (bnodes (kbio s)) i).
Definition updb (i : nat) (f : buf → buf) : KM unit := modify_state (upd_nodes (alter f i)).

Definition binit : KM unit :=
  modify_state (upd_nodes (set_next HEAD HEAD ∘ set_prev HEAD HEAD)) ;;
  for_each (seq 0 NBUF) (λ i,
    initsleeplock (SlBuf i) ;;
    modify_state (upd_nodes (push_front i))).

(** [b->dev == dev && b->blockno == blockno] *)
Definition caches (d n : Z) (b : buf) : bool := (dev b =? d) && (blockno b =? n).
(** [b->refcnt == 0 && (b->flags & B_DIRTY) == 0] *)
Definition unused (b : buf) : bool := (refcnt b =? 0) && (Z.land (flags b) B_DIRTY =? 0).

Definition bget (d n : Z) : KM nat :=
  acquire LkBcache ;;
  l ← gets (λ s, bnodes (kbio s));
  match scan next (caches d n) l (S NBUF) (next (nd l HEAD)) with
  | Some i =>
      updb i (λ b, b <| refcnt := u32 (refcnt b + 1) |>) ;;
      release LkBcache ;;
      acquiresleep (SlBuf i) ;;
      ret i
  | None =>
      match scan prev unused l (S NBUF) (prev (nd l HEAD)) with
      | Some i =>
          updb i (λ b, b <| dev := d |> <| blockno := n |> <| flags := 0 |> <| refcnt := 1 |>) ;;
          release LkBcache ;;
          acquiresleep (SlBuf i) ;;
          ret i
      | None => panic "bget: no buffers"
      end
  end.

(** ** Disk drivers *)

(** The disk takes the contents of buffer [i]; it gives them. *)
Definition disk_write (i : nat) (s : kernel) : kernel :=
  let b := nd (bnodes (kbio s)) i in
  (upd_nodes (alter (λ b, b <| flags := Z.lor (Z.land (flags b) (Z.lnot B_DIRTY)) B_VALID |>) i) s)
    <| kdisk ::= λ d, d <| memdisk ::= <[Z.to_nat (blockno b) := data b]> |>
                        <| dwrites ::= λ w, w ++ [(blockno b, data b)] |> |>.
Definition disk_read (i : nat) (s : kernel) : kernel :=
  upd_nodes (alter (λ b, b <| data := default [] (memdisk (kdisk s) !! Z.to_nat (blockno b)) |>
                           <| flags := Z.lor (flags b) B_VALID |>) i) s.

(** The running process [i] with the entry [p]. *)
Definition runs_as (i : nat) (p : proc) (s : kernel) : Prop :=
  runs s i ∧ ptable (kproc s) !! i = Some p.

(** What bio.c may expect of [iderw]: the comment before it in ide.c and
    memide.c.  "If B_DIRTY is set, write buf to disk, clear B_DIRTY, set
    B_VALID.  Else if B_VALID is not set, read buf from disk, set B_VALID." *)
Class Disk := {
  iderw : nat → KM unit;
  iderw_spec i me p s :
    held s = [] → runs_as me p s → is_Some (bnodes (kbio s) !! i) →
    let b := nd (bnodes (kbio s)) i in
    sl_locked (b_lock b) ≠ 0 → sl_pid (b_lock b) = pid p →
    Z.land (flags b) (Z.lor B_VALID B_DIRTY) ≠ B_VALID →
    dev b = 1 → 0 ≤ blockno b < Z.of_nat (length (memdisk (kdisk s))) →
    iderw i s = Ok tt (if Z.land (flags b) B_DIRTY =? 0 then disk_read i s else disk_write i s) }.

(** [iderw] of memide.c; [disksize] is the length of [memdisk]. *)
Definition memide_rw (i : nat) : KM unit :=
  h ← holdingsleep (SlBuf i);
  if negb h then panic "iderw: buf not locked" else
  b ← getb i;
  if Z.land (flags b) (Z.lor B_VALID B_DIRTY) =? B_VALID then panic "iderw: nothing to do" else
  if negb (dev b =? 1) then panic "iderw: request not for disk 1" else
  n ← gets (λ s, Z.of_nat (length (memdisk (kdisk s))));
  if n <=? blockno b then panic "iderw: block out of range" else
  (if negb (Z.land (flags b) B_DIRTY =? 0) then
     updb i (λ b, b <| flags := Z.land (flags b) (Z.lnot B_DIRTY) |>) ;;
     modify_state (λ s, s <| kdisk ::= λ d, d <| memdisk ::= <[Z.to_nat (blockno b) := data b]> |>
                                              <| dwrites ::= λ w, w ++ [(blockno b, data b)] |> |>)
   else
     blk ← gets (λ s, default [] (memdisk (kdisk s) !! Z.to_nat (blockno b)));
     updb i (λ b, b <| data := blk |>)) ;;
  updb i (λ b, b <| flags := Z.lor (flags b) B_VALID |>).

Section Bio.
Context {dk : Disk}.

Definition bread (d n : Z) : KM nat :=
  i ← bget d n;
  b ← getb i;
  (if Z.land (flags b) B_VALID =? 0 then iderw i else ret tt) ;;
  ret i.

Definition bwrite (i : nat) : KM unit :=
  h ← holdingsleep (SlBuf i);
  if negb h then panic "bwrite" else
  updb i (λ b, b <| flags := Z.lor (flags b) B_DIRTY |>) ;;
  iderw i.
End Bio.

Definition brelse (i : nat) : KM unit :=
  h ← holdingsleep (SlBuf i);
  if negb h then panic "brelse" else
  releasesleep (SlBuf i) ;;
  acquire LkBcache ;;
  updb i (λ b, b <| refcnt := u32 (refcnt b - 1) |>) ;;
  b ← getb i;
  (if refcnt b =? 0 then modify_state (upd_nodes (push_front i ∘ unlink i)) else ret tt) ;;
  release LkBcache.

(** ** The ring as a list *)

(** From node [a] on, the ring visits [xs]. *)
Fixpoint linked (l : list buf) (a : nat) (xs : list nat) : Prop :=
  match xs with
  | [] => True
  | b :: xs' => next (nd l a) = b ∧ prev (nd l b) = a ∧ linked l b xs'
  end.

(** The buffers in the ring, most recently used first. *)
Definition ring (l : list buf) (xs : list nat) : Prop :=
  length l = S NBUF ∧ NoDup (HEAD :: xs) ∧ Forall (λ i, (i < NBUF)%nat) xs ∧
  linked l HEAD (xs ++ [HEAD]).

Lemma nd_alter f i j l :
  (i < length l)%nat → nd (alter f i l) j = if decide (i = j) then f (nd l j) else nd l j.
Proof.
  intros Hi. unfold nd. case_decide as Hij; subst.
  - rewrite list_lookup_alter_eq. apply lookup_lt_is_Some in Hi as [x ->]. done.
  - by rewrite list_lookup_alter_ne.
Qed.

Lemma linked_app l a xs b ys : linked l a (xs ++ b :: ys) ↔ linked l a (xs ++ [b]) ∧ linked l b ys.
Proof. revert a; induction xs as [|x xs IH]; intros a; simpl; [tauto|]. rewrite IH. tauto. Qed.

(** Only the [next] of the nodes before the last and the [prev] of those after
    the first matter. *)
Lemma linked_ext l l' a xs b :
  linked l a (xs ++ [b]) →
  (∀ c, c ∈ a :: xs → next (nd l' c) = next (nd l c)) →
  (∀ c, c ∈ xs ++ [b] → prev (nd l' c) = prev (nd l c)) →
  linked l' a (xs ++ [b]).
Proof.
  revert a; induction xs as [|x xs IH]; intros a; simpl.
  - intros (Hn & Hp & _) Hnx Hpv. split_and!; [|rewrite Hpv|done]; [|done|set_solver].
    by rewrite Hnx by set_solver.
  - intros (Hn & Hp & Hl) Hnx Hpv. split_and!.
    + by rewrite Hnx by set_solver.
    + by rewrite Hpv by set_solver.
    + apply IH; [done|intros c Hc; apply Hnx|intros c Hc; apply Hpv]; set_solver.
Qed.

Lemma set_next_nd i j c l : (i < length l)%nat →
  next (nd (set_next i j l) c) = if decide (i = c) then j else next (nd l c).
Proof. intros. unfold set_next. rewrite nd_alter by done. by case_decide. Qed.
Lemma set_next_prev i j c l : (i < length l)%nat → prev (nd (set_next i j l) c) = prev (nd l c).
Proof. intros. unfold set_next. rewrite nd_alter by done. by case_decide. Qed.
Lemma set_prev_nd i j c l : (i < length l)%nat →
  prev (nd (set_prev i j l) c) = if decide (i = c) then j else prev (nd l c).
Proof. intros. unfold set_prev. rewrite nd_alter by done. by case_decide. Qed.
Lemma set_prev_next i j c l : (i < length l)%nat → next (nd (set_prev i j l) c) = next (nd l c).
Proof. intros. unfold set_prev. rewrite nd_alter by done. by case_decide. Qed.
Lemma length_set_next i j l : length (set_next i j l) = length l.
Proof. apply length_alter. Qed.
Lemma length_set_prev i j l : length (set_prev i j l) = length l.
Proof. apply length_alter. Qed.

(** The first of the nodes after [a]. *)
Lemma linked_first l a xs b : linked l a (xs ++ [b]) → next (nd l a) = hd b xs ∧ prev (nd l (hd b xs)) = a.
Proof. destruct xs; simpl; tauto. Qed.

Ltac ring_bounds := repeat (rewrite length_set_next || rewrite length_set_prev); lia.
Ltac ring_nodes :=
  repeat first
    [ rewrite set_next_nd by ring_bounds | rewrite set_next_prev by ring_bounds
    | rewrite set_prev_nd by ring_bounds | rewrite set_prev_next by ring_bounds ].

Lemma hd_lt n xs : Forall (λ i, (i < n)%nat) xs → (hd n xs < S n)%nat.
Proof. intros H. destruct xs; simpl; [lia|]. inversion H; lia. Qed.

(** [push_front] puts a buffer that is not in the ring at its front. *)
Lemma push_front_ring i l xs :
  ring l xs → (i < NBUF)%nat → i ∉ xs → ring (push_front i l) (i :: xs).
Proof.
  intros (Hlen & Hnd & Hlt & Hl) Hi Hxs. destruct (linked_first _ _ _ _ Hl) as [Hn Hp].
  pose proof (hd_lt _ _ Hlt) as Hhd. change NBUF with HEAD in Hlen, Hhd, Hi, Hlt.
  assert (HH : (HEAD < length l)%nat) by lia.
  assert (Hi' : i ≠ HEAD) by lia.
  assert (Hhi : hd HEAD xs ≠ i) by (destruct xs; simpl; [done|set_solver]).
  unfold push_front. rewrite set_prev_next, set_next_nd by ring_bounds.
  rewrite decide_False, Hn by done.
  split_and!.
  - by rewrite !length_set_next, !length_set_prev, length_set_next.
  - apply NoDup_cons in Hnd as [??]. apply NoDup_cons. split; [set_solver|]. by apply NoDup_cons.
  - by constructor.
  - simpl. split_and!.
    + ring_nodes. by rewrite decide_True.
    + ring_nodes. by rewrite decide_False, decide_True.
    + destruct xs as [|x xs]; simpl in *.
      * split_and!; [ring_nodes; by rewrite decide_False, decide_True|ring_nodes|done].
        by rewrite decide_True.
      * destruct Hl as (_ & _ & Hl). split_and!.
        -- ring_nodes. by rewrite decide_False, decide_True.
        -- ring_nodes. by rewrite decide_True.
        -- apply NoDup_cons in Hnd as [HnH Hnd]. apply NoDup_cons in Hnd as [Hnx _].
           apply (linked_ext l); [done|intros c Hc; ring_nodes..].
           ++ rewrite !decide_False by set_solver. done.
           ++ rewrite decide_False by set_solver. rewrite decide_False; [done|].
              unfold HEAD in *. set_solver.
Qed.

(** The nodes after [i], reached from [x] instead. *)
Lemma linked_from l l' i x ys b :
  linked l i (ys ++ [b]) → next (nd l' x) = hd b ys → prev (nd l' (hd b ys)) = x →
  (∀ c, c ∈ ys → next (nd l' c) = next (nd l c)) →
  (∀ c, c ∈ tail (ys ++ [b]) → prev (nd l' c) = prev (nd l c)) →
  linked l' x (ys ++ [b]).
Proof.
  intros Hl Hn Hp Hnx Hpv. destruct ys as [|y ys]; [done|]. simpl in *. destruct Hl as (_ & _ & Hl).
  split_and!; [done..|]. by apply (linked_ext l).
Qed.

Lemma linked_last l a xs b :
  linked l a (xs ++ [b]) → prev (nd l b) = List.last xs a ∧ next (nd l (List.last xs a)) = b.
Proof.
  destruct xs as [|x xs _] using rev_ind; [simpl; tauto|].
  rewrite <-app_assoc, List.last_last. intros [_ (H & ? & _)]%linked_app. done.
Qed.

(** [unlink] takes it out. *)
Lemma unlink_ring i l xs ys :
  ring l (xs ++ i :: ys) → ring (unlink i l) (xs ++ ys).
Proof.
  intros (Hlen & Hnd & Hlt & Hl). rewrite <-app_assoc in Hl. simpl in Hl.
  apply linked_app in Hl as [Hl1 Hl2].
  destruct (linked_first _ _ _ _ Hl2) as [Hn _], (linked_last _ _ _ _ Hl1) as [Hp _].
  apply NoDup_cons in Hnd as [HH Hnd]. apply NoDup_app in Hnd as (Hx & Hxy & Hy).
  apply NoDup_cons in Hy as [Hiy Hy]. apply Forall_app in Hlt as [Hlx Hly].
  apply Forall_cons in Hly as [Hi Hly]. pose proof (hd_lt _ _ Hly) as Hhd.
  change NBUF with HEAD in Hlen, Hhd, Hi, Hlx, Hly.
  set (p := List.last xs HEAD). set (n := hd HEAD ys).
  assert (Hpl : (p < S HEAD)%nat).
  { unfold p. destruct xs as [|x xs _] using rev_ind; [simpl; lia|]. rewrite List.last_last.
    apply Forall_app in Hlx as [_ Hlx]. apply Forall_cons in Hlx as [? _]. lia. }
  assert (Hpi : p ≠ i).
  { unfold p. destruct xs as [|x xs _] using rev_ind; [simpl; lia|]. rewrite List.last_last. set_solver. }
  assert (Hni : n ≠ i) by (unfold n; destruct ys; simpl; [lia|set_solver]).
  assert (Hu : unlink i l = set_next p n (set_prev n p l)).
  { unfold unlink. rewrite set_prev_nd, set_prev_next, Hn, Hp by ring_bounds.
    by rewrite decide_False by done. }
  rewrite Hu. split_and!.
  - by rewrite length_set_next, length_set_prev.
  - apply NoDup_cons. split; [set_solver|]. apply NoDup_app. set_solver.
  - apply Forall_app. done.
  - rewrite <-app_assoc.
    assert (Htail : linked (set_next p n (set_prev n p l)) p (ys ++ [HEAD])).
    { apply (linked_from l _ i); [done|..].
      - ring_nodes. by rewrite decide_True.
      - fold n. ring_nodes. by rewrite decide_True.
      - intros c Hc. ring_nodes. rewrite decide_False; [done|]. unfold p.
        destruct xs as [|x xs _] using rev_ind; [set_solver|]. rewrite List.last_last. set_solver.
      - intros c Hc. ring_nodes. rewrite decide_False; [done|]. unfold n.
        destruct ys as [|y ys]; simpl in *; [set_solver|].
        apply NoDup_cons in Hy as [? _]. set_solver. }
    destruct xs as [|x xs _] using rev_ind; [done|].
    unfold p in *. rewrite List.last_last in *. rewrite <-app_assoc. simpl.
    apply linked_app. split; [|done]. rewrite <-app_assoc in Hl1. apply linked_app in Hl1 as [Hl1 _].
    apply NoDup_app in Hx as (_ & Hx & _).
    apply (linked_ext l); [done|intros c Hc; ring_nodes..].
    + rewrite decide_False; [done|]. set_solver.
    + rewrite decide_False; [done|]. unfold n. destruct ys; set_solver.
Qed.

(** The walks of [bget] are searches in the list, from either end. *)
Lemma scan_next P l a xs fuel :
  linked l a (xs ++ [HEAD]) → HEAD ∉ xs → (length xs < fuel)%nat →
  scan next P l fuel (next (nd l a)) = List.find (λ i, P (nd l i)) xs.
Proof.
  revert a xs; induction fuel as [|fuel IH]; intros a xs Hl HH Hf; [lia|].
  destruct xs as [|x xs]; simpl in *.
  - destruct Hl as (-> & _). by rewrite decide_True.
  - destruct Hl as (-> & _ & Hl). rewrite decide_False by set_solver.
    destruct (P (nd l x)); [done|]. apply IH; [done|set_solver|lia].
Qed.

Lemma scan_prev P l xs b fuel :
  linked l HEAD (xs ++ [b]) → HEAD ∉ xs → (length xs < fuel)%nat →
  scan prev P l fuel (prev (nd l b)) = List.find (λ i, P (nd l i)) (reverse xs).
Proof.
  revert b xs; induction fuel as [|fuel IH]; intros b xs Hl HH Hf; [lia|].
  destruct xs as [|x xs _] using rev_ind; simpl in *.
  - destruct Hl as (_ & -> & _). by rewrite decide_True.
  - rewrite <-app_assoc in Hl. apply linked_app in Hl as [Hl (_ & -> & _)].
    rewrite decide_False by set_solver. rewrite reverse_snoc. simpl.
    destruct (P (nd l x)); [done|]. apply IH; [done|set_solver|].
    rewrite length_app in Hf. simpl in Hf. lia.
Qed.

(** ** The state of the cache *)

Definition dirty (b : buf) : bool := negb (Z.land (flags b) B_DIRTY =? 0).
Definition valid (b : buf) : bool := negb (Z.land (flags b) B_VALID =? 0).

(** A buffer the process with pid [q] holds, between [bread] and [brelse]; and
    one that nobody holds: never used, pinned by the log, or a copy of the
    block on the disk [D]. *)
Definition held_ok (q : Z) (D : list (list Z)) (b : buf) : Prop :=
  dev b = 1 ∧ 0 ≤ blockno b < Z.of_nat (length D) ∧ refcnt b = 1 ∧
  sl_locked (b_lock b) ≠ 0 ∧ sl_pid (b_lock b) = q ∧
  (flags b = B_VALID ∨ flags b = Z.lor B_VALID B_DIRTY).

Definition idle_ok (D : list (list Z)) (b : buf) : Prop :=
  refcnt b = 0 ∧ sl_locked (b_lock b) = 0 ∧
  ((dev b = 0 ∧ flags b = 0) ∨
   (dev b = 1 ∧ 0 ≤ blockno b < Z.of_nat (length D) ∧
    (flags b = Z.lor B_VALID B_DIRTY ∨
     (flags b = B_VALID ∧ D !! Z.to_nat (blockno b) = Some (data b))))).

Definition buf_ok (q : Z) (D : list (list Z)) (h : bool) (b : buf) : Prop :=
  length (data b) = Z.to_nat BSIZE ∧ if h then held_ok q D b else idle_ok D b.

(** The cache of nodes [l], over the disk [D], when the process with pid [q]
    holds the buffers [H] and nobody holds another; [xs] is the order of use. *)
Record bcinv (q : Z) (l : list buf) (D : list (list Z)) (H : list nat) (xs : list nat) : Prop := {
  bi_ring : ring l xs;
  bi_perm : xs ≡ₚ seq 0 NBUF;
  bi_nodup : NoDup H;
  bi_bound : ∀ i, i ∈ H → (i < NBUF)%nat;
  bi_bufs : ∀ i, (i < NBUF)%nat → buf_ok q D (bool_decide (i ∈ H)) (nd l i);
  bi_uniq : ∀ i j, (i < NBUF)%nat → (j < NBUF)%nat → dev (nd l i) = 1 → dev (nd l j) = 1 →
            blockno (nd l i) = blockno (nd l j) → i = j;
  bi_disk : Forall (λ b, length b = Z.to_nat BSIZE) D }.

(** The contents of block [n]: the cached copy, or else the disk's. *)
Definition cached (l : list buf) (n : Z) : option nat :=
  List.find (λ i, caches 1 n (nd l i) && valid (nd l i)) (seq 0 NBUF).
Definition blk (l : list buf) (D : list (list Z)) (n : Z) : list Z :=
  match cached l n with
  | Some i => data (nd l i)
  | None => default [] (D !! Z.to_nat n)
  end.

(** The blocks pinned in the cache. *)
Definition dirty_blocks (l : list buf) : gset Z :=
  list_to_set ((λ i, blockno (nd l i)) <$> filter (λ i, dirty (nd l i) = true) (seq 0 NBUF)).

Lemma elem_of_dirty_blocks l n :
  n ∈ dirty_blocks l ↔ ∃ i, (i < NBUF)%nat ∧ dirty (nd l i) = true ∧ blockno (nd l i) = n.
Proof.
  unfold dirty_blocks. rewrite elem_of_list_to_set, list_elem_of_fmap. split.
  - intros (i & -> & Hi). rewrite list_elem_of_filter, elem_of_seq in Hi. exists i. naive_solver lia.
  - intros (i & Hi & Hd & <-). exists i. rewrite list_elem_of_filter, elem_of_seq. naive_solver lia.
Qed.

Lemma find_seq_Some P n i :
  List.find P (seq 0 n) = Some i → (i < n)%nat ∧ P i = true.
Proof. intros H. apply List.find_some in H as [H ?]. apply List.in_seq in H. split; [lia|done]. Qed.

Lemma find_seq_None P n i : List.find P (seq 0 n) = None → (i < n)%nat → P i = false.
Proof. intros H Hi. eapply List.find_none; [exact H|]. apply List.in_seq. lia. Qed.

Lemma caches_true d n b : caches d n b = true ↔ dev b = d ∧ blockno b = n.
Proof. unfold caches. by rewrite andb_true_iff, !Z.eqb_eq. Qed.

Section Invariant.
Context {q : Z} {l : list buf} {D : list (list Z)} {H xs : list nat}.
Hypothesis (Hbc : bcinv q l D H xs).

Lemma bc_length : length l = S NBUF.
Proof. apply (bi_ring _ _ _ _ _ Hbc). Qed.

Lemma bc_buf i : (i < NBUF)%nat → l !! i = Some (nd l i).
Proof.
  intros Hi. pose proof bc_length. destruct (lookup_lt_is_Some_2 l i) as [b Hb]; [lia|].
  unfold nd. by rewrite Hb.
Qed.

Lemma bc_held i : i ∈ H → held_ok q D (nd l i).
Proof.
  intros Hi. destruct (bi_bufs _ _ _ _ _ Hbc i) as [_ Hb]; [by apply (bi_bound _ _ _ _ _ Hbc)|].
  by rewrite bool_decide_true in Hb.
Qed.

Lemma bc_idle i : (i < NBUF)%nat → i ∉ H → idle_ok D (nd l i).
Proof.
  intros Hi HH. destruct (bi_bufs _ _ _ _ _ Hbc i Hi) as [_ Hb]. by rewrite bool_decide_false in Hb.
Qed.

(** A buffer with a block of the disk: its number and its flags. *)
Lemma bc_used i :
  (i < NBUF)%nat → dev (nd l i) = 1 →
  0 ≤ blockno (nd l i) < Z.of_nat (length D) ∧
  (flags (nd l i) = B_VALID ∨ flags (nd l i) = Z.lor B_VALID B_DIRTY).
Proof.
  intros Hi Hd. destruct (decide (i ∈ H)) as [HH|HH].
  - destruct (bc_held i HH) as (_ & ? & _ & _ & _ & ?). done.
  - destruct (bc_idle i Hi HH) as (_ & _ & [[? _]|(_ & ? & [?|[? _]])]); [congruence|auto..].
Qed.

Lemma bc_unused i : (i < NBUF)%nat → dev (nd l i) ≠ 1 → flags (nd l i) = 0 ∧ i ∉ H.
Proof.
  intros Hi Hd. assert (HH : i ∉ H) by (intros HH; by destruct (bc_held i HH)).
  destruct (bc_idle i Hi HH) as (_ & _ & [[_ ?]|[? _]]); done.
Qed.

Lemma bc_valid i : (i < NBUF)%nat → dev (nd l i) = 1 → valid (nd l i) = true.
Proof. intros Hi Hd. unfold valid. by destruct (bc_used i Hi Hd) as [_ [-> | ->]]. Qed.

Lemma bc_dirty_dev i : (i < NBUF)%nat → dirty (nd l i) = true → dev (nd l i) = 1.
Proof.
  intros Hi Hd. destruct (decide (dev (nd l i) = 1)) as [|Hne]; [done|].
  destruct (bc_unused i Hi Hne) as [Hf _]. unfold dirty in Hd. by rewrite Hf in Hd.
Qed.

Lemma cached_inv n i : cached l n = Some i → (i < NBUF)%nat ∧ dev (nd l i) = 1 ∧ blockno (nd l i) = n.
Proof.
  intros Hc. apply find_seq_Some in Hc as [Hi Hc]. apply andb_true_iff in Hc as [Hc _].
  by apply caches_true in Hc.
Qed.

Lemma cached_eq n i :
  (i < NBUF)%nat → dev (nd l i) = 1 → blockno (nd l i) = n → cached l n = Some i.
Proof.
  intros Hi Hd Hn. destruct (cached l n) as [j|] eqn:E.
  - apply cached_inv in E as (Hj & Hdj & Hnj). f_equal.
    apply (bi_uniq _ _ _ _ _ Hbc); congruence.
  - apply (find_seq_None _ _ i) in E; [|done].
    cbv beta in E. rewrite bc_valid, andb_true_r in E by done.
    by rewrite (proj2 (caches_true _ _ _)) in E.
Qed.

Lemma cached_none n :
  cached l n = None ↔ ∀ i, (i < NBUF)%nat → dev (nd l i) = 1 → blockno (nd l i) ≠ n.
Proof.
  split.
  - intros Hc i Hi Hd Hn. by rewrite (cached_eq n i) in Hc.
  - intros Hn. destruct (cached l n) as [j|] eqn:E; [|done].
    apply cached_inv in E as (Hj & Hdj & Hnj). by destruct (Hn j).
Qed.

(** The contents of a cached block; of one that is not. *)
Lemma blk_cached i : (i < NBUF)%nat → dev (nd l i) = 1 → blk l D (blockno (nd l i)) = data (nd l i).
Proof. intros Hi Hd. unfold blk. by rewrite (cached_eq _ i). Qed.

Lemma blk_none n : cached l n = None → blk l D n = default [] (D !! Z.to_nat n).
Proof. unfold blk. by intros ->. Qed.

(** A block that is neither held nor pinned is as on the disk. *)
Lemma blk_clean n :
  (∀ i, i ∈ H → blockno (nd l i) ≠ n) → n ∉ dirty_blocks l →
  blk l D n = default [] (D !! Z.to_nat n).
Proof.
  intros HH Hn. destruct (cached l n) as [i|] eqn:E; [|by apply blk_none].
  apply cached_inv in E as (Hi & Hd & Hb). rewrite <-Hb, blk_cached by done.
  assert (HiH : i ∉ H) by (intros ?; by destruct (HH i)).
  destruct (bc_idle i Hi HiH) as (_ & _ & [[? _]|(_ & _ & [Hf|[_ ->]])]); [congruence| |done].
  destruct Hn. apply elem_of_dirty_blocks. exists i. unfold dirty. by rewrite Hf.
Qed.

Lemma bc_blk_length n : 0 ≤ n < Z.of_nat (length D) → length (blk l D n) = Z.to_nat BSIZE.
Proof.
  intros Hn. destruct (cached l n) as [i|] eqn:E.
  - apply cached_inv in E as (Hi & Hd & Hb). rewrite <-Hb, blk_cached by done.
    by destruct (bi_bufs _ _ _ _ _ Hbc i Hi).
  - rewrite blk_none by done. destruct (lookup_lt_is_Some_2 D (Z.to_nat n)) as [b Hb]; [lia|].
    rewrite Hb. by apply (Forall_lookup_1 _ _ _ _ (bi_disk _ _ _ _ _ Hbc) Hb).
Qed.

(** There is a buffer to recycle while fewer than [NBUF] are pinned or held. *)
Lemma bc_room :
  (size (dirty_blocks l) + length H < NBUF)%nat →
  ∃ i, (i < NBUF)%nat ∧ (i ∉ H) ∧ dirty (nd l i) = false.
Proof.
  intros Hsz.
  destruct (decide (Exists (λ i, (i ∉ H) ∧ dirty (nd l i) = false) (seq 0 NBUF))) as [He|Hno].
  { apply Exists_exists in He as (i & Hi & ?). exists i. rewrite elem_of_seq in Hi. split; [lia|done]. }
  set (fs := filter (λ i, dirty (nd l i) = true) (seq 0 NBUF)).
  assert (Hsub : seq 0 NBUF ⊆+ fs ++ H).
  { apply NoDup_submseteq; [apply NoDup_seq|]. intros i Hi. apply elem_of_app.
    destruct (decide (i ∈ H)) as [|HiH]; [by right|left]. apply list_elem_of_filter. split; [|done].
    destruct (dirty (nd l i)) eqn:E; [done|]. destruct Hno. apply Exists_exists. by exists i. }
  apply submseteq_length in Hsub. rewrite length_app, length_seq in Hsub.
  assert (Hfs : size (dirty_blocks l) = length fs); [|lia].
  unfold dirty_blocks. rewrite size_list_to_set; [by rewrite length_fmap|].
  apply NoDup_fmap_2_strong; [|apply NoDup_filter, NoDup_seq].
  intros i j Hi Hj Hb. apply list_elem_of_filter in Hi as [Hi1 Hi2], Hj as [Hj1 Hj2].
  rewrite elem_of_seq in Hi2, Hj2.
  apply (bi_uniq _ _ _ _ _ Hbc); [lia|lia|apply bc_dirty_dev; (lia || done)..|done].
Qed.
End Invariant.

(** ** Changes of the nodes *)

(** What the contents of the cache depend on. *)
Definition vw (b : buf) : Z * Z * Z * list Z := (flags b, dev b, blockno b, data b).

Lemma find_ext {A} (P Q : A → bool) xs :
  (∀ x, x ∈ xs → P x = Q x) → List.find P xs = List.find Q xs.
Proof.
  induction xs as [|x xs IH]; intros HPQ; [done|]. simpl. rewrite (HPQ x), IH by set_solver. done.
Qed.

Lemma view_ext l l' :
  (∀ i, (i < NBUF)%nat → vw (nd l' i) = vw (nd l i)) →
  (∀ D n, blk l' D n = blk l D n) ∧ dirty_blocks l' = dirty_blocks l.
Proof.
  intros Hv. split.
  - intros D n. unfold blk.
    assert (Hc : cached l' n = cached l n).
    { apply find_ext. intros i Hi%elem_of_seq. unfold caches, valid.
      assert (Hi' : (i < NBUF)%nat) by lia. injection (Hv i Hi') as E1 E2 E3 E4.
      by rewrite E1, E2, E3. }
    rewrite Hc. destruct (cached l n) as [i|] eqn:E; [|done]. apply find_seq_Some in E as [Hi _].
    by injection (Hv i Hi).
  - apply set_eq. intros n. rewrite !elem_of_dirty_blocks.
    assert (Hd : ∀ i, (i < NBUF)%nat → dirty (nd l' i) = dirty (nd l i) ∧ blockno (nd l' i) = blockno (nd l i)).
    { intros i Hi. injection (Hv i Hi) as E1 E2 E3 E4. unfold dirty. by rewrite E1, E3. }
    split; intros (i & Hi & H1 & H2); exists i; destruct (Hd i Hi) as [E1 E2];
      split_and!; congruence.
Qed.

(** A change of one buffer that leaves its links alone. *)
Lemma ring_alter f i l xs :
  ring l xs → (∀ b, next (f b) = next b) → (∀ b, prev (f b) = prev b) → ring (alter f i l) xs.
Proof.
  intros (Hlen & Hnd & Hlt & Hl) Hn Hp.
  assert (Hf : ∀ c, next (nd (alter f i l) c) = next (nd l c) ∧ prev (nd (alter f i l) c) = prev (nd l c)).
  { intros c. unfold nd. rewrite list_lookup_alter. case_decide; subst; [|done].
    destruct (l !! c); simpl; [by rewrite Hn, Hp|done]. }
  split_and!; [by rewrite length_alter|done..|]. apply (linked_ext l); [done|intros c _; apply Hf..].
Qed.

Lemma bcinv_alter q l D H xs f i H' :
  bcinv q l D H xs → (i < NBUF)%nat →
  (∀ b, next (f b) = next b) → (∀ b, prev (f b) = prev b) →
  NoDup H' → (∀ j, j ≠ i → j ∈ H' ↔ j ∈ H) →
  buf_ok q D (bool_decide (i ∈ H')) (f (nd l i)) →
  (dev (f (nd l i)) = 1 → ∀ j, (j < NBUF)%nat → j ≠ i → dev (nd l j) = 1 →
   blockno (nd l j) ≠ blockno (f (nd l i))) →
  bcinv q (alter f i l) D H' xs.
Proof.
  intros Hbc Hi Hn Hp Hnd HH' Hok Hun. pose proof (bc_length Hbc) as Hlen.
  assert (Hnd' : ∀ j, nd (alter f i l) j = if decide (i = j) then f (nd l j) else nd l j)
    by (intros j; apply nd_alter; lia).
  split.
  - apply ring_alter; [apply Hbc|done..].
  - apply Hbc.
  - done.
  - intros j Hj. destruct (decide (j = i)) as [->|Hne]; [done|].
    apply (bi_bound _ _ _ _ _ Hbc). by apply HH'.
  - intros j Hj. rewrite Hnd'. destruct (decide (i = j)) as [<-|Hij]; [exact Hok|].
    rewrite (bool_decide_ext (j ∈ H') (j ∈ H)) by (apply HH'; congruence). by apply Hbc.
  - intros j k Hj Hk. rewrite !Hnd'.
    destruct (decide (i = j)) as [<-|Hij], (decide (i = k)) as [<-|Hik]; [done|..].
    + intros Hdj Hdk Hb. exfalso. apply (Hun Hdj k Hk); congruence.
    + intros Hdj Hdk Hb. exfalso. apply (Hun Hdk j Hj); congruence.
    + by apply Hbc.
  - apply Hbc.
Qed.

(** Moving a buffer to the front of the ring. *)
Definition relinked (a b : nat) (x : buf) : buf := x <| next := a |> <| prev := b |>.

Lemma set_next_links j k l c : ∃ a b, nd (set_next j k l) c = relinked a b (nd l c).
Proof.
  unfold set_next, nd. rewrite list_lookup_alter. case_decide; subst;
    destruct (l !! c) as [x|]; try (by exists (next buf0), (prev buf0)); [by exists k, (prev x)|].
  exists (next x), (prev x). by destruct x.
Qed.
Lemma set_prev_links j k l c : ∃ a b, nd (set_prev j k l) c = relinked a b (nd l c).
Proof.
  unfold set_prev, nd. rewrite list_lookup_alter. case_decide; subst;
    destruct (l !! c) as [x|]; try (by exists (next buf0), (prev buf0)); [by exists (next x), k|].
  exists (next x), (prev x). by destruct x.
Qed.
Ltac only_links :=
  repeat match goal with
  | |- context [nd (set_next ?j ?k ?l) ?c] => destruct (set_next_links j k l c) as (? & ? & ->)
  | |- context [nd (set_prev ?j ?k ?l) ?c] => destruct (set_prev_links j k l c) as (? & ? & ->)
  end; by eexists _, _.

Lemma push_front_nd i l c : ∃ a b, nd (push_front i l) c = relinked a b (nd l c).
Proof. unfold push_front. only_links. Qed.
Lemma relink_nd i l c : ∃ a b, nd ((push_front i ∘ unlink i) l) c = relinked a b (nd l c).
Proof. simpl. destruct (push_front_nd i (unlink i l) c) as (? & ? & ->). unfold unlink. only_links. Qed.

Lemma bcinv_relink q l D H xs i :
  bcinv q l D H xs → (i < NBUF)%nat →
  ∃ ys zs, xs = ys ++ i :: zs ∧ bcinv q ((push_front i ∘ unlink i) l) D H (i :: ys ++ zs).
Proof.
  intros Hbc Hi.
  assert (Hix : i ∈ xs) by (rewrite (bi_perm _ _ _ _ _ Hbc), elem_of_seq; lia).
  apply list_elem_of_split in Hix as (ys & zs & ->). exists ys, zs. split; [done|].
  pose proof (bi_ring _ _ _ _ _ Hbc) as Hr. pose proof Hr as (_ & Hnd & _).
  apply NoDup_cons in Hnd as [_ Hnd]. apply NoDup_app in Hnd as (_ & Hy & Hz).
  apply NoDup_cons in Hz as [Hz _].
  assert (Hpay : ∀ c, ∃ a b, nd ((push_front i ∘ unlink i) l) c = relinked a b (nd l c))
    by (intros; apply relink_nd).
  split.
  - apply push_front_ring; [by apply unlink_ring|done|set_solver].
  - by rewrite Permutation_middle, (bi_perm _ _ _ _ _ Hbc).
  - apply Hbc.
  - apply Hbc.
  - intros j Hj. destruct (Hpay j) as (a & b & ->). by apply (bi_bufs _ _ _ _ _ Hbc).
  - intros j k Hj Hk. destruct (Hpay j) as (a & b & ->), (Hpay k) as (a' & b' & ->). by apply Hbc.
  - apply Hbc.
Qed.

Lemma relink_vw i l c : vw (nd ((push_front i ∘ unlink i) l) c) = vw (nd l c).
Proof. by destruct (relink_nd i l c) as (a & b & ->). Qed.

(** ** What the operations do *)

(** The cache of the kernel [s]. *)
Abbreviation nodes s := (bnodes (kbio s)).
Definition bc (q : Z) (H xs : list nat) (s : kernel) : Prop :=
  bcinv q (nodes s) (memdisk (kdisk s)) H xs.
Definition block (s : kernel) (n : Z) : list Z := blk (nodes s) (memdisk (kdisk s)) n.
Definition pinned (s : kernel) : gset Z := dirty_blocks (nodes s).

(** A process that runs and holds no spin lock. *)
Definition alone (q : Z) (s : kernel) : Prop :=
  held s = [] ∧ ∃ me p, runs_as me p s ∧ state p = RUNNING ∧ pid p = q.

Lemma find_unique {A} (P : A → bool) xs i :
  i ∈ xs → P i = true → (∀ j, j ∈ xs → P j = true → j = i) → List.find P xs = Some i.
Proof.
  induction xs as [|x xs IH]; intros Hi HP Hu; [by apply not_elem_of_nil in Hi|]. simpl.
  destruct (P x) eqn:E; [f_equal; apply Hu; set_solver|].
  apply IH; [|done|set_solver]. apply elem_of_cons in Hi as [->|]; [congruence|done].
Qed.

Lemma find_first {A} (P : A → bool) xs i :
  List.find P xs = Some i → ∃ ys zs, xs = ys ++ i :: zs ∧ ∀ j, j ∈ ys → P j = false.
Proof.
  induction xs as [|x xs IH]; intros Hf; [done|]. simpl in Hf. destruct (P x) eqn:E.
  - simplify_eq. exists [], xs. split; [done|]. by intros j ?%not_elem_of_nil.
  - destruct (IH Hf) as (ys & zs & -> & Hys). exists (x :: ys), zs. split; [done|].
    intros j [->|?]%elem_of_cons; auto.
Qed.

Lemma bc_find_hit q H xs s n i :
  bc q H xs s → (i < NBUF)%nat → dev (nd (nodes s) i) = 1 → blockno (nd (nodes s) i) = n →
  scan next (caches 1 n) (nodes s) (S NBUF) (next (nd (nodes s) HEAD)) = Some i.
Proof.
  intros Hbc Hi Hd Hn. pose proof (bi_ring _ _ _ _ _ Hbc) as (_ & Hnd & Hlt & Hl).
  pose proof (bi_perm _ _ _ _ _ Hbc) as Hperm. apply NoDup_cons in Hnd as [HH _].
  rewrite (scan_next _ _ _ xs); [|done|done|rewrite Hperm, length_seq; lia].
  apply find_unique.
  - rewrite Hperm, elem_of_seq. lia.
  - by apply caches_true.
  - intros j Hj [Hdj Hbj]%caches_true. rewrite Hperm, elem_of_seq in Hj.
    apply (bi_uniq _ _ _ _ _ Hbc); [lia|done|done|done|congruence].
Qed.

Lemma bc_find_miss q H xs s n :
  bc q H xs s → cached (nodes s) n = None →
  scan next (caches 1 n) (nodes s) (S NBUF) (next (nd (nodes s) HEAD)) = None ∧
  scan prev unused (nodes s) (S NBUF) (prev (nd (nodes s) HEAD)) =
    List.find (λ i, unused (nd (nodes s) i)) (reverse xs).
Proof.
  intros Hbc Hc. pose proof (bi_ring _ _ _ _ _ Hbc) as (_ & Hnd & Hlt & Hl).
  pose proof (bi_perm _ _ _ _ _ Hbc) as Hperm. apply NoDup_cons in Hnd as [HH _].
  assert (Hlen : (length xs < S NBUF)%nat) by (rewrite Hperm, length_seq; lia). split.
  - rewrite (scan_next _ _ _ xs) by done. destruct (List.find _ xs) as [i|] eqn:E; [|done].
    apply List.find_some in E as [Hi [Hd Hb]%caches_true].
    apply list_elem_of_In in Hi. rewrite Hperm, elem_of_seq in Hi.
    by destruct (proj1 (cached_none Hbc n) Hc i ltac:(lia) Hd).
  - by rewrite (scan_prev _ _ xs).
Qed.

(** [bget] has found buffer [i]: it changes it with [f] and locks it. *)
Lemma bget_tail i f q s b :
  alone q s → nodes s !! i = Some b → sl_locked (b_lock (f b)) = 0 →
  (updb i f ;; release LkBcache ;; acquiresleep (SlBuf i) ;; ret i) (s <| held := [LkBcache] |>) =
  Ok i (upd_nodes (alter (λ b, (f b) <| b_lock := mksl 1 q |>) i) s).
Proof.
  intros (Hh & me & p & (Hr & Hp) & Hst & Hq) Hb Hl.
  rewrite (bind_ok (updb _ _) _ _ _ _ eq_refl).
  set (s1 := upd_nodes (alter f i) (s <| held := [LkBcache] |>)).
  rewrite (bind_ok _ _ _ _ _ (release_last LkBcache s1 eq_refl)).
  erewrite (bind_ok (acquiresleep _)).
  2:{ apply (acquiresleep_eq _ _ me p); [done|exact Hr|exact Hp|].
      simpl. by rewrite list_lookup_alter_eq, Hb. }
  unfold ret. f_equal. unfold upd_nodes. destruct s as [hd ? ? ? ? ? ? [l] ? ? ? ? ?]. simpl in *. subst.
  unfold modify. simpl. do 2 f_equal. by rewrite list_alter_alter_eq.
Qed.

(** A buffer [bget] has found, or recycled, and locked. *)
Definition lock_buf (q : Z) (b : buf) : buf :=
  b <| refcnt := u32 (refcnt b + 1) |> <| b_lock := mksl 1 q |>.
Definition recycle_buf (q n : Z) (b : buf) : buf :=
  b <| dev := 1 |> <| blockno := n |> <| flags := 0 |> <| refcnt := 1 |> <| b_lock := mksl 1 q |>.

Lemma nodes_upd f s : nodes (upd_nodes f s) = f (nodes s).
Proof. done. Qed.

Lemma bget_hit q H xs s n i :
  alone q s → bc q H xs s → (i < NBUF)%nat → i ∉ H →
  dev (nd (nodes s) i) = 1 → blockno (nd (nodes s) i) = n →
  bget 1 n s = Ok i (upd_nodes (alter (lock_buf q) i) s).
Proof.
  intros Ha Hbc Hi HH Hd Hn. unfold bget. pose proof Ha as [Hh _].
  rewrite (bind_ok _ _ _ _ _ (acquire_free _ _ Hh)). set (s1 := s <| held := [LkBcache] |>).
  rewrite (bind_ok (gets (λ s, nodes s)) _ s1 (nodes s) s1 eq_refl). unfold s1.
  rewrite (bc_find_hit q H xs s n i) by done.
  destruct (bc_idle Hbc i Hi HH) as (_ & Hl & _). by eapply bget_tail; [|apply (bc_buf Hbc)|].
Qed.

Lemma bget_miss q H xs s n i :
  alone q s → bc q H xs s → cached (nodes s) n = None →
  List.find (λ i, unused (nd (nodes s) i)) (reverse xs) = Some i → i ∉ H →
  bget 1 n s = Ok i (upd_nodes (alter (recycle_buf q n) i) s).
Proof.
  intros Ha Hbc Hc Hf HH. unfold bget. pose proof Ha as [Hh _].
  rewrite (bind_ok _ _ _ _ _ (acquire_free _ _ Hh)). set (s1 := s <| held := [LkBcache] |>).
  rewrite (bind_ok (gets (λ s, nodes s)) _ s1 (nodes s) s1 eq_refl). unfold s1.
  destruct (bc_find_miss q H xs s n) as [-> ->]; [done..|]. rewrite Hf.
  apply List.find_some in Hf as [Hi _]. apply list_elem_of_In in Hi.
  rewrite elem_of_reverse, (bi_perm _ _ _ _ _ Hbc), elem_of_seq in Hi.
  assert (Hi' : (i < NBUF)%nat) by lia. destruct (bc_idle Hbc i Hi' HH) as (_ & Hl & _).
  erewrite bget_tail; [|done|by apply (bc_buf Hbc)|done]. done.
Qed.

(** ** What they leave alone *)

(** Sleeping processes may have been woken. *)
Definition wakes : list proc → list proc → Prop :=
  Forall2 (λ p p', p' = p ∨ (state p = SLEEPING ∧ p' = p <| state := RUNNABLE |>)).

#[export] Instance wakes_preorder : PreOrder wakes.
Proof.
  split.
  - intros l. apply Forall_Forall2_diag, Forall_forall. auto.
  - intros l1 l2 l3 H12 H23. revert l3 H23.
    induction H12 as [|p1 p2 l1 l2 Hp _ IH]; intros l3 H23; inversion H23 as [|? p3 ? ? Hp']; subst;
      [constructor|]. constructor; [|by apply IH].
    destruct Hp as [->|[? ->]], Hp' as [->|[? ->]]; [by left|by right|by right|done].
Qed.

Lemma woken_wakes ch l : wakes l (woken ch l).
Proof.
  apply Forall2_fmap_r, Forall_Forall2_diag, Forall_forall. intros p _. simpl. unfold wake.
  do 2 case_bool_decide; simpl; auto.
Qed.

(** Only the cache and the disk differ, and who sleeps. *)
Definition bframe (s s' : kernel) : Prop :=
  wakes (ptable (kproc s)) (ptable (kproc s')) ∧
  s' = s <| kbio := kbio s' |> <| kdisk := kdisk s' |>
         <| kproc ::= λ k, k <| ptable := ptable (kproc s') |> |>.

#[export] Instance bframe_preorder : PreOrder bframe.
Proof.
  split.
  - intros s. split; [reflexivity|]. by destruct s as [? ? []].
  - intros s1 s2 s3 [W1 E1] [W2 E2]. split; [by etransitivity|].
    rewrite E1 in E2. rewrite E2. reflexivity.
Qed.

Lemma bframe_nodes f s : bframe s (upd_nodes f s).
Proof. split; [reflexivity|]. by destruct s as [? ? []]. Qed.

Lemma alone_frame q s s' : alone q s → bframe s s' → alone q s'.
Proof.
  intros (Hh & me & p & [Hr Hp] & Hst & Hq) [HW ->]. split; [done|].
  destruct (Forall2_lookup_l _ _ _ _ _ HW Hp) as (p' & Hp' & [->|[Hs _]]); [|congruence].
  by exists me, p.
Qed.
#[export] Hint Resolve alone_frame bframe_nodes : xv6.

(** ** The driver of memide.c *)

Lemma memide_spec i me p s :
  held s = [] → runs_as me p s → is_Some (bnodes (kbio s) !! i) →
  let b := nd (bnodes (kbio s)) i in
  sl_locked (b_lock b) ≠ 0 → sl_pid (b_lock b) = pid p →
  Z.land (flags b) (Z.lor B_VALID B_DIRTY) ≠ B_VALID →
  dev b = 1 → 0 ≤ blockno b < Z.of_nat (length (memdisk (kdisk s))) →
  memide_rw i s = Ok tt (if Z.land (flags b) B_DIRTY =? 0 then disk_read i s else disk_write i s).
Proof.
  intros Hh [Hr Hp] [x Hx] b Hl Hq Hf Hd Hn. unfold memide_rw.
  rewrite (bind_ok _ _ _ _ _ (holdingsleep_eq (SlBuf i) _ _ _ Hh Hr Hp)).
  change (sl_of (SlBuf i) s) with (b_lock b). rewrite (proj2 (Z.eqb_neq _ _) Hl), Hq, Z.eqb_refl. simpl.
  unfold getb. rewrite (bind_ok (gets _) _ _ _ _ eq_refl). fold b.
  rewrite (proj2 (Z.eqb_neq _ _) Hf), Hd. simpl. rewrite (bind_ok (gets _) _ _ _ _ eq_refl).
  rewrite (proj2 (Z.leb_gt _ _)) by lia.
  assert (Hb : b = x) by (unfold b, nd; by rewrite Hx).
  destruct (_ =? 0); simpl.
  - unfold updb, disk_read, upd_nodes. munfold. f_equal. unfold modify. simpl. do 2 f_equal.
    rewrite list_alter_alter_eq. apply list_alter_ext; [|done]. intros y Hy. simpl. simplify_eq. done.
  - unfold updb, disk_write, upd_nodes. munfold. f_equal. unfold modify. simpl. fold b. f_equal. f_equal.
    by rewrite list_alter_alter_eq.
Qed.

#[export] Instance memide : Disk := { iderw := memide_rw; iderw_spec := memide_spec }.

(** ** Specifications *)

(** What [bread] of block [n] gives: buffer [i], held, with the contents of the
    block; nobody can tell a difference otherwise. *)
Record bread_post (q n : Z) (H xs : list nat) (s : kernel) (i : nat) (s' : kernel) : Prop := {
  br_new : i ∉ H;
  br_bc : bc q (i :: H) xs s';
  br_blockno : blockno (nd (nodes s') i) = n;
  br_data : data (nd (nodes s') i) = block s n;
  br_others : ∀ j, j ≠ i → nd (nodes s') j = nd (nodes s) j;
  br_block : ∀ m, block s' m = block s m;
  br_pinned : pinned s' = pinned s;
  br_disk : kdisk s' = kdisk s;
  br_frame : bframe s s' }.

Section Specs.
Context {dk : Disk}.

Lemma bread_hit q H xs s n i :
  alone q s → bc q H xs s → cached (nodes s) n = Some i → i ∉ H →
  ∃ s', bread 1 n s = Ok i s' ∧ bread_post q n H xs s i s'.
Proof.
  intros Ha Hbc Hc HH. destruct (cached_inv _ _ Hc) as (Hi & Hd & Hn).
  exists (upd_nodes (alter (lock_buf q) i) s).
  assert (Hnd : ∀ j, nd (alter (lock_buf q) i (nodes s)) j =
                     if decide (i = j) then lock_buf q (nd (nodes s) j) else nd (nodes s) j).
  { intros j. apply nd_alter. rewrite (bc_length Hbc). lia. }
  assert (Hndi : nd (alter (lock_buf q) i (nodes s)) i = lock_buf q (nd (nodes s) i))
    by (by rewrite Hnd, decide_True).
  destruct (bc_used Hbc i Hi Hd) as [Hb Hfl]. split.
  - unfold bread. rewrite (bind_ok _ _ _ _ _ (bget_hit q H xs s n i Ha Hbc Hi HH Hd Hn)).
    unfold getb. rewrite (bind_ok (gets _) _ _ _ _ eq_refl).
    rewrite nodes_upd, Hndi. simpl. by destruct Hfl as [-> | ->].
  - destruct (view_ext (nodes s) (alter (lock_buf q) i (nodes s))) as [Hv1 Hv2].
    { intros j _. rewrite Hnd. by case_decide. }
    split; [done|..|done|auto with xv6]; unfold bc, block, pinned; simpl.
    + apply bcinv_alter with (H := H); try done.
      * constructor; [done|apply Hbc].
      * intros j Hj. rewrite elem_of_cons. naive_solver.
      * destruct (bi_bufs _ _ _ _ _ Hbc i Hi) as [Hlen _], (bc_idle Hbc i Hi HH) as (Hrc & _).
        rewrite bool_decide_true by apply list_elem_of_here. split; [done|].
        unfold held_ok. simpl. rewrite Hrc. done.
      * intros _ j Hj Hne Hdj Hbj. apply Hne, (bi_uniq _ _ _ _ _ Hbc); try done; congruence.
    + by rewrite Hndi.
    + rewrite Hndi. simpl. rewrite <-Hn. by rewrite (blk_cached Hbc).
    + intros j Hj. rewrite Hnd. by rewrite decide_False.
    + intros m. apply Hv1.
    + done.
Qed.

(** The buffer [bget] recycles: the least recently used of those that are
    neither held nor pinned. *)
Lemma unused_idle q l D H xs i :
  bcinv q l D H xs → (i < NBUF)%nat → unused (nd l i) = true ↔ (i ∉ H) ∧ dirty (nd l i) = false.
Proof.
  intros Hbc Hi. unfold unused, dirty. rewrite andb_true_iff, negb_false_iff, Z.eqb_eq.
  destruct (decide (i ∈ H)) as [HH|HH].
  - destruct (bc_held Hbc i HH) as (_ & _ & Hr & _). rewrite Hr. naive_solver lia.
  - destruct (bc_idle Hbc i Hi HH) as (Hr & _). naive_solver.
Qed.

Lemma lru_found q l D H xs :
  bcinv q l D H xs → (size (dirty_blocks l) + length H < NBUF)%nat →
  ∃ i, List.find (λ i, unused (nd l i)) (reverse xs) = Some i ∧ (i < NBUF)%nat ∧ (i ∉ H) ∧
       dirty (nd l i) = false.
Proof.
  intros Hbc Hsz. destruct (bc_room Hbc Hsz) as (j & Hj & HjH & Hjd).
  assert (Hin : ∀ i, i ∈ reverse xs ↔ (i < NBUF)%nat).
  { intros i. rewrite elem_of_reverse, (bi_perm _ _ _ _ _ Hbc), elem_of_seq. lia. }
  destruct (List.find _ _) as [i|] eqn:E.
  - apply List.find_some in E as [Hi Hu]. apply list_elem_of_In, Hin in Hi.
    exists i. apply (unused_idle _ _ _ _ _ _ Hbc Hi) in Hu. tauto.
  - eapply List.find_none in E; [|by apply list_elem_of_In, Hin, Hj]. simpl in E.
    by rewrite (proj2 (unused_idle _ _ _ _ _ _ Hbc Hj)) in E.
Qed.

Definition loaded (q n : Z) (d : list Z) (b : buf) : buf :=
  (recycle_buf q n b) <| data := d |> <| flags := B_VALID |>.

Lemma bread_miss_eq q H xs s n i d :
  alone q s → bc q H xs s → cached (nodes s) n = None →
  List.find (λ i, unused (nd (nodes s) i)) (reverse xs) = Some i → i ∉ H → (i < NBUF)%nat →
  0 ≤ n → memdisk (kdisk s) !! Z.to_nat n = Some d →
  bread 1 n s = Ok i (upd_nodes (alter (loaded q n d) i) s).
Proof.
  intros Ha Hbc Hc Hf HH Hi Hn Hd. unfold bread.
  rewrite (bind_ok _ _ _ _ _ (bget_miss q H xs s n i Ha Hbc Hc Hf HH)).
  set (s1 := upd_nodes (alter (recycle_buf q n) i) s).
  assert (Hx : nodes s1 !! i = Some (recycle_buf q n (nd (nodes s) i)))
    by (simpl; by rewrite list_lookup_alter_eq, (bc_buf Hbc i Hi)).
  assert (Hb : nd (nodes s1) i = recycle_buf q n (nd (nodes s) i)) by (unfold nd; by rewrite Hx).
  unfold getb. rewrite (bind_ok (gets _) _ _ _ _ eq_refl), Hb. simpl (_ =? 0).
  destruct Ha as (Hh & me & p & Hr & Hst & Hq).
  erewrite (bind_ok (iderw i)).
  2:{ apply (iderw_spec i me p); rewrite ?Hb; try done; try by eexists.
      simpl. apply lookup_lt_Some in Hd. lia. }
  rewrite Hb. simpl (Z.land _ _ =? 0). unfold ret, disk_read. f_equal.
  unfold s1, upd_nodes. destruct s as [? ? ? ? ? ? ? [l] [D ?] ? ? ? ?]. simpl in *.
  unfold modify. simpl. do 2 f_equal. rewrite list_alter_alter_eq. apply list_alter_ext; [|done].
  intros y _. simpl. unfold loaded, recycle_buf. simpl. by rewrite Hd.
Qed.

(** Recycling a clean buffer changes the contents of no block. *)
Lemma recycle_view q l D H xs n i d :
  bcinv q l D H xs → cached l n = None → (i < NBUF)%nat → i ∉ H → dirty (nd l i) = false →
  D !! Z.to_nat n = Some d → 0 ≤ n < Z.of_nat (length D) → length d = Z.to_nat BSIZE →
  bcinv q (alter (loaded q n d) i l) D (i :: H) xs ∧
  (∀ m, blk (alter (loaded q n d) i l) D m = blk l D m) ∧
  dirty_blocks (alter (loaded q n d) i l) = dirty_blocks l.
Proof.
  intros Hbc Hc Hi HH Hdt Hd Hn Hlen.
  assert (Hnd : ∀ j, nd (alter (loaded q n d) i l) j =
                     if decide (i = j) then loaded q n d (nd l j) else nd l j).
  { intros j. apply nd_alter. rewrite (bc_length Hbc). lia. }
  assert (Hndi : nd (alter (loaded q n d) i l) i = loaded q n d (nd l i)) by (by rewrite Hnd, decide_True).
  assert (Hbc' : bcinv q (alter (loaded q n d) i l) D (i :: H) xs).
  { apply bcinv_alter with (H := H); try done.
    - constructor; [done|apply Hbc].
    - intros j Hj. rewrite elem_of_cons. naive_solver.
    - rewrite bool_decide_true by apply list_elem_of_here. split; [done|].
      unfold held_ok. simpl. split_and!; (done || lia || by left).
    - intros _ j Hj _ Hdj. simpl. by apply (proj1 (cached_none Hbc n) Hc). }
  split_and!; [done| |].
  - intros m. destruct (decide (m = n)) as [->|Hmn].
    { rewrite (blk_none n Hc), Hd. pose proof (blk_cached Hbc' i Hi) as HB. rewrite Hndi in HB.
      exact (HB eq_refl). }
    destruct (cached l m) as [j|] eqn:E.
    + destruct (cached_inv _ _ E) as (Hj & Hdj & Hbj). subst m. rewrite (blk_cached Hbc j) by done.
      destruct (decide (i = j)) as [<-|Hij].
      * rewrite blk_none.
        -- destruct (bc_idle Hbc i Hi HH) as (_ & _ & [[? _]|(_ & _ & [Hf|[_ ->]])]);
             [congruence| |done]. unfold dirty in Hdt. by rewrite Hf in Hdt.
        -- apply (cached_none Hbc'). intros k Hk. rewrite Hnd. case_decide; [by subst|].
           intros Hdk Hbk. assert (k = i) by (by apply (bi_uniq _ _ _ _ _ Hbc)). congruence.
      * assert (Hj' : nd (alter (loaded q n d) i l) j = nd l j) by (by rewrite Hnd, decide_False).
        pose proof (blk_cached Hbc' j Hj) as HB. rewrite Hj' in HB. exact (HB Hdj).
    + rewrite (blk_none m E). apply blk_none, (cached_none Hbc'). intros k Hk. rewrite Hnd.
      case_decide; [by subst|]. by apply (cached_none Hbc).
  - apply set_eq. intros m. rewrite !elem_of_dirty_blocks.
    split; intros (j & Hj & Hdj & Hbj); exists j.
    + rewrite Hnd in Hdj, Hbj. by case_decide.
    + rewrite Hnd. case_decide; subst; [congruence|done].
Qed.

Lemma bread_miss q H xs s n :
  alone q s → bc q H xs s → cached (nodes s) n = None →
  0 ≤ n < Z.of_nat (length (memdisk (kdisk s))) → (size (pinned s) + length H < NBUF)%nat →
  ∃ i s', bread 1 n s = Ok i s' ∧ bread_post q n H xs s i s'.
Proof.
  intros Ha Hbc Hc Hn Hsz. destruct (lru_found _ _ _ _ _ Hbc Hsz) as (i & Hf & Hi & HH & Hdt).
  destruct (lookup_lt_is_Some_2 (memdisk (kdisk s)) (Z.to_nat n)) as [d Hd]; [lia|].
  pose proof (Forall_lookup_1 _ _ _ _ (bi_disk _ _ _ _ _ Hbc) Hd) as Hlen.
  exists i, (upd_nodes (alter (loaded q n d) i) s). split; [by eapply bread_miss_eq; try lia|].
  destruct (recycle_view q _ _ H xs n i d Hbc) as (Hbc' & Hv1 & Hv2); try done.
  assert (Hlt : (i < length (nodes s))%nat) by (rewrite (bc_length Hbc); lia).
  split; [done|done|..|exact Hv1|exact Hv2|done|auto with xv6]; rewrite ?nodes_upd.
  - by rewrite nd_alter, decide_True.
  - rewrite nd_alter, decide_True by done. unfold block. by rewrite blk_none, Hd.
  - intros j Hj. by rewrite nd_alter, decide_False.
Qed.

(** [bread] of a block that is not held. *)
Lemma bread_ok q H xs s n :
  alone q s → bc q H xs s → 0 ≤ n < Z.of_nat (length (memdisk (kdisk s))) →
  (∀ i, i ∈ H → blockno (nd (nodes s) i) ≠ n) →
  (n ∈ pinned s ∨ (size (pinned s) + length H < NBUF)%nat) →
  ∃ i s', bread 1 n s = Ok i s' ∧ bread_post q n H xs s i s'.
Proof.
  intros Ha Hbc Hn HH Hroom. destruct (cached (nodes s) n) as [i|] eqn:E.
  - destruct (cached_inv _ _ E) as (Hi & Hd & Hb).
    destruct (bread_hit q H xs s n i Ha Hbc E) as (s' & ? & ?); [|by exists i, s'].
    intros HiH. by apply (HH i).
  - apply bread_miss; try done. destruct Hroom as [Hp|]; [|done].
    apply elem_of_dirty_blocks in Hp as (i & Hi & Hdt & Hb).
    by destruct (proj1 (cached_none Hbc n) E i Hi (bc_dirty_dev Hbc i Hi Hdt)).
Qed.

(** *** Changes of a held buffer *)

(** A new [data] or new flags for a held buffer. *)
Lemma bcinv_held q l D H xs i f :
  bcinv q l D H xs → i ∈ H → (∀ b, next (f b) = next b) → (∀ b, prev (f b) = prev b) →
  length (data (f (nd l i))) = Z.to_nat BSIZE → held_ok q D (f (nd l i)) →
  blockno (f (nd l i)) = blockno (nd l i) → bcinv q (alter f i l) D H xs.
Proof.
  intros Hbc HH Hn Hp Hlen Hok Hb. pose proof (bi_bound _ _ _ _ _ Hbc i HH) as Hi.
  apply bcinv_alter with (H := H); try done.
  - apply Hbc.
  - rewrite bool_decide_true by done. done.
  - intros _ j Hj Hne Hdj Hbj. apply Hne, (bi_uniq _ _ _ _ _ Hbc); try done; [|congruence].
    by destruct (bc_held Hbc i HH).
Qed.

(** The contents of the other blocks stay. *)
Lemma blk_held q l D H xs i f m :
  bcinv q l D H xs → i ∈ H → bcinv q (alter f i l) D H xs →
  blockno (f (nd l i)) = blockno (nd l i) →
  blk (alter f i l) D m = if decide (m = blockno (nd l i)) then data (f (nd l i)) else blk l D m.
Proof.
  intros Hbc HH Hbc' Hb. pose proof (bi_bound _ _ _ _ _ Hbc i HH) as Hi.
  assert (Hnd : ∀ j, nd (alter f i l) j = if decide (i = j) then f (nd l j) else nd l j).
  { intros j. apply nd_alter. rewrite (bc_length Hbc). lia. }
  assert (Hdi : dev (nd l i) = 1) by (by destruct (bc_held Hbc i HH)).
  destruct (bc_held Hbc' i HH) as [Hdi' _]. destruct (decide (m = _)) as [->|Hm].
  - pose proof (blk_cached Hbc' i Hi) as HB. rewrite Hnd, decide_True in HB, Hdi' by done.
    rewrite <-Hb. by apply HB.
  - destruct (cached l m) as [j|] eqn:E.
    + destruct (cached_inv _ _ E) as (Hj & Hdj & Hbj). subst m. rewrite (blk_cached Hbc j) by done.
      assert (Hj' : nd (alter f i l) j = nd l j) by (rewrite Hnd, decide_False; congruence).
      pose proof (blk_cached Hbc' j Hj) as HB. rewrite Hj' in HB. by apply HB.
    + rewrite (blk_none m E). apply blk_none, (cached_none Hbc'). intros k Hk. rewrite Hnd.
      case_decide; [subst; by rewrite Hb|]. by apply (cached_none Hbc).
Qed.

Lemma dirty_held q l D H xs i f :
  bcinv q l D H xs → i ∈ H → blockno (f (nd l i)) = blockno (nd l i) →
  dirty_blocks (alter f i l) =
  (if dirty (f (nd l i)) then {[blockno (nd l i)]} else ∅) ∪ dirty_blocks l ∖ {[blockno (nd l i)]}.
Proof.
  intros Hbc HH Hb. pose proof (bi_bound _ _ _ _ _ Hbc i HH) as Hi.
  assert (Hnd : ∀ j, nd (alter f i l) j = if decide (i = j) then f (nd l j) else nd l j).
  { intros j. apply nd_alter. rewrite (bc_length Hbc). lia. }
  assert (Hdi : dev (nd l i) = 1) by (by destruct (bc_held Hbc i HH)).
  apply set_eq. intros m. rewrite elem_of_union, elem_of_difference, !elem_of_dirty_blocks. split.
  - intros (j & Hj & Hdj & Hbj). rewrite Hnd in Hdj, Hbj. case_decide as Hij; subst.
    + left. rewrite Hdj, Hb. set_solver.
    + right. split; [by exists j|]. rewrite elem_of_singleton. intros Heq.
      apply Hij. apply (bi_uniq _ _ _ _ _ Hbc); try done. by apply (bc_dirty_dev Hbc).
  - intros [Hm|[(j & Hj & Hdj & Hbj) Hne]].
    + destruct (dirty (f (nd l i))) eqn:E; [|set_solver]. apply elem_of_singleton in Hm as ->.
      exists i. by rewrite Hnd, decide_True.
    + exists j. rewrite Hnd, decide_False; [done|]. intros ->. set_solver.
Qed.

(** A write to the disk of the block of a held buffer. *)
Lemma bcinv_disk q l D H xs i d :
  bcinv q l D H xs → i ∈ H → length d = Z.to_nat BSIZE →
  bcinv q l (<[Z.to_nat (blockno (nd l i)) := d]> D) H xs.
Proof.
  intros Hbc HH Hlen. pose proof (bi_bound _ _ _ _ _ Hbc i HH) as Hi.
  destruct (bc_held Hbc i HH) as (Hdi & Hbi & _). split; try apply Hbc; [|by apply Forall_insert, Hlen; apply Hbc].
  intros j Hj. destruct (bi_bufs _ _ _ _ _ Hbc j Hj) as [Hl Hok]. split; [done|].
  case_bool_decide as HjH; unfold held_ok, idle_ok in *; rewrite length_insert; [done|].
  destruct Hok as (Hr & Hlk & Hcase). split_and!; [done..|].
  destruct Hcase as [?|(Hdj & Hbj & [?|[Hf Hdd]])]; [by left|by right; auto|right].
  split_and!; [done|lia|lia|]. right. split; [done|]. rewrite list_lookup_insert_ne; [done|].
  intros Heq. assert (blockno (nd l i) = blockno (nd l j)) by lia.
  assert (i = j) by (by apply (bi_uniq _ _ _ _ _ Hbc)). by subst.
Qed.

Lemma holdingsleep_held q H xs s i :
  alone q s → bc q H xs s → i ∈ H → holdingsleep (SlBuf i) s = Ok true s.
Proof.
  intros (Hh & me & p & [Hr Hp] & _ & Hq) Hbc HH. rewrite (holdingsleep_eq _ _ me p) by done.
  destruct (bc_held Hbc i HH) as (_ & _ & _ & Hl & Hpid & _). simpl. fold (nd (nodes s) i).
  by rewrite (proj2 (Z.eqb_neq _ _) Hl), Hpid, Hq, Z.eqb_refl.
Qed.

(** What [bwrite] of a held buffer does. *)
Record bwrite_post (q : Z) (H xs : list nat) (s : kernel) (i : nat) (s' : kernel) : Prop := {
  bw_bc : bc q H xs s';
  bw_buf : nd (nodes s') i = (nd (nodes s) i) <| flags := B_VALID |>;
  bw_others : ∀ j, j ≠ i → nd (nodes s') j = nd (nodes s) j;
  bw_block : ∀ m, 0 ≤ m → block s' m = block s m;
  bw_pinned : pinned s' = pinned s ∖ {[blockno (nd (nodes s) i)]};
  bw_memdisk : memdisk (kdisk s') =
    <[Z.to_nat (blockno (nd (nodes s) i)) := data (nd (nodes s) i)]> (memdisk (kdisk s));
  bw_dwrites : dwrites (kdisk s') =
    dwrites (kdisk s) ++ [(blockno (nd (nodes s) i), data (nd (nodes s) i))];
  bw_frame : bframe s s' }.

Definition write_buf (i : nat) (s : kernel) : kernel :=
  (upd_nodes (alter (λ b, b <| flags := B_VALID |>) i) s)
    <| kdisk ::= λ d, d <| memdisk ::= <[Z.to_nat (blockno (nd (nodes s) i)) := data (nd (nodes s) i)]> |>
                        <| dwrites ::= λ w, w ++ [(blockno (nd (nodes s) i), data (nd (nodes s) i))] |> |>.

Lemma bwrite_eq q H xs s i :
  alone q s → bc q H xs s → i ∈ H → bwrite i s = Ok tt (write_buf i s).
Proof.
  intros Ha Hbc HH. pose proof (bi_bound _ _ _ _ _ Hbc i HH) as Hi.
  destruct (bc_held Hbc i HH) as (Hd & Hb & Hrc & Hl & Hpid & Hfl).
  unfold bwrite. rewrite (bind_ok _ _ _ _ _ (holdingsleep_held _ _ _ _ _ Ha Hbc HH)). simpl.
  unfold updb. rewrite (bind_ok (modify_state _) _ _ _ _ eq_refl).
  set (s1 := upd_nodes _ s). destruct Ha as (Hh & me & p & Hr & Hst & Hq).
  set (b := nd (nodes s) i) in *.
  assert (Hx : nodes s1 !! i = Some (b <| flags := Z.lor (flags b) B_DIRTY |>)).
  { unfold s1. rewrite nodes_upd, list_lookup_alter_eq, (bc_buf Hbc i Hi). done. }
  assert (Hb1 : nd (nodes s1) i = b <| flags := Z.lor (flags b) B_DIRTY |>) by (unfold nd; by rewrite Hx).
  rewrite (iderw_spec i me p); rewrite ?Hb1; try done; try by eexists.
  2:{ simpl. congruence. }
  2:{ simpl. by destruct Hfl as [-> | ->]. }
  assert (Hdd : (Z.land (flags (b <| flags := Z.lor (flags b) B_DIRTY |>)) B_DIRTY =? 0) = false)
    by (simpl; by destruct Hfl as [-> | ->]).
  rewrite Hdd. f_equal. unfold disk_write. rewrite Hb1. unfold write_buf. fold b.
  unfold s1, upd_nodes, modify. simpl. do 2 f_equal. rewrite list_alter_alter_eq.
  apply list_alter_ext; [|done]. intros y Hy. simpl. f_equal.
  assert (y = b) as -> by (unfold b, nd; by rewrite Hy). by destruct Hfl as [-> | ->].
Qed.

Lemma bwrite_ok q H xs s i :
  alone q s → bc q H xs s → i ∈ H →
  ∃ s', bwrite i s = Ok tt s' ∧ bwrite_post q H xs s i s'.
Proof.
  intros Ha Hbc HH. exists (write_buf i s). split; [by eapply bwrite_eq|].
  pose proof (bi_bound _ _ _ _ _ Hbc i HH) as Hi. pose proof (bc_held Hbc i HH) as Hok.
  destruct (bi_bufs _ _ _ _ _ Hbc i Hi) as [Hlen _].
  assert (Hlt : (i < length (nodes s))%nat) by (rewrite (bc_length Hbc); lia).
  set (f := λ b : buf, b <| flags := B_VALID |>).
  assert (Hbc1 : bcinv q (alter f i (nodes s)) (memdisk (kdisk s)) H xs).
  { apply bcinv_held; try done. destruct Hok as (?&?&?&?&?&_).
    unfold held_ok, f. simpl. auto 10. }
  pose proof (bcinv_disk q _ _ H xs i (data (nd (nodes s) i)) Hbc1 HH Hlen) as Hbc2.
  rewrite nd_alter, decide_True in Hbc2 by done.
  split; try done.
  - simpl. by rewrite nd_alter, decide_True.
  - intros j Hj. simpl. by rewrite nd_alter, decide_False.
  - intros m Hm. unfold block. simpl. destruct (decide (m = blockno (nd (nodes s) i))) as [->|Hne].
    + pose proof (blk_cached Hbc2 i Hi) as HB. rewrite nd_alter, decide_True in HB by done.
      rewrite (blk_cached Hbc) by (done || by destruct Hok). apply HB. by destruct Hok.
    + rewrite <-(decide_False (P := m = blockno (nd (nodes s) i)) (data (f (nd (nodes s) i)))
                  (blk (nodes s) (memdisk (kdisk s)) m)), <-(blk_held q _ _ H xs) by done.
      unfold blk. fold f. destruct (cached _ m); [done|]. rewrite list_lookup_insert_ne; [done|].
      destruct Hok as (_ & ? & _). lia.
  - unfold pinned. change (nodes (write_buf i s)) with (alter f i (nodes s)).
    rewrite (dirty_held q _ _ H xs i f Hbc HH) by done. apply union_empty_l_L.
  - split; [done|]. by destruct s as [? ? []].
Qed.
End Specs.

(** What [brelse] does: the buffer goes to the front of the ring. *)
Definition drop_buf (b : buf) : buf :=
  b <| b_lock := mksl 0 0 |> <| refcnt := u32 (refcnt b - 1) |>.

Record brelse_post (q : Z) (H xs : list nat) (s : kernel) (i : nat) (s' : kernel) : Prop := {
  rl_bc : ∃ ys zs, xs = ys ++ i :: zs ∧ bc q (filter (λ j, j ≠ i) H) (i :: ys ++ zs) s';
  rl_vw : ∀ j, vw (nd (nodes s') j) = vw (nd (nodes s) j);
  rl_block : ∀ m, block s' m = block s m;
  rl_pinned : pinned s' = pinned s;
  rl_disk : kdisk s' = kdisk s;
  rl_frame : bframe s s' }.

Lemma brelse_eq q H xs s i :
  alone q s → bc q H xs s → i ∈ H →
  brelse i s = Ok tt (with_table (woken (ChSleeplock (SlBuf i)))
                       (upd_nodes (push_front i ∘ unlink i ∘ alter drop_buf i) s)).
Proof.
  intros Ha Hbc HH. pose proof (bi_bound _ _ _ _ _ Hbc i HH) as Hi.
  destruct (bc_held Hbc i HH) as (_ & _ & Hrc & _).
  unfold brelse. rewrite (bind_ok _ _ _ _ _ (holdingsleep_held _ _ _ _ _ Ha Hbc HH)). simpl.
  pose proof Ha as [Hh _]. rewrite (bind_ok _ _ _ _ _ (releasesleep_eq (SlBuf i) _ Hh)).
  set (s1 := with_table _ _). assert (Hh1 : held s1 = []) by exact Hh.
  rewrite (bind_ok _ _ _ _ _ (acquire_free LkBcache s1 Hh1)).
  unfold updb. rewrite (bind_ok (modify_state _) _ _ _ _ eq_refl).
  unfold getb. rewrite (bind_ok (gets _) _ _ _ _ eq_refl).
  set (s2 := upd_nodes _ _).
  assert (Hz : refcnt (nd (nodes s2) i) = 0).
  { unfold s2. rewrite nodes_upd. unfold nd. simpl. rewrite !list_lookup_alter_eq, (bc_buf Hbc i Hi).
    simpl. by rewrite Hrc. }
  rewrite Hz, Z.eqb_refl. cbv iota. rewrite (bind_ok (modify_state _) _ _ _ _ eq_refl).
  rewrite release_last by done. f_equal. unfold s2, s1, with_table, upd_nodes, modify. simpl.
  rewrite list_alter_alter_eq. by rewrite Hh.
Qed.

Lemma brelse_ok q H xs s i :
  alone q s → bc q H xs s → i ∈ H →
  (dirty (nd (nodes s) i) = true ∨
   memdisk (kdisk s) !! Z.to_nat (blockno (nd (nodes s) i)) = Some (data (nd (nodes s) i))) →
  ∃ s', brelse i s = Ok tt s' ∧ brelse_post q H xs s i s'.
Proof.
  intros Ha Hbc HH Hcl. eexists. split; [by eapply brelse_eq|].
  pose proof (bi_bound _ _ _ _ _ Hbc i HH) as Hi. destruct (bc_held Hbc i HH) as (Hd & Hb & Hrc & _ & _ & Hfl).
  assert (Hbc1 : bcinv q (alter drop_buf i (nodes s)) (memdisk (kdisk s)) (filter (λ j, j ≠ i) H) xs).
  { apply bcinv_alter with (H := H); try done.
    - apply NoDup_filter, Hbc.
    - intros j Hj. rewrite list_elem_of_filter. tauto.
    - rewrite bool_decide_false by (rewrite list_elem_of_filter; tauto).
      destruct (bi_bufs _ _ _ _ _ Hbc i Hi) as [Hlen _]. split; [done|]. unfold idle_ok. simpl.
      rewrite Hrc. split_and!; [done..|right]. split_and!; [done|lia|lia|].
      unfold dirty in Hcl. destruct Hfl as [Hfl|Hfl]; rewrite Hfl in *; [right|by left].
      split; [done|]. by destruct Hcl.
    - intros _ j Hj Hne Hdj Hbj. by apply Hne, (bi_uniq _ _ _ _ _ Hbc). }
  assert (Hvw : ∀ j, vw (nd ((push_front i ∘ unlink i) (alter drop_buf i (nodes s))) j) = vw (nd (nodes s) j)).
  { intros j. rewrite relink_vw, nd_alter by (rewrite (bc_length Hbc); lia). by case_decide. }
  destruct (view_ext (nodes s) ((push_front i ∘ unlink i) (alter drop_buf i (nodes s)))) as [Hv1 Hv2];
    [intros; apply Hvw|].
  destruct (bcinv_relink _ _ _ _ _ i Hbc1 Hi) as (ys & zs & -> & Hbc2).
  split; [by exists ys, zs|exact Hvw|intros m; apply Hv1|exact Hv2|done|].
  split; [apply woken_wakes|]. by destruct s as [? ? []].
Qed.

(** ** Booting the cache *)

(** The buffers as they are at boot. *)
Definition zeroed_bufs (s : kernel) : Prop :=
  length (nodes s) = S NBUF ∧
  (∀ i, (i < NBUF)%nat → let b := nd (nodes s) i in
     dev b = 0 ∧ flags b = 0 ∧ refcnt b = 0 ∧ length (data b) = Z.to_nat BSIZE) ∧
  Forall (λ b, length b = Z.to_nat BSIZE) (memdisk (kdisk s)).

Lemma ring_nil l : length l = S NBUF → ring (set_next HEAD HEAD (set_prev HEAD HEAD l)) [].
Proof.
  intros Hlen. change NBUF with HEAD in Hlen. split_and!; [|repeat constructor..|].
  - by rewrite length_set_next, length_set_prev.
  - apply not_elem_of_nil.
  - simpl. ring_nodes. by rewrite !decide_True.
Qed.

(** After [binit] the buffers [xs] have been linked. *)
Definition binit_inv (s0 : kernel) (xs : list nat) (s : kernel) : Prop :=
  ring (nodes s) (reverse xs) ∧ bframe s0 s ∧ kdisk s = kdisk s0 ∧
  (∀ i, (i < NBUF)%nat → let b := nd (nodes s) i in
     dev b = 0 ∧ flags b = 0 ∧ refcnt b = 0 ∧ length (data b) = Z.to_nat BSIZE ∧
     (i ∈ xs → sl_locked (b_lock b) = 0)).

Lemma binit_step s0 xs s i :
  binit_inv s0 xs s → (i < NBUF)%nat → i ∉ xs →
  binit_inv s0 (xs ++ [i]) (upd_nodes (push_front i) (set_sl (SlBuf i) (mksl 0 0) s)).
Proof.
  intros (Hr & Hf & Hk & Hb) Hi Hx. unfold binit_inv. rewrite reverse_snoc, nodes_upd. simpl nodes.
  set (l1 := alter _ i (nodes s)).
  assert (Hnd : ∀ j, nd l1 j = if decide (i = j) then (nd (nodes s) j) <| b_lock := mksl 0 0 |> else nd (nodes s) j).
  { intros j. apply nd_alter. destruct Hr as [-> _]. lia. }
  split_and!; [| |done|].
  - apply push_front_ring; [|done|by rewrite elem_of_reverse]. by apply ring_alter.
  - etransitivity; [done|]. split; [reflexivity|]. by destruct s as [? ? []].
  - intros j Hj. destruct (push_front_nd i l1 j) as (a & b & ->). simpl.
    destruct (Hb j Hj) as (H1 & H2 & H3 & H4 & H5). rewrite Hnd.
    case_decide as Hij; simpl; split_and!; try done.
    intros [?|Hji]%elem_of_app; [auto|]. apply list_elem_of_singleton in Hji. congruence.
Qed.

(** [binit] makes an empty cache. *)
Lemma binit_ok q s :
  zeroed_bufs s → ∃ s', binit s = Ok tt s' ∧ bc q [] (reverse (seq 0 NBUF)) s' ∧
                        pinned s' = ∅ ∧ (∀ i, (i < NBUF)%nat → dev (nd (nodes s') i) = 0) ∧
                        kdisk s' = kdisk s ∧ bframe s s'.
Proof.
  intros (Hlen & Hz & Hdk). unfold binit. rewrite (bind_ok (modify_state _) _ _ _ _ eq_refl).
  set (s1 := upd_nodes _ s).
  assert (H1 : binit_inv s [] s1).
  { split_and!; [by apply ring_nil|apply bframe_nodes|done|]. intros i Hi. simpl.
    destruct (set_next_links HEAD HEAD (set_prev HEAD HEAD (nodes s)) i) as (? & ? & ->).
    destruct (set_prev_links HEAD HEAD (nodes s) i) as (? & ? & ->). destruct (Hz i Hi) as (?&?&?&?).
    split_and!; try done. by intros ?%not_elem_of_nil. }
  assert (Hwp : wp (for_each (seq 0 NBUF) (λ i,
            initsleeplock (SlBuf i) ;; modify_state (upd_nodes (push_front i))))
          (λ _, binit_inv s (seq 0 NBUF)) s1).
  { apply wp_for_each; [done|]. intros xs i ys s2 Hxs Hinv.
    assert (Hin : i ∈ seq 0 NBUF) by (rewrite Hxs; set_solver). rewrite elem_of_seq in Hin.
    pose proof (NoDup_seq 0 NBUF) as Hnd. rewrite Hxs in Hnd. apply NoDup_app in Hnd as (_ & Hnd & _).
    apply binit_step; [done|lia|set_solver]. }
  apply wp_ok in Hwp as ([] & s' & -> & (Hr & Hf & Hk & Hb)). exists s'. split_and!; [done| | |by intros i Hi; destruct (Hb i Hi)|done|done].
  2:{ apply set_eq. intros n. unfold pinned. rewrite elem_of_dirty_blocks. split; [|set_solver].
      intros (i & Hi & Hd & _). destruct (Hb i Hi) as (_ & Hfl & _). unfold dirty in Hd. by rewrite Hfl in Hd. }
  split; [done|apply reverse_Permutation|constructor|by intros ? ?%not_elem_of_nil|..|by rewrite Hk].
  - intros i Hi. destruct (Hb i Hi) as (?&?&?&?&Hl). split; [done|].
    rewrite bool_decide_false by apply not_elem_of_nil. split_and!; [done| |by left].
    apply Hl, elem_of_seq. lia.
  - intros i j Hi Hj Hd. destruct (Hb i Hi) as (Hd' & _). congruence.
Qed.

(** ** Properties *)

Section Theorems.
Context {dk : Disk}.

(** [bread] of a block nobody holds returns: a buffer with the number of the
    block and the contents the block has (the pinned copy, the cached copy or
    the disk's), locked by the caller.  No block changes its contents, nothing
    is written to the disk, nothing pinned is dropped, and the buffers still
    cache different blocks. *)
Theorem bread_reads q H xs s n :
  alone q s → bc q H xs s → 0 ≤ n < Z.of_nat (length (memdisk (kdisk s))) →
  (∀ i, i ∈ H → blockno (nd (nodes s) i) ≠ n) →
  (n ∈ pinned s ∨ (size (pinned s) + length H < NBUF)%nat) →
  ∃ i s', bread 1 n s = Ok i s' ∧ (i ∉ H) ∧ bc q (i :: H) xs s' ∧
    blockno (nd (nodes s') i) = n ∧ data (nd (nodes s') i) = block s n ∧
    sl_pid (b_lock (nd (nodes s') i)) = q ∧
    (∀ m, block s' m = block s m) ∧ pinned s' = pinned s ∧ kdisk s' = kdisk s.
Proof.
  intros Ha Hbc Hn HH Hroom. destruct (bread_ok _ _ _ _ _ Ha Hbc Hn HH Hroom) as (i & s' & Hok & Hp).
  exists i, s'. destruct Hp as [Hnew Hbc' Hb Hd _ Hbl Hpin Hdk _]. split_and!; try done.
  by destruct (bc_held Hbc' i (list_elem_of_here _ _)) as (_&_&_&_&?&_).
Qed.

(** What a process writes with [bwrite] is on the disk when it returns, in
    one block write, and is what the next [bread] of the block gives; every
    other block keeps its contents and the order of the block writes is the
    order of the calls. *)
Theorem bwrite_read_back q H xs s i n :
  alone q s → bc q H xs s → i ∈ H → n = blockno (nd (nodes s) i) →
  (size (pinned s) + length H < NBUF)%nat →
  let d := data (nd (nodes s) i) in
  ∃ s1 s2 j s3, bwrite i s = Ok tt s1 ∧ brelse i s1 = Ok tt s2 ∧ bread 1 n s2 = Ok j s3 ∧
    data (nd (nodes s3) j) = d ∧ memdisk (kdisk s3) = <[Z.to_nat n := d]> (memdisk (kdisk s)) ∧
    dwrites (kdisk s3) = dwrites (kdisk s) ++ [(n, d)] ∧
    ∀ m, 0 ≤ m → m ≠ n → block s3 m = block s m.
Proof.
  intros Ha Hbc HH -> Hsz d. destruct (bc_held Hbc i HH) as (Hdv & Hb & _).
  pose proof (bi_bound _ _ _ _ _ Hbc i HH) as Hi.
  destruct (bwrite_ok q H xs s i Ha Hbc HH) as (s1 & H1 & [Hbc1 Hbuf1 _ Hbl1 Hpin1 Hmd1 Hdw1 Hf1]).
  pose proof (alone_frame _ _ _ Ha Hf1) as Ha1.
  destruct (brelse_ok q H xs s1 i Ha1 Hbc1 HH) as (s2 & H2 & [(ys & zs & _ & Hbc2) Hvw2 Hbl2 Hpin2 Hdk2 Hf2]).
  { right. rewrite Hmd1, Hbuf1. simpl. apply list_lookup_insert_eq. lia. }
  pose proof (alone_frame _ _ _ Ha1 Hf2) as Ha2.
  destruct (bread_ok q (filter (λ j, j ≠ i) H) (i :: ys ++ zs) s2 (blockno (nd (nodes s) i)) Ha2 Hbc2)
    as (j & s3 & H3 & [_ _ _ Hd3 _ Hbl3 _ Hdk3 _]).
  - rewrite Hdk2, Hmd1, length_insert. done.
  - intros k [Hk HkH]%list_elem_of_filter Hbk. apply Hk.
    assert (Hbk' : blockno (nd (nodes s1) k) = blockno (nd (nodes s1) i)).
    { injection (Hvw2 k) as _ _ Hx _. rewrite <-Hx, Hbk, Hbuf1. done. }
    apply (bi_uniq _ _ _ _ _ Hbc1); try done; [by apply (bi_bound _ _ _ _ _ Hbc1)|..].
    + by destruct (bc_held Hbc1 k HkH).
    + by destruct (bc_held Hbc1 i HH).
  - right. rewrite Hpin2, Hpin1. pose proof (length_filter (λ j, j ≠ i) H).
    pose proof (subseteq_size (pinned s ∖ {[blockno (nd (nodes s) i)]}) (pinned s) ltac:(set_solver)). lia.
  - exists s1, s2, j, s3. split_and!; try done.
    + rewrite Hd3, Hbl2, Hbl1 by lia. by apply (blk_cached Hbc).
    + by rewrite Hdk3, Hdk2, Hmd1.
    + by rewrite Hdk3, Hdk2, Hdw1.
    + intros m Hm _. by rewrite Hbl3, Hbl2, Hbl1.
Qed.
End Theorems.

(** The cache replaces the least recently used buffer.  On a miss [bget]
    takes, of the buffers that are neither held nor pinned, the one released
    longest ago, and panics when there is none; [brelse] makes a buffer the most
    recently used and keeps the order of the others. *)
Theorem bget_lru q H xs s n :
  alone q s → bc q H xs s → cached (nodes s) n = None →
  ((∀ i, (i < NBUF)%nat → i ∈ H ∨ dirty (nd (nodes s) i) = true) → bget 1 n s = Panic "bget: no buffers") ∧
  ((size (pinned s) + length H < NBUF)%nat →
   ∃ ys i zs s', xs = ys ++ i :: zs ∧ bget 1 n s = Ok i s' ∧ (i ∉ H) ∧ dirty (nd (nodes s) i) = false ∧
     ∀ j, j ∈ zs → j ∈ H ∨ dirty (nd (nodes s) j) = true) ∧
  ∀ i, i ∈ H → dirty (nd (nodes s) i) = true →
    ∃ ys zs s', xs = ys ++ i :: zs ∧ brelse i s = Ok tt s' ∧
      bc q (filter (λ j, j ≠ i) H) (i :: ys ++ zs) s'.
Proof.
  intros Ha Hbc Hc. destruct (bc_find_miss _ _ _ _ _ Hbc Hc) as [Hn Hp].
  assert (Hin : ∀ i, i ∈ reverse xs → (i < NBUF)%nat).
  { intros i. rewrite elem_of_reverse, (bi_perm _ _ _ _ _ Hbc), elem_of_seq. lia. }
  split_and!.
  - intros Hall. unfold bget. pose proof Ha as [Hh _].
    rewrite (bind_ok _ _ _ _ _ (acquire_free _ _ Hh)). set (s1 := s <| held := [LkBcache] |>).
    rewrite (bind_ok (gets (λ s, nodes s)) _ s1 (nodes s) s1 eq_refl), Hn, Hp.
    destruct (List.find _ _) as [i|] eqn:E; [|done].
    apply List.find_some in E as [Hi Hu]. apply list_elem_of_In, Hin in Hi.
    apply (unused_idle _ _ _ _ _ _ Hbc Hi) in Hu as [? ?]. destruct (Hall i Hi); congruence.
  - intros Hsz. destruct (lru_found _ _ _ _ _ Hbc Hsz) as (i & Hf & Hi & HH & Hdt).
    destruct (find_first _ _ _ Hf) as (zs & ys & Hrev & Hzs).
    exists (reverse ys), i, (reverse zs), (upd_nodes (alter (recycle_buf q n) i) s). split_and!.
    + rewrite <-(reverse_involutive xs), Hrev, reverse_app, reverse_cons. by rewrite <-app_assoc.
    + by eapply bget_miss.
    + done.
    + done.
    + intros j Hj. rewrite elem_of_reverse in Hj.
      assert (Hjl : (j < NBUF)%nat) by (apply Hin; rewrite Hrev; set_solver).
      destruct (decide (j ∈ H)) as [|HjH]; [by left|right].
      destruct (dirty (nd (nodes s) j)) eqn:E; [done|].
      specialize (Hzs j Hj). cbv beta in Hzs. by rewrite (proj2 (unused_idle _ _ _ _ _ _ Hbc Hjl)) in Hzs.
  - intros i HH Hd. destruct (brelse_ok q H xs s i Ha Hbc HH) as (s' & Hb & [(ys & zs & -> & Hbc') _ _ _ _ _]);
      [by left|]. by exists ys, zs, s'.
Qed.

(** ** Witnesses *)

(** A disk of four blocks, and a cache that [binit] has made, with one process
    running. *)
Definition zeros : list Z := replicate (Z.to_nat BSIZE) 0.
Definition bio_kernel0 : kernel :=
  kernel0 <| kproc ::= λ k, k <| ptable := [ proc0 <| state := RUNNING |> <| pid := 7 |> ] |> |>
          <| kcpu ::= λ c, c <| cpu_proc := [Some 0%nat; None] |> |>
          <| kbio := {| bnodes := replicate (S NBUF) buf0 |} |>
          <| kdisk := {| memdisk := [zeros; zeros; replicate (Z.to_nat BSIZE) 5; zeros]; dwrites := [] |} |>.
Definition bio_kernel : kernel := after binit bio_kernel0.

Lemma bio_kernel0_zeroed : zeroed_bufs bio_kernel0.
Proof.
  split_and!; [done| |].
  - intros i Hi. assert (Hb : nd (nodes bio_kernel0) i = buf0).
    { unfold nd. change (nodes bio_kernel0) with (replicate (S NBUF) buf0).
      rewrite lookup_replicate_2 by (unfold NBUF in *; lia). done. }
    by rewrite Hb.
  - repeat constructor; by rewrite length_replicate.
Qed.

Lemma bio_kernel_ok :
  bc 7 [] (reverse (seq 0 NBUF)) bio_kernel ∧ alone 7 bio_kernel ∧
  length (memdisk (kdisk bio_kernel)) = 4%nat ∧ pinned bio_kernel = ∅.
Proof.
  destruct (binit_ok 7 bio_kernel0 bio_kernel0_zeroed) as (s' & Hb & Hbc & Hpin & _ & Hk & Hf).
  assert (Hs : bio_kernel = s') by (unfold bio_kernel, after; by rewrite Hb). rewrite Hs.
  split_and!; [done| |by rewrite Hk|done].
  eapply alone_frame; [|done]. split; [done|]. exists 0%nat. by eexists.
Qed.

#[local] Opaque bio_kernel.

Lemma bread_reads_witness :
  ∃ i s', bread 1 2 bio_kernel = Ok i s' ∧ data (nd (nodes s') i) = block bio_kernel 2.
Proof.
  destruct bio_kernel_ok as (Hbc & Ha & Hlen & Hpin).
  destruct (bread_reads 7 [] (reverse (seq 0 NBUF)) bio_kernel 2) as (i & s' & H1 & _ & _ & _ & H2 & _).
  - exact Ha.
  - exact Hbc.
  - rewrite Hlen. lia.
  - intros i Hi. destruct (not_elem_of_nil i Hi).
  - right. rewrite Hpin, size_empty. simpl. unfold NBUF. lia.
  - exists i, s'. split; [exact H1|exact H2].
Defined.

Lemma bget_lru_witness :
  ∃ ys i zs s', reverse (seq 0 NBUF) = ys ++ i :: zs ∧ bget 1 2 bio_kernel = Ok i s'.
Proof.
  destruct bio_kernel_ok as (Hbc & Ha & Hlen & Hpin).
  destruct (bget_lru 7 [] (reverse (seq 0 NBUF)) bio_kernel 2) as (_ & H & _).
  - exact Ha.
  - exact Hbc.
  - vm_compute. reflexivity.
  - destruct H as (ys & i & zs & s' & H1 & H2 & _);
      [rewrite Hpin, size_empty; simpl; unfold NBUF; lia|].
    exists ys, i, zs, s'. split; [exact H1|exact H2].
Defined.

(** The same with block 2 read, so that there is a buffer to write. *)
Lemma bio_read2 :
  ∃ i s, alone 7 s ∧ bc 7 [i] (reverse (seq 0 NBUF)) s ∧ blockno (nd (nodes s) i) = 2 ∧ pinned s = ∅.
Proof.
  destruct bio_kernel_ok as (Hbc & Ha & Hlen & Hpin).
  destruct (bread_ok (dk:=memide) 7 [] (reverse (seq 0 NBUF)) bio_kernel 2) as (i & s' & H1 & [? ? ? ? ? ? ? ? ?]).
  - exact Ha.
  - exact Hbc.
  - rewrite Hlen. lia.
  - intros i Hi. destruct (not_elem_of_nil i Hi).
  - right. rewrite Hpin, size_empty. simpl. unfold NBUF. lia.
  - exists i, s'. split_and!; [by eapply alone_frame|done|done|by rewrite br_pinned0].
Qed.

Lemma bwrite_read_back_witness :
  ∃ i s s1 s2 j s3, blockno (nd (nodes s) i) = 2 ∧
    bwrite i s = Ok tt s1 ∧ brelse i s1 = Ok tt s2 ∧ bread 1 2 s2 = Ok j s3 ∧
    data (nd (nodes s3) j) = data (nd (nodes s) i).
Proof.
  destruct bio_read2 as (i & s & Ha & Hbc & Hb & Hpin).
  destruct (bwrite_read_back 7 [i] (reverse (seq 0 NBUF)) s i 2) as (s1 & s2 & j & s3 & H1 & H2 & H3 & H4 & _).
  - exact Ha.
  - exact Hbc.
  - apply list_elem_of_here.
  - symmetry. exact Hb.
  - rewrite Hpin, size_empty. simpl. unfold NBUF. lia.
  - exists i, s, s1, s2, j, s3.
    split; [exact Hb|]. split; [exact H1|]. split; [exact H2|]. split; [exact H3|exact H4].
Defined.
