(* ===== verification/Log.v ===== *)
(** * The log: log.c

    A redo log of disk blocks.  The file system changes blocks in the cache
    between [begin_op] and [end_op] and records them with [log_write]; the last
    [end_op] commits: it copies them to the log, writes the header, and then
    installs them at home.  At boot [recover_from_log] installs what a crash
    has left in the log. *)

From S2P Require Import Prelude Bytes Kernel Sched Proc Waiting Sleeplock Bio.

(** ** On-disk formats *)

(** [struct superblock] in the bytes of a block, as [readsb] copies it. *)
Definition sb_of (d : list Z) : superblock :=
  mksb (get32 0 d) (get32 4 d) (get32 8 d) (get32 12 d) (get32 16 d) (get32 20 d) (get32 24 d).

(** [struct logheader] in the bytes of a block: [n], then [block]. *)
Definition head_n (d : list Z) : Z := s32 (get32 0 d).
Definition head_block (d : list Z) (i : nat) : Z := s32 (get32 (4 + 4 * i) d).

(** [for (i = 0; i < n; i++) log.lh.block[i] = lh->block[i]] *)
Definition load_blocks (n : nat) (d : list Z) (bs : list Z) : list Z :=
  foldl (λ bs i, <[i := head_block d i]> bs) bs (seq 0 n).
(** [for (i = 0; i < n; i++) hb->block[i] = log.lh.block[i]] *)
Definition store_blocks (n : nat) (bs : list Z) (d : list Z) : list Z :=
  foldl (λ d i, put32 (4 + 4 * i) (nth i bs 0) d) d (seq 0 n).

(** ** Operations *)

Definition getlog : KM logst := gets klog.
Definition updlog (f : logst → logst) : KM unit := modify_state (λ s, s <| klog ::= f |>).

(** [log.lh.block[i]] as the block number [bread] takes. *)
Definition logged_block (lg : logst) (i : nat) : Z := u32 (nth i (lh_block lg) 0).

Section Log.
Context {dk : Disk}.

(** [readsb] of fs.c *)
Definition readsb (d : Z) : KM superblock :=
  i ← bread d 1;
  b ← getb i;
  brelse i ;;
  ret (sb_of (data b)).

Definition install_one (tail : nat) : KM unit :=
  lg ← getlog;
  lbuf ← bread (lg_dev lg) (u32 (lg_start lg + Z.of_nat tail + 1));
  dbuf ← bread (lg_dev lg) (logged_block lg tail);
  b ← getb lbuf;
  updb dbuf (λ x, x <| data := data b |>) ;;
  bwrite dbuf ;;
  brelse lbuf ;;
  brelse dbuf.

Definition install_trans : KM unit :=
  lg ← getlog;
  for_each (seq 0 (Z.to_nat (lh_n lg))) install_one.

(** The array [log.lh.block] has [LOGSIZE] entries; a header with a larger [n]
    would overrun it, and the model stops there. *)
Definition read_head : KM unit :=
  lg ← getlog;
  i ← bread (lg_dev lg) (u32 (lg_start lg));
  b ← getb i;
  let n := head_n (data b) in
  updlog (λ l, l <| lh_n := n |>) ;;
  if LOGSIZE <? n then panic "log.lh.block" else
  updlog (λ l, l <| lh_block ::= load_blocks (Z.to_nat n) (data b) |>) ;;
  brelse i.

Definition write_head : KM unit :=
  lg ← getlog;
  i ← bread (lg_dev lg) (u32 (lg_start lg));
  updb i (λ b, b <| data := store_blocks (Z.to_nat (lh_n lg)) (lh_block lg)
                              (put32 0 (lh_n lg) (data b)) |>) ;;
  bwrite i ;;
  brelse i.

Definition recover_from_log : KM unit :=
  read_head ;;
  install_trans ;;
  updlog (λ l, l <| lh_n := 0 |>) ;;
  write_head.

Definition initlog (d : Z) : KM unit :=
  b ← readsb d;
  updlog (λ l, l <| lg_start := s32 (sb_logstart b) |> <| lg_size := s32 (sb_nlog b) |>
                 <| lg_dev := d |>) ;;
  recover_from_log.

Definition write_log_one (tail : nat) : KM unit :=
  lg ← getlog;
  to ← bread (lg_dev lg) (u32 (lg_start lg + Z.of_nat tail + 1));
  from ← bread (lg_dev lg) (logged_block lg tail);
  b ← getb from;
  updb to (λ x, x <| data := data b |>) ;;
  bwrite to ;;
  brelse from ;;
  brelse to.

Definition write_log : KM unit :=
  lg ← getlog;
  for_each (seq 0 (Z.to_nat (lh_n lg))) write_log_one.

Definition commit : KM unit :=
  lg ← getlog;
  if 0 <? lh_n lg then
    write_log ;;
    write_head ;;
    install_trans ;;
    updlog (λ l, l <| lh_n := 0 |>) ;;
    write_head
  else ret tt.

(** [begin_op] from the test of its loop on. *)
Definition begin_op_from : KM unit :=
  lg ← getlog;
  if negb (committing lg =? 0) then sleep ChLog LkLog
  else if LOGSIZE <? lh_n lg + (outstanding lg + 1) * MAXOPBLOCKS then sleep ChLog LkLog
  else
    updlog (λ l, l <| outstanding := outstanding l + 1 |>) ;;
    release LkLog.

Definition begin_op : KM unit :=
  acquire LkLog ;;
  begin_op_from.

(** [end_op] up to the commit: it tells whether to commit. *)
Definition end_op_enter : KM bool :=
  acquire LkLog ;;
  updlog (λ l, l <| outstanding := outstanding l - 1 |>) ;;
  lg ← getlog;
  if negb (committing lg =? 0) then panic "log.committing" else
  if outstanding lg =? 0 then
    updlog (λ l, l <| committing := 1 |>) ;;
    release LkLog ;;
    ret true
  else
    wakeup ChLog ;;
    release LkLog ;;
    ret false.

Definition end_op_exit : KM unit :=
  acquire LkLog ;;
  updlog (λ l, l <| committing := 0 |>) ;;
  wakeup ChLog ;;
  release LkLog.

Definition end_op : KM unit :=
  do_commit ← end_op_enter;
  if (do_commit : bool) then
    commit ;;
    end_op_exit
  else ret tt.
End Log.

(** The entry for block [n]: where it is already, or the end of the list. *)
Definition log_slot (lg : logst) (n : Z) : nat :=
  default (Z.to_nat (lh_n lg))
    (List.find (λ i, logged_block lg i =? n) (seq 0 (Z.to_nat (lh_n lg)))).

Definition log_entered (n : Z) (lg : logst) : logst :=
  lg <| lh_block ::= <[log_slot lg n := s32 n]> |>
     <| lh_n := if Z.of_nat (log_slot lg n) =? lh_n lg then lh_n lg + 1 else lh_n lg |>.

Definition log_write (i : nat) : KM unit :=
  lg ← getlog;
  if (LOGSIZE <=? lh_n lg) || (lg_size lg - 1 <=? lh_n lg) then panic "too big a transaction" else
  if outstanding lg <? 1 then panic "log_write outside of trans" else
  acquire LkLog ;;
  b ← getb i;
  updlog (log_entered (blockno b)) ;;
  updb i (λ b, b <| flags := Z.lor (flags b) B_DIRTY |>) ;;
  release LkLog.

(** ** Copying a block to another *)

(** A held buffer of a pinned block is dirty. *)
Lemma pinned_dirty q H xs s i :
  bc q H xs s → i ∈ H → blockno (nd (nodes s) i) ∈ pinned s → dirty (nd (nodes s) i) = true.
Proof.
  intros Hbc HH Hp. apply elem_of_dirty_blocks in Hp as (j & Hj & Hd & Hb).
  pose proof (bi_bound _ _ _ _ _ Hbc i HH) as Hi.
  assert (j = i) as <-; [|done]. apply (bi_uniq _ _ _ _ _ Hbc); try done.
  - by apply (bc_dirty_dev Hbc).
  - by destruct (bc_held Hbc i HH).
Qed.

(** What is on the disk of a block nobody holds or has pinned. *)
Lemma unpinned_disk q H xs s n :
  bc q H xs s → (∀ i, i ∈ H → blockno (nd (nodes s) i) ≠ n) → n ∉ pinned s →
  0 ≤ n < Z.of_nat (length (memdisk (kdisk s))) →
  memdisk (kdisk s) !! Z.to_nat n = Some (block s n).
Proof.
  intros Hbc HH Hp Hn. unfold block. rewrite (blk_clean Hbc) by done.
  destruct (lookup_lt_is_Some_2 (memdisk (kdisk s)) (Z.to_nat n)) as [d ->]; [lia|done].
Qed.

Section Copy.
Context {dk : Disk}.

(** The state after block [x] has been copied over block [y] and written. *)
Record copied (q x y : Z) (s s' : kernel) : Prop := {
  cp_bc : ∃ xs, bc q [] xs s';
  cp_block : ∀ m, 0 ≤ m → block s' m = if decide (m = y) then block s x else block s m;
  cp_pinned : pinned s' = pinned s ∖ {[y]};
  cp_memdisk : memdisk (kdisk s') = <[Z.to_nat y := block s x]> (memdisk (kdisk s));
  cp_dwrites : dwrites (kdisk s') = dwrites (kdisk s) ++ [(y, block s x)];
  cp_frame : bframe s s' }.

Definition copy_tail (src dst : nat) : KM unit :=
  b ← getb src;
  updb dst (λ x, x <| data := data b |>) ;;
  bwrite dst ;;
  brelse src ;;
  brelse dst.

(** New contents [d] for a held buffer, written to the disk. *)
Record rewritten (q : Z) (H xs : list nat) (j : nat) (d : list Z) (s s' : kernel) : Prop := {
  rw_bc : bc q H xs s';
  rw_data : data (nd (nodes s') j) = d;
  rw_blockno : blockno (nd (nodes s') j) = blockno (nd (nodes s) j);
  rw_others : ∀ k, k ≠ j → nd (nodes s') k = nd (nodes s) k;
  rw_block : ∀ m, 0 ≤ m → block s' m = if decide (m = blockno (nd (nodes s) j)) then d else block s m;
  rw_pinned : pinned s' = pinned s ∖ {[blockno (nd (nodes s) j)]};
  rw_memdisk : memdisk (kdisk s') = <[Z.to_nat (blockno (nd (nodes s) j)) := d]> (memdisk (kdisk s));
  rw_dwrites : dwrites (kdisk s') = dwrites (kdisk s) ++ [(blockno (nd (nodes s) j), d)];
  rw_frame : bframe s s' }.

Lemma rewrite_buf_ok q H xs s j g :
  let d := g (data (nd (nodes s) j)) in
  alone q s → bc q H xs s → j ∈ H → length d = Z.to_nat BSIZE →
  ∃ s', (updb j (λ x, x <| data := g (data x) |>) ;; bwrite j) s = Ok tt s' ∧ rewritten q H xs j d s s'.
Proof.
  intros d Ha Hbc Hj Hlen. pose proof (bi_bound _ _ _ _ _ Hbc j Hj) as Hjl.
  set (f := λ b : buf, b <| data := g (data b) |>).
  unfold updb. rewrite (bind_ok (modify_state _) _ _ _ _ eq_refl).
  set (s3 := upd_nodes (alter f j) s).
  assert (Hnd3 : ∀ k, nd (nodes s3) k = if decide (j = k) then f (nd (nodes s) k) else nd (nodes s) k).
  { intros k. apply nd_alter. rewrite (bc_length Hbc). lia. }
  assert (Hndj : nd (nodes s3) j = f (nd (nodes s) j)) by (by rewrite Hnd3, decide_True).
  assert (Hbc3 : bc q H xs s3) by (apply bcinv_held; try done; by destruct (bc_held Hbc j Hj)).
  assert (Ha3 : alone q s3) by (eapply alone_frame; [done|apply bframe_nodes]).
  destruct (bwrite_ok q H xs s3 j Ha3 Hbc3 Hj) as (s4 & H4 & [Hbc4 Hbuf4 Hoth4 Hbl4 Hpin4 Hmd4 Hdw4 Hf4]).
  exists s4. rewrite Hndj in *. split; [done|]. split; try done.
  - by rewrite Hbuf4.
  - by rewrite Hbuf4.
  - intros k Hk. rewrite Hoth4, Hnd3 by done. by rewrite decide_False.
  - intros m Hm. rewrite Hbl4 by done.
    exact (blk_held q (nodes s) (memdisk (kdisk s)) H xs j f m Hbc Hj Hbc3 eq_refl).
  - rewrite Hpin4. unfold pinned. change (nodes s3) with (alter f j (nodes s)).
    rewrite (dirty_held q _ _ H xs j f Hbc Hj) by done. simpl. destruct (dirty _); set_solver.
Qed.

(** Releasing two held buffers. *)
Lemma brelse_two q H xs s i j :
  alone q s → bc q H xs s → i ≠ j → i ∈ H → j ∈ H → (∀ k, k ∈ H → k = i ∨ k = j) →
  (∀ k, k ∈ H → dirty (nd (nodes s) k) = true ∨
     memdisk (kdisk s) !! Z.to_nat (blockno (nd (nodes s) k)) = Some (data (nd (nodes s) k))) →
  ∃ s', (brelse i ;; brelse j) s = Ok tt s' ∧ (∃ xs', bc q [] xs' s') ∧ (∀ m, block s' m = block s m) ∧
        pinned s' = pinned s ∧ kdisk s' = kdisk s ∧ bframe s s'.
Proof.
  intros Ha Hbc Hij Hi Hj HH Hcl.
  destruct (brelse_ok q H xs s i Ha Hbc Hi (Hcl i Hi)) as (s1 & H1 & [(ys & zs & _ & Hbc1) Hvw1 Hbl1 Hpin1 Hdk1 Hf1]).
  pose proof (alone_frame _ _ _ Ha Hf1) as Ha1.
  assert (Hj1 : j ∈ filter (λ k, k ≠ i) H) by (apply list_elem_of_filter; done).
  assert (Hclj : dirty (nd (nodes s1) j) = true ∨
     memdisk (kdisk s1) !! Z.to_nat (blockno (nd (nodes s1) j)) = Some (data (nd (nodes s1) j))).
  { unfold dirty. injection (Hvw1 j) as -> _ -> ->. rewrite Hdk1. by apply Hcl. }
  destruct (brelse_ok q _ _ s1 j Ha1 Hbc1 Hj1 Hclj) as (s2 & H2 & [(ys2 & zs2 & _ & Hbc2) _ Hbl2 Hpin2 Hdk2 Hf2]).
  exists s2. rewrite (bind_ok _ _ _ _ _ H1). split_and!; [done| | | |by rewrite Hdk2|by etransitivity].
  - assert (Hnil : filter (λ k, k ≠ j) (filter (λ k, k ≠ i) H) = []).
    { apply elem_of_nil_inv. intros k. rewrite !list_elem_of_filter. intros (? & ? & Hk).
      destruct (HH k Hk); done. }
    rewrite Hnil in Hbc2. by eexists.
  - intros m. by rewrite Hbl2, Hbl1.
  - by rewrite Hpin2, Hpin1.
Qed.

(** Both buffers are held: [s] is the state before the two [bread]s. *)
Lemma copy_tail_ok q H xs s s2 i j x y :
  alone q s2 → bc q H xs s2 → i ≠ j → i ∈ H → j ∈ H → (∀ k, k ∈ H → k = i ∨ k = j) →
  blockno (nd (nodes s2) i) = x → blockno (nd (nodes s2) j) = y →
  data (nd (nodes s2) i) = block s x →
  (x ∈ pinned s ∨ memdisk (kdisk s) !! Z.to_nat x = Some (block s x)) →
  (∀ m, block s2 m = block s m) → pinned s2 = pinned s → kdisk s2 = kdisk s → bframe s s2 →
  ∃ s', copy_tail i j s2 = Ok tt s' ∧ copied q x y s s'.
Proof.
  intros Ha Hbc Hij Hi Hj HH Hbi Hbj Hdi Hclean Hbl Hpin Hdk Hfr. unfold copy_tail, getb.
  rewrite (bind_ok (gets _) _ _ _ _ eq_refl). rewrite Hdi.
  pose proof (bi_bound _ _ _ _ _ Hbc i Hi) as Hil. pose proof (bi_bound _ _ _ _ _ Hbc j Hj) as Hjl.
  assert (Hxy : x ≠ y).
  { intros Heq. apply Hij, (bi_uniq _ _ _ _ _ Hbc); try done; try congruence;
      by destruct (bc_held Hbc i Hi), (bc_held Hbc j Hj). }
  destruct (rewrite_buf_ok q H xs s2 j (λ _, block s x) Ha Hbc Hj) as (s4 & H4 & [Hbc4 Hd4 Hb4 Ho4 Hbl4 Hpin4 Hmd4 Hdw4 Hf4]).
  { rewrite <-Hdi. by destruct (bi_bufs _ _ _ _ _ Hbc i Hil). }
  rewrite <-bind_assoc, (bind_ok _ _ _ _ _ H4). pose proof (alone_frame _ _ _ Ha Hf4) as Ha4.
  rewrite Hbj in *.
  destruct (brelse_two q H xs s4 i j Ha4 Hbc4 Hij Hi Hj HH) as (s5 & H5 & Hbc5 & Hbl5 & Hpin5 & Hdk5 & Hf5).
  { intros k Hk. destruct (HH k Hk) as [-> | ->].
    - rewrite (Ho4 i Hij), Hbi, Hdi. destruct Hclean as [Hp|Hm].
      + left. apply (pinned_dirty q H xs s2 i Hbc Hi). by rewrite Hbi, Hpin.
      + right. rewrite Hmd4, Hdk. destruct (bc_held Hbc i Hi) as (_ & ? & _), (bc_held Hbc j Hj) as (_ & ? & _).
        by rewrite list_lookup_insert_ne by lia.
    - right. rewrite Hmd4, Hb4, Hd4. apply list_lookup_insert_eq.
      destruct (bc_held Hbc j Hj) as (_ & ? & _). lia. }
  exists s5. split; [done|]. split; try done.
  - intros m Hm. by rewrite Hbl5, Hbl4, Hbl.
  - by rewrite Hpin5, Hpin4, Hpin.
  - by rewrite Hdk5, Hmd4, Hdk.
  - by rewrite Hdk5, Hdw4, Hdk.
  - do 2 (etransitivity; [done|]). done.
Qed.

(** Two [bread]s one after the other. *)
Record bread_two (q x y : Z) (H xs : list nat) (s : kernel) (i j : nat) (s2 : kernel) : Prop := {
  b2_alone : alone q s2;
  b2_bc : bc q H xs s2;
  b2_ne : i ≠ j;
  b2_in : i ∈ H ∧ j ∈ H ∧ ∀ k, k ∈ H → k = i ∨ k = j;
  b2_blockno : blockno (nd (nodes s2) i) = x ∧ blockno (nd (nodes s2) j) = y;
  b2_data : data (nd (nodes s2) i) = block s x ∧ data (nd (nodes s2) j) = block s y;
  b2_block : ∀ m, block s2 m = block s m;
  b2_pinned : pinned s2 = pinned s;
  b2_disk : kdisk s2 = kdisk s;
  b2_frame : bframe s s2 }.

Definition in_disk (s : kernel) (n : Z) : Prop := 0 ≤ n < Z.of_nat (length (memdisk (kdisk s))).

Lemma bread_two_ok q xs s x y :
  alone q s → bc q [] xs s → x ≠ y → in_disk s x → in_disk s y →
  (x ∈ pinned s ∨ (size (pinned s) < NBUF)%nat) →
  (y ∈ pinned s ∨ (size (pinned s) + 1 < NBUF)%nat) →
  ∃ i j s1 s2, bread 1 x s = Ok i s1 ∧ bread 1 y s1 = Ok j s2 ∧ bread_two q x y [j; i] xs s i j s2.
Proof.
  intros Ha Hbc Hxy Hx Hy Hrx Hry.
  destruct (bread_ok q [] xs s x Ha Hbc Hx) as (i & s1 & H1 & [Hn1 Hbc1 Hb1 Hd1 Ho1 Hbl1 Hpin1 Hdk1 Hf1]).
  { by intros i ?%not_elem_of_nil. }
  { by rewrite Nat.add_0_r. }
  pose proof (alone_frame _ _ _ Ha Hf1) as Ha1.
  destruct (bread_ok q [i] xs s1 y Ha1 Hbc1) as (j & s2 & H2 & [Hn2 Hbc2 Hb2 Hd2 Ho2 Hbl2 Hpin2 Hdk2 Hf2]).
  { unfold in_disk in Hy. by rewrite Hdk1. }
  { intros k Hk. apply list_elem_of_singleton in Hk as ->. congruence. }
  { by rewrite Hpin1. }
  assert (Hij : i ≠ j) by set_solver.
  exists i, j, s1, s2. split_and!; [done..|]. split; try done.
  - by eapply alone_frame.
  - split_and!; [set_solver..|]. intros k Hk. set_solver.
  - by rewrite (Ho2 i).
  - by rewrite (Ho2 i), Hd2, Hbl1.
  - intros m. by rewrite Hbl2.
  - congruence.
  - congruence.
  - by etransitivity.
Qed.

(** A block nobody holds can be released again unchanged. *)
Lemma block_settled q xs s n :
  bc q [] xs s → in_disk s n → n ∈ pinned s ∨ memdisk (kdisk s) !! Z.to_nat n = Some (block s n).
Proof.
  intros Hbc Hn. destruct (decide (n ∈ pinned s)) as [|Hp]; [by left|right].
  eapply (unpinned_disk q [] xs); try done. by intros i ?%not_elem_of_nil.
Qed.

(** The two orders in which log.c reads the source and the destination. *)
Lemma copy_src_first q xs s x y :
  alone q s → bc q [] xs s → x ≠ y → in_disk s x → in_disk s y →
  (x ∈ pinned s ∨ (size (pinned s) < NBUF)%nat) → (y ∈ pinned s ∨ (size (pinned s) + 1 < NBUF)%nat) →
  ∃ s', (i ← bread 1 x; j ← bread 1 y; copy_tail i j) s = Ok tt s' ∧ copied q x y s s'.
Proof.
  intros Ha Hbc Hxy Hx Hy Hrx Hry.
  destruct (bread_two_ok q xs s x y) as (i & j & s1 & s2 & H1 & H2 & [? ? ? (?&?&?) [] [] ? ? ? ?]); try done.
  rewrite (bind_ok _ _ _ _ _ H1), (bind_ok _ _ _ _ _ H2).
  eapply copy_tail_ok; try done. by eapply block_settled.
Qed.

Lemma copy_dst_first q xs s x y :
  alone q s → bc q [] xs s → x ≠ y → in_disk s x → in_disk s y →
  (y ∈ pinned s ∨ (size (pinned s) < NBUF)%nat) → (x ∈ pinned s ∨ (size (pinned s) + 1 < NBUF)%nat) →
  ∃ s', (j ← bread 1 y; i ← bread 1 x; copy_tail i j) s = Ok tt s' ∧ copied q x y s s'.
Proof.
  intros Ha Hbc Hxy Hx Hy Hrx Hry.
  destruct (bread_two_ok q xs s y x) as (j & i & s1 & s2 & H1 & H2 & [? ? ? (?&?&HH) [] [] ? ? ? ?]); try done.
  rewrite (bind_ok _ _ _ _ _ H1), (bind_ok _ _ _ _ _ H2).
  eapply copy_tail_ok; try done; [by intros k []%HH; [right|left]|by eapply block_settled].
Qed.
End Copy.

(** ** The header *)

Lemma store_blocks_S n bs d :
  store_blocks (S n) bs d = put32 (4 + 4 * n) (nth n bs 0) (store_blocks n bs d).
Proof. unfold store_blocks. by rewrite seq_S, foldl_app. Qed.

Lemma length_store_blocks n bs d :
  (4 + 4 * n ≤ length d)%nat → length (store_blocks n bs d) = length d.
Proof.
  induction n as [|n IH]; intros Hl; [done|]. rewrite store_blocks_S, length_put32; rewrite IH; lia.
Qed.

Lemma get32_store_blocks n bs d o :
  (4 + 4 * n ≤ length d)%nat → (o + 4 ≤ 4 ∨ 4 + 4 * n ≤ o)%nat →
  get32 o (store_blocks n bs d) = get32 o d.
Proof.
  induction n as [|n IH]; intros Hl Ho; [done|].
  rewrite store_blocks_S, get32_put32_ne by (rewrite ?length_store_blocks; lia). apply IH; lia.
Qed.

(** What [write_head] writes over the old header [d], and [read_head] reads. *)
Definition header (n : nat) (bs d : list Z) : list Z := store_blocks n bs (put32 0 (Z.of_nat n) d).

Lemma length_header n bs d : (4 + 4 * n ≤ length d)%nat → length (header n bs d) = length d.
Proof. intros. unfold header. by rewrite length_store_blocks; rewrite length_put32; try lia. Qed.

Lemma s32_u32 x : is_s32 x → s32 (u32 x) = x.
Proof.
  unfold is_s32, s32, u32. intros. rewrite Zplus_mod_idemp_l, Z.mod_small; lia.
Qed.

Lemma head_n_header n bs d :
  (4 + 4 * n ≤ length d)%nat → Z.of_nat n < 2 ^ 31 → head_n (header n bs d) = Z.of_nat n.
Proof.
  intros Hl Hn. unfold head_n, header. rewrite get32_store_blocks by (rewrite ?length_put32; lia).
  rewrite get32_put32 by lia. apply s32_u32. unfold is_s32. lia.
Qed.

Lemma head_block_header n bs d j :
  (4 + 4 * n ≤ length d)%nat → (j < n)%nat → is_s32 (nth j bs 0) →
  head_block (header n bs d) j = nth j bs 0.
Proof.
  intros Hl Hj Hs. unfold head_block, header.
  assert (Hl' : length (put32 0 (Z.of_nat n) d) = length d) by (apply length_put32; lia).
  revert Hl' Hl. generalize (put32 0 (Z.of_nat n) d) as e. intros e Hl' Hl.
  rewrite <-Hl' in Hl. clear Hl'. induction n as [|n IH]; [lia|].
  rewrite store_blocks_S. destruct (decide (j = n)) as [->|Hne].
  - rewrite get32_put32 by (rewrite length_store_blocks; lia). by apply s32_u32.
  - rewrite get32_put32_ne by (rewrite ?length_store_blocks; lia). apply IH; lia.
Qed.

Lemma load_blocks_lookup n d bs j :
  (n ≤ length bs)%nat → (j < n)%nat → load_blocks n d bs !! j = Some (head_block d j).
Proof.
  intros Hl Hj.
  assert (Hlen : ∀ k, length (load_blocks k d bs) = length bs).
  { induction k as [|k IH]; [done|]. unfold load_blocks in *. by rewrite seq_S, foldl_app; simpl; rewrite length_insert. }
  induction n as [|n IH]; [lia|]. unfold load_blocks. rewrite seq_S, foldl_app. simpl.
  fold (load_blocks n d bs). destruct (decide (j = n)) as [->|Hne].
  - apply list_lookup_insert_eq. rewrite Hlen. lia.
  - rewrite list_lookup_insert_ne by lia. apply IH; lia.
Qed.

(** ** Sequences of block writes *)

Definition disk_apply (ws : list (Z * list Z)) (D : list (list Z)) : list (list Z) :=
  foldl (λ D w, <[Z.to_nat w.1 := w.2]> D) D ws.

Lemma disk_apply_app ws1 ws2 D : disk_apply (ws1 ++ ws2) D = disk_apply ws2 (disk_apply ws1 D).
Proof. apply foldl_app. Qed.

Lemma length_disk_apply ws D : length (disk_apply ws D) = length D.
Proof. revert D; induction ws as [|w ws IH]; intros D; [done|]. simpl. by rewrite IH, length_insert. Qed.

Lemma disk_apply_ne ws D m :
  (∀ w, w ∈ ws → Z.to_nat w.1 ≠ m) → disk_apply ws D !! m = D !! m.
Proof.
  revert D; induction ws as [|w ws IH]; intros D Hw; [done|]. simpl.
  rewrite IH by set_solver. by rewrite list_lookup_insert_ne by set_solver.
Qed.

(** The last write of a block decides. *)
Lemma disk_apply_snoc w ws D : disk_apply (ws ++ [w]) D = <[Z.to_nat w.1 := w.2]> (disk_apply ws D).
Proof. by rewrite disk_apply_app. Qed.

(** [s'] is [s] after the block writes [ws]. *)
Definition wrote (ws : list (Z * list Z)) (s s' : kernel) : Prop :=
  memdisk (kdisk s') = disk_apply ws (memdisk (kdisk s)) ∧ dwrites (kdisk s') = dwrites (kdisk s) ++ ws.

Lemma wrote_nil s s' : kdisk s' = kdisk s → wrote [] s s'.
Proof. intros Hk. unfold wrote. by rewrite Hk, app_nil_r. Qed.

Lemma wrote_app ws1 ws2 s1 s2 s3 : wrote ws1 s1 s2 → wrote ws2 s2 s3 → wrote (ws1 ++ ws2) s1 s3.
Proof.
  intros [H1 H2] [H3 H4]. split; [by rewrite disk_apply_app, H3, H1|by rewrite H4, H2, app_assoc].
Qed.
#[export] Hint Resolve wrote_nil wrote_app : xv6.
