(* ===== verification/Crash.v ===== *)
(** * Crash safety of the log

    [commit] and [recover_from_log] of log.c, with the block writes they make.
    A block write is atomic and the disk takes them in the order they are made;
    a crash leaves the disk after any prefix of them, and everything in memory
    is lost.  A disk stands for what [recover_from_log] makes of it: this file
    shows that [commit] changes what the disk stands for at one write. *)

From S2P Require Import Prelude Bytes Kernel Sched Proc Waiting Sleeplock Bio Log.

(** ** The state between transactions *)

Definition lstart (s : kernel) : Z := lg_start (klog s).
(** The block of entry [j] of the log. *)
Definition lblock (s : kernel) (j : nat) : Z := nth j (lh_block (klog s)) 0.
Definition nlogged (s : kernel) : nat := Z.to_nat (lh_n (klog s)).
(** The blocks of the log itself. *)
Definition in_log (lg : logst) (m : Z) : Prop := lg_start lg ≤ m < lg_start lg + lg_size lg.

(** A file system of which nobody holds a buffer, with a log that fits. *)
Record log_ready (q : Z) (s : kernel) : Prop := {
  lr_alone : alone q s;
  lr_bc : ∃ xs, bc q [] xs s;
  lr_dev : lg_dev (klog s) = 1;
  lr_area : 0 ≤ lg_start (klog s) ∧ 0 < lg_size (klog s) ∧
            lg_start (klog s) + lg_size (klog s) ≤ Z.of_nat (length (memdisk (kdisk s))) < 2 ^ 31;
  lr_n : 0 ≤ lh_n (klog s) < lg_size (klog s) ∧ (nlogged s < NBUF)%nat;
  lr_len : length (lh_block (klog s)) = Z.to_nat LOGSIZE;
  lr_blocks : ∀ j, (j < nlogged s)%nat → in_disk s (lblock s j) ∧ ¬ in_log (klog s) (lblock s j);
  lr_pinned : ∀ m, m ∈ pinned s → ∃ j, (j < nlogged s)%nat ∧ m = lblock s j }.

Lemma size_list_to_set_le (l : list Z) : (size (list_to_set l : gset Z) ≤ length l)%nat.
Proof.
  induction l as [|x l IH]; [by rewrite list_to_set_nil, size_empty|].
  rewrite list_to_set_cons, size_union_alt, size_singleton. simpl.
  pose proof (subseteq_size (list_to_set l ∖ {[x]} : gset Z) (list_to_set l) ltac:(set_solver)). lia.
Qed.

Lemma bframe_klog s s' : bframe s s' → klog s' = klog s.
Proof. intros [_ ->]. done. Qed.

Section Ready.
Context {q : Z} {s : kernel}.
Hypothesis Hr : log_ready q s.

Lemma ready_room : (size (pinned s) < NBUF)%nat.
Proof.
  assert (Hsub : pinned s ⊆ list_to_set (lblock s <$> seq 0 (nlogged s))).
  { intros m Hm. destruct (lr_pinned _ _ Hr m Hm) as (j & Hj & ->).
    rewrite elem_of_list_to_set, list_elem_of_fmap. exists j. split; [done|]. apply elem_of_seq. lia. }
  pose proof (subseteq_size _ _ Hsub) as H1. pose proof (size_list_to_set_le (lblock s <$> seq 0 (nlogged s))) as H2.
  rewrite length_fmap, length_seq in H2. pose proof (proj2 (lr_n _ _ Hr)). lia.
Qed.

Lemma ready_unpinned m : in_log (klog s) m → m ∉ pinned s.
Proof. intros Hm Hp. destruct (lr_pinned _ _ Hr m Hp) as (j & Hj & ->). by apply (lr_blocks _ _ Hr j Hj). Qed.

Lemma ready_logged j : (j < nlogged s)%nat → logged_block (klog s) j = lblock s j.
Proof.
  intros Hj. destruct (lr_blocks _ _ Hr j Hj) as [Hd _]. pose proof (lr_area _ _ Hr). unfold in_disk in Hd.
  apply u32_small. unfold is_u32, lblock in *. lia.
Qed.

(** Entry [t] of the log area. *)
Lemma ready_entry t :
  (t < nlogged s)%nat →
  u32 (lg_start (klog s) + Z.of_nat t + 1) = lstart s + 1 + Z.of_nat t ∧
  in_log (klog s) (lstart s + 1 + Z.of_nat t) ∧ in_disk s (lstart s + 1 + Z.of_nat t).
Proof.
  intros Ht. pose proof (lr_area _ _ Hr). destruct (lr_n _ _ Hr) as [Hn _].
  unfold in_log, in_disk, lstart, nlogged in *. split; [|lia].
  rewrite u32_small by (unfold is_u32; lia). lia.
Qed.

Lemma ready_head :
  u32 (lg_start (klog s)) = lstart s ∧ in_log (klog s) (lstart s) ∧ in_disk s (lstart s).
Proof.
  pose proof (lr_area _ _ Hr). unfold in_log, in_disk, lstart. split; [|lia].
  apply u32_small. unfold is_u32. lia.
Qed.
End Ready.

Lemma ready_frame q s s' :
  log_ready q s → bframe s s' → (∃ xs, bc q [] xs s') → pinned s' ⊆ pinned s →
  length (memdisk (kdisk s')) = length (memdisk (kdisk s)) → log_ready q s'.
Proof.
  intros [Ha _ Hdev Har Hn Hlen Hb Hp] Hf Hbc Hsub Hd. pose proof (bframe_klog _ _ Hf) as Hk.
  split; unfold nlogged, lblock, in_disk in *; rewrite ?Hk, ?Hd; try done.
  - by eapply alone_frame.
  - auto.
Qed.

Lemma wrote_length ws s s' : wrote ws s s' → length (memdisk (kdisk s')) = length (memdisk (kdisk s)).
Proof. intros [-> _]. apply length_disk_apply. Qed.

(** The writes of [write_log] and of [install_trans], given the contents. *)
Definition home_writes (b : nat → Z) (c : nat → list Z) (n : nat) : list (Z * list Z) :=
  (λ j, (b j, c j)) <$> seq 0 n.
Definition log_writes (st : Z) : (nat → list Z) → nat → list (Z * list Z) :=
  home_writes (λ j, st + 1 + Z.of_nat j).

Lemma home_writes_S b c n : home_writes b c (S n) = home_writes b c n ++ [(b n, c n)].
Proof. unfold home_writes. by rewrite seq_S, fmap_app. Qed.
Lemma log_writes_S st c n : log_writes st c (S n) = log_writes st c n ++ [(st + 1 + Z.of_nat n, c n)].
Proof. apply home_writes_S. Qed.

Lemma elem_of_home_writes b c n w : w ∈ home_writes b c n ↔ ∃ j, (j < n)%nat ∧ w = (b j, c j).
Proof.
  unfold home_writes. rewrite list_elem_of_fmap. split.
  - intros (j & -> & Hj%elem_of_seq). exists j. split; [lia|done].
  - intros (j & Hj & ->). exists j. split; [done|]. apply elem_of_seq. lia.
Qed.

(** A loop over [seq 0 n] with an invariant. *)
Lemma for_each_seq {S C} (I : nat → S → Prop) (body : nat → M S C unit) n s :
  I 0%nat s → (∀ t s1, (t < n)%nat → I t s1 → ∃ s2, body t s1 = Ok tt s2 ∧ I (Datatypes.S t) s2) →
  ∃ s', for_each (seq 0 n) body s = Ok tt s' ∧ I n s'.
Proof.
  intros H0 Hstep.
  assert (Hgen : ∀ k t s1, (t + k = n)%nat → I t s1 → ∃ s', for_each (seq t k) body s1 = Ok tt s' ∧ I n s').
  { induction k as [|k IH]; intros t s1 Ht HI.
    - rewrite Nat.add_0_r in Ht. subst. by exists s1.
    - destruct (Hstep t s1) as (s2 & H2 & HI2); [lia|done|].
      destruct (IH (Datatypes.S t) s2) as (s' & H' & HI'); [lia|done|].
      exists s'. simpl. by rewrite (bind_ok _ _ _ _ _ H2). }
  by apply Hgen.
Qed.

Section Commit.
Context {dk : Disk}.

(** *** write_log *)

Record wl_inv (q : Z) (s : kernel) (t : nat) (s' : kernel) : Prop := {
  wl_bc : ∃ xs, bc q [] xs s';
  wl_frame : bframe s s';
  wl_wrote : wrote (log_writes (lstart s) (λ j, block s (lblock s j)) t) s s';
  wl_pinned : pinned s' = pinned s;
  wl_entry : ∀ j, (j < t)%nat → block s' (lstart s + 1 + Z.of_nat j) = block s (lblock s j);
  wl_block : ∀ m, 0 ≤ m → ¬ (lstart s + 1 ≤ m < lstart s + 1 + Z.of_nat t) → block s' m = block s m }.

Lemma write_log_step q s t s' :
  log_ready q s → (∀ j, (j < nlogged s)%nat → lblock s j ∈ pinned s) → (t < nlogged s)%nat →
  wl_inv q s t s' → ∃ s'', write_log_one t s' = Ok tt s'' ∧ wl_inv q s (S t) s''.
Proof.
  intros Hr Hpin Ht [Hbc Hf Hw Hp He Hb].
  assert (Hr' : log_ready q s').
  { eapply ready_frame; try done; [by rewrite Hp|by eapply wrote_length]. }
  pose proof (bframe_klog _ _ Hf) as Hk. destruct Hbc as [xs Hbc].
  assert (Ht' : (t < nlogged s')%nat) by (unfold nlogged; by rewrite Hk).
  destruct (ready_entry Hr' t Ht') as (Hu & Hin & Hd). destruct (lr_blocks _ _ Hr' t Ht') as [Hbd Hbl].
  assert (Hls : lstart s' = lstart s) by (unfold lstart; by rewrite Hk).
  assert (Hlb : lblock s' t = lblock s t) by (unfold lblock; by rewrite Hk).
  assert (Hpt : lblock s t ∈ pinned s) by auto.
  destruct (copy_dst_first q xs s' (lblock s' t) (lstart s' + 1 + Z.of_nat t)) as (s2 & H2 & [Hbc2 Hbl2 Hp2 Hmd2 Hdw2 Hf2]);
    try done; [apply Hr'|congruence|right; apply (ready_room Hr')|left; by rewrite Hp, Hlb|].
  rewrite Hls, Hlb in *. exists s2. split.
  { unfold write_log_one, getlog. rewrite (bind_ok (gets _) _ _ _ _ eq_refl).
    by rewrite (lr_dev _ _ Hr'), Hu, (ready_logged Hr' t Ht'), Hlb. }
  assert (Hc : block s' (lblock s t) = block s (lblock s t)).
  { apply Hb; [unfold in_disk in Hbd; lia|]. unfold in_log in Hin, Hbl.
    rewrite Hk in Hin, Hbl. unfold lstart in *. lia. }
  rewrite Hc in *. split; try done; [by etransitivity|..].
  - rewrite log_writes_S. eapply wrote_app; [done|]. by split.
  - rewrite Hp2, Hp. apply difference_disjoint_L.
    pose proof (ready_unpinned Hr' _ Hin) as Hnp. rewrite Hp in Hnp. set_solver.
  - intros j Hj. assert (0 ≤ lstart s) by apply Hr. rewrite Hbl2 by lia. case_decide as Hjt.
    + by replace j with t by lia.
    + apply He. lia.
  - intros m Hm Hne. rewrite Hbl2 by done. rewrite decide_False by lia. apply Hb; [done|lia].
Qed.

Lemma write_log_ok q s :
  log_ready q s → (∀ j, (j < nlogged s)%nat → lblock s j ∈ pinned s) →
  ∃ s', write_log s = Ok tt s' ∧ wl_inv q s (nlogged s) s'.
Proof.
  intros Hr Hpin. unfold write_log, getlog. rewrite (bind_ok (gets _) _ _ _ _ eq_refl).
  apply (for_each_seq (wl_inv q s)).
  - split; [apply Hr|reflexivity|by apply wrote_nil|done|lia|done].
  - intros t s1 Ht. by apply write_log_step.
Qed.

(** *** install_trans *)

Definition logged_set (s : kernel) (t : nat) : gset Z := list_to_set (lblock s <$> seq 0 t).

Lemma elem_of_logged_set s t m : m ∈ logged_set s t ↔ ∃ j, (j < t)%nat ∧ m = lblock s j.
Proof.
  unfold logged_set. rewrite elem_of_list_to_set, list_elem_of_fmap. split.
  - intros (j & -> & Hj%elem_of_seq). exists j. split; [lia|done].
  - intros (j & Hj & ->). exists j. split; [done|]. apply elem_of_seq. lia.
Qed.

(** Nothing is pinned (recovery), or all that is logged is (commit). *)
Definition installable (s : kernel) : Prop :=
  pinned s = ∅ ∨
  ((∀ i j, (i < nlogged s)%nat → (j < nlogged s)%nat → lblock s i = lblock s j → i = j) ∧
   ∀ j, (j < nlogged s)%nat → lblock s j ∈ pinned s).

Record it_inv (q : Z) (s : kernel) (t : nat) (s' : kernel) : Prop := {
  it_bc : ∃ xs, bc q [] xs s';
  it_frame : bframe s s';
  it_wrote : wrote (home_writes (lblock s) (λ j, block s (lstart s + 1 + Z.of_nat j)) t) s s';
  it_pinned : pinned s' = pinned s ∖ logged_set s t;
  it_log : ∀ m, in_log (klog s) m → block s' m = block s m }.

Lemma install_step q s t s' :
  log_ready q s → installable s → (t < nlogged s)%nat →
  it_inv q s t s' → ∃ s'', install_one t s' = Ok tt s'' ∧ it_inv q s (S t) s''.
Proof.
  intros Hr Hi Ht [Hbc Hf Hw Hp Hl].
  assert (Hr' : log_ready q s').
  { eapply ready_frame; try done; [rewrite Hp; set_solver|by eapply wrote_length]. }
  pose proof (bframe_klog _ _ Hf) as Hk. destruct Hbc as [xs Hbc].
  assert (Ht' : (t < nlogged s')%nat) by (unfold nlogged; by rewrite Hk).
  destruct (ready_entry Hr' t Ht') as (Hu & Hin & Hd). destruct (lr_blocks _ _ Hr' t Ht') as [Hbd Hbl].
  assert (Hls : lstart s' = lstart s) by (unfold lstart; by rewrite Hk).
  assert (Hlb : lblock s' t = lblock s t) by (unfold lblock; by rewrite Hk).
  assert (Hroom : lblock s' t ∈ pinned s' ∨ (size (pinned s') + 1 < NBUF)%nat).
  { destruct Hi as [He|[Hinj Hall]].
    - right. assert (Hpe : pinned s' = ∅) by (rewrite Hp, He; set_solver).
      rewrite Hpe, size_empty. unfold NBUF. lia.
    - left. rewrite Hp, Hlb. apply elem_of_difference. split; [by apply Hall|].
      rewrite elem_of_logged_set. intros (j & Hj & Hbj). apply Hinj in Hbj; lia. }
  destruct (copy_src_first q xs s' (lstart s' + 1 + Z.of_nat t) (lblock s' t)) as (s2 & H2 & [Hbc2 Hbl2 Hp2 Hmd2 Hdw2 Hf2]);
    try done; [apply Hr'|congruence|right; apply (ready_room Hr')|].
  rewrite Hls, Hlb, Hk in *. rewrite Hl in Hmd2, Hdw2 by done. exists s2. split.
  { unfold install_one, getlog. rewrite (bind_ok (gets _) _ _ _ _ eq_refl).
    rewrite Hk, Hu, <-Hk, (lr_dev _ _ Hr'), (ready_logged Hr' t Ht'), Hlb. done. }
  split; [done|by etransitivity|..].
  - rewrite home_writes_S. eapply wrote_app; [done|]. by split.
  - rewrite Hp2, Hp. apply set_eq. intros m. rewrite !elem_of_difference, !elem_of_logged_set, elem_of_singleton.
    split.
    + intros [[? Hno] Hne]. split; [done|]. intros (j & Hj & ->). destruct (decide (j = t)) as [->|]; [done|].
      apply Hno. exists j. split; [lia|done].
    + intros [? Hno]. split_and!; [done| |]; [intros (j & Hj & ->)|intros ->]; apply Hno;
        [exists j|exists t]; (split; [lia|done]).
  - intros m Hm. assert (0 ≤ m) by (unfold in_log in Hm; pose proof (lr_area _ _ Hr); lia).
    rewrite Hbl2 by done. rewrite decide_False by congruence. by apply Hl.
Qed.

Lemma install_trans_ok q s :
  log_ready q s → installable s →
  ∃ s', install_trans s = Ok tt s' ∧ it_inv q s (nlogged s) s'.
Proof.
  intros Hr Hi. unfold install_trans, getlog. rewrite (bind_ok (gets _) _ _ _ _ eq_refl).
  apply (for_each_seq (it_inv q s)).
  - split; [apply Hr|reflexivity|by apply wrote_nil| |done]. unfold logged_set. simpl. set_solver.
  - intros t s1 Ht. by apply install_step.
Qed.

(** *** write_head *)

Lemma brelse_last q xs s i :
  alone q s → bc q [i] xs s →
  memdisk (kdisk s) !! Z.to_nat (blockno (nd (nodes s) i)) = Some (data (nd (nodes s) i)) →
  ∃ s', brelse i s = Ok tt s' ∧ (∃ xs', bc q [] xs' s') ∧ (∀ m, block s' m = block s m) ∧
        pinned s' = pinned s ∧ kdisk s' = kdisk s ∧ bframe s s'.
Proof.
  intros Ha Hbc Hd. destruct (brelse_ok q [i] xs s i Ha Hbc) as (s' & H & [(ys & zs & _ & Hbc') _ Hbl Hp Hk Hf]);
    [apply list_elem_of_here|by right|].
  exists s'. split_and!; try done. exists (i :: ys ++ zs).
  by rewrite filter_cons_False in Hbc' by (intros Hn; by apply Hn).
Qed.

Record wh_post (q : Z) (s s' : kernel) : Prop := {
  wh_bc : ∃ xs, bc q [] xs s';
  wh_frame : bframe s s';
  wh_wrote : wrote [(lstart s, header (nlogged s) (lh_block (klog s)) (block s (lstart s)))] s s';
  wh_pinned : pinned s' = pinned s;
  wh_block : ∀ m, 0 ≤ m → m ≠ lstart s → block s' m = block s m;
  wh_head : block s' (lstart s) = header (nlogged s) (lh_block (klog s)) (block s (lstart s)) }.

Lemma write_head_ok q s : log_ready q s → ∃ s', write_head s = Ok tt s' ∧ wh_post q s s'.
Proof.
  intros Hr. destruct (ready_head Hr) as (Hu & Hin & Hd). destruct (lr_bc _ _ Hr) as [xs Hbc].
  pose proof (lr_alone _ _ Hr) as Ha. destruct (lr_n _ _ Hr) as [Hn Hnb].
  destruct (bread_ok q [] xs s (lstart s) Ha Hbc Hd) as (i & s1 & H1 & [_ Hbc1 Hb1 Hd1 _ Hbl1 Hp1 Hk1 Hf1]).
  { by intros i ?%not_elem_of_nil. }
  { right. rewrite Nat.add_0_r. apply (ready_room Hr). }
  pose proof (alone_frame _ _ _ Ha Hf1) as Ha1.
  set (hdr := header (nlogged s) (lh_block (klog s)) (block s (lstart s))).
  assert (Hlen : length (block s (lstart s)) = Z.to_nat BSIZE) by (by apply (bc_blk_length Hbc)).
  destruct (rewrite_buf_ok q [i] xs s1 i (header (nlogged s) (lh_block (klog s))) Ha1 Hbc1) as (s2 & H2 & Hrw);
    [apply list_elem_of_here| |].
  { rewrite Hd1, length_header; [done|]. rewrite Hlen. unfold BSIZE, NBUF in *. lia. }
  rewrite Hd1 in Hrw. fold hdr in Hrw. destruct Hrw as [Hbc2 Hd2 Hb2 _ Hbl2 Hp2 Hmd2 Hdw2 Hf2].
  rewrite Hb1 in *. pose proof (alone_frame _ _ _ Ha1 Hf2) as Ha2.
  destruct (brelse_last q xs s2 i Ha2 Hbc2) as (s3 & H3 & Hbc3 & Hbl3 & Hp3 & Hk3 & Hf3).
  { rewrite Hb2, Hd2, Hmd2, Hk1. unfold in_disk in Hd. apply list_lookup_insert_eq. lia. }
  exists s3. split.
  - unfold write_head, getlog. rewrite (bind_ok (gets _) _ _ _ _ eq_refl), (lr_dev _ _ Hr), Hu.
    rewrite (bind_ok _ _ _ _ _ H1). rewrite <-bind_assoc.
    erewrite bind_ok; [exact H3|]. rewrite <-H2. unfold header, nlogged.
    by rewrite Z2Nat.id by lia.
  - unfold in_disk in Hd. split.
    + done.
    + by do 2 (etransitivity; [done|]).
    + unfold wrote. by rewrite Hk3, Hmd2, Hdw2, Hk1.
    + rewrite Hp3, Hp2, Hp1. apply difference_disjoint_L. pose proof (ready_unpinned Hr _ Hin). set_solver.
    + intros m Hm Hne. rewrite Hbl3, Hbl2, decide_False by done. done.
    + rewrite Hbl3, Hbl2, decide_True by (done || lia). done.
Qed.
End Commit.

(** ** What a disk stands for *)

Definition dblk (D : list (list Z)) (m : Z) : list Z := default [] (D !! Z.to_nat m).

Section Disks.
Variables st size : Z.

Definition log_area (m : Z) : Prop := st ≤ m < st + size.
Definition dhead (D : list (list Z)) : list Z := dblk D st.
Definition dn (D : list (list Z)) : nat := Z.to_nat (head_n (dhead D)).

(** The writes with which recovery installs the log. *)
Definition redo (D : list (list Z)) : list (Z * list Z) :=
  home_writes (head_block (dhead D)) (λ j, dblk D (st + 1 + Z.of_nat j)) (dn D).
Definition restored (D : list (list Z)) : list (list Z) := disk_apply (redo D) D.

(** A disk whose log header is sound. *)
Record disk_ok (D : list (list Z)) : Prop := {
  do_area : 0 ≤ st ∧ 0 < size ∧ st + size ≤ Z.of_nat (length D) < 2 ^ 31;
  do_blocks : Forall (λ b, length b = Z.to_nat BSIZE) D;
  do_n : 0 ≤ head_n (dhead D) < size ∧ (dn D < NBUF)%nat;
  do_home : ∀ j, (j < dn D)%nat →
    0 ≤ head_block (dhead D) j < Z.of_nat (length D) ∧ ¬ log_area (head_block (dhead D) j) }.

(** The same contents outside the log. *)
Definition same_home (D1 D2 : list (list Z)) : Prop :=
  length D1 = length D2 ∧ ∀ m, 0 ≤ m → ¬ log_area m → dblk D1 m = dblk D2 m.

#[export] Instance same_home_equiv : Equivalence same_home.
Proof.
  split.
  - done.
  - intros D1 D2 [Hl H]. split; [done|]. intros m Hm Hn. by rewrite H.
  - intros D1 D2 D3 [Hl1 H1] [Hl2 H2]. split; [congruence|]. intros m Hm Hn. by rewrite H1, H2.
Qed.

(** A list of writes decides every block it writes. *)
Lemma disk_apply_base ws D1 D2 m :
  length D1 = length D2 → (∃ w, w ∈ ws ∧ Z.to_nat w.1 = m) ∨ D1 !! m = D2 !! m →
  disk_apply ws D1 !! m = disk_apply ws D2 !! m.
Proof.
  revert D1 D2; induction ws as [|w ws IH]; intros D1 D2 Hl H; simpl.
  - destruct H as [(w & Hw & _)|H]; [by apply not_elem_of_nil in Hw|done].
  - apply IH; [by rewrite !length_insert|].
    destruct (decide (Z.to_nat w.1 = m)) as [<-|Hne].
    + right. destruct (decide (Z.to_nat w.1 < length D1)%nat).
      * by rewrite !list_lookup_insert_eq by lia.
      * by rewrite !list_insert_ge, !lookup_ge_None_2 by lia.
    + destruct H as [(w' & [->|Hw]%elem_of_cons & Hm)|H]; [done|by left; exists w'|right].
      by rewrite !list_lookup_insert_ne.
Qed.

(** Redoing writes of which a prefix has been made already. *)
Lemma disk_apply_absorb ws k D : disk_apply ws (disk_apply (take k ws) D) = disk_apply ws D.
Proof.
  apply list_eq. intros m. apply disk_apply_base; [by rewrite length_disk_apply|].
  destruct (decide (Exists (λ w, Z.to_nat w.1 = m) ws)) as [He|Hn].
  - left. apply Exists_exists in He as (w & ? & ?). by exists w.
  - right. apply disk_apply_ne. intros w Hw Hm. apply Hn, Exists_exists. exists w. split; [|done].
    rewrite <-(take_drop k ws). apply elem_of_app. by left.
Qed.

(** Writes outside the log leave the header and the log alone. *)
Lemma home_writes_log ws D m :
  (∀ w, w ∈ ws → 0 ≤ w.1 ∧ ¬ log_area w.1) → 0 ≤ st → log_area m →
  dblk (disk_apply ws D) m = dblk D m.
Proof.
  intros Hw Hst Hm. unfold dblk. f_equal. apply disk_apply_ne. intros w Hin Heq.
  destruct (Hw w Hin) as [H1 H2]. apply H2. unfold log_area in *. lia.
Qed.

(** Writes inside the log leave the home blocks alone. *)
Lemma log_writes_home ws D :
  (∀ w, w ∈ ws → log_area w.1) → 0 ≤ st → same_home (disk_apply ws D) D.
Proof.
  intros Hw Hst. split; [apply length_disk_apply|]. intros m Hm Hn. unfold dblk. f_equal.
  apply disk_apply_ne. intros w Hin Heq. apply Hn. pose proof (Hw w Hin) as H. unfold log_area in *.
  assert (w.1 = m) as <- by lia. done.
Qed.

Lemma redo_home D w : disk_ok D → w ∈ redo D → 0 ≤ w.1 ∧ ¬ log_area w.1.
Proof.
  intros Hok Hw. apply elem_of_home_writes in Hw as (j & Hj & ->). simpl.
  destruct (do_home _ Hok j); [lia|]. split; [lia|done].
Qed.

(** The header and the log decide what is redone. *)
Lemma redo_ext D1 D2 : disk_ok D1 → (∀ m, log_area m → dblk D2 m = dblk D1 m) → redo D2 = redo D1.
Proof.
  intros Hok H. destruct (do_area _ Hok) as (H0 & H1 & _). destruct (do_n _ Hok) as [Hn _].
  assert (Hh : dhead D2 = dhead D1) by (apply H; unfold log_area; lia).
  unfold redo, dn. rewrite Hh. apply list_fmap_ext. intros i j Hj. apply lookup_seq in Hj as [-> Hj].
  f_equal. apply H. unfold log_area. lia.
Qed.

(** The contents of a block written once. *)
Lemma home_writes_at b c n D j :
  (∀ i, (i < n)%nat → 0 ≤ b i < Z.of_nat (length D)) →
  (∀ i k, (i < n)%nat → (k < n)%nat → b i = b k → i = k) → (j < n)%nat →
  dblk (disk_apply (home_writes b c n) D) (b j) = c j.
Proof.
  intros Hb Hinj Hj. induction n as [|n IH]; [lia|].
  rewrite home_writes_S, disk_apply_snoc. unfold dblk. simpl. pose proof (Hb n ltac:(lia)).
  destruct (decide (j = n)) as [->|Hne].
  - rewrite list_lookup_insert_eq; [done|]. rewrite length_disk_apply. lia.
  - rewrite list_lookup_insert_ne.
    + apply IH; [intros; apply Hb; lia|intros; apply Hinj; (lia || done)|lia].
    + pose proof (Hb j Hj). intros Heq. assert (b n = b j) as Hbj by lia. apply Hinj in Hbj; lia.
Qed.

Lemma home_writes_other b c n D m :
  (∀ i, (i < n)%nat → 0 ≤ b i ∧ b i ≠ m) → 0 ≤ m →
  dblk (disk_apply (home_writes b c n) D) m = dblk D m.
Proof.
  intros Hb Hm. unfold dblk. f_equal. apply disk_apply_ne.
  intros w (j & Hj & ->)%elem_of_home_writes. simpl. pose proof (Hb j Hj). lia.
Qed.

Lemma Forall_disk_apply (P : list Z → Prop) ws D :
  Forall P D → (∀ w, w ∈ ws → P w.2) → Forall P (disk_apply ws D).
Proof.
  revert D; induction ws as [|w ws IH]; intros D HD Hw; [done|]. simpl.
  apply IH; [apply Forall_insert; [done|]; apply Hw; set_solver|set_solver].
Qed.

Lemma dblk_length D m :
  Forall (λ b, length b = Z.to_nat BSIZE) D → 0 ≤ m < Z.of_nat (length D) → length (dblk D m) = Z.to_nat BSIZE.
Proof.
  intros HD Hm. unfold dblk. destruct (lookup_lt_is_Some_2 D (Z.to_nat m)) as [b Hb]; [lia|].
  rewrite Hb. by apply (Forall_lookup_1 _ _ _ _ HD Hb).
Qed.

(** Writes at home keep the log. *)
Lemma disk_ok_home ws D :
  disk_ok D → (∀ w, w ∈ ws → 0 ≤ w.1 ∧ ¬ log_area w.1 ∧ length w.2 = Z.to_nat BSIZE) →
  disk_ok (disk_apply ws D) ∧ redo (disk_apply ws D) = redo D.
Proof.
  intros Hok Hw. pose proof (do_area _ Hok) as Har.
  assert (Hlog : ∀ m, log_area m → dblk (disk_apply ws D) m = dblk D m).
  { intros m Hm. apply home_writes_log; [|lia|done]. intros w Hin. destruct (Hw w Hin) as (?&?&?). done. }
  assert (Hh : dhead (disk_apply ws D) = dhead D) by (apply Hlog; unfold log_area; lia).
  split; [|by apply redo_ext].
  split; unfold dn; rewrite ?Hh, ?length_disk_apply; try apply Hok.
  apply Forall_disk_apply; [apply Hok|]. intros w Hin. by destruct (Hw w Hin) as (?&?&?).
Qed.

Lemma redo_writes D w : disk_ok D → w ∈ redo D → 0 ≤ w.1 ∧ ¬ log_area w.1 ∧ length w.2 = Z.to_nat BSIZE.
Proof.
  intros Hok Hw. destruct (redo_home D w Hok Hw) as [? ?]. split_and!; [done..|].
  apply elem_of_home_writes in Hw as (j & Hj & ->). simpl.
  pose proof (do_area _ Hok). destruct (do_n _ Hok) as [Hn _]. unfold dn in *.
  apply dblk_length; [apply Hok|lia].
Qed.

(** A disk with an empty log stands for itself. *)
Lemma restored_empty D : head_n (dhead D) = 0 → restored D = D.
Proof. intros Hn. unfold restored, redo, dn. by rewrite Hn. Qed.

(** The header with [n = 0] ends a transaction. *)
Lemma disk_ok_clear D bs :
  disk_ok D → let D' := disk_apply [(st, header 0 bs (dhead D))] D in
  disk_ok D' ∧ restored D' = D' ∧ same_home D' D.
Proof.
  intros Hok D'. pose proof (do_area _ Hok) as Har.
  assert (Hlen : length (dhead D) = Z.to_nat BSIZE) by (apply dblk_length; [apply Hok|lia]).
  assert (Hh : dhead D' = header 0 bs (dhead D)).
  { unfold D', dhead at 1, dblk. simpl. rewrite list_lookup_insert_eq; [done|lia]. }
  assert (Hn : head_n (dhead D') = 0).
  { rewrite Hh, head_n_header; [done|rewrite Hlen; unfold BSIZE; lia|lia]. }
  split_and!.
  - split; unfold dn; rewrite ?Hn; unfold D'; rewrite ?length_disk_apply; try done.
    + apply Forall_disk_apply; [apply Hok|]. intros w ->%list_elem_of_singleton. cbn [snd].
      rewrite length_header; [done|]. rewrite Hlen. unfold BSIZE. lia.
    + split; [lia|]. unfold NBUF. lia.
    + intros j Hj. simpl in Hj. lia.
  - by apply restored_empty.
  - apply log_writes_home; [|lia]. intros w ->%list_elem_of_singleton. simpl. unfold log_area. lia.
Qed.

(** A crash in the middle of recovery loses nothing. *)
Lemma redo_prefix D bs k :
  disk_ok D → let D' := disk_apply (take k (redo D ++ [(st, header 0 bs (dhead D))])) D in
  disk_ok D' ∧ same_home (restored D') (restored D).
Proof.
  intros Hok D'. destruct (decide (k ≤ length (redo D))%nat) as [Hk|Hk].
  - unfold D'. rewrite take_app_le by done.
    destruct (disk_ok_home (take k (redo D)) D Hok) as [Hok' Hre].
    { intros w Hw. apply (redo_writes D); [done|]. rewrite <-(take_drop k (redo D)). apply elem_of_app. by left. }
    split; [done|]. unfold restored. rewrite Hre, disk_apply_absorb. done.
  - unfold D'. rewrite take_ge by (rewrite length_app; simpl; lia). rewrite disk_apply_app.
    destruct (disk_ok_home (redo D) D Hok) as [Hok' Hre]; [by intros; apply (redo_writes D)|].
    fold (restored D) in *. pose proof (do_area _ Hok).
    assert (Hh : dhead (restored D) = dhead D).
    { apply home_writes_log; [by intros; apply (redo_home D)|lia|unfold log_area; lia]. }
    destruct (disk_ok_clear (restored D) bs Hok') as (H1 & H2 & H3). rewrite Hh in *.
    split; [done|]. by rewrite H2.
Qed.

(** *** The writes of a commit *)

Section Transaction.
Variables (b : nat → Z) (c : nat → list Z) (bs : list Z) (n : nat) (D : list (list Z)).
Hypothesis Hok : disk_ok D.
Hypothesis Hempty : head_n (dhead D) = 0.
Hypothesis Hn : (n < NBUF)%nat ∧ Z.of_nat n < size.
Hypothesis Hb : ∀ j, (j < n)%nat → b j = nth j bs 0 ∧ 0 ≤ b j < Z.of_nat (length D) ∧ ¬ log_area (b j).
Hypothesis Hc : ∀ j, (j < n)%nat → length (c j) = Z.to_nat BSIZE.

Definition commit_header : list Z := header n bs (dhead D).
Definition commit_writes : list (Z * list Z) :=
  log_writes st c n ++ [(st, commit_header)] ++ home_writes b c n ++ [(st, header 0 bs commit_header)].
(** The log is full, the header is written. *)
Definition committed : list (list Z) := disk_apply (log_writes st c n ++ [(st, commit_header)]) D.

Lemma log_writes_area k w : w ∈ take k (log_writes st c n) → log_area w.1 ∧ w.1 ≠ st ∧ length w.2 = Z.to_nat BSIZE.
Proof.
  intros Hw. assert (Hw' : w ∈ log_writes st c n)
    by (rewrite <-(take_drop k (log_writes st c n)); apply elem_of_app; by left).
  apply elem_of_home_writes in Hw' as (j & Hj & ->). simpl. unfold log_area. split_and!; [lia..|]. by apply Hc.
Qed.

(** Before the header is written nothing has happened. *)
Lemma before_commit k :
  let D' := disk_apply (take k (log_writes st c n)) D in
  disk_ok D' ∧ dhead D' = dhead D ∧ same_home (restored D') D.
Proof.
  intros D'. pose proof (do_area _ Hok) as Har.
  assert (Hh : dhead D' = dhead D).
  { unfold dhead, dblk. f_equal. apply disk_apply_ne. intros w Hw. destruct (log_writes_area k w Hw) as (?&?&?).
    unfold log_area in *. lia. }
  split_and!; [|done|].
  - split; unfold dn; rewrite ?Hh; unfold D'; rewrite ?length_disk_apply; try apply Hok.
    apply Forall_disk_apply; [apply Hok|]. intros w Hw. by destruct (log_writes_area k w Hw) as (?&?&?).
  - rewrite restored_empty by (by rewrite Hh). apply log_writes_home; [|lia].
    intros w Hw. by destruct (log_writes_area k w Hw) as (?&?&?).
Qed.

Lemma length_dhead : length (dhead D) = Z.to_nat BSIZE.
Proof. pose proof (do_area _ Hok). apply dblk_length; [apply Hok|lia]. Qed.

Lemma header_fits : (4 + 4 * n ≤ length (dhead D))%nat.
Proof. rewrite length_dhead. unfold NBUF, BSIZE in *. lia. Qed.

Lemma dhead_committed : dhead committed = commit_header.
Proof.
  pose proof (do_area _ Hok). unfold committed, dhead at 1, dblk. rewrite disk_apply_snoc.
  simpl. rewrite list_lookup_insert_eq; [done|]. rewrite length_disk_apply. lia.
Qed.

Lemma committed_head :
  head_n (dhead committed) = Z.of_nat n ∧ ∀ j, (j < n)%nat → head_block (dhead committed) j = b j.
Proof.
  pose proof header_fits. pose proof (do_area _ Hok). rewrite dhead_committed. split.
  - apply head_n_header; [done|lia].
  - intros j Hj. destruct (Hb j Hj) as (-> & ? & _). apply head_block_header; [done..|].
    unfold is_s32. destruct (Hb j Hj) as (<- & ? & _). lia.
Qed.

Lemma committed_entry j : (j < n)%nat → dblk committed (st + 1 + Z.of_nat j) = c j.
Proof.
  intros Hj. pose proof (do_area _ Hok). unfold committed. rewrite disk_apply_snoc. unfold dblk. simpl.
  rewrite list_lookup_insert_ne by lia.
  apply (home_writes_at (λ j, st + 1 + Z.of_nat j) c n D j); intros; lia.
Qed.

Lemma committed_ok : disk_ok committed ∧ redo committed = home_writes b c n.
Proof.
  destruct committed_head as [Hhn Hhb]. pose proof (do_area _ Hok) as Har. split.
  - split; unfold dn; rewrite ?Hhn, ?Nat2Z.id; unfold committed; rewrite ?length_disk_apply; try done; try lia.
    + apply Forall_disk_apply; [apply Hok|]. intros w [Hw|Hw%list_elem_of_singleton]%elem_of_app.
      * rewrite <-(take_ge (log_writes st c n) (length (log_writes st c n))) in Hw by lia.
        by destruct (log_writes_area _ w Hw) as (?&?&?).
      * subst w. cbn [snd]. unfold commit_header. rewrite length_header by apply header_fits. apply length_dhead.
    + intros j Hj. fold committed. rewrite Hhb by done. apply Hb. done.
  - unfold redo, dn. rewrite Hhn, Nat2Z.id. apply list_fmap_ext. intros i j Hj.
    apply lookup_seq in Hj as [-> Hj]. simpl. by rewrite Hhb, committed_entry.
Qed.

(** What the disk stands for after any number of the writes of a commit: the
    old blocks up to the write of the header, the new ones from then on. *)
Lemma commit_prefix k :
  let D' := disk_apply (take k commit_writes) D in
  disk_ok D' ∧
  same_home (restored D') (if decide (k ≤ n)%nat then D else disk_apply (home_writes b c n) D).
Proof.
  intros D'. assert (Hl : length (log_writes st c n) = n)
    by (unfold log_writes, home_writes; by rewrite length_fmap, length_seq).
  unfold D', commit_writes. case_decide as Hk.
  - rewrite take_app_le by lia. by destruct (before_commit k) as (?&?&?).
  - destruct committed_ok as [Hcok Hredo]. pose proof (do_area _ Hok) as Har.
    rewrite app_assoc, take_app_ge by (rewrite length_app; simpl; lia).
    rewrite disk_apply_app. fold committed.
    destruct (redo_prefix committed bs (k - length (log_writes st c n ++ [(st, commit_header)])) Hcok) as [H1 H2].
    rewrite dhead_committed, Hredo in H1, H2. split; [done|]. rewrite H2. unfold restored. rewrite Hredo.
    assert (Hs : same_home committed D).
    { apply log_writes_home; [|lia]. intros w [Hw|Hw%list_elem_of_singleton]%elem_of_app;
        [|subst w; simpl; unfold log_area; lia].
      rewrite <-(take_ge (log_writes st c n) (length (log_writes st c n))) in Hw by lia.
      by destruct (log_writes_area _ w Hw) as (?&?&?). }
    destruct Hs as [Hlen Hs]. split; [by rewrite !length_disk_apply|].
    intros m Hm Hnl. unfold dblk. f_equal. apply disk_apply_base; [done|].
    right. specialize (Hs m Hm Hnl). unfold dblk in Hs.
    destruct (decide (Z.to_nat m < length D)%nat).
    + destruct (lookup_lt_is_Some_2 D (Z.to_nat m)) as [x Hx], (lookup_lt_is_Some_2 committed (Z.to_nat m)) as [y Hy];
        [lia..|]. rewrite Hx, Hy in *. simpl in Hs. congruence.
    + by rewrite !lookup_ge_None_2 by lia.
Qed.
End Transaction.
End Disks.

(** ** Recovery *)

Section Recovery.
Context {dk : Disk}.

(** The kernel when it calls [recover_from_log]: an empty cache over the disk. *)
Record fs_booted (q st size : Z) (s : kernel) : Prop := {
  fb_alone : alone q s;
  fb_bc : ∃ xs, bc q [] xs s;
  fb_pinned : pinned s = ∅;
  fb_dev : lg_dev (klog s) = 1;
  fb_start : lg_start (klog s) = st;
  fb_size : lg_size (klog s) = size;
  fb_len : length (lh_block (klog s)) = Z.to_nat LOGSIZE }.

(** Nothing pinned or held: a block is what the disk has. *)
Lemma block_disk q xs s m : bc q [] xs s → pinned s = ∅ → block s m = dblk (memdisk (kdisk s)) m.
Proof.
  intros Hbc Hp. unfold block, dblk. apply (blk_clean Hbc); [by intros i ?%not_elem_of_nil|].
  fold (pinned s). rewrite Hp. set_solver.
Qed.

Definition set_log (f : logst → logst) (s : kernel) : kernel := s <| klog ::= f |>.

(** Setting the log's variables touches neither the cache nor the disk. *)
Lemma bc_set_log q H xs f s : bc q H xs (set_log f s) ↔ bc q H xs s.
Proof. done. Qed.
Lemma block_set_log f s m : block (set_log f s) m = block s m.
Proof. done. Qed.
Lemma pinned_set_log f s : pinned (set_log f s) = pinned s.
Proof. done. Qed.
Lemma alone_set_log q f s : alone q (set_log f s) ↔ alone q s.
Proof. done. Qed.

Definition loaded_log (D : list (list Z)) (lg : logst) : logst :=
  let h := dblk D (lg_start lg) in
  lg <| lh_n := head_n h |> <| lh_block ::= load_blocks (Z.to_nat (head_n h)) h |>.

Lemma read_head_ok q st size s :
  fs_booted q st size s → disk_ok st size (memdisk (kdisk s)) →
  ∃ s', read_head s = Ok tt s' ∧ bframe (set_log (loaded_log (memdisk (kdisk s))) s) s' ∧
        (∃ xs, bc q [] xs s') ∧ pinned s' = ∅ ∧ kdisk s' = kdisk s.
Proof.
  intros [Ha [xs Hbc] Hp Hdev Hst Hsz Hlen] Hok. pose proof (do_area _ _ _ Hok) as Har.
  destruct (do_n _ _ _ Hok) as [Hn Hnb]. unfold dn, dhead in *.
  assert (Hu : u32 (lg_start (klog s)) = st) by (rewrite Hst; apply u32_small; unfold is_u32; lia).
  destruct (bread_ok q [] xs s st Ha Hbc) as (i & s1 & H1 & [_ Hbc1 Hb1 Hd1 _ Hbl1 Hp1 Hk1 Hf1]);
    [lia|by intros i ?%not_elem_of_nil|right; rewrite Hp, size_empty; unfold NBUF; simpl; lia|].
  rewrite (block_disk _ _ _ _ Hbc Hp) in Hd1.
  unfold read_head, getlog. rewrite (bind_ok (gets _) _ _ _ _ eq_refl), Hdev, Hu, (bind_ok _ _ _ _ _ H1).
  unfold getb. rewrite (bind_ok (gets _) _ _ _ _ eq_refl), Hd1.
  unfold updlog. rewrite (bind_ok (modify_state _) _ _ _ _ eq_refl).
  rewrite (proj2 (Z.ltb_ge _ _)) by (unfold LOGSIZE, MAXOPBLOCKS, NBUF in *; lia).
  rewrite (bind_ok (modify_state _) _ _ _ _ eq_refl).
  set (s2 := set_log (loaded_log (memdisk (kdisk s))) s1).
  assert (Hs2 : ∀ s0, s0 = s2 → brelse i s0 = brelse i s2) by (by intros ? ->).
  rewrite Hs2.
  2:{ unfold s2, set_log, loaded_log, modify. simpl. by rewrite (bframe_klog _ _ Hf1), Hst. }
  destruct (brelse_last q xs s2 i) as (s3 & H3 & Hbc3 & _ & Hp3 & Hk3 & Hf3).
  - apply alone_set_log. by eapply alone_frame.
  - done.
  - unfold s2, set_log. simpl. rewrite Hb1, Hd1, Hk1. unfold dblk.
    destruct (lookup_lt_is_Some_2 (memdisk (kdisk s)) (Z.to_nat st)) as [d ->]; [lia|done].
  - exists s3. split_and!; try done.
    + etransitivity; [|done]. destruct Hf1 as [Hw Hf1]. split; [done|]. unfold s2. by rewrite Hf1.
    + rewrite Hp3. unfold s2. by rewrite pinned_set_log, Hp1, Hp.
    + by rewrite Hk3.
Qed.

(** The log as [read_head] leaves it. *)
Lemma loaded_ready q st size s s1 :
  fs_booted q st size s → disk_ok st size (memdisk (kdisk s)) →
  bframe (set_log (loaded_log (memdisk (kdisk s))) s) s1 → (∃ xs, bc q [] xs s1) → pinned s1 = ∅ →
  kdisk s1 = kdisk s →
  log_ready q s1 ∧ lstart s1 = st ∧ nlogged s1 = dn st (memdisk (kdisk s)) ∧
  ∀ j, (j < nlogged s1)%nat → lblock s1 j = head_block (dhead st (memdisk (kdisk s))) j.
Proof.
  intros [Ha _ _ Hdev Hst Hsz Hlen] Hok Hf Hbc1 Hp1 Hk1. pose proof (do_area _ _ _ Hok) as Har.
  destruct (do_n _ _ _ Hok) as [Hn Hnb]. pose proof (do_home _ _ _ Hok) as Hhome.
  set (D := memdisk (kdisk s)) in *. set (h := dhead st D) in *.
  assert (Hkl : klog s1 = (klog s) <| lh_n := head_n h |> <| lh_block ::= load_blocks (dn st D) h |>).
  { rewrite (bframe_klog _ _ Hf). unfold set_log, loaded_log. simpl. by rewrite Hst. }
  assert (Hnl : nlogged s1 = dn st D) by (unfold nlogged; by rewrite Hkl).
  assert (Hload : ∀ j, (j < dn st D)%nat → lblock s1 j = head_block h j).
  { intros j Hj. unfold lblock. rewrite Hkl. simpl. apply nth_lookup_Some.
    apply load_blocks_lookup; [|done]. rewrite Hlen. unfold LOGSIZE, MAXOPBLOCKS, NBUF in *. lia. }
  split_and!; [|unfold lstart; by rewrite Hkl|done|by rewrite Hnl].
  split; try done.
  - exact (alone_frame _ _ _ (proj2 (alone_set_log _ _ _) Ha) Hf).
  - by rewrite Hkl.
  - rewrite Hkl, Hk1. simpl. by rewrite Hst, Hsz.
  - rewrite Hnl. split; [|done]. rewrite Hkl. simpl. by rewrite Hsz.
  - rewrite Hkl. simpl. unfold load_blocks. clear -Hlen.
    generalize (lh_block (klog s)) Hlen. generalize (seq 0 (dn st D)) as l.
    induction l as [|i l IH]; intros bs Hbs; [done|]. simpl. apply IH. by rewrite length_insert.
  - intros j Hj. rewrite Hnl in Hj. rewrite Hload by done. destruct (Hhome j Hj) as [H1 H2]. split.
    + unfold in_disk. by rewrite Hk1.
    + unfold in_log. rewrite Hkl. simpl. by rewrite Hst, Hsz.
  - intros m Hm. rewrite Hp1 in Hm. set_solver.
Qed.

Lemma log_ready_clear q s : log_ready q s → pinned s = ∅ → log_ready q (set_log (λ l, l <| lh_n := 0 |>) s).
Proof.
  intros [Ha Hbc Hdev Har [Hn Hnb] Hlen Hb Hp] He. split; try done.
  - unfold nlogged. simpl. split; [lia|]. unfold NBUF. lia.
  - intros j Hj. unfold nlogged in Hj. simpl in Hj. lia.
  - intros m Hm. rewrite pinned_set_log, He in Hm. set_solver.
Qed.

(** Recovery installs the log and clears it. *)
Lemma recover_ok q st size s :
  fs_booted q st size s → disk_ok st size (memdisk (kdisk s)) →
  ∃ s' bs, recover_from_log s = Ok tt s' ∧ lh_n (klog s') = 0 ∧
    wrote (redo st (memdisk (kdisk s)) ++ [(st, header 0 bs (dhead st (memdisk (kdisk s))))]) s s'.
Proof.
  intros Hb Hok. destruct (read_head_ok _ _ _ _ Hb Hok) as (s1 & H1 & Hf1 & Hbc1 & Hp1 & Hk1).
  destruct (loaded_ready _ _ _ _ _ Hb Hok Hf1 Hbc1 Hp1 Hk1) as (Hr1 & Hst1 & Hn1 & Hlb1).
  destruct (install_trans_ok q s1 Hr1) as (s2 & H2 & [Hbc2 Hf2 Hw2 Hp2 Hl2]); [by left|].
  assert (Hpe : pinned s2 = ∅) by (rewrite Hp2, Hp1; set_solver).
  assert (Hr2 : log_ready q s2).
  { eapply ready_frame; try done; [rewrite Hpe; set_solver|by eapply wrote_length]. }
  set (s3 := set_log (λ l, l <| lh_n := 0 |>) s2).
  pose proof (log_ready_clear q s2 Hr2 Hpe) as Hr3. fold s3 in Hr3.
  destruct (write_head_ok q s3 Hr3) as (s4 & H4 & [_ Hf4 Hw4 _ _ _]).
  pose proof (bframe_klog _ _ Hf2) as Hkl2. destruct Hbc1 as [xs1 Hbc1].
  exists s4, (lh_block (klog s3)). split_and!.
  - unfold recover_from_log. rewrite (bind_ok _ _ _ _ _ H1), (bind_ok _ _ _ _ _ H2).
    unfold updlog. by rewrite (bind_ok (modify_state _) _ _ _ _ eq_refl).
  - by rewrite (bframe_klog _ _ Hf4).
  - apply wrote_app with s2.
    + destruct Hw2 as [Hw2 Hdw2]. rewrite Hk1 in Hw2, Hdw2.
      assert (Hredo : redo st (memdisk (kdisk s)) =
        home_writes (lblock s1) (λ j, block s1 (lstart s1 + 1 + Z.of_nat j)) (nlogged s1)).
      { unfold redo, home_writes. rewrite Hn1. apply list_fmap_ext. intros i j Hj.
        apply lookup_seq in Hj as [-> Hj]. rewrite Hlb1, Hst1, (block_disk _ _ _ _ Hbc1 Hp1), Hk1; [done|]. lia. }
      rewrite Hredo. by split.
    + replace (lstart s3) with st in Hw4 by (unfold lstart, s3; simpl; by rewrite Hkl2).
      assert (Hh : block s3 st = dhead st (memdisk (kdisk s))).
      { unfold s3. rewrite block_set_log, Hl2.
        - rewrite (block_disk _ _ _ _ Hbc1 Hp1), Hk1. done.
        - unfold in_log. fold (lstart s1). rewrite Hst1. pose proof (lr_area _ _ Hr1). lia. }
      rewrite Hh in Hw4. exact Hw4.
Qed.
End Recovery.

(** ** Committing *)

(** The kernel when it calls [commit]: the blocks of the transaction are pinned
    in the cache and listed, each once, and the log on the disk is empty. *)
Record ready_to_commit (q : Z) (s : kernel) : Prop := {
  rc_ready : log_ready q s;
  rc_n : 0 < lh_n (klog s);
  rc_inj : ∀ i j, (i < nlogged s)%nat → (j < nlogged s)%nat → lblock s i = lblock s j → i = j;
  rc_pinned : ∀ j, (j < nlogged s)%nat → lblock s j ∈ pinned s;
  rc_empty : head_n (dblk (memdisk (kdisk s)) (lstart s)) = 0 }.

Definition new_contents (s : kernel) (j : nat) : list Z := block s (lblock s j).
Definition writes_of_commit (s : kernel) : list (Z * list Z) :=
  commit_writes (lstart s) (lblock s) (new_contents s) (lh_block (klog s)) (nlogged s) (memdisk (kdisk s)).

Section Commit2.
Context {dk : Disk}.

Lemma unpinned_block q s m :
  log_ready q s → in_log (klog s) m → block s m = dblk (memdisk (kdisk s)) m.
Proof.
  intros Hr Hm. destruct (lr_bc _ _ Hr) as [xs Hbc]. unfold block, dblk.
  apply (blk_clean Hbc); [by intros i ?%not_elem_of_nil|]. by apply (ready_unpinned Hr).
Qed.

Lemma bframe_set_log f s s' : bframe s s' → bframe (set_log f s) (set_log f s').
Proof. intros [Hw He]. split; [done|]. by rewrite He. Qed.

(** *** Up to the commit point *)

Record cl_post (q : Z) (s s' : kernel) : Prop := {
  cl_ready : log_ready q s';
  cl_frame : bframe s s';
  cl_pinned : pinned s' = pinned s;
  cl_wrote : wrote (log_writes (lstart s) (new_contents s) (nlogged s) ++
               [(lstart s, commit_header (lstart s) (lh_block (klog s)) (nlogged s) (memdisk (kdisk s)))]) s s';
  cl_entry : ∀ j, (j < nlogged s)%nat → block s' (lstart s + 1 + Z.of_nat j) = new_contents s j;
  cl_head : block s' (lstart s) =
            commit_header (lstart s) (lh_block (klog s)) (nlogged s) (memdisk (kdisk s)) }.

Lemma commit_log_ok q s :
  ready_to_commit q s → ∃ s', (write_log ;; write_head) s = Ok tt s' ∧ cl_post q s s'.
Proof.
  intros [Hr Hn Hinj Hpin Hempty]. destruct (ready_head Hr) as (_ & Hin & Hd).
  destruct (write_log_ok q s Hr Hpin) as (s1 & H1 & [Hbc1 Hf1 Hw1 Hp1 He1 Hb1]).
  assert (Hr1 : log_ready q s1).
  { eapply ready_frame; try done; [by rewrite Hp1|by eapply wrote_length]. }
  destruct (write_head_ok q s1 Hr1) as (s2 & H2 & [Hbc2 Hf2 Hw2 Hp2 Hb2 Hh2]).
  assert (Hr2 : log_ready q s2).
  { eapply ready_frame; try done; [by rewrite Hp2|by eapply wrote_length]. }
  pose proof (bframe_klog _ _ Hf1) as Hk1.
  assert (Hls : lstart s1 = lstart s) by (unfold lstart; by rewrite Hk1).
  assert (Hst : 0 ≤ lstart s) by apply Hr.
  assert (Hhdr : header (nlogged s1) (lh_block (klog s1)) (block s1 (lstart s1)) =
            commit_header (lstart s) (lh_block (klog s)) (nlogged s) (memdisk (kdisk s))).
  { unfold commit_header, dhead, nlogged. rewrite Hls, Hk1, Hb1, (unpinned_block q s) by (done || lia). done. }
  rewrite Hhdr in Hw2, Hh2. rewrite Hls in *.
  exists s2. split; [by rewrite (bind_ok _ _ _ _ _ H1)|]. split; try done.
  - by etransitivity.
  - by rewrite Hp2.
  - by eapply wrote_app.
  - intros j Hj. rewrite Hb2 by lia. by apply He1.
Qed.

(** *** After it *)

Lemma commit_install_ok q s s2 :
  ready_to_commit q s → cl_post q s s2 →
  ∃ s', (install_trans ;; updlog (λ l, l <| lh_n := 0 |>) ;; write_head) s2 = Ok tt s' ∧
    wrote (home_writes (lblock s) (new_contents s) (nlogged s) ++
      [(lstart s, header 0 (lh_block (klog s))
                    (commit_header (lstart s) (lh_block (klog s)) (nlogged s) (memdisk (kdisk s))))]) s2 s' ∧
    pinned s' = ∅ ∧ bframe (set_log (λ l, l <| lh_n := 0 |>) s) s' ∧ ∃ xs, bc q [] xs s'.
Proof.
  intros [Hr Hn Hinj Hpin Hempty] [Hr2 Hf2 Hp2 Hw2 He2 Hh2].
  pose proof (bframe_klog _ _ Hf2) as Hk2. destruct (ready_head Hr) as (_ & Hin & Hd).
  destruct (install_trans_ok q s2 Hr2) as (s3 & H3 & [Hbc3 Hf3 Hw3 Hp3 Hl3]).
  { right. unfold nlogged, lblock. rewrite Hk2, Hp2. done. }
  pose proof (bframe_klog _ _ Hf3) as Hk3. rewrite Hk2 in Hk3.
  assert (Hpe : pinned s3 = ∅).
  { rewrite Hp3, Hp2. apply set_eq. intros m. rewrite elem_of_difference, elem_of_logged_set.
    split; [|set_solver]. intros [Hm Hno]. destruct Hno. destruct (lr_pinned _ _ Hr m Hm) as (j & Hj & ->).
    exists j. unfold nlogged, lblock. by rewrite Hk2. }
  assert (Hr3 : log_ready q s3).
  { eapply ready_frame; try done; [rewrite Hpe; set_solver|by eapply wrote_length]. }
  destruct (write_head_ok q _ (log_ready_clear q s3 Hr3 Hpe)) as (s5 & H5 & [Hbc5 Hf5 Hw5 Hp5 _ _]).
  exists s5. split_and!; [| |by rewrite Hp5| |done].
  - rewrite (bind_ok _ _ _ _ _ H3). unfold updlog. by rewrite (bind_ok (modify_state _) _ _ _ _ eq_refl).
  - apply wrote_app with s3.
    + assert (Hhw : home_writes (lblock s) (new_contents s) (nlogged s) =
        home_writes (lblock s2) (λ j, block s2 (lstart s2 + 1 + Z.of_nat j)) (nlogged s2)).
      { unfold home_writes, nlogged, lstart, lblock. rewrite Hk2. apply list_fmap_ext. intros i j Hj.
        apply lookup_seq in Hj as [-> Hj]. f_equal. symmetry. apply He2. exact Hj. }
      by rewrite Hhw.
    + assert (Hb5 : block s3 (lstart s) =
        commit_header (lstart s) (lh_block (klog s)) (nlogged s) (memdisk (kdisk s))).
      { rewrite Hl3; [done|]. by rewrite Hk2. }
      rewrite <-Hb5. unfold lstart, nlogged in Hw5. simpl in Hw5. rewrite Hk3 in Hw5. exact Hw5.
  - etransitivity; [|done]. apply bframe_set_log. by etransitivity.
Qed.

Lemma commit_ok q s :
  ready_to_commit q s →
  ∃ s', commit s = Ok tt s' ∧ wrote (writes_of_commit s) s s' ∧ pinned s' = ∅ ∧
        bframe (set_log (λ l, l <| lh_n := 0 |>) s) s' ∧ ∃ xs, bc q [] xs s'.
Proof.
  intros Hrc. destruct (commit_log_ok q s Hrc) as (s2 & H2 & Hcl).
  destruct (commit_install_ok q s s2 Hrc Hcl) as (s5 & H5 & Hw & Hp & Hf & Hbc).
  exists s5. split_and!; [| |done..].
  - unfold commit, getlog. rewrite (bind_ok (gets _) _ _ _ _ eq_refl), (proj2 (Z.ltb_lt _ _) (rc_n _ _ Hrc)).
    by rewrite <-bind_assoc, (bind_ok _ _ _ _ _ H2).
  - unfold writes_of_commit, commit_writes. rewrite app_assoc. eapply wrote_app; [apply Hcl|done].
Qed.
End Commit2.

(** ** Crashes *)

Section Atomicity.
Context {dk : Disk}.

(** The machine boots with the disk [D1] and crashes again during recovery,
    after some of its block writes; [D2] is the disk then. *)
Definition crash_recover (st size : Z) (D1 D2 : list (list Z)) : Prop :=
  ∃ q s0 s1 ws k, fs_booted q st size s0 ∧ memdisk (kdisk s0) = D1 ∧ recover_from_log s0 = Ok tt s1 ∧
    dwrites (kdisk s1) = dwrites (kdisk s0) ++ ws ∧ D2 = disk_apply (take k ws) D1.

(** A sound disk that stands for [X]. *)
Definition stands_for (st size : Z) (X D : list (list Z)) : Prop :=
  disk_ok st size D ∧ same_home st size (restored st D) X.

Lemma crash_recover_inv st size X D1 D2 :
  stands_for st size X D1 → crash_recover st size D1 D2 → stands_for st size X D2.
Proof.
  intros [Hok Hs] (q & s0 & s1 & ws & k & Hb & Hd & Hrec & Hws & ->). subst D1.
  destruct (recover_ok q st size s0 Hb Hok) as (s1' & bs & Hrec' & _ & [_ Hdw]).
  rewrite Hrec in Hrec'. injection Hrec' as <-. rewrite Hws in Hdw. apply app_inv_head in Hdw. subst ws.
  destruct (redo_prefix st size (memdisk (kdisk s0)) bs k Hok) as [Hok' Hs']. split; [done|].
  by etransitivity.
Qed.

(** Recovery that is not interrupted gives what the disk stands for. *)
Lemma recover_gives q st size X s0 :
  stands_for st size X (memdisk (kdisk s0)) → fs_booted q st size s0 →
  ∃ s1, recover_from_log s0 = Ok tt s1 ∧ same_home st size (memdisk (kdisk s1)) X.
Proof.
  intros [Hok Hs] Hb. destruct (recover_ok q st size s0 Hb Hok) as (s1 & bs & Hrec & _ & [Hmd _]).
  exists s1. split; [done|]. rewrite <-Hs, Hmd, disk_apply_app. fold (restored st (memdisk (kdisk s0))).
  pose proof (do_area _ _ _ Hok). apply log_writes_home; [|lia].
  intros w Hw%list_elem_of_singleton. subst w. unfold log_area. simpl. lia.
Qed.

(** The facts of the transaction the disk lemmas need. *)
Lemma commit_disk_ok q s :
  ready_to_commit q s →
  disk_ok (lstart s) (lg_size (klog s)) (memdisk (kdisk s)) ∧
  head_n (dhead (lstart s) (memdisk (kdisk s))) = 0 ∧
  ((nlogged s < NBUF)%nat ∧ Z.of_nat (nlogged s) < lg_size (klog s)) ∧
  (∀ j, (j < nlogged s)%nat → lblock s j = nth j (lh_block (klog s)) 0 ∧
     0 ≤ lblock s j < Z.of_nat (length (memdisk (kdisk s))) ∧
     ¬ log_area (lstart s) (lg_size (klog s)) (lblock s j)) ∧
  ∀ j, (j < nlogged s)%nat → length (new_contents s j) = Z.to_nat BSIZE.
Proof.
  intros [Hr Hn Hinj Hpin Hempty]. pose proof (lr_area _ _ Hr) as Har. destruct (lr_n _ _ Hr) as [Hn1 Hnb].
  destruct (lr_bc _ _ Hr) as [xs Hbc]. pose proof (lr_blocks _ _ Hr) as Hbl. split_and!; try done.
  - split; unfold dn; rewrite ?(Hempty : head_n (dhead _ _) = 0); try done.
    + apply Hbc.
    + split; [lia|unfold NBUF; lia].
    + intros j Hj. simpl in Hj. lia.
  - unfold nlogged. lia.
  - intros j Hj. destruct (Hbl j Hj) as [? ?]. done.
  - intros j Hj. apply (bc_blk_length Hbc). by destruct (Hbl j Hj).
Qed.

(** The new contents of the home blocks. *)
Lemma new_home q s m :
  ready_to_commit q s → 0 ≤ m →
  dblk (disk_apply (home_writes (lblock s) (new_contents s) (nlogged s)) (memdisk (kdisk s))) m = block s m.
Proof.
  intros [Hr Hn Hinj Hpin Hempty] Hm. destruct (lr_bc _ _ Hr) as [xs Hbc].
  pose proof (lr_blocks _ _ Hr) as Hbl.
  destruct (decide (m ∈ pinned s)) as [Hp|Hp].
  - destruct (lr_pinned _ _ Hr m Hp) as (j & Hj & ->).
    apply home_writes_at; [|done|done]. intros i Hi. by destruct (Hbl i Hi).
  - rewrite home_writes_other; [|intros i Hi|done].
    + symmetry. apply (blk_clean Hbc); [by intros i ?%not_elem_of_nil|done].
    + destruct (Hbl i Hi) as [Hd _]. unfold in_disk in Hd. split; [lia|]. intros <-. by apply Hp, Hpin.
Qed.

(** [C1] A commit is atomic.  [commit] returns, and whenever the machine crashes
    during it, after any number [k] of its block writes, and however often it
    crashes again while recovering, the recovery that gets through leaves every
    block outside the log as it was before the transaction if the header was not
    yet written ([k] at most the number of logged blocks), and as the
    transaction made it otherwise. *)
Theorem commit_atomic q s :
  ready_to_commit q s →
  ∃ s' ws, commit s = Ok tt s' ∧ dwrites (kdisk s') = dwrites (kdisk s) ++ ws ∧
    ∀ k D' q0 s0,
      star (crash_recover (lstart s) (lg_size (klog s))) (disk_apply (take k ws) (memdisk (kdisk s))) D' →
      fs_booted q0 (lstart s) (lg_size (klog s)) s0 → memdisk (kdisk s0) = D' →
      ∃ s1, recover_from_log s0 = Ok tt s1 ∧
        ∀ m, 0 ≤ m → ¬ in_log (klog s) m →
          dblk (memdisk (kdisk s1)) m =
          if decide (k ≤ nlogged s)%nat then dblk (memdisk (kdisk s)) m else block s m.
Proof.
  intros Hrc. destruct (commit_ok q s Hrc) as (s' & Hc & [_ Hdw] & _).
  exists s', (writes_of_commit s). split_and!; [done..|]. intros k D' q0 s0 Hstar Hb Hd.
  destruct (commit_disk_ok q s Hrc) as (Hok & He & Hn & Hbl & Hlen).
  set (X := if decide (k ≤ nlogged s)%nat then memdisk (kdisk s)
            else disk_apply (home_writes (lblock s) (new_contents s) (nlogged s)) (memdisk (kdisk s))).
  assert (Hs : stands_for (lstart s) (lg_size (klog s)) X D').
  { eapply (star_inv _ (stands_for (lstart s) (lg_size (klog s)) X)); [|apply crash_recover_inv|exact Hstar].
    by apply commit_prefix. }
  subst D'. destruct (recover_gives q0 _ _ X s0 Hs Hb) as (s1 & Hrec & _ & Hhome).
  exists s1. split; [done|]. intros m Hm Hnl. rewrite Hhome by done. unfold X.
  case_decide; [done|]. by apply (new_home q).
Qed.

(** [C2] When [commit] returns, the transaction is on the disk: every block
    outside the log has on the disk the contents it had in the cache, the log is
    empty on the disk and in memory, and no buffer is pinned any more. *)
Theorem commit_durable q s :
  ready_to_commit q s →
  ∃ s', commit s = Ok tt s' ∧ pinned s' = ∅ ∧ lh_n (klog s') = 0 ∧
    head_n (dblk (memdisk (kdisk s')) (lstart s)) = 0 ∧
    ∀ m, 0 ≤ m → ¬ in_log (klog s) m →
      dblk (memdisk (kdisk s')) m = block s m ∧ block s' m = block s m.
Proof.
  intros Hrc. destruct (commit_ok q s Hrc) as (s' & Hc & [Hmd Hdw] & Hp & Hf & xs & Hbc).
  destruct (commit_disk_ok q s Hrc) as (Hok & He & Hn & Hbl & Hlen).
  set (k := length (writes_of_commit s)).
  assert (Hlog : (nlogged s < k)%nat).
  { unfold k, writes_of_commit, commit_writes, log_writes, home_writes.
    rewrite !length_app, !length_fmap, !length_seq. simpl. lia. }
  destruct (commit_prefix (lstart s) (lg_size (klog s)) (lblock s) (new_contents s) (lh_block (klog s))
              (nlogged s) (memdisk (kdisk s)) Hok He Hn Hbl Hlen k) as [Hok' Hs].
  fold (writes_of_commit s) in Hok', Hs. rewrite take_ge in Hok', Hs by done. rewrite <-Hmd in Hok', Hs.
  rewrite decide_False in Hs by lia.
  assert (Hhn : head_n (dblk (memdisk (kdisk s')) (lstart s)) = 0).
  { rewrite Hmd. unfold writes_of_commit, commit_writes. rewrite !app_assoc, disk_apply_snoc.
    pose proof (do_area _ _ _ Hok) as Har. unfold dblk. simpl. rewrite list_lookup_insert_eq
      by (rewrite length_disk_apply; lia). simpl.
    pose proof (header_fits (lstart s) (lg_size (klog s)) (nlogged s) (memdisk (kdisk s)) Hok Hn) as Hfit.
    rewrite head_n_header; [done| |lia]. unfold commit_header. rewrite length_header by done. lia. }
  exists s'. split_and!; try done.
  - by rewrite (bframe_klog _ _ Hf).
  - intros m Hm Hnl. rewrite (restored_empty _ _ Hhn) in Hs. destruct Hs as [_ Hs].
    rewrite (block_disk _ _ _ _ Hbc Hp). rewrite Hs by done. by rewrite (new_home q).
Qed.
End Atomicity.

(** ** Witnesses *)

(** A machine with a process running, the disk [D] and the log variables [lg],
    after [binit]. *)
Definition fs_kernel0 (D : list (list Z)) (lg : logst) : kernel :=
  kernel0 <| kproc ::= λ k, k <| ptable := [ proc0 <| state := RUNNING |> <| pid := 7 |> ] |> |>
          <| kcpu ::= λ c, c <| cpu_proc := [Some 0%nat; None] |> |>
          <| kbio := {| bnodes := replicate (S NBUF) buf0 |} |>
          <| kdisk := {| memdisk := D; dwrites := [] |} |>
          <| klog := lg |>.
Definition fs_kernel (D : list (list Z)) (lg : logst) : kernel := after binit (fs_kernel0 D lg).

Lemma fs_kernel_ok D lg :
  Forall (λ b, length b = Z.to_nat BSIZE) D →
  bc 7 [] (reverse (seq 0 NBUF)) (fs_kernel D lg) ∧ alone 7 (fs_kernel D lg) ∧
  memdisk (kdisk (fs_kernel D lg)) = D ∧ pinned (fs_kernel D lg) = ∅ ∧ klog (fs_kernel D lg) = lg ∧
  ∀ i, (i < NBUF)%nat → dev (nd (nodes (fs_kernel D lg)) i) = 0.
Proof.
  intros HD. assert (Hz : zeroed_bufs (fs_kernel0 D lg)).
  { split_and!; [done| |done]. intros i Hi. assert (Hb : nd (nodes (fs_kernel0 D lg)) i = buf0).
    { unfold nd. change (nodes (fs_kernel0 D lg)) with (replicate (S NBUF) buf0).
      rewrite lookup_replicate_2 by (unfold NBUF in *; lia). done. }
    by rewrite Hb. }
  destruct (binit_ok 7 _ Hz) as (s' & Hb & Hbc & Hpin & Hdev & Hk & Hf).
  assert (Hs : fs_kernel D lg = s') by (unfold fs_kernel, after; by rewrite Hb). rewrite Hs.
  split_and!; [done| |by rewrite Hk|done|by rewrite (bframe_klog _ _ Hf)|done].
  eapply alone_frame; [|done]. split; [done|]. exists 0%nat. by eexists.
Qed.

#[local] Opaque fs_kernel.

(** A disk of 40 zeroed blocks with the log at block 2, and a transaction that
    has changed block 35. *)
Definition crash_disk : list (list Z) := replicate 40 zeros.
Definition crash_log : logst := mklog 2 30 0 1 1 1 (35 :: replicate 29 0).
Definition ones : list Z := replicate (Z.to_nat BSIZE) 1.
Definition changed_buf (b : buf) : buf :=
  b <| dev := 1 |> <| blockno := 35 |> <| flags := Z.lor B_VALID B_DIRTY |> <| data := ones |>.
Definition changed (s : kernel) : kernel := upd_nodes (alter changed_buf 0%nat) s.
Definition crash_kernel : kernel := changed (fs_kernel crash_disk crash_log).

Lemma crash_disk_blocks : Forall (λ b, length b = Z.to_nat BSIZE) crash_disk.
Proof. apply Forall_replicate. apply length_replicate. Qed.

Section Changed.
Variable s : kernel.
Hypothesis Hbc : bc 7 [] (reverse (seq 0 NBUF)) s.
Hypothesis Ha : alone 7 s.
Hypothesis Hd : memdisk (kdisk s) = crash_disk.
Hypothesis Hl : klog s = crash_log.
Hypothesis Hdev : ∀ i, (i < NBUF)%nat → dev (nd (nodes s) i) = 0.

Lemma changed_bc : bc 7 [] (reverse (seq 0 NBUF)) (changed s) ∧ pinned (changed s) = {[35]}.
Proof.
  assert (H0 : (0 < NBUF)%nat) by (unfold NBUF; lia).
  assert (Hnd : ∀ j, nd (alter changed_buf 0%nat (nodes s)) j =
                     if decide (0%nat = j) then changed_buf (nd (nodes s) j) else nd (nodes s) j).
  { intros j. apply nd_alter. rewrite (bc_length Hbc). lia. }
  split.
  - apply bcinv_alter with (H := []); try done; [constructor| |].
    + rewrite bool_decide_false by apply not_elem_of_nil.
      destruct (bc_idle Hbc 0%nat H0 (not_elem_of_nil _)) as (Hr & Hlk & _).
      split; [by apply length_replicate|]. split_and!; [done..|right]. split_and!; [done|done| |by left].
      simpl. rewrite Hd. done.
    + intros _ j Hj Hne Hdj. by rewrite Hdev in Hdj.
  - unfold pinned, changed. rewrite nodes_upd. apply set_eq. intros m.
    rewrite elem_of_dirty_blocks, elem_of_singleton. split.
    + intros (i & Hi & Hdi & Hbi). rewrite Hnd in Hdi, Hbi. case_decide; [by subst|].
      pose proof (bc_dirty_dev Hbc i Hi Hdi) as H1. by rewrite Hdev in H1.
    + intros ->. exists 0%nat. by rewrite Hnd.
Qed.

Lemma changed_ready : ready_to_commit 7 (changed s).
Proof.
  destruct changed_bc as [Hbc' Hp].
  assert (Hk : klog (changed s) = crash_log) by exact Hl.
  assert (Hm : memdisk (kdisk (changed s)) = crash_disk) by exact Hd.
  assert (Hn : nlogged (changed s) = 1%nat) by (unfold nlogged; by rewrite Hk).
  assert (Hb : ∀ j, (j < 1)%nat → lblock (changed s) j = 35).
  { intros j Hj. replace j with 0%nat by lia. unfold lblock. by rewrite Hk. }
  split; rewrite ?Hn, ?Hk; [|done|lia| |].
  - split; rewrite ?Hn, ?Hk, ?Hm; try done.
    + by eexists.
    + split; [simpl; lia|unfold NBUF; lia].
    + intros j Hj. rewrite Hb by done. unfold in_disk, in_log. rewrite Hm. split; [done|]. simpl. lia.
    + intros m Hpm. rewrite Hp, elem_of_singleton in Hpm. exists 0%nat. rewrite Hb by lia. split; [lia|done].
  - intros j Hj. rewrite Hb, Hp by done. set_solver.
  - rewrite Hm. unfold lstart. rewrite Hk. reflexivity.
Qed.

Lemma changed_params :
  lstart (changed s) = 2 ∧ lg_size (klog (changed s)) = 30 ∧ nlogged (changed s) = 1%nat ∧
  ¬ in_log (klog (changed s)) 35.
Proof.
  assert (Hk : klog (changed s) = crash_log) by exact Hl.
  unfold lstart, nlogged, in_log. rewrite Hk. split_and!; [done..|simpl; lia].
Qed.
End Changed.

Lemma crash_kernel_ready : ready_to_commit 7 crash_kernel.
Proof.
  destruct (fs_kernel_ok crash_disk crash_log crash_disk_blocks) as (? & ? & ? & _ & ? & ?).
  by apply changed_ready.
Qed.

Lemma crash_params :
  lstart crash_kernel = 2 ∧ lg_size (klog crash_kernel) = 30 ∧ nlogged crash_kernel = 1%nat ∧
  ¬ in_log (klog crash_kernel) 35.
Proof.
  destruct (fs_kernel_ok crash_disk crash_log crash_disk_blocks) as (? & ? & ? & _ & ? & ?).
  by apply changed_params.
Qed.

(** The machine crashes after the header has been written, and boots. *)
Definition crash_after : list (list Z) :=
  disk_apply (take 2 (writes_of_commit crash_kernel)) (memdisk (kdisk crash_kernel)).

Lemma crash_boot :
  fs_booted 7 2 30 (fs_kernel crash_after crash_log) ∧
  memdisk (kdisk (fs_kernel crash_after crash_log)) = crash_after.
Proof.
  assert (HD : Forall (λ b, length b = Z.to_nat BSIZE) crash_after).
  { destruct (commit_disk_ok _ _ crash_kernel_ready) as (Hok & He & Hn & Hbl & Hlen).
    destruct (commit_prefix _ _ (lblock crash_kernel) _ (lh_block (klog crash_kernel)) _ _ Hok He Hn Hbl Hlen 2)
      as [Hok' _]. apply Hok'. }
  destruct (fs_kernel_ok crash_after crash_log HD) as (Hbc & Ha & Hd & Hp & Hl & _).
  split; [|exact Hd]. split; rewrite ?Hl; [exact Ha|by exists (reverse (seq 0 NBUF))|exact Hp|reflexivity..].
Qed.

Lemma crash_writes s' ws :
  commit crash_kernel = Ok tt s' → dwrites (kdisk s') = dwrites (kdisk crash_kernel) ++ ws →
  disk_apply (take 2 ws) (memdisk (kdisk crash_kernel)) = crash_after.
Proof.
  intros Hc Hdw. destruct (commit_ok _ _ crash_kernel_ready) as (s2 & Hc2 & [_ Hdw2] & _).
  rewrite Hc in Hc2. injection Hc2 as <-. rewrite Hdw in Hdw2. by apply app_inv_head in Hdw2 as ->.
Qed.

Lemma commit_atomic_witness :
  ∃ s', commit crash_kernel = Ok tt s' ∧
  ∃ s1, recover_from_log (fs_kernel crash_after crash_log) = Ok tt s1 ∧
        dblk (memdisk (kdisk s1)) 35 = block crash_kernel 35.
Proof.
  destruct (commit_atomic 7 crash_kernel crash_kernel_ready) as (s' & ws & Hc & Hdw & H).
  exists s'. split; [exact Hc|]. destruct crash_params as (Hst & Hsz & Hn & Hnl).
  destruct crash_boot as [Hb Hd]. rewrite Hst, Hsz, Hn in H.
  destruct (H 2%nat crash_after 7 (fs_kernel crash_after crash_log)) as (s1 & Hrec & Hm).
  - rewrite (crash_writes s' ws Hc Hdw). apply star_refl.
  - exact Hb.
  - exact Hd.
  - exists s1. split; [exact Hrec|]. exact (Hm 35 ltac:(lia) Hnl).
Defined.

Lemma commit_durable_witness :
  ∃ s', commit crash_kernel = Ok tt s' ∧ dblk (memdisk (kdisk s')) 35 = block crash_kernel 35.
Proof.
  destruct (commit_durable 7 crash_kernel crash_kernel_ready) as (s' & Hc & _ & _ & _ & H).
  destruct crash_params as (_ & _ & _ & Hnl).
  exists s'. split; [exact Hc|exact (proj1 (H 35 ltac:(lia) Hnl))].
Defined.
