(* ===== verification/Reserve.v ===== *)
(** * Space in the log: begin_op, log_write, end_op

    All processes that use the log.  [begin_op] lets an operation start when
    the log has room for [MAXOPBLOCKS] blocks of every operation that runs; this
    file shows that the room is enough, that a process waits for room or for a
    commit only as long as it has to, and that nobody else is in the log during
    a commit. *)

From S2P Require Import Prelude Bytes Kernel Sched Proc Waiting Sleeplock Bio Log.

(** ** The sections *)

Lemma getlog_eq s : getlog s = Ok (klog s) s.
Proof. done. Qed.

(** Only the log's variables, the table and the locks held change. *)
Definition log_update (lg : logst) (f : list proc → list proc) (ls : list lockid) (s : kernel) : kernel :=
  (with_table f s) <| klog := lg |> <| held := ls |>.

Definition no_room (lg : logst) : bool :=
  negb (committing lg =? 0) || (LOGSIZE <? lh_n lg + (outstanding lg + 1) * MAXOPBLOCKS).

Lemma begin_op_from_eq s i p :
  held s = [LkLog] → runs s i → ptable (kproc s) !! i = Some p →
  begin_op_from s =
  if no_room (klog s)
  then Sleep (AtSleep ChLog LkLog (ticks (kproc s)))
         (with_table (alter (put_to_sleep ChLog) i) s <| held := [LkPtable] |>)
  else Ok tt (log_update ((klog s) <| outstanding := outstanding (klog s) + 1 |>) id [] s).
Proof.
  intros Hh Hr Hp. unfold begin_op_from, no_room. rewrite (bind_ok _ _ _ _ _ (getlog_eq s)).
  destruct (negb _); [by erewrite sleep_eq|]. simpl. destruct (_ <? _); [by erewrite sleep_eq|].
  unfold updlog. rewrite (bind_ok (modify_state _) _ _ _ _ eq_refl), release_last by done.
  by destruct s as [? ? [] ? ? ? ? ? ? [] ? ? ?].
Qed.

Lemma end_op_enter_eq s :
  held s = [] → committing (klog s) = 0 →
  end_op_enter s =
  if outstanding (klog s) - 1 =? 0
  then Ok true (log_update ((klog s) <| outstanding := outstanding (klog s) - 1 |> <| committing := 1 |>) id [] s)
  else Ok false (log_update ((klog s) <| outstanding := outstanding (klog s) - 1 |>) (woken ChLog) [] s).
Proof.
  intros Hh Hc. unfold end_op_enter. rewrite (bind_ok _ _ _ _ _ (acquire_free _ _ Hh)).
  unfold updlog. rewrite (bind_ok (modify_state _) _ _ _ _ eq_refl).
  set (s1 := modify klog _ _). rewrite (bind_ok _ _ _ _ _ (getlog_eq s1)).
  assert (Hc1 : committing (klog s1) = 0) by exact Hc. rewrite Hc1. change (negb (0 =? 0)) with false. cbv iota.
  change (outstanding (klog s1)) with (outstanding (klog s) - 1).
  destruct (outstanding (klog s) - 1 =? 0).
  - rewrite (bind_ok (modify_state _) _ _ _ _ eq_refl).
    erewrite (bind_ok (release _)) by (by apply release_last).
    unfold ret. by destruct s as [? ? [] ? ? ? ? ? ? [] ? ? ?].
  - erewrite (bind_ok (wakeup _)) by (apply wakeup_eq; unfold can_lock; simpl; set_solver).
    erewrite (bind_ok (release _)) by (by apply release_last).
    unfold ret. by destruct s as [? ? [] ? ? ? ? ? ? [] ? ? ?].
Qed.

Lemma end_op_exit_eq s :
  held s = [] → end_op_exit s = Ok tt (log_update ((klog s) <| committing := 0 |>) (woken ChLog) [] s).
Proof.
  intros Hh. unfold end_op_exit. rewrite (bind_ok _ _ _ _ _ (acquire_free _ _ Hh)).
  unfold updlog. rewrite (bind_ok (modify_state _) _ _ _ _ eq_refl).
  erewrite (bind_ok (wakeup _)) by (apply wakeup_eq; unfold can_lock; simpl; set_solver).
  rewrite release_last by done. by destruct s as [? ? [] ? ? ? ? ? ? [] ? ? ?].
Qed.

Lemma log_write_eq s b :
  held s = [] →
  log_write b s =
  if (LOGSIZE <=? lh_n (klog s)) || (lg_size (klog s) - 1 <=? lh_n (klog s)) then Panic "too big a transaction"
  else if outstanding (klog s) <? 1 then Panic "log_write outside of trans"
  else Ok tt (upd_nodes (alter (λ x, x <| flags := Z.lor (flags x) B_DIRTY |>) b)
               (s <| klog := log_entered (blockno (nd (bnodes (kbio s)) b)) (klog s) |>)).
Proof.
  intros Hh. unfold log_write. rewrite (bind_ok _ _ _ _ _ (getlog_eq s)).
  destruct (_ || _); [done|]. destruct (_ <? 1); [done|].
  rewrite (bind_ok _ _ _ _ _ (acquire_free _ _ Hh)). unfold getb.
  rewrite (bind_ok (gets _) _ _ _ _ eq_refl). unfold updlog, updb.
  rewrite !(bind_ok (modify_state _) _ _ _ _ eq_refl), release_last by done.
  f_equal. by destruct s; simpl in *; subst.
Qed.

(** ** All users of the log *)

(** The kernel, the operations in progress with the number of blocks each has
    added to the log, and the processes that [end_op] has told to commit, with
    whether their [commit] has returned.  Nothing here says that there is only
    one of them, nor that no operation runs beside it: that is [begin_op]'s. *)
Record lst := mklst { lk : kernel; ops : gmap nat Z; com : gmap nat bool }.

Inductive log_step : lst → lst → Prop :=
| ls_begin c i ls e k O C k' :
    runs_on c i k → O !! i = None → C !! i = None → entry LkLog i ls e →
    (e ;; begin_op_from) (on c ls k) = Ok tt k' →
    log_step (mklst k O C) (mklst k' (<[i := 0]> O) C)
| ls_begin_sleep c i ls e k O C pt k' :
    runs_on c i k → O !! i = None → C !! i = None → entry LkLog i ls e →
    (e ;; begin_op_from) (on c ls k) = Sleep pt k' →
    log_step (mklst k O C) (mklst k' O C)
(** An operation logs a block; it adds at most [MAXOPBLOCKS] to the log. *)
| ls_write c i b w k O C k' :
    runs_on c i k → O !! i = Some w → w < MAXOPBLOCKS →
    log_write b (on c [] k) = Ok tt k' →
    log_step (mklst k O C) (mklst k' (<[i := w + (lh_n (klog k') - lh_n (klog k))]> O) C)
| ls_end c i w k O C b k' :
    runs_on c i k → O !! i = Some w →
    end_op_enter (on c [] k) = Ok b k' →
    log_step (mklst k O C) (mklst k' (delete i O) (if b : bool then <[i := false]> C else C))
(** [commit] returns: the log is empty (Crash.v says what has become of it). *)
| ls_commit i k k' O C :
    C !! i = Some false → klog k' = (klog k) <| lh_n := 0 |> →
    (∀ j, sleeps k' j ChLog → sleeps k j ChLog) →
    log_step (mklst k O C) (mklst k' O (<[i := true]> C))
| ls_exit c i k O C k' :
    runs_on c i k → C !! i = Some true → end_op_exit (on c [] k) = Ok tt k' →
    log_step (mklst k O C) (mklst k' O (delete i C))
| ls_other k k' O C :
    klog k' = klog k → (∀ j, sleeps k' j ChLog → sleeps k j ChLog) →
    log_step (mklst k O C) (mklst k' O C).

(** The blocks the operations in progress may still add. *)
Definition reserved (O : gmap nat Z) : Z := map_fold (λ _ w r, MAXOPBLOCKS - w + r) 0 O.

Lemma reserved_insert O i w : O !! i = None → reserved (<[i := w]> O) = MAXOPBLOCKS - w + reserved O.
Proof. intros Hi. unfold reserved. rewrite map_fold_insert_L; [done|intros; lia|done]. Qed.

Lemma reserved_lookup O i w : O !! i = Some w → reserved O = MAXOPBLOCKS - w + reserved (delete i O).
Proof.
  intros Hi. rewrite <-(reserved_insert _ i w) by apply lookup_delete_eq. by rewrite insert_delete_id.
Qed.

Lemma reserved_le O :
  (∀ i w, O !! i = Some w → 0 ≤ w ≤ MAXOPBLOCKS) → 0 ≤ reserved O ≤ Z.of_nat (size O) * MAXOPBLOCKS.
Proof.
  induction O as [|i w O Hi IH] using map_ind; intros HO.
  - rewrite map_size_empty. unfold reserved. rewrite map_fold_empty. lia.
  - rewrite reserved_insert, map_size_insert_None by done.
    pose proof (HO i w (lookup_insert_eq _ _ _)).
    assert (0 ≤ reserved O ≤ Z.of_nat (size O) * MAXOPBLOCKS); [|lia].
    apply IH. intros j v Hj. apply (HO j v). rewrite lookup_insert_ne; [done|]. intros ->. congruence.
Qed.

Record log_inv (σ : lst) : Prop := {
  li_n : 0 ≤ lh_n (klog (lk σ));
  li_room : lh_n (klog (lk σ)) + reserved (ops σ) ≤ LOGSIZE;
  li_ops : ∀ i w, ops σ !! i = Some w → 0 ≤ w ≤ MAXOPBLOCKS;
  li_out : outstanding (klog (lk σ)) = Z.of_nat (size (ops σ));
  li_com : (com σ = ∅ ∧ committing (klog (lk σ)) = 0) ∨
           ∃ i r, com σ = {[i := r]} ∧ committing (klog (lk σ)) = 1 ∧ ops σ = ∅ ∧
                  (r = true → lh_n (klog (lk σ)) = 0);
  li_sleep : ∀ j, sleeps (lk σ) j ChLog → no_room (klog (lk σ)) = true }.

(** An operation in progress: nobody commits. *)
Lemma op_no_commit σ i w : log_inv σ → ops σ !! i = Some w → com σ = ∅ ∧ committing (klog (lk σ)) = 0.
Proof.
  intros Hinv Hi. destruct (li_com σ Hinv) as [H|(j & r & _ & _ & HO & _)]; [done|].
  rewrite HO, lookup_empty in Hi. done.
Qed.

Lemma entered_log i k s :
  entered LkLog i k s →
  held s = [LkLog] ∧ runs s i ∧ (∃ p, ptable (kproc s) !! i = Some p) ∧ klog s = klog k ∧
  ∀ j ch, sleeps s j ch → sleeps k j ch.
Proof. intros ((c & f & ->) & Hr & _ & [p Hp] & Hsl). split_and!; try done. by exists p. Qed.

Lemma no_room_false lg :
  no_room lg = false ↔ committing lg = 0 ∧ lh_n lg + (outstanding lg + 1) * MAXOPBLOCKS ≤ LOGSIZE.
Proof. unfold no_room. rewrite orb_false_iff, negb_false_iff, Z.eqb_eq, Z.ltb_ge. done. Qed.

Lemma log_begin_inv c i ls e k O C k' :
  log_inv (mklst k O C) → runs_on c i k → O !! i = None → entry LkLog i ls e →
  (e ;; begin_op_from) (on c ls k) = Ok tt k' → log_inv (mklst k' (<[i := 0]> O) C).
Proof.
  intros [Hn Hroom Hops Hout Hcom Hsl] Hr Hi He H. simpl in *.
  destruct (entry_ok_then LkLog _ _ _ _ _ _ _ _ ltac:(done) Hr He H)
    as (s & (Hh & Hr' & (p & Hp) & Hkl & Hsl')%entered_log & Hm).
  erewrite begin_op_from_eq in Hm by done. destruct (no_room (klog s)) eqn:E; [done|].
  injection Hm as <-. rewrite Hkl in *. apply no_room_false in E as [Ec E].
  pose proof (reserved_le O Hops). split; simpl; try done.
  - rewrite reserved_insert by done. unfold MAXOPBLOCKS in *. lia.
  - intros j w. rewrite lookup_insert. case_decide; [|apply Hops]. intros [= <-]. unfold MAXOPBLOCKS. lia.
  - rewrite map_size_insert_None by done. lia.
  - left. destruct Hcom as [?|(j & r & _ & Hc & _)]; [done|congruence].
  - intros j Hj. assert (Hjk : sleeps k j ChLog) by (by apply Hsl').
    pose proof (Hsl j Hjk) as Hnr. rewrite (proj2 (no_room_false (klog k))) in Hnr; [done|].
    split; [done|]. unfold MAXOPBLOCKS in *. lia.
Qed.

Lemma log_sleep_inv c i ls e k O C pt k' :
  log_inv (mklst k O C) → runs_on c i k → entry LkLog i ls e →
  (e ;; begin_op_from) (on c ls k) = Sleep pt k' → log_inv (mklst k' O C).
Proof.
  intros [Hn Hroom Hops Hout Hcom Hsl] Hr He H. simpl in *.
  destruct (entry_sleep_then LkLog _ _ _ _ _ _ _ _ ltac:(done) Hr He H)
    as (s & (Hh & Hr' & (p & Hp) & Hkl & Hsl')%entered_log & Hm).
  erewrite begin_op_from_eq in Hm by done. destruct (no_room (klog s)) eqn:E; [|done].
  injection Hm as _ <-. split; simpl; rewrite Hkl in *; done.
Qed.

(** [log_write] adds one block or none. *)
Lemma log_entered_n n lg :
  0 ≤ lh_n lg →
  lh_n (log_entered n lg) = lh_n lg ∨ lh_n (log_entered n lg) = lh_n lg + 1.
Proof. intros H. unfold log_entered. simpl. destruct (_ =? _); auto. Qed.

(** Whether there is room does not improve when the log grows. *)
Lemma no_room_mono lg lg' :
  no_room lg = true → committing lg' = committing lg → outstanding lg' = outstanding lg →
  lh_n lg ≤ lh_n lg' → no_room lg' = true.
Proof.
  unfold no_room. intros H -> -> Hle. apply orb_true_iff in H as [H|H]; [by rewrite H|].
  apply orb_true_iff. right. rewrite Z.ltb_lt in *. lia.
Qed.

Lemma log_write_inv c i b w k O C k' :
  log_inv (mklst k O C) → runs_on c i k → O !! i = Some w → w < MAXOPBLOCKS →
  log_write b (on c [] k) = Ok tt k' →
  log_inv (mklst k' (<[i := w + (lh_n (klog k') - lh_n (klog k))]> O) C).
Proof.
  intros Hinv Hr Hi Hw H. destruct (op_no_commit _ _ _ Hinv Hi) as [HC Hc0].
  destruct Hinv as [Hn Hroom Hops Hout _ Hsl]. simpl in *.
  rewrite log_write_eq in H by done. destruct (_ || _); [done|]. destruct (_ <? 1); [done|].
  apply Ok_inj in H as [_ <-].
  match goal with |- log_inv (mklst ?x _ _) => set (k' := x) end.
  pose proof (log_entered_n (blockno (nd (bnodes (kbio k)) b)) (klog k) Hn
    : lh_n (klog k') = _ ∨ lh_n (klog k') = _) as Hd.
  assert (Ho : outstanding (klog k') = outstanding (klog k)) by exact eq_refl.
  assert (Hc : committing (klog k') = committing (klog k)) by exact eq_refl.
  assert (Hs : ∀ j, sleeps k' j ChLog → sleeps k j ChLog) by (intros j; exact id).
  clearbody k'. pose proof (reserved_lookup O i w Hi) as Hres. destruct (Hops i w Hi).
  split; cbn [lk ops com].
  - lia.
  - rewrite <-insert_delete_eq, reserved_insert by apply lookup_delete_eq. lia.
  - intros j v. rewrite lookup_insert. case_decide; [|apply Hops]. intros [= <-]. lia.
  - rewrite map_size_insert_Some by eauto. congruence.
  - left. split; congruence.
  - intros j Hj. apply (no_room_mono (klog k)); [by eapply Hsl, Hs|done..|lia].
Qed.

Lemma log_end_inv c i w k O C b k' :
  log_inv (mklst k O C) → runs_on c i k → O !! i = Some w →
  end_op_enter (on c [] k) = Ok b k' →
  log_inv (mklst k' (delete i O) (if b : bool then <[i := false]> C else C)).
Proof.
  intros Hinv Hr Hi H. destruct (op_no_commit _ _ _ Hinv Hi) as [HC Hc0].
  destruct Hinv as [Hn Hroom Hops Hout _ Hsl]. simpl in *. subst C.
  rewrite end_op_enter_eq in H by done. change (klog (on c [] k)) with (klog k) in H.
  pose proof (reserved_lookup O i w Hi) as Hres. destruct (Hops i w Hi).
  assert (Hsz : size O = S (size (delete i O))).
  { rewrite map_size_delete_Some by eauto. assert (size O ≠ 0%nat); [|lia].
    intros Hz%map_size_empty_inv. subst. by rewrite lookup_empty in Hi. }
  assert (Hops' : ∀ j v, delete i O !! j = Some v → 0 ≤ v ≤ MAXOPBLOCKS).
  { intros j v [_ Hj]%lookup_delete_Some. by apply (Hops j). }
  destruct (Z.eqb_spec (outstanding (klog k) - 1) 0) as [Hz|Hz]; injection H as <- <-.
  - split; simpl; try done; [lia|lia|].
    right. exists i, false. split_and!; [done|done|apply map_size_empty_inv; lia|done].
  - split; simpl; try done; [lia|lia|by left|].
    intros j Hj. apply (sleeps_woken (on c [] k) _ j ChLog ChLog) in Hj as [_ Hj]; done.
Qed.

Lemma log_commit_inv i k k' O C :
  log_inv (mklst k O C) → C !! i = Some false → klog k' = (klog k) <| lh_n := 0 |> →
  log_inv (mklst k' O (<[i := true]> C)).
Proof.
  intros [Hn Hroom Hops Hout Hcom Hsl] Hi Hk. simpl in *.
  destruct Hcom as [[-> _]|(j & r & -> & Hc & -> & _)]; [by rewrite lookup_empty in Hi|].
  apply lookup_singleton_Some in Hi as [-> ->].
  split; simpl; rewrite ?Hk; simpl; try done.
  - right. exists i, true. rewrite insert_singleton_eq. done.
  - intros j Hj. unfold no_room. simpl. by rewrite Hc.
Qed.

Lemma log_exit_inv c i k k' O C :
  log_inv (mklst k O C) → C !! i = Some true → end_op_exit (on c [] k) = Ok tt k' →
  log_inv (mklst k' O (delete i C)).
Proof.
  intros [Hn Hroom Hops Hout Hcom Hsl] Hi H. simpl in *. rewrite end_op_exit_eq in H by done. injection H as <-.
  destruct Hcom as [[-> _]|(j & r & -> & Hc & -> & _)]; [by rewrite lookup_empty in Hi|].
  apply lookup_singleton_Some in Hi as [-> ->]. split; simpl; try done.
  - left. by rewrite delete_singleton_eq.
  - intros j Hj. apply (sleeps_woken (on c [] k) _ j ChLog ChLog) in Hj as [_ Hj]; done.
Qed.

Lemma log_step_inv σ σ' : log_inv σ → log_step σ σ' → log_inv σ'.
Proof.
  intros Hinv Hstep. destruct Hstep.
  - by eapply log_begin_inv.
  - by eapply log_sleep_inv.
  - by eapply log_write_inv.
  - by eapply log_end_inv.
  - by eapply log_commit_inv.
  - by eapply log_exit_inv.
  - destruct Hinv as [Hn Hroom Hops Hout Hcom Hsl]. simpl in *. split; simpl; match goal with Hk : klog _ = klog _ |- _ => rewrite ?Hk end; try done.
    intros j Hj. eauto.
Qed.

(** The log after [initlog]: empty, unused, nobody asleep on it. *)
Definition fresh_log (σ : lst) : Prop :=
  ops σ = ∅ ∧ com σ = ∅ ∧ lh_n (klog (lk σ)) = 0 ∧ outstanding (klog (lk σ)) = 0 ∧
  committing (klog (lk σ)) = 0 ∧ ∀ j, ¬ sleeps (lk σ) j ChLog.

Lemma log_reachable σ0 σ : fresh_log σ0 → star log_step σ0 σ → log_inv σ.
Proof.
  intros (HO & HC & Hn & Hout & Hc & Hsl) Hs.
  eapply (star_inv log_step log_inv); [|apply log_step_inv|done].
  split; rewrite ?HO, ?HC; try done; [lia|unfold reserved; rewrite map_fold_empty, Hn; done|by left|].
  intros j Hj. by destruct (Hsl j).
Qed.

(** ** Properties *)

(** [C3] The reservations of [begin_op] are enough.  In every state that the
    users of the log reach, as long as no operation adds more than [MAXOPBLOCKS]
    blocks, an operation that has added fewer finds fewer than [LOGSIZE] blocks in
    the header, so [log_write] stays inside its array; [log_write] panics just
    when the header already counts all data blocks the log has on the disk,
    [log.size - 1], which a log of more than [LOGSIZE] blocks excludes.  [end_op]
    never finds a commit going on. *)
Theorem log_reservation σ0 σ c i w b :
  fresh_log σ0 → star log_step σ0 σ → ops σ !! i = Some w → w < MAXOPBLOCKS →
  0 ≤ lh_n (klog (lk σ)) < LOGSIZE ∧
  (∃ k', log_write b (on c [] (lk σ)) =
     if lg_size (klog (lk σ)) - 1 <=? lh_n (klog (lk σ)) then Panic "too big a transaction" else Ok tt k') ∧
  ∃ r k', end_op_enter (on c [] (lk σ)) = Ok r k'.
Proof.
  intros Hf Hs Hi Hw. pose proof (log_reachable _ _ Hf Hs) as Hinv.
  destruct (op_no_commit _ _ _ Hinv Hi) as [_ Hc]. destruct Hinv as [Hn Hroom Hops Hout _ Hsl].
  pose proof (reserved_lookup _ _ _ Hi) as Hres.
  assert (Hdel : 0 ≤ reserved (delete i (ops σ))).
  { apply reserved_le. intros j v [_ Hj]%lookup_delete_Some. by apply (Hops j). }
  assert (Hlt : lh_n (klog (lk σ)) < LOGSIZE) by lia. split_and!; [done|done|..].
  - rewrite log_write_eq by done. simpl. rewrite (proj2 (Z.leb_gt _ _)) by lia. simpl.
    rewrite (proj2 (Z.ltb_ge _ _)); [destruct (_ <=? _); [by exists kernel0|by eexists]|]. rewrite Hout.
    assert (size (ops σ) ≠ 0%nat); [|lia]. intros Hz%map_size_empty_inv. rewrite Hz in Hi. done.
  - rewrite end_op_enter_eq by done. simpl. destruct (_ =? 0); by eexists _, _.
Qed.

(** [C4] Nobody waits for the log without a reason, and nobody is beside a
    commit: a process asleep in [begin_op] faces a commit or a log without room
    for one more operation; when a process commits, it is the only one and no
    operation is in progress; and [log.committing] tells whether there is one. *)
Theorem log_waits_for_room σ0 σ j :
  fresh_log σ0 → star log_step σ0 σ →
  (sleeps (lk σ) j ChLog →
   committing (klog (lk σ)) ≠ 0 ∨
   LOGSIZE < lh_n (klog (lk σ)) + (outstanding (klog (lk σ)) + 1) * MAXOPBLOCKS) ∧
  (is_Some (com σ !! j) → dom (com σ) = {[j]} ∧ ops σ = ∅ ∧ outstanding (klog (lk σ)) = 0) ∧
  (committing (klog (lk σ)) = 0 ↔ com σ = ∅).
Proof.
  intros Hf Hs. destruct (log_reachable _ _ Hf Hs) as [Hn Hroom Hops Hout Hcom Hsl]. split_and!.
  - intros Hj. pose proof (Hsl j Hj) as Hnr. unfold no_room in Hnr.
    apply orb_true_iff in Hnr as [Hnr|Hnr]; [left|right; lia].
    apply negb_true_iff, Z.eqb_neq in Hnr. done.
  - intros [r Hj]. destruct Hcom as [[HC _]|(i & r' & HC & _ & HO & _)]; rewrite HC in Hj; [done|].
    apply lookup_singleton_Some in Hj as [-> ->]. split_and!; [rewrite HC; set_solver|done|by rewrite Hout, HO].
  - destruct Hcom as [[-> ->]|(i & r' & -> & -> & _)]; [done|]. split; [done|].
    intros H. by apply map_non_empty_singleton in H.
Qed.

(** ** Runs *)

(** Runs of the log's users, process [i] on processor [i]. *)
Inductive lact := LBegin (i : nat) | LWrite (i b : nat).

Definition running (i : nat) (k : kernel) : bool :=
  bool_decide (cpu_proc (kcpu k) !! i = Some (Some i)) &&
  match ptable (kproc k) !! i with Some pr => bool_decide (state pr = RUNNING) | None => false end.

Definition lact_run (a : lact) (x : kernel * gmap nat Z) : option (kernel * gmap nat Z) :=
  let '(k, ow) := x in
  match a with
  | LBegin i =>
      match running i k, ow !! i, begin_op (on i [] k) with
      | true, None, Ok _ k' => Some (k', <[i := 0]> ow)
      | _, _, _ => None
      end
  | LWrite i b =>
      match running i k, ow !! i, log_write b (on i [] k) with
      | true, Some w, Ok _ k' =>
          if w <? MAXOPBLOCKS then Some (k', <[i := w + (lh_n (klog k') - lh_n (klog k))]> ow) else None
      | _, _, _ => None
      end
  end.

Fixpoint lacts_run (l : list lact) (x : kernel * gmap nat Z) : option (kernel * gmap nat Z) :=
  match l with [] => Some x | a :: l => match lact_run a x with Some x' => lacts_run l x' | None => None end end.

Lemma running_runs_on i k : running i k = true → runs_on i i k.
Proof.
  unfold running. intros [H1%bool_decide_eq_true H2]%andb_true_iff. split; [done|].
  destruct (ptable _ !! i) as [pr|]; [|done]. exists pr. by apply bool_decide_eq_true in H2.
Qed.

Definition lst_of (x : kernel * gmap nat Z) : lst := mklst (fst x) (snd x) ∅.

Lemma lact_run_step a x y : lact_run a x = Some y → log_step (lst_of x) (lst_of y).
Proof.
  destruct x as [k ow], a as [i|i b]; simpl; intros H.
  - destruct (running i k) eqn:Hr; [|done]. destruct (ow !! i) eqn:Hi; [done|].
    destruct (begin_op _) as [[] k'| |] eqn:Hb; [|done..]. apply (inj Some) in H as <-.
    exact (ls_begin i i [] (acquire LkLog) k ow ∅ k' (running_runs_on i k Hr) Hi (lookup_empty i) (en_call _ _) Hb).
  - destruct (running i k) eqn:Hr; [|done]. destruct (ow !! i) as [w|] eqn:Hi; [|done].
    destruct (log_write _ _) as [[] k'| |] eqn:Hb; [|done..].
    destruct (Z.ltb_spec w MAXOPBLOCKS) as [Hw|]; [|done]. apply (inj Some) in H as <-.
    exact (ls_write i i b w k ow ∅ k' (running_runs_on i k Hr) Hi Hw Hb).
Qed.

Lemma lacts_run_star l x y : lacts_run l x = Some y → star log_step (lst_of x) (lst_of y).
Proof.
  revert x. induction l as [|a l IH]; intros x H; simpl in H; [simplify_eq; apply star_refl|].
  destruct (lact_run a x) as [z|] eqn:Hz; [|done]. apply lact_run_step in Hz. eapply star_trans; [|by apply IH].
  eapply star_snoc; [apply star_refl|done].
Qed.

(** Three processes on three processors, thirty buffers of thirty blocks, and the
    log of [mkfs], which has [LOGSIZE] blocks. *)
Definition resv_k0 : kernel :=
  kernel0 <| kproc ::= λ k, k <| ptable := replicate 3 (proc0 <| state := RUNNING |>) |> |>
          <| kcpu ::= λ c, c <| cpu_proc := [Some 0%nat; Some 1%nat; Some 2%nat] |> |>
          <| kbio := {| bnodes := (λ b, buf0 <| blockno := 100 + Z.of_nat b |>) <$> seq 0 (S NBUF) |} |>
          <| klog := mklog 2 LOGSIZE 0 0 1 0 (replicate 30 0) |>.

Definition resv_fill : list lact :=
  (LBegin <$> seq 0 3) ++ (LWrite 0 <$> seq 0 10) ++ (LWrite 1 <$> seq 10 10) ++ (LWrite 2 <$> seq 20 9).

Definition resv_end : kernel * gmap nat Z := default (resv_k0, ∅) (lacts_run resv_fill (resv_k0, ∅)).

Lemma resv_k0_fresh : fresh_log (mklst resv_k0 ∅ ∅).
Proof.
  split_and!; [reflexivity..|]. intros [|[|[|j]]] (pr & Hj & Hst & _); by simplify_eq/=.
Qed.

Lemma resv_run : lacts_run resv_fill (resv_k0, ∅) = Some resv_end.
Proof. vm_compute. reflexivity. Qed.

(** [C5] The log that [mkfs] makes is one block short of what [begin_op]
    promises.  [mkfs] gives the log [LOGSIZE] blocks, one of which is the header,
    while [begin_op] admits operations for [LOGSIZE] data blocks: with three
    operations of [MAXOPBLOCKS] blocks each, all admitted, the last block of the
    third makes [log_write] panic. *)
Theorem log_one_block_short :
  ∃ σ0 σ b, fresh_log σ0 ∧ lg_size (klog (lk σ0)) = LOGSIZE ∧ star log_step σ0 σ ∧
    ops σ !! 2%nat = Some (MAXOPBLOCKS - 1) ∧
    log_write b (on 2 [] (lk σ)) = Panic "too big a transaction".
Proof.
  exists (lst_of (resv_k0, ∅)), (lst_of resv_end), 29%nat.
  split_and!; [exact resv_k0_fresh|reflexivity|exact (lacts_run_star _ _ _ resv_run)|..];
    vm_compute; reflexivity.
Qed.

(** ** Witnesses *)

(** Process 0 is in an operation that has logged one block; then the log of two
    more blocks than [LOGSIZE] takes a second one. *)
Definition resv_k1 : kernel := resv_k0 <| klog ::= λ l, l <| lg_size := 32 |> |>.
Definition resv_short : list lact := [LBegin 0; LWrite 0 3].
Definition resv_mid : kernel * gmap nat Z := default (resv_k1, ∅) (lacts_run resv_short (resv_k1, ∅)).

Lemma resv_k1_fresh : fresh_log (mklst resv_k1 ∅ ∅).
Proof.
  split_and!; [reflexivity..|]. intros [|[|[|j]]] (pr & Hj & Hst & _); by simplify_eq/=.
Qed.

Lemma log_reservation_witness :
  ∃ k', log_write 4 (on 0 [] (fst resv_mid)) = Ok tt k'.
Proof.
  destruct (log_reservation (lst_of (resv_k1, ∅)) (lst_of resv_mid) 0 0 1 4) as (_ & [k' H] & _).
  - exact resv_k1_fresh.
  - apply (lacts_run_star resv_short). vm_compute. reflexivity.
  - vm_compute. reflexivity.
  - vm_compute. reflexivity.
  - exists k'. change (lk (lst_of resv_mid)) with (fst resv_mid) in H.
    replace (lg_size (klog (fst resv_mid)) - 1 <=? lh_n (klog (fst resv_mid))) with false in H by (vm_compute; reflexivity).
    exact H.
Defined.

(** Two operations and one logged block leave no room for a third operation. *)
Definition resv_two : kernel * gmap nat Z :=
  default (resv_k0, ∅) (lacts_run [LBegin 0; LBegin 1; LWrite 0 0] (resv_k0, ∅)).
Definition resv_wait : kernel := after begin_op (on 2 [] (fst resv_two)).

Lemma resv_wait_run : star log_step (lst_of (resv_k0, ∅)) (mklst resv_wait (snd resv_two) ∅).
Proof.
  eapply star_snoc.
  - apply (lacts_run_star [LBegin 0; LBegin 1; LWrite 0 0] _ resv_two). vm_compute. reflexivity.
  - refine (ls_begin_sleep 2 2 [] (acquire LkLog) (fst resv_two) (snd resv_two) ∅
              (AtSleep ChLog LkLog 0) resv_wait _ _ (lookup_empty _) (en_call _ _) _).
    + apply running_runs_on. vm_compute. reflexivity.
    + vm_compute. reflexivity.
    + evaluate.
Qed.

Lemma log_waits_for_room_witness :
  sleeps resv_wait 2 ChLog ∧
  (committing (klog resv_wait) ≠ 0 ∨
   LOGSIZE < lh_n (klog resv_wait) + (outstanding (klog resv_wait) + 1) * MAXOPBLOCKS).
Proof.
  assert (Hs : sleeps resv_wait 2 ChLog) by (eexists; split_and!; vm_compute; reflexivity).
  split; [exact Hs|].
  destruct (log_waits_for_room (lst_of (resv_k0, ∅)) (mklst resv_wait (snd resv_two) ∅) 2)
    as (H & _); [exact resv_k0_fresh|exact resv_wait_run|exact (H Hs)].
Defined.
