(* ===== verification/Fs.v ===== *)
(** * The file system: fs.c

    Blocks, inodes, directories and path names, over the buffer cache and the
    log.  A call is modelled as its caller runs it, to its end: where it would
    sleep, for a lock or in a device, the outcome is [Sleep].

    An inode pointer is an index in [icache.inode]; a null pointer is [None].
    [readi] and [writei] exchange the bytes at [dst] and [src] as a list. *)

From Stdlib Require Import Ascii String.
From S2P Require Import Prelude Bytes Kernel Cstring Sched Proc Waiting Screen Console Sleeplock Bio Log.
Open Scope Z_scope.

(** [devsw] of file.c: the functions of each major device number, [None] for a
    null pointer.  Consdev.v gives the console's. *)
Class Devsw := {
  dev_read : Z → option (nat → Z → KM (Z * list Z));
  dev_write : Z → option (nat → list Z → Z → KM Z) }.

(** ** On-disk formats *)

(** [struct dinode], 64 bytes at offset [o] of a block. *)
Definition DINODE : nat := 64.
Definition di_type (o : nat) (d : list Z) : Z := s16 (get16 o d).
Definition di_addrs (o : nat) (d : list Z) : list Z :=
  (λ k, get32 (o + 12 + 4 * k) d) <$> seq 0 (S NDIRECT).

(** The copies in [ilock] and [iupdate], from and to the inode in memory. *)
Definition load_dinode (o : nat) (d : list Z) (ip : inode) : inode :=
  ip <| i_type := s16 (get16 o d) |> <| i_major := s16 (get16 (o + 2) d) |>
     <| i_minor := s16 (get16 (o + 4) d) |> <| i_nlink := s16 (get16 (o + 6) d) |>
     <| i_size := get32 (o + 8) d |> <| i_addrs := di_addrs o d |>.

Definition store_addrs (o : nat) (l : list Z) (d : list Z) : list Z :=
  foldl (λ d k, put32 (o + 12 + 4 * k) (nth k l 0) d) d (seq 0 (S NDIRECT)).

Definition store_dinode (o : nat) (ip : inode) (d : list Z) : list Z :=
  store_addrs o (i_addrs ip)
    (put32 (o + 8) (i_size ip) (put16 (o + 6) (i_nlink ip) (put16 (o + 4) (i_minor ip)
      (put16 (o + 2) (i_major ip) (put16 o (i_type ip) d))))).

Definition IBLOCK (i : Z) (b : superblock) : Z := u32 (i / IPB + sb_inodestart b).
Definition inode_off (i : Z) : nat := DINODE * Z.to_nat (i mod IPB).

(** [BBLOCK(b, sb)] *)
Definition BBLOCK (n : Z) (b : superblock) : Z := u32 (n / BPB + sb_bmapstart b).

(** The bitmap: bit [bi] of a block. *)
Definition bit_mask (bi : Z) : Z := Z.shiftl 1 (bi mod 8).
Definition bit_clear (bi : Z) (d : list Z) : bool :=
  Z.land (nth (Z.to_nat (bi / 8)) d 0) (bit_mask bi) =? 0.
Definition set_bit (bi : Z) (d : list Z) : list Z :=
  alter (λ x, Z.lor x (bit_mask bi)) (Z.to_nat (bi / 8)) d.
Definition clear_bit (bi : Z) (d : list Z) : list Z :=
  alter (λ x, Z.land x (u8 (Z.lnot (bit_mask bi)))) (Z.to_nat (bi / 8)) d.

(** [struct dirent]: [inum], then [name]. *)
Definition DIRENT : Z := 16.
Definition de_inum (d : list Z) : Z := get16 0 d.
Definition de_name (d : list Z) : list Z := drop 2 d.
Definition mk_dirent (inum : Z) (nm : list Z) : list Z := le_bytes 2 inum ++ nm.

Definition geti (i : nat) : KM inode := gets (λ s, default inode0 (icache s !! i)).
Definition updi (i : nat) (f : inode → inode) : KM unit := modify_state (λ s, s <| icache ::= alter f i |>).
Definition setdata (b : nat) (f : list Z → list Z) : KM unit := updb b (λ x, x <| data ::= f |>).

Section Fs.
Context {dk : Disk} {dv : Devsw}.

(** ** Blocks *)

Definition bzero (d bno : Z) : KM unit :=
  bp ← bread d (u32 bno);
  setdata bp (λ _, replicate (Z.to_nat BSIZE) 0) ;;
  log_write bp ;;
  brelse bp.

(** The blocks of the bitmap, [b] the number of the first bit of each. *)
Fixpoint balloc_from (d : Z) (bs : list Z) : KM Z :=
  match bs with
  | [] => panic "balloc: out of blocks"
  | b :: bs' =>
      sb' ← gets sb;
      bp ← bread d (BBLOCK b sb');
      x ← getb bp;
      match List.find (λ bi, bit_clear bi (data x))
              (Z.of_nat <$> seq 0 (Z.to_nat (Z.min BPB (sb_size sb' - b)))) with
      | Some bi =>
          setdata bp (set_bit bi) ;;
          log_write bp ;;
          brelse bp ;;
          bzero d (b + bi) ;;
          ret (b + bi)
      | None => brelse bp ;; balloc_from d bs'
      end
  end.

Definition bitmap_starts (size : Z) : list Z :=
  (λ k, BPB * Z.of_nat k) <$> seq 0 (Z.to_nat ((size + BPB - 1) / BPB)).

Definition balloc (d : Z) : KM Z :=
  sb' ← gets sb;
  balloc_from d (bitmap_starts (sb_size sb')).

Definition bfree (d b : Z) : KM unit :=
  sb' ← gets sb;
  bp ← bread d (BBLOCK b sb');
  x ← getb bp;
  let bi := b mod BPB in
  if bit_clear bi (data x) then panic "freeing free block" else
  setdata bp (clear_bit bi) ;;
  log_write bp ;;
  brelse bp.

(** ** Inodes *)

Definition iinit (d : Z) : KM unit :=
  for_each (seq 0 NINODE) (λ i, initsleeplock (SlInode i)) ;;
  b ← readsb d;
  modify_state (λ s, s <| sb := b |>) ;;
  cprintf "sb: size %d nblocks %d ninodes %d nlog %d logstart %d inodestart %d bmap start %d
"
    [CInt (sb_size b); CInt (sb_nblocks b); CInt (sb_ninodes b); CInt (sb_nlog b);
     CInt (sb_logstart b); CInt (sb_inodestart b); CInt (sb_bmapstart b)].

Definition iget (d inum : Z) : KM nat :=
  acquire LkIcache ;;
  l ← gets icache;
  match find_index (λ ip, (0 <? i_ref ip) && (i_dev ip =? d) && (i_inum ip =? inum)) l with
  | Some i =>
      updi i (λ ip, ip <| i_ref := i_ref ip + 1 |>) ;;
      release LkIcache ;;
      ret i
  | None =>
      match find_index (λ ip, i_ref ip =? 0) l with
      | None => panic "iget: no inodes"
      | Some i =>
          updi i (λ ip, ip <| i_dev := d |> <| i_inum := inum |> <| i_ref := 1 |> <| i_valid := 0 |>) ;;
          release LkIcache ;;
          ret i
      end
  end.

Fixpoint ialloc_from (d type : Z) (inums : list Z) : KM nat :=
  match inums with
  | [] => panic "ialloc: no inodes"
  | inum :: inums' =>
      sb' ← gets sb;
      bp ← bread d (IBLOCK inum sb');
      x ← getb bp;
      let o := inode_off inum in
      if di_type o (data x) =? 0 then
        setdata bp (λ dt, put16 o type (splice o (replicate DINODE 0) dt)) ;;
        log_write bp ;;
        brelse bp ;;
        iget d inum
      else
        brelse bp ;;
        ialloc_from d type inums'
  end.

Definition ialloc (d type : Z) : KM nat :=
  sb' ← gets sb;
  ialloc_from d type (Z.of_nat <$> seq 1 (Z.to_nat (sb_ninodes sb') - 1)).

Definition iupdate (i : nat) : KM unit :=
  ip ← geti i;
  sb' ← gets sb;
  bp ← bread (i_dev ip) (IBLOCK (i_inum ip) sb');
  setdata bp (store_dinode (inode_off (i_inum ip)) ip) ;;
  log_write bp ;;
  brelse bp.

Definition idup (i : nat) : KM nat :=
  acquire LkIcache ;;
  updi i (λ ip, ip <| i_ref := i_ref ip + 1 |>) ;;
  release LkIcache ;;
  ret i.

Definition ilock (i : nat) : KM unit :=
  ip ← geti i;
  if i_ref ip <? 1 then panic "ilock" else
  acquiresleep (SlInode i) ;;
  ip ← geti i;
  if i_valid ip =? 0 then
    sb' ← gets sb;
    bp ← bread (i_dev ip) (IBLOCK (i_inum ip) sb');
    x ← getb bp;
    updi i (load_dinode (inode_off (i_inum ip)) (data x)) ;;
    brelse bp ;;
    updi i (λ ip, ip <| i_valid := 1 |>) ;;
    ip ← geti i;
    if i_type ip =? 0 then panic "ilock: no type" else ret tt
  else ret tt.

Definition iunlock (i : nat) : KM unit :=
  h ← holdingsleep (SlInode i);
  ip ← geti i;
  if negb h || (i_ref ip <? 1) then panic "iunlock" else
  releasesleep (SlInode i).

(** [ip->addrs[k] = v] *)
Definition set_addr (i k : nat) (v : Z) : KM unit := updi i (λ ip, ip <| i_addrs ::= <[k := v]> |>).

(** The indirect blocks that [a] lists. *)
Definition free_indirect (d : Z) (a : list Z) : KM unit :=
  for_each (seq 0 NINDIRECT) (λ j,
    let b := get32 (4 * j) a in
    if b =? 0 then ret tt else bfree d b).

Definition itrunc (i : nat) : KM unit :=
  for_each (seq 0 NDIRECT) (λ k,
    ip ← geti i;
    let a := nth k (i_addrs ip) 0 in
    if a =? 0 then ret tt else
    bfree (i_dev ip) a ;;
    set_addr i k 0) ;;
  ip ← geti i;
  let a := nth NDIRECT (i_addrs ip) 0 in
  (if a =? 0 then ret tt else
   bp ← bread (i_dev ip) a;
   x ← getb bp;
   free_indirect (i_dev ip) (data x) ;;
   brelse bp ;;
   bfree (i_dev ip) a ;;
   set_addr i NDIRECT 0) ;;
  updi i (λ ip, ip <| i_size := 0 |>) ;;
  iupdate i.

Definition iput (i : nat) : KM unit :=
  acquiresleep (SlInode i) ;;
  ip ← geti i;
  (if negb (i_valid ip =? 0) && (i_nlink ip =? 0) then
     acquire LkIcache ;;
     ip ← geti i;
     release LkIcache ;;
     if i_ref ip =? 1 then
       itrunc i ;;
       updi i (λ ip, ip <| i_type := 0 |>) ;;
       iupdate i ;;
       updi i (λ ip, ip <| i_valid := 0 |>)
     else ret tt
   else ret tt) ;;
  releasesleep (SlInode i) ;;
  acquire LkIcache ;;
  updi i (λ ip, ip <| i_ref := i_ref ip - 1 |>) ;;
  release LkIcache.

Definition iunlockput (i : nat) : KM unit :=
  iunlock i ;;
  iput i.

(** ** Contents *)

Definition bmap (i : nat) (bn : Z) : KM Z :=
  ip ← geti i;
  if bn <? Z.of_nat NDIRECT then
    let a := nth (Z.to_nat bn) (i_addrs ip) 0 in
    if a =? 0 then
      a ← balloc (i_dev ip);
      set_addr i (Z.to_nat bn) a ;;
      ret a
    else ret a
  else
    let bn := bn - Z.of_nat NDIRECT in
    if bn <? Z.of_nat NINDIRECT then
      let a := nth NDIRECT (i_addrs ip) 0 in
      a ← (if a =? 0 then
             a ← balloc (i_dev ip);
             set_addr i NDIRECT a ;;
             ret a
           else ret a);
      bp ← bread (i_dev ip) a;
      x ← getb bp;
      let e := get32 (4 * Z.to_nat bn) (data x) in
      e ← (if e =? 0 then
             e ← balloc (i_dev ip);
             setdata bp (put32 (4 * Z.to_nat bn) e) ;;
             log_write bp ;;
             ret e
           else ret e);
      brelse bp ;;
      ret e
    else panic "bmap: out of range".

(** [struct stat], in the order of its fields. *)
Record stat := mkstat { st_type : Z; st_dev : Z; st_ino : Z; st_nlink : Z; st_size : Z }.
Definition stati (i : nat) : KM stat :=
  ip ← geti i;
  ret (mkstat (i_type ip) (i_dev ip) (i_inum ip) (i_nlink ip) (i_size ip)).

(** The loops of [readi] and [writei] for [n] bytes at [off]; each turn moves at
    least one byte, and all but the first and the last move a block, so
    [n / BSIZE + 2] turns are enough. *)
Definition rw_fuel (n : Z) : nat := Z.to_nat (n / BSIZE) + 3.

Fixpoint readi_loop (fuel i : nat) (off n : Z) : KM (list Z) :=
  match fuel with
  | O => panic "readi: out of fuel"
  | S fuel' =>
      if n <=? 0 then ret [] else
      ip ← geti i;
      a ← bmap i (off / BSIZE);
      bp ← bread (i_dev ip) a;
      let m := Z.min n (BSIZE - off mod BSIZE) in
      x ← getb bp;
      brelse bp ;;
      rest ← readi_loop fuel' i (off + m) (n - m);
      ret (slice (Z.to_nat (off mod BSIZE)) (Z.to_nat m) (data x) ++ rest)
  end.

Definition readi (i : nat) (off n : Z) : KM (Z * list Z) :=
  ip ← geti i;
  if i_type ip =? T_DEV then
    if (i_major ip <? 0) || (NDEV <=? i_major ip) then ret (-1, []) else
    match dev_read (i_major ip) with
    | None => ret (-1, [])
    | Some f => f i (s32 n)
    end
  else if (i_size ip <? off) || (u32 (off + n) <? off) then ret (-1, [])
  else
    let n := if i_size ip <? off + n then i_size ip - off else n in
    l ← readi_loop (rw_fuel n) i off n;
    ret (s32 n, l).

Fixpoint writei_loop (fuel i : nat) (src : list Z) (off n : Z) : KM Z :=
  match fuel with
  | O => panic "writei: out of fuel"
  | S fuel' =>
      if n <=? 0 then ret off else
      ip ← geti i;
      a ← bmap i (off / BSIZE);
      bp ← bread (i_dev ip) a;
      let m := Z.min n (BSIZE - off mod BSIZE) in
      setdata bp (splice (Z.to_nat (off mod BSIZE)) (take (Z.to_nat m) src)) ;;
      log_write bp ;;
      brelse bp ;;
      writei_loop fuel' i (drop (Z.to_nat m) src) (off + m) (n - m)
  end.

Definition writei (i : nat) (src : list Z) (off n : Z) : KM Z :=
  ip ← geti i;
  if i_type ip =? T_DEV then
    if (i_major ip <? 0) || (NDEV <=? i_major ip) then ret (-1) else
    match dev_write (i_major ip) with
    | None => ret (-1)
    | Some f => f i src (s32 n)
    end
  else if (i_size ip <? off) || (u32 (off + n) <? off) then ret (-1)
  else if MAXFILE * BSIZE <? off + n then ret (-1)
  else
    off' ← writei_loop (rw_fuel n) i src off n;
    ip ← geti i;
    (if (0 <? n) && (i_size ip <? off') then
       updi i (λ ip, ip <| i_size := off' |>) ;;
       iupdate i
     else ret tt) ;;
    ret (s32 n).
End Fs.
