(* ===== verification/Dinode.v ===== *)
(** * Inodes on the disk

    What [iupdate] stores of an inode in its block is what [ilock] loads from
    it, and the other inodes of the block are left alone. *)

From S2P Require Import Prelude Bytes Kernel Fs.

(** The fields fit the types they have on the disk. *)
Record dinode_fits (ip : inode) : Prop := {
  df_type : s16 (i_type ip) = i_type ip;
  df_major : s16 (i_major ip) = i_major ip;
  df_minor : s16 (i_minor ip) = i_minor ip;
  df_nlink : s16 (i_nlink ip) = i_nlink ip;
  df_size : u32 (i_size ip) = i_size ip;
  df_len : length (i_addrs ip) = S NDIRECT;
  df_addrs : ∀ k, u32 (nth k (i_addrs ip) 0) = nth k (i_addrs ip) 0 }.

Lemma s16_u16 x : s16 (u16 x) = s16 x.
Proof. unfold s16, u16. Z.div_mod_to_equations. lia. Qed.

(** *** The addresses *)

Definition store_upto (n o : nat) (l d : list Z) : list Z :=
  foldl (λ d k, put32 (o + 12 + 4 * k) (nth k l 0) d) d (seq 0 n).

Lemma store_upto_S n o l d :
  store_upto (S n) o l d = put32 (o + 12 + 4 * n) (nth n l 0) (store_upto n o l d).
Proof. unfold store_upto. by rewrite seq_S, foldl_app. Qed.

Lemma length_store_upto n o l d :
  (n ≤ S NDIRECT)%nat → (o + DINODE ≤ length d)%nat → length (store_upto n o l d) = length d.
Proof.
  intros Hn Ho. induction n as [|n IH]; [done|]. rewrite store_upto_S, length_put32; [apply IH; lia|].
  rewrite IH by lia. unfold NDIRECT, DINODE in *. lia.
Qed.

(** Bytes outside the table are left alone. *)
Lemma slice_store_upto n o l d o' w :
  (n ≤ S NDIRECT)%nat → (o + DINODE ≤ length d)%nat → (o' + w ≤ o + 12 ∨ o + DINODE ≤ o')%nat →
  slice o' w (store_upto n o l d) = slice o' w d.
Proof.
  intros Hn Ho Hw. induction n as [|n IH]; [done|]. rewrite store_upto_S. unfold put32.
  rewrite slice_splice_ne; [apply IH; lia|..]; rewrite ?length_le_bytes, ?length_store_upto by lia;
    unfold NDIRECT, DINODE in *; lia.
Qed.

Lemma get32_store_upto n o l d k :
  (n ≤ S NDIRECT)%nat → (o + DINODE ≤ length d)%nat → (k < n)%nat →
  get32 (o + 12 + 4 * k) (store_upto n o l d) = u32 (nth k l 0).
Proof.
  intros Hn Ho Hk. induction n as [|n IH]; [lia|]. rewrite store_upto_S.
  assert (Hb : (o + 12 + 4 * n + 4 ≤ length (store_upto n o l d))%nat)
    by (rewrite length_store_upto by lia; unfold NDIRECT, DINODE in *; lia).
  destruct (decide (k = n)) as [->|Hne]; [by apply get32_put32|].
  rewrite get32_put32_ne by (done || lia). apply IH; lia.
Qed.

(** *** The other fields *)

Definition store_head (o : nat) (ip : inode) (d : list Z) : list Z :=
  put32 (o + 8) (i_size ip) (put16 (o + 6) (i_nlink ip) (put16 (o + 4) (i_minor ip)
    (put16 (o + 2) (i_major ip) (put16 o (i_type ip) d)))).

Lemma store_dinode_eq o ip d : store_dinode o ip d = store_upto (S NDIRECT) o (i_addrs ip) (store_head o ip d).
Proof. done. Qed.

Lemma length_put16_in (d : list Z) m a v l :
  length l = length d → (a + 2 ≤ m)%nat → (m ≤ length d)%nat → length (put16 a v l) = length d.
Proof. intros Hl Ha Hm. rewrite length_put16; lia. Qed.

Lemma length_store_head o ip d : (o + DINODE ≤ length d)%nat → length (store_head o ip d) = length d.
Proof.
  intros Ho. unfold store_head. assert (Hd : (DINODE = 64)%nat) by done.
  rewrite length_put32; repeat (rewrite (length_put16_in d (o + DINODE)); try lia).
Qed.

Lemma get_store_head o ip d :
  (o + DINODE ≤ length d)%nat →
  let h := store_head o ip d in
  get16 o h = u16 (i_type ip) ∧ get16 (o + 2) h = u16 (i_major ip) ∧ get16 (o + 4) h = u16 (i_minor ip) ∧
  get16 (o + 6) h = u16 (i_nlink ip) ∧ get32 (o + 8) h = u32 (i_size ip).
Proof.
  intros Ho h. unfold h, store_head.
  assert (L : ∀ a v l, length l = length d → (a + 2 ≤ o + DINODE)%nat → length (put16 a v l) = length d)
    by (intros; by apply (length_put16_in d (o + DINODE))).
  assert (G : ∀ a v l b, length l = length d → (a + 2 ≤ o + DINODE)%nat → (b + 2 ≤ a)%nat →
              get16 b (put16 a v l) = get16 b l).
  { intros a v l b Hl Ha Hb. unfold put16. apply get16_splice; rewrite length_le_bytes; lia. }
  assert (G' : ∀ v l b, length l = length d → (b + 2 ≤ o + 8)%nat → get16 b (put32 (o + 8) v l) = get16 b l).
  { intros v l b Hl Hb. unfold put32. apply get16_splice; rewrite length_le_bytes; unfold DINODE in *; lia. }
  assert (Hd : (DINODE = 64)%nat) by done.
  split_and!.
  - rewrite G', G, G, G, get16_put16; [done|repeat (rewrite L; try lia); lia..].
  - rewrite G', G, G, get16_put16; [done|repeat (rewrite L; try lia); lia..].
  - rewrite G', G, get16_put16; [done|repeat (rewrite L; try lia); lia..].
  - rewrite G', get16_put16; [done|repeat (rewrite L; try lia); lia..].
  - rewrite get32_put32; [done|repeat (rewrite L; try lia)].
Qed.

Lemma length_store_dinode o ip d : (o + DINODE ≤ length d)%nat → length (store_dinode o ip d) = length d.
Proof.
  intros Ho. rewrite store_dinode_eq, length_store_upto, length_store_head; [done|done|lia|].
  by rewrite length_store_head.
Qed.

(** [ilock] loads what [iupdate] has stored. *)
Lemma load_store_dinode o ip d :
  (o + DINODE ≤ length d)%nat → dinode_fits ip → load_dinode o (store_dinode o ip d) ip = ip.
Proof.
  intros Ho [Ht Hmj Hmn Hnl Hsz Hlen Had]. destruct (get_store_head o ip d Ho) as (G1 & G2 & G3 & G4 & G5).
  pose proof (length_store_head o ip d Ho) as Hl.
  assert (Hs : ∀ o' w, (o' + w ≤ o + 12)%nat → slice o' w (store_dinode o ip d) = slice o' w (store_head o ip d)).
  { intros o' w Hw. rewrite store_dinode_eq. apply slice_store_upto; lia. }
  assert (H16 : ∀ o', (o' + 2 ≤ o + 12)%nat → get16 o' (store_dinode o ip d) = get16 o' (store_head o ip d))
    by (intros o' Ho'; unfold get16; by rewrite Hs).
  assert (Hda : di_addrs o (store_dinode o ip d) = i_addrs ip).
  { apply list_eq. intros k. unfold di_addrs. rewrite list_lookup_fmap.
    destruct (decide (k < S NDIRECT)%nat) as [Hk|Hk].
    - rewrite lookup_seq_lt by done. cbn [fmap option_fmap option_map Nat.add].
      rewrite store_dinode_eq, get32_store_upto, Had by (done || lia).
      symmetry. rewrite nth_lookup. destruct (lookup_lt_is_Some_2 (i_addrs ip) k) as [x ->]; [lia|done].
    - rewrite lookup_seq_ge, lookup_ge_None_2; [done|lia|lia]. }
  unfold load_dinode. rewrite Hda, !H16, G1, G2, G3, G4, !s16_u16, Ht, Hmj, Hmn, Hnl by lia.
  unfold get32. rewrite Hs by lia. fold (get32 (o + 8) (store_head o ip d)). rewrite G5, Hsz. by destruct ip.
Qed.

(** The other inodes of the block. *)
Lemma slice_store_dinode o ip d o' w :
  (o + DINODE ≤ length d)%nat → (o' + w ≤ o ∨ o + DINODE ≤ o')%nat →
  slice o' w (store_dinode o ip d) = slice o' w d.
Proof.
  intros Ho Hw. rewrite store_dinode_eq, slice_store_upto; [|done|by rewrite length_store_head|lia].
  unfold store_head. assert (Hd : (DINODE = 64)%nat) by done.
  assert (L : ∀ a v l, length l = length d → (a + 2 ≤ o + DINODE)%nat → length (put16 a v l) = length d)
    by (intros; by apply (length_put16_in d (o + DINODE))).
  assert (G : ∀ a v l, length l = length d → (o ≤ a)%nat → (a + 2 ≤ o + DINODE)%nat →
              slice o' w (put16 a v l) = slice o' w l).
  { intros a v l Hl Ha Hb. unfold put16. apply slice_splice_ne; rewrite length_le_bytes; lia. }
  unfold put32. rewrite slice_splice_ne by (rewrite ?length_le_bytes; repeat (rewrite L; try lia); lia).
  rewrite !G; [done|repeat (rewrite L; try lia); lia..].
Qed.
