(* ===== verification/Txn.v ===== *)
(** * Blocks inside a transaction

    How the file system sees the layers below while an operation is open:
    [bread] gives the contents of a block, [log_write] of a held buffer changes
    the contents of its block and nothing else, [brelse] changes nothing.  [txn]
    counts the blocks the operation may still log. *)

From S2P Require Import Prelude Bytes Kernel Cstring Sched Proc Waiting Sleeplock Bio Log Reserve Fs.

(** The blocks of the log. *)
Definition logged (lg : logst) : gset Z :=
  list_to_set (logged_block lg <$> seq 0 (Z.to_nat (lh_n lg))).

Lemma elem_of_logged lg n :
  n ∈ logged lg ↔ ∃ i, (i < Z.to_nat (lh_n lg))%nat ∧ logged_block lg i = n.
Proof.
  unfold logged. rewrite elem_of_list_to_set, list_elem_of_fmap. split.
  - intros (i & -> & Hi). rewrite elem_of_seq in Hi. exists i. split; [lia|done].
  - intros (i & Hi & <-). exists i. rewrite elem_of_seq. split; [done|lia].
Qed.

Lemma size_logged lg : 0 ≤ lh_n lg → Z.of_nat (size (logged lg)) ≤ lh_n lg.
Proof.
  intros Hn. unfold logged.
  assert (H : ∀ l : list Z, (size (list_to_set l : gset Z) ≤ length l)%nat).
  { induction l as [|x l IH]; [by rewrite list_to_set_nil, size_empty|].
    rewrite list_to_set_cons, size_union_alt, size_singleton. simpl.
    pose proof (subseteq_size (list_to_set l ∖ {[x]} : gset Z) (list_to_set l) ltac:(set_solver)). lia. }
  specialize (H (logged_block lg <$> seq 0 (Z.to_nat (lh_n lg)))). rewrite length_fmap, length_seq in H. lia.
Qed.

(** [log_entered] adds the block, and at most one entry. *)
Lemma u32_s32 n : is_u32 n → u32 (s32 n) = n.
Proof. unfold u32, s32, is_u32. intros. Z.div_mod_to_equations. lia. Qed.

Lemma log_slot_bound lg n : (log_slot lg n ≤ Z.to_nat (lh_n lg))%nat.
Proof.
  unfold log_slot. destruct (List.find _ _) as [i|] eqn:E; [|done]. simpl.
  apply find_some in E as [Hi _]. apply in_seq in Hi. lia.
Qed.

Lemma logged_entered lg n :
  is_u32 n → 0 ≤ lh_n lg < Z.of_nat (length (lh_block lg)) →
  logged (log_entered n lg) = {[n]} ∪ logged lg ∧
  lh_n lg ≤ lh_n (log_entered n lg) ≤ lh_n lg + 1 ∧
  length (lh_block (log_entered n lg)) = length (lh_block lg).
Proof.
  intros Hn Hl. pose proof (log_slot_bound lg n) as Hs.
  assert (Hlb : ∀ i, logged_block (log_entered n lg) i =
    if decide (i = log_slot lg n) then n else logged_block lg i).
  { intros i. unfold logged_block, log_entered. cbn. unfold modify. cbn. case_decide as Hi; subst.
    - rewrite nth_lookup, list_lookup_insert_eq by lia. simpl. by apply u32_s32.
    - rewrite !nth_lookup. by rewrite list_lookup_insert_ne by done. }
  assert (Hold : log_slot lg n ≠ Z.to_nat (lh_n lg) → logged_block lg (log_slot lg n) = n).
  { unfold log_slot. destruct (List.find _ _) as [i|] eqn:E; [|done]. intros _. simpl.
    apply find_some in E as [_ E]. by apply Z.eqb_eq. }
  split; [|split; [|by unfold log_entered; cbn; rewrite length_insert]].
  - apply set_eq. intros m. rewrite elem_of_union, elem_of_singleton, !elem_of_logged.
    assert (Hn' : lh_n (log_entered n lg) =
      if decide (log_slot lg n = Z.to_nat (lh_n lg)) then lh_n lg + 1 else lh_n lg).
    { unfold log_entered. cbn. destruct (Z.eqb_spec (Z.of_nat (log_slot lg n)) (lh_n lg)), (decide _); lia. }
    rewrite Hn'. split.
    + intros (i & Hi & <-). rewrite Hlb. destruct (decide (i = log_slot lg n)) as [|Hsl]; [by left|right].
      exists i. split; [|done]. destruct (decide (log_slot lg n = _)); lia.
    + intros [->|(i & Hi & <-)].
      * exists (log_slot lg n). rewrite Hlb. split; [case_decide; lia|]. by apply decide_True.
      * exists i. rewrite Hlb. split; [case_decide; lia|].
        destruct (decide (i = log_slot lg n)) as [Hsl|]; [|done]. subst i. symmetry. apply Hold. lia.
  - unfold log_entered. cbn. destruct (_ =? _); lia.
Qed.

(** ** Transactions *)

(** The steps of an operation change the cache and the entries of the log, and
    may wake processes. *)
Definition fstep (s s' : kernel) : Prop :=
  wakes (ptable (kproc s)) (ptable (kproc s')) ∧
  s' = s <| kbio := kbio s' |>
         <| klog := (klog s) <| lh_n := lh_n (klog s') |> <| lh_block := lh_block (klog s') |> |>
         <| kproc ::= λ k, k <| ptable := ptable (kproc s') |> |>.

#[export] Instance fstep_preorder : PreOrder fstep.
Proof.
  split.
  - intros s. split; [reflexivity|]. by destruct s as [? ? [] ? ? ? ? ? ? []].
  - intros s1 s2 s3 [W1 E1] [W2 E2]. split; [by etransitivity|].
    rewrite E1 in E2. rewrite E2. reflexivity.
Qed.

Lemma fstep_bframe s s' : bframe s s' → kdisk s' = kdisk s → fstep s s'.
Proof.
  intros [W E] Hd. split; [done|]. rewrite E. rewrite Hd. by destruct s as [? ? [] ? ? ? ? ? ? []].
Qed.

(** The process [q] holds the buffers [H] and may log [k] more blocks.  With
    [k = 0] no operation has to be open: the caller only reads. *)
Record txn (q : Z) (H : list nat) (k : Z) (s : kernel) : Prop := {
  tx_alone : alone q s;
  tx_bc : ∃ xs, bc q H xs s;
  tx_clean : ∀ i, i ∈ H → dirty (nd (nodes s) i) = true ∨
     memdisk (kdisk s) !! Z.to_nat (blockno (nd (nodes s) i)) = Some (data (nd (nodes s) i));
  tx_open : 0 < k → 1 ≤ outstanding (klog s);
  tx_pinned : pinned s ⊆ logged (klog s);
  tx_n : 0 ≤ lh_n (klog s);
  tx_room : lh_n (klog s) + k ≤ 28 ∧ lh_n (klog s) + k ≤ lg_size (klog s) - 1;
  tx_len : length (lh_block (klog s)) = Z.to_nat LOGSIZE;
  tx_disk : Z.of_nat (length (memdisk (kdisk s))) ≤ 2 ^ 32 }.

(** Using less of the room. *)
Lemma txn_weaken q H k k' s : txn q H k s → k' ≤ k → txn q H k' s.
Proof. intros [] Hk. split; try done; [|lia]. intros Hk'. apply tx_open0. lia. Qed.

#[local] Opaque acquire release.

Section Txn.
Context {dk : Disk}.

(** *** Reading *)

(** Buffer [i] has been read for block [n], and nothing else has changed. *)
Record opened (q n : Z) (H : list nat) (k : Z) (s : kernel) (i : nat) (s' : kernel) : Prop := {
  op_txn : txn q (i :: H) k s';
  op_new : i ∉ H;
  op_blockno : blockno (nd (nodes s') i) = n;
  op_data : data (nd (nodes s') i) = block s n;
  op_others : ∀ j, j ≠ i → nd (nodes s') j = nd (nodes s) j;
  op_block : ∀ m, block s' m = block s m;
  op_log : klog s' = klog s;
  op_step : fstep s s' }.

Lemma bframe_log s s' : bframe s s' → klog s' = klog s.
Proof. by intros [_ ->]. Qed.

Lemma bread_txn q H k s n :
  txn q H k s → 0 ≤ k → in_disk s n → (length H ≤ 1)%nat →
  (∀ i, i ∈ H → blockno (nd (nodes s) i) ≠ n) →
  ∃ i s', bread 1 n s = Ok i s' ∧ opened q n H k s i s'.
Proof.
  intros [Ha [xs Hbc] Hcl Ho Hp Hn Hr Hlen Hd] Hk Hin HH Hne.
  assert (Hsz : (size (pinned s) + length H < NBUF)%nat).
  { pose proof (subseteq_size _ _ Hp). pose proof (size_logged (klog s) Hn). unfold NBUF. lia. }
  destruct (bread_ok q H xs s n Ha Hbc Hin Hne (or_intror Hsz)) as (i & s' & Hb & [Hnew Hbc' Hbn Hdt Hoth Hbl Hpin Hdk Hf]).
  exists i, s'. split; [done|].
  pose proof (bframe_log _ _ Hf) as Hl.
  split; [|done..|by apply fstep_bframe]. split; rewrite ?Hl, ?Hdk, ?Hpin; try done.
  - by eapply alone_frame.
  - by exists xs.
  - intros j Hj. apply elem_of_cons in Hj as [->|Hj].
    + rewrite Hbn, Hdt. destruct (decide (n ∈ pinned s)) as [Hn'|Hn'].
      * left. eapply (pinned_dirty q (i :: H) xs s'); [done|set_solver|]. by rewrite Hbn, Hpin.
      * right. by eapply unpinned_disk.
    + rewrite Hoth by (intros ->; done). by apply Hcl.
Qed.

(** *** Releasing *)

Lemma filter_notin (i : nat) (l : list nat) : i ∉ l → filter (λ j, j ≠ i) l = l.
Proof.
  induction l as [|j l IH]; [done|]. rewrite not_elem_of_cons. intros [Hne Hl].
  rewrite filter_cons_True by congruence. by rewrite IH.
Qed.

Record closed (q : Z) (H : list nat) (k : Z) (s s' : kernel) : Prop := {
  cl_txn : txn q H k s';
  cl_vw : ∀ j, vw (nd (nodes s') j) = vw (nd (nodes s) j);
  cl_block : ∀ m, block s' m = block s m;
  cl_log : klog s' = klog s;
  cl_step : fstep s s' }.

Lemma brelse_txn q H k s i :
  txn q (i :: H) k s → i ∉ H → ∃ s', brelse i s = Ok tt s' ∧ closed q H k s s'.
Proof.
  intros [Ha [xs Hbc] Hcl Ho Hp Hn Hr Hlen Hd] Hi.
  destruct (brelse_ok q (i :: H) xs s i Ha Hbc (list_elem_of_here _ _) (Hcl i (list_elem_of_here _ _)))
    as (s' & Hb & [(ys & zs & _ & Hbc') Hvw Hbl Hpin Hdk Hf]).
  exists s'. split; [done|]. pose proof (bframe_log _ _ Hf) as Hl.
  assert (HH : filter (λ j, j ≠ i) (i :: H) = H).
  { rewrite filter_cons_False by (intros H'; by apply H'). by apply filter_notin. }
  split; [|done..|by apply fstep_bframe]. split; rewrite ?Hl, ?Hdk, ?Hpin; try done.
  - by eapply alone_frame.
  - exists (i :: ys ++ zs). by rewrite HH in Hbc'.
  - intros j Hj. specialize (Hcl j (list_elem_of_further _ _ _ Hj)).
    pose proof (Hvw j) as Hv. unfold vw in Hv. unfold dirty in *. injection Hv as -> _ -> ->. done.
Qed.

(** *** Changing a block *)

(** New contents [d] for the block of the held buffer [i]. *)
Record changed (q : Z) (H : list nat) (k : Z) (i : nat) (d : list Z) (s s' : kernel) : Prop := {
  ch_txn : txn q H k s';
  ch_blockno : blockno (nd (nodes s') i) = blockno (nd (nodes s) i);
  ch_data : data (nd (nodes s') i) = d;
  ch_others : ∀ j, j ≠ i → nd (nodes s') j = nd (nodes s) j;
  ch_block : ∀ m, block s' m = if decide (m = blockno (nd (nodes s) i)) then d else block s m;
  ch_step : fstep s s' }.

Definition set_dirty (f : list Z → list Z) (b : buf) : buf :=
  b <| data ::= f |> <| flags := Z.lor (flags b) B_DIRTY |>.

Lemma held_dirty b q D f :
  held_ok q D b → held_ok q D (set_dirty f b) ∧ dirty (set_dirty f b) = true.
Proof.
  intros (? & ? & ? & ? & ? & Hfl). unfold held_ok, dirty, set_dirty. simpl.
  destruct Hfl as [-> | ->]; (split; [split_and!; try done; [lia|lia|by right]|done]).
Qed.

Lemma log_write_txn q H k s i f :
  txn q H k s → 1 ≤ k → i ∈ H → length (f (data (nd (nodes s) i))) = Z.to_nat BSIZE →
  ∃ s', (setdata i f ;; log_write i) s = Ok tt s' ∧
    changed q H (k - 1) i (f (data (nd (nodes s) i))) s s'.
Proof.
  intros [Ha [xs Hbc] Hcl Ho Hp Hn Hr Hlen Hd] Hk Hi Hlenf.
  pose proof (bi_bound _ _ _ _ _ Hbc i Hi) as Hib. pose proof (bc_held Hbc i Hi) as Hok.
  set (n := blockno (nd (nodes s) i)) in *. set (lg := log_entered n (klog s)).
  set (s' := upd_nodes (alter (set_dirty f) i) (s <| klog := lg |>)).
  assert (Hrun : (setdata i f ;; log_write i) s = Ok tt s').
  { unfold setdata, updb. rewrite (bind_ok (modify_state _) _ _ _ _ eq_refl).
    match goal with |- log_write i ?x = _ => set (s1 := x) end.
    assert (Hbn : blockno (nd (nodes s1) i) = n).
    { unfold s1. rewrite nodes_upd, nd_alter by (rewrite (bc_length Hbc); lia). by rewrite decide_True. }
    rewrite log_write_eq by apply Ha. change (klog s1) with (klog s). rewrite Hbn.
    specialize (Ho ltac:(lia)). rewrite (proj2 (Z.leb_gt _ _)), (proj2 (Z.leb_gt _ _)), (proj2 (Z.ltb_ge _ _))
      by (unfold LOGSIZE, MAXOPBLOCKS; lia).
    cbn [orb]. f_equal. unfold s', s1, lg, upd_nodes, modify. simpl. rewrite list_alter_alter_eq. done. }
  assert (Hnodes : nodes s' = alter (set_dirty f) i (nodes s)) by done.
  assert (Hnd : ∀ j, nd (nodes s') j = if decide (i = j) then set_dirty f (nd (nodes s) j) else nd (nodes s) j).
  { intros j. rewrite Hnodes. apply nd_alter. rewrite (bc_length Hbc). lia. }
  destruct (held_dirty _ _ _ f Hok) as [Hok' Hdirty].
  assert (Hbc' : bc q H xs s').
  { unfold bc. rewrite Hnodes. apply bcinv_held; try done. }
  assert (Hnu : is_u32 n) by (destruct Hok as (_ & ? & _); unfold is_u32; lia).
  destruct (logged_entered (klog s) n Hnu) as (Hlg & Hln & Hll); [rewrite Hlen; unfold LOGSIZE, MAXOPBLOCKS; lia|].
  assert (Hpin : pinned s' ⊆ {[n]} ∪ pinned s).
  { unfold pinned. rewrite Hnodes, (dirty_held q _ _ H xs i) by done. destruct (dirty _); set_solver. }
  exists s'. split; [exact Hrun|]. split.
  - fold lg in Hlg, Hln, Hll. split; change (klog s') with lg.
    + exact Ha.
    + by exists xs.
    + intros j Hj. rewrite Hnd. destruct (decide (i = j)) as [->|]; [by left|by apply Hcl].
    + intros _; apply Ho; lia.
    + rewrite Hlg. set_solver.
    + lia.
    + change (lg_size lg) with (lg_size (klog s)). lia.
    + by rewrite Hll.
    + exact Hd.
  - by rewrite Hnd, decide_True.
  - by rewrite Hnd, decide_True.
  - intros j Hj. rewrite Hnd, decide_False by congruence. done.
  - intros m. unfold block. rewrite Hnodes. 
    exact (blk_held q (nodes s) (memdisk (kdisk s)) H xs i (set_dirty f) m Hbc Hi Hbc' eq_refl).
  - split; [reflexivity|]. unfold s', lg, log_entered. by destruct s as [? ? [] ? ? ? ? ? ? []].
Qed.
End Txn.
