(* ===== verification/Smallfs.v ===== *)
(** * A small file system

    A disk of 50 blocks with one file, for the examples of the files that
    follow: the log in blocks 2 to 31, the inodes in block 32, the bitmap in
    block 33, and the first block of inode 1 in block 34. *)

From S2P Require Import Prelude Bytes Kernel Cstring Sched Proc Waiting Sleeplock Bio Log Crash Reserve Fs Txn.

Definition small_sb : superblock := mksb 50 16 8 30 2 32 33.

(** A file of three bytes. *)
Definition small_inode : inode :=
  inode0 <| i_dev := 1 |> <| i_inum := 1 |> <| i_ref := 1 |> <| i_valid := 1 |> <| i_type := 2 |>
         <| i_nlink := 1 |> <| i_size := 3 |> <| i_addrs := 34 :: replicate 12 0 |>.

Definition small_bitmap : list Z := [255; 255; 255; 255; 7] ++ replicate 507 0.
Definition small_inodes : list Z := store_dinode 64 small_inode zeros.
Definition small_data : list Z := [97; 98; 99] ++ replicate 509 0.
Definition small_disk : list (list Z) :=
  replicate 32 zeros ++ [small_inodes; small_bitmap; small_data] ++ replicate 15 zeros.

(** The log inside an operation. *)
Definition small_log : logst := mklog 2 30 1 0 1 0 (replicate 30 0).

Definition small_of (s : kernel) : kernel :=
  s <| sb := small_sb |> <| icache := small_inode :: replicate 49 inode0 |>.
Definition small_kernel : kernel := small_of (fs_kernel small_disk small_log).

Lemma small_disk_blocks : Forall (λ b, length b = Z.to_nat BSIZE) small_disk.
Proof.
  apply Forall_app. split; [apply Forall_replicate, length_replicate|].
  apply Forall_app. split; [|apply Forall_replicate, length_replicate].
  repeat (apply Forall_cons; split; [by vm_compute|]). by apply Forall_nil.
Qed.

Lemma small_of_txn s k :
  bc 7 [] (reverse (seq 0 NBUF)) s → alone 7 s → memdisk (kdisk s) = small_disk → pinned s = ∅ →
  klog s = small_log → 0 ≤ k ≤ 28 → txn 7 [] k (small_of s).
Proof.
  intros Hbc Ha Hd Hp Hl Hk. split; change (klog (small_of s)) with (klog s); rewrite ?Hl; try done.
  - eexists. exact Hbc.
  - intros i Hi. by apply not_elem_of_nil in Hi.
  - change (pinned (small_of s)) with (pinned s). rewrite Hp. set_solver.
  - simpl. lia.
  - change (kdisk (small_of s)) with (kdisk s). rewrite Hd. by vm_compute.
Qed.

Lemma small_of_block s n :
  bc 7 [] (reverse (seq 0 NBUF)) s → memdisk (kdisk s) = small_disk →
  (∀ i, (i < NBUF)%nat → dev (nd (nodes s) i) = 0) → block (small_of s) n = default [] (small_disk !! Z.to_nat n).
Proof.
  intros Hbc Hd Hdev. change (block (small_of s) n) with (block s n). unfold block.
  rewrite (blk_none n); [by rewrite Hd|].
  apply (cached_none Hbc). intros i Hi Hd1. rewrite Hdev in Hd1 by done. done.
Qed.

Lemma small_txn k : 0 ≤ k ≤ 28 → txn 7 [] k small_kernel.
Proof.
  destruct (fs_kernel_ok small_disk small_log small_disk_blocks) as (Hbc & Ha & Hd & Hp & Hl & _).
  by apply small_of_txn.
Qed.

Lemma small_block n : block small_kernel n = default [] (small_disk !! Z.to_nat n).
Proof.
  destruct (fs_kernel_ok small_disk small_log small_disk_blocks) as (Hbc & _ & Hd & _ & _ & Hdev).
  by apply small_of_block.
Qed.

Lemma small_length : length (memdisk (kdisk small_kernel)) = 50%nat.
Proof.
  destruct (fs_kernel_ok small_disk small_log small_disk_blocks) as (_ & _ & Hd & _).
  unfold small_kernel. destruct (fs_kernel small_disk small_log). simpl in Hd |- *. rewrite Hd. by vm_compute.
Qed.

Lemma small_sb_eq : sb small_kernel = small_sb.
Proof. unfold small_kernel, small_of. by destruct (fs_kernel small_disk small_log). Qed.

Lemma small_icache : icache small_kernel = small_inode :: replicate 49 inode0.
Proof. unfold small_kernel, small_of. by destruct (fs_kernel small_disk small_log). Qed.
