(* ===== verification/Blocks.v ===== *)
(** * The block allocator: bzero, balloc and bfree

    What they do to the contents of the blocks and to the bitmap, inside a
    transaction. *)

From S2P Require Import Prelude Bytes Kernel Cstring Sched Proc Waiting Sleeplock Bio Log Reserve.
From S2P Require Import Fs Txn Smallfs.

(** ** Bits *)

Lemma land_bit x j : 0 ≤ j → (Z.land x (Z.shiftl 1 j) =? 0) = negb (Z.testbit x j).
Proof.
  intros Hj. rewrite Z.shiftl_1_l. destruct (Z.testbit x j) eqn:E; simpl.
  - apply Z.eqb_neq. intros H. apply (f_equal (λ y, Z.testbit y j)) in H.
    rewrite Z.land_spec, Z.pow2_bits_true, E, Z.bits_0 in H by lia. done.
  - apply Z.eqb_eq, Z.bits_inj'. intros i Hi. rewrite Z.land_spec, Z.bits_0.
    destruct (decide (i = j)) as [->|Hne]; [by rewrite E|]. by rewrite Z.pow2_bits_false, andb_false_r by lia.
Qed.

Lemma nth_alter (f : Z → Z) i j (l : list Z) :
  (i < length l)%nat → nth j (alter f i l) 0 = if decide (j = i) then f (nth j l 0) else nth j l 0.
Proof.
  intros Hi. rewrite !nth_lookup. case_decide as H.
  - subst. rewrite list_lookup_alter_eq. destruct (lookup_lt_is_Some_2 l i Hi) as [x ->]. done.
  - by rewrite list_lookup_alter_ne by done.
Qed.

Lemma byte_bound (d : list Z) b :
  length d = Z.to_nat BSIZE → 0 ≤ b < BPB → (Z.to_nat (b / 8) < length d)%nat.
Proof. intros Hd Hb. rewrite Hd. unfold BPB, BSIZE in *. Z.div_mod_to_equations. lia. Qed.

Lemma same_bit bi bj :
  0 ≤ bi < BPB → 0 ≤ bj < BPB →
  (bj =? bi) = bool_decide (Z.to_nat (bj / 8) = Z.to_nat (bi / 8) ∧ bj mod 8 = bi mod 8).
Proof.
  intros Hbi Hbj. case_bool_decide as H.
  - apply Z.eqb_eq. unfold BPB, BSIZE in *. destruct H as [H1 H2]. Z.div_mod_to_equations. lia.
  - apply Z.eqb_neq. intros ->. by apply H.
Qed.

Lemma bit_clear_test bj x : bit_clear bj x = negb (Z.testbit (nth (Z.to_nat (bj / 8)) x 0) (bj mod 8)).
Proof. unfold bit_clear, bit_mask. apply land_bit. pose proof (Z.mod_pos_bound bj 8). lia. Qed.

Lemma set_bit_clear d bi bj :
  length d = Z.to_nat BSIZE → 0 ≤ bi < BPB → 0 ≤ bj < BPB →
  bit_clear bj (set_bit bi d) = bit_clear bj d && negb (bj =? bi).
Proof.
  intros Hd Hbi Hbj. rewrite !bit_clear_test, (same_bit bi bj) by done. unfold set_bit, bit_mask.
  rewrite nth_alter by (by apply byte_bound). pose proof (Z.mod_pos_bound bi 8). pose proof (Z.mod_pos_bound bj 8).
  destruct (decide (Z.to_nat (bj / 8) = Z.to_nat (bi / 8))) as [E|E].
  - rewrite Z.lor_spec, Z.shiftl_1_l. case_bool_decide as H'.
    + destruct H' as [_ H']. rewrite H', Z.pow2_bits_true by lia. by rewrite orb_true_r, andb_false_r.
    + rewrite Z.pow2_bits_false, orb_false_r, andb_true_r by (intros Heq; by apply H'). done.
  - rewrite bool_decide_false by tauto. by rewrite andb_true_r.
Qed.

Lemma clear_bit_clear d bi bj :
  length d = Z.to_nat BSIZE → 0 ≤ bi < BPB → 0 ≤ bj < BPB →
  bit_clear bj (clear_bit bi d) = bit_clear bj d || (bj =? bi).
Proof.
  intros Hd Hbi Hbj. rewrite !bit_clear_test, (same_bit bi bj) by done. unfold clear_bit, bit_mask.
  rewrite nth_alter by (by apply byte_bound). pose proof (Z.mod_pos_bound bi 8). pose proof (Z.mod_pos_bound bj 8).
  destruct (decide (Z.to_nat (bj / 8) = Z.to_nat (bi / 8))) as [E|E].
  - rewrite Z.land_spec. unfold u8. rewrite Z.mod_pow2_bits_low, Z.lnot_spec, Z.shiftl_1_l by lia.
    case_bool_decide as H'.
    + destruct H' as [_ H']. rewrite H', Z.pow2_bits_true by lia. by rewrite andb_false_r, orb_true_r.
    + rewrite Z.pow2_bits_false, andb_true_r, orb_false_r by (intros Heq; by apply H'). done.
  - rewrite bool_decide_false by tauto. by rewrite orb_false_r.
Qed.

Lemma length_set_bit bi d : length (set_bit bi d) = length d.
Proof. apply length_alter. Qed.
Lemma length_clear_bit bi d : length (clear_bit bi d) = length d.
Proof. apply length_alter. Qed.

(** ** The layout of the disk *)

(** The blocks below [meta] are the boot block, the super block, the log, the
    inodes and the bitmap, in this order; [D] is the number of blocks. *)
Record layout (meta : Z) (b : superblock) (D : nat) : Prop := {
  ly_inode : 0 ≤ sb_inodestart b;
  ly_inodes : ∀ i, 0 ≤ i < sb_ninodes b → sb_inodestart b + i / IPB < sb_bmapstart b;
  ly_bmap : 0 ≤ sb_bmapstart b;
  ly_bmaps : ∀ n, 0 ≤ n < sb_size b → sb_bmapstart b + n / BPB < meta;
  ly_size : meta ≤ sb_size b ≤ Z.of_nat D;
  ly_disk : Z.of_nat D ≤ 2 ^ 32 }.

(** The bitmap says that block [n] is in use. *)
Definition used (s : kernel) (n : Z) : bool :=
  negb (bit_clear (n mod BPB) (block s (BBLOCK n (sb s)))).

Lemma BBLOCK_eq meta b D n :
  layout meta b D → 0 ≤ n < sb_size b → BBLOCK n b = sb_bmapstart b + n / BPB ∧ 0 ≤ BBLOCK n b < meta.
Proof.
  intros Hly Hn. destruct Hly as [_ _ Hb Hbs Hs Hd]. specialize (Hbs n Hn).
  assert (0 ≤ n / BPB) by (apply Z.div_pos; [lia|done]).
  unfold BBLOCK. rewrite u32_small by (unfold is_u32; lia). lia.
Qed.

Lemma IBLOCK_eq meta b D i :
  layout meta b D → 0 ≤ i < sb_ninodes b → sb_bmapstart b < meta →
  IBLOCK i b = sb_inodestart b + i / IPB ∧ 0 ≤ IBLOCK i b < sb_bmapstart b.
Proof.
  intros Hly Hi Hm. destruct Hly as [H0 His _ _ Hs Hd]. specialize (His i Hi).
  assert (0 ≤ i / IPB) by (apply Z.div_pos; [lia|done]).
  unfold IBLOCK. rewrite u32_small by (unfold is_u32; lia). lia.
Qed.

(** ** Contents of blocks *)

Definition upd (n : Z) (d : list Z) (B : Z → list Z) : Z → list Z :=
  λ m, if decide (m = n) then d else B m.

(** From [s] to [s'] the contents of the blocks have become [B]; the buffers [H]
    are still held. *)
Record touched (q : Z) (H : list nat) (k : Z) (B : Z → list Z) (s s' : kernel) : Prop := {
  to_txn : txn q H k s';
  to_block : ∀ m, block s' m = B m;
  to_vw : ∀ j, j ∈ H → vw (nd (nodes s') j) = vw (nd (nodes s) j);
  to_step : fstep s s' }.

Lemma touched_refl q H k s : txn q H k s → touched q H k (block s) s s.
Proof. intros Ht. by split. Qed.

Lemma touched_trans q H k1 k2 B1 B2 s s1 s2 :
  touched q H k1 B1 s s1 → touched q H k2 B2 s1 s2 → touched q H k2 B2 s s2.
Proof.
  intros [] []. split; [done|done| |by etransitivity].
  intros j Hj. by rewrite to_vw1, to_vw0.
Qed.

Lemma touched_ext q H k B B' s s' : (∀ m, B m = B' m) → touched q H k B s s' → touched q H k B' s s'.
Proof. intros HB []. split; try done. intros m. by rewrite to_block0. Qed.

Lemma fstep_sb s s' : fstep s s' → sb s' = sb s.
Proof. by intros [_ ->]. Qed.
Lemma fstep_disk s s' : fstep s s' → kdisk s' = kdisk s.
Proof. by intros [_ ->]. Qed.
Lemma fstep_icache s s' : fstep s s' → icache s' = icache s.
Proof. by intros [_ ->]. Qed.

#[local] Opaque acquire release.

Section Blocks.
Context {dk : Disk}.

Lemma finish_read q n H k s i s1 :
  opened q n H k s i s1 → ∃ s', brelse i s1 = Ok tt s' ∧ touched q H k (block s) s s'.
Proof.
  intros [Ht Hn Hb Hd Ho Hbl Hl Hf].
  destruct (brelse_txn q H k s1 i Ht Hn) as (s' & Hr & [Ht' Hvw Hbl' Hl' Hf']).
  exists s'. split; [done|]. split; [done| | |by etransitivity].
  - intros m. by rewrite Hbl', Hbl.
  - intros j Hj. rewrite Hvw, Ho; [done|]. by intros ->.
Qed.

Lemma finish_update q n H k s i s1 f :
  opened q n H k s i s1 → 1 ≤ k → length (f (block s n)) = Z.to_nat BSIZE →
  ∃ s', (setdata i f ;; log_write i ;; brelse i) s1 = Ok tt s' ∧
    touched q H (k - 1) (upd n (f (block s n)) (block s)) s s'.
Proof.
  intros [Ht Hn Hb Hd Ho Hbl Hl Hf] Hk Hlen.
  destruct (log_write_txn q (i :: H) k s1 i f Ht Hk (list_elem_of_here _ _)) as (s2 & H2 & [Ht2 Hb2 Hd2 Ho2 Hbl2 Hf2]).
  { by rewrite Hd. }
  rewrite <-bind_assoc, (bind_ok _ _ _ _ _ H2).
  destruct (brelse_txn q H (k - 1) s2 i Ht2 Hn) as (s' & Hr & [Ht' Hvw Hbl' Hl' Hf']).
  exists s'. split; [done|]. split; [done| | |do 2 (etransitivity; [done|]); done].
  - intros m. rewrite Hbl', Hbl2, Hb, Hd. unfold upd. by case_decide.
  - intros j Hj. assert (j ≠ i) by (by intros ->). by rewrite Hvw, Ho2, Ho.
Qed.

(** Where the buffers the caller holds may be: in data blocks. *)
Definition held_data (meta : Z) (s : kernel) (H : list nat) : Prop :=
  ∀ i, i ∈ H → meta ≤ blockno (nd (nodes s) i) < sb_size (sb s) ∧ used s (blockno (nd (nodes s) i)) = true.

Lemma vw_blockno b b' : vw b' = vw b → blockno b' = blockno b.
Proof. intros Hv. by injection Hv. Qed.

Lemma held_data_touched meta q H k B s s' :
  held_data meta s H → touched q H k B s s' →
  (∀ n, used s n = true → used s' n = true) → held_data meta s' H.
Proof.
  intros HH Ht Hu i Hi. destruct (HH i Hi) as [Hb Hus]. pose proof (to_vw _ _ _ _ _ _ Ht i Hi) as Hv.
  rewrite (fstep_sb _ _ (to_step _ _ _ _ _ _ Ht)), (vw_blockno _ _ Hv). split; [done|by apply Hu].
Qed.

Lemma bzero_ok q H k s n :
  txn q H k s → 1 ≤ k → in_disk s n → (length H ≤ 1)%nat → (∀ i, i ∈ H → blockno (nd (nodes s) i) ≠ n) →
  ∃ s', bzero 1 n s = Ok tt s' ∧ touched q H (k - 1) (upd n zeros (block s)) s s'.
Proof.
  intros Ht Hk Hn HH Hne. unfold bzero.
  assert (Hu : u32 n = n).
  { apply u32_small. pose proof (tx_disk _ _ _ _ Ht). unfold in_disk, is_u32 in *. lia. }
  rewrite Hu. destruct (bread_txn q H k s n Ht) as (i & s1 & Hr & Ho); [lia|done..|].
  rewrite (bind_ok _ _ _ _ _ Hr).
  by apply (finish_update q n H k s i s1 (λ _, zeros) Ho).
Qed.

(** *** balloc *)

(** Block [n] has been marked in the bitmap and zeroed. *)
Definition alloc_blocks (s : kernel) (n : Z) : Z → list Z :=
  upd n zeros (upd (BBLOCK n (sb s)) (set_bit (n mod BPB) (block s (BBLOCK n (sb s)))) (block s)).

(** The chunk of the bitmap that starts at bit [b]. *)
Lemma chunk_block b n bm :
  b mod BPB = 0 → b ≤ n < b + BPB → n mod BPB = n - b ∧ BBLOCK n bm = BBLOCK b bm.
Proof.
  intros Hb Hn. assert (Hdiv : n / BPB = b / BPB).
  { unfold BPB, BSIZE in *. Z.div_mod_to_equations. lia. }
  split; [|unfold BBLOCK; by rewrite Hdiv].
  unfold BPB, BSIZE in *. Z.div_mod_to_equations. lia.
Qed.

Lemma find_upto_Some P m x :
  List.find P (Z.of_nat <$> seq 0 m) = Some x → 0 ≤ x < Z.of_nat m ∧ P x = true.
Proof.
  intros H. apply find_some in H as [Hx HP]. split; [|done].
  apply list_elem_of_In, list_elem_of_fmap in Hx as (i & -> & Hi%elem_of_seq). lia.
Qed.

Lemma find_upto_None P m x :
  List.find P (Z.of_nat <$> seq 0 m) = None → 0 ≤ x < Z.of_nat m → P x = false.
Proof.
  intros H Hx. eapply find_none in H; [done|]. apply list_elem_of_In, list_elem_of_fmap.
  exists (Z.to_nat x). rewrite elem_of_seq. split; lia.
Qed.

Definition starts_from (size : Z) (j : nat) : list Z :=
  (λ k, BPB * Z.of_nat k) <$> seq j (Z.to_nat ((size + BPB - 1) / BPB) - j).

Lemma starts_step size j :
  BPB * Z.of_nat j < size → starts_from size j = BPB * Z.of_nat j :: starts_from size (S j).
Proof.
  intros Hj. unfold starts_from.
  destruct (Z.to_nat ((size + BPB - 1) / BPB) - j)%nat as [|m] eqn:E.
  - assert (size ≤ BPB * ((size + BPB - 1) / BPB)) by (unfold BPB, BSIZE in *; Z.div_mod_to_equations; lia).
    unfold BPB, BSIZE in *. lia.
  - simpl. do 3 f_equal. lia.
Qed.

Lemma starts_end size j : 0 ≤ size ≤ BPB * Z.of_nat j → starts_from size j = [].
Proof.
  intros Hj. unfold starts_from. replace (_ - j)%nat with 0%nat; [done|].
  assert ((size + BPB - 1) / BPB ≤ Z.of_nat j); [|lia].
  apply Z.lt_succ_r, Z.div_lt_upper_bound; [done|]. unfold BPB, BSIZE in *. lia.
Qed.

(** One turn of the loop: the chunk has a free block, or none. *)
Lemma balloc_turn meta q H k s j :
  txn q H k s → layout meta (sb s) (length (memdisk (kdisk s))) → 2 ≤ k → (length H ≤ 1)%nat →
  held_data meta s H → BPB * Z.of_nat j < sb_size (sb s) →
  (∃ n s', balloc_from 1 (starts_from (sb_size (sb s)) j) s = Ok n s' ∧
     BPB * Z.of_nat j ≤ n < sb_size (sb s) ∧ used s n = false ∧
     touched q H (k - 2) (alloc_blocks s n) s s') ∨
  (∃ s', balloc_from 1 (starts_from (sb_size (sb s)) j) s =
         balloc_from 1 (starts_from (sb_size (sb s)) (S j)) s' ∧
     touched q H k (block s) s s' ∧
     ∀ n, BPB * Z.of_nat j ≤ n < sb_size (sb s) → n < BPB * Z.of_nat (S j) → used s n = true).
Proof.
  intros Ht Hly Hk HH Hhd Hj. set (b := BPB * Z.of_nat j) in *.
  assert (Hb0 : 0 ≤ b < sb_size (sb s)) by (unfold b, BPB, BSIZE in *; lia).
  assert (Hbm : b mod BPB = 0) by (unfold b; rewrite Z.mul_comm; by apply Z.mod_mul).
  destruct (BBLOCK_eq _ _ _ b Hly Hb0) as [_ HBb].
  pose proof (ly_size _ _ _ Hly) as Hsize.
  assert (Hin : in_disk s (BBLOCK b (sb s))) by (unfold in_disk; lia).
  assert (Hne : ∀ i, i ∈ H → blockno (nd (nodes s) i) ≠ BBLOCK b (sb s)).
  { intros i Hi. destruct (Hhd i Hi). lia. }
  rewrite starts_step by done. fold b. cbn [balloc_from].
  rewrite (bind_ok (gets sb) _ _ _ _ eq_refl).
  destruct (bread_txn q H k s _ Ht ltac:(lia) Hin HH Hne) as (i & s1 & Hr & Ho).
  rewrite (bind_ok _ _ _ _ _ Hr). unfold getb. rewrite (bind_ok (gets _) _ _ _ _ eq_refl).
  rewrite (op_data _ _ _ _ _ _ _ Ho). set (m := Z.to_nat (Z.min BPB (sb_size (sb s) - b))).
  assert (Hm : Z.of_nat m = Z.min BPB (sb_size (sb s) - b)) by (unfold m, BPB, BSIZE in *; lia).
  destruct (List.find _ _) as [bi|] eqn:E.
  - apply find_upto_Some in E as [Hbi Hcl]. left.
    assert (Hn : 0 ≤ b + bi < sb_size (sb s)) by lia.
    destruct (chunk_block b (b + bi) (sb s) Hbm ltac:(lia)) as [Hmod HBn].
    replace (b + bi - b) with bi in Hmod by lia.
    assert (Hlen : length (block s (BBLOCK b (sb s))) = Z.to_nat BSIZE).
    { destruct (tx_bc _ _ _ _ Ht) as [xs Hbc]. by apply (bc_blk_length Hbc). }
    destruct (finish_update q _ H k s i s1 (set_bit bi) Ho ltac:(lia)) as (s2 & H2 & Ht2);
      [by rewrite length_set_bit|].
    assert (Hfree : used s (b + bi) = false) by (unfold used; by rewrite Hmod, HBn, Hcl).
    destruct (bzero_ok q H (k - 1) s2 (b + bi)) as (s3 & H3 & Ht3).
    { apply Ht2. } { lia. } { unfold in_disk. rewrite (fstep_disk _ _ (to_step _ _ _ _ _ _ Ht2)). lia. } { done. }
    { intros x Hx. rewrite (vw_blockno _ _ (to_vw _ _ _ _ _ _ Ht2 x Hx)). destruct (Hhd x Hx). congruence. }
    exists (b + bi), s3. split_and!; [|lia|lia|done|].
    + assert (Hre : ∀ (m0 : KM Z), (setdata i (set_bit bi) ;; log_write i ;; brelse i ;; m0) s1 = m0 s2).
      { intros m0. pose proof (bind_ok _ (λ _, m0) _ _ _ H2) as Hx. rewrite <-Hx.
        rewrite !bind_assoc. apply bind_ext. intros [] s4 _. by rewrite !bind_assoc. }
      rewrite Hre. by rewrite (bind_ok _ _ _ _ _ H3).
    + replace (k - 2) with (k - 1 - 1) by lia. eapply touched_trans; [done|].
      eapply touched_ext; [|done]. intros m0. unfold alloc_blocks, upd. case_decide; [done|].
      rewrite (to_block _ _ _ _ _ _ Ht2), HBn, Hmod. done.
  - right. destruct (finish_read _ _ _ _ _ _ _ Ho) as (s2 & H2 & Ht2).
    rewrite (bind_ok _ _ _ _ _ H2). exists s2. split_and!; [done|done|].
    intros n Hn Hn'. assert (HnB : b ≤ n < b + BPB) by (unfold b, BPB, BSIZE in *; lia).
    destruct (chunk_block b n (sb s) Hbm HnB) as [Hmod HBn].
    unfold used. rewrite Hmod, HBn. rewrite (find_upto_None _ _ _ E); [done|lia].
Qed.

(** States with the same super block and the same contents have the same bitmap. *)
Lemma used_same s s' n : sb s' = sb s → (∀ m, block s' m = block s m) → used s' n = used s n.
Proof. intros Hsb Hbl. unfold used. by rewrite Hsb, Hbl. Qed.

Lemma alloc_blocks_same s s' n m :
  sb s' = sb s → (∀ m, block s' m = block s m) → alloc_blocks s' n m = alloc_blocks s n m.
Proof. intros Hsb Hbl. unfold alloc_blocks, upd. rewrite Hsb.
  case_decide; [done|]. case_decide; by rewrite Hbl.
Qed.

Lemma balloc_from_ok meta q H k d : ∀ s j,
  txn q H k s → layout meta (sb s) (length (memdisk (kdisk s))) → 2 ≤ k → (length H ≤ 1)%nat →
  held_data meta s H → sb_size (sb s) ≤ BPB * (Z.of_nat j + Z.of_nat d) →
  (∃ n, BPB * Z.of_nat j ≤ n < sb_size (sb s) ∧ used s n = false) →
  ∃ n s', balloc_from 1 (starts_from (sb_size (sb s)) j) s = Ok n s' ∧
     BPB * Z.of_nat j ≤ n < sb_size (sb s) ∧ used s n = false ∧
     touched q H (k - 2) (alloc_blocks s n) s s'.
Proof.
  induction d as [|d IH]; intros s j Ht Hly Hk HH Hhd Hd (n & Hn & Hfree).
  { unfold BPB, BSIZE in *. lia. }
  destruct (balloc_turn meta q H k s j Ht Hly Hk HH Hhd ltac:(lia)) as [Hdone|(s1 & He & Ht1 & Hall)]; [done|].
  pose proof (fstep_sb _ _ (to_step _ _ _ _ _ _ Ht1)) as Hsb.
  pose proof (to_block _ _ _ _ _ _ Ht1) as Hbl.
  assert (Hn' : BPB * Z.of_nat (S j) ≤ n).
  { destruct (decide (n < BPB * Z.of_nat (S j))) as [Hlt|]; [|lia]. rewrite (Hall n Hn Hlt) in Hfree. done. }
  destruct (IH s1 (S j)) as (n1 & s2 & H2 & Hn1 & Hf1 & Ht2).
  - apply Ht1.
  - by rewrite Hsb, (fstep_disk _ _ (to_step _ _ _ _ _ _ Ht1)).
  - done.
  - done.
  - eapply held_data_touched; [done..|]. intros x Hx. by rewrite (used_same s).
  - rewrite Hsb. unfold BPB, BSIZE in *. lia.
  - exists n. rewrite Hsb, (used_same s) by done. split; [lia|done].
  - rewrite Hsb in H2, Hn1. rewrite (used_same s) in Hf1 by done. exists n1, s2. rewrite He.
    split_and!; [done|unfold BPB, BSIZE in *; lia|lia|done|].
    eapply touched_trans; [done|]. eapply touched_ext; [|done]. intros m. by apply alloc_blocks_same.
Qed.

Lemma bitmap_starts_eq size : bitmap_starts size = starts_from size 0.
Proof. unfold bitmap_starts, starts_from. by rewrite Nat.sub_0_r. Qed.

Lemma balloc_ok meta q H k s :
  txn q H k s → layout meta (sb s) (length (memdisk (kdisk s))) → 2 ≤ k → (length H ≤ 1)%nat →
  held_data meta s H → (∃ n, 0 ≤ n < sb_size (sb s) ∧ used s n = false) →
  ∃ n s', balloc 1 s = Ok n s' ∧ 0 ≤ n < sb_size (sb s) ∧ used s n = false ∧
    touched q H (k - 2) (alloc_blocks s n) s s'.
Proof.
  intros Ht Hly Hk HH Hhd (n & Hn & Hf). unfold balloc.
  rewrite (bind_ok (gets sb) _ _ _ _ eq_refl), bitmap_starts_eq.
  destruct (balloc_from_ok meta q H k (Z.to_nat (sb_size (sb s))) s 0 Ht Hly Hk HH Hhd)
    as (n1 & s' & H1 & Hn1 & ? & ?); [unfold BPB, BSIZE; lia|exists n; split; [lia|done]|].
  exists n1, s'. split_and!; [done|lia|lia|done|done].
Qed.

(** A full disk. *)
Lemma balloc_from_full meta q H k d : ∀ s j,
  txn q H k s → layout meta (sb s) (length (memdisk (kdisk s))) → 2 ≤ k → (length H ≤ 1)%nat →
  held_data meta s H → sb_size (sb s) ≤ BPB * (Z.of_nat j + Z.of_nat d) →
  (∀ n, 0 ≤ n < sb_size (sb s) → used s n = true) →
  balloc_from 1 (starts_from (sb_size (sb s)) j) s = Panic "balloc: out of blocks".
Proof.
  induction d as [|d IH]; intros s j Ht Hly Hk HH Hhd Hd Hall.
  { pose proof (ly_size _ _ _ Hly). pose proof (ly_bmap _ _ _ Hly).
    destruct (decide (sb_size (sb s) < 0)); [|by rewrite starts_end by lia].
    unfold starts_from. replace (_ - j)%nat with 0%nat; [done|].
    assert ((sb_size (sb s) + BPB - 1) / BPB ≤ 0); [|lia].
    apply Z.lt_succ_r, Z.div_lt_upper_bound; [done|]. unfold BPB, BSIZE in *. lia. }
  destruct (decide (sb_size (sb s) ≤ BPB * Z.of_nat j)) as [Hend|Hlt].
  { apply (IH s j); try done. unfold BPB, BSIZE in *. lia. }
  destruct (balloc_turn meta q H k s j Ht Hly Hk HH Hhd ltac:(lia)) as [(n & s' & _ & Hn & Hf & _)|(s1 & He & Ht1 & _)].
  { rewrite (Hall n) in Hf; [done|]. unfold BPB, BSIZE in *. lia. }
  pose proof (fstep_sb _ _ (to_step _ _ _ _ _ _ Ht1)) as Hsb.
  pose proof (to_block _ _ _ _ _ _ Ht1) as Hbl. rewrite He, <-Hsb. apply IH.
  - apply Ht1.
  - by rewrite Hsb, (fstep_disk _ _ (to_step _ _ _ _ _ _ Ht1)).
  - done.
  - done.
  - eapply held_data_touched; [done..|]. intros x Hx. by rewrite (used_same s).
  - rewrite Hsb. unfold BPB, BSIZE in *. lia.
  - intros n Hn. rewrite Hsb in Hn. rewrite (used_same s) by done. by apply Hall.
Qed.

(** *** bfree *)

Definition free_blocks (s : kernel) (n : Z) : Z → list Z :=
  upd (BBLOCK n (sb s)) (clear_bit (n mod BPB) (block s (BBLOCK n (sb s)))) (block s).

Lemma bfree_ok meta q H k s n :
  txn q H k s → layout meta (sb s) (length (memdisk (kdisk s))) → 1 ≤ k → (length H ≤ 1)%nat →
  held_data meta s H → 0 ≤ n < sb_size (sb s) →
  if used s n then ∃ s', bfree 1 n s = Ok tt s' ∧ touched q H (k - 1) (free_blocks s n) s s'
  else bfree 1 n s = Panic "freeing free block".
Proof.
  intros Ht Hly Hk HH Hhd Hn. destruct (BBLOCK_eq _ _ _ n Hly Hn) as [_ HB].
  pose proof (ly_size _ _ _ Hly). unfold bfree. rewrite (bind_ok (gets sb) _ _ _ _ eq_refl).
  destruct (bread_txn q H k s (BBLOCK n (sb s)) Ht) as (i & s1 & Hr & Ho); [lia|unfold in_disk; lia|done|..].
  { intros x Hx. destruct (Hhd x Hx). lia. }
  rewrite (bind_ok _ _ _ _ _ Hr). unfold getb. rewrite (bind_ok (gets _) _ _ _ _ eq_refl).
  rewrite (op_data _ _ _ _ _ _ _ Ho). unfold used. destruct (bit_clear _ _); simpl; [done|].
  apply (finish_update q _ H k s i s1 (clear_bit (n mod BPB)) Ho Hk). rewrite length_clear_bit.
  destruct (tx_bc _ _ _ _ Ht) as [xs Hbc]. apply (bc_blk_length Hbc). unfold in_disk in *. lia.
Qed.
End Blocks.

(** ** The bitmap after an allocation *)

Lemma mod_BPB n : 0 ≤ n mod BPB < BPB.
Proof. by apply Z.mod_pos_bound. Qed.

(** The bit of [m] after the block of the bitmap for [n] has been changed. *)
Lemma used_bit meta s s' g n m :
  layout meta (sb s) (length (memdisk (kdisk s))) → sb s' = sb s →
  0 ≤ n < sb_size (sb s) → 0 ≤ m < sb_size (sb s) →
  block s' (BBLOCK m (sb s)) = upd (BBLOCK n (sb s)) (g (block s (BBLOCK n (sb s)))) (block s) (BBLOCK m (sb s)) →
  used s' m = if decide (m / BPB = n / BPB) then negb (bit_clear (m mod BPB) (g (block s (BBLOCK n (sb s)))))
              else used s m.
Proof.
  intros Hly Hsb Hn Hm Hbl. unfold used. rewrite Hsb, Hbl. unfold upd.
  destruct (BBLOCK_eq _ _ _ n Hly Hn) as [HBn _], (BBLOCK_eq _ _ _ m Hly Hm) as [HBm _].
  rewrite HBn, HBm. do 2 case_decide; (done || lia).
Qed.

Lemma same_block_bit n m : (m mod BPB =? n mod BPB) = true → m / BPB = n / BPB → m = n.
Proof. intros H%Z.eqb_eq Hd. rewrite (Z.div_mod m BPB), (Z.div_mod n BPB) by done. congruence. Qed.

Lemma used_alloc meta s s' n m :
  layout meta (sb s) (length (memdisk (kdisk s))) → sb s' = sb s →
  length (block s (BBLOCK n (sb s))) = Z.to_nat BSIZE →
  0 ≤ meta ≤ n → n < sb_size (sb s) → 0 ≤ m < sb_size (sb s) →
  block s' (BBLOCK m (sb s)) = alloc_blocks s n (BBLOCK m (sb s)) → used s' m = used s m || (m =? n).
Proof.
  intros Hly Hsb Hlen Hmn Hn Hm Hbl.
  rewrite (used_bit meta s s' (set_bit (n mod BPB)) n m) by
    (try done; try lia; rewrite Hbl; unfold alloc_blocks, upd;
     destruct (BBLOCK_eq _ _ _ m Hly Hm); by rewrite decide_False by lia).
  destruct (decide (m / BPB = n / BPB)) as [E|E].
  - rewrite set_bit_clear by (done || apply mod_BPB). rewrite negb_andb, negb_involutive.
    unfold used. replace (BBLOCK m (sb s)) with (BBLOCK n (sb s)) by (unfold BBLOCK; by rewrite E).
    f_equal. destruct (Z.eqb_spec m n) as [->|Hne]; [apply Z.eqb_refl|].
    destruct (_ =? n mod BPB) eqn:Eb; [|done]. by destruct (Hne (same_block_bit _ _ Eb E)).
  - destruct (Z.eqb_spec m n) as [->|]; [done|]. by rewrite orb_false_r.
Qed.

Lemma used_free meta s s' n m :
  layout meta (sb s) (length (memdisk (kdisk s))) → sb s' = sb s →
  length (block s (BBLOCK n (sb s))) = Z.to_nat BSIZE →
  0 ≤ n < sb_size (sb s) → 0 ≤ m < sb_size (sb s) →
  (∀ x, block s' x = free_blocks s n x) → used s' m = used s m && negb (m =? n).
Proof.
  intros Hly Hsb Hlen Hn Hm Hbl.
  rewrite (used_bit meta s s' (clear_bit (n mod BPB)) n m) by (done || by rewrite Hbl).
  destruct (decide (m / BPB = n / BPB)) as [E|E].
  - rewrite clear_bit_clear by (done || apply mod_BPB). rewrite negb_orb.
    unfold used. replace (BBLOCK m (sb s)) with (BBLOCK n (sb s)) by (unfold BBLOCK; by rewrite E).
    f_equal. destruct (Z.eqb_spec m n) as [->|Hne]; [by rewrite Z.eqb_refl|].
    destruct (_ =? n mod BPB) eqn:Eb; [|done]. by destruct (Hne (same_block_bit _ _ Eb E)).
  - destruct (Z.eqb_spec m n) as [->|]; [done|]. by rewrite andb_true_r.
Qed.

(** ** Properties *)

(** The blocks below [meta] are in use. *)
Definition meta_used (meta : Z) (s : kernel) : Prop := ∀ n, 0 ≤ n < meta → used s n = true.

(** The small file system: 34 blocks of metadata, and one of data in use. *)
Lemma small_layout : layout 34 (sb small_kernel) (length (memdisk (kdisk small_kernel))).
Proof.
  rewrite small_length, small_sb_eq. split; simpl; try lia.
  - intros i Hi. unfold IPB. Z.div_mod_to_equations. lia.
  - intros n Hn. unfold BPB, BSIZE. Z.div_mod_to_equations. lia.
Qed.

Lemma small_used n : 0 ≤ n < 50 → used small_kernel n = (n <? 35).
Proof.
  intros Hn. unfold used. rewrite small_sb_eq.
  assert (HB : BBLOCK n small_sb = 33).
  { unfold BBLOCK, BPB, BSIZE. rewrite u32_small; unfold is_u32; simpl sb_bmapstart; Z.div_mod_to_equations; lia. }
  rewrite HB, small_block.
  assert (H : forallb (λ n, eqb (negb (bit_clear (n mod BPB) (default [] (small_disk !! Z.to_nat 33)))) (n <? 35))
                      (seqZ 0 50) = true) by (by vm_compute).
  rewrite forallb_forall in H. apply eqb_prop, H. apply list_elem_of_In, elem_of_seqZ. lia.
Qed.

Lemma small_meta_used : meta_used 34 small_kernel.
Proof. intros n Hn. rewrite small_used by lia. lia. Qed.

(** [C13] The block allocator.  Inside a transaction with room for two blocks in
    the log, [balloc] panics when every block is in use; otherwise it returns a
    data block that was free, now marked in the bitmap and filled with zeros,
    and changes neither the state of another block nor its contents outside of
    the bitmap.  [bfree] of a block in use marks it free and changes no other
    contents; of a free block it panics. *)
Theorem balloc_bfree_spec {dk : Disk} meta q k s :
  txn q [] k s → layout meta (sb s) (length (memdisk (kdisk s))) → 0 ≤ meta → meta_used meta s → 2 ≤ k →
  ((∀ n, 0 ≤ n < sb_size (sb s) → used s n = true) → balloc 1 s = Panic "balloc: out of blocks") ∧
  ((∃ n, 0 ≤ n < sb_size (sb s) ∧ used s n = false) →
   ∃ n s', balloc 1 s = Ok n s' ∧ meta ≤ n < sb_size (sb s) ∧ used s n = false ∧ block s' n = zeros ∧
     (∀ m, 0 ≤ m < sb_size (sb s) → used s' m = used s m || (m =? n)) ∧
     (∀ m, m ≠ n → m < sb_bmapstart (sb s) ∨ meta ≤ m → block s' m = block s m)) ∧
  (∀ n, meta ≤ n < sb_size (sb s) →
   if used s n then ∃ s', bfree 1 n s = Ok tt s' ∧
     (∀ m, 0 ≤ m < sb_size (sb s) → used s' m = used s m && negb (m =? n)) ∧
     (∀ m, m < sb_bmapstart (sb s) ∨ meta ≤ m → block s' m = block s m)
   else bfree 1 n s = Panic "freeing free block").
Proof.
  intros Ht Hly Hm0 Hmu Hk. pose proof (ly_size _ _ _ Hly) as Hsz.
  assert (Hhd : held_data meta s []) by (intros i Hi; by apply not_elem_of_nil in Hi).
  assert (HBlen : ∀ n, 0 ≤ n < sb_size (sb s) → length (block s (BBLOCK n (sb s))) = Z.to_nat BSIZE).
  { intros n Hn. destruct (tx_bc _ _ _ _ Ht) as [xs Hbc], (BBLOCK_eq _ _ _ n Hly Hn) as [_ HB].
    apply (bc_blk_length Hbc). lia. }
  split_and!.
  - intros Hall. unfold balloc. rewrite (bind_ok (gets sb) _ _ _ _ eq_refl), bitmap_starts_eq.
    eapply (balloc_from_full meta q [] k (Z.to_nat (sb_size (sb s)))); try done; [simpl; lia|].
    unfold BPB, BSIZE. lia.
  - intros Hex. destruct (balloc_ok meta q [] k s Ht Hly Hk ltac:(simpl; lia) Hhd Hex) as (n & s' & Hb & Hn & Hf & Hto).
    assert (Hmn : meta ≤ n) by (destruct (decide (n < meta)); [rewrite Hmu in Hf; [done|lia]|lia]).
    destruct (BBLOCK_eq _ _ _ n Hly Hn) as [HB HBm]. pose proof (ly_bmap _ _ _ Hly).
    assert (0 ≤ n / BPB) by (apply Z.div_pos; [lia|done]).
    exists n, s'. split_and!; [done|lia|lia|done| | |].
    + rewrite (to_block _ _ _ _ _ _ Hto). unfold alloc_blocks, upd. by rewrite decide_True.
    + intros m Hm. apply (used_alloc meta s s'); try done; [|by apply HBlen|lia|apply (to_block _ _ _ _ _ _ Hto)].
      apply (fstep_sb _ _ (to_step _ _ _ _ _ _ Hto)).
    + intros m Hne Hm. rewrite (to_block _ _ _ _ _ _ Hto). unfold alloc_blocks, upd.
      by rewrite decide_False, decide_False by lia.
  - intros n Hn. assert (Hn' : 0 ≤ n < sb_size (sb s)) by lia.
    pose proof (bfree_ok meta q [] k s n Ht Hly ltac:(lia) ltac:(simpl; lia) Hhd Hn') as Hfr.
    destruct (used s n) eqn:Hu; [|done]. destruct Hfr as (s' & Hb & Hto).
    destruct (BBLOCK_eq _ _ _ n Hly Hn') as [HB HBm]. pose proof (ly_bmap _ _ _ Hly).
    assert (0 ≤ n / BPB) by (apply Z.div_pos; [lia|done]).
    exists s'. split_and!; [done| |].
    + intros m Hm. apply (used_free meta s s'); try done; [|by apply HBlen|apply Hto].
      apply (fstep_sb _ _ (to_step _ _ _ _ _ _ Hto)).
    + intros m Hm. rewrite (to_block _ _ _ _ _ _ Hto). unfold free_blocks, upd. by rewrite decide_False by lia.
Qed.

(** The first free block of the small file system is allocated. *)
Lemma balloc_bfree_spec_witness :
  ∃ n s', balloc 1 small_kernel = Ok n s' ∧ 34 ≤ n < 50 ∧ used small_kernel n = false ∧ block s' n = zeros.
Proof.
  destruct (balloc_bfree_spec (dk := memide) 34 7 28 small_kernel) as (_ & H & _).
  - apply small_txn. lia.
  - apply small_layout.
  - lia.
  - apply small_meta_used.
  - lia.
  - destruct H as (n & s' & H1 & H2 & H3 & H4 & _).
    + exists 35. rewrite small_sb_eq. split; [by split|]. rewrite small_used by lia. done.
    + rewrite small_sb_eq in H2. exists n, s'. split_and!; [exact H1|exact (proj1 H2)|exact (proj2 H2)|exact H3|exact H4].
Defined.
