(* ===== verification/Inode.v ===== *)
(** * The blocks of files: bmap

    The blocks of an inode are the 141 slots of its address table: twelve direct
    ones, the indirect block, and the 128 entries of the indirect block. *)

From S2P Require Import Prelude Bytes Kernel Cstring Sched Proc Waiting Sleeplock Bio Log Reserve Fs Txn Blocks.

Definition NSLOT : nat := S NDIRECT + NINDIRECT.

Definition slot (s : kernel) (ip : inode) (k : nat) : Z :=
  if (k <=? NDIRECT)%nat then nth k (i_addrs ip) 0
  else
    let a := nth NDIRECT (i_addrs ip) 0 in
    if a =? 0 then 0 else get32 (4 * (k - S NDIRECT)) (block s a).

(** The slot of the [bn]th block of the contents. *)
Definition bslot (bn : nat) : nat := if (bn <? NDIRECT)%nat then bn else S bn.

(** The slots name different data blocks, which are in use. *)
Record inode_ok (meta : Z) (s : kernel) (ip : inode) : Prop := {
  io_len : length (i_addrs ip) = S NDIRECT;
  io_dev : i_dev ip = 1;
  io_slot : ∀ k, (k < NSLOT)%nat → slot s ip k ≠ 0 →
    meta ≤ slot s ip k < sb_size (sb s) ∧ used s (slot s ip k) = true;
  io_inj : ∀ k k', (k < NSLOT)%nat → (k' < NSLOT)%nat → slot s ip k ≠ 0 → slot s ip k = slot s ip k' → k = k' }.

(** The file system as a whole. *)
Record fs_ok (meta : Z) (s : kernel) : Prop := {
  fk_layout : layout meta (sb s) (length (memdisk (kdisk s)));
  fk_meta : 0 < meta;
  fk_used : meta_used meta s }.

Definition nfree (s : kernel) : nat :=
  length (filter (λ n, used s n = false) (seqZ 0 (sb_size (sb s)))).

(** ** Steps that change inode [i] *)

(** Like [fstep], but for the addresses and the size of the cached inode [i]. *)
Definition istep (i : nat) (s s' : kernel) : Prop :=
  fstep s (s' <| icache := icache s |>) ∧
  ∃ l z, icache s' = alter (λ ip, ip <| i_addrs := l |> <| i_size := z |>) i (icache s).

Lemma fstep_icache_set s s' c : fstep s s' → fstep (s <| icache := c |>) (s' <| icache := c |>).
Proof. intros [W E]. split; [done|]. rewrite E. by destruct s as [? ? [] ? ? ? ? ? ? []]. Qed.

Lemma txn_icache q H k s c : txn q H k s → txn q H k (s <| icache := c |>).
Proof. intros []. by split. Qed.

(** The inode [i] of the cache. *)
Definition inode_at (i : nat) (ip : inode) (s : kernel) : Prop := icache s !! i = Some ip.

Lemma geti_at i ip s : inode_at i ip s → geti i s = Ok ip s.
Proof. intros H. unfold geti, gets. by rewrite H. Qed.

Lemma slot_block s s' ip k :
  (nth NDIRECT (i_addrs ip) 0 ≠ 0 →
   block s' (nth NDIRECT (i_addrs ip) 0) = block s (nth NDIRECT (i_addrs ip) 0)) →
  slot s' ip k = slot s ip k.
Proof.
  intros H. unfold slot. destruct (k <=? NDIRECT)%nat; [done|].
  destruct (Z.eqb_spec (nth NDIRECT (i_addrs ip) 0) 0) as [|Hne]; [done|]. by rewrite H.
Qed.

Lemma slot_indirect s ip k :
  slot s ip k ≠ 0 → (NDIRECT < k)%nat → slot s ip NDIRECT ≠ 0.
Proof.
  unfold slot. intros H Hk. rewrite (proj2 (Nat.leb_gt k NDIRECT)) in H by done.
  rewrite (proj2 (Nat.leb_le NDIRECT NDIRECT)) by done. destruct (Z.eqb_spec (nth NDIRECT (i_addrs ip) 0) 0); done.
Qed.

(** Slot [k] has a block now, and the other slots are as they were.  Blocks in
    use and the blocks before the bitmap keep their contents, but for the
    indirect block. *)
Record grown (meta q kk : Z) (i k : nat) (ip : inode) (s : kernel) (ip' : inode) (s' : kernel) : Prop := {
  gr_txn : txn q [] kk s';
  gr_at : inode_at i ip' s';
  gr_fs : fs_ok meta s';
  gr_ok : inode_ok meta s' ip';
  gr_ip : ip' = ip <| i_addrs := i_addrs ip' |>;
  gr_slot : slot s' ip' k ≠ 0;
  gr_old : slot s ip k ≠ 0 → slot s' ip' k = slot s ip k;
  gr_others : ∀ k', (k' < NSLOT)%nat → k' ≠ k → slot s' ip' k' = slot s ip k';
  gr_new : slot s ip k = 0 → used s (slot s' ip' k) = false ∧ block s' (slot s' ip' k) = zeros;
  gr_block : ∀ m, m < sb_bmapstart (sb s) ∨ (meta ≤ m < sb_size (sb s) ∧ used s m = true) →
    ((NDIRECT < k)%nat → slot s ip NDIRECT ≠ 0 → m ≠ slot s ip NDIRECT) → block s' m = block s m;
  gr_used : ∀ m, 0 ≤ m < sb_size (sb s) → used s m = true → used s' m = true;
  gr_free : (nfree s ≤ nfree s' + 1)%nat;
  gr_step : istep i s s' }.

(** ** Counting free blocks *)

Lemma filter_one (P Q : Z → Prop) `{!∀ x, Decision (P x)} `{!∀ x, Decision (Q x)} n l :
  NoDup l → (∀ m, m ∈ l → m ≠ n → P m → Q m) → (length (filter P l) ≤ length (filter Q l) + 1)%nat.
Proof.
  induction 1 as [|x l Hx Hl IH]; intros HPQ; [simpl; lia|].
  destruct (decide (x = n)) as [->|Hne].
  - assert (Hle : (length (filter P l) ≤ length (filter Q l))%nat).
    { clear IH. induction l as [|y l IHl]; [simpl; lia|].
      apply not_elem_of_cons in Hx as [Hny Hx]. apply NoDup_cons in Hl as [Hy Hl].
      assert (HPy : P y → Q y) by (apply HPQ; [set_solver|congruence]).
      specialize (IHl Hx Hl ltac:(intros m Hm; apply HPQ; set_solver)).
      rewrite !filter_cons. destruct (decide (P y)), (decide (Q y)); simpl; (lia || tauto). }
    rewrite !filter_cons. destruct (decide (P n)), (decide (Q n)); simpl; lia.
  - specialize (IH ltac:(intros m Hm; apply HPQ; set_solver)).
    assert (HPx : P x → Q x) by (apply HPQ; [set_solver|done]).
    rewrite !filter_cons. destruct (decide (P x)), (decide (Q x)); simpl; (lia || tauto).
Qed.

Lemma nfree_alloc s s' n :
  sb s' = sb s → (∀ m, 0 ≤ m < sb_size (sb s) → used s' m = used s m || (m =? n)) →
  (nfree s ≤ nfree s' + 1)%nat.
Proof.
  intros Hsb Hu. unfold nfree. rewrite Hsb. apply (filter_one _ _ n); [apply NoDup_seqZ|].
  intros m Hm Hne Hf. apply elem_of_seqZ in Hm. rewrite Hu by lia. rewrite Hf. by apply Z.eqb_neq.
Qed.

Lemma nfree_pos s : (0 < nfree s)%nat → ∃ n, 0 ≤ n < sb_size (sb s) ∧ used s n = false.
Proof.
  unfold nfree. destruct (filter _ _) as [|n l] eqn:E; simpl; [lia|]. intros _.
  assert (Hn : n ∈ filter (λ n, used s n = false) (seqZ 0 (sb_size (sb s)))) by (rewrite E; set_solver).
  apply list_elem_of_filter in Hn as [Hf Hn]. apply elem_of_seqZ in Hn. exists n. split; [lia|done].
Qed.

Lemma nfree_same s s' : sb s' = sb s → (∀ m, block s' m = block s m) → nfree s' = nfree s.
Proof.
  intros Hsb Hbl. unfold nfree. rewrite Hsb. f_equal. apply list_filter_iff.
  intros m. by rewrite (used_same s).
Qed.

(** ** Allocating a slot *)

#[local] Opaque acquire release.

Lemma le_val_zeros n : le_val (replicate n 0) = 0.
Proof. induction n as [|n IH]; [done|]. simpl. by rewrite IH. Qed.

Lemma get32_zeros o : get32 o zeros = 0.
Proof. unfold get32, slice, zeros. rewrite drop_replicate, take_replicate. apply le_val_zeros. Qed.

(** A block that was free is not one of the inode's, and not of the bitmap. *)
Lemma alloc_fresh meta s ip n k :
  inode_ok meta s ip → used s n = false → (k < NSLOT)%nat → slot s ip k ≠ n ∨ slot s ip k = 0.
Proof.
  intros Hok Hn Hk. destruct (decide (slot s ip k = 0)) as [|Hz]; [by right|left].
  intros Heq. destruct (io_slot _ _ _ Hok k Hk Hz) as [_ Hu]. congruence.
Qed.

Lemma alloc_keeps meta s n m :
  fs_ok meta s → 0 ≤ n < sb_size (sb s) → used s n = false → m ≠ n →
  m < sb_bmapstart (sb s) ∨ meta ≤ m → alloc_blocks s n m = block s m.
Proof.
  intros [Hly Hm0 Hmu] Hn Hf Hne Hm. unfold alloc_blocks, upd.
  destruct (BBLOCK_eq _ _ _ n Hly Hn) as [HB HBm].
  assert (0 ≤ n / BPB) by (apply Z.div_pos; [lia|done]).
  by rewrite decide_False, decide_False by lia.
Qed.

Lemma alloc_meta meta s n : fs_ok meta s → 0 ≤ n < sb_size (sb s) → used s n = false → meta ≤ n.
Proof. intros [_ _ Hmu] Hn Hf. destruct (decide (n < meta)); [rewrite Hmu in Hf; [done|lia]|lia]. Qed.

Lemma BBLOCK_length meta q H k s n :
  txn q H k s → fs_ok meta s → 0 ≤ n < sb_size (sb s) → length (block s (BBLOCK n (sb s))) = Z.to_nat BSIZE.
Proof.
  intros Ht [Hly _ _] Hn. destruct (tx_bc _ _ _ _ Ht) as [xs Hbc], (BBLOCK_eq _ _ _ n Hly Hn) as [_ HB].
  pose proof (ly_size _ _ _ Hly). apply (bc_blk_length Hbc). lia.
Qed.

(** The bitmap and the layout after an allocation. *)
Lemma alloc_fs meta q H k s s' n :
  txn q H k s → fs_ok meta s → 0 ≤ n < sb_size (sb s) → used s n = false →
  sb s' = sb s → kdisk s' = kdisk s →
  (∀ m, 0 ≤ m < meta → block s' m = alloc_blocks s n m) →
  (∀ m, 0 ≤ m < sb_size (sb s) → used s' m = used s m || (m =? n)) ∧ fs_ok meta s' ∧
  (nfree s ≤ nfree s' + 1)%nat.
Proof.
  intros Ht Hfs Hn Hf Hsb Hdk Hbl. pose proof (alloc_meta _ _ _ Hfs Hn Hf) as Hmn.
  pose proof (BBLOCK_length _ _ _ _ _ _ Ht Hfs Hn) as Hlen. destruct Hfs as [Hly Hm0 Hmu].
  assert (Hu : ∀ m, 0 ≤ m < sb_size (sb s) → used s' m = used s m || (m =? n)).
  { intros m Hm. destruct (BBLOCK_eq _ _ _ m Hly Hm) as [_ HBm].
    apply (used_alloc meta s s'); try done; [lia|lia|]. by apply Hbl. }
  split; [done|]. split; [|by eapply nfree_alloc].
  split; [by rewrite Hsb, Hdk|done|]. intros m Hm. rewrite Hu by (pose proof (ly_size _ _ _ Hly); lia).
  by rewrite Hmu.
Qed.

Lemma istep_refl i ip s : inode_at i ip s → istep i s s.
Proof.
  intros Hat. split.
  - replace (s <| icache := icache s |>) with s by (by destruct s). reflexivity.
  - exists (i_addrs ip), (i_size ip). apply list_eq. intros j.
    destruct (decide (j = i)) as [->|Hne]; [|by rewrite list_lookup_alter_ne].
    rewrite list_lookup_alter_eq, Hat. by destruct ip.
Qed.

Lemma istep_fstep i ip s s' : inode_at i ip s → fstep s s' → istep i s s'.
Proof.
  intros Hat Hf. pose proof (fstep_icache _ _ Hf) as Hc. split.
  - rewrite <-Hc. replace (s' <| icache := icache s' |>) with s' by (by destruct s'). done.
  - rewrite Hc. by apply (istep_refl i ip s).
Qed.

(** An inode that gets the free block [n] in slot [k]. *)
Lemma inode_ok_grow meta s s' ip ip' k n :
  inode_ok meta s ip → length (i_addrs ip') = S NDIRECT → i_dev ip' = 1 → sb s' = sb s → 0 ≤ meta →
  (∀ m, 0 ≤ m < sb_size (sb s) → used s m = true → used s' m = true) →
  used s n = false → used s' n = true → meta ≤ n < sb_size (sb s) → slot s' ip' k = n →
  (∀ k', (k' < NSLOT)%nat → k' ≠ k → slot s' ip' k' = slot s ip k') → inode_ok meta s' ip'.
Proof.
  intros Hok Hlen Hdev Hsb Hm0 Hmono Hf Hu Hn Hk Hoth. split; [done|done|..].
  - intros k' Hk' Hz. rewrite Hsb. destruct (decide (k' = k)) as [->|Hne]; [by rewrite Hk|].
    rewrite Hoth in * by done. destruct (io_slot _ _ _ Hok k' Hk' Hz) as [Hr Hus].
    split; [done|]. apply Hmono; [lia|done].
  - intros k1 k2 Hk1 Hk2 Hz He. destruct (decide (k1 = k)) as [->|H1], (decide (k2 = k)) as [->|H2]; [done|..].
    + rewrite Hk, Hoth in He by done. destruct (alloc_fresh meta s ip n k2 Hok Hf Hk2); congruence.
    + rewrite Hk, Hoth in He by done. rewrite Hoth in Hz by done.
      destruct (alloc_fresh meta s ip n k1 Hok Hf Hk1); congruence.
    + rewrite !Hoth in * by done. by apply (io_inj _ _ _ Hok).
Qed.

Section Inode.
Context {dk : Disk}.

(** A slot that has a block. *)
Lemma grown_same meta q kk kk' i k ip s :
  txn q [] kk s → kk' ≤ kk → inode_at i ip s → fs_ok meta s → inode_ok meta s ip → slot s ip k ≠ 0 →
  grown meta q kk' i k ip s ip s.
Proof.
  intros Ht Hk Hat Hfs Hok Hz. split; try done.
  - by eapply txn_weaken.
  - by destruct ip.
  - lia.
  - by eapply istep_refl.
Qed.

(** The direct slots and the indirect block: what is in the table, or a new
    block. *)
Lemma direct_ok meta q kk i k ip s :
  txn q [] kk s → 2 ≤ kk → inode_at i ip s → fs_ok meta s → inode_ok meta s ip →
  (k ≤ NDIRECT)%nat → (0 < nfree s)%nat →
  ∃ ip' s',
    (let a := nth k (i_addrs ip) 0 in
     if a =? 0 then (a ← balloc (i_dev ip); set_addr i k a ;; ret a) else ret a) s
    = Ok (slot s' ip' k) s' ∧ grown meta q (kk - 2) i k ip s ip' s'.
Proof.
  intros Ht Hkk Hat Hfs Hok Hk Hfree. cbv zeta. rewrite (io_dev _ _ _ Hok).
  assert (Hsk : ∀ s1, slot s1 ip k = nth k (i_addrs ip) 0).
  { intros s1. unfold slot. by rewrite (proj2 (Nat.leb_le k NDIRECT)). }
  destruct (Z.eqb_spec (nth k (i_addrs ip) 0) 0) as [Hz|Hz].
  2: { exists ip, s. rewrite Hsk. split; [done|]. eapply grown_same; try done; [lia|by rewrite Hsk]. }
  assert (Hhd : held_data meta s []) by (intros x Hx; by apply not_elem_of_nil in Hx).
  destruct (balloc_ok meta q [] kk s Ht (fk_layout _ _ Hfs) Hkk ltac:(simpl; lia) Hhd (nfree_pos _ Hfree))
    as (n & s1 & Hb & Hn & Hf & [Ht1 Hbl1 _ Hst1]).
  rewrite (bind_ok _ _ _ _ _ Hb). unfold set_addr, updi. rewrite (bind_ok (modify_state _) _ _ _ _ eq_refl).
  pose proof (fstep_sb _ _ Hst1) as Hsb. pose proof (fstep_disk _ _ Hst1) as Hdk.
  pose proof (fstep_icache _ _ Hst1) as Hic. pose proof (alloc_meta _ _ _ Hfs Hn Hf) as Hmn.
  pose proof (fk_meta _ _ Hfs) as Hm0.
  set (ip' := ip <| i_addrs ::= <[k := n]> |>). set (s' := s1 <| icache ::= _ |>).
  assert (Hat' : inode_at i ip' s').
  { unfold inode_at, s'. simpl. rewrite Hic, list_lookup_alter_eq, Hat. done. }
  destruct (alloc_fs meta q [] kk s s' n Ht Hfs Hn Hf Hsb Hdk) as (Hu & Hfs' & Hnf); [intros m _; apply Hbl1|].
  assert (Hklen : (k < length (i_addrs ip))%nat) by (rewrite (io_len _ _ _ Hok); lia).
  assert (Hsk' : slot s' ip' k = n).
  { unfold slot. rewrite (proj2 (Nat.leb_le k NDIRECT)) by done. simpl.
    by rewrite nth_lookup, list_lookup_insert_eq. }
  assert (Hkeep : ∀ m, m < sb_bmapstart (sb s) ∨ (meta ≤ m < sb_size (sb s) ∧ used s m = true) →
                       block s' m = block s m).
  { intros m Hm. change (block s' m) with (block s1 m). rewrite Hbl1. apply (alloc_keeps meta); try done.
    - intros ->. destruct Hm as [Hm|[_ Hm]]; [|congruence].
      destruct (fk_layout _ _ Hfs) as [_ _ _ Hbs _ _]. specialize (Hbs n Hn).
      assert (0 ≤ n / BPB) by (apply Z.div_pos; [lia|done]). lia.
    - destruct Hm as [|[]]; lia. }
  assert (Hoth : ∀ k', (k' < NSLOT)%nat → k' ≠ k → slot s' ip' k' = slot s ip k').
  { intros k' Hk' Hne. unfold slot.
    assert (Hnth : ∀ j, j ≠ k → nth j (i_addrs ip') 0 = nth j (i_addrs ip) 0).
    { intros j Hj. rewrite !nth_lookup. simpl. by rewrite list_lookup_insert_ne. }
    destruct (Nat.leb_spec k' NDIRECT) as [Hle|Hgt]; [by apply Hnth|].
    destruct (decide (k = NDIRECT)) as [->|Hkn].
    - rewrite Hz. assert (nth NDIRECT (i_addrs ip') 0 = n) as ->.
      { simpl. by rewrite nth_lookup, list_lookup_insert_eq. }
      rewrite (proj2 (Z.eqb_neq n 0)) by lia. change (block s' n) with (block s1 n). rewrite Hbl1.
      unfold alloc_blocks, upd. rewrite decide_True by done. by apply get32_zeros.
    - rewrite (Hnth NDIRECT) by done. destruct (Z.eqb_spec (nth NDIRECT (i_addrs ip) 0) 0) as [|Hia]; [done|].
      f_equal. apply Hkeep. right. apply (io_slot _ _ _ Hok NDIRECT); [unfold NSLOT; lia|done]. }
  exists ip', s'. rewrite Hsk'. split; [done|]. split; try done.
  - apply (txn_icache q [] (kk - 2) s1 (icache s')), Ht1.
  - apply (inode_ok_grow meta s s' ip ip' k n); try done; [..|lia].
    + simpl. rewrite length_insert. apply Hok.
    + apply Hok.
    + lia.
    + intros m Hm Hum. by rewrite Hu, Hum.
    + rewrite Hu, Z.eqb_refl by lia. apply orb_true_r.
  - rewrite Hsk'. lia.
  - intros Hnz. by rewrite Hsk in Hnz.
  - intros _. rewrite Hsk'. split; [done|]. change (block s' n) with (block s1 n). rewrite Hbl1.
    unfold alloc_blocks, upd. by rewrite decide_True.
  - intros m Hm _. by apply Hkeep.
  - intros m Hm Hum. by rewrite Hu, Hum.
  - split.
    + rewrite <-Hic. replace (s' <| icache := icache s1 |>) with s1 by (by destruct s1). done.
    + exists (i_addrs ip'), (i_size ip). unfold s'. simpl. rewrite Hic. apply list_eq. intros j.
      destruct (decide (j = i)) as [->|Hne]; [|by rewrite !list_lookup_alter_ne].
      rewrite !list_lookup_alter_eq, Hat. simpl. by destruct ip.
Qed.

(** The entries of the indirect block. *)
Lemma slot_entry s ip j :
  slot s ip NDIRECT ≠ 0 → slot s ip (S NDIRECT + j) = get32 (4 * j) (block s (slot s ip NDIRECT)).
Proof.
  unfold slot. rewrite (proj2 (Nat.leb_le NDIRECT NDIRECT)) by done. intros Hz.
  rewrite (proj2 (Nat.leb_gt (S NDIRECT + j) NDIRECT)) by lia.
  rewrite (proj2 (Z.eqb_neq _ _) Hz). do 2 f_equal. lia.
Qed.

Lemma slot_direct s s' ip k : (k ≤ NDIRECT)%nat → slot s' ip k = slot s ip k.
Proof. intros Hk. unfold slot. by rewrite (proj2 (Nat.leb_le k NDIRECT)). Qed.

(** The part of [bmap] that reads and extends the indirect block [a]. *)
Definition entry_code (a : Z) (j : nat) (d : Z) : KM Z :=
  bp ← bread d a;
  x ← getb bp;
  let e := get32 (4 * j) (data x) in
  e ← (if e =? 0 then
         e ← balloc d;
         setdata bp (put32 (4 * j) e) ;;
         log_write bp ;;
         ret e
       else ret e);
  brelse bp ;;
  ret e.

(** The contents after entry [j] of the indirect block [a] has become [n]. *)
Definition entry_blocks (s : kernel) (a : Z) (j : nat) (n : Z) : Z → list Z :=
  upd a (put32 (4 * j) n (block s a)) (alloc_blocks s n).

Lemma entry_run meta q kk s a j :
  txn q [] kk s → 3 ≤ kk → fs_ok meta s → meta ≤ a < sb_size (sb s) → used s a = true →
  (j < NINDIRECT)%nat → (0 < nfree s)%nat →
  let e := get32 (4 * j) (block s a) in
  if e =? 0 then ∃ n s', entry_code a j 1 s = Ok n s' ∧ 0 ≤ n < sb_size (sb s) ∧ used s n = false ∧
                   touched q [] (kk - 3) (entry_blocks s a j n) s s'
  else ∃ s', entry_code a j 1 s = Ok e s' ∧ touched q [] kk (block s) s s'.
Proof.
  intros Ht Hkk Hfs Ha Hua Hj Hfree e. pose proof (fk_layout _ _ Hfs) as Hly.
  pose proof (ly_size _ _ _ Hly) as Hsz. pose proof (fk_meta _ _ Hfs) as Hm0.
  assert (Hlen : length (block s a) = Z.to_nat BSIZE).
  { destruct (tx_bc _ _ _ _ Ht) as [xs Hbc]. apply (bc_blk_length Hbc). lia. }
  unfold entry_code.
  destruct (bread_txn q [] kk s a Ht) as (bp & s1 & Hr & Ho); [lia|unfold in_disk; lia|simpl; lia|..].
  { intros x Hx. by apply not_elem_of_nil in Hx. }
  rewrite (bind_ok _ _ _ _ _ Hr). unfold getb. rewrite (bind_ok (gets _) _ _ _ _ eq_refl).
  rewrite (op_data _ _ _ _ _ _ _ Ho). fold e. destruct (e =? 0) eqn:He.
  2: { destruct (finish_read _ _ _ _ _ _ _ Ho) as (s2 & H2 & Ht2). exists s2.
       rewrite (bind_ok (ret e) _ _ _ _ eq_refl), (bind_ok _ _ _ _ _ H2). done. }
  destruct Ho as [Ht1 _ Hbno Hdt _ Hbl1 _ Hst1].
  assert (Hu1 : ∀ m, used s1 m = used s m) by (intros m; apply used_same; [apply (fstep_sb _ _ Hst1)|done]).
  assert (Hhd : held_data meta s1 [bp]).
  { intros x Hx. apply list_elem_of_singleton in Hx as ->. by rewrite Hbno, (fstep_sb _ _ Hst1), Hu1. }
  destruct (balloc_ok meta q [bp] kk s1 Ht1) as (n & s2 & Hb & Hn & Hf & Hto2);
    [by rewrite (fstep_sb _ _ Hst1), (fstep_disk _ _ Hst1)|lia|simpl; lia|done|..].
  { apply nfree_pos. by rewrite (nfree_same s) by (done || apply (fstep_sb _ _ Hst1)). }
  rewrite (fstep_sb _ _ Hst1) in Hn. rewrite Hu1 in Hf.
  pose proof (to_vw _ _ _ _ _ _ Hto2 bp (list_elem_of_here _ _)) as Hvw.
  assert (Hd2 : data (nd (nodes s2) bp) = block s a) by (unfold vw in Hvw; congruence).
  assert (Hb2 : blockno (nd (nodes s2) bp) = a) by (unfold vw in Hvw; congruence).
  destruct (log_write_txn q [bp] (kk - 2) s2 bp (put32 (4 * j) n)) as (s3 & H3 & [Ht3 Hb3 Hd3 _ Hbl3 Hst3]);
    [apply Hto2|lia|set_solver|rewrite Hd2, length_put32; [done|rewrite Hlen; unfold NINDIRECT, BSIZE in *; lia]|].
  destruct (brelse_txn q [] (kk - 2 - 1) s3 bp Ht3 (not_elem_of_nil _)) as (s4 & H4 & [Ht4 _ Hbl4 _ Hst4]).
  exists n, s4. split_and!; [|lia|lia|done|].
  - unfold bind at 1. rewrite (bind_ok _ _ _ _ _ Hb).
    assert (Hre : (setdata bp (put32 (4 * j) n) ;; log_write bp ;; ret n) s2 = Ok n s3).
    { rewrite <-bind_assoc. by rewrite (bind_ok _ _ _ _ _ H3). }
    rewrite Hre. by rewrite (bind_ok _ _ _ _ _ H4).
  - replace (kk - 3) with (kk - 2 - 1) by lia. split; [done| |by intros x Hx; apply not_elem_of_nil in Hx|].
    + intros m. rewrite Hbl4, Hbl3, Hb2, Hd2. unfold entry_blocks, upd. case_decide; [done|].
      rewrite (to_block _ _ _ _ _ _ Hto2). apply alloc_blocks_same; [apply (fstep_sb _ _ Hst1)|done].
    + etransitivity; [exact Hst1|]. etransitivity; [apply Hto2|]. by etransitivity.
Qed.

(** Nothing has changed but the cache. *)
Lemma fs_ok_same meta s s' :
  fs_ok meta s → sb s' = sb s → kdisk s' = kdisk s → (∀ m, block s' m = block s m) → fs_ok meta s'.
Proof.
  intros [Hly Hm Hu] Hsb Hdk Hbl. split; [by rewrite Hsb, Hdk|done|].
  intros m Hm'. rewrite (used_same s) by done. by apply Hu.
Qed.

Lemma inode_ok_same meta s s' ip :
  inode_ok meta s ip → sb s' = sb s → (∀ m, block s' m = block s m) → inode_ok meta s' ip.
Proof.
  intros [Hl Hd Hs Hi] Hsb Hbl.
  assert (He : ∀ k, slot s' ip k = slot s ip k) by (intros k; by apply slot_block).
  split; [done|done|..].
  - intros k Hk. rewrite He, Hsb, (used_same s) by done. by apply Hs.
  - intros k k' Hk Hk'. rewrite !He. by apply Hi.
Qed.

Lemma grown_read meta q kk kk' i k ip s s' :
  touched q [] kk (block s) s s' → kk' ≤ kk → inode_at i ip s → fs_ok meta s → inode_ok meta s ip →
  slot s ip k ≠ 0 → grown meta q kk' i k ip s ip s'.
Proof.
  intros [Ht Hbl _ Hst] Hkk Hat Hfs Hok Hz.
  pose proof (fstep_sb _ _ Hst) as Hsb. pose proof (fstep_disk _ _ Hst) as Hdk.
  assert (He : ∀ k, slot s' ip k = slot s ip k) by (intros k'; by apply slot_block).
  split; rewrite ?He; try done.
  - by eapply txn_weaken.
  - unfold inode_at. by rewrite (fstep_icache _ _ Hst).
  - by eapply fs_ok_same.
  - by eapply inode_ok_same.
  - by destruct ip.
  - intros m Hm Hu. by rewrite (used_same s).
  - rewrite (nfree_same s s') by done. lia.
  - by eapply istep_fstep.
Qed.

(** The indirect block [a] has got the new entry [n]. *)
Lemma entry_blocks_at meta s a j n :
  fs_ok meta s → meta ≤ a < sb_size (sb s) → used s a = true → 0 ≤ n < sb_size (sb s) → used s n = false →
  entry_blocks s a j n a = put32 (4 * j) n (block s a) ∧
  entry_blocks s a j n n = zeros ∧
  (∀ m, 0 ≤ m < meta → entry_blocks s a j n m = alloc_blocks s n m) ∧
  (∀ m, m < sb_bmapstart (sb s) ∨ (meta ≤ m < sb_size (sb s) ∧ used s m = true) → m ≠ a →
    entry_blocks s a j n m = block s m).
Proof.
  intros Hfs Ha Hua Hn Hf. pose proof (alloc_meta _ _ _ Hfs Hn Hf) as Hmn.
  unfold entry_blocks, upd. split_and!.
  - by rewrite decide_True.
  - rewrite decide_False by (intros ->; congruence). unfold alloc_blocks, upd. by rewrite decide_True.
  - intros m Hm. by rewrite decide_False by lia.
  - intros m Hm Hne. rewrite decide_False by done. apply (alloc_keeps meta); try done.
    + intros ->. destruct Hm as [Hm|[_ Hm]]; [|congruence]. destruct (BBLOCK_eq _ _ _ n (fk_layout _ _ Hfs) Hn).
      assert (0 ≤ n / BPB) by (apply Z.div_pos; [lia|done]). lia.
    + destruct Hm as [|[]]; lia.
Qed.

Lemma indirect_ok meta q kk i j ip s :
  txn q [] kk s → 3 ≤ kk → inode_at i ip s → fs_ok meta s → inode_ok meta s ip →
  slot s ip NDIRECT ≠ 0 → (j < NINDIRECT)%nat → (0 < nfree s)%nat →
  ∃ s', entry_code (slot s ip NDIRECT) j 1 s = Ok (slot s' ip (S NDIRECT + j)) s' ∧
    grown meta q (kk - 3) i (S NDIRECT + j) ip s ip s'.
Proof.
  intros Ht Hkk Hat Hfs Hok Hia Hj Hfree. set (a := slot s ip NDIRECT) in *.
  destruct (io_slot _ _ _ Hok NDIRECT ltac:(unfold NSLOT; lia) Hia) as [Ha Hua]. fold a in Ha, Hua.
  assert (Hlen : length (block s a) = Z.to_nat BSIZE).
  { destruct (tx_bc _ _ _ _ Ht) as [xs Hbc], (fk_layout _ _ Hfs), Hfs. apply (bc_blk_length Hbc). lia. }
  pose proof (entry_run meta q kk s a j Ht Hkk Hfs Ha Hua Hj Hfree) as Hrun. cbv zeta in Hrun.
  pose proof (slot_entry s ip j Hia) as Hse. fold a in Hse. rewrite <-Hse in Hrun.
  destruct (Z.eqb_spec (slot s ip (S NDIRECT + j)) 0) as [Hz|Hz].
  2: { destruct Hrun as (s' & Hr & Hto). exists s'. pose proof (to_block _ _ _ _ _ _ Hto) as Hbl.
       rewrite (slot_block s s' ip) by (by intros; apply Hbl). split; [done|]. eapply grown_read; try done. lia. }
  destruct Hrun as (n & s' & Hr & Hn & Hf & [Ht' Hbl _ Hst]).
  destruct (entry_blocks_at meta s a j n Hfs Ha Hua Hn Hf) as (Hba & Hbn & Hbm & Hkeep).
  pose proof (fstep_sb _ _ Hst) as Hsb. pose proof (fstep_disk _ _ Hst) as Hdk.
  pose proof (alloc_meta _ _ _ Hfs Hn Hf) as Hmn. pose proof (fk_meta _ _ Hfs) as Hm0.
  assert (Hoff : (4 * j + 4 ≤ length (block s a))%nat) by (rewrite Hlen; unfold NINDIRECT, BSIZE in *; lia).
  assert (Hslot : ∀ j', slot s' ip (S NDIRECT + j') = get32 (4 * j') (put32 (4 * j) n (block s a))).
  { intros j'. rewrite slot_entry by (by rewrite (slot_direct s s')). rewrite (slot_direct s s') by done.
    fold a. by rewrite Hbl, Hba. }
  assert (Hnew : slot s' ip (S NDIRECT + j) = n).
  { rewrite Hslot, get32_put32 by done. apply u32_small. destruct (fk_layout _ _ Hfs). unfold is_u32. lia. }
  assert (Hoth : ∀ k', (k' < NSLOT)%nat → k' ≠ (S NDIRECT + j)%nat → slot s' ip k' = slot s ip k').
  { intros k' Hk' Hne. destruct (decide (k' ≤ NDIRECT)%nat) as [Hle|Hgt]; [by apply slot_direct|].
    replace k' with (S NDIRECT + (k' - S NDIRECT))%nat by lia.
    rewrite Hslot, slot_entry by done. apply get32_put32_ne; [done|lia]. }
  destruct (alloc_fs meta q [] kk s s' n Ht Hfs Hn Hf Hsb Hdk) as (Hu & Hfs' & Hnf).
  { intros m Hm. rewrite Hbl. by apply Hbm. }
  exists s'. rewrite Hnew. split; [done|]. split; try done.
  - unfold inode_at. by rewrite (fstep_icache _ _ Hst).
  - apply (inode_ok_grow meta s s' ip ip (S NDIRECT + j) n); try done; [apply Hok|apply Hok|lia|..|lia].
    + intros m Hm Hum. by rewrite Hu, Hum.
    + rewrite Hu, Z.eqb_refl by lia. apply orb_true_r.
  - by destruct ip.
  - rewrite Hnew. lia.
  - rewrite Hnew. intros _. by rewrite Hbl.
  - intros m Hm Hne. rewrite Hbl. apply Hkeep; [done|]. apply Hne; [lia|done].
  - intros m Hm Hum. by rewrite Hu, Hum.
  - by eapply istep_fstep.
Qed.

(** ** bmap *)

Lemma istep_trans i s1 s2 s3 : istep i s1 s2 → istep i s2 s3 → istep i s1 s3.
Proof.
  intros [F1 (l1 & z1 & E1)] [F2 (l2 & z2 & E2)]. split.
  - etransitivity; [exact F1|]. apply (fstep_icache_set _ _ (icache s1)) in F2.
    by destruct s3.
  - exists l2, z2. rewrite E2, E1, list_alter_alter_eq. done.
Qed.

Lemma istep_sb i s s' : istep i s s' → sb s' = sb s.
Proof. intros [H _]. apply (fstep_sb _ _ H). Qed.
Lemma istep_disk i s s' : istep i s s' → kdisk s' = kdisk s.
Proof. intros [H _]. apply (fstep_disk _ _ H). Qed.

(** The [bn]th block of a file; what has never been written is zero. *)
Definition contents (s : kernel) (ip : inode) (bn : nat) : list Z :=
  if slot s ip (bslot bn) =? 0 then zeros else block s (slot s ip (bslot bn)).

Lemma bslot_lt bn : (bn < NDIRECT + NINDIRECT)%nat → (bslot bn < NSLOT)%nat.
Proof. unfold bslot, NSLOT. intros. destruct (bn <? NDIRECT)%nat; lia. Qed.

Lemma bslot_ne bn : bslot bn ≠ NDIRECT.
Proof. unfold bslot. destruct (Nat.ltb_spec bn NDIRECT); lia. Qed.

Lemma bslot_inj bn bn' : bslot bn = bslot bn' → bn = bn'.
Proof. unfold bslot. destruct (Nat.ltb_spec bn NDIRECT), (Nat.ltb_spec bn' NDIRECT); lia. Qed.

(** Block [bn] of the file has a place on the disk, and the file has the
    contents it had; so has every other block in use. *)
Record mapped (meta q kk : Z) (i bn : nat) (ip : inode) (s : kernel) (ip' : inode) (s' : kernel) : Prop := {
  mp_txn : txn q [] kk s';
  mp_at : inode_at i ip' s';
  mp_fs : fs_ok meta s';
  mp_ok : inode_ok meta s' ip';
  mp_ip : ip' = ip <| i_addrs := i_addrs ip' |>;
  mp_slot : slot s' ip' (bslot bn) ≠ 0;
  mp_others : ∀ bn', (bn' < NDIRECT + NINDIRECT)%nat → slot s ip (bslot bn') ≠ 0 →
    slot s' ip' (bslot bn') = slot s ip (bslot bn');
  mp_contents : ∀ bn', (bn' < NDIRECT + NINDIRECT)%nat → contents s' ip' bn' = contents s ip bn';
  mp_block : ∀ m, m < sb_bmapstart (sb s) ∨ (meta ≤ m < sb_size (sb s) ∧ used s m = true) →
    (slot s ip NDIRECT ≠ 0 → m ≠ slot s ip NDIRECT) → block s' m = block s m;
  mp_fresh : ∀ k, (k < NSLOT)%nat → slot s' ip' k ≠ slot s ip k → used s (slot s' ip' k) = false;
  mp_used : ∀ m, 0 ≤ m < sb_size (sb s) → used s m = true → used s' m = true;
  mp_free : (nfree s ≤ nfree s' + 2)%nat;
  mp_step : istep i s s' }.

(** What growing one slot means for the contents. *)
Lemma grown_contents meta q kk i k ip s ip' s' bn :
  inode_ok meta s ip → grown meta q kk i k ip s ip' s' → (k < NSLOT)%nat →
  (bn < NDIRECT + NINDIRECT)%nat → contents s' ip' bn = contents s ip bn.
Proof.
  intros Hok Hg Hk Hbn. pose proof (bslot_lt _ Hbn) as Hlt. unfold contents.
  assert (Hkeep : slot s ip (bslot bn) ≠ 0 → block s' (slot s ip (bslot bn)) = block s (slot s ip (bslot bn))).
  { intros Hz. destruct (io_slot _ _ _ Hok _ Hlt Hz) as [Hr Hu].
    apply (gr_block _ _ _ _ _ _ _ _ _ Hg); [by right|]. intros Hkd _ Heq.
    apply (bslot_ne bn). apply (io_inj _ _ _ Hok); [done|unfold NSLOT; lia|done|done]. }
  destruct (decide (bslot bn = k)) as [<-|Hne].
  - pose proof (gr_slot _ _ _ _ _ _ _ _ _ Hg) as Hs'. rewrite (proj2 (Z.eqb_neq _ 0) Hs').
    destruct (Z.eqb_spec (slot s ip (bslot bn)) 0) as [Hz|Hz].
    + apply (gr_new _ _ _ _ _ _ _ _ _ Hg Hz).
    + rewrite (gr_old _ _ _ _ _ _ _ _ _ Hg Hz). by apply Hkeep.
  - rewrite (gr_others _ _ _ _ _ _ _ _ _ Hg) by done.
    destruct (Z.eqb_spec (slot s ip (bslot bn)) 0) as [Hz|Hz]; [done|by apply Hkeep].
Qed.

Lemma grown_mapped meta q kk i bn ip s ip' s' :
  inode_ok meta s ip → (bn < NDIRECT + NINDIRECT)%nat →
  grown meta q kk i (bslot bn) ip s ip' s' → mapped meta q kk i bn ip s ip' s'.
Proof.
  intros Hok Hbn Hg. pose proof (bslot_lt _ Hbn) as Hlt. destruct Hg eqn:E. split; try done.
  - intros bn' Hbn' Hz. destruct (decide (bn' = bn)) as [->|Hne]; [by apply gr_old0|].
    apply gr_others0; [by apply bslot_lt|]. intros He. apply Hne. by apply bslot_inj.
  - intros bn' Hbn'. by eapply grown_contents.
  - intros m Hm Hne. by apply gr_block0.
  - intros k Hk Hne. destruct (decide (k = bslot bn)) as [->|Hkb]; [|by rewrite gr_others0 in Hne].
    destruct (decide (slot s ip (bslot bn) = 0)) as [Hz|Hz]; [by apply gr_new0|by rewrite gr_old0 in Hne].
  - lia.
Qed.

(** Growing the indirect block and then an entry of it. *)
Lemma grown_twice meta q k1 k2 i bn ip s ip1 s1 ip2 s2 :
  inode_ok meta s ip → fs_ok meta s → (NDIRECT ≤ bn < NDIRECT + NINDIRECT)%nat →
  grown meta q k1 i NDIRECT ip s ip1 s1 → grown meta q k2 i (bslot bn) ip1 s1 ip2 s2 →
  mapped meta q k2 i bn ip s ip2 s2.
Proof.
  intros Hok Hfs Hbn H1 H2. destruct (grown_mapped meta q k2 i bn ip1 s1 ip2 s2) as [M1 M2 M3 M4 M5 M6 M7 M8 M9 M10 M11 M12 M13];
    [apply H1|lia|done|].
  pose proof (istep_sb _ _ _ (gr_step _ _ _ _ _ _ _ _ _ H1)) as Hsb.
  assert (Hs1 : ∀ k, (k < NSLOT)%nat → k ≠ NDIRECT → slot s1 ip1 k = slot s ip k)
    by apply (gr_others _ _ _ _ _ _ _ _ _ H1).
  assert (HN : (NDIRECT < NSLOT)%nat) by (unfold NSLOT; lia).
  pose proof (fk_meta _ _ Hfs) as Hm0.
  split; try done.
  - by rewrite M5, (gr_ip _ _ _ _ _ _ _ _ _ H1).
  - intros bn' Hbn' Hz. rewrite <-(Hs1 (bslot bn')) by (apply bslot_lt, Hbn' || apply bslot_ne).
    apply M7; [done|]. by rewrite Hs1 by (apply bslot_lt, Hbn' || apply bslot_ne).
  - intros bn' Hbn'. rewrite M8 by done. eapply grown_contents; try done.
  - intros m Hm Hne. assert (Hk1 : block s1 m = block s m) by (apply (gr_block _ _ _ _ _ _ _ _ _ H1); [done|intros; lia]).
    rewrite <-Hk1. apply M9.
    + rewrite Hsb. destruct Hm as [|[Hm Hu]]; [by left|right]. split; [done|].
      apply (gr_used _ _ _ _ _ _ _ _ _ H1); [lia|done].
    + intros _ ->. destruct (decide (slot s ip NDIRECT = 0)) as [Hz|Hz].
      * destruct (gr_new _ _ _ _ _ _ _ _ _ H1 Hz) as [Hf _]. destruct Hm as [Hm|[_ Hu]]; [|congruence].
        destruct (io_slot _ _ _ (gr_ok _ _ _ _ _ _ _ _ _ H1) NDIRECT HN (gr_slot _ _ _ _ _ _ _ _ _ H1)) as [Hr _].
        destruct (fk_layout _ _ Hfs) as [_ _ Hb Hbs _ _]. rewrite Hsb in Hr. specialize (Hbs 0 ltac:(lia)).
        rewrite Zdiv_0_l in Hbs. lia.
      * specialize (Hne Hz). by rewrite (gr_old _ _ _ _ _ _ _ _ _ H1 Hz) in Hne.
  - intros k Hk Hne. destruct (decide (slot s2 ip2 k = slot s1 ip1 k)) as [He|Hne1].
    + rewrite He in *. destruct (decide (k = NDIRECT)) as [->|Hkn]; [|by rewrite Hs1 in Hne].
      destruct (decide (slot s ip NDIRECT = 0)) as [Hz|Hz]; [by apply (gr_new _ _ _ _ _ _ _ _ _ H1)|].
      by rewrite (gr_old _ _ _ _ _ _ _ _ _ H1 Hz) in Hne.
    + pose proof (M10 k Hk Hne1) as Hf. destruct (used s _) eqn:Hu; [|done].
      assert (Hz2 : slot s2 ip2 k ≠ 0).
      { intros Hz. rewrite Hz in Hf. rewrite (fk_used _ _ (gr_fs _ _ _ _ _ _ _ _ _ H1)) in Hf; [done|lia]. }
      destruct (io_slot _ _ _ M4 k Hk Hz2) as [Hr _]. rewrite (istep_sb _ _ _ M13), Hsb in Hr.
      rewrite (gr_used _ _ _ _ _ _ _ _ _ H1) in Hf; [done|lia|done].
  - intros m Hm Hu. apply M11; [by rewrite Hsb|]. by apply (gr_used _ _ _ _ _ _ _ _ _ H1).
  - pose proof (gr_free _ _ _ _ _ _ _ _ _ H1). pose proof (gr_free _ _ _ _ _ _ _ _ _ H2). lia.
  - eapply istep_trans; [apply H1|done].
Qed.

(** [bmap] gives the block of the disk for block [bn] of the file, which it
    allocates if there is none; the contents of the file do not change. *)
Lemma bmap_ok meta q kk i bn ip s :
  txn q [] kk s → 5 ≤ kk → inode_at i ip s → fs_ok meta s → inode_ok meta s ip →
  (bn < NDIRECT + NINDIRECT)%nat → (2 ≤ nfree s)%nat →
  ∃ ip' s', bmap i (Z.of_nat bn) s = Ok (slot s' ip' (bslot bn)) s' ∧
    mapped meta q (kk - 5) i bn ip s ip' s'.
Proof.
  intros Ht Hkk Hat Hfs Hok Hbn Hfree. unfold bmap. rewrite (bind_ok _ _ _ _ _ (geti_at _ _ _ Hat)).
  destruct (Z.ltb_spec (Z.of_nat bn) (Z.of_nat NDIRECT)) as [Hd|Hd].
  - assert (Hbs : bslot bn = bn) by (unfold bslot; by rewrite (proj2 (Nat.ltb_lt _ _)) by lia).
    destruct (direct_ok meta q (kk - 3) i bn ip s) as (ip' & s' & Hr & Hg); try done; [by eapply txn_weaken; [done|lia]|lia..|].
    exists ip', s'. rewrite Nat2Z.id, Hbs. split; [exact Hr|]. apply grown_mapped; [done|done|].
    rewrite Hbs. by replace (kk - 5) with (kk - 3 - 2) by lia.
  - rewrite (proj2 (Z.ltb_lt _ _)) by lia.
    set (j := (bn - NDIRECT)%nat). replace (Z.to_nat (Z.of_nat bn - Z.of_nat NDIRECT)) with j by (unfold j; lia).
    assert (Hbs : bslot bn = (S NDIRECT + j)%nat)
      by (unfold bslot, j; rewrite (proj2 (Nat.ltb_ge _ _)) by lia; lia).
    destruct (direct_ok meta q kk i NDIRECT ip s) as (ip1 & s1 & Hr1 & Hg1); try done; [lia|lia|].
    cbv zeta in Hr1 |- *. rewrite (bind_ok _ _ _ _ _ Hr1), (io_dev _ _ _ Hok).
    destruct (indirect_ok meta q (kk - 2) i j ip1 s1) as (s2 & Hr2 & Hg2);
      [apply Hg1|lia|apply Hg1..|unfold j, NDIRECT, NINDIRECT in *; lia|pose proof (gr_free _ _ _ _ _ _ _ _ _ Hg1); lia|].
    exists ip1, s2. rewrite Hbs. split; [exact Hr2|].
    eapply grown_twice; [done|done|lia|exact Hg1|]. rewrite Hbs. by replace (kk - 5) with (kk - 2 - 3) by lia.
Qed.

(** A block that the file has is found without a change to anything. *)
Lemma bmap_hit meta q kk i bn ip s :
  txn q [] kk s → 0 ≤ kk → inode_at i ip s → fs_ok meta s → inode_ok meta s ip →
  (bn < NDIRECT + NINDIRECT)%nat → slot s ip (bslot bn) ≠ 0 →
  ∃ s', bmap i (Z.of_nat bn) s = Ok (slot s ip (bslot bn)) s' ∧ touched q [] kk (block s) s s'.
Proof.
  intros Ht Hkk Hat Hfs Hok Hbn Hz. unfold bmap. rewrite (bind_ok _ _ _ _ _ (geti_at _ _ _ Hat)).
  destruct (Z.ltb_spec (Z.of_nat bn) (Z.of_nat NDIRECT)) as [Hd|Hd].
  - assert (Hbs : bslot bn = bn) by (unfold bslot; by rewrite (proj2 (Nat.ltb_lt _ _)) by lia).
    assert (Hs : slot s ip bn = nth bn (i_addrs ip) 0) by (unfold slot; by rewrite (proj2 (Nat.leb_le _ _)) by lia).
    rewrite Hbs, Hs in *. rewrite Nat2Z.id, (proj2 (Z.eqb_neq _ 0) Hz). exists s. split; [done|]. by apply touched_refl.
  - rewrite (proj2 (Z.ltb_lt _ _)) by lia.
    set (j := (bn - NDIRECT)%nat). replace (Z.to_nat (Z.of_nat bn - Z.of_nat NDIRECT)) with j by (unfold j; lia).
    assert (Hbs : bslot bn = (S NDIRECT + j)%nat)
      by (unfold bslot, j; rewrite (proj2 (Nat.ltb_ge _ _)) by lia; lia).
    rewrite Hbs in *. pose proof (slot_indirect s ip _ Hz ltac:(lia)) as Hia.
    assert (Hs : slot s ip NDIRECT = nth NDIRECT (i_addrs ip) 0) by (unfold slot; by rewrite (proj2 (Nat.leb_le _ _)) by lia).
    rewrite slot_entry in Hz |- * by done. rewrite Hs in *. cbv zeta.
    rewrite (proj2 (Z.eqb_neq _ 0) Hia), (bind_ok (ret _) _ _ _ _ eq_refl), (io_dev _ _ _ Hok).
    destruct (io_slot _ _ _ Hok NDIRECT ltac:(unfold NSLOT; lia)) as [Hr _]; [by rewrite Hs|].
    rewrite Hs in Hr. pose proof (fk_meta _ _ Hfs). destruct (fk_layout _ _ Hfs).
    destruct (bread_txn q [] kk s (nth NDIRECT (i_addrs ip) 0) Ht) as (bp & s1 & Hb & Ho);
      [lia|unfold in_disk; lia|simpl; lia|intros x Hx; by apply not_elem_of_nil in Hx|].
    rewrite (bind_ok _ _ _ _ _ Hb). unfold getb. rewrite (bind_ok (gets _) _ _ _ _ eq_refl).
    rewrite (op_data _ _ _ _ _ _ _ Ho), (proj2 (Z.eqb_neq _ 0) Hz).
    destruct (finish_read _ _ _ _ _ _ _ Ho) as (s2 & H2 & Ht2). exists s2.
    by rewrite (bind_ok (ret _) _ _ _ _ eq_refl), (bind_ok _ _ _ _ _ H2).
Qed.
End Inode.
