(* ===== verification/Content.v ===== *)
(** * Reading and writing files

    [readi] gives the bytes of a file, [writei] changes the bytes it is told to
    change, of this file only, and [readi] gives back what [writei] has
    written. *)

From S2P Require Import Prelude Bytes Kernel Cstring Sched Proc Waiting Sleeplock Bio Log Reserve.
From S2P Require Import Fs Dinode Txn Smallfs Blocks Inode.

(** ** The bytes of a file *)

Definition fbyte (s : kernel) (ip : inode) (o : Z) : Z :=
  nth (Z.to_nat (o mod BSIZE)) (contents s ip (Z.to_nat (o / BSIZE))) 0.

Definition fbytes (s : kernel) (ip : inode) (off n : Z) : list Z := fbyte s ip <$> seqZ off n.

(** Every block up to the size has a place on the disk. *)
Definition full (s : kernel) (ip : inode) : Prop :=
  ∀ bn, Z.of_nat bn * BSIZE < i_size ip → slot s ip (bslot bn) ≠ 0.

(** The blocks that [n] bytes at [off] lie in. *)
Definition nblk (off n : Z) : nat :=
  if n <=? 0 then 0 else S (Z.to_nat ((off + n - 1) / BSIZE - off / BSIZE)).

Lemma nblk_fuel off n : 0 ≤ off → (nblk off n < rw_fuel n)%nat.
Proof. intros Ho. unfold nblk, rw_fuel, BSIZE. destruct (Z.leb_spec n 0); [lia|]. Z.div_mod_to_equations. lia. Qed.

(** The bytes of one turn. *)
Definition chunk (off n : Z) : Z := Z.min n (BSIZE - off mod BSIZE).

Lemma chunk_range off n :
  0 < n → 0 < chunk off n ≤ n ∧ 0 ≤ off mod BSIZE ∧ off mod BSIZE + chunk off n ≤ BSIZE.
Proof. intros Hn. unfold chunk. pose proof (Z.mod_pos_bound off BSIZE ltac:(done)). lia. Qed.

Lemma nblk_chunk off n :
  0 ≤ off → 0 < n → nblk off n = S (nblk (off + chunk off n) (n - chunk off n)).
Proof.
  intros Ho Hn. unfold nblk, chunk, BSIZE. rewrite (proj2 (Z.leb_gt n 0)) by done. f_equal.
  destruct (Z.leb_spec (n - n `min` (512 - off mod 512)) 0); Z.div_mod_to_equations; lia.
Qed.

Lemma chunk_same off o n :
  off ≤ o < off + chunk off n → o / BSIZE = off / BSIZE ∧ o mod BSIZE = off mod BSIZE + (o - off).
Proof. unfold chunk, BSIZE. intros. split; Z.div_mod_to_equations; lia. Qed.

(** Off the chunk a byte is in another block, or elsewhere in the block. *)
Lemma fbytes_chunk s ip off n :
  0 < n → length (contents s ip (Z.to_nat (off / BSIZE))) = Z.to_nat BSIZE →
  fbytes s ip off n =
    slice (Z.to_nat (off mod BSIZE)) (Z.to_nat (chunk off n)) (contents s ip (Z.to_nat (off / BSIZE))) ++
    fbytes s ip (off + chunk off n) (n - chunk off n).
Proof.
  intros Hn Hlen. destruct (chunk_range off n Hn) as (Hc & Hm & Hb). unfold fbytes.
  replace n with (chunk off n + (n - chunk off n)) at 1 by lia. rewrite seqZ_app, fmap_app by lia. f_equal.
  apply list_eq. intros k. rewrite list_lookup_fmap.
  destruct (decide (k < Z.to_nat (chunk off n))%nat) as [Hk|Hk].
  - rewrite lookup_slice by done. rewrite (proj2 (lookup_seqZ _ _ _ (off + Z.of_nat k))) by lia. simpl.
    destruct (chunk_same off (off + Z.of_nat k) n ltac:(lia)) as [Hd Hmod].
    unfold fbyte. rewrite Hd, Hmod. replace (off + Z.of_nat k - off) with (Z.of_nat k) by lia.
    rewrite Z2Nat.inj_add, Nat2Z.id by lia. symmetry. rewrite nth_lookup.
    destruct (lookup_lt_is_Some_2 (contents s ip (Z.to_nat (off / BSIZE))) (Z.to_nat (off mod BSIZE) + k)%nat) as [x Hx];
      [lia|]. by rewrite Hx.
  - rewrite lookup_slice_ge by lia. rewrite lookup_seqZ_ge by lia. done.
Qed.

Lemma fbytes_nil s ip off n : n ≤ 0 → fbytes s ip off n = [].
Proof. intros Hn. unfold fbytes. by rewrite seqZ_nil. Qed.

Lemma fbytes_ext s ip s' ip' off n :
  (∀ o, off ≤ o < off + n → fbyte s' ip' o = fbyte s ip o) → fbytes s' ip' off n = fbytes s ip off n.
Proof. intros H. apply list_fmap_ext. intros k o Ho. apply lookup_seqZ in Ho. apply H. lia. Qed.

Lemma filter_in_iff {A} (P Q : A → Prop) `{!∀ x, Decision (P x)} `{!∀ x, Decision (Q x)} (l : list A) :
  (∀ x, x ∈ l → P x ↔ Q x) → filter P l = filter Q l.
Proof.
  induction l as [|x l IH]; [done|]. intros Hi. rewrite !filter_cons, IH by (intros y Hy; apply Hi; set_solver).
  pose proof (Hi x ltac:(set_solver)). destruct (decide (P x)), (decide (Q x)); tauto.
Qed.

#[local] Opaque acquire release.

Section Content.
Context {dk : Disk} {dv : Devsw}.

(** ** readi *)

Lemma contents_length meta q H kk s ip bn :
  txn q H kk s → fs_ok meta s → inode_ok meta s ip → (bn < NDIRECT + NINDIRECT)%nat →
  length (contents s ip bn) = Z.to_nat BSIZE.
Proof.
  intros Ht Hfs Hok Hbn. unfold contents. destruct (Z.eqb_spec (slot s ip (bslot bn)) 0) as [|Hz].
  - apply length_replicate.
  - destruct (io_slot _ _ _ Hok (bslot bn) (bslot_lt _ Hbn) Hz) as [Hr _].
    destruct (tx_bc _ _ _ _ Ht) as [xs Hbc], (fk_layout _ _ Hfs), Hfs. apply (bc_blk_length Hbc). lia.
Qed.

Lemma slot_bread meta q kk s ip bn :
  txn q [] kk s → 0 ≤ kk → fs_ok meta s → inode_ok meta s ip → (bn < NDIRECT + NINDIRECT)%nat →
  slot s ip (bslot bn) ≠ 0 →
  ∃ bp s1, bread 1 (slot s ip (bslot bn)) s = Ok bp s1 ∧ opened q (slot s ip (bslot bn)) [] kk s bp s1.
Proof.
  intros Ht Hkk Hfs Hok Hbn Hz. destruct (io_slot _ _ _ Hok (bslot bn) (bslot_lt _ Hbn) Hz) as [Hr _].
  pose proof (fk_meta _ _ Hfs). destruct (fk_layout _ _ Hfs).
  apply (bread_txn q [] kk s _ Ht Hkk); [unfold in_disk; lia|simpl; lia|].
  intros x Hx. by apply not_elem_of_nil in Hx.
Qed.

Lemma bn_range off n sz :
  0 ≤ off → 0 < n → off + n ≤ sz → sz ≤ MAXFILE * BSIZE →
  (Z.to_nat (off / BSIZE) < NDIRECT + NINDIRECT)%nat ∧ Z.of_nat (Z.to_nat (off / BSIZE)) * BSIZE < sz ∧
  off / BSIZE = Z.of_nat (Z.to_nat (off / BSIZE)).
Proof. unfold BSIZE, MAXFILE, NDIRECT, NINDIRECT. intros. split_and!; Z.div_mod_to_equations; lia. Qed.

Lemma contents_same s s' ip bn : (∀ m, block s' m = block s m) → contents s' ip bn = contents s ip bn.
Proof.
  intros Hb. unfold contents. rewrite (slot_block s s') by done. by rewrite Hb.
Qed.

Lemma readi_loop_ok meta q kk i ip fuel : ∀ off n s,
  txn q [] kk s → 0 ≤ kk → inode_at i ip s → fs_ok meta s → inode_ok meta s ip → full s ip →
  0 ≤ off → off + n ≤ i_size ip → i_size ip ≤ MAXFILE * BSIZE → (nblk off n < fuel)%nat →
  ∃ s', readi_loop fuel i off n s = Ok (fbytes s ip off n) s' ∧ touched q [] kk (block s) s s'.
Proof.
  induction fuel as [|fuel IH]; [lia|]. intros off n s Ht Hkk Hat Hfs Hok Hfull Ho Hn Hsz Hf.
  cbn [readi_loop]. destruct (Z.leb_spec n 0) as [Hn0|Hn0].
  { exists s. rewrite fbytes_nil by done. split; [done|]. by apply touched_refl. }
  destruct (bn_range off n _ Ho Hn0 Hn Hsz) as (Hbn & Hlt & Hbz). set (bn := Z.to_nat (off / BSIZE)) in *.
  rewrite (bind_ok _ _ _ _ _ (geti_at _ _ _ Hat)), (io_dev _ _ _ Hok), Hbz.
  destruct (bmap_hit meta q kk i bn ip s) as (s1 & Hm & [Ht1 Hbl1 Hv1 Hst1]); [by try apply Hfull..|].
  rewrite (bind_ok _ _ _ _ _ Hm). pose proof (fstep_sb _ _ Hst1) as Hsb1.
  assert (Hsl1 : ∀ k, slot s1 ip k = slot s ip k) by (intros k; by apply slot_block).
  destruct (slot_bread meta q kk s1 ip bn Ht1 Hkk) as (bp & s2 & Hb & Hop);
    [by eapply fs_ok_same; [|..|apply (fstep_disk _ _ Hst1)|]|by eapply inode_ok_same|done|rewrite Hsl1; by apply Hfull|].
  rewrite Hsl1 in Hb, Hop. rewrite (bind_ok _ _ _ _ _ Hb). unfold getb.
  rewrite (bind_ok (gets _) _ _ _ _ eq_refl). rewrite (op_data _ _ _ _ _ _ _ Hop), Hbl1.
  destruct (finish_read _ _ _ _ _ _ _ Hop) as (s3 & H3 & [Ht3 Hbl3 Hv3 Hst3]).
  rewrite (bind_ok _ _ _ _ _ H3). fold (chunk off n).
  assert (Hst : fstep s s3) by (by etransitivity).
  assert (Hbl : ∀ m, block s3 m = block s m) by (intros m; by rewrite Hbl3, Hbl1).
  destruct (chunk_range off n Hn0) as (Hc & Hmo & Hcb).
  destruct (IH (off + chunk off n) (n - chunk off n) s3) as (s4 & H4 & Hto4); try done; try lia.
  - unfold inode_at. by rewrite (fstep_icache _ _ Hst).
  - eapply fs_ok_same; try done; [apply (fstep_sb _ _ Hst)|apply (fstep_disk _ _ Hst)].
  - eapply inode_ok_same; try done. apply (fstep_sb _ _ Hst).
  - intros b Hb'. rewrite (slot_block s s3) by done. by apply Hfull.
  - rewrite (nblk_chunk off n) in Hf by lia. lia.
  - rewrite (bind_ok _ _ _ _ _ H4). exists s4. split.
    + unfold ret. f_equal. rewrite (fbytes_chunk s ip off n Hn0) by (by eapply contents_length).
      fold bn. f_equal.
      * f_equal. unfold contents. by rewrite (proj2 (Z.eqb_neq _ 0)) by (by apply Hfull).
      * apply fbytes_ext. intros o _. unfold fbyte. by rewrite (contents_same s s3).
    + destruct Hto4 as [Ht4 Hbl4 _ Hst4]. split; [done| |intros x Hx; by apply not_elem_of_nil in Hx|by etransitivity].
      intros m. by rewrite Hbl4.
Qed.

(** What [readi] gives for [n] bytes at [off] of a file of size [sz]. *)
Definition clipped (sz off n : Z) : Z := if sz <? off + n then sz - off else n.

Lemma s32_file n : 0 ≤ n ≤ MAXFILE * BSIZE → s32 n = n.
Proof. intros H. apply s32_small. unfold MAXFILE, BSIZE, is_s32 in *. lia. Qed.

Lemma readi_ok meta q kk i ip off n s :
  txn q [] kk s → 0 ≤ kk → inode_at i ip s → fs_ok meta s → inode_ok meta s ip → full s ip →
  i_type ip ≠ T_DEV → 0 ≤ off ≤ i_size ip → i_size ip ≤ MAXFILE * BSIZE → 0 ≤ n → off + n < 2 ^ 32 →
  ∃ s', readi i off n s = Ok (clipped (i_size ip) off n, fbytes s ip off (clipped (i_size ip) off n)) s' ∧
    touched q [] kk (block s) s s'.
Proof.
  intros Ht Hkk Hat Hfs Hok Hfull Hdev Ho Hsz Hn Hov. unfold readi.
  rewrite (bind_ok _ _ _ _ _ (geti_at _ _ _ Hat)), (proj2 (Z.eqb_neq _ _) Hdev).
  rewrite u32_small by (unfold is_u32; lia). rewrite (proj2 (Z.ltb_ge _ _)), (proj2 (Z.ltb_ge _ _)) by lia.
  cbn [orb]. cbv zeta. fold (clipped (i_size ip) off n).
  assert (Hc : 0 ≤ clipped (i_size ip) off n ∧ off + clipped (i_size ip) off n ≤ i_size ip).
  { unfold clipped. destruct (Z.ltb_spec (i_size ip) (off + n)); lia. }
  destruct (readi_loop_ok meta q kk i ip (rw_fuel (clipped (i_size ip) off n)) off (clipped (i_size ip) off n) s)
    as (s' & Hr & Hto); try done; [lia|lia|apply nblk_fuel; lia|].
  exists s'. rewrite (bind_ok _ _ _ _ _ Hr). unfold ret. by rewrite s32_file by lia.
Qed.

(** ** writei *)

(** New contents [d] for block [bn] of the file. *)
Lemma data_touched meta q kk s s' ip bn d :
  inode_ok meta s ip → fs_ok meta s → (bn < NDIRECT + NINDIRECT)%nat → slot s ip (bslot bn) ≠ 0 →
  touched q [] kk (upd (slot s ip (bslot bn)) d (block s)) s s' →
  fs_ok meta s' ∧ inode_ok meta s' ip ∧ (∀ k, slot s' ip k = slot s ip k) ∧
  (∀ m, 0 ≤ m < sb_size (sb s) → used s' m = used s m) ∧ nfree s' = nfree s ∧
  (∀ bn', (bn' < NDIRECT + NINDIRECT)%nat →
     contents s' ip bn' = if decide (bn' = bn) then d else contents s ip bn').
Proof.
  intros Hok Hfs Hbn Hz [_ Hbl _ Hst]. pose proof (fstep_sb _ _ Hst) as Hsb. pose proof (fstep_disk _ _ Hst) as Hdk.
  destruct (io_slot _ _ _ Hok (bslot bn) (bslot_lt _ Hbn) Hz) as [Hr _].
  assert (Hu : ∀ m, 0 ≤ m < sb_size (sb s) → used s' m = used s m).
  { intros m Hm. unfold used. rewrite Hsb, Hbl. unfold upd. rewrite decide_False; [done|].
    destruct (BBLOCK_eq _ _ _ m (fk_layout _ _ Hfs) Hm). lia. }
  assert (Hsl : ∀ k, slot s' ip k = slot s ip k).
  { intros k. apply slot_block. intros Hi. rewrite Hbl. unfold upd. rewrite decide_False; [done|].
    intros He. apply (bslot_ne bn). symmetry. apply (io_inj _ _ _ Hok); [unfold NSLOT; lia|by apply bslot_lt| |];
      unfold slot at 1; by rewrite (proj2 (Nat.leb_le _ _)) by done. }
  split_and!; try done.
  - destruct Hfs as [Hly Hm0 Hmu]. split; [by rewrite Hsb, Hdk|done|]. intros m Hm.
    rewrite Hu by (destruct Hly; lia). by apply Hmu.
  - destruct Hok as [Hl Hd Hs Hi]. pose proof (fk_meta _ _ Hfs). split; [done|done|..].
    + intros k Hk Hk0. rewrite Hsl in *. rewrite Hsb. destruct (Hs k Hk Hk0). rewrite Hu by lia. done.
    + intros k k' Hk Hk'. rewrite !Hsl. by apply Hi.
  - unfold nfree. rewrite Hsb. f_equal. apply filter_in_iff. intros m Hm.
    apply elem_of_seqZ in Hm. by rewrite Hu by lia.
  - intros bn' Hbn'. unfold contents. rewrite Hsl. case_decide as Heq.
    + subst bn'. rewrite (proj2 (Z.eqb_neq _ 0) Hz), Hbl. unfold upd. by rewrite decide_True.
    + destruct (Z.eqb_spec (slot s ip (bslot bn')) 0) as [|Hz']; [done|]. rewrite Hbl. unfold upd.
      rewrite decide_False; [done|]. intros He. apply Heq, bslot_inj.
      by apply (io_inj _ _ _ Hok); [apply bslot_lt..| |].
Qed.

(** The bytes [src] have been written at [off] of the file.  Blocks in use that
    the file did not have keep their contents; a block that the file has now
    and had not was free. *)
Record filled (meta q kk : Z) (i : nat) (off : Z) (src : list Z) (ip : inode) (s : kernel)
    (ip' : inode) (s' : kernel) : Prop := {
  wr_txn : txn q [] kk s';
  wr_at : inode_at i ip' s';
  wr_fs : fs_ok meta s';
  wr_ok : inode_ok meta s' ip';
  wr_ip : ip' = ip <| i_addrs := i_addrs ip' |>;
  wr_bytes : ∀ o, 0 ≤ o < MAXFILE * BSIZE →
    fbyte s' ip' o = if decide (off ≤ o < off + Z.of_nat (length src)) then nth (Z.to_nat (o - off)) src 0
                     else fbyte s ip o;
  wr_kept : ∀ bn, (bn < NDIRECT + NINDIRECT)%nat → slot s ip (bslot bn) ≠ 0 →
    slot s' ip' (bslot bn) = slot s ip (bslot bn);
  wr_slot : ∀ o, off ≤ o < off + Z.of_nat (length src) → slot s' ip' (bslot (Z.to_nat (o / BSIZE))) ≠ 0;
  wr_same : (∀ o, off ≤ o < off + Z.of_nat (length src) → slot s ip (bslot (Z.to_nat (o / BSIZE))) ≠ 0) → ip' = ip;
  wr_fresh : ∀ k, (k < NSLOT)%nat → slot s' ip' k ≠ slot s ip k → used s (slot s' ip' k) = false;
  wr_block : ∀ m, m < sb_bmapstart (sb s) ∨ (meta ≤ m < sb_size (sb s) ∧ used s m = true) →
    (∀ k, (k < NSLOT)%nat → slot s ip k ≠ 0 → slot s ip k ≠ m) → block s' m = block s m;
  wr_used : ∀ m, 0 ≤ m < sb_size (sb s) → used s m = true → used s' m = true;
  wr_step : istep i s s' }.

(** [bmap] in the form the loop uses it. *)
Lemma bmap_write meta q kk i bn ip s :
  txn q [] kk s → 5 ≤ kk → inode_at i ip s → fs_ok meta s → inode_ok meta s ip →
  (bn < NDIRECT + NINDIRECT)%nat → (2 ≤ nfree s)%nat →
  ∃ ip' s', bmap i (Z.of_nat bn) s = Ok (slot s' ip' (bslot bn)) s' ∧
    mapped meta q (kk - 5) i bn ip s ip' s' ∧ (slot s ip (bslot bn) ≠ 0 → ip' = ip).
Proof.
  intros Ht Hkk Hat Hfs Hok Hbn Hfree. destruct (decide (slot s ip (bslot bn) = 0)) as [Hz|Hz].
  - destruct (bmap_ok meta q kk i bn ip s) as (ip' & s' & Hr & Hm); try done. exists ip', s'. by split_and!.
  - destruct (bmap_hit meta q kk i bn ip s) as (s' & Hr & Hto); try done; [lia|].
    exists ip, s'. rewrite (slot_block s s') by (intros _; apply Hto). split_and!; [done| |done].
    apply grown_mapped; [done|done|]. eapply grown_read; try done. lia.
Qed.

(** A byte of a file in terms of the blocks. *)
Lemma fbyte_splice s ip s' ip' off n src :
  0 ≤ off → 0 < n → off + n ≤ MAXFILE * BSIZE → Z.of_nat (length src) = chunk off n →
  length (contents s ip (Z.to_nat (off / BSIZE))) = Z.to_nat BSIZE →
  (∀ bn, (bn < NDIRECT + NINDIRECT)%nat → contents s' ip' bn =
     if decide (bn = Z.to_nat (off / BSIZE)) then splice (Z.to_nat (off mod BSIZE)) src (contents s ip bn)
     else contents s ip bn) →
  ∀ o, 0 ≤ o < MAXFILE * BSIZE →
    fbyte s' ip' o = if decide (off ≤ o < off + Z.of_nat (length src)) then nth (Z.to_nat (o - off)) src 0
                     else fbyte s ip o.
Proof.
  intros Ho Hn Hmax Hlen Hcl Hc o Hoo. destruct (chunk_range off n Hn) as (H1 & H2 & H3). unfold fbyte.
  rewrite Hc by (unfold MAXFILE, BSIZE, NDIRECT, NINDIRECT in *; Z.div_mod_to_equations; lia).
  destruct (decide (off ≤ o < off + Z.of_nat (length src))) as [Hin|Hout].
  - destruct (chunk_same off o n ltac:(lia)) as [Hd Hmod]. rewrite Hd, decide_True by done.
    rewrite !nth_lookup, lookup_splice by lia. rewrite decide_True by lia. do 2 f_equal. lia.
  - destruct (decide (Z.to_nat (o / BSIZE) = Z.to_nat (off / BSIZE))) as [He|He]; [|done].
    rewrite !nth_lookup, lookup_splice by (rewrite He; lia). rewrite decide_False; [done|].
    assert (o / BSIZE = off / BSIZE) by (unfold BSIZE in *; Z.div_mod_to_equations; lia).
    intros Hb. apply Hout. unfold BSIZE in *. Z.div_mod_to_equations. lia.
Qed.

Lemma bind3_ok {A} (a b c : KM unit) (K : KM A) s s' :
  (a ;; b ;; c) s = Ok tt s' → (a ;; b ;; c ;; K) s = K s'.
Proof. unfold bind. destruct (a s) as [? s1| |]; [|done..]. destruct (b s1) as [? s2| |]; [|done..]. by intros ->. Qed.

(** Blocks that are not the file's are not touched by a change of its data. *)
Lemma mapped_others meta q kk i bn ip s ip1 s1 m :
  mapped meta q kk i bn ip s ip1 s1 → fs_ok meta s → (bn < NDIRECT + NINDIRECT)%nat →
  m < sb_bmapstart (sb s) ∨ (meta ≤ m < sb_size (sb s) ∧ used s m = true) →
  (∀ k, (k < NSLOT)%nat → slot s ip k ≠ 0 → slot s ip k ≠ m) → m ≠ slot s1 ip1 (bslot bn).
Proof.
  intros Hmp Hfs Hbn Hm Hk ->. pose proof (mp_slot _ _ _ _ _ _ _ _ _ Hmp) as Hz.
  pose proof (bslot_lt _ Hbn) as Hlt.
  destruct (io_slot _ _ _ (mp_ok _ _ _ _ _ _ _ _ _ Hmp) _ Hlt Hz) as [Hr _].
  rewrite (istep_sb _ _ _ (mp_step _ _ _ _ _ _ _ _ _ Hmp)) in Hr.
  destruct (decide (slot s1 ip1 (bslot bn) = slot s ip (bslot bn))) as [He|He].
  - apply (Hk _ Hlt); congruence.
  - pose proof (mp_fresh _ _ _ _ _ _ _ _ _ Hmp _ Hlt He) as Hf. destruct Hm as [Hm|[_ Hm]]; [|congruence].
    destruct (fk_layout _ _ Hfs) as [_ _ Hb Hbs _ _]. pose proof (fk_meta _ _ Hfs).
    specialize (Hbs 0 ltac:(lia)). rewrite Zdiv_0_l in Hbs. lia.
Qed.

(** One turn of the loop. *)
Lemma writei_turn meta q kk i ip s off n src :
  txn q [] kk s → 6 ≤ kk → inode_at i ip s → fs_ok meta s → inode_ok meta s ip → (2 ≤ nfree s)%nat →
  0 ≤ off → 0 < n → off + n ≤ MAXFILE * BSIZE → Z.of_nat (length src) = chunk off n →
  ∃ ip' s', filled meta q (kk - 6) i off src ip s ip' s' ∧ (nfree s ≤ nfree s' + 2)%nat ∧
    ∀ A (K : KM A),
      (a ← bmap i (off / BSIZE);
       bp ← bread 1 a;
       setdata bp (splice (Z.to_nat (off mod BSIZE)) src) ;;
       log_write bp ;;
       brelse bp ;;
       K) s = K s'.
Proof.
  intros Ht Hkk Hat Hfs Hok Hfree Ho Hn Hmax Hlen.
  destruct (bn_range off n _ Ho Hn Hmax ltac:(done)) as (Hbn & _ & Hbz). set (bn := Z.to_nat (off / BSIZE)) in *.
  destruct (bmap_write meta q kk i bn ip s) as (ip1 & s1 & Hr & Hmp & Hsame); try done; [lia|].
  destruct Hmp as [Ht1 Hat1 Hfs1 Hok1 Hip1 Hz1 Hkept1 Hcont1 Hblk1 Hfr1 Hu1 Hnf1 Hst1] eqn:Emp. clear Emp.
  destruct (slot_bread meta q (kk - 5) s1 ip1 bn) as (bp & s2 & Hb & Hop); try done; [lia|].
  pose proof (contents_length meta q [] _ s1 ip1 bn Ht1 Hfs1 Hok1 Hbn) as Hcl.
  assert (Hcb : contents s1 ip1 bn = block s1 (slot s1 ip1 (bslot bn)))
    by (unfold contents; by rewrite (proj2 (Z.eqb_neq _ 0) Hz1)).
  destruct (chunk_range off n Hn) as (Hc1 & Hc2 & Hc3).
  destruct (finish_update q _ [] (kk - 5) s1 bp s2 (splice (Z.to_nat (off mod BSIZE)) src) Hop) as (s3 & H3 & Hto3);
    [lia|rewrite <-Hcb, length_splice; [done|lia]|].
  destruct (data_touched meta q _ s1 s3 ip1 bn _ Hok1 Hfs1 Hbn Hz1 Hto3) as (Hfs3 & Hok3 & Hsl3 & Hu3 & Hnf3 & Hc3').
  destruct Hto3 as [Ht3 Hbl3 _ Hst3]. pose proof (istep_sb _ _ _ Hst1) as Hsb1.
  assert (Hat3 : inode_at i ip1 s3) by (unfold inode_at; by rewrite (fstep_icache _ _ Hst3)).
  exists ip1, s3. split; [split; try done|split; [lia|]].
  - by replace (kk - 6) with (kk - 5 - 1) by lia.
  - apply (fbyte_splice s ip s3 ip1 off n src); try done; [by rewrite <-Hcont1|].
    intros b Hb'. rewrite Hc3' by done. fold bn. destruct (decide (b = bn)) as [->|]; [|by apply Hcont1].
    by rewrite <-Hcb, Hcont1.
  - intros b Hb' Hz. rewrite Hsl3. by apply Hkept1.
  - intros o Hoo. destruct (chunk_same off o n ltac:(lia)) as [-> _]. fold bn. by rewrite Hsl3.
  - intros Hall. apply Hsame. apply (Hall off). lia.
  - intros k Hk. rewrite Hsl3. by apply Hfr1.
  - intros m Hm Hk. rewrite Hbl3. unfold upd. rewrite decide_False by (by eapply mapped_others).
    apply Hblk1; [done|]. intros Hz ->. apply (Hk NDIRECT); [unfold NSLOT; lia|done|done].
  - intros m Hm Hu. rewrite Hu3 by (by rewrite Hsb1). by apply Hu1.
  - eapply istep_trans; [done|]. by eapply istep_fstep.
  - intros A K. rewrite Hbz, (bind_ok _ _ _ _ _ Hr), (bind_ok _ _ _ _ _ Hb).
    by apply bind3_ok.
Qed.

Lemma filled_nil meta q kk i off ip s :
  txn q [] kk s → inode_at i ip s → fs_ok meta s → inode_ok meta s ip → filled meta q kk i off [] ip s ip s.
Proof.
  intros Ht Hat Hfs Hok. split; try done.
  - by destruct ip.
  - intros o _. rewrite decide_False; [done|simpl; lia].
  - simpl. lia.
  - by eapply istep_refl.
Qed.

(** A free block that one write gave to the file was free before an earlier one. *)
Lemma filled_free meta q kk i off src ip s ip1 s1 ip2 s2 k :
  filled meta q kk i off src ip s ip1 s1 → fs_ok meta s → inode_ok meta s2 ip2 → sb s2 = sb s1 →
  (k < NSLOT)%nat → used s1 (slot s2 ip2 k) = false → used s (slot s2 ip2 k) = false.
Proof.
  intros H1 Hfs Hok2 Hsb Hk Hf. destruct (used s _) eqn:Hu; [|done].
  pose proof (istep_sb _ _ _ (wr_step _ _ _ _ _ _ _ _ _ _ H1)) as Hsb1. pose proof (fk_meta _ _ Hfs).
  destruct (decide (slot s2 ip2 k = 0)) as [Hz|Hz].
  - rewrite Hz, (fk_used _ _ (wr_fs _ _ _ _ _ _ _ _ _ _ H1)) in Hf; [done|lia].
  - destruct (io_slot _ _ _ Hok2 k Hk Hz) as [Hr _]. rewrite Hsb, Hsb1 in Hr.
    by rewrite (wr_used _ _ _ _ _ _ _ _ _ _ H1) in Hf by (done || lia).
Qed.

Lemma filled_trans meta q k1 k2 i off src1 src2 ip s ip1 s1 ip2 s2 :
  fs_ok meta s → inode_ok meta s ip → 0 ≤ off → off + Z.of_nat (length src1 + length src2) ≤ MAXFILE * BSIZE →
  filled meta q k1 i off src1 ip s ip1 s1 →
  filled meta q k2 i (off + Z.of_nat (length src1)) src2 ip1 s1 ip2 s2 →
  filled meta q k2 i off (src1 ++ src2) ip s ip2 s2.
Proof.
  intros Hfs Hok Ho Hmax H1 [T2 At2 F2 O2 I2 B2 K2 S2' Sm2 Fr2 Bl2 U2 St2].
  pose proof (istep_sb _ _ _ (wr_step _ _ _ _ _ _ _ _ _ _ H1)) as Hsb1.
  assert (Hbn : ∀ o, off ≤ o < off + Z.of_nat (length src1 + length src2) →
                     (Z.to_nat (o / BSIZE) < NDIRECT + NINDIRECT)%nat).
  { intros o Hoo. unfold MAXFILE, BSIZE, NDIRECT, NINDIRECT in *. Z.div_mod_to_equations. lia. }
  split; try done; rewrite ?length_app.
  - by rewrite I2, (wr_ip _ _ _ _ _ _ _ _ _ _ H1).
  - intros o Hoo. rewrite B2, (wr_bytes _ _ _ _ _ _ _ _ _ _ H1) by done.
    repeat case_decide; try lia; try done.
    + rewrite app_nth2 by lia. f_equal. lia.
    + by rewrite app_nth1 by lia.
  - intros bn Hb Hz. pose proof (wr_kept _ _ _ _ _ _ _ _ _ _ H1 bn Hb Hz) as He.
    rewrite <-He. apply K2; [done|by rewrite He].
  - intros o Hoo. destruct (decide (off + Z.of_nat (length src1) ≤ o)); [apply S2'; lia|].
    pose proof (wr_slot _ _ _ _ _ _ _ _ _ _ H1 o ltac:(lia)) as Hz. rewrite K2; [done|apply Hbn; lia|done].
  - intros Hall. assert (ip1 = ip) as -> by (apply (wr_same _ _ _ _ _ _ _ _ _ _ H1); intros; apply Hall; lia).
    apply Sm2. intros o Hoo. rewrite (wr_kept _ _ _ _ _ _ _ _ _ _ H1); [|apply Hbn; lia|]; apply Hall; lia.
  - intros k Hk Hne. destruct (decide (slot s2 ip2 k = slot s1 ip1 k)) as [He|Hne2].
    + rewrite He in *. by apply (wr_fresh _ _ _ _ _ _ _ _ _ _ H1).
    + eapply filled_free; try done; [apply (istep_sb _ _ _ St2)|by apply Fr2].
  - intros m Hm Hk. rewrite Bl2; [by apply (wr_block _ _ _ _ _ _ _ _ _ _ H1)|..].
    + rewrite Hsb1. destruct Hm as [|[Hm Hu]]; [by left|right]. split; [done|].
      apply (wr_used _ _ _ _ _ _ _ _ _ _ H1); [pose proof (fk_meta _ _ Hfs); lia|done].
    + intros k Hlt Hz <-. destruct (decide (slot s1 ip1 k = slot s ip k)) as [He|He].
      * apply (Hk k Hlt); congruence.
      * pose proof (wr_fresh _ _ _ _ _ _ _ _ _ _ H1 k Hlt He) as Hf. destruct Hm as [Hm|[_ Hm]]; [|congruence].
        destruct (io_slot _ _ _ (wr_ok _ _ _ _ _ _ _ _ _ _ H1) k Hlt Hz) as [Hr _]. rewrite Hsb1 in Hr.
        destruct (fk_layout _ _ Hfs) as [_ _ Hb Hbs _ _]. pose proof (fk_meta _ _ Hfs).
        specialize (Hbs 0 ltac:(lia)). rewrite Zdiv_0_l in Hbs. lia.
  - intros m Hm Hu. apply U2; [by rewrite Hsb1|]. by apply (wr_used _ _ _ _ _ _ _ _ _ _ H1).
  - eapply istep_trans; [apply H1|done].
Qed.

Lemma writei_loop_ok meta q i fuel : ∀ kk ip s off n src,
  txn q [] kk s → 6 * Z.of_nat (nblk off n) ≤ kk → inode_at i ip s → fs_ok meta s → inode_ok meta s ip →
  (2 * nblk off n ≤ nfree s)%nat → 0 ≤ off → 0 ≤ n → off + n ≤ MAXFILE * BSIZE →
  Z.of_nat (length src) = n → (nblk off n < fuel)%nat →
  ∃ ip' s', writei_loop fuel i src off n s = Ok (off + n) s' ∧
    filled meta q (kk - 6 * Z.of_nat (nblk off n)) i off src ip s ip' s'.
Proof.
  induction fuel as [|fuel IH]; [lia|]. intros kk ip s off n src Ht Hkk Hat Hfs Hok Hfree Ho Hn Hmax Hlen Hf.
  cbn [writei_loop]. destruct (Z.leb_spec n 0) as [Hn0|Hn0].
  { exists ip, s. assert (n = 0) as -> by lia. destruct src; [|simpl in Hlen; lia].
    split; [unfold ret; f_equal; lia|]. apply filled_nil; try done. eapply txn_weaken; [done|lia]. }
  rewrite (bind_ok _ _ _ _ _ (geti_at _ _ _ Hat)), (io_dev _ _ _ Hok). cbv zeta. fold (chunk off n).
  destruct (chunk_range off n Hn0) as (Hc & _ & _). rewrite (nblk_chunk off n) in Hkk, Hfree, Hf |- * by done.
  set (c := chunk off n) in *.
  assert (Hl1 : length (take (Z.to_nat c) src) = Z.to_nat c) by (rewrite length_take; lia).
  assert (Hl2 : length (drop (Z.to_nat c) src) = Z.to_nat (n - c)) by (rewrite length_drop; lia).
  destruct (writei_turn meta q kk i ip s off n (take (Z.to_nat c) src)) as (ip1 & s1 & Hw & Hnf & Hrun);
    try done; [lia|lia|unfold c in *; lia|].
  rewrite Hrun.
  destruct (IH (kk - 6) ip1 s1 (off + c) (n - c) (drop (Z.to_nat c) src)) as (ip2 & s2 & Hr & Hw2);
    [apply Hw|lia|apply Hw..|lia|lia|lia|lia|lia|lia|].
  exists ip2, s2. split; [rewrite Hr; f_equal; lia|].
  rewrite <-(take_drop (Z.to_nat c) src). eapply filled_trans; [done|done|done|lia|exact Hw|].
  rewrite Hl1. replace (off + Z.of_nat (Z.to_nat c)) with (off + c) by lia.
  by replace (kk - 6 * Z.of_nat (S (nblk (off + c) (n - c)))) with (kk - 6 - 6 * Z.of_nat (nblk (off + c) (n - c))) by lia.
Qed.

(** ** The inode on the disk *)

Definition iblock (s : kernel) (ip : inode) : Z := IBLOCK (i_inum ip) (sb s).

(** A file in order: its blocks, no holes, a legal size, and its inode on the
    disk is the one in memory. *)
Record file_ok (meta : Z) (s : kernel) (ip : inode) : Prop := {
  fo_inode : inode_ok meta s ip;
  fo_full : full s ip;
  fo_size : 0 ≤ i_size ip ≤ MAXFILE * BSIZE;
  fo_inum : 0 ≤ i_inum ip < sb_ninodes (sb s);
  fo_stored : load_dinode (inode_off (i_inum ip)) (block s (iblock s ip)) ip = ip }.

Lemma iblock_range meta s ip :
  fs_ok meta s → 0 ≤ i_inum ip < sb_ninodes (sb s) → 0 ≤ iblock s ip < sb_bmapstart (sb s) ∧ sb_bmapstart (sb s) < meta.
Proof.
  intros Hfs Hi. pose proof (fk_meta _ _ Hfs). pose proof (fk_layout _ _ Hfs) as Hly.
  assert (Hb : sb_bmapstart (sb s) < meta).
  { pose proof (ly_bmaps _ _ _ Hly 0 ltac:(destruct Hly; lia)) as Hb. by rewrite Zdiv_0_l, Z.add_0_r in Hb. }
  split; [|done]. by destruct (IBLOCK_eq _ _ _ _ Hly Hi Hb).
Qed.

Lemma inode_off_fits i : (inode_off i + DINODE ≤ Z.to_nat BSIZE)%nat.
Proof.
  unfold inode_off, DINODE. pose proof (Z.mod_pos_bound i IPB ltac:(done)). unfold IPB, BSIZE in *. lia.
Qed.

Lemma iupdate_ok meta q kk i ip s :
  txn q [] kk s → 1 ≤ kk → inode_at i ip s → fs_ok meta s → i_dev ip = 1 → 0 ≤ i_inum ip < sb_ninodes (sb s) →
  ∃ s', iupdate i s = Ok tt s' ∧
    touched q [] (kk - 1)
      (upd (iblock s ip) (store_dinode (inode_off (i_inum ip)) ip (block s (iblock s ip))) (block s)) s s'.
Proof.
  intros Ht Hkk Hat Hfs Hdev Hi. destruct (iblock_range meta s ip Hfs Hi) as [Hib Hbm].
  unfold iupdate. rewrite (bind_ok _ _ _ _ _ (geti_at _ _ _ Hat)), (bind_ok (gets sb) _ _ _ _ eq_refl), Hdev.
  fold (iblock s ip). destruct (fk_layout _ _ Hfs).
  destruct (bread_txn q [] kk s (iblock s ip) Ht) as (bp & s1 & Hb & Hop);
    [lia|unfold in_disk; lia|simpl; lia|intros x Hx; by apply not_elem_of_nil in Hx|].
  rewrite (bind_ok _ _ _ _ _ Hb). apply (finish_update q _ [] kk s bp s1 _ Hop); [lia|].
  destruct (tx_bc _ _ _ _ Ht) as [xs Hbc].
  assert (Hl : length (block s (iblock s ip)) = Z.to_nat BSIZE) by (apply (bc_blk_length Hbc); lia).
  rewrite length_store_dinode; [done|]. rewrite Hl. apply inode_off_fits.
Qed.

(** A change below the bitmap does not touch files and the bitmap. *)
Lemma low_touched meta q kk s s' ip n d :
  fs_ok meta s → inode_ok meta s ip → n < sb_bmapstart (sb s) → sb_bmapstart (sb s) < meta →
  touched q [] kk (upd n d (block s)) s s' →
  fs_ok meta s' ∧ inode_ok meta s' ip ∧ (∀ k, (k < NSLOT)%nat → slot s' ip k = slot s ip k) ∧
  (∀ m, 0 ≤ m < sb_size (sb s) → used s' m = used s m) ∧
  (∀ bn, (bn < NDIRECT + NINDIRECT)%nat → contents s' ip bn = contents s ip bn).
Proof.
  intros Hfs Hok Hn Hbm [_ Hbl _ Hst]. pose proof (fstep_sb _ _ Hst) as Hsb. pose proof (fstep_disk _ _ Hst) as Hdk.
  pose proof (fk_meta _ _ Hfs) as Hm0.
  assert (Hu : ∀ m, 0 ≤ m < sb_size (sb s) → used s' m = used s m).
  { intros m Hm. unfold used. rewrite Hsb, Hbl. unfold upd. rewrite decide_False; [done|].
    destruct (BBLOCK_eq _ _ _ m (fk_layout _ _ Hfs) Hm) as [He _].
    assert (0 ≤ m / BPB) by (apply Z.div_pos; [lia|done]). lia. }
  assert (Hdata : ∀ k, (k < NSLOT)%nat → slot s ip k ≠ 0 → block s' (slot s ip k) = block s (slot s ip k)).
  { intros k Hk Hz. destruct (io_slot _ _ _ Hok k Hk Hz) as [Hr _]. rewrite Hbl. unfold upd.
    by rewrite decide_False by lia. }
  assert (Hsl : ∀ k, (k < NSLOT)%nat → slot s' ip k = slot s ip k).
  { intros k Hk. apply slot_block. intros Hz. specialize (Hdata NDIRECT ltac:(unfold NSLOT; lia)).
    unfold slot in Hdata. rewrite (proj2 (Nat.leb_le NDIRECT NDIRECT)) in Hdata by done. by apply Hdata. }
  split_and!; try done.
  - destruct Hfs as [Hly _ Hmu]. split; [by rewrite Hsb, Hdk|done|]. intros m Hm.
    rewrite Hu by (destruct Hly; lia). by apply Hmu.
  - destruct Hok as [Hl Hd Hs Hi]. split; [done|done|..].
    + intros k Hk. rewrite Hsl by done. intros Hz. rewrite Hsb. destruct (Hs k Hk Hz). rewrite Hu by lia. done.
    + intros k k' Hk Hk'. rewrite !Hsl by done. by apply Hi.
  - intros bn Hbn. unfold contents. rewrite Hsl by (by apply bslot_lt).
    destruct (Z.eqb_spec (slot s ip (bslot bn)) 0); [done|]. apply Hdata; [by apply bslot_lt|done].
Qed.

(** ** The whole of writei *)

(** [src] has been written at [off]: the bytes of the file and its size, and
    what is left alone: data blocks of other files, blocks below the bitmap, the
    other inodes in the inode's block. *)
Record file_written (meta q kk : Z) (i : nat) (off : Z) (src : list Z) (ip : inode) (s : kernel)
    (ip' : inode) (s' : kernel) : Prop := {
  wn_txn : txn q [] kk s';
  wn_at : inode_at i ip' s';
  wn_fs : fs_ok meta s';
  wn_file : file_ok meta s' ip';
  wn_ip : ip' = ip <| i_addrs := i_addrs ip' |> <| i_size := Z.max (i_size ip) (off + Z.of_nat (length src)) |>;
  wn_bytes : ∀ o, 0 ≤ o < MAXFILE * BSIZE →
    fbyte s' ip' o = if decide (off ≤ o < off + Z.of_nat (length src)) then nth (Z.to_nat (o - off)) src 0
                     else fbyte s ip o;
  wn_data : ∀ m, meta ≤ m < sb_size (sb s) → used s m = true →
    (∀ k, (k < NSLOT)%nat → slot s ip k ≠ m) → block s' m = block s m ∧ used s' m = true;
  wn_low : ∀ m, m < sb_bmapstart (sb s) → m ≠ iblock s ip → block s' m = block s m;
  wn_inodes : ∀ o w, (o + w ≤ inode_off (i_inum ip) ∨ inode_off (i_inum ip) + DINODE ≤ o)%nat →
    slice o w (block s' (iblock s ip)) = slice o w (block s (iblock s ip));
  wn_step : istep i s s' }.

(** Blocks below the bitmap during the loop. *)
Lemma filled_low meta q kk i off src ip s ip' s' m :
  filled meta q kk i off src ip s ip' s' → fs_ok meta s → inode_ok meta s ip → sb_bmapstart (sb s) < meta →
  m < sb_bmapstart (sb s) → block s' m = block s m.
Proof.
  intros Hw Hfs Hok Hbm Hm. apply (wr_block _ _ _ _ _ _ _ _ _ _ Hw); [by left|].
  intros k Hk Hz. destruct (io_slot _ _ _ Hok k Hk Hz). lia.
Qed.

(** The loop leaves no holes, whatever size up to its end the file gets. *)
Lemma filled_full meta q kk i off src ip s ip' s' z :
  filled meta q kk i off src ip s ip' s' → full s ip → 0 ≤ off ≤ i_size ip →
  z ≤ Z.max (i_size ip) (off + Z.of_nat (length src)) → z ≤ MAXFILE * BSIZE →
  ∀ bn, Z.of_nat bn * BSIZE < z → slot s' ip' (bslot bn) ≠ 0.
Proof.
  intros Hw Hfull Ho Hz Hmax bn Hbn.
  destruct (decide (Z.of_nat bn * BSIZE < i_size ip)) as [Hlt|Hge].
  - rewrite (wr_kept _ _ _ _ _ _ _ _ _ _ Hw); [by apply Hfull| |by apply Hfull].
    unfold MAXFILE, BSIZE, NDIRECT, NINDIRECT in *. lia.
  - pose proof (wr_slot _ _ _ _ _ _ _ _ _ _ Hw (Z.of_nat bn * BSIZE)) as Hs.
    rewrite Z.div_mul, Nat2Z.id in Hs by done. apply Hs. lia.
Qed.

(** Nothing to grow: the write is within the file. *)
Lemma stored_within meta q kk kk' i off src ip s ip' s' :
  filled meta q kk i off src ip s ip' s' → kk' ≤ kk → fs_ok meta s → file_ok meta s ip →
  0 ≤ off → off + Z.of_nat (length src) ≤ i_size ip → file_written meta q kk' i off src ip s ip' s'.
Proof.
  intros Hw Hkk Hfs [Hok Hfull Hsz Hi Hst] Ho Hn. destruct (iblock_range meta s ip Hfs Hi) as [Hib Hbm].
  pose proof (istep_sb _ _ _ (wr_step _ _ _ _ _ _ _ _ _ _ Hw)) as Hsb.
  assert (ip' = ip) as ->.
  { apply (wr_same _ _ _ _ _ _ _ _ _ _ Hw). intros o Hoo. apply Hfull.
    rewrite Z2Nat.id by (apply Z.div_pos; [lia|done]). unfold BSIZE. Z.div_mod_to_equations. lia. }
  assert (Hlow : ∀ m, m < sb_bmapstart (sb s) → block s' m = block s m) by (intros m Hm; by eapply filled_low).
  destruct Hw as [T A F O I B K S2' Sm Fr Bl U St]. split; try done.
  - by eapply txn_weaken.
  - split; [done| |done|by rewrite Hsb|].
    + intros bn Hbn. rewrite K; [by apply Hfull| |by apply Hfull].
      unfold MAXFILE, BSIZE, NDIRECT, NINDIRECT in *. lia.
    + unfold iblock in *. by rewrite Hsb, Hlow by lia.
  - rewrite Z.max_l by lia. by destruct ip.
  - intros m Hm Hu Hk. split; [apply Bl; [by right|by intros k Hlt _; apply Hk]|].
    apply U; [pose proof (fk_meta _ _ Hfs); lia|done].
  - intros m Hm _. by apply Hlow.
  - intros o w _. by rewrite Hlow by lia.
Qed.

(** What the inode on the disk says is legal. *)
Lemma s16_idem x : s16 (s16 x) = s16 x.
Proof. unfold s16. Z.div_mod_to_equations. lia. Qed.

Lemma stored_fits meta o d ip s z l :
  load_dinode o d ip = ip → inode_ok meta s (ip <| i_addrs := l |> <| i_size := z |>) → 0 ≤ meta →
  sb_size (sb s) ≤ 2 ^ 32 → is_u32 z → dinode_fits (ip <| i_addrs := l |> <| i_size := z |>).
Proof.
  intros Hst Hok Hm Hs Hz. rewrite <-Hst. split; try apply s16_idem.
  - by apply u32_small.
  - apply (io_len _ _ _ Hok).
  - intros k. apply u32_small. unfold is_u32.
    destruct (decide (k ≤ NDIRECT)%nat) as [Hk|Hk].
    + pose proof (io_slot _ _ _ Hok k ltac:(unfold NSLOT; lia)) as Hsl. unfold slot in Hsl.
      rewrite (proj2 (Nat.leb_le k NDIRECT) Hk) in Hsl.
      destruct (decide (nth k l 0 = 0)) as [E|E]; [change (0 ≤ nth k l 0 < 2 ^ 32); lia|].
      destruct (Hsl E) as [Hr _]. change (meta ≤ nth k l 0 < sb_size (sb s)) in Hr.
      change (0 ≤ nth k l 0 < 2 ^ 32). lia.
    + rewrite nth_overflow; [lia|]. pose proof (io_len _ _ _ Hok). simpl in *. lia.
Qed.

(** The size has become [z] in memory; the disk is as it was. *)
Lemma resized i ip z s q kk :
  inode_at i ip s → txn q [] kk s →
  ∃ s', updi i (λ ip, ip <| i_size := z |>) s = Ok tt s' ∧ inode_at i (ip <| i_size := z |>) s' ∧ txn q [] kk s' ∧
    istep i s s' ∧ (∀ m, block s' m = block s m) ∧ sb s' = sb s ∧ kdisk s' = kdisk s.
Proof.
  intros Hat Ht. eexists. split; [reflexivity|]. split_and!; try done.
  - unfold inode_at. simpl. by rewrite list_lookup_alter_eq, Hat.
  - by apply (txn_icache q [] kk s).
  - split.
    + change (fstep s (s <| icache := icache s |>)). replace (s <| icache := icache s |>) with s by (by destruct s).
      reflexivity.
    + exists (i_addrs ip), z. simpl. apply list_eq. intros j.
      destruct (decide (j = i)) as [->|Hne]; [|by rewrite !list_lookup_alter_ne].
      rewrite !list_lookup_alter_eq, Hat. by destruct ip.
Qed.

(** The write ends beyond the file: its size grows and the inode is stored. *)
Lemma stored_grow meta q kk i off src ip s ip1 s1 :
  filled meta q kk i off src ip s ip1 s1 → 1 ≤ kk → fs_ok meta s → file_ok meta s ip →
  0 ≤ off ≤ i_size ip → i_size ip < off + Z.of_nat (length src) → off + Z.of_nat (length src) ≤ MAXFILE * BSIZE →
  let z := off + Z.of_nat (length src) in
  ∃ ip' s', (updi i (λ ip, ip <| i_size := z |>) ;; iupdate i) s1 = Ok tt s' ∧
    file_written meta q (kk - 1) i off src ip s ip' s'.
Proof.
  intros Hw Hkk Hfs [Hok Hfull Hsz Hi Hst] Ho Hgt Hmax z.
  destruct (iblock_range meta s ip Hfs Hi) as [Hib Hbm]. pose proof (fk_meta _ _ Hfs) as Hm0.
  pose proof (istep_sb _ _ _ (wr_step _ _ _ _ _ _ _ _ _ _ Hw)) as Hsb1.
  destruct (resized i ip1 z s1 q kk) as (s2 & H2 & Hat2 & Ht2 & Hst2 & Hbl2 & Hsb2 & Hdk2); [apply Hw..|].
  rewrite (bind_ok _ _ _ _ _ H2). set (ip' := ip1 <| i_size := z |>) in *.
  assert (Hip : ip' = ip <| i_addrs := i_addrs ip1 |> <| i_size := z |>)
    by (unfold ip'; by rewrite (wr_ip _ _ _ _ _ _ _ _ _ _ Hw)).
  assert (Hsl2 : ∀ k, slot s2 ip' k = slot s1 ip1 k) by (intros k; by apply (slot_block s1 s2 ip1)).
  assert (Hc2 : ∀ bn, contents s2 ip' bn = contents s1 ip1 bn) by (intros bn; by apply (contents_same s1 s2 ip1)).
  assert (Hok2 : inode_ok meta s2 ip').
  { destruct (inode_ok_same meta s1 s2 ip1) as [Il Id Is Ii]; [apply Hw|done|done|]. by split. }
  assert (Hfs2 : fs_ok meta s2) by (by apply (fs_ok_same meta s1 s2); [apply Hw|..]).
  assert (Hinum : i_inum ip' = i_inum ip) by (by rewrite Hip).
  assert (Hlow : ∀ m, m < sb_bmapstart (sb s) → block s2 m = block s m)
    by (intros m Hm; rewrite Hbl2; by eapply filled_low).
  assert (Hibe : iblock s2 ip' = iblock s ip) by (unfold iblock; by rewrite Hinum, Hsb2, Hsb1).
  destruct (iupdate_ok meta q kk i ip' s2) as (s3 & H3 & Hto3); try done;
    [apply (io_dev _ _ _ Hok2)|by rewrite Hinum, Hsb2, Hsb1|].
  rewrite Hibe, Hinum, (Hlow (iblock s ip)) in Hto3 by lia.
  destruct (low_touched meta q _ s2 s3 ip' _ _ Hfs2 Hok2 ltac:(rewrite Hsb2, Hsb1; exact (proj2 Hib))
              ltac:(by rewrite Hsb2, Hsb1) Hto3) as (Hfs3 & Hok3 & Hsl3 & Hu3 & Hc3).
  destruct Hto3 as [Ht3 Hbl3 _ Hst3]. pose proof (fstep_sb _ _ Hst3) as Hsb3.
  assert (Hl : length (block s (iblock s ip)) = Z.to_nat BSIZE).
  { destruct (tx_bc _ _ _ _ Ht2) as [xs Hbc]. rewrite <-(Hlow (iblock s ip)) by lia. apply (bc_blk_length Hbc).
    rewrite <-Hsb1, <-Hsb2 in *. destruct (fk_layout _ _ Hfs2). lia. }
  pose proof (inode_off_fits (i_inum ip)) as Hoff.
  assert (Hib3 : block s3 (iblock s ip) = store_dinode (inode_off (i_inum ip)) ip' (block s (iblock s ip))).
  { rewrite Hbl3. unfold upd. by rewrite decide_True. }
  exists ip', s3. split; [done|]. split; try done.
  - unfold inode_at. by rewrite (fstep_icache _ _ Hst3).
  - split; [done|..].
    + intros bn Hbn. change (i_size ip') with z in Hbn. rewrite Hsl3, Hsl2.
      * eapply (filled_full meta q kk i off src ip s ip1 s1 z); try done; lia.
      * apply bslot_lt. unfold z, MAXFILE, BSIZE, NDIRECT, NINDIRECT in *. lia.
    + change (i_size ip') with z. lia.
    + by rewrite Hinum, Hsb3, Hsb2, Hsb1.
    + unfold iblock. rewrite Hsb3, Hsb2, Hsb1, Hinum. fold (iblock s ip). rewrite Hib3.
      apply load_store_dinode; [by rewrite Hl|]. rewrite Hip in Hok2 |- *.
      eapply (stored_fits meta _ _ ip s2 z); try done; [lia|destruct (fk_layout _ _ Hfs2); lia|].
      unfold is_u32, z, MAXFILE, BSIZE in *. lia.
  - rewrite Z.max_r by lia. exact Hip.
  - intros o Hoo. rewrite <-(wr_bytes _ _ _ _ _ _ _ _ _ _ Hw) by done. unfold fbyte.
    rewrite Hc3, Hc2; [done|]. unfold MAXFILE, BSIZE, NDIRECT, NINDIRECT in *. Z.div_mod_to_equations. lia.
  - intros m Hm Hu Hk. rewrite Hbl3. unfold upd. rewrite decide_False by lia. rewrite Hbl2. split.
    + apply (wr_block _ _ _ _ _ _ _ _ _ _ Hw); [by right|]. intros k Hlt _. by apply Hk.
    + rewrite Hu3 by (rewrite Hsb2, Hsb1; lia). rewrite (used_same s1 s2) by done.
      apply (wr_used _ _ _ _ _ _ _ _ _ _ Hw); [lia|done].
  - intros m Hm Hne. rewrite Hbl3. unfold upd. rewrite decide_False by done. by apply Hlow.
  - intros o w How. rewrite Hib3. apply slice_store_dinode; [by rewrite Hl|done].
  - eapply istep_trans; [apply Hw|]. eapply istep_trans; [exact Hst2|]. by eapply istep_fstep.
Qed.

(** [writei] on a file that has room for the bytes, with enough free blocks and
    enough room in the log. *)
Lemma writei_ok meta q kk i ip s off n src :
  txn q [] kk s → 6 * Z.of_nat (nblk off n) + 1 ≤ kk → inode_at i ip s → fs_ok meta s → file_ok meta s ip →
  i_type ip ≠ T_DEV → (2 * nblk off n ≤ nfree s)%nat → 0 ≤ off ≤ i_size ip → Z.of_nat (length src) = n →
  off + n ≤ MAXFILE * BSIZE →
  ∃ ip' s', writei i src off n s = Ok n s' ∧
    file_written meta q (kk - 6 * Z.of_nat (nblk off n) - 1) i off src ip s ip' s'.
Proof.
  intros Ht Hkk Hat Hfs Hfo Hdev Hfree Ho Hlen Hmax. unfold writei.
  rewrite (bind_ok _ _ _ _ _ (geti_at _ _ _ Hat)), (proj2 (Z.eqb_neq _ _) Hdev).
  assert (Hu : is_u32 (off + n)) by (unfold is_u32, MAXFILE, BSIZE in *; lia).
  rewrite u32_small, (proj2 (Z.ltb_ge _ _)), (proj2 (Z.ltb_ge _ _)) by (done || lia). cbn [orb].
  rewrite (proj2 (Z.ltb_ge _ _)) by lia.
  destruct (writei_loop_ok meta q i (rw_fuel n) kk ip s off n src) as (ip1 & s1 & Hr & Hw); try done;
    [lia|apply Hfo|lia|lia|apply nblk_fuel; lia|].
  rewrite (bind_ok _ _ _ _ _ Hr), (bind_ok _ _ _ _ _ (geti_at _ _ _ (wr_at _ _ _ _ _ _ _ _ _ _ Hw))).
  assert (Hsz : i_size ip1 = i_size ip) by (by rewrite (wr_ip _ _ _ _ _ _ _ _ _ _ Hw)). rewrite Hsz.
  destruct (decide (i_size ip < off + n)) as [Hgt|Hle].
  - rewrite (proj2 (Z.ltb_lt 0 n)), (proj2 (Z.ltb_lt _ _)) by lia. cbn [andb].
    destruct (stored_grow meta q _ i off src ip s ip1 s1 Hw) as (ip' & s' & Hg & Hwn); try done; [lia..|].
    rewrite Hlen in Hg. exists ip', s'. rewrite (bind_ok _ _ _ _ _ Hg). unfold ret. rewrite s32_file by lia. done.
  - rewrite (proj2 (Z.ltb_ge _ (off + n))), andb_false_r by lia. rewrite (bind_ok (ret tt) _ _ _ _ eq_refl).
    exists ip1, s1. unfold ret. rewrite s32_file by lia. split; [done|].
    eapply stored_within; try done; lia.
Qed.
End Content.

(** ** Properties *)

(** The small file system. *)
Lemma small_fs_ok : fs_ok 34 small_kernel.
Proof. split; [apply small_layout|lia|apply small_meta_used]. Qed.

Lemma small_slot k : slot small_kernel small_inode k = if decide (k = 0%nat) then 34 else 0.
Proof.
  unfold slot. change (nth NDIRECT (i_addrs small_inode) 0) with 0. cbn [Z.eqb].
  destruct (decide (k = 0%nat)) as [->|Hk]; [done|]. destruct (Nat.leb_spec k NDIRECT) as [Hle|]; [|done].
  do 13 (destruct k as [|k]; [done|]). unfold NDIRECT in Hle. lia.
Qed.

Lemma small_file_ok : file_ok 34 small_kernel small_inode.
Proof.
  split.
  - split; [done|done|..].
    + intros k _. rewrite small_slot, small_sb_eq. destruct (decide (k = 0%nat)); [|done]. intros _.
      rewrite small_used by lia. split; [by split|done].
    + intros k k' _ _. rewrite !small_slot. destruct (decide (k = 0%nat)), (decide (k' = 0%nat)); congruence.
  - intros bn Hbn. change (i_size small_inode) with 3 in Hbn. unfold BSIZE in Hbn.
    assert (bn = 0%nat) as -> by lia. by rewrite small_slot.
  - by split.
  - rewrite small_sb_eq. by split.
  - unfold iblock. rewrite small_sb_eq, small_block. by vm_compute.
Qed.

Lemma small_at : inode_at 0 small_inode small_kernel.
Proof. unfold inode_at. by rewrite small_icache. Qed.

Lemma small_nfree : nfree small_kernel = 15%nat.
Proof.
  unfold nfree. rewrite small_sb_eq.
  rewrite (filter_in_iff _ (λ n, 35 ≤ n)); [by vm_compute|].
  intros n Hn. apply elem_of_seqZ in Hn. simpl in Hn. rewrite small_used by lia.
  destruct (Z.ltb_spec n 35); split; (done || lia).
Qed.

(** [C6] Writing a file.  In an open operation, with a block of the log for each
    block [bmap] and the data may change (six for each block of the file that is
    written, one for the inode) and two free blocks for each, [writei] of [n]
    bytes at an offset within the file returns [n]; after it the bytes of the
    file are the old ones with the new ones in their place, its size has grown
    to hold them, its blocks are distinct blocks marked in use, it has no holes,
    and the inode on the disk agrees with the one in memory.  The blocks of
    other files, the other inodes and the blocks below the bitmap keep their
    contents. *)
Theorem writei_spec {dk : Disk} {dv : Devsw} meta q kk i ip s off n src :
  txn q [] kk s → 6 * Z.of_nat (nblk off n) + 1 ≤ kk → inode_at i ip s → fs_ok meta s → file_ok meta s ip →
  i_type ip ≠ T_DEV → (2 * nblk off n ≤ nfree s)%nat → 0 ≤ off ≤ i_size ip → Z.of_nat (length src) = n →
  off + n ≤ MAXFILE * BSIZE →
  ∃ ip' s', writei i src off n s = Ok n s' ∧
    file_written meta q (kk - 6 * Z.of_nat (nblk off n) - 1) i off src ip s ip' s'.
Proof. apply writei_ok. Qed.

(** Appending 600 bytes to the file of three bytes, across a block. *)
Lemma writei_spec_witness :
  ∃ ip' s', writei (dk := memide) (dv := Build_Devsw (λ _, None) (λ _, None)) 0 (replicate 600 7) 3 600 small_kernel
      = Ok 600 s' ∧ i_size ip' = 603.
Proof.
  destruct (writei_spec (dk := memide) (dv := Build_Devsw (λ _, None) (λ _, None)) 34 7 28 0 small_inode
              small_kernel 3 600 (replicate 600 7)) as (ip' & s' & Hr & Hw).
  - apply small_txn. lia.
  - by vm_compute.
  - apply small_at.
  - apply small_fs_ok.
  - apply small_file_ok.
  - done.
  - rewrite small_nfree. apply Nat.leb_le. by vm_compute.
  - by split.
  - by rewrite length_replicate.
  - by vm_compute.
  - exists ip', s'. split; [exact Hr|]. rewrite (wn_ip _ _ _ _ _ _ _ _ _ _ Hw). by rewrite length_replicate.
Defined.

(** [C7] Reading a file back.  After a write, [readi] of [k] bytes at
    any offset within the file returns the bytes up to the end of the file,
    which are the new ones where the write put them and the old ones elsewhere,
    and changes the contents of no block; in particular reading what was written
    gives it back. *)
Theorem writei_readi {dk : Disk} {dv : Devsw} meta q kk i ip s off n src :
  txn q [] kk s → 6 * Z.of_nat (nblk off n) + 1 ≤ kk → inode_at i ip s → fs_ok meta s → file_ok meta s ip →
  i_type ip ≠ T_DEV → (2 * nblk off n ≤ nfree s)%nat → 0 ≤ off ≤ i_size ip → Z.of_nat (length src) = n →
  off + n ≤ MAXFILE * BSIZE →
  ∃ s', writei i src off n s = Ok n s' ∧
    (∀ o k, let sz := Z.max (i_size ip) (off + n) in
       0 ≤ o ≤ sz → 0 ≤ k → o + k < 2 ^ 32 →
       ∃ s'', readi i o k s' =
           Ok (clipped sz o k,
               (λ x, if decide (off ≤ x < off + n) then nth (Z.to_nat (x - off)) src 0 else fbyte s ip x)
                 <$> seqZ o (clipped sz o k)) s'' ∧
         ∀ m, block s'' m = block s' m) ∧
    ∃ s'', readi i off n s' = Ok (n, src) s''.
Proof.
  intros Ht Hkk Hat Hfs Hfo Hdev Hfree Ho Hlen Hmax.
  destruct (writei_ok meta q kk i ip s off n src) as (ip' & s' & Hr & [T A F Fo I B _ _ _ _]); try done.
  assert (Hsz : i_size ip' = Z.max (i_size ip) (off + n)) by (rewrite I, Hlen; done).
  assert (Hty : i_type ip' = i_type ip) by (by rewrite I).
  pose proof (fo_size _ _ _ Fo) as Hs'.
  assert (Hread : ∀ o k, 0 ≤ o ≤ i_size ip' → 0 ≤ k → o + k < 2 ^ 32 →
    ∃ s'', readi i o k s' = Ok (clipped (i_size ip') o k,
      (λ x, if decide (off ≤ x < off + n) then nth (Z.to_nat (x - off)) src 0 else fbyte s ip x)
        <$> seqZ o (clipped (i_size ip') o k)) s'' ∧ ∀ m, block s'' m = block s' m).
  { intros o k Hoo Hk Hov.
    destruct (readi_ok meta q _ i ip' o k s' T) as (s'' & Hrd & Hto); try done; [lia|apply Fo|apply Fo|by rewrite Hty|lia|].
    exists s''. split; [|apply Hto]. rewrite Hrd. do 2 f_equal. apply list_fmap_ext. intros j x Hx.
    apply lookup_seqZ in Hx. rewrite B, Hlen; [done|]. unfold clipped in Hx. destruct (Z.ltb_spec (i_size ip') (o + k)); lia. }
  exists s'. split; [done|]. split.
  - intros o k sz. unfold sz. rewrite <-Hsz. apply Hread.
  - destruct (Hread off n) as (s'' & Hrd & _); [lia|lia|unfold MAXFILE, BSIZE in *; lia|]. exists s''. rewrite Hrd.
    assert (clipped (i_size ip') off n = n) as ->.
    { unfold clipped. destruct (Z.ltb_spec (i_size ip') (off + n)); lia. }
    do 2 f_equal. apply list_eq. intros j. rewrite list_lookup_fmap.
    destruct (decide (j < length src)%nat) as [Hj|Hj].
    + rewrite (proj2 (lookup_seqZ _ _ _ (off + Z.of_nat j))) by lia. simpl. rewrite decide_True by lia.
      replace (Z.to_nat (off + Z.of_nat j - off)) with j by lia. symmetry. rewrite nth_lookup.
      by destruct (lookup_lt_is_Some_2 src j Hj) as [x ->].
    + rewrite lookup_seqZ_ge, lookup_ge_None_2 by lia. done.
Qed.

(** The same append, read back. *)
Lemma writei_readi_witness :
  ∃ s' s'', writei (dk := memide) (dv := Build_Devsw (λ _, None) (λ _, None)) 0 (replicate 600 7) 3 600 small_kernel
      = Ok 600 s' ∧
    readi (dk := memide) (dv := Build_Devsw (λ _, None) (λ _, None)) 0 3 600 s' = Ok (600, replicate 600 7) s''.
Proof.
  destruct (writei_readi (dk := memide) (dv := Build_Devsw (λ _, None) (λ _, None)) 34 7 28 0 small_inode
              small_kernel 3 600 (replicate 600 7)) as (s' & Hr & _ & s'' & Hrd).
  - apply small_txn. lia.
  - by vm_compute.
  - apply small_at.
  - apply small_fs_ok.
  - apply small_file_ok.
  - done.
  - rewrite small_nfree. apply Nat.leb_le. by vm_compute.
  - by split.
  - by rewrite length_replicate.
  - by vm_compute.
  - exists s', s''. by split.
Defined.
