(* ===== verification/Smalldir.v ===== *)
(** * A small file system with a directory

    The disk of Smallfs.v with a root directory in inode 1, whose entries are
    [.], [..] and [a], and an empty file in inode 2; for the examples of the files that
    follow. *)

From S2P Require Import Prelude Bytes Kernel Cstring Sched Proc Waiting Sleeplock Bio Log Crash Reserve.
From S2P Require Import Fs Txn Smallfs Blocks Inode Content.

Definition sdir_root : inode :=
  inode0 <| i_dev := 1 |> <| i_inum := 1 |> <| i_ref := 1 |> <| i_valid := 1 |> <| i_type := 1 |>
         <| i_nlink := 1 |> <| i_size := 48 |> <| i_addrs := 34 :: replicate 12 0 |>.
Definition sdir_file : inode :=
  inode0 <| i_dev := 1 |> <| i_inum := 2 |> <| i_type := 2 |> <| i_nlink := 1 |>.

Definition sdir_entry (n : Z) (nm : list Z) : list Z := mk_dirent n (nm ++ replicate (14 - length nm) 0).
Definition sdir_data : list Z :=
  sdir_entry 1 [46] ++ sdir_entry 1 [46; 46] ++ sdir_entry 2 [97] ++ replicate 464 0.
Definition sdir_inodes : list Z := store_dinode 128 sdir_file (store_dinode 64 sdir_root zeros).
Definition sdir_disk : list (list Z) :=
  replicate 32 zeros ++ [sdir_inodes; small_bitmap; sdir_data] ++ replicate 15 zeros.

(** The cache of inodes is [c]. *)
Definition sdir_of (c : list inode) (s : kernel) : kernel := s <| sb := small_sb |> <| icache := c |>.
Definition sdir (c : list inode) : kernel := sdir_of c (fs_kernel sdir_disk small_log).

Lemma sdir_disk_blocks : Forall (λ b, length b = Z.to_nat BSIZE) sdir_disk.
Proof.
  apply Forall_app. split; [apply Forall_replicate, length_replicate|].
  apply Forall_app. split; [|apply Forall_replicate, length_replicate].
  repeat (apply Forall_cons; split; [by vm_compute|]). by apply Forall_nil.
Qed.

Lemma sdir_of_facts c s k :
  bc 7 [] (reverse (seq 0 NBUF)) s → alone 7 s → memdisk (kdisk s) = sdir_disk → pinned s = ∅ →
  klog s = small_log → 0 ≤ k ≤ 28 → (∀ i, (i < NBUF)%nat → dev (nd (nodes s) i) = 0) →
  txn 7 [] k (sdir_of c s) ∧ ∀ n, block (sdir_of c s) n = default [] (sdir_disk !! Z.to_nat n).
Proof.
  intros Hbc Ha Hd Hp Hl Hk Hdev. split.
  - split; change (klog (sdir_of c s)) with (klog s); rewrite ?Hl; try done.
    + eexists. exact Hbc.
    + intros i Hi. by apply not_elem_of_nil in Hi.
    + change (pinned (sdir_of c s)) with (pinned s). rewrite Hp. set_solver.
    + simpl. lia.
    + change (kdisk (sdir_of c s)) with (kdisk s). rewrite Hd. by vm_compute.
  - intros n. change (block (sdir_of c s) n) with (block s n). unfold block. rewrite (blk_none n); [by rewrite Hd|].
    apply (cached_none Hbc). intros i Hi Hd1. rewrite Hdev in Hd1 by done. done.
Qed.

Lemma sdir_txn c k : 0 ≤ k ≤ 28 → txn 7 [] k (sdir c).
Proof.
  intros Hk. destruct (fs_kernel_ok sdir_disk small_log sdir_disk_blocks) as (Hbc & Ha & Hd & Hp & Hl & Hdev).
  exact (proj1 (sdir_of_facts c _ k Hbc Ha Hd Hp Hl Hk Hdev)).
Qed.

Lemma sdir_block c n : block (sdir c) n = default [] (sdir_disk !! Z.to_nat n).
Proof.
  destruct (fs_kernel_ok sdir_disk small_log sdir_disk_blocks) as (Hbc & Ha & Hd & Hp & Hl & Hdev).
  exact (proj2 (sdir_of_facts c _ 0 Hbc Ha Hd Hp Hl ltac:(lia) Hdev) n).
Qed.

Lemma sdir_sb c : sb (sdir c) = small_sb.
Proof. unfold sdir, sdir_of. by destruct (fs_kernel sdir_disk small_log). Qed.

Lemma sdir_icache c : icache (sdir c) = c.
Proof. unfold sdir, sdir_of. by destruct (fs_kernel sdir_disk small_log). Qed.

Lemma sdir_length c : length (memdisk (kdisk (sdir c))) = 50%nat.
Proof.
  destruct (fs_kernel_ok sdir_disk small_log sdir_disk_blocks) as (_ & _ & Hd & _).
  unfold sdir, sdir_of. destruct (fs_kernel sdir_disk small_log). simpl in Hd |- *. rewrite Hd. by vm_compute.
Qed.

(** The bitmap is that of the small file system. *)
Lemma sdir_used c n : 0 ≤ n < 50 → used (sdir c) n = (n <? 35).
Proof.
  intros Hn. rewrite <-(small_used n Hn). unfold used. rewrite sdir_sb, small_sb_eq.
  assert (HB : BBLOCK n small_sb = 33).
  { unfold BBLOCK, BPB, BSIZE. rewrite u32_small; unfold is_u32; simpl sb_bmapstart; Z.div_mod_to_equations; lia. }
  by rewrite HB, small_block, sdir_block.
Qed.

Lemma sdir_fs_ok c : fs_ok 34 (sdir c).
Proof.
  split; [|lia|].
  - rewrite sdir_length, sdir_sb. pose proof small_layout as H. by rewrite small_length, small_sb_eq in H.
  - intros n Hn. rewrite sdir_used by lia. lia.
Qed.

Lemma sdir_nfree c : nfree (sdir c) = 15%nat.
Proof.
  rewrite <-small_nfree. unfold nfree. rewrite sdir_sb, small_sb_eq. apply (f_equal length), filter_in_iff.
  intros n Hn. apply elem_of_seqZ in Hn. simpl in Hn. by rewrite sdir_used, small_used by lia.
Qed.

Lemma sdir_slot c ip k :
  i_addrs ip = 34 :: replicate 12 0 → slot (sdir c) ip k = if decide (k = 0%nat) then 34 else 0.
Proof.
  intros Ha. unfold slot. rewrite Ha. change (nth NDIRECT (34 :: replicate 12 0) 0) with 0. cbn [Z.eqb].
  destruct (decide (k = 0%nat)) as [->|Hk]; [done|]. destruct (Nat.leb_spec k NDIRECT) as [Hle|]; [|done].
  do 13 (destruct k as [|k]; [done|]). unfold NDIRECT in Hle. lia.
Qed.

(** A file of less than a block, in block 34. *)
Lemma sdir_file_ok c ip :
  i_addrs ip = 34 :: replicate 12 0 → i_dev ip = 1 → 0 ≤ i_size ip ≤ 512 → 0 ≤ i_inum ip < 8 →
  load_dinode (inode_off (i_inum ip)) sdir_inodes ip = ip → file_ok 34 (sdir c) ip.
Proof.
  intros Ha Hd Hs Hn Hl. split.
  - split; [by rewrite Ha|done|..].
    + intros k _. rewrite sdir_slot, sdir_sb by done. destruct (decide (k = 0%nat)); [|done]. intros _.
      rewrite sdir_used by lia. split; [by split|done].
    + intros k k' _ _. rewrite !sdir_slot by done. destruct (decide (k = 0%nat)), (decide (k' = 0%nat)); congruence.
  - intros bn Hbn. unfold BSIZE in Hbn. assert (bn = 0%nat) as -> by lia. by rewrite sdir_slot.
  - unfold MAXFILE, BSIZE. lia.
  - rewrite sdir_sb. done.
  - unfold iblock. rewrite sdir_sb, sdir_block.
    replace (IBLOCK (i_inum ip) small_sb) with 32; [done|].
    unfold IBLOCK, IPB. rewrite u32_small; unfold is_u32, BSIZE; simpl sb_inodestart; Z.div_mod_to_equations; lia.
Qed.
