(* ===== verification/Icache.v ===== *)
(** * The cache of inodes

    [iget], [idup], [ilock], [iunlock] and [iput] over [icache]: the entries with
    references are different inodes, the valid ones agree with the disk, and the
    calls change the number of references they are about and nothing else.
    [iput] is followed as long as it does not free the inode. *)

From S2P Require Import Prelude Bytes Kernel Cstring Sched Proc Waiting Sleeplock Bio Log Reserve.
From S2P Require Import Fs Dinode Txn Blocks Inode Content.

(** ** The invariant *)

(** The inode [n] on the disk, in an entry [ip] of the cache. *)
Definition stored (s : kernel) (ip : inode) : inode :=
  load_dinode (inode_off (i_inum ip)) (block s (iblock s ip)) ip.

Record entry_ok (q : Z) (L : list nat) (s : kernel) (i : nat) (ip : inode) : Prop := {
  en_ref : 0 ≤ i_ref ip;
  en_dev : 0 < i_ref ip → i_dev ip = 1 ∧ 0 ≤ i_inum ip < sb_ninodes (sb s);
  en_free : i ∉ L → sl_locked (i_lock ip) = 0;
  en_lock : i ∈ L → i_lock ip = mksl 1 q ∧ 0 < i_ref ip;
  en_stored : 0 < i_ref ip → i_valid ip ≠ 0 → stored s ip = ip }.

(** The process [q] has the locks of the inodes [L], and nobody has others. *)
Record icache_ok (q : Z) (L : list nat) (s : kernel) : Prop := {
  ic_entry : ∀ i ip, inode_at i ip s → entry_ok q L s i ip;
  ic_uniq : ∀ i j ip jp, inode_at i ip s → inode_at j jp s → 0 < i_ref ip → 0 < i_ref jp →
    i_inum ip = i_inum jp → i = j }.

(** The references of inode [n]. *)
Definition refw (n : Z) (ip : inode) : Z := if (0 <? i_ref ip) && (i_inum ip =? n) then i_ref ip else 0.
Definition refs_of (n : Z) (l : list inode) : Z := foldr (λ ip a, refw n ip + a) 0 l.
Definition refs (s : kernel) (n : Z) : Z := refs_of n (icache s).

(** The inodes with references. *)
Definition live (s : kernel) : gset Z := list_to_set (i_inum <$> filter (λ ip, 0 < i_ref ip) (icache s)).

(** ** Counting references *)

Lemma refw_nonneg n ip : 0 ≤ refw n ip.
Proof. unfold refw. destruct (Z.ltb_spec 0 (i_ref ip)); simpl; [destruct (_ =? _); lia|lia]. Qed.

Lemma refs_of_nonneg n l : 0 ≤ refs_of n l.
Proof. induction l as [|ip l IH]; simpl; [lia|]. pose proof (refw_nonneg n ip). lia. Qed.

Lemma refs_of_insert n l : ∀ i x y,
  l !! i = Some x → refs_of n (<[i := y]> l) = refs_of n l - refw n x + refw n y.
Proof.
  induction l as [|z l IH]; intros [|i] x y Hi; simplify_eq/=; [lia|]. rewrite (IH i x y Hi). lia.
Qed.

Lemma elem_of_live s n : n ∈ live s ↔ 0 < refs s n.
Proof.
  unfold live, refs. rewrite elem_of_list_to_set. induction (icache s) as [|ip l IH]; simpl.
  - split; [by intros ?%not_elem_of_nil|lia].
  - pose proof (refs_of_nonneg n l) as Hn. rewrite filter_cons. unfold refw at 1.
    destruct (Z.ltb_spec 0 (i_ref ip)) as [Hr|Hr]; simpl.
    + rewrite decide_True by done. simpl. rewrite elem_of_cons, IH.
      destruct (Z.eqb_spec (i_inum ip) n); [split; [lia|by left]|]. split; [intros [?|?]; [congruence|lia]|right; lia].
    + rewrite decide_False by lia. rewrite IH. lia.
Qed.

(** With fewer live inodes than entries there is a free entry. *)
Lemma live_free q L s :
  icache_ok q L s → (size (live s) < length (icache s))%nat →
  ∃ i, find_index (λ ip, i_ref ip =? 0) (icache s) = Some i.
Proof.
  intros Hic Hsz. destruct (find_index _ _) as [i|] eqn:E; [by exists i|]. exfalso.
  rewrite find_index_None in E.
  assert (Hall : ∀ i ip, inode_at i ip s → 0 < i_ref ip).
  { intros i ip Hi. pose proof (E i ip Hi). pose proof (en_ref _ _ _ _ _ (ic_entry _ _ _ Hic i ip Hi)). lia. }
  assert (Hf : filter (λ ip, 0 < i_ref ip) (icache s) = icache s).
  { assert (Hl : Forall (λ ip, 0 < i_ref ip) (icache s)) by (apply Forall_lookup; exact Hall).
    clear -Hl. induction Hl as [|x l Hx _ IH]; [done|]. by rewrite filter_cons_True, IH by done. }
  unfold live in Hsz. rewrite Hf, size_list_to_set, length_fmap in Hsz; [lia|].
  apply NoDup_alt. intros i j x Hi Hj. apply list_lookup_fmap_Some in Hi as (ip & -> & Hi).
  apply list_lookup_fmap_Some in Hj as (jp & Hj & He). apply (ic_uniq _ _ _ Hic i j ip jp); eauto.
Qed.

(** ** Steps *)

(** Like [fstep], but for the cache of inodes. *)
Definition nstep (s s' : kernel) : Prop := fstep s (s' <| icache := icache s |>).

Lemma set_icache_same s : s <| icache := icache s |> = s.
Proof. by destruct s. Qed.

#[export] Instance nstep_preorder : PreOrder nstep.
Proof.
  split.
  - intros s. unfold nstep. rewrite set_icache_same. reflexivity.
  - intros s1 s2 s3 H12 H23. unfold nstep in *. etransitivity; [exact H12|].
    exact (fstep_icache_set _ _ (icache s1) H23).
Qed.

Lemma nstep_fstep s s' : fstep s s' → nstep s s'.
Proof. intros H. unfold nstep. rewrite <-(fstep_icache _ _ H), set_icache_same. done. Qed.

Lemma nstep_sb s s' : nstep s s' → sb s' = sb s.
Proof. intros H. by rewrite <-(fstep_sb _ _ H). Qed.

Lemma nstep_disk s s' : nstep s s' → kdisk s' = kdisk s.
Proof. intros H. by rewrite <-(fstep_disk _ _ H). Qed.

(** What all the calls keep. *)
Record moved (q k : Z) (s s' : kernel) : Prop := {
  mv_txn : txn q [] k s';
  mv_block : ∀ m, block s' m = block s m;
  mv_len : length (icache s') = length (icache s);
  mv_step : nstep s s' }.

Lemma moved_refl q k s : txn q [] k s → moved q k s s.
Proof. intros Ht. split; [done..|reflexivity]. Qed.

Lemma moved_trans q k s1 s2 s3 : moved q k s1 s2 → moved q k s2 s3 → moved q k s1 s3.
Proof.
  intros [T1 B1 L1 S1] [T2 B2 L2 S2]. split; [done|intros m; by rewrite B2|by rewrite L2|by etransitivity].
Qed.

Lemma moved_icache q k s c : txn q [] k s → length c = length (icache s) → moved q k s (s <| icache := c |>).
Proof.
  intros Ht Hc. split; [by apply txn_icache|done|done|].
  change (fstep s (s <| icache := icache s |>)). rewrite set_icache_same. reflexivity.
Qed.

Lemma moved_touched q k s s' : touched q [] k (block s) s s' → moved q k s s'.
Proof. intros [T B _ S]. split; [done|done|by rewrite (fstep_icache _ _ S)|by apply nstep_fstep]. Qed.

Lemma fstep_woken ch s : fstep s (with_table (woken ch) s).
Proof. split; [apply woken_wakes|]. by destruct s as [? ? [] ? ? ? ? ? ? []]. Qed.

Lemma moved_woken q k s ch : txn q [] k s → moved q k s (with_table (woken ch) s).
Proof.
  intros Ht. split; [|done|done|apply nstep_fstep, fstep_woken].
  destruct Ht as [Ha Hbc Hcl Ho Hp Hn Hr Hl Hd]. split; try done.
  eapply alone_frame; [exact Ha|]. split; [apply woken_wakes|]. by destruct s as [? ? []].
Qed.

Lemma iblock_moved q k s s' ip : moved q k s s' → iblock s' ip = iblock s ip.
Proof. intros H. unfold iblock. by rewrite (nstep_sb _ _ (mv_step _ _ _ _ H)). Qed.

Lemma stored_moved q k s s' ip : moved q k s s' → stored s' ip = stored s ip.
Proof. intros H. unfold stored. by rewrite (iblock_moved _ _ _ _ _ H), (mv_block _ _ _ _ H). Qed.

Lemma fs_ok_moved meta q k s s' : moved q k s s' → fs_ok meta s → fs_ok meta s'.
Proof.
  intros H Hfs. apply (fs_ok_same meta s s'); [done|..]; [apply (nstep_sb _ _ (mv_step _ _ _ _ H))|apply (nstep_disk _ _ (mv_step _ _ _ _ H))|apply H].
Qed.

Lemma entry_ok_moved q' k q L s s' i ip : moved q' k s s' → entry_ok q L s i ip → entry_ok q L s' i ip.
Proof.
  intros H [R D F K S]. split; try done; [by rewrite (nstep_sb _ _ (mv_step _ _ _ _ H))|].
  intros Hr Hv. rewrite (stored_moved _ _ _ _ _ H). auto.
Qed.

Lemma icache_ok_moved q' k q L s s' : moved q' k s s' → icache s' = icache s → icache_ok q L s → icache_ok q L s'.
Proof.
  intros H Hc [E U]. split; unfold inode_at; rewrite Hc; [|done].
  intros i ip Hi. eapply entry_ok_moved; [exact H|]. by apply E.
Qed.

(** Entry [i] changes. *)
Lemma icache_ok_insert k q L L' s s' i ip ip' :
  icache_ok q L s → moved q k s s' → inode_at i ip s → icache s' = <[i := ip']> (icache s) →
  (∀ j, j ≠ i → j ∈ L ↔ j ∈ L') → entry_ok q L' s i ip' →
  (0 < i_ref ip' → ∀ j jp, j ≠ i → inode_at j jp s → 0 < i_ref jp → i_inum jp ≠ i_inum ip') →
  icache_ok q L' s'.
Proof.
  intros [E U] Hm Hi Hc HL Hok Hu.
  assert (Hat : ∀ j jp, inode_at j jp s' → (j = i ∧ jp = ip') ∨ (j ≠ i ∧ inode_at j jp s)).
  { intros j jp Hj. unfold inode_at in *. rewrite Hc in Hj. destruct (decide (j = i)) as [->|Hne].
    - rewrite list_lookup_insert_eq in Hj by (by eapply lookup_lt_Some). left. by simplify_eq.
    - rewrite list_lookup_insert_ne in Hj by done. by right. }
  split.
  - intros j jp Hj. eapply entry_ok_moved; [exact Hm|]. destruct (Hat _ _ Hj) as [[-> ->]|[Hne Hj']]; [done|].
    destruct (E _ _ Hj') as [R D F K S]. split; try done; rewrite <-HL by done; done.
  - intros j1 j2 p1 p2 H1 H2 R1 R2 He. destruct (Hat _ _ H1) as [[-> ->]|[N1 A1]], (Hat _ _ H2) as [[-> ->]|[N2 A2]].
    + done.
    + by destruct (Hu R1 j2 p2 N2 A2 R2).
    + by destruct (Hu R2 j1 p1 N1 A1 R1).
    + by apply (U j1 j2 p1 p2).
Qed.

Lemma refs_insert s s' i ip ip' n :
  inode_at i ip s → icache s' = <[i := ip']> (icache s) → refs s' n = refs s n - refw n ip + refw n ip'.
Proof. intros Hi Hc. unfold refs. rewrite Hc. by apply refs_of_insert. Qed.

Lemma alter_at {A} (f : A → A) i x (l : list A) : l !! i = Some x → alter f i l = <[i := f x]> l.
Proof.
  intros Hi. apply list_eq. intros j. destruct (decide (j = i)) as [->|Hne].
  - rewrite list_lookup_alter_eq, Hi, list_lookup_insert_eq; [done|]. by eapply lookup_lt_Some.
  - by rewrite list_lookup_alter_ne, list_lookup_insert_ne by done.
Qed.

(** ** References *)

Definition got_ref (ip : inode) : inode := ip <| i_ref := i_ref ip + 1 |>.
Definition put_ref (ip : inode) : inode := ip <| i_ref := i_ref ip - 1 |>.
Definition new_ref (d n : Z) (ip : inode) : inode :=
  ip <| i_dev := d |> <| i_inum := n |> <| i_ref := 1 |> <| i_valid := 0 |>.

Lemma iget_eq d n s :
  held s = [] →
  iget d n s =
    match find_index (λ ip, (0 <? i_ref ip) && (i_dev ip =? d) && (i_inum ip =? n)) (icache s) with
    | Some i => Ok i (s <| icache ::= alter got_ref i |>)
    | None =>
        match find_index (λ ip, i_ref ip =? 0) (icache s) with
        | Some i => Ok i (s <| icache ::= alter (new_ref d n) i |>)
        | None => Panic "iget: no inodes"
        end
    end.
Proof.
  intros Hh. unfold iget. rewrite (bind_ok _ _ _ _ _ (acquire_free _ _ Hh)).
  rewrite (bind_ok (gets icache) _ _ _ _ eq_refl). change (icache (s <| held := [LkIcache] |>)) with (icache s).
  assert (Hend : ∀ i f, (updi i f ;; release LkIcache ;; ret i) (s <| held := [LkIcache] |>) = Ok i (s <| icache ::= alter f i |>)).
  { intros i f. unfold updi. rewrite (bind_ok (modify_state _) _ _ _ _ eq_refl).
    erewrite (bind_ok (release LkIcache)) by (by apply release_last). unfold ret. f_equal. by destruct s; simpl in *; subst. }
  destruct (find_index _ _) as [i|]; [apply Hend|]. destruct (find_index _ _) as [i|]; [apply Hend|done].
Qed.

Lemma entry_got q L s i ip : entry_ok q L s i ip → 0 < i_ref ip → entry_ok q L s i (got_ref ip).
Proof.
  intros [R D F K S] Hr. split; [simpl; lia|intros _; by apply D|done|..].
  - intros HL. destruct (K HL). split; [done|simpl; lia].
  - intros _ Hv. change (stored s (got_ref ip)) with (got_ref (stored s ip)). by rewrite S.
Qed.

Lemma entry_new q L s i ip n :
  entry_ok q L s i ip → i_ref ip = 0 → 0 ≤ n < sb_ninodes (sb s) → entry_ok q L s i (new_ref 1 n ip).
Proof. intros [R D F K S] Hr Hn. split; [simpl; lia|done|done| |done]. intros HL. destruct (K HL). lia. Qed.

(** Inode [n] has one more reference, by entry [i]. *)
Record referenced (q k : Z) (L : list nat) (n : Z) (s : kernel) (i : nat) (s' : kernel) : Prop := {
  rf_moved : moved q k s s';
  rf_ok : icache_ok q L s';
  rf_at : ∃ ip, inode_at i ip s' ∧ i_inum ip = n ∧ 0 < i_ref ip ∧ (i_valid ip = 0 ∨ i_ref ip ≠ 1);
  rf_refs : ∀ m, refs s' m = refs s m + (if m =? n then 1 else 0);
  rf_kept : ∀ j jp, inode_at j jp s → 0 < i_ref jp → inode_at j (if decide (j = i) then got_ref jp else jp) s' }.

Lemma referenced_got q k L s i ip :
  txn q [] k s → icache_ok q L s → inode_at i ip s → 0 < i_ref ip →
  referenced q k L (i_inum ip) s i (s <| icache ::= alter got_ref i |>).
Proof.
  intros Ht Hic Hi Hr. pose proof (lookup_lt_Some _ _ _ Hi) as Hlt. set (s' := s <| icache ::= _ |>).
  assert (Hc : icache s' = <[i := got_ref ip]> (icache s)) by (by apply alter_at).
  assert (Hm : moved q k s s') by (apply moved_icache; [done|by rewrite length_alter]).
  split; [done|..].
  - eapply icache_ok_insert; try done; [by apply entry_got; [apply (ic_entry _ _ _ Hic)|]|].
    intros _ j jp Hne Hj Hrj He. apply Hne. by apply (ic_uniq _ _ _ Hic j i jp ip).
  - exists (got_ref ip). unfold inode_at. rewrite Hc, list_lookup_insert_eq by done.
    split_and!; [done|done|simpl; lia|right; simpl; lia].
  - intros m. rewrite (refs_insert s s' i ip (got_ref ip)) by done. unfold refw. simpl.
    rewrite (proj2 (Z.ltb_lt _ _) Hr), (proj2 (Z.ltb_lt 0 (i_ref ip + 1))), (Z.eqb_sym m) by lia. simpl.
    destruct (_ =? _); lia.
  - intros j jp Hj _. unfold inode_at. rewrite Hc. case_decide as He; [subst j|by rewrite list_lookup_insert_ne].
    rewrite list_lookup_insert_eq by done. unfold inode_at in *. by simplify_eq.
Qed.

Lemma iget_ok q k L s n :
  txn q [] k s → icache_ok q L s → 0 ≤ n < sb_ninodes (sb s) → (size (live s) < length (icache s))%nat →
  ∃ i s', iget 1 n s = Ok i s' ∧ referenced q k L n s i s'.
Proof.
  intros Ht Hic Hn Hfree. rewrite iget_eq by apply (tx_alone _ _ _ _ Ht).
  destruct (find_index _ _) as [i|] eqn:E.
  - apply find_index_Some in E as (ip & Hi & Hf & _). exists i, (s <| icache ::= alter got_ref i |>). split; [done|].
    assert (n = i_inum ip) as -> by lia. apply referenced_got; [done|done|done|lia].
  - rewrite find_index_None in E. destruct (live_free _ _ _ Hic Hfree) as [i Ei]. rewrite Ei.
    apply find_index_Some in Ei as (ip & Hi & Hr & _). apply Z.eqb_eq in Hr.
    pose proof (lookup_lt_Some _ _ _ Hi) as Hlt. set (s' := s <| icache ::= _ |>). exists i, s'. split; [done|].
    assert (Hc : icache s' = <[i := new_ref 1 n ip]> (icache s)) by (by apply alter_at).
    assert (Hm : moved q k s s') by (apply moved_icache; [done|by rewrite length_alter]).
    assert (Hu : ∀ j jp, inode_at j jp s → 0 < i_ref jp → i_inum jp ≠ n).
    { intros j jp Hj Hrj. specialize (E j jp Hj). destruct (en_dev _ _ _ _ _ (ic_entry _ _ _ Hic j jp Hj) Hrj). lia. }
    split; [done|..].
    + eapply icache_ok_insert; try done; [by apply entry_new; [apply (ic_entry _ _ _ Hic)|..]|].
      intros _ j jp _ Hj Hrj. by apply (Hu j).
    + exists (new_ref 1 n ip). unfold inode_at. rewrite Hc, list_lookup_insert_eq by done. split_and!; [done|done|done|by left].
    + intros m. rewrite (refs_insert s s' i ip (new_ref 1 n ip)) by done. unfold refw. simpl.
      rewrite Hr, (Z.eqb_sym m). simpl. destruct (n =? m); lia.
    + intros j jp Hj Hrj. rewrite decide_False by (intros ->; unfold inode_at in *; simplify_eq; lia).
      unfold inode_at. rewrite Hc, list_lookup_insert_ne; [done|]. intros ->. unfold inode_at in *. simplify_eq. lia.
Qed.

Lemma idup_ok q k L s i ip :
  txn q [] k s → icache_ok q L s → inode_at i ip s → 0 < i_ref ip →
  ∃ s', idup i s = Ok i s' ∧ referenced q k L (i_inum ip) s i s'.
Proof.
  intros Ht Hic Hi Hr. exists (s <| icache ::= alter got_ref i |>). split; [|by apply referenced_got].
  pose proof (proj1 (tx_alone _ _ _ _ Ht)) as Hh. unfold idup. rewrite (bind_ok _ _ _ _ _ (acquire_free _ _ Hh)).
  unfold updi. rewrite (bind_ok (modify_state _) _ _ _ _ eq_refl).
  erewrite (bind_ok (release LkIcache)) by (by apply release_last). unfold ret. f_equal. by destruct s; simpl in *; subst.
Qed.

(** ** Locks *)

Definition set_lock (l : sleeplock) (ip : inode) : inode := ip <| i_lock := l |>.

(** Entry [i] has become [ip']. *)
Record entry_set (q k : Z) (L : list nat) (i : nat) (ip' : inode) (s s' : kernel) : Prop := {
  es_moved : moved q k s s';
  es_ok : icache_ok q L s';
  es_icache : icache s' = <[i := ip']> (icache s) }.

Lemma entry_set_at q k L i ip ip' s s' : entry_set q k L i ip' s s' → inode_at i ip s → inode_at i ip' s'.
Proof. intros H Hi. unfold inode_at. rewrite (es_icache _ _ _ _ _ _ _ H). by apply list_lookup_insert_eq, (lookup_lt_Some _ _ _ Hi). Qed.

Lemma entry_set_other q k L i ip' s s' j jp : entry_set q k L i ip' s s' → j ≠ i → inode_at j jp s → inode_at j jp s'.
Proof. intros H Hne Hj. unfold inode_at. by rewrite (es_icache _ _ _ _ _ _ _ H), list_lookup_insert_ne. Qed.

Lemma entry_set_refs q k L i ip ip' s s' m :
  entry_set q k L i ip' s s' → inode_at i ip s → refs s' m = refs s m - refw m ip + refw m ip'.
Proof. intros H Hi. by eapply refs_insert; [|apply (es_icache _ _ _ _ _ _ _ H)]. Qed.

Lemma entry_set_trans q k L1 L2 i ip1 ip2 s s1 s2 :
  entry_set q k L1 i ip1 s s1 → entry_set q k L2 i ip2 s1 s2 → entry_set q k L2 i ip2 s s2.
Proof.
  intros [M1 _ C1] [M2 O2 C2]. split; [by eapply moved_trans|done|]. rewrite C2, C1. apply list_insert_insert_eq.
Qed.

(** A change of the entry that keeps its number and its references. *)
Lemma entry_set_intro q k L L' s s' i ip ip' :
  icache_ok q L s → moved q k s s' → inode_at i ip s → icache s' = <[i := ip']> (icache s) →
  (∀ j, j ≠ i → j ∈ L ↔ j ∈ L') → entry_ok q L' s i ip' → i_inum ip' = i_inum ip → (0 < i_ref ip' → 0 < i_ref ip) →
  entry_set q k L' i ip' s s'.
Proof.
  intros Hic Hm Hi Hc HL He Hn Hr. split; [done| |done]. eapply icache_ok_insert; try done.
  intros Hr' j jp Hne Hj Hrj Heq. apply Hne, (ic_uniq _ _ _ Hic j i jp ip); try done; [by apply Hr|congruence].
Qed.

Lemma entry_locked q L s i ip :
  entry_ok q L s i ip → 0 < i_ref ip → entry_ok q (i :: L) s i (set_lock (mksl 1 q) ip).
Proof.
  intros [R D F K S] Hr. split; [done|done|set_solver|done|].
  intros _ Hv. change (stored s (set_lock (mksl 1 q) ip)) with (set_lock (mksl 1 q) (stored s ip)). by rewrite S.
Qed.

Lemma entry_unlocked q L s i ip : entry_ok q (i :: L) s i ip → i ∉ L → entry_ok q L s i (set_lock (mksl 0 0) ip).
Proof.
  intros [R D F K S] Hi. split; [done|done|done|done|].
  intros Hr Hv. change (stored s (set_lock (mksl 0 0) ip)) with (set_lock (mksl 0 0) (stored s ip)). by rewrite S.
Qed.

Lemma acquire_inode q k L s i ip :
  txn q [] k s → icache_ok q L s → inode_at i ip s → 0 < i_ref ip → i ∉ L →
  ∃ s', acquiresleep (SlInode i) s = Ok tt s' ∧ entry_set q k (i :: L) i (set_lock (mksl 1 q) ip) s s'.
Proof.
  intros Ht Hic Hi Hr HL. destruct (tx_alone _ _ _ _ Ht) as (Hh & me & p & [Hru Hp] & _ & Hq).
  pose proof (ic_entry _ _ _ Hic i ip Hi) as He.
  rewrite (acquiresleep_eq _ s me p) by (done || (simpl; rewrite Hi; by apply (en_free _ _ _ _ _ He))).
  eexists. split; [done|]. rewrite Hq. eapply entry_set_intro; try done.
  - apply moved_icache; [done|by rewrite length_alter].
  - by apply (alter_at (λ x, x <| i_lock := mksl 1 q |>)).
  - set_solver.
  - by apply entry_locked.
Qed.

Lemma release_inode q k L s i ip :
  txn q [] k s → icache_ok q (i :: L) s → inode_at i ip s → i ∉ L →
  ∃ s', releasesleep (SlInode i) s = Ok tt s' ∧ entry_set q k L i (set_lock (mksl 0 0) ip) s s'.
Proof.
  intros Ht Hic Hi HL. pose proof (ic_entry _ _ _ Hic i ip Hi) as He.
  rewrite releasesleep_eq by apply (tx_alone _ _ _ _ Ht). eexists. split; [done|].
  assert (Hm : moved q k s (set_sl (SlInode i) (mksl 0 0) s)) by (apply moved_icache; [done|by rewrite length_alter]).
  eapply entry_set_intro; try done.
  - eapply moved_trans; [exact Hm|]. apply moved_woken, Hm.
  - by apply (alter_at (λ x, x <| i_lock := mksl 0 0 |>)).
  - set_solver.
  - by apply entry_unlocked.
Qed.

Lemma iunlock_ok q k L s i ip :
  txn q [] k s → icache_ok q (i :: L) s → inode_at i ip s → i ∉ L →
  ∃ s', iunlock i s = Ok tt s' ∧ entry_set q k L i (set_lock (mksl 0 0) ip) s s'.
Proof.
  intros Ht Hic Hi HL. destruct (tx_alone _ _ _ _ Ht) as (Hh & me & p & [Hru Hp] & _ & Hq).
  destruct (en_lock _ _ _ _ _ (ic_entry _ _ _ Hic i ip Hi) ltac:(set_solver)) as [Hl Hr].
  unfold iunlock. erewrite bind_ok by (by apply (holdingsleep_eq _ s me p)).
  rewrite (bind_ok _ _ _ _ _ (geti_at _ _ _ Hi)). simpl. rewrite Hi. simpl. rewrite Hl. simpl.
  rewrite Hq, Z.eqb_refl, (proj2 (Z.ltb_ge _ _)) by lia. simpl. by apply release_inode.
Qed.

Lemma nstep_icache s c : nstep s (s <| icache := c |>).
Proof. change (fstep s (s <| icache := icache s |>)). rewrite set_icache_same. reflexivity. Qed.

Lemma load_again o d ip v : load_dinode o d ((load_dinode o d ip) <| i_valid := v |>) = (load_dinode o d ip) <| i_valid := v |>.
Proof.
  unfold load_dinode. generalize (s16 (get16 o d)) (s16 (get16 (o + 2) d)) (s16 (get16 (o + 4) d)) (s16 (get16 (o + 6) d)).
  generalize (get32 (o + 8) d) (di_addrs o d). intros. destruct ip. by vm_compute.
Qed.

Lemma stored_lock s l ip : stored s (set_lock l ip) = set_lock l (stored s ip).
Proof.
  unfold stored. change (iblock s (set_lock l ip)) with (iblock s ip). change (i_inum (set_lock l ip)) with (i_inum ip).
  generalize (block s (iblock s ip)) (inode_off (i_inum ip)). intros d o. unfold load_dinode. done.
Qed.

Lemma set_lock_valid l ip v : (set_lock l ip) <| i_valid := v |> = set_lock l (ip <| i_valid := v |>).
Proof. done. Qed.

Lemma stored_again s ip v : stored s ((stored s ip) <| i_valid := v |>) = (stored s ip) <| i_valid := v |>.
Proof.
  unfold stored at 1. change (iblock s ((stored s ip) <| i_valid := v |>)) with (iblock s ip).
  change (i_inum ((stored s ip) <| i_valid := v |>)) with (i_inum ip). apply load_again.
Qed.

Section Icache.
Context {dk : Disk}.
#[local] Opaque acquire release.

(** The part of [ilock] that reads the inode from the disk. *)
Lemma load_inode meta q k L s i ip :
  txn q [] k s → 0 ≤ k → icache_ok q (i :: L) s → fs_ok meta s → inode_at i ip s → i_valid ip = 0 →
  i_type (stored s ip) ≠ 0 →
  ∃ s', (sb' ← gets sb;
         bp ← bread (i_dev ip) (IBLOCK (i_inum ip) sb');
         x ← getb bp;
         updi i (load_dinode (inode_off (i_inum ip)) (data x)) ;;
         brelse bp ;;
         updi i (λ ip, ip <| i_valid := 1 |>) ;;
         ip ← geti i;
         if i_type ip =? 0 then panic "ilock: no type" else ret tt) s = Ok tt s' ∧
    entry_set q k (i :: L) i ((stored s ip) <| i_valid := 1 |>) s s'.
Proof.
  intros Ht Hk Hic Hfs Hi Hv Hty. pose proof (ic_entry _ _ _ Hic i ip Hi) as He.
  destruct (en_lock _ _ _ _ _ He ltac:(set_solver)) as [Hl Hr]. destruct (en_dev _ _ _ _ _ He Hr) as [Hd Hn].
  destruct (iblock_range meta s ip Hfs Hn) as [Hib Hbm]. destruct (fk_layout _ _ Hfs).
  rewrite (bind_ok (gets sb) _ _ _ _ eq_refl), Hd. fold (iblock s ip).
  destruct (bread_txn q [] k s (iblock s ip) Ht Hk) as (bp & s1 & Hb & Hop);
    [unfold in_disk; lia|simpl; lia|intros x Hx; by apply not_elem_of_nil in Hx|].
  rewrite (bind_ok _ _ _ _ _ Hb). unfold getb. rewrite (bind_ok (gets _) _ _ _ _ eq_refl), (op_data _ _ _ _ _ _ _ Hop).
  unfold updi. rewrite (bind_ok (modify_state _) _ _ _ _ eq_refl).
  set (f := load_dinode (inode_off (i_inum ip)) (block s (iblock s ip))). set (s2 := s1 <| icache ::= alter f i |>).
  assert (Ht2 : txn q [bp] k s2) by (apply txn_icache, Hop).
  destruct (brelse_txn q [] k s2 bp Ht2 ltac:(apply not_elem_of_nil)) as (s3 & H3 & [Ht3 _ Hbl3 _ Hst3]).
  rewrite (bind_ok _ _ _ _ _ H3), (bind_ok (modify_state _) _ _ _ _ eq_refl). set (s4 := s3 <| icache ::= _ |>).
  assert (Hc1 : icache s1 = icache s) by apply (fstep_icache _ _ (op_step _ _ _ _ _ _ _ Hop)).
  assert (Hc3 : icache s3 = <[i := stored s ip]> (icache s)).
  { rewrite (fstep_icache _ _ Hst3). unfold s2. simpl. rewrite Hc1. exact (alter_at f i ip _ Hi). }
  assert (Hc4 : icache s4 = <[i := (stored s ip) <| i_valid := 1 |>]> (icache s)).
  { unfold s4. simpl. rewrite Hc3. pose proof (lookup_lt_Some _ _ _ Hi).
    rewrite (alter_at _ i (stored s ip)) by (by apply list_lookup_insert_eq). apply list_insert_insert_eq. }
  assert (Hi4 : inode_at i ((stored s ip) <| i_valid := 1 |>) s4).
  { unfold inode_at. rewrite Hc4. by apply list_lookup_insert_eq, (lookup_lt_Some _ _ _ Hi). }
  rewrite (bind_ok _ _ _ _ _ (geti_at _ _ _ Hi4)).
  change (i_type ((stored s ip) <| i_valid := 1 |>)) with (i_type (stored s ip)). rewrite (proj2 (Z.eqb_neq _ 0) Hty).
  exists s4. split; [done|]. apply (entry_set_intro q k (i :: L) (i :: L) s s4 i ip); [exact Hic| |exact Hi|exact Hc4|done| |done|done].
  - split; [by apply txn_icache|..].
    + intros m. change (block s4 m) with (block s3 m). rewrite Hbl3. apply (op_block _ _ _ _ _ _ _ Hop).
    + by rewrite Hc4, length_insert.
    + etransitivity; [apply nstep_fstep, Hop|]. etransitivity; [apply (nstep_icache s1)|].
      etransitivity; [apply nstep_fstep, Hst3|]. apply nstep_icache.
  - destruct He as [R D F K S]. split; [done|done|set_solver|done|]. intros _ _. apply stored_again.
Qed.

(** [ilock] of an inode that is in use on the disk: the entry is what the disk
    says. *)
Lemma ilock_ok meta q k L s i ip :
  txn q [] k s → 0 ≤ k → icache_ok q L s → fs_ok meta s → inode_at i ip s → 0 < i_ref ip → i ∉ L →
  i_type (stored s ip) ≠ 0 →
  ∃ v s', ilock i s = Ok tt s' ∧ v ≠ 0 ∧
    entry_set q k (i :: L) i (set_lock (mksl 1 q) ((stored s ip) <| i_valid := v |>)) s s'.
Proof.
  intros Ht Hk Hic Hfs Hi Hr HL Hty. unfold ilock. rewrite (bind_ok _ _ _ _ _ (geti_at _ _ _ Hi)).
  rewrite (proj2 (Z.ltb_ge _ _)) by lia. destruct (acquire_inode q k L s i ip Ht Hic Hi Hr HL) as (s1 & H1 & Hs1).
  pose proof (entry_set_at _ _ _ _ _ _ _ _ Hs1 Hi) as Hi1. destruct (es_moved _ _ _ _ _ _ _ Hs1) as [Ht1 Hb1 Hl1 Hst1] eqn:E.
  rewrite (bind_ok _ _ _ _ _ H1), (bind_ok _ _ _ _ _ (geti_at _ _ _ Hi1)).
  change (i_valid (set_lock (mksl 1 q) ip)) with (i_valid ip).
  pose proof (stored_moved _ _ _ _ (set_lock (mksl 1 q) ip) (es_moved _ _ _ _ _ _ _ Hs1)) as Hst.
  rewrite (stored_lock s) in Hst.
  destruct (Z.eqb_spec (i_valid ip) 0) as [Hv|Hv].
  - destruct (load_inode meta q k L s1 i (set_lock (mksl 1 q) ip) Ht1 Hk) as (s2 & H2 & Hs2); try done.
    + apply Hs1.
    + by eapply fs_ok_moved; [apply Hs1|].
    + by rewrite Hst.
    + exists 1, s2. split; [exact H2|]. split; [done|]. eapply entry_set_trans; [exact Hs1|]. rewrite Hst, set_lock_valid in Hs2. exact Hs2.
  - exists (i_valid ip), s1. split; [done|]. split; [done|].
    rewrite (en_stored _ _ _ _ _ (ic_entry _ _ _ Hic i ip Hi) Hr Hv).
    replace (ip <| i_valid := i_valid ip |>) with ip by (by destruct ip). done.
Qed.

(** [iput] of an inode that stays: it has links, or other references, or was
    never read. *)
Lemma iput_ok q k L s i ip :
  txn q [] k s → icache_ok q L s → inode_at i ip s → 0 < i_ref ip → i ∉ L →
  i_valid ip = 0 ∨ i_nlink ip ≠ 0 ∨ i_ref ip ≠ 1 →
  ∃ s', iput i s = Ok tt s' ∧ entry_set q k L i (put_ref (set_lock (mksl 0 0) ip)) s s'.
Proof.
  intros Ht Hic Hi Hr HL Hno. unfold iput.
  destruct (acquire_inode q k L s i ip Ht Hic Hi Hr HL) as (s1 & H1 & Hs1).
  pose proof (entry_set_at _ _ _ _ _ _ _ _ Hs1 Hi) as Hi1. pose proof (mv_txn _ _ _ _ (es_moved _ _ _ _ _ _ _ Hs1)) as Ht1.
  pose proof (proj1 (tx_alone _ _ _ _ Ht1)) as Hh1.
  rewrite (bind_ok _ _ _ _ _ H1), (bind_ok _ _ _ _ _ (geti_at _ _ _ Hi1)).
  change (i_valid (set_lock (mksl 1 q) ip)) with (i_valid ip). change (i_nlink (set_lock (mksl 1 q) ip)) with (i_nlink ip).
  erewrite (bind_ok _ _ s1 tt s1).
  2: { destruct (negb (i_valid ip =? 0) && (i_nlink ip =? 0)) eqn:E; [|done].
       rewrite (bind_ok _ _ _ _ _ (acquire_free _ _ Hh1)).
       erewrite (bind_ok (geti i)) by (apply geti_at; exact Hi1).
       erewrite (bind_ok (release LkIcache)) by (by apply release_last). simpl.
       rewrite (proj2 (Z.eqb_neq _ 1)) by (destruct Hno as [|[|]]; [lia|lia|done]). unfold ret. f_equal. by destruct s1; simpl in *; subst. }
  destruct (release_inode q k L s1 i _ Ht1 (es_ok _ _ _ _ _ _ _ Hs1) Hi1 HL) as (s2 & H2 & Hs2).
  pose proof (entry_set_trans _ _ _ _ _ _ _ _ _ _ Hs1 Hs2) as Hs12.
  pose proof (entry_set_at _ _ _ _ _ _ _ _ Hs12 Hi) as Hi2. pose proof (mv_txn _ _ _ _ (es_moved _ _ _ _ _ _ _ Hs2)) as Ht2.
  pose proof (proj1 (tx_alone _ _ _ _ Ht2)) as Hh2.
  rewrite (bind_ok _ _ _ _ _ H2), (bind_ok _ _ _ _ _ (acquire_free _ _ Hh2)). unfold updi.
  rewrite (bind_ok (modify_state _) _ _ _ _ eq_refl). erewrite release_last by done.
  eexists. split; [done|]. set (ip2 := set_lock (mksl 0 0) ip) in *.
  eapply entry_set_trans; [exact Hs12|]. eapply (entry_set_intro q k L L s2 _ i ip2); try done; [by apply Hs12|..].
  - match goal with |- moved _ _ _ ?x => replace x with (s2 <| icache ::= alter put_ref i |>) by (by destruct s2; simpl in *; subst) end.
    apply moved_icache; [done|by rewrite length_alter].
  - by apply (alter_at put_ref).
  - destruct (ic_entry _ _ _ (es_ok _ _ _ _ _ _ _ Hs12) i ip2 Hi2) as [R D F K S]. split; simpl in *; try done; [lia|intros; apply D; lia|].
    intros Hr' Hv. change (stored s2 (put_ref ip2)) with (put_ref (stored s2 ip2)). by rewrite S.
Qed.
End Icache.
