(* ===== verification/Dir.v ===== *)
(** * Directories and path names: the rest of fs.c

    A path is the list of its characters without the terminating zero; the
    [name] buffers have [DIRSIZ] bytes and no terminating zero when they are
    full. *)

From Stdlib Require Import Ascii String.
From S2P Require Import Prelude Bytes Kernel Cstring Sched Proc Waiting Screen Console Sleeplock Bio Log Fs.
Open Scope Z_scope.

Definition namecmp (s t : list Z) : Z := strncmp s t (Z.to_nat DIRSIZ).

(** ** skipelem *)

Definition slash : Z := chr "/".

(** [while( *path == '/') path++] *)
Fixpoint skip_slashes (p : list Z) : list Z :=
  match p with
  | c :: p' => if c =? slash then skip_slashes p' else p
  | [] => []
  end.

(** [while( *path != '/' && *path != 0) path++]: the characters passed, and the rest. *)
Fixpoint take_elem (p : list Z) : list Z * list Z :=
  match p with
  | c :: p' => if c =? slash then ([], p) else let '(e, r) := take_elem p' in (c :: e, r)
  | [] => ([], [])
  end.

(** What [skipelem] leaves in the buffer [name] for the element [e]. *)
Definition put_name (e name : list Z) : list Z :=
  if DIRSIZ <=? Z.of_nat (length e) then take (Z.to_nat DIRSIZ) e
  else splice 0 (e ++ [0]) name.

Definition skipelem (path name : list Z) : option (list Z * list Z) :=
  match skip_slashes path with
  | [] => None
  | p =>
      let '(e, r) := take_elem p in
      Some (skip_slashes r, put_name e name)
  end.

Section Dir.
Context {dk : Disk} {dv : Devsw}.

(** ** Directories *)

(** The offsets [off = first, first + 16, ...] below [size]. *)
Definition dir_offs (first size : Z) : list Z :=
  (λ k, first + DIRENT * Z.of_nat k) <$> seq 0 (Z.to_nat ((size - first + DIRENT - 1) / DIRENT)).

(** One entry; a short read panics. *)
Definition read_dirent (dp : nat) (off : Z) (msg : string) : KM (list Z) :=
  '(r, de) ← readi dp off DIRENT;
  if negb (r =? DIRENT) then panic msg else ret de.

(** The entry with a given name: its offset and its inode number. *)
Fixpoint dirlookup_loop (dp : nat) (name : list Z) (offs : list Z) : KM (option (Z * Z)) :=
  match offs with
  | [] => ret None
  | off :: offs' =>
      de ← read_dirent dp off "dirlookup read";
      if de_inum de =? 0 then dirlookup_loop dp name offs'
      else if namecmp name (de_name de) =? 0 then ret (Some (off, de_inum de))
      else dirlookup_loop dp name offs'
  end.

(** The inode found, and [*poff]. *)
Definition dirlookup (dp : nat) (name : list Z) : KM (option (nat * Z)) :=
  ip ← geti dp;
  if negb (i_type ip =? T_DIR) then panic "dirlookup not DIR" else
  r ← dirlookup_loop dp name (dir_offs 0 (i_size ip));
  match r with
  | None => ret None
  | Some (off, inum) => i ← iget (i_dev ip) inum; ret (Some (i, off))
  end.

(** The offset of the first empty entry, or the end. *)
Fixpoint dirlink_loop (dp : nat) (offs : list Z) (last : Z) : KM Z :=
  match offs with
  | [] => ret last
  | off :: offs' =>
      de ← read_dirent dp off "dirlink read";
      if de_inum de =? 0 then ret off else dirlink_loop dp offs' (off + DIRENT)
  end.

(** [strncpy] fills all of [de.name], so that what was there does not matter. *)
Definition dirlink (dp : nat) (name : list Z) (inum : Z) : KM Z :=
  r ← dirlookup dp name;
  match r with
  | Some (ip, _) => iput ip ;; ret (-1)
  | None =>
      ip ← geti dp;
      off ← dirlink_loop dp (dir_offs 0 (i_size ip)) 0;
      let de := mk_dirent (u16 inum) (strncpy (replicate (Z.to_nat DIRSIZ) 0) name (Z.to_nat DIRSIZ)) in
      w ← writei dp de off DIRENT;
      if negb (w =? DIRENT) then panic "dirlink" else ret 0
  end.

(** ** Paths *)

(** The loop of [namex]; [fuel] is more than the length of the path. *)
Fixpoint namex_loop (fuel : nat) (ip : nat) (path : list Z) (nameiparent : bool) (name : list Z)
    : KM (option nat * list Z) :=
  match fuel with
  | O => panic "namex: out of fuel"
  | S fuel' =>
      match skipelem path name with
      | None =>
          if nameiparent then iput ip ;; ret (None, name) else ret (Some ip, name)
      | Some (path, name) =>
          ilock ip ;;
          x ← geti ip;
          if negb (i_type x =? T_DIR) then iunlockput ip ;; ret (None, name)
          else if nameiparent && bool_decide (path = []) then iunlock ip ;; ret (Some ip, name)
          else
            r ← dirlookup ip name;
            match r with
            | None => iunlockput ip ;; ret (None, name)
            | Some (nxt, _) =>
                iunlockput ip ;;
                namex_loop fuel' nxt path nameiparent name
            end
      end
  end.

(** A null [cwd] would be dereferenced by [idup]. *)
Definition namex (path : list Z) (nameiparent : bool) (name : list Z) : KM (option nat * list Z) :=
  ip ← (if char_at path =? slash then iget ROOTDEV ROOTINO
        else
          cur ← curproc;
          p ← getp cur;
          match cwd p with
          | None => panic "trap"
          | Some c => idup c
          end);
  namex_loop (S (length path)) ip path nameiparent name.

Definition name0 : list Z := replicate (Z.to_nat DIRSIZ) 0.

Definition namei (path : list Z) : KM (option nat) :=
  '(ip, _) ← namex path false name0;
  ret ip.

Definition nameiparent (path : list Z) : KM (option nat * list Z) := namex path true name0.
End Dir.
