(* ===== verification/Dirent.v ===== *)
(** * Directories

    A directory is a file of entries.  [dirlookup] finds the first entry in use
    with the name, [dirlink] enters a name that is not there, in the first free
    entry or at the end, and changes the lookup of no other name. *)

From S2P Require Import Prelude Bytes Kernel Cstring Sched Proc Waiting Sleeplock Bio Log Reserve.
From S2P Require Import Fs Dinode Txn Smallfs Blocks Inode Content Smalldir Icache Dir.

(** ** The entries of a directory *)

Definition nents (ip : inode) : nat := Z.to_nat (i_size ip / DIRENT).
Definition dent (s : kernel) (ip : inode) (k : nat) : list Z := fbytes s ip (DIRENT * Z.of_nat k) DIRENT.
Definition dents (s : kernel) (ip : inode) : list (list Z) := dent s ip <$> seq 0 (nents ip).

(** The name of an entry, and of a buffer of [DIRSIZ] bytes: up to its first zero. *)
Definition fname (l : list Z) : list Z := cstr l (Z.to_nat DIRSIZ).

Definition has_name (nm : list Z) (de : list Z) : bool :=
  negb (de_inum de =? 0) && bool_decide (fname (de_name de) = nm).

(** The lookup of the name [nm]: the entry and the inode number. *)
Definition find_name (nm : list Z) (l : list (list Z)) : option (nat * Z) :=
  match find_index (has_name nm) l with
  | Some k => Some (k, de_inum (nth k l []))
  | None => None
  end.

Definition dir_find (s : kernel) (ip : inode) (nm : list Z) : option (nat * Z) := find_name nm (dents s ip).

Record dir_ok (meta : Z) (s : kernel) (ip : inode) : Prop := {
  do_file : file_ok meta s ip;
  do_type : i_type ip = T_DIR;
  do_size : i_size ip mod DIRENT = 0;
  do_bytes : ∀ o, 0 ≤ o < i_size ip → is_u8 (fbyte s ip o) }.

Lemma find_name_cons nm de l :
  find_name nm (de :: l) =
  if has_name nm de then Some (0%nat, de_inum de)
  else match find_name nm l with Some (k, n) => Some (S k, n) | None => None end.
Proof. unfold find_name. simpl. destruct (has_name nm de); [done|]. by destruct (find_index _ l). Qed.

Lemma length_fbytes s ip off n : length (fbytes s ip off n) = Z.to_nat n.
Proof. unfold fbytes. by rewrite length_fmap, length_seqZ. Qed.

Lemma length_dents s ip : length (dents s ip) = nents ip.
Proof. unfold dents. by rewrite length_fmap, length_seq. Qed.

Lemma dents_lookup s ip k : (k < nents ip)%nat → dents s ip !! k = Some (dent s ip k).
Proof. intros Hk. unfold dents. rewrite list_lookup_fmap, lookup_seq_lt by done. done. Qed.

Lemma dents_drop s ip k : (k < nents ip)%nat → drop k (dents s ip) = dent s ip k :: drop (S k) (dents s ip).
Proof. intros Hk. apply drop_S. by apply dents_lookup. Qed.

Lemma dent_range ip k : i_size ip mod DIRENT = 0 → (k < nents ip)%nat → 0 ≤ DIRENT * Z.of_nat k ∧ DIRENT * Z.of_nat k + DIRENT ≤ i_size ip.
Proof. unfold nents, DIRENT. intros Hm Hk. Z.div_mod_to_equations. lia. Qed.

Lemma dent_bytes meta s ip k : dir_ok meta s ip → (k < nents ip)%nat → bytes_ok (dent s ip k).
Proof.
  intros Hd Hk. destruct (dent_range ip k (do_size _ _ _ Hd) Hk). apply Forall_fmap, Forall_forall.
  intros o Ho. apply elem_of_seqZ in Ho. apply (do_bytes _ _ _ Hd). lia.
Qed.

Lemma dir_offs_eq ip : i_size ip mod DIRENT = 0 → dir_offs 0 (i_size ip) = (λ k, DIRENT * Z.of_nat k) <$> seq 0 (nents ip).
Proof.
  intros Hm. unfold dir_offs, nents. rewrite Z.sub_0_r.
  replace ((i_size ip + DIRENT - 1) / DIRENT) with (i_size ip / DIRENT) by (unfold DIRENT in *; Z.div_mod_to_equations; lia).
  done.
Qed.

(** ** Entering a name *)

(** The entry that [dirlink] fills. *)
Definition free_entry (l : list (list Z)) : nat := default (length l) (find_index (λ de, de_inum de =? 0) l).

Lemma free_entry_cons de l : free_entry (de :: l) = if de_inum de =? 0 then 0%nat else S (free_entry l).
Proof. unfold free_entry. simpl. destruct (de_inum de =? 0); [done|]. by destruct (find_index _ l). Qed.

Lemma free_entry_le l : (free_entry l ≤ length l)%nat.
Proof. induction l as [|de l IH]; [done|]. rewrite free_entry_cons. destruct (_ =? _); simpl; lia. Qed.

Definition link_entry (de : list Z) (l : list (list Z)) : list (list Z) :=
  take (free_entry l) l ++ de :: drop (S (free_entry l)) l.

(** The names after [de] has been entered. *)
Lemma find_name_link nm nm' de l :
  de_inum de ≠ 0 → fname (de_name de) = nm → find_name nm l = None →
  find_name nm' (link_entry de l) = if decide (nm' = nm) then Some (free_entry l, de_inum de) else find_name nm' l.
Proof.
  intros Hde Hnm.
  assert (Hhas : has_name nm' de = bool_decide (nm' = nm)).
  { unfold has_name. rewrite (proj2 (Z.eqb_neq _ _) Hde), Hnm. simpl. by apply bool_decide_ext. }
  induction l as [|x l IH]; intros Hnone.
  - unfold link_entry. simpl. rewrite find_name_cons, Hhas. by case_bool_decide; case_decide.
  - unfold link_entry. rewrite free_entry_cons. rewrite find_name_cons in Hnone. destruct (Z.eqb_spec (de_inum x) 0) as [Hx|Hx].
    + simpl. rewrite drop_0, !find_name_cons, Hhas.
      assert (has_name nm' x = false) as -> by (unfold has_name; by rewrite Hx).
      by case_bool_decide; case_decide.
    + cbn [take drop app]. fold (link_entry de l). destruct (has_name nm x) eqn:Ex; [done|].
      destruct (find_name nm l) as [[]|]; [done|]. rewrite !find_name_cons, IH by done. case_decide as Heq; [|done].
      subst nm'. by rewrite Ex.
Qed.

(** ** Directories that do not change *)

Lemma file_ok_same meta s s' ip :
  file_ok meta s ip → sb s' = sb s → (∀ m, block s' m = block s m) → file_ok meta s' ip.
Proof.
  intros [I F S N St] Hsb Hb. split; [by eapply inode_ok_same| |done|by rewrite Hsb|].
  - intros bn Hbn. rewrite (slot_block s s') by done. by apply F.
  - unfold iblock in *. by rewrite Hsb, Hb.
Qed.

Lemma fbyte_same s s' ip o : (∀ m, block s' m = block s m) → fbyte s' ip o = fbyte s ip o.
Proof. intros Hb. unfold fbyte. by rewrite (contents_same s s'). Qed.

Lemma dents_same s s' ip : (∀ m, block s' m = block s m) → dents s' ip = dents s ip.
Proof.
  intros Hb. apply list_fmap_ext. intros k x _. apply fbytes_ext. intros o _. by apply fbyte_same.
Qed.

Lemma dir_ok_same meta s s' ip :
  dir_ok meta s ip → sb s' = sb s → (∀ m, block s' m = block s m) → dir_ok meta s' ip.
Proof.
  intros [F T S B] Hsb Hb. split; [by eapply file_ok_same|done|done|]. intros o Ho. rewrite (fbyte_same s) by done. by apply B.
Qed.

(** ** dirlookup *)

#[local] Opaque acquire release.

Section Dirent.
Context {dk : Disk} {dv : Devsw}.

Lemma read_dirent_ok meta q kk i ip k msg s :
  txn q [] kk s → 0 ≤ kk → inode_at i ip s → fs_ok meta s → dir_ok meta s ip → (k < nents ip)%nat →
  ∃ s', read_dirent i (DIRENT * Z.of_nat k) msg s = Ok (dent s ip k) s' ∧ touched q [] kk (block s) s s'.
Proof.
  intros Ht Hkk Hat Hfs [[Hio Hfull Hsz Hin _] Hty Hm _] Hk. destruct (dent_range ip k Hm Hk) as [H1 H2].
  destruct (readi_ok meta q kk i ip (DIRENT * Z.of_nat k) DIRENT s) as (s' & Hr & Hto); try done;
    [by rewrite Hty|unfold DIRENT in *; lia|lia|unfold DIRENT, MAXFILE, BSIZE in *; lia|].
  assert (Hc : clipped (i_size ip) (DIRENT * Z.of_nat k) DIRENT = DIRENT) by (unfold clipped; by rewrite (proj2 (Z.ltb_ge _ _))).
  exists s'. split; [|done]. unfold read_dirent. rewrite (bind_ok _ _ _ _ _ Hr), Hc, Z.eqb_refl. done.
Qed.

Lemma namecmp_eq meta s ip k name :
  dir_ok meta s ip → (k < nents ip)%nat → bytes_ok name →
  (namecmp name (de_name (dent s ip k)) =? 0) = bool_decide (fname (de_name (dent s ip k)) = fname name).
Proof.
  intros Hd Hk Hn. assert (Hb : bytes_ok (de_name (dent s ip k))) by (apply Forall_drop; by eapply dent_bytes).
  pose proof (strncmp_zero name (de_name (dent s ip k)) (Z.to_nat DIRSIZ) Hn Hb) as Hz. unfold namecmp.
  apply Bool.eq_iff_eq_true. rewrite Z.eqb_eq, bool_decide_eq_true, Hz. unfold fname. by split.
Qed.

Lemma dirlookup_loop_ok meta q kk i ip name m : ∀ j s,
  txn q [] kk s → 0 ≤ kk → inode_at i ip s → fs_ok meta s → dir_ok meta s ip → bytes_ok name → (j + m = nents ip)%nat →
  ∃ s', dirlookup_loop i name ((λ k, DIRENT * Z.of_nat k) <$> seq j m) s =
      Ok (match find_name (fname name) (drop j (dents s ip)) with
          | Some (k, n) => Some (DIRENT * Z.of_nat (j + k), n)
          | None => None
          end) s' ∧ touched q [] kk (block s) s s'.
Proof.
  induction m as [|m IH]; intros j s Ht Hkk Hat Hfs Hd Hn Hj.
  { exists s. rewrite drop_ge by (rewrite length_dents; lia). split; [done|]. by apply touched_refl. }
  cbn [seq fmap list_fmap dirlookup_loop]. rewrite dents_drop, find_name_cons by lia.
  destruct (read_dirent_ok meta q kk i ip j "dirlookup read" s) as (s1 & H1 & Hto1); try done; [lia|].
  rewrite (bind_ok _ _ _ _ _ H1). unfold has_name. pose proof (namecmp_eq meta s ip j name Hd ltac:(lia) Hn) as Hcmp.
  assert (Hrest : ∃ s', dirlookup_loop i name ((λ k, DIRENT * Z.of_nat k) <$> seq (S j) m) s1 =
      Ok (match match find_name (fname name) (drop (S j) (dents s ip)) with Some (k, n) => Some (S k, n) | None => None end with
          | Some (k, n) => Some (DIRENT * Z.of_nat (j + k), n)
          | None => None
          end) s' ∧ touched q [] kk (block s) s s').
  { pose proof Hto1 as [Ht1 Hb1 _ Hst1]. destruct (IH (S j) s1) as (s2 & H2 & Hto2); try done; [..|lia|].
    - unfold inode_at. by rewrite (fstep_icache _ _ Hst1).
    - by eapply fs_ok_same; [|apply (fstep_sb _ _ Hst1)|apply (fstep_disk _ _ Hst1)|].
    - eapply dir_ok_same; [done|apply (fstep_sb _ _ Hst1)|done].
    - exists s2. rewrite H2, (dents_same s s1) by done. split.
      + clear H2. destruct (find_name _ _) as [[k n]|]; [|done]. by rewrite <-Nat.add_succ_comm.
      + apply (touched_ext q [] kk (block s1)); [exact Hb1|]. eapply touched_trans; [exact Hto1|exact Hto2]. }
  destruct (Z.eqb_spec (de_inum (dent s ip j)) 0) as [Hz|Hz]; [exact Hrest|].
  rewrite Hcmp. cbn [negb andb]. case_bool_decide as Heq; [|exact Hrest].
  exists s1. split; [|done]. unfold ret. by rewrite Nat.add_0_r.
Qed.

(** [dirlookup] on every directory and name: the inode of the first entry in use
    with the name, by one more reference to it. *)
Lemma dirlookup_ok meta q kk L i ip name s :
  txn q [] kk s → 0 ≤ kk → icache_ok q L s → inode_at i ip s → fs_ok meta s → dir_ok meta s ip → bytes_ok name →
  match dir_find s ip (fname name) with
  | None => ∃ s', dirlookup i name s = Ok None s' ∧ touched q [] kk (block s) s s'
  | Some (k, n) =>
      0 ≤ n < sb_ninodes (sb s) → (size (live s) < length (icache s))%nat →
      ∃ j s1 s', dirlookup i name s = Ok (Some (j, DIRENT * Z.of_nat k)) s' ∧ touched q [] kk (block s) s s1 ∧
        referenced q kk L n s1 j s'
  end.
Proof.
  intros Ht Hkk Hic Hat Hfs Hd Hn.
  destruct (dirlookup_loop_ok meta q kk i ip name (nents ip) 0 s) as (s1 & H1 & Hto); try done.
  rewrite drop_0 in H1. fold (dir_find s ip (fname name)) in H1.
  assert (Heq : dirlookup i name s =
    match match dir_find s ip (fname name) with
          | Some (k, n) => Some (DIRENT * Z.of_nat (0 + k), n)
          | None => None
          end with
    | None => ret None
    | Some (off, inum) => j ← iget 1 inum; ret (Some (j, off))
    end s1).
  { unfold dirlookup. rewrite (bind_ok _ _ _ _ _ (geti_at _ _ _ Hat)), (do_type _ _ _ Hd), Z.eqb_refl, dir_offs_eq by apply Hd.
    rewrite (io_dev _ _ _ (fo_inode _ _ _ (do_file _ _ _ Hd))). cbn [negb]. by rewrite (bind_ok _ _ _ _ _ H1). }
  rewrite Heq. clear Heq H1.
  destruct (dir_find s ip (fname name)) as [[k n]|]; [|by exists s1].
  intros Hr Hfree.
  pose proof (moved_touched _ _ _ _ Hto) as Hmv. pose proof (fstep_icache _ _ (to_step _ _ _ _ _ _ Hto)) as Hc.
  destruct (iget_ok q kk L s1 n) as (j & s2 & H2 & Hrf).
  - apply Hmv.
  - by eapply icache_ok_moved.
  - by rewrite (nstep_sb _ _ (mv_step _ _ _ _ Hmv)).
  - unfold live. by rewrite Hc.
  - exists j, s1, s2. rewrite (bind_ok _ _ _ _ _ H2). done.
Qed.

(** ** dirlink *)

Lemma dirlink_loop_ok meta q kk i ip m : ∀ j last s,
  txn q [] kk s → 0 ≤ kk → inode_at i ip s → fs_ok meta s → dir_ok meta s ip → (j + m = nents ip)%nat →
  last = DIRENT * Z.of_nat j →
  ∃ s', dirlink_loop i ((λ k, DIRENT * Z.of_nat k) <$> seq j m) last s =
      Ok (DIRENT * Z.of_nat (j + free_entry (drop j (dents s ip)))) s' ∧ touched q [] kk (block s) s s'.
Proof.
  induction m as [|m IH]; intros j last s Ht Hkk Hat Hfs Hd Hj ->.
  { exists s. rewrite drop_ge by (rewrite length_dents; lia). unfold free_entry. simpl. rewrite Nat.add_0_r.
    split; [done|]. by apply touched_refl. }
  cbn [seq fmap list_fmap dirlink_loop]. rewrite dents_drop by lia.
  destruct (read_dirent_ok meta q kk i ip j "dirlink read" s) as (s1 & H1 & Hto1); try done; [lia|].
  rewrite (bind_ok _ _ _ _ _ H1), free_entry_cons.
  destruct (de_inum (dent s ip j) =? 0); [exists s1; by rewrite Nat.add_0_r|].
  pose proof Hto1 as [Ht1 Hb1 _ Hst1].
  destruct (IH (S j) (DIRENT * Z.of_nat j + DIRENT) s1) as (s2 & H2 & Hto2); try done; [..|lia|lia|].
  - unfold inode_at. by rewrite (fstep_icache _ _ Hst1).
  - by eapply fs_ok_same; [|apply (fstep_sb _ _ Hst1)|apply (fstep_disk _ _ Hst1)|].
  - eapply dir_ok_same; [done|apply (fstep_sb _ _ Hst1)|done].
  - exists s2. split.
    + rewrite H2, (dents_same s s1) by done. by rewrite <-Nat.add_succ_comm.
    + apply (touched_ext q [] kk (block s1)); [exact Hb1|]. eapply touched_trans; [exact Hto1|exact Hto2].
Qed.

(** The new entry. *)
Definition new_entry (name : list Z) (n : Z) : list Z :=
  mk_dirent (u16 n) (strncpy (replicate (Z.to_nat DIRSIZ) 0) name (Z.to_nat DIRSIZ)).

Lemma new_entry_spec name n :
  0 ≤ n < 65536 → bytes_ok name →
  Z.of_nat (length (new_entry name n)) = DIRENT ∧ de_inum (new_entry name n) = n ∧
  fname (de_name (new_entry name n)) = fname name ∧ bytes_ok (new_entry name n).
Proof.
  intros Hn Hb. pose proof (cstr_length name (Z.to_nat DIRSIZ)) as Hlen. unfold new_entry, mk_dirent.
  rewrite strncpy_spec by (by rewrite length_replicate). rewrite drop_ge, app_nil_r by (by rewrite length_replicate).
  set (nm := cstr name (Z.to_nat DIRSIZ)) in *. assert (Hu : u16 n = n) by (unfold u16; rewrite Z.mod_small; lia).
  assert (Hnb : bytes_ok nm).
  { clear Hlen. subst nm. revert name Hb. induction (Z.to_nat DIRSIZ) as [|k IH]; intros name Hb; cbn [cstr]; [constructor|].
    destruct (char_at name =? 0); [constructor|]. constructor; [destruct Hb; [by split|done]|]. by apply IH, bytes_ok_tl. }
  split_and!.
  - rewrite !length_app, length_le_bytes, length_replicate. unfold DIRSIZ, DIRENT in *. lia.
  - unfold de_inum, get16, slice. rewrite drop_0, take_app_le by (by rewrite length_le_bytes).
    rewrite take_ge by (by rewrite length_le_bytes). rewrite le_val_bytes, Hu. apply Z.mod_small. lia.
  - unfold de_name, fname. rewrite drop_app_length' by (by rewrite length_le_bytes).
    rewrite cstr_app_nonzero by (done || apply cstr_nonzero). rewrite <-(app_nil_r (replicate _ _)), cstr_zeros by done.
    by rewrite app_nil_r.
  - apply Forall_app. split; [|apply Forall_app; split; [done|by apply Forall_replicate]].
    rewrite Hu. unfold le_bytes. simpl. repeat constructor; unfold is_u8; Z.div_mod_to_equations; lia.
Qed.

(** A write after reads that changed nothing. *)
Lemma file_written_touched meta q k0 kk i off src ip s s1 ip' s' :
  inode_at i ip s → touched q [] k0 (block s) s s1 → file_written meta q kk i off src ip s1 ip' s' →
  file_written meta q kk i off src ip s ip' s'.
Proof.
  intros Hat [_ Hb _ Hst] [T A F Fo I B D Lo In St]. pose proof (fstep_sb _ _ Hst) as Hsb.
  assert (Hu : ∀ m, used s1 m = used s m) by (intros m; by apply used_same).
  assert (Hib : iblock s1 ip = iblock s ip) by (unfold iblock; by rewrite Hsb).
  split; try done.
  - intros o Ho. rewrite B by done. by rewrite (fbyte_same s s1).
  - intros m Hm Hus Hk. rewrite <-Hb. apply D; [by rewrite Hsb|by rewrite Hu|].
    intros k Hlt. rewrite (slot_block s s1) by done. by apply Hk.
  - intros m Hm Hne. rewrite <-Hb. apply Lo; [by rewrite Hsb|by rewrite Hib].
  - intros o w How. rewrite <-Hb, <-Hib. by apply In.
  - eapply istep_trans; [|exact St]. by eapply istep_fstep.
Qed.

(** The entries after a write of entry [e]. *)
Lemma dents_written meta q kk i ip s ip' s' de :
  dir_ok meta s ip → Z.of_nat (length de) = DIRENT → DIRENT * Z.of_nat (S (free_entry (dents s ip))) ≤ MAXFILE * BSIZE →
  file_written meta q kk i (DIRENT * Z.of_nat (free_entry (dents s ip))) de ip s ip' s' →
  dents s' ip' = link_entry de (dents s ip) ∧
  nents ip' = Nat.max (nents ip) (S (free_entry (dents s ip))) ∧ i_size ip' mod DIRENT = 0.
Proof.
  intros Hd Hlen Hmax Hw. set (e := free_entry (dents s ip)) in *.
  pose proof (free_entry_le (dents s ip)) as He. rewrite length_dents in He. fold e in He.
  pose proof (do_size _ _ _ Hd) as Hm. pose proof (fo_size _ _ _ (do_file _ _ _ Hd)) as Hs.
  assert (Hsz : i_size ip' = Z.max (i_size ip) (DIRENT * Z.of_nat (S e))).
  { rewrite (wn_ip _ _ _ _ _ _ _ _ _ _ Hw), Hlen. cbn. unfold modify. cbn. unfold DIRENT in *. lia. }
  assert (Hn : nents ip' = Nat.max (nents ip) (S e)).
  { unfold nents. rewrite Hsz. unfold DIRENT in *. Z.div_mod_to_equations. lia. }
  assert (Hdent : ∀ k, (k < nents ip')%nat → dent s' ip' k = if decide (k = e) then de else dent s ip k).
  { intros k Hk. assert (Hr : DIRENT * Z.of_nat k + DIRENT ≤ MAXFILE * BSIZE).
    { pose proof (fo_size _ _ _ (wn_file _ _ _ _ _ _ _ _ _ _ Hw)). unfold nents in Hk. unfold DIRENT in *. Z.div_mod_to_equations. lia. }
    case_decide as Hke.
    - subst k. apply list_eq. intros j. unfold dent, fbytes. rewrite list_lookup_fmap.
      destruct (decide (j < length de)%nat) as [Hj|Hj].
      + rewrite (proj2 (lookup_seqZ _ _ _ (DIRENT * Z.of_nat e + Z.of_nat j))) by lia. simpl.
        rewrite (wn_bytes _ _ _ _ _ _ _ _ _ _ Hw), decide_True by (unfold DIRENT in *; lia).
        replace (Z.to_nat _) with j by lia. symmetry. rewrite nth_lookup. by destruct (lookup_lt_is_Some_2 de j Hj) as [x ->].
      + rewrite lookup_seqZ_ge, lookup_ge_None_2 by lia. done.
    - apply fbytes_ext. intros o Ho. rewrite (wn_bytes _ _ _ _ _ _ _ _ _ _ Hw) by (unfold DIRENT in *; lia).
      rewrite decide_False; [done|]. unfold DIRENT in *. lia. }
  split_and!; [|done|].
  - apply list_eq. intros k. unfold link_entry. fold e.
    assert (Hte : length (take e (dents s ip)) = e) by (rewrite length_take, length_dents; lia).
    destruct (decide (k < nents ip')%nat) as [Hk|Hk].
    + rewrite dents_lookup, Hdent by done. case_decide as Hke.
      * subst k. by rewrite lookup_app_r, Hte, Nat.sub_diag by lia.
      * destruct (decide (k < e)%nat).
        -- rewrite lookup_app_l, lookup_take_lt, dents_lookup by lia. done.
        -- rewrite lookup_app_r, Hte by lia. replace (k - e)%nat with (S (k - S e)) by lia. simpl.
           rewrite lookup_drop. replace (S e + (k - S e))%nat with k by lia. rewrite dents_lookup by lia. done.
    + rewrite !lookup_ge_None_2; [done| |rewrite length_dents; lia].
      rewrite length_app, Hte. simpl. rewrite length_drop, length_dents. lia.
  - rewrite Hsz. unfold DIRENT in *. Z.div_mod_to_equations. lia.
Qed.

Lemma nblk_entry e : nblk (DIRENT * Z.of_nat e) DIRENT = 1%nat.
Proof. unfold nblk, DIRENT, BSIZE. simpl. f_equal. Z.div_mod_to_equations. lia. Qed.

(** [dirlink] of a name that is not in the directory. *)
Lemma dirlink_ok meta q kk L i ip name n s :
  txn q [] kk s → 7 ≤ kk → icache_ok q L s → inode_at i ip s → fs_ok meta s → dir_ok meta s ip → bytes_ok name →
  dir_find s ip (fname name) = None → 0 < n < 65536 → (2 ≤ nfree s)%nat →
  let e := free_entry (dents s ip) in
  DIRENT * Z.of_nat (S e) ≤ MAXFILE * BSIZE →
  ∃ ip' s', dirlink i name n s = Ok 0 s' ∧
    file_written meta q (kk - 7) i (DIRENT * Z.of_nat e) (new_entry name n) ip s ip' s' ∧ dir_ok meta s' ip' ∧
    ∀ nm, dir_find s' ip' nm = if decide (nm = fname name) then Some (e, n) else dir_find s ip nm.
Proof.
  intros Ht Hkk Hic Hat Hfs Hd Hb Hnone Hn Hfree e Hmax.
  pose proof (dirlookup_ok meta q kk L i ip name s Ht ltac:(lia) Hic Hat Hfs Hd Hb) as Hl. rewrite Hnone in Hl.
  destruct Hl as (s1 & H1 & Hto1). destruct (new_entry_spec name n ltac:(lia) Hb) as (Hlen & Hinum & Hfn & Hnb).
  pose proof Hto1 as [Ht1 Hb1 _ Hst1].
  assert (Hat1 : inode_at i ip s1) by (unfold inode_at; by rewrite (fstep_icache _ _ Hst1)).
  assert (Hfs1 : fs_ok meta s1) by (by eapply fs_ok_same; [|apply (fstep_sb _ _ Hst1)|apply (fstep_disk _ _ Hst1)|]).
  assert (Hd1 : dir_ok meta s1 ip) by (eapply dir_ok_same; [done|apply (fstep_sb _ _ Hst1)|done]).
  destruct (dirlink_loop_ok meta q kk i ip (nents ip) 0 0 s1) as (s2 & H2 & Hto2); try done; [lia|].
  rewrite drop_0, (dents_same s s1) in H2 by done. fold e in H2. simpl in H2.
  assert (Hto : touched q [] kk (block s) s s2).
  { apply (touched_ext q [] kk (block s1)); [exact Hb1|]. eapply touched_trans; [exact Hto1|exact Hto2]. }
  pose proof Hto as [Ht2 Hb2 _ Hst2].
  assert (Hat2 : inode_at i ip s2) by (unfold inode_at; by rewrite (fstep_icache _ _ Hst2)).
  pose proof (free_entry_le (dents s ip)) as He. rewrite length_dents in He. fold e in He.
  assert (Hsz : DIRENT * Z.of_nat e ≤ i_size ip).
  { pose proof (do_size _ _ _ Hd). unfold nents, DIRENT in *. pose proof (fo_size _ _ _ (do_file _ _ _ Hd)). Z.div_mod_to_equations. lia. }
  destruct (writei_ok meta q kk i ip s2 (DIRENT * Z.of_nat e) DIRENT (new_entry name n)) as (ip' & s' & Hw & Hwr); try done.
  - rewrite nblk_entry. lia.
  - by eapply fs_ok_same; [|apply (fstep_sb _ _ Hst2)|apply (fstep_disk _ _ Hst2)|].
  - eapply file_ok_same; [apply Hd|apply (fstep_sb _ _ Hst2)|done].
  - by rewrite (do_type _ _ _ Hd).
  - rewrite nblk_entry, (nfree_same s s2); [lia|apply (fstep_sb _ _ Hst2)|done].
  - split; [unfold DIRENT; lia|done].
  - unfold DIRENT in *. lia.
  - rewrite nblk_entry in Hwr. replace (kk - 6 * Z.of_nat 1 - 1) with (kk - 7) in Hwr by lia.
    pose proof (file_written_touched meta q kk _ i _ _ ip s s2 ip' s' Hat Hto Hwr) as Hws.
    destruct (dents_written meta q (kk - 7) i ip s ip' s' _ Hd Hlen Hmax Hws) as (Hde & Hne & Hmd).
    exists ip', s'. split_and!; [|done|split; [apply Hws| |done|]|].
    + unfold dirlink. rewrite (bind_ok _ _ _ _ _ H1), (bind_ok _ _ _ _ _ (geti_at _ _ _ Hat1)), dir_offs_eq by apply Hd.
      rewrite (bind_ok _ _ _ _ _ H2). unfold new_entry in Hw. by rewrite (bind_ok _ _ _ _ _ Hw).
    + rewrite (wn_ip _ _ _ _ _ _ _ _ _ _ Hws). apply (do_type _ _ _ Hd).
    + intros o Ho. pose proof (fo_size _ _ _ (wn_file _ _ _ _ _ _ _ _ _ _ Hws)).
      rewrite (wn_bytes _ _ _ _ _ _ _ _ _ _ Hws) by lia. case_decide as Hin.
      * rewrite nth_lookup. destruct (lookup_lt_is_Some_2 (new_entry name n) (Z.to_nat (o - DIRENT * Z.of_nat e)) ltac:(lia)) as [x Hx].
        rewrite Hx. by apply (Forall_lookup_1 _ _ _ _ Hnb Hx).
      * apply (do_bytes _ _ _ Hd). assert (Hs' : i_size ip' = Z.max (i_size ip) (DIRENT * Z.of_nat e + DIRENT)) by (by rewrite (wn_ip _ _ _ _ _ _ _ _ _ _ Hws), Hlen).
        unfold DIRENT in *. lia.
    + intros nm. unfold dir_find. rewrite Hde. rewrite (find_name_link (fname name)); [|lia|done|done]. by rewrite Hinum.
Qed.

(** ** The cache of inodes after a write *)

Lemma load_dinode_ext o d d' ip :
  (∀ o' w, (o ≤ o')%nat → (o' + w ≤ o + DINODE)%nat → slice o' w d' = slice o' w d) → load_dinode o d' ip = load_dinode o d ip.
Proof.
  intros Hs. assert (Hd : (DINODE = 64)%nat) by done. unfold load_dinode.
  assert (Ha : di_addrs o d' = di_addrs o d).
  { apply list_fmap_ext. intros j k Hk%list_elem_of_lookup_2%elem_of_seq. unfold get32. rewrite Hs; [done|lia|unfold NDIRECT in *; lia]. }
  rewrite Ha. unfold get16, get32. by rewrite !Hs by lia.
Qed.

(** The inodes on the disk other than the one written. *)
Lemma stored_written meta q kk i off src ip s ip' s' jp :
  file_written meta q kk i off src ip s ip' s' → fs_ok meta s → 0 ≤ i_inum ip < sb_ninodes (sb s) →
  0 ≤ i_inum jp < sb_ninodes (sb s) → i_inum jp ≠ i_inum ip → stored s' jp = stored s jp.
Proof.
  intros Hw Hfs Hi Hj Hne. pose proof (istep_sb _ _ _ (wn_step _ _ _ _ _ _ _ _ _ _ Hw)) as Hsb.
  destruct (iblock_range meta s jp Hfs Hj) as [Hjb Hbm]. unfold stored. unfold iblock at 1. rewrite Hsb. fold (iblock s jp).
  destruct (decide (iblock s jp = iblock s ip)) as [He|He].
  - rewrite He. apply load_dinode_ext. intros o w Ho How. apply (wn_inodes _ _ _ _ _ _ _ _ _ _ Hw).
    destruct (IBLOCK_eq _ _ _ _ (fk_layout _ _ Hfs) Hj ltac:(lia)) as [Ej _], (IBLOCK_eq _ _ _ _ (fk_layout _ _ Hfs) Hi ltac:(lia)) as [Ei _].
    unfold iblock in He. rewrite Ej, Ei in He. unfold inode_off, DINODE, IPB, BSIZE in *. Z.div_mod_to_equations. lia.
  - by rewrite (wn_low _ _ _ _ _ _ _ _ _ _ Hw) by (done || lia).
Qed.

Lemma icache_ok_written meta q kk L i off src ip s ip' s' :
  icache_ok q L s → inode_at i ip s → 0 < i_ref ip → fs_ok meta s → file_written meta q kk i off src ip s ip' s' →
  icache_ok q L s'.
Proof.
  intros Hic Hat Hr Hfs Hw. pose proof (istep_sb _ _ _ (wn_step _ _ _ _ _ _ _ _ _ _ Hw)) as Hsb.
  destruct (wn_step _ _ _ _ _ _ _ _ _ _ Hw) as [_ (l & z & Hc)].
  pose proof (ic_entry _ _ _ Hic i ip Hat) as [R D F K _].
  assert (Hother : ∀ j jp, inode_at j jp s' → (j = i ∧ jp = ip') ∨ (j ≠ i ∧ inode_at j jp s)).
  { intros j jp Hj. destruct (decide (j = i)) as [->|Hne].
    - left. split; [done|]. pose proof (wn_at _ _ _ _ _ _ _ _ _ _ Hw). unfold inode_at in *. congruence.
    - right. split; [done|]. unfold inode_at in *. by rewrite Hc, list_lookup_alter_ne in Hj. }
  assert (Hf : i_ref ip' = i_ref ip ∧ i_dev ip' = i_dev ip ∧ i_inum ip' = i_inum ip ∧ i_lock ip' = i_lock ip)
    by (by rewrite (wn_ip _ _ _ _ _ _ _ _ _ _ Hw)).
  destruct Hf as (Er & Ed & En & El). destruct (D Hr) as [Hdev Hnum]. split.
  - intros j jp Hj. destruct (Hother _ _ Hj) as [[-> ->]|[Hne Hj0]].
    + split; rewrite ?Er, ?Ed, ?En, ?El, ?Hsb; try done. intros _ _.
      exact (fo_stored _ _ _ (wn_file _ _ _ _ _ _ _ _ _ _ Hw)).
    + destruct (ic_entry _ _ _ Hic j jp Hj0) as [R' D' F' K' S']. split; rewrite ?Hsb; try done.
      intros Hrj Hv. rewrite (stored_written meta q kk i off src ip s ip' s'); [by apply S'|done|done|done|by apply D'|].
      intros He. apply Hne. by apply (ic_uniq _ _ _ Hic j i jp ip).
  - intros j1 j2 p1 p2 H1 H2 R1 R2 He. destruct (Hother _ _ H1) as [[-> ->]|[N1 A1]], (Hother _ _ H2) as [[-> ->]|[N2 A2]].
    + done.
    + apply (ic_uniq _ _ _ Hic i j2 ip p2); try done; congruence.
    + apply (ic_uniq _ _ _ Hic j1 i p1 ip); try done; congruence.
    + by apply (ic_uniq _ _ _ Hic j1 j2 p1 p2).
Qed.

Lemma live_written meta q kk i off src ip s ip' s' : file_written meta q kk i off src ip s ip' s' → live s' = live s ∧ length (icache s') = length (icache s).
Proof.
  intros Hw. destruct (wn_step _ _ _ _ _ _ _ _ _ _ Hw) as [_ (l & z & Hc)]. unfold live. rewrite Hc, length_alter. split; [|done].
  f_equal. clear Hc Hw. revert i. induction (icache s) as [|x c IH]; intros [|i]; try done; simpl.
  - change (alter _ 0 (x :: c)) with (x <| i_addrs := l |> <| i_size := z |> :: c). rewrite !filter_cons. simpl. by case_decide.
  - change (alter ?f (S i) (x :: c)) with (x :: alter f i c). rewrite !filter_cons. case_decide; [rewrite !fmap_cons; f_equal|]; apply IH.
Qed.

(** ** A name that is there *)

Lemma refers_unlocked q k L n s i s' j :
  referenced q k L n s i s' → icache_ok q L s → (∀ j jp, j ∈ L → inode_at j jp s → i_inum jp ≠ n) → j = i → j ∉ L.
Proof.
  intros [Hm Hic (ip & Hi & Hn & Hr & _) Hrf Hk] Hics HL -> HiL.
  assert (is_Some (icache s !! i)) as [jp Hj] by (apply lookup_lt_is_Some; rewrite <-(mv_len _ _ _ _ Hm); by eapply lookup_lt_Some).
  destruct (en_lock _ _ _ _ _ (ic_entry _ _ _ Hics i jp Hj) HiL) as [_ Hrj].
  pose proof (Hk i jp Hj Hrj) as Hi'. rewrite decide_True in Hi' by done. unfold inode_at in *. simplify_eq.
  by apply (HL i jp HiL Hj).
Qed.

(** The process [me] with pid [q] asleep on the lock of inode [i], which it holds
    itself; it does not get out of [acquiresleep] again. *)
Definition own_lock (q : Z) (me i : nat) (s : kernel) : Prop :=
  sleeps s me (ChSleeplock (SlInode i)) ∧ pid <$> ptable (kproc s) !! me = Some q ∧
  sl_of (SlInode i) s = mksl 1 q ∧ locked_out (SlInode i) me s.

(** [iput] of a locked inode. *)
Lemma iput_locked q k L s i :
  txn q [] k s → icache_ok q L s → i ∈ L → (i < length (icache s))%nat →
  ∃ me s', iput i s = Sleep (AtSleep (ChSleeplock (SlInode i)) (LkSleep (SlInode i)) (ticks (kproc s))) s' ∧ own_lock q me i s'.
Proof.
  intros Ht Hic HiL Hlt. destruct (lookup_lt_is_Some_2 _ _ Hlt) as [ip Hi].
  destruct (en_lock _ _ _ _ _ (ic_entry _ _ _ Hic i ip Hi) HiL) as [Hl _].
  destruct (tx_alone _ _ _ _ Ht) as (Hh & me & p & [Hru Hp] & _ & Hq).
  assert (Ha : acquiresleep (SlInode i) s = Sleep (AtSleep (ChSleeplock (SlInode i)) (LkSleep (SlInode i)) (ticks (kproc s)))
            (with_table (alter (put_to_sleep (ChSleeplock (SlInode i))) me) s <| held := [LkPtable] |>)).
  { unfold acquiresleep. rewrite (bind_ok _ _ _ _ _ (acquire_free _ _ Hh)).
    erewrite acquiresleep_from_eq by done. simpl. rewrite Hi. simpl. rewrite Hl. done. }
  set (s' := with_table _ s <| held := [LkPtable] |>) in Ha.
  assert (Hof : sl_of (SlInode i) s' = mksl 1 q) by (simpl; by rewrite Hi).
  assert (Hme : ptable (kproc s') !! me = Some (put_to_sleep (ChSleeplock (SlInode i)) p))
    by (simpl; by rewrite list_lookup_alter_eq, Hp).
  assert (Hpid : pid <$> ptable (kproc s') !! me = Some q) by (rewrite Hme; by rewrite <-Hq).
  exists me, s'. split; [unfold iput, bind; by rewrite Ha|].
  split; [by eexists|]. split; [done|]. split; [done|]. apply self_deadlock; [by eexists|by rewrite Hof|by rewrite Hof].
Qed.

Lemma dirlink_found_ok meta q kk L i ip name k n m s :
  txn q [] kk s → 0 ≤ kk → icache_ok q L s → inode_at i ip s → fs_ok meta s → dir_ok meta s ip → bytes_ok name →
  dir_find s ip (fname name) = Some (k, n) → 0 ≤ n < sb_ninodes (sb s) → (size (live s) < length (icache s))%nat →
  ((∀ j jp, j ∈ L → inode_at j jp s → i_inum jp ≠ n) →
   ∃ s', dirlink i name m s = Ok (-1) s' ∧ moved q kk s s' ∧ icache_ok q L s' ∧ ∀ x, refs s' x = refs s x) ∧
  (∀ j jp, j ∈ L → inode_at j jp s → i_inum jp = n →
   ∃ me tk s', dirlink i name m s = Sleep (AtSleep (ChSleeplock (SlInode j)) (LkSleep (SlInode j)) tk) s' ∧ own_lock q me j s').
Proof.
  intros Ht Hkk Hic Hat Hfs Hd Hb Hf Hn Hfree.
  pose proof (dirlookup_ok meta q kk L i ip name s Ht Hkk Hic Hat Hfs Hd Hb) as Hl. rewrite Hf in Hl.
  destruct (Hl Hn Hfree) as (j & s1 & s2 & H2 & Hto & Href). pose proof (moved_touched _ _ _ _ Hto) as Hm1.
  pose proof (fstep_icache _ _ (to_step _ _ _ _ _ _ Hto)) as Hc1.
  pose proof Href as [Hm2 Hic2 (jp & Hj & Hjn & Hjr & Hst) Hrf Hkept].
  assert (Hat1 : ∀ x xp, inode_at x xp s1 ↔ inode_at x xp s) by (intros; unfold inode_at; by rewrite Hc1).
  split.
  - intros HL. assert (HjL : j ∉ L).
    { apply (refers_unlocked q kk L n s1 j s2); [done|by eapply icache_ok_moved| |done].
      intros x xp Hx Hxp. by apply (HL x), Hat1. }
    destruct (iput_ok q kk L s2 j jp (mv_txn _ _ _ _ Hm2) Hic2 Hj Hjr HjL) as (s3 & H3 & Hs3); [tauto|].
    exists s3. unfold dirlink. rewrite (bind_ok _ _ _ _ _ H2), (bind_ok _ _ _ _ _ H3). split; [done|].
    split; [eapply moved_trans; [exact Hm1|]; eapply moved_trans; [exact Hm2|apply Hs3]|]. split; [apply Hs3|].
    intros x. rewrite (entry_set_refs _ _ _ _ _ _ _ _ x Hs3 Hj), Hrf. unfold refs at 1. rewrite Hc1. fold (refs s x).
    unfold refw. simpl. rewrite (proj2 (Z.ltb_lt _ _) Hjr), Hjn, (Z.eqb_sym x). simpl.
    destruct (Z.ltb_spec 0 (i_ref jp - 1)), (Z.eqb_spec n x); simpl; lia.
  - intros x xp Hx Hxp Hxn. assert (j = x) as ->.
    { destruct (en_lock _ _ _ _ _ (ic_entry _ _ _ Hic x xp Hxp) Hx) as [_ Hxr].
      pose proof (Hkept x xp (proj2 (Hat1 _ _) Hxp) Hxr) as Hx2. case_decide; [done|].
      by apply (ic_uniq _ _ _ Hic2 j x jp xp); [..|congruence]. }
    destruct (iput_locked q kk L s2 x (mv_txn _ _ _ _ Hm2) Hic2 Hx) as (me & s3 & H3 & Ho); [by eapply lookup_lt_Some|].
    exists me, (ticks (kproc s2)), s3. split; [|done]. unfold dirlink. rewrite (bind_ok _ _ _ _ _ H2). unfold bind. by rewrite H3.
Qed.
End Dirent.

(** ** Properties *)

(** The root directory of the example, locked by process 7. *)
Definition sdir_locked : inode := set_lock (mksl 1 7) sdir_root.
Definition sdir_cache : list inode := sdir_locked :: replicate 49 inode0.

Lemma sdir_fbyte c ip o :
  i_addrs ip = 34 :: replicate 12 0 → 0 ≤ o < 512 → fbyte (sdir c) ip o = nth (Z.to_nat o) sdir_data 0.
Proof.
  intros Ha Ho. unfold fbyte, contents, BSIZE. rewrite Z.div_small, Z.mod_small by lia.
  rewrite sdir_slot by done. change (decide (bslot (Z.to_nat 0) = 0%nat)) with (decide (0%nat = 0%nat)).
  rewrite decide_True by done. by rewrite sdir_block.
Qed.

Lemma sdir_dents c ip :
  i_addrs ip = 34 :: replicate 12 0 → i_size ip = 48 →
  dents (sdir c) ip = [sdir_entry 1 [46]; sdir_entry 1 [46; 46]; sdir_entry 2 [97]].
Proof.
  intros Ha Hs. unfold dents, nents. rewrite Hs.
  assert (Hd : ∀ k, (k < 3)%nat → dent (sdir c) ip k = (λ o, nth (Z.to_nat o) sdir_data 0) <$> seqZ (16 * Z.of_nat k) 16).
  { intros k Hk. apply list_fmap_ext. intros j o Ho. apply lookup_seqZ in Ho. apply sdir_fbyte; [done|unfold DIRENT in *; lia]. }
  change (seq 0 (Z.to_nat (48 / DIRENT))) with [0%nat; 1%nat; 2%nat]. cbn [fmap list_fmap].
  rewrite !Hd by lia. by vm_compute.
Qed.

Lemma sdir_dir_ok c ip :
  i_addrs ip = 34 :: replicate 12 0 → i_dev ip = 1 → i_size ip = 48 → i_inum ip = 1 → i_type ip = 1 →
  load_dinode 64 sdir_inodes ip = ip → dir_ok 34 (sdir c) ip.
Proof.
  intros Ha Hd Hs Hn Ht Hl. split; [apply sdir_file_ok; rewrite ?Hn; done || lia|done|by rewrite Hs|].
  intros o Ho. rewrite sdir_fbyte by (done || lia).
  assert (H : Forall is_u8 sdir_data) by (repeat (constructor; [by split|]); constructor).
  rewrite nth_lookup. destruct (sdir_data !! Z.to_nat o) as [x|] eqn:E; [|by split]. exact (Forall_lookup_1 _ _ _ _ H E).
Qed.

Lemma sdir_locked_ok : dir_ok 34 (sdir sdir_cache) sdir_locked.
Proof. apply sdir_dir_ok; by vm_compute. Qed.

Lemma sdir_icache_ok : icache_ok 7 [0%nat] (sdir sdir_cache).
Proof.
  assert (Hat : ∀ i ip, inode_at i ip (sdir sdir_cache) → (i = 0%nat ∧ ip = sdir_locked) ∨ (i ≠ 0%nat ∧ ip = inode0)).
  { intros [|i] ip Hi; unfold inode_at in Hi; rewrite sdir_icache in Hi; [left; by injection Hi|right]. split; [done|].
    apply (list_elem_of_lookup_2 (replicate 49 inode0) i), elem_of_replicate in Hi. by destruct Hi. }
  split.
  - intros i ip [[-> ->]|[Hi ->]]%Hat; split; try done; try set_solver.
  - intros i j ip jp [[-> ->]|[Hi ->]]%Hat [[-> ->]|[Hj ->]]%Hat; done.
Qed.

(** [C9] Entering a name in a directory.  In an open operation with room for the
    seven blocks that may change, two free blocks and a free entry or room at the
    end of the directory, [dirlink] of a name that is not there returns 0 and
    enters it, in the first free entry: after it the name leads to the inode, and
    every other name leads where it led before.  The directory is in order, the
    other files and inodes are untouched, and [dirlookup] finds the inode at the
    entry. *)
Theorem dirlink_spec {dk : Disk} {dv : Devsw} meta q kk L i ip name n s :
  txn q [] kk s → 7 ≤ kk → icache_ok q L s → inode_at i ip s → 0 < i_ref ip → fs_ok meta s → dir_ok meta s ip →
  bytes_ok name → dir_find s ip (fname name) = None → 0 < n < 65536 → n < sb_ninodes (sb s) → (2 ≤ nfree s)%nat →
  (size (live s) < length (icache s))%nat →
  let e := free_entry (dents s ip) in
  DIRENT * Z.of_nat (S e) ≤ MAXFILE * BSIZE →
  ∃ ip' s', dirlink i name n s = Ok 0 s' ∧
    file_written meta q (kk - 7) i (DIRENT * Z.of_nat e) (new_entry name n) ip s ip' s' ∧ dir_ok meta s' ip' ∧
    icache_ok q L s' ∧
    (∀ nm, dir_find s' ip' nm = if decide (nm = fname name) then Some (e, n) else dir_find s ip nm) ∧
    ∃ j s'', dirlookup i name s' = Ok (Some (j, DIRENT * Z.of_nat e)) s'' ∧ (∀ m, block s'' m = block s' m) ∧
      ∃ jp, inode_at j jp s'' ∧ i_inum jp = n.
Proof.
  intros Ht Hkk Hic Hat Hr Hfs Hd Hb Hnone Hn Hn' Hfree Hlive e Hmax.
  destruct (dirlink_ok meta q kk L i ip name n s) as (ip' & s' & Hl & Hw & Hd' & Hfind); try done.
  pose proof (icache_ok_written meta q _ L i _ _ ip s ip' s' Hic Hat Hr Hfs Hw) as Hic'.
  pose proof (istep_sb _ _ _ (wn_step _ _ _ _ _ _ _ _ _ _ Hw)) as Hsb.
  pose proof (dirlookup_ok meta q (kk - 7) L i ip' name s' (wn_txn _ _ _ _ _ _ _ _ _ _ Hw) ltac:(lia) Hic'
                (wn_at _ _ _ _ _ _ _ _ _ _ Hw) (wn_fs _ _ _ _ _ _ _ _ _ _ Hw) Hd' Hb) as Hlk.
  rewrite Hfind, decide_True in Hlk by done. destruct (live_written _ _ _ _ _ _ _ _ _ _ Hw) as [Hlv Hlen].
  destruct Hlk as (j & s1 & s2 & H2 & Hto & [Hm _ (jp & Hj & Hjn & _) _ _]); [rewrite Hsb; lia|by rewrite Hlv, Hlen|].
  exists ip', s'. split_and!; try done. exists j, s2. split; [done|]. split; [|by exists jp].
  intros m. by rewrite (mv_block _ _ _ _ Hm), (to_block _ _ _ _ _ _ Hto).
Qed.

(** The name [b] for inode 2 in the root directory of the example. *)
Lemma dirlink_spec_witness :
  ∃ ip' s', dirlink (dk := memide) (dv := Build_Devsw (λ _, None) (λ _, None)) 0 [98] 2 (sdir sdir_cache) = Ok 0 s' ∧
    dir_find s' ip' [98] = Some (3%nat, 2) ∧ dir_find s' ip' [97] = Some (2%nat, 2).
Proof.
  assert (Hde : dents (sdir sdir_cache) sdir_locked = [sdir_entry 1 [46]; sdir_entry 1 [46; 46]; sdir_entry 2 [97]])
    by (apply sdir_dents; by vm_compute).
  destruct (dirlink_spec (dk := memide) (dv := Build_Devsw (λ _, None) (λ _, None)) 34 7 28 [0%nat] 0 sdir_locked [98] 2
              (sdir sdir_cache)) as (ip' & s' & Hl & _ & _ & _ & Hf & _).
  - apply sdir_txn. lia.
  - lia.
  - exact sdir_icache_ok.
  - unfold inode_at. by rewrite sdir_icache.
  - by vm_compute.
  - apply sdir_fs_ok.
  - exact sdir_locked_ok.
  - by repeat constructor.
  - unfold dir_find. rewrite Hde. by vm_compute.
  - lia.
  - by rewrite sdir_sb.
  - rewrite sdir_nfree. lia.
  - unfold live. rewrite sdir_icache. apply Nat.ltb_lt. by vm_compute.
  - rewrite Hde. by vm_compute.
  - exists ip', s'. split; [exact Hl|]. pose proof (Hf [98]) as H1. pose proof (Hf [97]) as H2. clear Hf.
    rewrite decide_True in H1 by done. rewrite decide_False in H2 by done. rewrite H1, H2. unfold dir_find. rewrite Hde. clear. split; vm_compute; reflexivity.
Defined.

(** [C12] Linking a name that is already in the directory.  [dirlink] fails with -1
    and gives back the reference it took, unless the name leads to an inode that
    the process has locked: then the process falls asleep on that lock, its own,
    and never gets out of [acquiresleep], whatever all others do and even when it
    is woken by [kill].  That is so for the name [.] in the directory itself,
    which the caller of [dirlink] has locked. *)
Theorem dirlink_found {dk : Disk} {dv : Devsw} meta q kk L i ip name k n m s :
  txn q [] kk s → 0 ≤ kk → icache_ok q L s → inode_at i ip s → fs_ok meta s → dir_ok meta s ip → bytes_ok name →
  dir_find s ip (fname name) = Some (k, n) → 0 ≤ n < sb_ninodes (sb s) → (size (live s) < length (icache s))%nat →
  ((∀ j jp, j ∈ L → inode_at j jp s → i_inum jp ≠ n) →
   ∃ s', dirlink i name m s = Ok (-1) s' ∧ moved q kk s s' ∧ icache_ok q L s' ∧ ∀ x, refs s' x = refs s x) ∧
  (∀ j jp, j ∈ L → inode_at j jp s → i_inum jp = n →
   ∃ me tk s', dirlink i name m s = Sleep (AtSleep (ChSleeplock (SlInode j)) (LkSleep (SlInode j)) tk) s' ∧ own_lock q me j s').
Proof. apply dirlink_found_ok. Qed.

(** A link to inode 2 with the name [.] in the root directory. *)
Lemma dirlink_found_witness :
  ∃ me tk s', dirlink (dk := memide) (dv := Build_Devsw (λ _, None) (λ _, None)) 0 [46] 2 (sdir sdir_cache) =
    Sleep (AtSleep (ChSleeplock (SlInode 0)) (LkSleep (SlInode 0)) tk) s' ∧ own_lock 7 me 0 s'.
Proof.
  assert (Hde : dents (sdir sdir_cache) sdir_locked = [sdir_entry 1 [46]; sdir_entry 1 [46; 46]; sdir_entry 2 [97]])
    by (apply sdir_dents; by vm_compute).
  destruct (dirlink_found (dk := memide) (dv := Build_Devsw (λ _, None) (λ _, None)) 34 7 28 [0%nat] 0 sdir_locked [46] 0 1 2
              (sdir sdir_cache)) as (_ & H).
  - apply sdir_txn. lia.
  - lia.
  - exact sdir_icache_ok.
  - unfold inode_at. by rewrite sdir_icache.
  - apply sdir_fs_ok.
  - exact sdir_locked_ok.
  - by repeat constructor.
  - unfold dir_find. rewrite Hde. by vm_compute.
  - rewrite sdir_sb. split; [lia|reflexivity].
  - unfold live. rewrite sdir_icache. apply Nat.ltb_lt. by vm_compute.
  - apply (H 0%nat sdir_locked); [apply list_elem_of_here|unfold inode_at; rewrite sdir_icache; reflexivity|reflexivity].
Defined.
