(* ===== verification/Namei.v ===== *)
(** * Path names

    The elements of a path, the walk they describe through the directories on
    the disk, and [namei] and [nameiparent], which take that walk in the cache
    of inodes, one reference and one lock at a time. *)

From S2P Require Import Prelude Bytes Kernel Cstring Sched Proc Waiting Sleeplock Bio Log Reserve.
From S2P Require Import Fs Dinode Txn Smallfs Blocks Inode Content Smalldir Icache Dir Dirent.

(** ** The elements of a path *)

Definition flush (cur : list Z) : list (list Z) := match cur with [] => [] | _ => [cur] end.

(** What is between the slashes, without what is empty; [cur] is the beginning
    of the first element. *)
Fixpoint elems (cur p : list Z) : list (list Z) :=
  match p with
  | [] => flush cur
  | c :: p' => if c =? slash then flush cur ++ elems [] p' else elems (cur ++ [c]) p'
  end.

Lemma elems_skip p : elems [] (skip_slashes p) = elems [] p.
Proof. induction p as [|c p IH]; [done|]. simpl. destruct (c =? slash) eqn:E; [done|]. simpl. by rewrite E. Qed.

Lemma elems_take p : ∀ cur e r, take_elem p = (e, r) → elems cur p = flush (cur ++ e) ++ elems [] r.
Proof.
  induction p as [|c p IH]; intros cur e r H; simpl in *; [by simplify_eq; rewrite !app_nil_r|].
  destruct (c =? slash) eqn:E; simplify_eq.
  - by rewrite app_nil_r; simpl; rewrite E.
  - destruct (take_elem p) as [e' r'] eqn:Ep. injection H as <- <-. by rewrite (IH (cur ++ [c]) e' r'), <-app_assoc.
Qed.

Lemma skip_slashes_suffix p : ∃ l, p = l ++ skip_slashes p.
Proof. induction p as [|c p [l IH]]; simpl; [by exists []|]. destruct (c =? slash); [exists (c :: l); simpl; congruence|by exists []]. Qed.

Lemma skip_slashes_head p c p' : skip_slashes p = c :: p' → (c =? slash) = false.
Proof. induction p as [|d p IH]; simpl; [done|]. destruct (d =? slash) eqn:E; [auto|]. by intros [= -> ->]. Qed.

Lemma skip_slashes_idem p : skip_slashes (skip_slashes p) = skip_slashes p.
Proof. destruct (skip_slashes p) as [|c p'] eqn:E; [done|]. simpl. by rewrite (skip_slashes_head _ _ _ E). Qed.

Lemma elems_nil p : elems [] (skip_slashes p) = [] ↔ skip_slashes p = [].
Proof.
  split; [|by intros ->]. destruct (skip_slashes p) as [|c p'] eqn:E; [done|]. simpl. rewrite (skip_slashes_head _ _ _ E).
  clear E. assert (H : ∀ cur, cur ≠ [] → elems cur p' ≠ []).
  { induction p' as [|d p' IH]; intros [|x cur] Hc; simpl; try done. destruct (d =? slash); [done|]. by apply IH. }
  intros Hn. by destruct (H [c]).
Qed.

Lemma take_elem_app p e r : take_elem p = (e, r) → p = e ++ r.
Proof.
  revert e r. induction p as [|c p IH]; intros e r H; simpl in H; [by simplify_eq|].
  destruct (c =? slash); [by simplify_eq|]. destruct (take_elem p) as [e' r']. injection H as <- <-. simpl. by rewrite (IH e' r').
Qed.

(** The name that [skipelem] leaves in its buffer. *)
Lemma fname_put e name :
  0 ∉ e → length name = Z.to_nat DIRSIZ → fname (put_name e name) = take (Z.to_nat DIRSIZ) e.
Proof.
  intros H0 Hl. unfold put_name, fname, splice. assert (Hnz : Forall (λ c, c ≠ 0) e) by (apply Forall_forall; intros c Hc ->; done).
  destruct (Z.leb_spec DIRSIZ (Z.of_nat (length e))) as [Hle|Hlt].
  - rewrite <-(app_nil_r (take _ e)), cstr_app_nonzero.
    + rewrite length_take_le, Nat.sub_diag by lia. simpl. by rewrite app_nil_r.
    + by apply Forall_take.
    + rewrite length_take. lia.
  - rewrite take_0, app_nil_l, <-app_assoc, cstr_app_nonzero by (done || lia).
    rewrite take_ge by lia. destruct (Z.to_nat DIRSIZ - length e)%nat; simpl; by rewrite app_nil_r.
Qed.

Definition elem_name (e : list Z) : list Z := take (Z.to_nat DIRSIZ) e.

(** [skipelem] takes the first element off the path. *)
Lemma skipelem_spec path name :
  0 ∉ path → bytes_ok path → bytes_ok name → length name = Z.to_nat DIRSIZ →
  match skipelem path name with
  | None => elems [] path = []
  | Some (path', name') =>
      ∃ e, elems [] path = e :: elems [] path' ∧ fname name' = elem_name e ∧ (length path' < length path)%nat ∧
        (0 ∉ path') ∧ bytes_ok path' ∧ bytes_ok name' ∧ length name' = Z.to_nat DIRSIZ ∧ skip_slashes path' = path'
  end.
Proof.
  intros H0 Hb Hn Hl. unfold skipelem. rewrite <-(elems_skip path). destruct (skip_slashes_suffix path) as [l0 Hl0].
  destruct (skip_slashes path) as [|c p] eqn:E; [done|]. pose proof (skip_slashes_head _ _ _ E) as Hc.
  destruct (take_elem (c :: p)) as [e r] eqn:Et. pose proof (take_elem_app _ _ _ Et) as Hp.
  assert (He : ∃ e', e = c :: e').
  { simpl in Et. rewrite Hc in Et. destruct (take_elem p) as [e' r']. exists e'. by simplify_eq. }
  destruct He as [e' He]. destruct (skip_slashes_suffix r) as [l Hr].
  rewrite Hl0, Hp in H0, Hb. apply Forall_app in Hb as [_ [Hbe Hbr]%Forall_app].
  rewrite !not_elem_of_app in H0. destruct H0 as (_ & H0e & H0r).
  exists e. split_and!.
  - rewrite (elems_take _ _ _ _ Et), elems_skip, He. done.
  - by apply fname_put.
  - rewrite Hl0, Hp, !length_app, He. rewrite Hr at 2. rewrite length_app. simpl. lia.
  - rewrite Hr in H0r. set_solver.
  - rewrite Hr in Hbr. by apply Forall_app in Hbr as [_ ?].
  - unfold put_name. destruct (_ <=? _); [by apply Forall_take|]. unfold splice. rewrite take_0. simpl.
    apply Forall_app. split; [apply Forall_app; split; [done|by repeat constructor]|by apply Forall_drop].
  - unfold put_name. destruct (Z.leb_spec DIRSIZ (Z.of_nat (length e))); [rewrite length_take; lia|].
    rewrite length_splice; [done|]. rewrite length_app. simpl. lia.
  - apply skip_slashes_idem.
Qed.

(** ** The tree on the disk *)

(** Inode [n] of the disk. *)
Definition dinode (s : kernel) (n : Z) : inode := stored s (inode0 <| i_dev := 1 |> <| i_inum := n |>).

(** Every directory is in order and its entries name inodes in use; an inode in
    use has links. *)
Record tree_ok (meta : Z) (s : kernel) : Prop := {
  tr_dir : ∀ n, 0 ≤ n < sb_ninodes (sb s) → i_type (dinode s n) = T_DIR → dir_ok meta s (dinode s n);
  tr_entry : ∀ n de, 0 ≤ n < sb_ninodes (sb s) → i_type (dinode s n) = T_DIR → de ∈ dents s (dinode s n) →
    de_inum de ≠ 0 → de_inum de < sb_ninodes (sb s) ∧ i_type (dinode s (de_inum de)) ≠ 0;
  tr_links : ∀ n, 0 ≤ n < sb_ninodes (sb s) → i_type (dinode s n) ≠ 0 → i_nlink (dinode s n) ≠ 0 }.

(** The inode that the names [es] lead to from inode [n]. *)
Fixpoint walk (s : kernel) (n : Z) (es : list (list Z)) : option Z :=
  match es with
  | [] => Some n
  | e :: es' =>
      if i_type (dinode s n) =? T_DIR then
        match dir_find s (dinode s n) (elem_name e) with
        | Some (_, m) => walk s m es'
        | None => None
        end
      else None
  end.

(** The directory that holds the last of the names. *)
Definition walk_parent (s : kernel) (n : Z) (es : list (list Z)) : option Z :=
  match es with
  | [] => None
  | _ =>
      match walk s n (removelast es) with
      | Some m => if i_type (dinode s m) =? T_DIR then Some m else None
      | None => None
      end
  end.

Definition target (np : bool) (s : kernel) (n : Z) (es : list (list Z)) : option Z :=
  if np then walk_parent s n es else walk s n es.

(** One step of the walk, as [namex] takes it. *)
Lemma target_cons np s n e es :
  target np s n (e :: es) =
  if negb (i_type (dinode s n) =? T_DIR) then None
  else if np && bool_decide (es = []) then Some n
  else match dir_find s (dinode s n) (elem_name e) with Some (_, m) => target np s m es | None => None end.
Proof.
  destruct np; simpl.
  - unfold walk_parent. destruct es as [|e' es]; simpl.
    + by destruct (_ =? _).
    + destruct (_ =? _); simpl; [|done]. by destruct (dir_find _ _ _) as [[]|].
  - by destruct (_ =? _).
Qed.

(** Entries of the cache with the same inode. *)
Definition same_inode (a b : inode) : Prop :=
  b = a <| i_ref := i_ref b |> <| i_lock := i_lock b |> <| i_valid := i_valid b |>.

Lemma same_fields a b : same_inode a b → i_type b = i_type a ∧ i_nlink b = i_nlink a ∧ i_inum b = i_inum a ∧ i_dev b = i_dev a.
Proof. intros H. by rewrite H. Qed.

Lemma same_inode_trans a b r l v : same_inode a b → same_inode a (b <| i_ref := r |> <| i_lock := l |> <| i_valid := v |>).
Proof. intros H. unfold same_inode. rewrite H. by destruct a. Qed.

Lemma dents_inode s a b : same_inode a b → dents s b = dents s a.
Proof. intros H. by rewrite H. Qed.

Lemma dir_ok_inode meta s a b : same_inode a b → dir_ok meta s a → dir_ok meta s b.
Proof.
  intros H [[I F S N St] T Sz B]. rewrite H. generalize (i_ref b) (i_lock b) (i_valid b). clear H. intros r l v.
  split; [|done|done|done]. destruct I. split; [by split|done|done|done|].
  exact (f_equal (λ x, x <| i_ref := r |> <| i_lock := l |> <| i_valid := v |>) St).
Qed.

Lemma same_inode_stored s ip : i_dev ip = 1 → same_inode (dinode s (i_inum ip)) (stored s ip).
Proof.
  intros Hd. unfold same_inode, dinode, stored. simpl. unfold iblock. simpl.
  generalize (inode_off (i_inum ip)) (block s (IBLOCK (i_inum ip) (sb s))). intros o d.
  unfold load_dinode. generalize (s16 (get16 o d)) (s16 (get16 (o + 2) d)) (s16 (get16 (o + 4) d)) (s16 (get16 (o + 6) d)).
  generalize (get32 (o + 8) d) (di_addrs o d). intros. destruct ip. simpl in Hd. subst. by vm_compute.
Qed.

Lemma dinode_moved q k s s' n : moved q k s s' → dinode s' n = dinode s n.
Proof. apply stored_moved. Qed.

Lemma tree_ok_moved meta q k s s' : moved q k s s' → tree_ok meta s → tree_ok meta s'.
Proof.
  intros Hm [D E L]. pose proof (nstep_sb _ _ (mv_step _ _ _ _ Hm)) as Hsb. pose proof (mv_block _ _ _ _ Hm) as Hb.
  split; rewrite Hsb.
  - intros n Hn Ht. rewrite (dinode_moved _ _ _ _ _ Hm) in *. eapply dir_ok_same; [by apply D|done|done].
  - intros n de Hn Ht Hde Hz. rewrite !(dinode_moved _ _ _ _ _ Hm) in *. rewrite (dents_same s s') in Hde by done. by apply (E n).
  - intros n Hn Ht. rewrite (dinode_moved _ _ _ _ _ Hm) in *. by apply L.
Qed.

Lemma walk_moved q k s s' es : ∀ n, moved q k s s' → walk s' n es = walk s n es.
Proof.
  induction es as [|e es IH]; intros n Hm; [done|]. cbn [walk]. rewrite (dinode_moved _ _ _ _ _ Hm).
  destruct (_ =? _); [|done]. unfold dir_find. rewrite (dents_same s s') by apply Hm.
  destruct (find_name _ _) as [[k' m]|]; [|done]. by apply IH.
Qed.

Lemma target_moved np q k s s' n es : moved q k s s' → target np s' n es = target np s n es.
Proof.
  intros Hm. unfold target, walk_parent. rewrite !(walk_moved q k s s') by done. destruct np, es; try done.
  destruct (walk _ _ _); [|done]. by rewrite (dinode_moved _ _ _ _ _ Hm).
Qed.

Lemma find_name_elem nm l k n : find_name nm l = Some (k, n) → ∃ de, de ∈ l ∧ de_inum de = n ∧ n ≠ 0.
Proof.
  unfold find_name. destruct (find_index _ l) as [j|] eqn:E; [|done]. intros [= <- <-].
  apply find_index_Some in E as (de & Hj & Hh & _). exists de. rewrite (nth_lookup_Some _ _ _ _ Hj).
  unfold has_name in Hh. split_and!; [by eapply list_elem_of_lookup_2|done|]. destruct (Z.eqb_spec (de_inum de) 0); [done|done].
Qed.

Lemma de_inum_nonneg de : 0 ≤ de_inum de.
Proof. unfold de_inum, get16. apply le_val_range. Qed.

(** The inode an entry leads to. *)
Lemma dir_find_inode meta s n nm k m :
  tree_ok meta s → 0 ≤ n < sb_ninodes (sb s) → i_type (dinode s n) = T_DIR → dir_find s (dinode s n) nm = Some (k, m) →
  0 ≤ m < sb_ninodes (sb s) ∧ i_type (dinode s m) ≠ 0.
Proof.
  intros Ht Hn Hty Hf. destruct (find_name_elem _ _ _ _ Hf) as (de & Hde & <- & Hz).
  destruct (tr_entry _ _ Ht n de Hn Hty Hde Hz). pose proof (de_inum_nonneg de). done.
Qed.

(** ** namex *)

(** Entry [i] refers to inode [n]. *)
Definition refers (s : kernel) (i : nat) (n : Z) : Prop := ∃ ip, inode_at i ip s ∧ i_inum ip = n ∧ 0 < i_ref ip.

Lemma refw_put m ip : 0 < i_ref ip → refw m (put_ref ip) = refw m ip - (if m =? i_inum ip then 1 else 0).
Proof.
  intros Hr. unfold refw. simpl. rewrite (proj2 (Z.ltb_lt 0 (i_ref ip)) Hr), (Z.eqb_sym m). simpl.
  destruct (Z.ltb_spec 0 (i_ref ip - 1)), (Z.eqb_spec (i_inum ip) m); simpl; lia.
Qed.

Lemma refs_put q k L i ip l s s' m :
  entry_set q k L i (put_ref (set_lock l ip)) s s' → inode_at i ip s → 0 < i_ref ip →
  refs s' m = refs s m - (if m =? i_inum ip then 1 else 0).
Proof.
  intros Hs Hi Hr. rewrite (entry_set_refs _ _ _ _ _ _ _ _ m Hs Hi), refw_put by done.
  change (refw m (set_lock l ip)) with (refw m ip). change (i_inum (set_lock l ip)) with (i_inum ip). lia.
Qed.

Lemma refs_lock q k L i ip ip' s s' m :
  entry_set q k L i ip' s s' → inode_at i ip s → i_ref ip' = i_ref ip → i_inum ip' = i_inum ip → refs s' m = refs s m.
Proof. intros Hs Hi Hr Hn. rewrite (entry_set_refs _ _ _ _ _ _ _ _ m Hs Hi). unfold refw. rewrite Hr, Hn. lia. Qed.

(** With [n] in addition to the inodes [B] there is a free entry. *)
Lemma live_bound (B : gset Z) (r0 : Z → Z) s n :
  (∀ m, m ∈ B ↔ 0 < r0 m) → (∀ m, refs s m = r0 m + (if m =? n then 1 else 0)) →
  (size B + 2 ≤ length (icache s))%nat → (size (live s) < length (icache s))%nat.
Proof.
  intros HB Hr Hsz. assert (Hl : live s ⊆ {[n]} ∪ B).
  { intros m Hm. apply elem_of_live in Hm. rewrite Hr in Hm. rewrite elem_of_union, elem_of_singleton, HB.
    destruct (Z.eqb_spec m n); [by left|right; lia]. }
  apply subseteq_size in Hl. rewrite size_union_alt, size_singleton in Hl.
  pose proof (subseteq_size (B ∖ {[n]}) B ltac:(set_solver)). lia.
Qed.

Lemma stored_ref s ip : i_ref (stored s ip) = i_ref ip ∧ i_inum (stored s ip) = i_inum ip.
Proof. by unfold stored, load_dinode. Qed.

Section Namei.
Context {dk : Disk} {dv : Devsw}.
#[local] Opaque acquire release load_dinode.

(** An inode of the tree is not freed when it is put back. *)
Lemma stays meta q L s i ip :
  icache_ok q L s → tree_ok meta s → inode_at i ip s → 0 < i_ref ip → i_type (dinode s (i_inum ip)) ≠ 0 →
  i_valid ip = 0 ∨ i_nlink ip ≠ 0 ∨ i_ref ip ≠ 1.
Proof.
  intros Hic Htr Hi Hr Hty. destruct (ic_entry _ _ _ Hic i ip Hi) as [_ D _ _ S]. destruct (D Hr) as [Hd Hn].
  destruct (decide (i_valid ip = 0)) as [|Hv]; [by left|right; left].
  pose proof (tr_links _ _ Htr _ Hn Hty) as Hl. pose proof (same_inode_stored s ip Hd) as Hsm. rewrite (S Hr Hv) in Hsm.
  by rewrite (proj1 (proj2 (same_fields _ _ Hsm))).
Qed.

Lemma iunlockput_ok q k s i ip :
  txn q [] k s → icache_ok q [i] s → inode_at i ip s → i_valid ip = 0 ∨ i_nlink ip ≠ 0 ∨ i_ref ip ≠ 1 →
  ∃ s', iunlockput i s = Ok tt s' ∧ entry_set q k [] i (put_ref (set_lock (mksl 0 0) ip)) s s'.
Proof.
  intros Ht Hic Hi Hst. destruct (en_lock _ _ _ _ _ (ic_entry _ _ _ Hic i ip Hi) ltac:(set_solver)) as [_ Hr].
  destruct (iunlock_ok q k [] s i ip Ht Hic Hi ltac:(apply not_elem_of_nil)) as (s1 & H1 & Hs1).
  pose proof (entry_set_at _ _ _ _ _ _ _ _ Hs1 Hi) as Hi1.
  destruct (iput_ok q k [] s1 i _ (mv_txn _ _ _ _ (es_moved _ _ _ _ _ _ _ Hs1)) (es_ok _ _ _ _ _ _ _ Hs1) Hi1 Hr
              ltac:(apply not_elem_of_nil) Hst) as (s2 & H2 & Hs2).
  exists s2. unfold iunlockput. rewrite (bind_ok _ _ _ _ _ H1). split; [done|]. by eapply entry_set_trans.
Qed.

(** [ilock] as [namex] uses it. *)
Lemma lock_step meta q k s i n :
  txn q [] k s → 0 ≤ k → icache_ok q [] s → fs_ok meta s → refers s i n → i_type (dinode s n) ≠ 0 →
  ∃ ip ip' s', ilock i s = Ok tt s' ∧ inode_at i ip s ∧ entry_set q k [i] i ip' s s' ∧ same_inode (dinode s n) ip' ∧
    i_inum ip = n ∧ 0 < i_ref ip ∧ i_ref ip' = i_ref ip ∧ i_inum ip' = n.
Proof.
  intros Ht Hk Hic Hfs (ip & Hi & <- & Hr) Hty. destruct (en_dev _ _ _ _ _ (ic_entry _ _ _ Hic i ip Hi) Hr) as [Hd _].
  pose proof (same_inode_stored s ip Hd) as Hsm.
  assert (Hty' : i_type (stored s ip) ≠ 0) by (by rewrite (proj1 (same_fields _ _ Hsm))).
  destruct (ilock_ok meta q k [] s i ip Ht Hk Hic Hfs Hi Hr ltac:(apply not_elem_of_nil) Hty') as (v & s1 & H1 & _ & Hs1).
  exists ip, (set_lock (mksl 1 q) ((stored s ip) <| i_valid := v |>)), s1. destruct (stored_ref s ip) as [Er En].
  split; [exact H1|]. split; [exact Hi|]. split; [exact Hs1|]. split; [|split; [done|split; [done|split; [exact Er|exact En]]]].
  apply (same_inode_trans _ _ (i_ref (stored s ip)) (mksl 1 q) v) in Hsm. clear -Hsm.
  revert Hsm. generalize (stored s ip) (dinode s (i_inum ip)). intros x y Hsm. destruct x. exact Hsm.
Qed.

(** What [namex] promises for the inode [m] it was asked for: [r0] are the
    references before the call. *)
Definition resolved (q : Z) (r0 : Z → Z) (m : option Z) (r : option nat) (s' : kernel) : Prop :=
  icache_ok q [] s' ∧
  match m with
  | Some m => ∃ j, r = Some j ∧ refers s' j m ∧ ∀ x, refs s' x = r0 x + (if x =? m then 1 else 0)
  | None => r = None ∧ ∀ x, refs s' x = r0 x
  end.

(** The process has a reference to inode [n] by entry [i], in addition to [r0],
    and there is room for another inode. *)
Record walking (meta q k : Z) (B : gset Z) (r0 : Z → Z) (i : nat) (n : Z) (s : kernel) : Prop := {
  wk_txn : txn q [] k s;
  wk_ic : icache_ok q [] s;
  wk_fs : fs_ok meta s;
  wk_tree : tree_ok meta s;
  wk_at : refers s i n;
  wk_n : 0 ≤ n < sb_ninodes (sb s);
  wk_type : i_type (dinode s n) ≠ 0;
  wk_base : ∀ m, m ∈ B ↔ 0 < r0 m;
  wk_refs : ∀ m, refs s m = r0 m + (if m =? n then 1 else 0);
  wk_room : (size B + 2 ≤ length (icache s))%nat }.

(** The walk ends without an inode: the current one is put back. *)
Lemma fail_back meta q k B r0 i n s ip' s1 :
  walking meta q k B r0 i n s → inode_at i ip' s1 → moved q k s s1 → icache_ok q [i] s1 → i_inum ip' = n →
  0 < i_ref ip' → i_nlink ip' ≠ 0 → (∀ m, refs s1 m = refs s m) →
  ∃ s2, iunlockput i s1 = Ok tt s2 ∧ moved q k s s2 ∧ resolved q r0 None None s2.
Proof.
  intros Hw Hi Hm Hic Hn Hr Hl Hr1.
  destruct (iunlockput_ok q k s1 i ip' (mv_txn _ _ _ _ Hm) Hic Hi (or_intror (or_introl Hl))) as (s2 & H2 & Hs2).
  exists s2. split; [done|]. split; [eapply moved_trans; [exact Hm|apply Hs2]|]. split; [apply Hs2|]. split; [done|].
  intros m. rewrite (refs_put q k [] i ip' (mksl 0 0) s1 s2 m), Hr1, (wk_refs _ _ _ _ _ _ _ _ Hw) by done. rewrite Hn. lia.
Qed.

(** The locked inode [ip'], looked up in. *)
Lemma lookup_step meta q k B r0 i n s ip' s1 name :
  walking meta q k B r0 i n s → 0 ≤ k → entry_set q k [i] i ip' s s1 → inode_at i ip' s1 → same_inode (dinode s n) ip' →
  (∀ m, refs s1 m = refs s m) → i_type (dinode s n) = T_DIR → bytes_ok name →
  match dir_find s (dinode s n) (fname name) with
  | None => ∃ s2, dirlookup i name s1 = Ok None s2 ∧ moved q k s s2 ∧ icache_ok q [i] s2 ∧ inode_at i ip' s2 ∧
      ∀ m, refs s2 m = refs s m
  | Some (_, x) => ∃ j off s2, dirlookup i name s1 = Ok (Some (j, off)) s2 ∧ moved q k s s2 ∧ icache_ok q [i] s2 ∧
      inode_at i (if decide (i = j) then got_ref ip' else ip') s2 ∧ refers s2 j x ∧
      ∀ m, refs s2 m = refs s m + (if m =? x then 1 else 0)
  end.
Proof.
  intros [Ht Hic Hfs Htr Hat Hn Hty HB Hrf Hroom] Hk Hs1 Hi1 Hsm Hr1 Hdir Hb.
  pose proof (es_moved _ _ _ _ _ _ _ Hs1) as Hm1.
  assert (Hd1 : dir_ok meta s1 ip').
  { eapply dir_ok_inode; [exact Hsm|]. eapply dir_ok_same; [by apply (tr_dir _ _ Htr)|apply (nstep_sb _ _ (mv_step _ _ _ _ Hm1))|apply Hm1]. }
  assert (Hf : dir_find s1 ip' (fname name) = dir_find s (dinode s n) (fname name)).
  { unfold dir_find. rewrite (dents_inode s1 _ _ Hsm), (dents_same s s1) by apply Hm1. done. }
  pose proof (dirlookup_ok meta q k [i] i ip' name s1 (mv_txn _ _ _ _ Hm1) Hk (es_ok _ _ _ _ _ _ _ Hs1) Hi1
                (fs_ok_moved _ _ _ _ _ Hm1 Hfs) Hd1 Hb) as Hl. rewrite Hf in Hl.
  destruct (dir_find s (dinode s n) (fname name)) as [[k' x]|] eqn:E.
  - destruct (dir_find_inode meta s n _ _ _ Htr Hn Hdir E) as [Hx Htx].
    destruct Hl as (j & s2 & s3 & H3 & Hto & [Hm3 Hic3 (jp & Hj & Hjn & Hjr & _) Hrf3 Hkept]).
    { by rewrite (nstep_sb _ _ (mv_step _ _ _ _ Hm1)). }
    { apply (live_bound B r0 s1 n); [done| |by rewrite (mv_len _ _ _ _ Hm1)]. intros m. by rewrite Hr1. }
    pose proof (fstep_icache _ _ (to_step _ _ _ _ _ _ Hto)) as Hc2.
    exists j, (DIRENT * Z.of_nat k'), s3. split_and!; try done.
    + eapply moved_trans; [exact Hm1|]. eapply moved_trans; [apply moved_touched, Hto|done].
    + apply Hkept; [unfold inode_at; by rewrite Hc2|].
      apply (en_lock _ _ _ _ _ (ic_entry _ _ _ (es_ok _ _ _ _ _ _ _ Hs1) i ip' Hi1)). set_solver.
    + by exists jp.
    + intros m. rewrite Hrf3. unfold refs at 1. rewrite Hc2. fold (refs s1 m). by rewrite Hr1.
  - destruct Hl as (s2 & H2 & Hto). pose proof (fstep_icache _ _ (to_step _ _ _ _ _ _ Hto)) as Hc2.
    exists s2. split_and!; [done|..].
    + eapply moved_trans; [exact Hm1|apply moved_touched, Hto].
    + eapply icache_ok_moved; [apply moved_touched, Hto|done|apply Hs1].
    + unfold inode_at. by rewrite Hc2.
    + intros m. unfold refs at 1. rewrite Hc2. fold (refs s1 m). by rewrite Hr1.
Qed.

(** [namex] at the end of the path. *)
Lemma namex_end meta q k (np : bool) B r0 i n s (name : list Z) :
  walking meta q k B r0 i n s →
  ∃ r s', (if np then iput i ;; ret (None, name) else ret (Some i, name)) s = Ok (r, name) s' ∧ moved q k s s' ∧
    resolved q r0 (target np s n []) r s'.
Proof.
  intros [Ht Hic Hfs Htr Hat Hn Hty HB Hrf Hroom]. destruct np.
  - destruct Hat as (ip & Hi & <- & Hr).
    destruct (iput_ok q k [] s i ip Ht Hic Hi Hr ltac:(apply not_elem_of_nil)) as (s1 & H1 & Hs1); [by eapply stays|].
    exists None, s1. rewrite (bind_ok _ _ _ _ _ H1). split; [done|]. split; [apply Hs1|]. split; [apply Hs1|]. split; [done|].
    intros x. rewrite (refs_put q k [] i ip (mksl 0 0) s s1 x), Hrf by done. lia.
  - exists (Some i), s. split; [done|]. split; [by apply moved_refl|]. split; [done|]. by exists i.
Qed.

(** The walk goes on at the inode found. *)
Lemma walking_next meta q k B r0 i n s ip' j x s2 s3 :
  walking meta q k B r0 i n s → moved q k s s2 → icache_ok q [i] s2 → i_inum ip' = n → 0 < i_ref ip' →
  inode_at i (if decide (i = j) then got_ref ip' else ip') s2 → refers s2 j x →
  (∀ m, refs s2 m = refs s m + (if m =? x then 1 else 0)) →
  0 ≤ x < sb_ninodes (sb s) → i_type (dinode s x) ≠ 0 →
  entry_set q k [] i (put_ref (set_lock (mksl 0 0) (if decide (i = j) then got_ref ip' else ip'))) s2 s3 →
  walking meta q k B r0 j x s3.
Proof.
  intros [Ht Hic Hfs Htr Hat Hn Hty HB Hrf Hroom] Hm2 _ Hin Hir Hi2 (jp & Hj & Hjx & Hjr) Hr2 Hx Htx Hs3.
  pose proof (moved_trans _ _ _ _ _ Hm2 (es_moved _ _ _ _ _ _ _ Hs3)) as Hm3.
  split; [apply Hm3|apply Hs3|by eapply fs_ok_moved|by eapply tree_ok_moved| |by rewrite (nstep_sb _ _ (mv_step _ _ _ _ Hm3))|
          by rewrite (dinode_moved _ _ _ _ _ Hm3)|done| |by rewrite (mv_len _ _ _ _ Hm3)].
  - destruct (decide (i = j)) as [<-|Hne].
    + exists (put_ref (set_lock (mksl 0 0) (got_ref ip'))). split; [by eapply entry_set_at|].
      unfold inode_at in *. simplify_eq. split; [done|]. simpl. lia.
    + exists jp. split; [|done]. eapply entry_set_other; [exact Hs3|done|done].
  - intros m. rewrite (refs_put q k [] i (if decide (i = j) then got_ref ip' else ip') (mksl 0 0) s2 s3 m), Hr2, Hrf; [|done|done|].
    + replace (i_inum (if decide (i = j) then got_ref ip' else ip')) with n by (by case_decide). lia.
    + case_decide; simpl; lia.
Qed.

Lemma namex_loop_ok meta q k np B r0 fuel : ∀ i n path name s,
  walking meta q k B r0 i n s → 0 ≤ k → (length path < fuel)%nat → 0 ∉ path → bytes_ok path → bytes_ok name →
  length name = Z.to_nat DIRSIZ →
  ∃ r nm s', namex_loop fuel i path np name s = Ok (r, nm) s' ∧ moved q k s s' ∧
    resolved q r0 (target np s n (elems [] path)) r s' ∧
    (np = true → is_Some r → ∃ e, last (elems [] path) = Some e ∧ fname nm = elem_name e).
Proof.
  induction fuel as [|fuel IH]; [lia|]. intros i n path name s Hw Hk Hf H0 Hb Hnb Hnl. cbn [namex_loop].
  pose proof (skipelem_spec path name H0 Hb Hnb Hnl) as Hsk. destruct (skipelem path name) as [[path' name']|].
  2: { rewrite Hsk. destruct (namex_end meta q k np B r0 i n s name Hw) as (r & s' & Hr & Hm & Hres).
       exists r, name, s'. split_and!; try done. intros ->. destruct Hres as [_ [-> _]]. by intros [? ?]. }
  destruct Hsk as (e & He & Hfn & Hlt & H0' & Hb' & Hnb' & Hnl' & Hss). rewrite He, target_cons, <-Hfn.
  pose proof Hw as [Ht Hic Hfs Htr Hat Hn Hty0 HB Hrf Hroom].
  destruct (lock_step meta q k s i n Ht Hk Hic Hfs Hat Hty0) as (ip & ip' & s1 & H1 & Hi & Hs1 & Hsm & Hin & Hir & Hr' & Hn').
  pose proof (entry_set_at _ _ _ _ _ _ _ _ Hs1 Hi) as Hi1. destruct (same_fields _ _ Hsm) as (Hty & Hnl1 & _).
  assert (Hr1 : ∀ m, refs s1 m = refs s m) by (intros m; apply (refs_lock q k [i] i ip ip' s s1 m Hs1 Hi Hr'); congruence).
  assert (Hlinks : i_nlink ip' ≠ 0) by (rewrite Hnl1; by apply (tr_links _ _ Htr)).
  assert (Hrp : 0 < i_ref ip') by lia. pose proof (es_moved _ _ _ _ _ _ _ Hs1) as Hm1. pose proof (es_ok _ _ _ _ _ _ _ Hs1) as Hic1.
  rewrite (bind_ok _ _ _ _ _ H1), (bind_ok _ _ _ _ _ (geti_at _ _ _ Hi1)), Hty.
  destruct (Z.eqb_spec (i_type (dinode s n)) T_DIR) as [Hdir|Hdir]; cbn [negb].
  2: { destruct (fail_back meta q k B r0 i n s ip' s1) as (s2 & H2 & Hm2 & Hres); try done.
       exists None, name', s2. rewrite (bind_ok _ _ _ _ _ H2). split_and!; [done|done|done|by intros _ [? ?]]. }
  assert (Hnil : bool_decide (path' = []) = bool_decide (elems [] path' = [])).
  { apply bool_decide_ext. rewrite <-Hss. symmetry. apply elems_nil. }
  rewrite Hnil. destruct (np && bool_decide (elems [] path' = [])) eqn:Enp.
  { apply andb_true_iff in Enp as [-> Enil]. apply bool_decide_eq_true in Enil.
    destruct (iunlock_ok q k [] s1 i ip' (mv_txn _ _ _ _ Hm1) Hic1 Hi1 ltac:(apply not_elem_of_nil)) as (s2 & H2 & Hs2).
    exists (Some i), name', s2. rewrite (bind_ok _ _ _ _ _ H2). split; [done|].
    split; [eapply moved_trans; [apply Hs1|apply Hs2]|]. split; [split; [apply Hs2|]|].
    - exists i. split; [done|]. split.
      + exists (set_lock (mksl 0 0) ip'). split; [by eapply entry_set_at|]. split; [done|]. simpl. lia.
      + intros x. rewrite (refs_lock q k [] i ip' _ s1 s2 x Hs2 Hi1), Hr1 by done. apply Hrf.
    - intros _ _. exists e. by rewrite Enil. }
  pose proof (lookup_step meta q k B r0 i n s ip' s1 name' Hw Hk Hs1 Hi1 Hsm Hr1 Hdir Hnb') as Hl.
  destruct (dir_find s (dinode s n) (fname name')) as [[k' x]|] eqn:E.
  - destruct Hl as (j & off & s2 & H2 & Hm2 & Hic2 & Hi2 & Hj & Hr2). rewrite (bind_ok _ _ _ _ _ H2).
    destruct (dir_find_inode meta s n _ _ _ Htr Hn Hdir E) as [Hx Htx].
    destruct (iunlockput_ok q k s2 i _ (mv_txn _ _ _ _ Hm2) Hic2 Hi2) as (s3 & H3 & Hs3); [right; left; by case_decide|].
    rewrite (bind_ok _ _ _ _ _ H3).
    pose proof (walking_next meta q k B r0 i n s ip' j x s2 s3 Hw Hm2 Hic2 Hn' ltac:(lia) Hi2 Hj Hr2 Hx Htx Hs3) as Hw3.
    pose proof (moved_trans _ _ _ _ _ Hm2 (es_moved _ _ _ _ _ _ _ Hs3)) as Hm3.
    destruct (IH j x path' name' s3 Hw3 Hk ltac:(lia) H0' Hb' Hnb' Hnl') as (r & nm & s' & Hr & Hm & Hres & Hlast).
    exists r, nm, s'. split; [done|]. split; [by eapply moved_trans|]. rewrite (target_moved np q k s s3) in Hres by done.
    split; [done|]. intros Hnp Hsr. destruct (Hlast Hnp Hsr) as (e' & He' & Hfe). exists e'. split; [|done].
    destruct (elems [] path'); [done|]. done.
  - destruct Hl as (s2 & H2 & Hm2 & Hic2 & Hi2 & Hr2). rewrite (bind_ok _ _ _ _ _ H2).
    destruct (fail_back meta q k B r0 i n s ip' s2) as (s3 & H3 & Hm3 & Hres); try done.
    exists None, name', s3. rewrite (bind_ok _ _ _ _ _ H3). split_and!; [done|done|done|by intros _ [? ?]].
Qed.

(** Where a path starts: at the root, or at the working directory of the
    process. *)
Definition starts (s : kernel) (path : list Z) (n : Z) : Prop :=
  if char_at path =? slash then n = ROOTINO
  else ∃ me p c, runs_as me p s ∧ cwd p = Some c ∧ refers s c n.

Lemma namex_ok meta q k np s path n name :
  txn q [] k s → 0 ≤ k → icache_ok q [] s → fs_ok meta s → tree_ok meta s → starts s path n →
  0 ≤ n < sb_ninodes (sb s) → i_type (dinode s n) ≠ 0 → 0 ∉ path → bytes_ok path → bytes_ok name →
  length name = Z.to_nat DIRSIZ → (size (live s) + 2 ≤ length (icache s))%nat →
  ∃ r nm s', namex path np name s = Ok (r, nm) s' ∧ moved q k s s' ∧
    resolved q (refs s) (target np s n (elems [] path)) r s' ∧
    (np = true → is_Some r → ∃ e, last (elems [] path) = Some e ∧ fname nm = elem_name e).
Proof.
  intros Ht Hk Hic Hfs Htr Hst Hn Hty H0 Hb Hnb Hnl Hroom.
  assert (Hget : ∃ i s1, (if char_at path =? slash then iget ROOTDEV ROOTINO
        else cur ← curproc; p ← getp cur; match cwd p with None => panic "trap" | Some c => idup c end) s = Ok i s1 ∧
      referenced q k [] n s i s1).
  { unfold starts in Hst. destruct (char_at path =? slash).
    - subst n. apply iget_ok; [done|done|done|lia].
    - destruct Hst as (me & p & c & [Hru Hp] & Hc & ip & Hi & <- & Hr).
      rewrite (bind_ok _ _ _ _ _ (curproc_runs _ _ Hru)), (bind_ok _ _ _ _ _ (getp_eq _ _ _ Hp)), Hc.
      destruct (idup_ok q k [] s c ip Ht Hic Hi Hr) as (s1 & H1 & Hrf). by exists c, s1. }
  destruct Hget as (i & s1 & H1 & [Hm1 Hic1 (ip & Hi & Hin & Hir & _) Hrf _]).
  assert (Hw : walking meta q k (live s) (refs s) i n s1).
  { split; [apply Hm1|exact Hic1|by eapply fs_ok_moved|by eapply tree_ok_moved|by exists ip|by rewrite (nstep_sb _ _ (mv_step _ _ _ _ Hm1))|
      by rewrite (dinode_moved _ _ _ _ _ Hm1)|apply elem_of_live|exact Hrf|by rewrite (mv_len _ _ _ _ Hm1)]. }
  destruct (namex_loop_ok meta q k np (live s) (refs s) (S (length path)) i n path name s1 Hw Hk ltac:(lia) H0 Hb Hnb Hnl)
    as (r & nm & s' & Hr & Hm & Hres & Hlast).
  exists r, nm, s'. unfold namex. rewrite (bind_ok _ _ _ _ _ H1). split; [exact Hr|]. split; [by eapply moved_trans|].
  rewrite (target_moved np q k s s1) in Hres by done. by split.
Qed.
End Namei.

(** ** Properties *)

(** [C8] Path resolution.  On a file system tree in order, with room for two more
    inodes in the cache, [namei] returns the inode that the elements of the path
    lead to, name by name, from the root or the working directory, with one more
    reference to it, or 0 if a name is missing or something on the way is not a
    directory; [nameiparent] does the same for the directory of the last element
    and leaves that element in its buffer.  Both leave no lock and no other
    reference behind and change no block. *)
Theorem namei_spec {dk : Disk} {dv : Devsw} meta q k s path n :
  txn q [] k s → 0 ≤ k → icache_ok q [] s → fs_ok meta s → tree_ok meta s → starts s path n →
  0 ≤ n < sb_ninodes (sb s) → i_type (dinode s n) ≠ 0 → 0 ∉ path → bytes_ok path →
  (size (live s) + 2 ≤ length (icache s))%nat →
  (∃ r s', namei path s = Ok r s' ∧ moved q k s s' ∧ resolved q (refs s) (walk s n (elems [] path)) r s') ∧
  (∃ r nm s', nameiparent path s = Ok (r, nm) s' ∧ moved q k s s' ∧
     resolved q (refs s) (walk_parent s n (elems [] path)) r s' ∧
     (is_Some r → ∃ e, last (elems [] path) = Some e ∧ fname nm = elem_name e)).
Proof.
  intros Ht Hk Hic Hfs Htr Hst Hn Hty H0 Hb Hroom.
  assert (Hn0 : bytes_ok name0) by (by apply Forall_replicate).
  assert (Hl0 : length name0 = Z.to_nat DIRSIZ) by apply length_replicate. split.
  - destruct (namex_ok meta q k false s path n name0 Ht Hk Hic Hfs Htr Hst Hn Hty H0 Hb Hn0 Hl0 Hroom) as (r & nm & s' & Hr & Hm & Hres & _).
    exists r, s'. unfold namei. by rewrite (bind_ok _ _ _ _ _ Hr).
  - destruct (namex_ok meta q k true s path n name0 Ht Hk Hic Hfs Htr Hst Hn Hty H0 Hb Hn0 Hl0 Hroom) as (r & nm & s' & Hr & Hm & Hres & Hl).
    exists r, nm, s'. split; [exact Hr|]. split; [exact Hm|]. split; [exact Hres|auto].
Qed.

(** The tree of the example. *)
Lemma sdir_dinode c n :
  0 ≤ n < 8 → dinode (sdir c) n = load_dinode (inode_off n) sdir_inodes (inode0 <| i_dev := 1 |> <| i_inum := n |>).
Proof.
  intros Hn. unfold dinode, stored. change (i_inum (inode0 <| i_dev := 1 |> <| i_inum := n |>)) with n.
  f_equal. unfold iblock. change (i_inum (inode0 <| i_dev := 1 |> <| i_inum := n |>)) with n. rewrite sdir_sb, sdir_block.
  replace (IBLOCK n small_sb) with 32; [reflexivity|].
  unfold IBLOCK, IPB. rewrite u32_small; unfold is_u32, BSIZE; simpl sb_inodestart; Z.div_mod_to_equations; lia.
Qed.

(** The inodes in use are 1 and 2. *)
Lemma sdir_types c n : 0 ≤ n < 8 → i_type (dinode (sdir c) n) = if n =? 1 then 1 else if n =? 2 then 2 else 0.
Proof.
  intros Hn. rewrite sdir_dinode by done.
  assert (H : n = 0 ∨ n = 1 ∨ n = 2 ∨ n = 3 ∨ n = 4 ∨ n = 5 ∨ n = 6 ∨ n = 7) by lia.
  destruct H as [-> | [-> | [-> | [-> | [-> | [-> | [-> | ->]]]]]]]; by vm_compute.
Qed.

Lemma sdir_tree_ok c : tree_ok 34 (sdir c).
Proof.
  assert (Hroot : ∀ n, 0 ≤ n < 8 → i_type (dinode (sdir c) n) = T_DIR → n = 1).
  { intros n Hn. rewrite sdir_types by done. unfold T_DIR. destruct (Z.eqb_spec n 1); [done|]. destruct (n =? 2); lia. }
  assert (Hd : dents (sdir c) (dinode (sdir c) 1) = [sdir_entry 1 [46]; sdir_entry 1 [46; 46]; sdir_entry 2 [97]]).
  { apply sdir_dents; rewrite sdir_dinode by lia; by vm_compute. }
  split; rewrite sdir_sb; change (sb_ninodes small_sb) with 8.
  - intros n Hn Ht. rewrite (Hroot n Hn Ht). apply sdir_dir_ok; rewrite sdir_dinode by lia; by vm_compute.
  - intros n de Hn Ht Hde _. rewrite (Hroot n Hn Ht), Hd in Hde. rewrite !elem_of_cons in Hde.
    assert (He : de_inum de = 1 ∨ de_inum de = 2).
    { destruct Hde as [-> | [-> | [-> | Hde]]]; [left; by vm_compute|left; by vm_compute|right; by vm_compute|].
      destruct (not_elem_of_nil _ Hde). }
    split; [lia|]. rewrite sdir_types by lia. destruct He as [-> | ->]; done.
  - intros n Hn Ht. rewrite sdir_types in Ht by done. rewrite sdir_dinode by done.
    destruct (Z.eqb_spec n 1) as [->|]; [by vm_compute|]. destruct (Z.eqb_spec n 2) as [->|]; [by vm_compute|].
    destruct (Ht eq_refl).
Qed.

Definition sdir_empty : kernel := sdir (replicate 50 inode0).

Lemma sdir_empty_ok : icache_ok 7 [] sdir_empty.
Proof.
  assert (Hat : ∀ i ip, inode_at i ip sdir_empty → ip = inode0).
  { intros i ip Hi. unfold inode_at, sdir_empty in Hi. rewrite sdir_icache in Hi.
    apply list_elem_of_lookup_2, elem_of_replicate in Hi. by destruct Hi. }
  split.
  - intros i ip ->%Hat. split; simpl; try lia. by intros ?%not_elem_of_nil.
  - intros i j ip jp ->%Hat ->%Hat. simpl. lia.
Qed.

(** The path [/a]. *)
Lemma namei_spec_witness :
  ∃ j s', namei (dk := memide) (dv := Build_Devsw (λ _, None) (λ _, None)) [47; 97] sdir_empty = Ok (Some j) s' ∧ refers s' j 2.
Proof.
  destruct (namei_spec (dk := memide) (dv := Build_Devsw (λ _, None) (λ _, None)) 34 7 28 sdir_empty [47; 97] 1) as [H _].
  - apply sdir_txn. lia.
  - lia.
  - exact sdir_empty_ok.
  - apply sdir_fs_ok.
  - apply sdir_tree_ok.
  - reflexivity.
  - unfold sdir_empty. rewrite sdir_sb. split; [lia|reflexivity].
  - unfold sdir_empty. rewrite sdir_types by lia. discriminate.
  - set_solver.
  - by repeat constructor.
  - unfold live, sdir_empty. rewrite sdir_icache. apply Nat.leb_le. vm_compute. reflexivity.
  - destruct H as (r & s' & Hr & _ & _ & Hres).
    assert (Hw : walk sdir_empty 1 (elems [] [47; 97]) = Some 2).
    { change (elems [] [47; 97]) with [[97]]. cbn [walk]. unfold sdir_empty. rewrite sdir_types by lia.
      change ((if 1 =? 1 then 1 else if 1 =? 2 then 2 else 0) =? T_DIR) with true. cbv iota. unfold dir_find.
      rewrite sdir_dents by (rewrite sdir_dinode by lia; vm_compute; reflexivity). vm_compute. reflexivity. }
    rewrite Hw in Hres. destruct Hres as (j & -> & Hj & _). exists j, s'. split; [exact Hr|exact Hj].
Defined.
