(* ===== verification/Mkfs.v ===== *)
(** * The image builder: mkfs.c

    [mkfs] runs on the host and writes the first file system image: the super
    block, the inodes and blocks of the files given on its command line, a root
    directory that names them, and the bitmap.

    The image is a list of blocks.  The host is little-endian, so that a struct in
    memory has the bytes of its fields in the order of the disk; a buffer of
    [struct dinode] or [struct dirent] is the list of its bytes.  Reads and
    writes of the image succeed, but for a read past its end.  [exit(1)] and a
    failed [assert] are [Panic]. *)

From Stdlib Require Import Ascii String.
From S2P Require Import Prelude Bytes Kernel Cstring Screen Console Bio Log Fs Dir.
Open Scope Z_scope.

(** ** Parameters and state *)

Definition FSSIZE : Z := 1500.
Definition NINODES : Z := 200.

(** [nbitmap], [ninodeblocks], [nlog], and [nmeta] and [nblocks] as [main] sets them. *)
Definition nbitmap : Z := FSSIZE / (BSIZE * 8) + 1.
Definition ninodeblocks : Z := NINODES / IPB + 1.
Definition nlog : Z := LOGSIZE.
Definition nmeta : Z := 2 + nlog + ninodeblocks + nbitmap.
Definition nblocks : Z := FSSIZE - nmeta.

Record mkfs := mkmkfs { img : list (list Z); freeinode : Z; freeblock : Z }.
#[export] Instance eta_mkfs : Eta mkfs := λ m, mkmkfs (img m) (freeinode m) (freeblock m).
Definition mkfs0 : mkfs := mkmkfs [] 1 0.

Definition MM (A : Type) : Type := M mkfs Empty_set A.

(** The number whose bytes in memory are those of [x], lowest first. *)
Definition xshort (x : Z) : Z := le_val [u8 x; u8 (x / 2 ^ 8)].
Definition xint (x : Z) : Z := le_val [u8 x; u8 (x / 2 ^ 8); u8 (x / 2 ^ 16); u8 (x / 2 ^ 24)].

Definition sb0 : superblock :=
  mksb (xint FSSIZE) (xint nblocks) (xint NINODES) (xint nlog) (xint 2) (xint (2 + nlog)) (xint (2 + nlog + ninodeblocks)).

(** The bytes of [struct superblock]. *)
Definition sb_bytes (b : superblock) : list Z :=
  concat (le_bytes 4 <$> [sb_size b; sb_nblocks b; sb_ninodes b; sb_nlog b; sb_logstart b; sb_inodestart b; sb_bmapstart b]).

(** ** Blocks *)

(** The block at the offset [sec * BSIZE], a [uint]. *)
Definition sector (sec : Z) : nat := Z.to_nat (u32 (sec * BSIZE) / BSIZE).

(** A write past the end of the image extends it. *)
Definition put_sect (n : nat) (buf : list Z) (l : list (list Z)) : list (list Z) :=
  if (n <? length l)%nat then <[n := buf]> l else l ++ replicate (n - length l) zeros ++ [buf].

Definition wsect (sec : Z) (buf : list Z) : MM unit :=
  modify_state (λ m, m <| img ::= put_sect (sector sec) buf |>).

Definition rsect (sec : Z) : MM (list Z) :=
  l ← gets img;
  match l !! sector sec with
  | Some buf => ret buf
  | None => panic "read"
  end.

(** [freeblock++] *)
Definition newblock : MM Z :=
  b ← gets freeblock;
  modify_state (λ m, m <| freeblock := u32 (b + 1) |>) ;;
  ret b.

(** ** Inodes *)

Definition winode (inum : Z) (ip : list Z) : MM unit :=
  let bn := IBLOCK inum sb0 in
  buf ← rsect bn;
  wsect bn (splice (inode_off inum) ip buf).

Definition rinode (inum : Z) : MM (list Z) :=
  let bn := IBLOCK inum sb0 in
  buf ← rsect bn;
  ret (slice (inode_off inum) DINODE buf).

(** The fields of a [struct dinode]. *)
Definition din_size (din : list Z) : Z := get32 8 din.
Definition din_set_size (v : Z) (din : list Z) : list Z := put32 8 v din.
Definition din_addr (k : nat) (din : list Z) : Z := get32 (12 + 4 * k) din.
Definition din_set_addr (k : nat) (v : Z) (din : list Z) : list Z := put32 (12 + 4 * k) v din.

Definition ialloc (type : Z) : MM Z :=
  inum ← gets freeinode;
  modify_state (λ m, m <| freeinode := u32 (inum + 1) |>) ;;
  let din := replicate DINODE 0 in
  let din := put16 0 (xshort type) din in
  let din := put16 6 (xshort 1) din in
  let din := din_set_size (xint 0) din in
  winode inum din ;;
  ret inum.

Definition balloc (used : Z) : MM unit :=
  if negb (used <? BSIZE * 8) then panic "assert used < BSIZE*8" else
  let buf := foldl (λ buf i, set_bit i buf) zeros (seqZ 0 used) in
  wsect (sb_bmapstart sb0) buf.

(** The block [x] of the [fbn]th block of the file, allocated where it is
    missing, and [din]. *)
Definition file_block (din : list Z) (fbn : Z) : MM (Z * list Z) :=
  if fbn <? Z.of_nat NDIRECT then
    let k := Z.to_nat fbn in
    din ← (if xint (din_addr k din) =? 0 then b ← newblock; ret (din_set_addr k (xint b) din) else ret din);
    ret (xint (din_addr k din), din)
  else
    din ← (if xint (din_addr NDIRECT din) =? 0 then b ← newblock; ret (din_set_addr NDIRECT (xint b) din) else ret din);
    let k := Z.to_nat (fbn - Z.of_nat NDIRECT) in
    indirect ← rsect (xint (din_addr NDIRECT din));
    indirect ← (if get32 (4 * k) indirect =? 0 then
                  b ← newblock;
                  let indirect := put32 (4 * k) (xint b) indirect in
                  wsect (xint (din_addr NDIRECT din)) indirect ;;
                  ret indirect
                else ret indirect);
    ret (xint (get32 (4 * k) indirect), din).

(** The loop of [iappend]: [din] and [off] at its end.  Every turn but the first
    begins at the start of a block. *)
Fixpoint iappend_loop (fuel : nat) (din p : list Z) (off n : Z) : MM (list Z * Z) :=
  if negb (0 <? n) then ret (din, off) else
  match fuel with
  | O => panic "iappend: out of fuel"
  | S fuel' =>
      let fbn := off / BSIZE in
      if negb (fbn <? MAXFILE) then panic "assert fbn < MAXFILE" else
      '(x, din) ← file_block din fbn;
      let n1 := Z.min n (u32 ((fbn + 1) * BSIZE - off)) in
      buf ← rsect x;
      wsect x (splice (Z.to_nat (off - fbn * BSIZE)) (take (Z.to_nat n1) p) buf) ;;
      iappend_loop fuel' din (drop (Z.to_nat n1) p) (u32 (off + n1)) (n - n1)
  end.

Definition iappend (inum : Z) (xp : list Z) (n : Z) : MM unit :=
  din ← rinode inum;
  let off := xint (din_size din) in
  '(din, off) ← iappend_loop (rw_fuel n) din xp off n;
  let din := din_set_size (xint off) din in
  winode inum din.

(** ** main *)

(** An argument of the command line: the string, and what the host says when it
    is opened: [None] for a failure, or the bytes of each [read] until one
    returns none. *)
Record arg := mkarg { a_str : list Z; a_open : option (list (list Z)) }.

(** [strcpy] and [strncpy] into a cleared [de.name]. *)
Definition dot_entry (inum : Z) (nm : list Z) : list Z :=
  mk_dirent (xshort inum) (splice 0 (nm ++ [0]) (replicate (Z.to_nat DIRSIZ) 0)).
Definition file_entry (inum : Z) (nm : list Z) : list Z :=
  mk_dirent (xshort inum) (strncpy (replicate (Z.to_nat DIRSIZ) 0) nm (Z.to_nat DIRSIZ)).

Definition underscore : Z := chr "_".
Definition dot : Z := chr ".".

(** [if(argv[i][0] == '_') ++argv[i]] *)
Definition strip (nm : list Z) : list Z := if char_at nm =? underscore then tl nm else nm.

Definition add_file (rootino : Z) (a : arg) : MM unit :=
  if bool_decide (slash ∈ a_str a) then panic "assert index(argv[i], '/') == 0" else
  match a_open a with
  | None => panic "open"
  | Some reads =>
      inum ← ialloc T_FILE;
      iappend rootino (file_entry inum (strip (a_str a))) DIRENT ;;
      for_each reads (λ buf, iappend inum buf (Z.of_nat (length buf)))
  end.

Definition fix_root (rootino : Z) : MM unit :=
  din ← rinode rootino;
  let off := xint (din_size din) in
  let off := u32 ((off / BSIZE + 1) * BSIZE) in
  winode rootino (din_set_size (xint off) din).

Definition main (argv : list arg) : MM unit :=
  match argv with
  | _ :: image :: files =>
      match a_open image with
      | None => panic "open"
      | Some _ =>
          modify_state (λ m, m <| img := [] |> <| freeblock := nmeta |>) ;;
          for_each (seqZ 0 FSSIZE) (λ i, wsect i zeros) ;;
          wsect 1 (splice 0 (sb_bytes sb0) zeros) ;;
          rootino ← ialloc T_DIR;
          if negb (rootino =? ROOTINO) then panic "assert rootino == ROOTINO" else
          iappend rootino (dot_entry rootino [dot]) DIRENT ;;
          iappend rootino (dot_entry rootino [dot; dot]) DIRENT ;;
          for_each files (add_file rootino) ;;
          fix_root rootino ;;
          b ← gets freeblock;
          balloc b
      end
  | _ => panic "Usage: mkfs fs.img files..."
  end.
