(* ===== verification/Mkimage.v ===== *)
(** * The image that mkfs builds

    [mkfs] leaves a file system in order: the layout of the kernel, blocks that
    belong to one file each, a bitmap that marks them, and a root directory in
    which [namei] finds the files of the command line with their contents. *)

From S2P Require Import Prelude Bytes Kernel Cstring Sched Proc Waiting Sleeplock Bio Log Reserve.
From S2P Require Import Fs Dinode Txn Blocks Inode Content Icache Dir Dirent Namei Mkfs.

(** ** An image as the kernel sees it *)

(** A kernel whose disk is the image, with an empty buffer cache. *)
Definition view (l : list (list Z)) : kernel := kernel0 <| sb := sb0 |> <| kdisk := mkdisk l [] |>.

Lemma view_block l n : block (view l) n = default [] (l !! Z.to_nat n).
Proof. reflexivity. Qed.

Lemma view_sb l : sb (view l) = sb0.
Proof. reflexivity. Qed.

#[global] Opaque view.

Lemma view_insert l a d n :
  0 ≤ a < Z.of_nat (length l) → 0 ≤ n → block (view (<[Z.to_nat a := d]> l)) n = if decide (n = a) then d else block (view l) n.
Proof.
  intros Ha Hn. rewrite !view_block. destruct (decide (n = a)) as [->|Hne].
  - rewrite list_lookup_insert_eq by lia. done.
  - rewrite list_lookup_insert_ne by lia. done.
Qed.

Lemma xint_eq x : xint x = u32 x.
Proof. unfold xint, u32. cbn [le_val]. unfold u8. Z.div_mod_to_equations. lia. Qed.

Lemma xshort_eq x : xshort x = u16 x.
Proof. unfold xshort, u16. cbn [le_val]. unfold u8. Z.div_mod_to_equations. lia. Qed.

Lemma sector_eq n : 0 ≤ n < FSSIZE → sector n = Z.to_nat n.
Proof. unfold sector, u32, FSSIZE, BSIZE. intros. f_equal. Z.div_mod_to_equations. lia. Qed.

Lemma wsect_ok n d m :
  0 ≤ n < FSSIZE → Z.of_nat (length (img m)) = FSSIZE →
  wsect n d m = Ok tt (m <| img ::= <[Z.to_nat n := d]> |>).
Proof.
  intros Hn Hl. unfold wsect, modify_state. f_equal. destruct m as [l fi fb]. cbn in *. unfold modify; cbn.
  f_equal. unfold put_sect. rewrite sector_eq by done. rewrite (proj2 (Nat.ltb_lt _ _)) by lia. done.
Qed.

Lemma rsect_ok n m :
  0 ≤ n < FSSIZE → Z.of_nat (length (img m)) = FSSIZE → rsect n m = Ok (block (view (img m)) n) m.
Proof.
  intros Hn Hl. unfold rsect, bind, gets. rewrite sector_eq, view_block by done.
  destruct (lookup_lt_is_Some_2 (img m) (Z.to_nat n)) as [b ->]; [lia|done].
Qed.

(** ** The inode in a buffer *)

Definition ino (inum : Z) (din : list Z) : inode := load_dinode 0 din (inode0 <| i_dev := 1 |> <| i_inum := inum |>).

Lemma length_di_addrs o d : length (di_addrs o d) = S NDIRECT.
Proof. unfold di_addrs. by rewrite length_fmap, length_seq. Qed.

Lemma di_addrs_nth o d k : (k ≤ NDIRECT)%nat → nth k (di_addrs o d) 0 = get32 (o + 12 + 4 * k) d.
Proof.
  intros Hk. rewrite nth_lookup. unfold di_addrs. rewrite list_lookup_fmap, lookup_seq_lt by lia. done.
Qed.

Lemma slice_slice {A} o n o' n' (l : list A) : (o' + n' ≤ n)%nat → slice o' n' (slice o n l) = slice (o + o') n' l.
Proof.
  intros H. apply list_eq. intros i. destruct (decide (i < n')%nat).
  - rewrite !lookup_slice by lia. f_equal. lia.
  - by rewrite !lookup_slice_ge by lia.
Qed.

Lemma get_slice o d k :
  (k + 4 ≤ DINODE)%nat → get32 k (slice o DINODE d) = get32 (o + k) d ∧ get16 k (slice o DINODE d) = get16 (o + k) d.
Proof. intros Hk. unfold get32, get16. by rewrite !slice_slice by lia. Qed.

Lemma load_slice o d ip : load_dinode o d ip = load_dinode 0 (slice o DINODE d) ip.
Proof.
  assert (Ha : di_addrs 0 (slice o DINODE d) = di_addrs o d).
  { apply list_fmap_ext. intros i k Hk%lookup_seq. change (0 + 12 + 4 * k)%nat with (12 + 4 * k)%nat.
    destruct (get_slice o d (12 + 4 * k)) as [Hg _]; [unfold DINODE, NDIRECT in *; lia|].
    rewrite Hg. f_equal. lia. }
  unfold load_dinode. rewrite Ha.
  destruct (get_slice o d 0) as [_ H0]; [unfold DINODE; lia|]. destruct (get_slice o d 2) as [_ H2]; [unfold DINODE; lia|].
  destruct (get_slice o d 4) as [_ H4]; [unfold DINODE; lia|]. destruct (get_slice o d 6) as [_ H6]; [unfold DINODE; lia|].
  destruct (get_slice o d 8) as [H8 _]; [unfold DINODE; lia|].
  cbn [Nat.add]. by rewrite H0, H2, H4, H6, H8, Nat.add_0_r.
Qed.

Lemma ino_addr inum din k : (k ≤ NDIRECT)%nat → nth k (i_addrs (ino inum din)) 0 = din_addr k din.
Proof. intros Hk. change (nth k (di_addrs 0 din) 0 = din_addr k din). by apply di_addrs_nth. Qed.

Lemma ino_set_addr inum din k v :
  length din = DINODE → (k ≤ NDIRECT)%nat →
  ino inum (din_set_addr k v din) = (ino inum din) <| i_addrs ::= <[k := u32 v]> |>.
Proof.
  intros Hl Hk. unfold din_set_addr, DINODE, NDIRECT in *.
  assert (Ha : di_addrs 0 (put32 (12 + 4 * k) v din) = <[k := u32 v]> (di_addrs 0 din)).
  { apply list_eq. intros i. unfold di_addrs. destruct (decide (i < S NDIRECT)%nat) as [Hi|Hi].
    - rewrite list_lookup_fmap, lookup_seq_lt by done. cbn [fmap option_fmap option_map]. unfold NDIRECT in *.
      destruct (decide (i = k)) as [->|Hne].
      + rewrite list_lookup_insert_eq by (rewrite length_fmap, length_seq; lia). f_equal. cbn [Nat.add]. by rewrite get32_put32 by lia.
      + rewrite list_lookup_insert_ne, list_lookup_fmap, lookup_seq_lt by (done || lia). cbn [fmap option_fmap option_map Nat.add]. f_equal.
        apply get32_put32_ne; lia.
    - rewrite !lookup_ge_None_2; [done|..]; rewrite ?length_insert, length_fmap, length_seq; unfold NDIRECT in *; lia. }
  unfold ino, load_dinode. rewrite Ha. unfold put32. rewrite !get16_splice, get32_splice by (rewrite ?length_le_bytes; lia). done.
Qed.

Lemma ino_set_size inum din v :
  length din = DINODE → ino inum (din_set_size v din) = (ino inum din) <| i_size := u32 v |>.
Proof.
  intros Hl. unfold din_set_size, DINODE, NDIRECT in *.
  assert (Ha : di_addrs 0 (put32 8 v din) = di_addrs 0 din).
  { apply list_fmap_ext. intros i k Hk%lookup_seq. unfold NDIRECT in *. apply get32_put32_ne; lia. }
  unfold ino, load_dinode. rewrite Ha. cbn [Nat.add]. rewrite get32_put32 by lia.
  unfold put32. rewrite !get16_splice by (rewrite ?length_le_bytes; lia). done.
Qed.

(** ** The blocks of files *)

(** The slots of a file of [b] blocks that have a block. *)
Definition needed (b k : nat) : Prop := if decide (k ≤ NDIRECT)%nat then (k < b)%nat else (k ≤ b)%nat.
Definition dense (l : list (list Z)) (ip : inode) (b : nat) : Prop :=
  ∀ k, (k < NSLOT)%nat → slot (view l) ip k ≠ 0 ↔ needed b k.

(** The blocks of the files [I] are different data blocks below the first free
    one, and hold the contents [C], with zeros after them; the free blocks are
    zero. *)
Record data_ok (I : list inode) (C : list (list Z)) (l : list (list Z)) (fb : Z) : Prop := {
  dt_len : Z.of_nat (length l) = FSSIZE;
  dt_blocks : Forall (λ b, length b = Z.to_nat BSIZE) l;
  dt_fb : nmeta ≤ fb ≤ FSSIZE;
  dt_addrs : ∀ j ip, I !! j = Some ip → length (i_addrs ip) = S NDIRECT;
  dt_slot : ∀ j ip k, I !! j = Some ip → (k < NSLOT)%nat → slot (view l) ip k ≠ 0 → nmeta ≤ slot (view l) ip k < fb;
  dt_inj : ∀ j j' ip ip' k k', I !! j = Some ip → I !! j' = Some ip' → (k < NSLOT)%nat → (k' < NSLOT)%nat →
    slot (view l) ip k ≠ 0 → slot (view l) ip k = slot (view l) ip' k' → j = j' ∧ k = k';
  dt_free : ∀ n, fb ≤ n < FSSIZE → block (view l) n = zeros;
  dt_bytes : ∀ j ip c o, I !! j = Some ip → C !! j = Some c → 0 ≤ o < MAXFILE * BSIZE →
    fbyte (view l) ip o = nth (Z.to_nat o) c 0 }.

Lemma block_length I C l fb n : data_ok I C l fb → 0 ≤ n < FSSIZE → length (block (view l) n) = Z.to_nat BSIZE.
Proof.
  intros [Hl Hb _ _ _ _ _ _] Hn. rewrite view_block. destruct (lookup_lt_is_Some_2 l (Z.to_nat n)) as [b Hx]; [lia|].
  rewrite Hx. by apply (Forall_lookup_1 _ _ _ _ Hb Hx).
Qed.

Lemma nmeta_pos : 0 < nmeta.
Proof. done. Qed.
Lemma nmeta_eq : nmeta = 59.
Proof. done. Qed.

(** The blocks of the files other than [j] are where they were. *)
Definition others (I : list inode) (j : nat) (l l' : list (list Z)) : Prop :=
  ∀ j' jp k, j' ≠ j → I !! j' = Some jp → slot (view l') jp k = slot (view l) jp k.

Lemma others_trans I I' j l l1 l2 :
  (∀ j', j' ≠ j → I' !! j' = I !! j') → others I j l l1 → others I' j l1 l2 → others I j l l2.
Proof. intros HI H1 H2 j' jp k Hne Hj. rewrite (H2 j' jp k Hne), (H1 j' jp k Hne Hj); [done|]. by rewrite HI. Qed.

(** A new block for slot [k0] of file [j0]; at most its indirect block changes. *)
Lemma data_ok_alloc I C l fb I' l' j0 ip0 k0 :
  data_ok I C l fb → fb < FSSIZE → I !! j0 = Some ip0 → (k0 < NSLOT)%nat → slot (view l) ip0 k0 = 0 →
  length l' = length l → Forall (λ b, length b = Z.to_nat BSIZE) l' →
  (∀ n, 0 ≤ n < FSSIZE → (n = 0 ∨ n ≠ slot (view l) ip0 NDIRECT) → block (view l') n = block (view l) n) →
  (∀ j ip', I' !! j = Some ip' → length (i_addrs ip') = S NDIRECT ∧ ∃ ip, I !! j = Some ip ∧
     ∀ k, (k < NSLOT)%nat → slot (view l') ip' k = if decide (j = j0 ∧ k = k0) then fb else slot (view l) ip k) →
  data_ok I' C l' (fb + 1).
Proof.
  intros Hd Hfb Hj0 Hk0 Hz Hlen Hbl Hsame HI. pose proof nmeta_pos as Hm. pose proof (dt_fb _ _ _ _ Hd) as Hfm.
  assert (Hfresh : ∀ j ip k, I !! j = Some ip → (k < NSLOT)%nat → slot (view l) ip k ≠ fb).
  { intros j ip k Hj Hk He. destruct (decide (slot (view l) ip k = 0)) as [E|E]; [lia|].
    pose proof (dt_slot _ _ _ _ Hd j ip k Hj Hk E). lia. }
  split.
  - rewrite Hlen. apply Hd.
  - done.
  - lia.
  - intros j ip' Hj. by destruct (HI j ip' Hj).
  - intros j ip' k Hj Hk. destruct (HI j ip' Hj) as (_ & ip & Hip & ->); [|done]. case_decide; [lia|].
    intros Hne. pose proof (dt_slot _ _ _ _ Hd j ip k Hip Hk Hne). lia.
  - intros j j' ip ip' k k' Hj Hj' Hk Hk'. destruct (HI j ip Hj) as (_ & ip1 & Hip1 & ->); [|done].
    destruct (HI j' ip' Hj') as (_ & ip1' & Hip1' & ->); [|done].
    repeat case_decide; intros Hne He; [lia| | |].
    + by destruct (Hfresh j' ip1' k' Hip1' Hk').
    + by destruct (Hfresh j ip1 k Hip1 Hk).
    + by apply (dt_inj _ _ _ _ Hd j j' ip1 ip1').
  - intros n Hn. rewrite Hsame; [apply Hd; lia|lia|]. right. intros ->.
    destruct (decide (slot (view l) ip0 NDIRECT = 0)) as [E|E]; [lia|].
    pose proof (dt_slot _ _ _ _ Hd j0 ip0 NDIRECT Hj0 ltac:(unfold NSLOT; lia) E). lia.
  - intros j ip' c o Hj Hc Ho. destruct (HI j ip' Hj) as (_ & ip & Hip & Hs).
    rewrite <-(dt_bytes _ _ _ _ Hd j ip c o Hip Hc Ho). unfold fbyte. f_equal. unfold contents.
    assert (Hbn : (Z.to_nat (o / BSIZE) < NDIRECT + NINDIRECT)%nat)
      by (unfold MAXFILE, BSIZE, NDIRECT, NINDIRECT in *; Z.div_mod_to_equations; lia).
    pose proof (bslot_lt _ Hbn) as Hbs. pose proof (bslot_ne (Z.to_nat (o / BSIZE))) as Hbn'.
    rewrite Hs by done. destruct (decide (j = j0 ∧ bslot (Z.to_nat (o / BSIZE)) = k0)) as [[-> Hc0]|Hc0].
    + rewrite Hj0 in Hip. injection Hip as <-. rewrite Hc0, Hz.
      rewrite (proj2 (Z.eqb_neq fb 0)) by lia. simpl. rewrite Hsame; [by apply Hd|lia|]. right. intros E.
      by destruct (Hfresh j0 ip0 NDIRECT Hj0 ltac:(unfold NSLOT; lia)).
    + destruct (Z.eqb_spec (slot (view l) ip (bslot (Z.to_nat (o / BSIZE)))) 0) as [E|E]; [done|].
      pose proof (dt_slot _ _ _ _ Hd j ip _ Hip Hbs E). apply Hsame; [lia|]. right. intros He.
      destruct (dt_inj _ _ _ _ Hd j j0 ip ip0 _ NDIRECT Hip Hj0 Hbs ltac:(unfold NSLOT; lia) E He). done.
Qed.

Lemma slot_le l ip k : (k ≤ NDIRECT)%nat → slot (view l) ip k = nth k (i_addrs ip) 0.
Proof. intros Hk. unfold slot. by rewrite (proj2 (Nat.leb_le _ _)). Qed.

Lemma slot_gt l ip k :
  (NDIRECT < k)%nat → slot (view l) ip NDIRECT ≠ 0 →
  slot (view l) ip k = get32 (4 * (k - S NDIRECT)) (block (view l) (slot (view l) ip NDIRECT)).
Proof.
  intros Hk Hne. rewrite (slot_le l ip NDIRECT) in Hne |- * by lia. unfold slot at 1. rewrite (proj2 (Nat.leb_gt _ _)) by done.
  by rewrite (proj2 (Z.eqb_neq _ _)).
Qed.

Lemma slot_gt_0 l ip k : (NDIRECT < k)%nat → slot (view l) ip NDIRECT = 0 → slot (view l) ip k = 0.
Proof.
  intros Hk Hz. rewrite (slot_le l ip NDIRECT) in Hz by lia. unfold slot. rewrite (proj2 (Nat.leb_gt _ _)) by done. by rewrite Hz.
Qed.

Lemma nth_insert_eq (l : list Z) k v : (k < length l)%nat → nth k (<[k := v]> l) 0 = v.
Proof. intros Hk. rewrite nth_lookup. by rewrite list_lookup_insert_eq. Qed.
Lemma nth_insert_ne (l : list Z) k k' v : k ≠ k' → nth k' (<[k := v]> l) 0 = nth k' l 0.
Proof. intros Hk. rewrite !nth_lookup. by rewrite list_lookup_insert_ne. Qed.

(** A slot of the inode itself: the image stays as it is. *)
Lemma alloc_direct I C l fb j ip k :
  data_ok I C l fb → fb < FSSIZE → I !! j = Some ip → (k ≤ NDIRECT)%nat → slot (view l) ip k = 0 →
  let ip' := ip <| i_addrs ::= <[k := fb]> |> in
  data_ok (<[j := ip']> I) C l (fb + 1) ∧ ∀ k', slot (view l) ip' k' = if decide (k' = k) then fb else slot (view l) ip k'.
Proof.
  intros Hd Hfb Hj Hk Hz ip'. pose proof nmeta_pos as Hm. pose proof (dt_fb _ _ _ _ Hd) as Hfm.
  pose proof (dt_addrs _ _ _ _ Hd j ip Hj) as Hlen.
  assert (Ha : i_addrs ip' = <[k := fb]> (i_addrs ip)) by reflexivity.
  assert (Hlow : ∀ k', (k' ≤ NDIRECT)%nat → slot (view l) ip' k' = if decide (k' = k) then fb else slot (view l) ip k').
  { intros k' Hk'. rewrite !slot_le, Ha by done. case_decide as E; [subst; apply nth_insert_eq; lia|by apply nth_insert_ne]. }
  assert (Hs : ∀ k', slot (view l) ip' k' = if decide (k' = k) then fb else slot (view l) ip k').
  { intros k'. destruct (decide (k' ≤ NDIRECT)%nat) as [Hk'|Hk']; [by apply Hlow|]. rewrite decide_False by lia.
    pose proof (Hlow NDIRECT ltac:(lia)) as Hn. case_decide as E.
    - rewrite slot_gt, Hn, (dt_free _ _ _ _ Hd), get32_zeros by lia. rewrite slot_gt_0; [done|lia|by rewrite E].
    - destruct (decide (slot (view l) ip NDIRECT = 0)) as [E0|E0]; [rewrite !slot_gt_0; [done|lia|done|lia|congruence]|].
      rewrite (slot_gt l ip' k'), (slot_gt l ip k'), Hn; [done|lia|done|lia|by rewrite Hn]. }
  split; [|done]. pose proof (lookup_lt_Some _ _ _ Hj) as Hjl.
  eapply (data_ok_alloc I C l fb _ l j ip k); try done; [unfold NSLOT; lia|apply Hd|].
  intros j' jp Hj'. destruct (decide (j' = j)) as [->|Hne].
  - rewrite list_lookup_insert_eq in Hj' by done. injection Hj' as <-. split; [by rewrite Ha, length_insert|].
    exists ip. split; [done|]. intros k' _. rewrite Hs. repeat case_decide; naive_solver.
  - rewrite list_lookup_insert_ne in Hj' by done. split; [by apply (dt_addrs _ _ _ _ Hd j')|].
    exists jp. split; [done|]. intros k' _. by rewrite decide_False by naive_solver.
Qed.

(** A slot of the indirect block. *)
Lemma alloc_entry I C l fb j ip k :
  data_ok I C l fb → fb < FSSIZE → I !! j = Some ip → (NDIRECT < k < NSLOT)%nat → slot (view l) ip k = 0 →
  let a := slot (view l) ip NDIRECT in a ≠ 0 →
  let l' := <[Z.to_nat a := put32 (4 * (k - S NDIRECT)) fb (block (view l) a)]> l in
  data_ok I C l' (fb + 1) ∧ others I j l l' ∧
  ∀ k', (k' < NSLOT)%nat → slot (view l') ip k' = if decide (k' = k) then fb else slot (view l) ip k'.
Proof.
  intros Hd Hfb Hj Hk Hz a Ha l'. pose proof nmeta_pos as Hm. pose proof (dt_fb _ _ _ _ Hd) as Hfm.
  pose proof (dt_slot _ _ _ _ Hd j ip NDIRECT Hj ltac:(unfold NSLOT; lia) Ha) as Har. fold a in Har.
  pose proof (dt_len _ _ _ _ Hd) as Hlen. pose proof (block_length _ _ _ _ a Hd ltac:(lia)) as Hbl.
  assert (Hb : ∀ n, 0 ≤ n → block (view l') n = if decide (n = a) then put32 (4 * (k - S NDIRECT)) fb (block (view l) a) else block (view l) n)
    by (intros n Hn; apply view_insert; lia).
  assert (Hfit : ∀ k', (k' < NSLOT)%nat → (4 * (k' - S NDIRECT) + 4 ≤ length (block (view l) a))%nat)
    by (rewrite Hbl; unfold NSLOT, NDIRECT, NINDIRECT, BSIZE; lia).
  assert (Hs : ∀ k', (k' < NSLOT)%nat → slot (view l') ip k' = if decide (k' = k) then fb else slot (view l) ip k').
  { intros k' Hk'. destruct (decide (k' ≤ NDIRECT)%nat) as [Hle|Hle]; [rewrite decide_False by lia; by rewrite !slot_le|].
    assert (Hn : slot (view l') ip NDIRECT = a) by (unfold a; by rewrite !slot_le).
    rewrite slot_gt, Hn, Hb, decide_True by (lia || congruence). case_decide as E.
    - subst k'. rewrite get32_put32 by (by apply Hfit). apply u32_small. unfold is_u32, FSSIZE in *. lia.
    - rewrite get32_put32_ne by (try apply Hfit; lia). by rewrite slot_gt by (lia || done). }
  assert (Ho : others I j l l').
  { intros j' jp k' Hne Hj'. apply slot_block. intros Hne'. rewrite <-(slot_le l) in Hne' |- * by lia.
    pose proof (dt_slot _ _ _ _ Hd j' jp NDIRECT Hj' ltac:(unfold NSLOT; lia) Hne').
    rewrite Hb, decide_False; [done| |lia]. intros E. apply Hne.
    by destruct (dt_inj _ _ _ _ Hd j' j jp ip NDIRECT NDIRECT Hj' Hj ltac:(unfold NSLOT; lia) ltac:(unfold NSLOT; lia) Hne' E). }
  split; [|done]. eapply (data_ok_alloc I C l fb I l' j ip k); try done; [lia|apply length_insert|..].
  - apply Forall_insert; [apply Hd|]. rewrite length_put32; [done|]. apply Hfit. lia.
  - intros n Hn Hne. rewrite Hb by lia. rewrite decide_False; [done|]. intros ->. by destruct Hne.
  - intros j' jp Hj'. split; [by apply (dt_addrs _ _ _ _ Hd j')|]. exists jp. split; [done|]. intros k' Hk'.
    destruct (decide (j' = j)) as [->|Hne].
    + rewrite Hj in Hj'. injection Hj' as <-. rewrite Hs by done. repeat case_decide; naive_solver.
    + rewrite decide_False by naive_solver. by apply (Ho j').
Qed.

(** ** file_block *)

Definition cost (b : nat) : Z := Z.of_nat b + (if (NDIRECT <? b)%nat then 1 else 0).

Lemma newblock_ok l fi fb : 0 ≤ fb < FSSIZE → newblock (mkmkfs l fi fb) = Ok fb (mkmkfs l fi (fb + 1)).
Proof.
  intros Hfb. unfold newblock, bind, gets, modify_state, ret. simpl. unfold modify; simpl.
  rewrite u32_small by (unfold is_u32, FSSIZE in *; lia). done.
Qed.

Lemma xint_addr inum din k : (k ≤ NDIRECT)%nat → xint (din_addr k din) = nth k (i_addrs (ino inum din)) 0.
Proof. intros Hk. rewrite xint_eq, ino_addr by done. apply u32_small, get32_range. Qed.

Lemma length_set_addr k v din : length din = DINODE → (k ≤ NDIRECT)%nat → length (din_set_addr k v din) = DINODE.
Proof. intros Hl Hk. unfold din_set_addr. rewrite length_put32; [done|]. rewrite Hl. unfold DINODE, NDIRECT in *. lia. Qed.

Lemma xint_block fb : 0 ≤ fb ≤ FSSIZE → u32 (xint fb) = fb.
Proof. intros. rewrite xint_eq, !u32_small; [done|..]; unfold is_u32, u32, FSSIZE in *; Z.div_mod_to_equations; lia. Qed.

Lemma dense_same l ip b k : dense l ip b → (k < NSLOT)%nat → needed b k → slot (view l) ip k ≠ 0.
Proof. intros H Hk. by apply H. Qed.

Lemma dense_zero l ip b k : dense l ip b → (k < NSLOT)%nat → ¬ needed b k → slot (view l) ip k = 0.
Proof. intros H Hk Hn. destruct (decide (slot (view l) ip k = 0)) as [|E]; [done|]. by destruct Hn; apply H. Qed.

(** The address of the inode at slot [k], new if there was none. *)
Definition get_addr (k : nat) (din : list Z) : MM (list Z) :=
  if xint (din_addr k din) =? 0 then b ← newblock; ret (din_set_addr k (xint b) din) else ret din.

Definition readdressed (inum : Z) (din din' : list Z) : Prop :=
  length din' = DINODE ∧ ∃ A, ino inum din' = (ino inum din) <| i_addrs := A |>.

Lemma get_addr_ok I C l fi fb j inum din k :
  data_ok I C l fb → I !! j = Some (ino inum din) → length din = DINODE → (k ≤ NDIRECT)%nat →
  let a := slot (view l) (ino inum din) k in
  let fb' := if a =? 0 then fb + 1 else fb in
  fb' ≤ FSSIZE →
  ∃ din', get_addr k din (mkmkfs l fi fb) = Ok din' (mkmkfs l fi fb') ∧ readdressed inum din din' ∧
    data_ok (<[j := ino inum din']> I) C l fb' ∧
    ∀ k', slot (view l) (ino inum din') k' =
          if decide (k' = k) then (if a =? 0 then fb else a) else slot (view l) (ino inum din) k'.
Proof.
  intros Hd Hj Hl Hk a fb' Hfb. pose proof (dt_fb _ _ _ _ Hd) as Hfm. pose proof nmeta_pos.
  unfold get_addr. rewrite (xint_addr inum), <-(slot_le l) by done. fold a.
  destruct (Z.eqb_spec a 0) as [Ha|Ha]; subst fb'.
  - rewrite (bind_ok _ _ _ _ _ (newblock_ok l fi fb ltac:(lia))). eexists. split; [reflexivity|].
    assert (Hi : ino inum (din_set_addr k (xint fb) din) = (ino inum din) <| i_addrs ::= <[k := fb]> |>)
      by (rewrite ino_set_addr, xint_block by (done || lia); done).
    destruct (alloc_direct I C l fb j (ino inum din) k) as [Hd' Hs]; try done; [lia|]. rewrite Hi. split_and!; try done.
    split; [by apply length_set_addr|]. rewrite Hi. by eexists.
  - exists din. split; [done|]. split_and!.
    + split; [done|]. by eexists (i_addrs (ino inum din)).
    + by rewrite list_insert_id.
    + intros k'. case_decide as E; [by subst|done].
Qed.

(** The entry [k] of the indirect block, new if there was none. *)
Definition get_entry (k : nat) (a : Z) : MM (list Z) :=
  indirect ← rsect a;
  if get32 (4 * k) indirect =? 0 then
    b ← newblock;
    let indirect := put32 (4 * k) (xint b) indirect in
    wsect a indirect ;; ret indirect
  else ret indirect.

Lemma get_entry_ok I C l fi fb j ip k :
  data_ok I C l fb → I !! j = Some ip → (k < NINDIRECT)%nat →
  let a := slot (view l) ip NDIRECT in
  let x := slot (view l) ip (S NDIRECT + k) in
  let fb' := if x =? 0 then fb + 1 else fb in
  a ≠ 0 → fb' ≤ FSSIZE →
  ∃ l', get_entry k a (mkmkfs l fi fb) = Ok (block (view l') a) (mkmkfs l' fi fb') ∧
    data_ok I C l' fb' ∧ others I j l l' ∧ (∀ n, 0 ≤ n < nmeta → block (view l') n = block (view l) n) ∧
    ∀ k', (k' < NSLOT)%nat → slot (view l') ip k' = if decide (k' = (S NDIRECT + k)%nat) then (if x =? 0 then fb else x) else slot (view l) ip k'.
Proof.
  intros Hd Hj Hk a x fb' Ha Hfb. pose proof (dt_fb _ _ _ _ Hd) as Hfm. pose proof nmeta_pos.
  pose proof (dt_slot _ _ _ _ Hd j ip NDIRECT Hj ltac:(unfold NSLOT; lia) Ha) as Har. fold a in Har.
  assert (Hx : get32 (4 * k) (block (view l) a) = x).
  { unfold x. rewrite slot_gt by (done || lia). fold a. do 2 f_equal. lia. }
  unfold get_entry. rewrite (bind_ok _ _ _ _ _ (rsect_ok a (mkmkfs l fi fb) ltac:(lia) (dt_len _ _ _ _ Hd))). cbn [img]. rewrite Hx.
  destruct (Z.eqb_spec x 0) as [Hx0|Hx0]; subst fb'.
  - rewrite (bind_ok _ _ _ _ _ (newblock_ok l fi fb ltac:(lia))). cbv zeta.
    destruct (alloc_entry I C l fb j ip (S NDIRECT + k)) as (Hd' & Ho & Hs); try done; [lia|unfold NSLOT; lia|]. fold a in Hd', Ho, Hs.
    replace (S NDIRECT + k - S NDIRECT)%nat with k in Hd', Ho, Hs by lia.
    assert (He : xint fb = fb) by (rewrite xint_eq; apply u32_small; unfold is_u32, FSSIZE in *; lia).
    rewrite He. rewrite (bind_ok _ _ _ _ _ (wsect_ok a _ (mkmkfs l fi (fb + 1)) ltac:(lia) (dt_len _ _ _ _ Hd))).
    pose proof (dt_len _ _ _ _ Hd). eexists. split; [|split; [exact Hd'|split; [exact Ho|split; [|exact Hs]]]].
    + unfold ret. rewrite view_insert, decide_True by (done || lia). done.
    + intros n Hn. rewrite view_insert, decide_False by lia. done.
  - exists l. split; [done|]. split_and!; try done. intros k' _. case_decide as E; [by subst|done].
Qed.

Lemma file_block_eq din fbn m :
  file_block din fbn m =
  (if fbn <? Z.of_nat NDIRECT then
    din ← get_addr (Z.to_nat fbn) din; ret (xint (din_addr (Z.to_nat fbn) din), din)
  else
    din ← get_addr NDIRECT din;
    indirect ← get_entry (Z.to_nat (fbn - Z.of_nat NDIRECT)) (xint (din_addr NDIRECT din));
    ret (xint (get32 (4 * Z.to_nat (fbn - Z.of_nat NDIRECT)) indirect), din)) m.
Proof.
  unfold file_block. destruct (fbn <? _); [reflexivity|]. apply bind_ext. intros d m' _. unfold get_entry. by rewrite bind_assoc.
Qed.

(** What [file_block] leaves for block [fbn] of a file of [b] blocks. *)
Record placed (I C : list _) (m : mkfs) (j : nat) (inum : Z) (din : list Z) (b fbn : nat) (din' : list Z) (m' : mkfs) : Prop := {
  pl_din : readdressed inum din din';
  pl_fi : freeinode m' = freeinode m;
  pl_fb : freeblock m' = freeblock m + cost (S fbn) - cost b;
  pl_data : data_ok (<[j := ino inum din']> I) C (img m') (freeblock m');
  pl_dense : dense (img m') (ino inum din') (S fbn);
  pl_others : others I j (img m) (img m');
  pl_low : ∀ n, 0 ≤ n < nmeta → block (view (img m')) n = block (view (img m)) n }.

Lemma file_block_direct I C l fi fb j inum din b fbn :
  data_ok I C l fb → I !! j = Some (ino inum din) → length din = DINODE → dense l (ino inum din) b →
  fbn = b ∨ S fbn = b → (fbn < NDIRECT)%nat → fb + cost (S fbn) - cost b ≤ FSSIZE →
  ∃ din' m', file_block din (Z.of_nat fbn) (mkmkfs l fi fb) = Ok (slot (view (img m')) (ino inum din') (bslot fbn), din') m' ∧
    placed I C (mkmkfs l fi fb) j inum din b fbn din' m'.
Proof.
  intros Hd Hj Hl Hde Hb Hlt Hfit. pose proof nmeta_pos. pose proof (dt_fb _ _ _ _ Hd).
  assert (Hz : (slot (view l) (ino inum din) fbn =? 0) = (fbn =? b)%nat).
  { pose proof (Hde fbn ltac:(unfold NSLOT; lia)) as Hn. unfold needed in Hn. rewrite decide_True in Hn by lia.
    destruct (Z.eqb_spec (slot (view l) (ino inum din) fbn) 0), (Nat.eqb_spec fbn b); naive_solver lia. }
  assert (Hc : cost (S fbn) - cost b = if (fbn =? b)%nat then 1 else 0).
  { unfold cost. rewrite (proj2 (Nat.ltb_ge NDIRECT (S fbn))), (proj2 (Nat.ltb_ge NDIRECT b)) by lia.
    destruct (Nat.eqb_spec fbn b); lia. }
  destruct (get_addr_ok I C l fi fb j inum din fbn) as (din' & Hg & Hr & Hd' & Hs); try done; [lia| |].
  { rewrite Hz. destruct (fbn =? b)%nat; lia. }
  exists din'. eexists. rewrite file_block_eq, (proj2 (Z.ltb_lt _ _)), Nat2Z.id by lia. split.
  { rewrite (bind_ok _ _ _ _ _ Hg). unfold ret. f_equal. cbn [img]. rewrite (xint_addr inum), <-(slot_le l) by lia.
    unfold bslot. by rewrite (proj2 (Nat.ltb_lt _ _)). }
  split; cbn [img freeblock freeinode]; try done.
  - rewrite Hz. destruct (fbn =? b)%nat; lia.
  - intros k Hk. rewrite Hs. pose proof (Hde k Hk) as Hn. unfold needed in *. destruct (decide (k = fbn)) as [->|E].
    + rewrite decide_True by lia. rewrite Hz in *. destruct (Nat.eqb_spec fbn b); [lia|]. rewrite decide_True in Hn by lia.
      rewrite Hn. lia.
    + rewrite Hn. repeat case_decide; lia.
Qed.

Lemma cost_step b fbn :
  fbn = b ∨ S fbn = b → (NDIRECT ≤ fbn)%nat →
  cost (S fbn) - cost b = (if (b =? NDIRECT)%nat then 1 else 0) + (if (fbn =? b)%nat then 1 else 0).
Proof.
  intros Hb Hk. unfold cost. rewrite (proj2 (Nat.ltb_lt NDIRECT (S fbn))) by lia.
  destruct (Nat.ltb_spec NDIRECT b), (Nat.eqb_spec b NDIRECT), (Nat.eqb_spec fbn b); lia.
Qed.

Lemma slot_is_zero l ip b k :
  dense l ip b → (k < NSLOT)%nat → (slot (view l) ip k =? 0) = if (k <=? NDIRECT)%nat then (b <=? k)%nat else (b <? k)%nat.
Proof.
  intros Hde Hk. pose proof (Hde k Hk) as Hn. unfold needed in Hn.
  destruct (Z.eqb_spec (slot (view l) ip k) 0), (Nat.leb_spec k NDIRECT), (Nat.leb_spec b k), (Nat.ltb_spec b k);
    repeat case_decide; naive_solver lia.
Qed.

Lemma file_block_indirect I C l fi fb j inum din b fbn :
  data_ok I C l fb → I !! j = Some (ino inum din) → length din = DINODE → dense l (ino inum din) b →
  fbn = b ∨ S fbn = b → (NDIRECT ≤ fbn < NDIRECT + NINDIRECT)%nat → fb + cost (S fbn) - cost b ≤ FSSIZE →
  ∃ din' m', file_block din (Z.of_nat fbn) (mkmkfs l fi fb) = Ok (slot (view (img m')) (ino inum din') (bslot fbn), din') m' ∧
    placed I C (mkmkfs l fi fb) j inum din b fbn din' m'.
Proof.
  intros Hd Hj Hl Hde Hb Hlt Hfit. pose proof nmeta_pos. pose proof (dt_fb _ _ _ _ Hd) as Hfm. pose proof (cost_step b fbn Hb ltac:(lia)) as Hc.
  assert (Hz : (slot (view l) (ino inum din) NDIRECT =? 0) = (b =? NDIRECT)%nat).
  { rewrite (slot_is_zero l _ b) by (done || unfold NSLOT; lia). rewrite Nat.leb_refl.
    destruct (Nat.leb_spec b NDIRECT), (Nat.eqb_spec b NDIRECT); lia. }
  destruct (get_addr_ok I C l fi fb j inum din NDIRECT) as (din' & Hg & Hr & Hd' & Hs); try done.
  { rewrite Hz. destruct (b =? NDIRECT)%nat, (fbn =? b)%nat; lia. }
  rewrite Hz in Hg, Hd', Hs. set (fb1 := if (b =? NDIRECT)%nat then fb + 1 else fb) in *.
  assert (Ha : slot (view l) (ino inum din') NDIRECT ≠ 0).
  { rewrite Hs, decide_True by done. destruct (Nat.eqb_spec b NDIRECT); [lia|]. by apply Z.eqb_neq. }
  assert (Hx : (slot (view l) (ino inum din') (S fbn) =? 0) = (fbn =? b)%nat).
  { rewrite Hs, decide_False by lia. rewrite (slot_is_zero l _ b) by (done || unfold NSLOT; lia). rewrite (proj2 (Nat.leb_gt _ _)) by lia.
    destruct (Nat.ltb_spec b (S fbn)), (Nat.eqb_spec fbn b); lia. }
  assert (Hk : (S NDIRECT + (fbn - NDIRECT) = S fbn)%nat) by lia.
  destruct (get_entry_ok (<[j := ino inum din']> I) C l fi fb1 j (ino inum din') (fbn - NDIRECT)) as (l' & He & Hd2 & Hoth & Hlow & Hs2);
    rewrite ?Hk, ?Hx; try done.
  { apply list_lookup_insert_eq. by apply lookup_lt_Some in Hj. }
  { lia. }
  { subst fb1. destruct (b =? NDIRECT)%nat, (fbn =? b)%nat; lia. }
  rewrite Hk, Hx in He, Hd2, Hs2. exists din'. eexists. rewrite file_block_eq, (proj2 (Z.ltb_ge _ _)) by lia. split.
  { rewrite (bind_ok _ _ _ _ _ Hg), (xint_addr inum), <-(slot_le l) by done.
    replace (Z.to_nat (Z.of_nat fbn - Z.of_nat NDIRECT)) with (fbn - NDIRECT)%nat by lia.
    rewrite (bind_ok _ _ _ _ _ He). unfold ret. f_equal. cbn [img]. unfold bslot. rewrite (proj2 (Nat.ltb_ge _ _)) by lia.
    assert (Hn : slot (view l') (ino inum din') NDIRECT = slot (view l) (ino inum din') NDIRECT) by (by rewrite !slot_le).
    rewrite (slot_gt l' _ (S fbn)), Hn, xint_eq, u32_small by (lia || apply get32_range || by rewrite Hn). done. }
  split; cbn [img freeblock freeinode]; try done.
  - subst fb1. destruct (b =? NDIRECT)%nat, (fbn =? b)%nat; lia.
  - intros k Hk'. rewrite Hs2 by done. destruct (decide (k = S fbn)) as [->|E].
    + unfold needed. rewrite decide_False by lia. destruct (Nat.eqb_spec fbn b) as [Eb|Eb]; [|apply Z.eqb_neq in Hx; lia].
      pose proof (dt_fb _ _ _ _ Hd'). lia.
    + rewrite Hs. pose proof (Hde k Hk') as Hn. unfold needed in *. destruct (decide (k = NDIRECT)) as [->|E'].
      * destruct (Nat.eqb_spec b NDIRECT); [rewrite decide_True by lia; lia|]. rewrite Hn. rewrite !decide_True by lia. lia.
      * rewrite Hn. case_decide; lia.
  - intros j' jp k Hne Hj'. apply (Hoth j'); [done|]. by rewrite list_lookup_insert_ne.
Qed.

(** ** iappend *)

(** A write of block [bn] of file [j]. *)
Lemma write_block I C l fb j ip bn d :
  data_ok I C l fb → I !! j = Some ip → (bn < NDIRECT + NINDIRECT)%nat →
  let x := slot (view l) ip (bslot bn) in x ≠ 0 →
  let l' := <[Z.to_nat x := d]> l in
  (∀ j' jp k, I !! j' = Some jp → slot (view l') jp k = slot (view l) jp k) ∧
  ∀ j' jp bn', I !! j' = Some jp → (bn' < NDIRECT + NINDIRECT)%nat →
    contents (view l') jp bn' = if decide (j' = j ∧ bn' = bn) then d else contents (view l) jp bn'.
Proof.
  intros Hd Hj Hbn x Hx l'. pose proof nmeta_pos. pose proof (dt_fb _ _ _ _ Hd) as Hfm. pose proof (dt_len _ _ _ _ Hd) as Hll.
  pose proof (bslot_lt _ Hbn) as Hbs. pose proof (dt_slot _ _ _ _ Hd j ip _ Hj Hbs Hx) as Hxr. fold x in Hxr.
  assert (Hb : ∀ n, 0 ≤ n → block (view l') n = if decide (n = x) then d else block (view l) n)
    by (intros m Hm; apply view_insert; lia).
  assert (Hs : ∀ j' jp k, I !! j' = Some jp → slot (view l') jp k = slot (view l) jp k).
  { intros j' jp k Hj'. apply slot_block. intros Hne. rewrite <-(slot_le l) in Hne |- * by lia.
    pose proof (dt_slot _ _ _ _ Hd j' jp NDIRECT Hj' ltac:(unfold NSLOT; lia) Hne) as Hr. rewrite Hb by lia.
    rewrite decide_False; [done|]. intros E. destruct (bslot_ne bn).
    by destruct (dt_inj _ _ _ _ Hd j' j jp ip NDIRECT _ Hj' Hj ltac:(unfold NSLOT; lia) Hbs Hne E). }
  split; [done|]. intros j' jp bn' Hj' Hbn'. unfold contents. rewrite (Hs j' jp) by done. case_decide as E.
  - destruct E as [-> ->]. rewrite Hj in Hj'. injection Hj' as <-. fold x. rewrite (proj2 (Z.eqb_neq x 0)) by done.
    by rewrite Hb, decide_True by (done || lia).
  - destruct (Z.eqb_spec (slot (view l) jp (bslot bn')) 0) as [|Hne]; [done|].
    pose proof (dt_slot _ _ _ _ Hd j' jp _ Hj' (bslot_lt _ Hbn') Hne). rewrite Hb, decide_False; [done| |lia].
    intros E'. destruct E. destruct (dt_inj _ _ _ _ Hd j' j jp ip _ _ Hj' Hj (bslot_lt _ Hbn') Hbs Hne E') as [-> Hbb].
    by apply bslot_inj in Hbb.
Qed.

(** Bytes at the end of file [j], inside its block [x]. *)
Lemma data_ok_write I C l fb j ip c src n :
  data_ok I C l fb → I !! j = Some ip → C !! j = Some c → 0 < n →
  let off := Z.of_nat (length c) in
  off + n ≤ MAXFILE * BSIZE → Z.of_nat (length src) = chunk off n →
  let x := slot (view l) ip (bslot (Z.to_nat (off / BSIZE))) in x ≠ 0 →
  let l' := <[Z.to_nat x := splice (Z.to_nat (off mod BSIZE)) src (block (view l) x)]> l in
  data_ok I (<[j := c ++ src]> C) l' fb ∧ (∀ n, 0 ≤ n < nmeta → block (view l') n = block (view l) n) ∧
  ∀ j' jp k, I !! j' = Some jp → slot (view l') jp k = slot (view l) jp k.
Proof.
  intros Hd Hj Hc Hn off Hmax Hlen x Hx l'. pose proof (dt_fb _ _ _ _ Hd) as Hfm. pose proof (dt_len _ _ _ _ Hd) as Hll.
  assert (Hbn : ∀ o, 0 ≤ o < MAXFILE * BSIZE → (Z.to_nat (o / BSIZE) < NDIRECT + NINDIRECT)%nat)
    by (intros o Ho; unfold MAXFILE, BSIZE, NDIRECT, NINDIRECT in *; Z.div_mod_to_equations; lia).
  specialize (Hbn off ltac:(lia)) as Hbo.
  pose proof (dt_slot _ _ _ _ Hd j ip _ Hj (bslot_lt _ Hbo) Hx) as Hxr. fold x in Hxr. pose proof nmeta_pos.
  pose proof (block_length _ _ _ _ x Hd ltac:(lia)) as Hbl. destruct (chunk_range off n Hn) as (H1 & H2 & H3).
  assert (Hlow : ∀ m, 0 ≤ m → m ≠ x → block (view l') m = block (view l) m)
    by (intros m Hm Hne; unfold l'; by rewrite view_insert, decide_False by lia).
  destruct (write_block I C l fb j ip _ (splice (Z.to_nat (off mod BSIZE)) src (block (view l) x)) Hd Hj Hbo Hx) as [Hs Hct].
  fold x l' in Hs, Hct.
  split_and!; [|intros m Hm; apply Hlow; lia|done]. split.
  - unfold l'. by rewrite length_insert.
  - apply Forall_insert; [apply Hd|]. rewrite length_splice; [done|]. rewrite Hbl. unfold BSIZE in *. lia.
  - done.
  - apply Hd.
  - intros j' jp k Hj' Hk. rewrite (Hs j') by done. by apply (dt_slot _ _ _ _ Hd j').
  - intros j1 j2 i1 i2 k1 k2 Hj1 Hj2. rewrite (Hs j1), (Hs j2) by done. by apply (dt_inj _ _ _ _ Hd).
  - intros m Hm. rewrite Hlow by lia. by apply (dt_free _ _ _ _ Hd).
  - intros j' jp c' o Hj' Hc' Ho. destruct (decide (j' = j)) as [->|Hne].
    + rewrite list_lookup_insert_eq in Hc' by (by apply lookup_lt_Some in Hc). injection Hc' as <-. rewrite Hj in Hj'. injection Hj' as <-.
      assert (Hx' : contents (view l) ip (Z.to_nat (off / BSIZE)) = block (view l) x)
        by (unfold contents; fold x; by rewrite (proj2 (Z.eqb_neq x 0))).
      rewrite (fbyte_splice (view l) ip (view l') ip off n src); try done; [| |by rewrite Hx'|].
      * rewrite (dt_bytes _ _ _ _ Hd j ip c o Hj Hc Ho). rewrite !nth_lookup. case_decide as E.
        -- rewrite lookup_app_r by lia. do 2 f_equal. lia.
        -- destruct (decide (o < off)); [by rewrite lookup_app_l by lia|].
           rewrite !lookup_ge_None_2; [done|rewrite length_app; lia|lia].
      * lia.
      * intros bn Hbn'. rewrite (Hct j) by done. repeat case_decide; naive_solver congruence.
    + rewrite list_lookup_insert_ne in Hc' by done. rewrite <-(dt_bytes _ _ _ _ Hd j' jp c' o Hj' Hc' Ho).
      unfold fbyte. f_equal. rewrite (Hct j') by auto. by rewrite decide_False by naive_solver.
Qed.

(** The blocks of [n] bytes. *)
Definition blks (n : Z) : nat := Z.to_nat ((n + BSIZE - 1) / BSIZE).

Lemma blks_turn off n :
  0 ≤ off → 0 < n → off + n ≤ MAXFILE * BSIZE →
  let fbn := Z.to_nat (off / BSIZE) in
  (fbn = blks off ∨ S fbn = blks off) ∧ (fbn < NDIRECT + NINDIRECT)%nat ∧ off / BSIZE = Z.of_nat fbn ∧
  blks (off + chunk off n) = S fbn.
Proof.
  intros Ho Hn Hmax fbn. subst fbn. unfold blks, chunk, BSIZE, MAXFILE, NDIRECT, NINDIRECT in *.
  split_and!; Z.div_mod_to_equations; lia.
Qed.

Lemma blks_mono n n' : 0 ≤ n ≤ n' → (blks n ≤ blks n')%nat.
Proof. intros H. unfold blks, BSIZE. apply Z2Nat.inj_le; Z.div_mod_to_equations; lia. Qed.

Lemma cost_mono b b' : (b ≤ b')%nat → cost b ≤ cost b'.
Proof. intros H. unfold cost. destruct (Nat.ltb_spec NDIRECT b), (Nat.ltb_spec NDIRECT b'); lia. Qed.

Lemma readdressed_trans inum d1 d2 d3 : readdressed inum d1 d2 → readdressed inum d2 d3 → readdressed inum d1 d3.
Proof.
  intros [L1 [A H1]] [L2 [A' H2]]. split; [done|]. exists A'. rewrite H2, H1. reflexivity.
Qed.

(** What the loop leaves after [n] bytes [p] of file [j] from [off] on. *)
Record appended (I C : list _) (m : mkfs) (j : nat) (inum off : Z) (c p din : list Z) (din' : list Z) (m' : mkfs) : Prop := {
  ap_din : readdressed inum din din';
  ap_fi : freeinode m' = freeinode m;
  ap_fb : freeblock m' = freeblock m + cost (blks (off + Z.of_nat (length p))) - cost (blks off);
  ap_data : data_ok (<[j := ino inum din']> I) (<[j := c ++ p]> C) (img m') (freeblock m');
  ap_dense : dense (img m') (ino inum din') (blks (off + Z.of_nat (length p)));
  ap_others : others I j (img m) (img m');
  ap_low : ∀ n, 0 ≤ n < nmeta → block (view (img m')) n = block (view (img m)) n }.

Lemma file_block_ok I C m j inum din b fbn :
  data_ok I C (img m) (freeblock m) → I !! j = Some (ino inum din) → length din = DINODE → dense (img m) (ino inum din) b →
  fbn = b ∨ S fbn = b → (fbn < NDIRECT + NINDIRECT)%nat → freeblock m + cost (S fbn) - cost b ≤ FSSIZE →
  ∃ din' m', file_block din (Z.of_nat fbn) m = Ok (slot (view (img m')) (ino inum din') (bslot fbn), din') m' ∧
    placed I C m j inum din b fbn din' m'.
Proof.
  destruct m as [l fi fb]. cbn [img freeblock]. intros Hd Hj Hl Hde Hb Hlt Hfit. destruct (decide (fbn < NDIRECT)%nat).
  - by apply file_block_direct.
  - apply file_block_indirect; try done. lia.
Qed.

(** One turn. *)
Lemma iappend_turn I C m j inum din c p fuel :
  data_ok I C (img m) (freeblock m) → I !! j = Some (ino inum din) → C !! j = Some c → length din = DINODE →
  let off := Z.of_nat (length c) in let n := Z.of_nat (length p) in
  dense (img m) (ino inum din) (blks off) → 0 < n → off + n ≤ MAXFILE * BSIZE →
  freeblock m + cost (blks (off + n)) - cost (blks off) ≤ FSSIZE →
  let n1 := chunk off n in
  let p1 := take (Z.to_nat n1) p in let p2 := drop (Z.to_nat n1) p in
  ∃ din' m', iappend_loop (S fuel) din p off n m = iappend_loop fuel din' p2 (off + n1) (n - n1) m' ∧
    Z.of_nat (length p1) = n1 ∧ appended I C m j inum off c p1 din din' m'.
Proof.
  intros Hd Hj Hc Hl off n Hde Hn Hmax Hfit n1 p1 p2. pose proof nmeta_pos.
  destruct (blks_turn off n ltac:(lia) Hn Hmax) as (Hb & Hlt & Hq & Hb'). set (fbn := Z.to_nat (off / BSIZE)) in *.
  destruct (chunk_range off n Hn) as (H1 & H2 & H3). fold n1 in H1, H3, Hb'.
  assert (Hp1 : Z.of_nat (length p1) = n1) by (unfold p1; rewrite length_take; lia).
  pose proof (cost_mono (blks (off + n1)) (blks (off + n)) ltac:(apply blks_mono; lia)) as Hcm. rewrite Hb' in Hcm.
  destruct (file_block_ok I C m j inum din (blks off) fbn) as (din' & m1 & Hfb & [Pd Pfi Pfb Pdt Pde Po Pl]); try done; [lia|].
  pose proof (lookup_lt_Some _ _ _ Hj) as Hjl. pose proof (list_lookup_insert_eq I j (ino inum din') Hjl) as Hj'.
  assert (Hx : slot (view (img m1)) (ino inum din') (bslot fbn) ≠ 0).
  { apply (dense_same _ _ _ _ Pde); [by apply bslot_lt|]. unfold needed, bslot. destruct (Nat.ltb_spec fbn NDIRECT); case_decide; lia. }
  pose proof (dt_slot _ _ _ _ Pdt j _ _ Hj' (bslot_lt _ Hlt) Hx) as Hxr. pose proof (dt_fb _ _ _ _ Pdt) as Hf1.
  destruct (data_ok_write _ C (img m1) (freeblock m1) j (ino inum din') c p1 n Pdt Hj' Hc Hn Hmax Hp1 Hx) as (Hd' & Hlow & Hs').
  fold off fbn in Hd', Hlow, Hs'. set (x := slot (view (img m1)) (ino inum din') (bslot fbn)) in *.
  eexists din', _. split; [|split; [exact Hp1|]].
  - cbn [iappend_loop]. rewrite (proj2 (Z.ltb_lt 0 n) Hn). cbn [negb]. cbv zeta.
    rewrite (proj2 (Z.ltb_lt _ MAXFILE)) by (unfold MAXFILE, NDIRECT, NINDIRECT in *; lia). cbn [negb]. rewrite Hq, (bind_ok _ _ _ _ _ Hfb).
    cbv iota beta. rewrite (bind_ok _ _ _ _ _ (rsect_ok x m1 ltac:(lia) (dt_len _ _ _ _ Pdt))).
    assert (Hn1 : Z.min n (u32 ((Z.of_nat fbn + 1) * BSIZE - off)) = n1).
    { unfold n1, chunk. rewrite <-Hq. rewrite u32_small by (unfold is_u32, BSIZE, MAXFILE in *; Z.div_mod_to_equations; lia).
      f_equal. unfold BSIZE. Z.div_mod_to_equations. lia. }
    rewrite Hn1. rewrite (bind_ok _ _ _ _ _ (wsect_ok x _ m1 ltac:(lia) (dt_len _ _ _ _ Pdt))).
    rewrite u32_small by (unfold is_u32, BSIZE, MAXFILE in *; lia). reflexivity.
  - replace (off - Z.of_nat fbn * BSIZE) with (off mod BSIZE) by (rewrite <-Hq; unfold BSIZE; Z.div_mod_to_equations; lia).
    split; cbn [img freeblock freeinode]; rewrite ?Hp1, ?Hb'; try done.
    + intros k Hk. change (slot (view (<[Z.to_nat x:=splice (Z.to_nat (off mod BSIZE)) p1 (block (view (img m1)) x)]> (img m1))) (ino inum din') k ≠ 0 ↔ needed (S fbn) k).
      rewrite (Hs' j) by done. by apply Pde.
    + eapply (others_trans I _ j _ (img m1)); [|done|]; [intros j' Hne; by apply list_lookup_insert_ne|]. intros j' jp k _. by apply Hs'.
    + intros m' Hm'. transitivity (block (view (img m1)) m'); [by apply Hlow|by apply Pl].
Qed.

Lemma appended_trans I C m j inum off c p1 p2 din d1 m1 d2 m2 :
  appended I C m j inum off c p1 din d1 m1 →
  appended (<[j := ino inum d1]> I) (<[j := c ++ p1]> C) m1 j inum (off + Z.of_nat (length p1)) (c ++ p1) p2 d1 d2 m2 →
  appended I C m j inum off c (p1 ++ p2) din d2 m2.
Proof.
  intros [D1 F1 B1 T1 N1 O1 L1] [D2 F2 B2 T2 N2 O2 L2]. rewrite !list_insert_insert_eq, <-app_assoc in T2.
  assert (Hl : off + Z.of_nat (length p1) + Z.of_nat (length p2) = off + Z.of_nat (length (p1 ++ p2))) by (rewrite length_app; lia).
  rewrite Hl in B2, N2. split; try done.
  - by eapply readdressed_trans.
  - congruence.
  - lia.
  - eapply others_trans; [|done|done]. intros j' Hne. by apply list_lookup_insert_ne.
  - intros n Hn. by rewrite L2, L1.
Qed.

Lemma iappend_loop_ok inum j fuel : ∀ I C m din c p,
  data_ok I C (img m) (freeblock m) → I !! j = Some (ino inum din) → C !! j = Some c → length din = DINODE →
  let off := Z.of_nat (length c) in let n := Z.of_nat (length p) in
  dense (img m) (ino inum din) (blks off) → off + n ≤ MAXFILE * BSIZE → (nblk off n < fuel)%nat →
  freeblock m + cost (blks (off + n)) - cost (blks off) ≤ FSSIZE →
  ∃ din' m', iappend_loop fuel din p off n m = Ok (din', off + n) m' ∧ appended I C m j inum off c p din din' m'.
Proof.
  induction fuel as [|fuel IH]; intros I C m din c p Hd Hj Hc Hl off n Hde Hmax Hf Hfit; [lia|].
  destruct (decide (n = 0)) as [Hn|Hn].
  { assert (p = []) as -> by (apply length_zero_iff_nil; lia). exists din, m. subst n.
    split; [cbn; unfold ret; by rewrite Z.add_0_r|]. split; cbn; rewrite ?Z.add_0_r; try done; [|lia|].
    - split; [done|]. by exists (i_addrs (ino inum din)).
    - rewrite app_nil_r, !list_insert_id by done. done. }
  destruct (iappend_turn I C m j inum din c p fuel) as (d1 & m1 & Ht & Hp1 & Hap); try done; [lia|]. fold off n in Ht, Hp1, Hap.
  destruct (chunk_range off n ltac:(lia)) as (H1 & _ & _). set (n1 := chunk off n) in *.
  set (p1 := take (Z.to_nat n1) p) in *. set (p2 := drop (Z.to_nat n1) p) in *.
  assert (Hp : p = p1 ++ p2) by (symmetry; apply take_drop).
  assert (Hp2 : Z.of_nat (length p2) = n - n1) by (unfold p2; rewrite length_drop; lia).
  pose proof (ap_fb _ _ _ _ _ _ _ _ _ _ _ Hap) as Hfb. rewrite Hp1 in Hfb.
  assert (Hlen : Z.of_nat (length (c ++ p1)) = off + n1) by (rewrite length_app; lia).
  destruct (IH (<[j := ino inum d1]> I) (<[j := c ++ p1]> C) m1 d1 (c ++ p1) p2) as (d2 & m2 & Hr & Hap2).
  - apply Hap.
  - apply list_lookup_insert_eq. by apply lookup_lt_Some in Hj.
  - apply list_lookup_insert_eq. by apply lookup_lt_Some in Hc.
  - apply (ap_din _ _ _ _ _ _ _ _ _ _ _ Hap).
  - rewrite Hlen, <-Hp1. apply Hap.
  - lia.
  - rewrite Hlen, Hp2. pose proof (nblk_chunk off n ltac:(lia) ltac:(lia)). fold n1 in H. lia.
  - rewrite Hlen, Hp2. replace (off + n1 + (n - n1)) with (off + n) by lia. lia.
  - exists d2, m2. rewrite Ht. rewrite Hlen, Hp2 in Hr. rewrite Hr. split; [do 2 f_equal; lia|].
    rewrite Hp. eapply appended_trans; [done|]. rewrite Hlen in Hap2. by rewrite Hp1.
Qed.

(** ** Inodes of the image *)

Definition din_of (l : list (list Z)) (n : Z) : list Z := slice (inode_off n) DINODE (block (view l) (IBLOCK n sb0)).

Lemma dinode_view l n : dinode (view l) n = ino n (din_of l n).
Proof. unfold dinode, stored, ino, din_of, iblock. rewrite view_sb, load_slice. done. Qed.

Lemma IBLOCK_sb0 n : 0 ≤ n < NINODES → IBLOCK n sb0 = 32 + n / IPB ∧ 32 ≤ IBLOCK n sb0 < 58.
Proof.
  intros Hn. unfold IBLOCK. change (sb_inodestart sb0) with 32. unfold NINODES, IPB in *.
  rewrite u32_small by (unfold is_u32; Z.div_mod_to_equations; lia). split; Z.div_mod_to_equations; lia.
Qed.

Lemma inode_apart n n' :
  0 ≤ n < NINODES → 0 ≤ n' < NINODES → n ≠ n' → IBLOCK n sb0 = IBLOCK n' sb0 →
  (inode_off n' + DINODE ≤ inode_off n ∨ inode_off n + DINODE ≤ inode_off n')%nat.
Proof.
  intros Hn Hn' Hne He. destruct (IBLOCK_sb0 n Hn) as [E1 _], (IBLOCK_sb0 n' Hn') as [E2 _]. unfold inode_off, DINODE, IPB in *.
  Z.div_mod_to_equations. lia.
Qed.

Definition image_ok (l : list (list Z)) : Prop := Z.of_nat (length l) = FSSIZE ∧ Forall (λ b, length b = Z.to_nat BSIZE) l.

Lemma image_block l n : image_ok l → 0 ≤ n < FSSIZE → length (block (view l) n) = Z.to_nat BSIZE.
Proof.
  intros [Hl Hb] Hn. rewrite view_block. destruct (lookup_lt_is_Some_2 l (Z.to_nat n)) as [b Hx]; [lia|].
  rewrite Hx. by apply (Forall_lookup_1 _ _ _ _ Hb Hx).
Qed.

Lemma data_image I C l fb : data_ok I C l fb → image_ok l.
Proof. intros H. split; apply H. Qed.

Lemma length_din_of l n : image_ok l → 0 ≤ n < NINODES → length (din_of l n) = DINODE.
Proof.
  intros Hl Hn. destruct (IBLOCK_sb0 n Hn) as [_ Hb]. apply length_slice. rewrite image_block by (done || unfold FSSIZE; lia).
  apply inode_off_fits.
Qed.

Lemma rinode_ok n m : image_ok (img m) → 0 ≤ n < NINODES → rinode n m = Ok (din_of (img m) n) m.
Proof.
  intros Hl Hn. destruct (IBLOCK_sb0 n Hn) as [_ Hb]. unfold rinode. cbv zeta.
  rewrite (bind_ok _ _ _ _ _ (rsect_ok (IBLOCK n sb0) m ltac:(unfold FSSIZE; lia) (proj1 Hl))). done.
Qed.

(** [winode] changes this inode, no other one and no other block. *)
Lemma winode_ok n din m :
  image_ok (img m) → 0 ≤ n < NINODES → length din = DINODE →
  ∃ l', winode n din m = Ok tt (m <| img := l' |>) ∧ image_ok l' ∧
    (∀ b, 0 ≤ b → b < 32 ∨ 58 ≤ b → block (view l') b = block (view (img m)) b) ∧
    ∀ n', 0 ≤ n' < NINODES → din_of l' n' = if decide (n' = n) then din else din_of (img m) n'.
Proof.
  intros Hl Hn Hd. destruct (IBLOCK_sb0 n Hn) as [_ Hb]. assert (Hf : 0 ≤ IBLOCK n sb0 < FSSIZE) by (unfold FSSIZE; lia).
  pose proof (image_block _ _ Hl Hf) as Hbl. pose proof (inode_off_fits n) as Hfit. unfold winode. cbv zeta.
  rewrite (bind_ok _ _ _ _ _ (rsect_ok (IBLOCK n sb0) m Hf (proj1 Hl))), wsect_ok by (done || apply Hl).
  assert (Hlen : length (splice (inode_off n) din (block (view (img m)) (IBLOCK n sb0))) = Z.to_nat BSIZE)
    by (rewrite length_splice; [done|lia]).
  eexists. split; [reflexivity|]. destruct Hl as [Hl1 Hl2]. split_and!.
  - split; [by rewrite length_insert|]. by apply Forall_insert.
  - intros b Hb0 Hb1. rewrite view_insert, decide_False by lia. done.
  - intros n' Hn'. unfold din_of. destruct (IBLOCK_sb0 n' Hn') as [_ Hb']. rewrite view_insert by lia. case_decide as E.
    + destruct (decide (n' = n)) as [->|Hne].
      * replace DINODE with (length din). apply slice_splice_eq. lia.
      * rewrite E, slice_splice_ne; [done|lia|]. rewrite Hd. by apply inode_apart.
    + rewrite decide_False; [done|]. by intros ->.
Qed.

(** The blocks of files do not depend on the blocks before them. *)
Lemma data_ok_low I C l fb l' :
  data_ok I C l fb → image_ok l' → (∀ n, nmeta ≤ n < FSSIZE → block (view l') n = block (view l) n) →
  data_ok I C l' fb ∧ ∀ j ip k, I !! j = Some ip → slot (view l') ip k = slot (view l) ip k.
Proof.
  intros Hd [Hl Hb] Hs. pose proof (dt_fb _ _ _ _ Hd).
  assert (He : ∀ j ip k, I !! j = Some ip → slot (view l') ip k = slot (view l) ip k).
  { intros j ip k Hj. apply slot_block. intros Hne. rewrite <-(slot_le l) in Hne |- * by lia. apply Hs.
    pose proof (dt_slot _ _ _ _ Hd j ip NDIRECT Hj ltac:(unfold NSLOT; lia) Hne). lia. }
  split; [|done]. split; try done.
  - apply Hd.
  - intros j ip k Hj. rewrite (He j) by done. by apply (dt_slot _ _ _ _ Hd j).
  - intros j1 j2 i1 i2 k1 k2 Hj1 Hj2. rewrite (He j1), (He j2) by done. by apply (dt_inj _ _ _ _ Hd).
  - intros n Hn. rewrite Hs by lia. by apply (dt_free _ _ _ _ Hd).
  - intros j ip c o Hj Hc Ho. rewrite <-(dt_bytes _ _ _ _ Hd j ip c o Hj Hc Ho). unfold fbyte, contents. f_equal.
    rewrite (He j) by done. destruct (Z.eqb_spec (slot (view l) ip (bslot (Z.to_nat (o / BSIZE)))) 0) as [|Hne]; [done|].
    assert (Hbn : (Z.to_nat (o / BSIZE) < NDIRECT + NINDIRECT)%nat)
      by (unfold MAXFILE, BSIZE, NDIRECT, NINDIRECT in *; Z.div_mod_to_equations; lia).
    pose proof (dt_slot _ _ _ _ Hd j ip _ Hj (bslot_lt _ Hbn) Hne). apply Hs. lia.
Qed.

(** Nor on the other fields of the inodes. *)
Lemma data_ok_fields I I' C l fb :
  data_ok I C l fb → (∀ j ip', I' !! j = Some ip' → ∃ ip, I !! j = Some ip ∧ i_addrs ip' = i_addrs ip) → data_ok I' C l fb.
Proof.
  intros Hd HI.
  assert (He : ∀ ip ip' k, i_addrs ip' = i_addrs ip → slot (view l) ip' k = slot (view l) ip k) by (intros ip ip' k E; unfold slot; by rewrite E).
  split; try apply Hd.
  - intros j ip' Hj. destruct (HI j ip' Hj) as (ip & Hip & ->). by apply (dt_addrs _ _ _ _ Hd j).
  - intros j ip' k Hj. destruct (HI j ip' Hj) as (ip & Hip & E). rewrite (He _ _ _ E). by apply (dt_slot _ _ _ _ Hd j).
  - intros j1 j2 i1 i2 k1 k2 Hj1 Hj2. destruct (HI j1 i1 Hj1) as (ip1 & Hip1 & E1), (HI j2 i2 Hj2) as (ip2 & Hip2 & E2).
    rewrite (He _ _ _ E1), (He _ _ _ E2). by apply (dt_inj _ _ _ _ Hd).
  - intros j ip' c o Hj Hc Ho. destruct (HI j ip' Hj) as (ip & Hip & E). rewrite <-(dt_bytes _ _ _ _ Hd j ip c o Hip Hc Ho).
    unfold fbyte, contents. by rewrite (He _ _ _ E).
Qed.

(** ** The invariant of the image *)

Definition inos (l : list (list Z)) (n : nat) : list inode := (λ j, dinode (view l) (Z.of_nat (S j))) <$> seq 0 n.
Definition total (C : list (list Z)) : Z := foldr (λ c a, cost (blks (Z.of_nat (length c))) + a) 0 C.

(** An inode of type [ty] whose contents are [c]. *)
Record inode_for (l : list (list Z)) (ip : inode) (ty : Z) (c : list Z) : Prop := {
  if_type : i_type ip = ty;
  if_nlink : i_nlink ip = 1;
  if_size : i_size ip = Z.of_nat (length c);
  if_dense : dense l ip (blks (Z.of_nat (length c))) }.

(** Inode [j + 1] has the type [T !! j] and the contents [C !! j]. *)
Record built (T : list Z) (C : list (list Z)) (m : mkfs) : Prop := {
  bt_len : length T = length C;
  bt_max : Z.of_nat (length C) < NINODES;
  bt_fi : freeinode m = 1 + Z.of_nat (length C);
  bt_fb : freeblock m = nmeta + total C;
  bt_data : data_ok (inos (img m) (length C)) C (img m) (freeblock m);
  bt_ino : ∀ j ty c, T !! j = Some ty → C !! j = Some c → inode_for (img m) (dinode (view (img m)) (Z.of_nat (S j))) ty c;
  bt_zero : ∀ n, n = 0 ∨ freeinode m ≤ n < NINODES → din_of (img m) n = replicate DINODE 0;
  bt_low : ∀ n, 0 ≤ n < nmeta → n < 32 ∨ 58 ≤ n →
    block (view (img m)) n = if n =? 1 then splice 0 (sb_bytes sb0) zeros else zeros }.

Lemma inos_lookup l n j ip : inos l n !! j = Some ip → ip = dinode (view l) (Z.of_nat (S j)) ∧ (j < n)%nat.
Proof.
  unfold inos. rewrite list_lookup_fmap_Some. intros (x & -> & Hx). apply lookup_seq in Hx as [-> Hx]. done.
Qed.

Lemma inos_lookup_lt l n j : (j < n)%nat → inos l n !! j = Some (dinode (view l) (Z.of_nat (S j))).
Proof. intros Hj. unfold inos. rewrite list_lookup_fmap, lookup_seq_lt by done. done. Qed.

Lemma total_insert C j c c' :
  C !! j = Some c →
  total (<[j := c']> C) = total C - cost (blks (Z.of_nat (length c))) + cost (blks (Z.of_nat (length c'))).
Proof.
  revert j. induction C as [|d C IH]; intros [|j] Hj; simplify_eq/=; [lia|]. rewrite (IH j Hj). lia.
Qed.

Lemma dense_fields l ip ip' b : i_addrs ip' = i_addrs ip → dense l ip b → dense l ip' b.
Proof. intros E H k Hk. rewrite <-(H k Hk). unfold slot. by rewrite E. Qed.

Lemma dense_low l l' ip b : (∀ k, slot (view l') ip k = slot (view l) ip k) → dense l ip b → dense l' ip b.
Proof. intros E H k Hk. rewrite E. by apply H. Qed.

Lemma ino_eq n l l' : (∀ b, 32 ≤ b < 58 → block (view l') b = block (view l) b) → 0 ≤ n < NINODES → din_of l' n = din_of l n.
Proof. intros H Hn. unfold din_of. rewrite H; [done|]. by destruct (IBLOCK_sb0 n Hn). Qed.

(** The inodes after [winode] of inode [j + 1]. *)
Lemma inos_insert l l' n j ip :
  (∀ n', 0 ≤ n' < NINODES → dinode (view l') n' = if decide (n' = Z.of_nat (S j)) then ip else dinode (view l) n') →
  Z.of_nat n < NINODES → (j < n)%nat → inos l' n = <[j := ip]> (inos l n).
Proof.
  intros H Hn Hj. apply list_eq. intros i. destruct (decide (i < n)%nat) as [Hi|Hi].
  - rewrite inos_lookup_lt, H by (done || lia). destruct (decide (i = j)) as [->|Hne].
    + rewrite decide_True, list_lookup_insert_eq by (done || unfold inos; rewrite length_fmap, length_seq; lia). done.
    + rewrite decide_False, list_lookup_insert_ne, inos_lookup_lt by (done || lia). done.
  - rewrite !lookup_ge_None_2; [done|..]; rewrite ?length_insert; unfold inos; rewrite length_fmap, length_seq; lia.
Qed.

(** ** iappend and ialloc *)


(** Inode [j + 1] and its contents replaced. *)
Lemma built_update T C m j c c' ty din l' fb' :
  let inum := Z.of_nat (S j) in
  built T C m → C !! j = Some c → T !! j = Some ty →
  data_ok (<[j := ino inum din]> (inos (img m) (length C))) (<[j := c']> C) l' fb' →
  inode_for l' (ino inum din) ty c' →
  fb' = freeblock m + cost (blks (Z.of_nat (length c'))) - cost (blks (Z.of_nat (length c))) →
  (∀ n, 0 ≤ n < NINODES → din_of l' n = if decide (n = inum) then din else din_of (img m) n) →
  (∀ n, 0 ≤ n < nmeta → n < 32 ∨ 58 ≤ n → block (view l') n = block (view (img m)) n) →
  others (inos (img m) (length C)) j (img m) l' →
  built T (<[j := c']> C) (mkmkfs l' (freeinode m) fb').
Proof.
  intros inum [Hlen Hmax Hfi Hfb Hd Hino Hz Hlow] Hc Hty Hd' Hif Hfb' Hdin Hlow' Ho. pose proof (lookup_lt_Some _ _ _ Hc) as Hj.
  assert (Hdi : ∀ n', 0 ≤ n' < NINODES → dinode (view l') n' = if decide (n' = inum) then ino inum din else dinode (view (img m)) n').
  { intros n' Hn'. rewrite !dinode_view, Hdin by done. case_decide; [by subst|done]. }
  split; rewrite ?length_insert; cbn [img freeinode freeblock]; try done.
  - rewrite Hfb', Hfb, (total_insert C j c c') by done. lia.
  - by rewrite (inos_insert _ l' (length C) j (ino inum din)) in * by done.
  - intros i ty' d Hi Hi'. assert (Hil : (i < length C)%nat) by (apply lookup_lt_Some in Hi; lia). rewrite Hdi by lia.
    destruct (decide (i = j)) as [->|Hne].
    + rewrite decide_True by done. rewrite list_lookup_insert_eq in Hi' by done. by simplify_eq.
    + rewrite decide_False by lia. rewrite list_lookup_insert_ne in Hi' by done. destruct (Hino i ty' d Hi Hi') as [I1 I2 I3 I4].
      split; try done. eapply dense_low; [|done]. intros k. apply (Ho i); [done|]. by apply inos_lookup_lt.
  - intros n Hn. rewrite Hdin by (unfold NINODES in *; lia). rewrite decide_False by lia. by apply Hz.
  - intros n Hn Hn'. rewrite Hlow' by done. by apply Hlow.
Qed.

Lemma length_set_size v din : length din = DINODE → length (din_set_size v din) = DINODE.
Proof. intros Hl. unfold din_set_size. rewrite length_put32; [done|]. rewrite Hl. unfold DINODE. lia. Qed.

(** The end of [iappend]: the inode is written back. *)
Lemma iappend_end T C m j c p ty din' m1 :
  let inum := Z.of_nat (S j) in let off := Z.of_nat (length c) in let n := Z.of_nat (length p) in
  built T C m → C !! j = Some c → T !! j = Some ty → off + n ≤ MAXFILE * BSIZE →
  appended (inos (img m) (length C)) C m j inum off c p (din_of (img m) inum) din' m1 →
  ∃ m', winode inum (din_set_size (xint (off + n)) din') m1 = Ok tt m' ∧ built T (<[j := c ++ p]> C) m'.
Proof.
  intros inum off n Hb Hc Hty Hmax [[Hdl' [A HA]] Pfi Pfb Pdt Pde Po Pl].
  pose proof (lookup_lt_Some _ _ _ Hc) as Hjl. pose proof (bt_max _ _ _ Hb) as Hmx. assert (Hin : 0 ≤ inum < NINODES) by lia.
  pose proof nmeta_eq as Hne. assert (Hlen : Z.of_nat (length (c ++ p)) = off + n) by (rewrite length_app; lia).
  assert (Hsz : u32 (xint (off + n)) = off + n)
    by (rewrite xint_eq, !u32_small; [done|..]; rewrite ?u32_small; unfold is_u32, MAXFILE, BSIZE in *; lia).
  assert (Hi2 : ino inum (din_set_size (xint (off + n)) din') = (ino inum din') <| i_size := off + n |>) by (by rewrite ino_set_size, Hsz).
  set (din2 := din_set_size (xint (off + n)) din') in *.
  destruct (winode_ok inum din2 m1) as (l' & Hw & Him' & Hlow' & Hdin); [by eapply data_image|done|by apply length_set_size|].
  destruct (data_ok_low _ _ _ _ l' Pdt Him') as [Hd2 Hs2]; [intros b Hb'; apply Hlow'; lia|].
  assert (Hj : <[j := ino inum din']> (inos (img m) (length C)) !! j = Some (ino inum din'))
    by (apply list_lookup_insert_eq; unfold inos; by rewrite length_fmap, length_seq).
  eexists. split; [exact Hw|]. replace (m1 <| img := l' |>) with (mkmkfs l' (freeinode m) (freeblock m1)) by (rewrite <-Pfi; by destruct m1).
  apply (built_update T C m j c (c ++ p) ty din2); try done.
  - eapply data_ok_fields; [exact Hd2|]. intros i ip'. destruct (decide (i = j)) as [->|Hne'].
    + rewrite list_lookup_insert_eq by (unfold inos; by rewrite length_fmap, length_seq). intros Hi. apply (inj Some) in Hi. subst ip'. exists (ino inum din').
      split; [done|]. fold inum. by rewrite Hi2.
    + rewrite !list_lookup_insert_ne by done. intros Hi. by exists ip'.
  - destruct (bt_ino _ _ _ Hb j ty c Hty Hc) as [Ity Inl _ _]. fold inum in Ity, Inl. rewrite dinode_view in Ity, Inl.
    fold inum. split; rewrite Hi2, ?Hlen; [by rewrite HA|by rewrite HA|done|].
    eapply (dense_fields _ (ino inum din')); [done|]. eapply dense_low; [|exact Pde]. intros k. by apply (Hs2 j).
  - rewrite Hlen. exact Pfb.
  - intros n' Hn'. rewrite Hdin by done. fold inum. case_decide; [done|]. apply ino_eq; [|done]. intros b Hb'. apply Pl. lia.
  - intros b Hb' Hb2. rewrite Hlow' by lia. by apply Pl.
  - eapply (others_trans _ _ j _ (img m1)); [|done|]; [intros j' Hnj; by apply list_lookup_insert_ne|]. intros j' jp k _. by apply (Hs2 j').
Qed.

Lemma iappend_ok T C m j c p :
  built T C m → C !! j = Some c → Z.of_nat (length c) + Z.of_nat (length p) ≤ MAXFILE * BSIZE →
  freeblock m + cost (blks (Z.of_nat (length c) + Z.of_nat (length p))) - cost (blks (Z.of_nat (length c))) ≤ FSSIZE →
  ∃ m', iappend (Z.of_nat (S j)) p (Z.of_nat (length p)) m = Ok tt m' ∧ built T (<[j := c ++ p]> C) m'.
Proof.
  intros Hb Hc Hmax Hfit. pose proof (bt_data _ _ _ Hb) as Hd. pose proof (data_image _ _ _ _ Hd) as Him.
  pose proof (lookup_lt_Some _ _ _ Hc) as Hjl. pose proof (bt_max _ _ _ Hb) as Hmx.
  assert (Hin : 0 ≤ Z.of_nat (S j) < NINODES) by lia.
  destruct (lookup_lt_is_Some_2 T j) as [ty Hty]; [rewrite (bt_len _ _ _ Hb); lia|].
  destruct (bt_ino _ _ _ Hb j ty c Hty Hc) as [_ _ Isz Ide]. rewrite dinode_view in Isz, Ide.
  set (din := din_of (img m) (Z.of_nat (S j))) in *.
  assert (Hoff : xint (din_size din) = Z.of_nat (length c)) by (rewrite xint_eq, u32_small by apply get32_range; exact Isz).
  destruct (iappend_loop_ok (Z.of_nat (S j)) j (rw_fuel (Z.of_nat (length p))) (inos (img m) (length C)) C m din c p)
    as (din' & m1 & Hlp & Hap); try done.
  { rewrite inos_lookup_lt by done. by rewrite dinode_view. }
  { by apply length_din_of. }
  { apply nblk_fuel. lia. }
  destruct (iappend_end T C m j c p ty din' m1 Hb Hc Hty Hmax Hap) as (m' & Hw & Hb'). exists m'. split; [|done].
  unfold iappend. rewrite (bind_ok _ _ _ _ _ (rinode_ok _ m Him Hin)). fold din. cbv zeta. rewrite Hoff.
  rewrite (bind_ok _ _ _ _ _ Hlp). exact Hw.
Qed.

(** A new inode. *)
Definition new_din (ty : Z) : list Z :=
  din_set_size (xint 0) (put16 6 (xshort 1) (put16 0 (xshort ty) (replicate DINODE 0))).

Lemma ino_new inum ty :
  ty = T_DIR ∨ ty = T_FILE →
  length (new_din ty) = DINODE ∧ i_type (ino inum (new_din ty)) = ty ∧ i_nlink (ino inum (new_din ty)) = 1 ∧
  i_size (ino inum (new_din ty)) = 0 ∧ i_addrs (ino inum (new_din ty)) = replicate (S NDIRECT) 0.
Proof. intros [-> | ->]; split_and!; vm_compute; reflexivity. Qed.

Lemma nth_replicate_0 n k : nth k (replicate n 0) 0 = 0.
Proof.
  rewrite nth_lookup. destruct (replicate n 0 !! k) as [x|] eqn:E; [|done]. by apply lookup_replicate in E as [-> _].
Qed.

Lemma slot_none l ip k : i_addrs ip = replicate (S NDIRECT) 0 → slot (view l) ip k = 0.
Proof.
  intros Ha. assert (Hn : ∀ k, nth k (i_addrs ip) 0 = 0) by (intros k'; rewrite Ha; apply nth_replicate_0).
  unfold slot. rewrite !Hn. by destruct (k <=? NDIRECT)%nat.
Qed.

Lemma data_ok_new I C l fb ip :
  data_ok I C l fb → length I = length C → i_addrs ip = replicate (S NDIRECT) 0 → data_ok (I ++ [ip]) (C ++ [[]]) l fb.
Proof.
  intros Hd Hlen Ha. assert (Hz : ∀ k, slot (view l) ip k = 0) by (intros k; by apply slot_none).
  assert (Hl : ∀ j jp, (I ++ [ip]) !! j = Some jp → I !! j = Some jp ∧ (j < length I)%nat ∨ jp = ip ∧ j = length I).
  { intros j jp [Hj|[Hj Hx]]%lookup_app_Some.
    - left. split; [done|]. by apply lookup_lt_Some in Hj.
    - right. apply list_lookup_singleton_Some in Hx as [Hx ->]. split; [done|lia]. }
  split; try apply Hd.
  - intros j jp [[Hj _]|[-> _]]%Hl; [by apply (dt_addrs _ _ _ _ Hd j)|]. by rewrite Ha.
  - intros j jp k [[Hj _]|[-> _]]%Hl; [by apply (dt_slot _ _ _ _ Hd j)|]. by rewrite Hz.
  - intros j1 j2 i1 i2 k1 k2 [[Hj1 _]|[-> _]]%Hl [[Hj2 _]|[-> _]]%Hl; rewrite ?Hz; try done. by apply (dt_inj _ _ _ _ Hd).
  - intros j jp c o [[Hj Hlt]|[-> ->]]%Hl Hc Ho.
    + rewrite lookup_app_l in Hc by lia. by apply (dt_bytes _ _ _ _ Hd j).
    + rewrite Hlen, list_lookup_middle in Hc by done. injection Hc as <-. unfold fbyte, contents. rewrite Hz, Z.eqb_refl.
      unfold zeros. rewrite nth_replicate_0. by destruct (Z.to_nat o).
Qed.

Lemma inos_S l n : inos l (S n) = inos l n ++ [dinode (view l) (Z.of_nat (S n))].
Proof. unfold inos. by rewrite seq_S, fmap_app. Qed.

Lemma inos_ext l l' n :
  (∀ n', 0 ≤ n' ≤ Z.of_nat n → din_of l' n' = din_of l n') → inos l' n = inos l n.
Proof.
  intros H. apply list_fmap_ext. intros i j Hj%lookup_seq. rewrite !dinode_view. f_equal. apply H. lia.
Qed.

Lemma total_cat C D : total (C ++ D) = total C + total D.
Proof. induction C as [|c C IH]; simpl; [done|]. unfold total in *. simpl. rewrite IH. lia. Qed.

Lemma ialloc_ok T C m ty :
  built T C m → Z.of_nat (length C) + 1 < NINODES → ty = T_DIR ∨ ty = T_FILE →
  ∃ m', ialloc ty m = Ok (Z.of_nat (S (length C))) m' ∧ built (T ++ [ty]) (C ++ [[]]) m' ∧ freeblock m' = freeblock m.
Proof.
  intros [Hlen Hmax Hfi Hfb Hd Hino Hz Hlow] Hn Hty. pose proof nmeta_eq as Hne. set (inum := Z.of_nat (S (length C))).
  assert (Hfi' : freeinode m = inum) by lia. destruct (ino_new inum ty Hty) as (Hdl & I1 & I2 & I3 & I4).
  destruct (winode_ok inum (new_din ty) (m <| freeinode := inum + 1 |>)) as (l' & Hw & Him & Hlow' & Hdin);
    [by eapply data_image|lia|done|]. cbn [img] in Hlow', Hdin.
  exists (mkmkfs l' (inum + 1) (freeblock m)). split; [|split].
  - unfold ialloc. unfold bind at 1, gets at 1. rewrite Hfi'. unfold bind at 1, modify_state at 1.
    rewrite u32_small by (unfold is_u32, NINODES in *; lia). cbv zeta. rewrite (bind_ok _ _ _ _ _ Hw). by destruct m.
  - destruct (data_ok_low _ _ _ _ l' Hd Him) as [Hd' Hs]; [intros b Hb; apply Hlow'; lia|].
    assert (Hext : inos l' (length C) = inos (img m) (length C)).
    { apply inos_ext. intros n' Hn'. rewrite Hdin, decide_False by lia. done. }
    assert (Hnew : dinode (view l') inum = ino inum (new_din ty)) by (by rewrite dinode_view, Hdin, decide_True by lia).
    split; cbn [img freeinode freeblock]; rewrite ?length_app; simpl length; try lia.
    + rewrite total_cat. change (total [[]]) with 0. lia.
    + rewrite Nat.add_1_r, inos_S. fold inum. rewrite Hext, Hnew.
      apply data_ok_new; [done| |done]. unfold inos. by rewrite length_fmap, length_seq.
    + intros j ty' c Hj Hc. destruct (decide (j < length C)%nat) as [Hjl|Hjl].
      * rewrite lookup_app_l in Hj by lia. rewrite lookup_app_l in Hc by lia. destruct (Hino j ty' c Hj Hc) as [J1 J2 J3 J4].
        assert (He : dinode (view l') (Z.of_nat (S j)) = dinode (view (img m)) (Z.of_nat (S j)))
          by (rewrite !dinode_view, Hdin, decide_False by lia; done).
        rewrite He. split; try done. eapply dense_low; [|done]. intros k. apply (Hs j). by apply inos_lookup_lt.
      * assert (j = length C) as -> by (apply lookup_lt_Some in Hc; rewrite length_app in Hc; simpl in Hc; lia).
        rewrite list_lookup_middle in Hc by done. rewrite list_lookup_middle in Hj by done. injection Hc as <-. injection Hj as <-. fold inum. rewrite Hnew.
        split; try done. intros k Hk. rewrite slot_none by done. change (blks (Z.of_nat (length []))) with 0%nat. unfold needed. case_decide; unfold NDIRECT in *; lia.
    + intros n Hn'.
      rewrite Hdin, decide_False by (unfold NINODES in *; lia). apply Hz. lia.
    + intros n Hn' Hn2. rewrite Hlow' by lia. by apply Hlow.
  - reflexivity.
Qed.

(** ** The parts of main *)

Lemma zero_image fi fb :
  for_each (seqZ 0 FSSIZE) (λ i, wsect i zeros) (mkmkfs [] fi fb) = Ok tt (mkmkfs (replicate (Z.to_nat FSSIZE) zeros) fi fb).
Proof.
  pose proof (wp_for_each (λ l1 m, m = mkmkfs (replicate (length l1) zeros) fi fb) (seqZ 0 FSSIZE) (λ i, wsect i zeros) (mkmkfs [] fi fb)) as H.
  destruct (proj1 (wp_ok _ _ _) (H eq_refl ltac:(
    intros l1 x l2 s1 Hl ->;
    assert (Hx : seqZ 0 FSSIZE !! length l1 = Some x) by (by rewrite Hl, list_lookup_middle);
    apply lookup_seqZ in Hx as [-> Hx];
    unfold wp, wsect, modify_state; cbn; unfold modify; cbn;
    rewrite sector_eq, Z.add_0_l, Nat2Z.id by lia; unfold put_sect;
    rewrite length_replicate, Nat.ltb_irrefl, Nat.sub_diag, length_app;
    f_equal; rewrite Nat.add_1_r; symmetry; apply replicate_S_end))) as ([] & s' & -> & ->).
  by rewrite length_seqZ.
Qed.

Definition first_image : list (list Z) := <[1%nat := splice 0 (sb_bytes sb0) zeros]> (replicate (Z.to_nat FSSIZE) zeros).

Lemma first_block n :
  0 ≤ n < FSSIZE → block (view first_image) n = if n =? 1 then splice 0 (sb_bytes sb0) zeros else zeros.
Proof.
  intros Hn. unfold first_image. change 1%nat with (Z.to_nat 1).
  rewrite view_insert by (rewrite ?length_replicate; unfold FSSIZE in *; lia). destruct (Z.eqb_spec n 1) as [->|Hne]; [done|].
  rewrite decide_False by done. rewrite view_block, lookup_replicate_2 by lia. done.
Qed.

Lemma length_zeros : length zeros = Z.to_nat BSIZE.
Proof. apply length_replicate. Qed.

Lemma first_ok : image_ok first_image.
Proof.
  split; [unfold first_image; rewrite length_insert, length_replicate; done|]. apply Forall_insert.
  - apply Forall_replicate. apply length_zeros.
  - rewrite length_splice; [apply length_zeros|]. rewrite length_zeros. unfold sb_bytes. simpl. unfold BSIZE. lia.
Qed.

Lemma slice_zeros o n : (o + n ≤ Z.to_nat BSIZE)%nat → slice o n zeros = replicate n 0.
Proof. intros H. unfold slice, zeros. rewrite drop_replicate, take_replicate. f_equal. lia. Qed.

Lemma first_built : built [] [] (mkmkfs first_image 1 nmeta).
Proof.
  pose proof nmeta_eq as Hm. destruct first_ok as [Hl Hb]. split; cbn [img freeinode freeblock length]; try done.
  - split; try done; try (unfold FSSIZE; lia). intros n Hn. rewrite first_block by lia. by rewrite (proj2 (Z.eqb_neq n 1)) by lia.
  - intros n Hn. assert (0 ≤ n < NINODES) as Hn' by (unfold NINODES in *; lia). unfold din_of. destruct (IBLOCK_sb0 n Hn') as [_ HI].
    rewrite first_block, (proj2 (Z.eqb_neq _ 1)) by (unfold FSSIZE; lia). apply slice_zeros, inode_off_fits.
  - intros n Hn _. apply first_block. unfold FSSIZE. lia.
Qed.

Lemma reads_ok T j reads : ∀ C m c,
  built T C m → C !! j = Some c → Z.of_nat (length c) + Z.of_nat (length (concat reads)) ≤ MAXFILE * BSIZE →
  freeblock m + cost (blks (Z.of_nat (length c) + Z.of_nat (length (concat reads)))) - cost (blks (Z.of_nat (length c))) ≤ FSSIZE →
  ∃ m', for_each reads (λ buf, iappend (Z.of_nat (S j)) buf (Z.of_nat (length buf))) m = Ok tt m' ∧
    built T (<[j := c ++ concat reads]> C) m'.
Proof.
  induction reads as [|p reads IH]; intros C m c Hb Hc Hmax Hfit.
  { exists m. split; [done|]. rewrite app_nil_r, list_insert_id; done. }
  cbn [concat] in Hmax, Hfit |- *. rewrite length_app in Hmax, Hfit.
  set (a := Z.of_nat (length c)) in *. set (b := Z.of_nat (length p)) in *. set (d := Z.of_nat (length (concat reads))) in *.
  replace (Z.of_nat (length p + length (concat reads))) with (b + d) in Hmax, Hfit by lia.
  pose proof (cost_mono (blks (a + b)) (blks (a + (b + d))) ltac:(apply blks_mono; lia)) as Hcm.
  destruct (iappend_ok T C m j c p) as (m1 & H1 & Hb1); [done|done|lia|fold a b; lia|].
  pose proof (bt_fb _ _ _ Hb) as F0. pose proof (bt_fb _ _ _ Hb1) as F1. rewrite (total_insert C j c) in F1 by done.
  assert (Hl : Z.of_nat (length (c ++ p)) = a + b) by (rewrite length_app; lia). rewrite Hl in F1. fold a in F1.
  destruct (IH (<[j := c ++ p]> C) m1 (c ++ p)) as (m2 & H2 & Hb2); [done|..].
  - apply list_lookup_insert_eq. by apply lookup_lt_Some in Hc.
  - fold d. lia.
  - fold d. rewrite Hl. replace (a + b + d) with (a + (b + d)) by lia. lia.
  - exists m2. cbn [for_each]. rewrite (bind_ok _ _ _ _ _ H1). split; [done|].
    by rewrite list_insert_insert_eq, <-app_assoc in Hb2.
Qed.

(** The contents of a file of the command line, and its name in the directory. *)
Definition host_data (a : arg) : list Z := concat (default [] (a_open a)).
Definition host_name (a : arg) : list Z := strip (a_str a).

Definition arg_ok (a : arg) : Prop :=
  (slash ∉ a_str a) ∧ (0 ∉ a_str a) ∧ bytes_ok (a_str a) ∧ is_Some (a_open a) ∧ Z.of_nat (length (host_data a)) ≤ MAXFILE * BSIZE.

Lemma file_entry_eq inum nm : file_entry inum nm = new_entry nm inum.
Proof. unfold file_entry, new_entry. by rewrite xshort_eq. Qed.

Lemma host_name_ok a : arg_ok a → (0 ∉ host_name a) ∧ bytes_ok (host_name a).
Proof.
  intros (_ & H0 & Hb & _). unfold host_name, strip. destruct (char_at (a_str a) =? underscore); [|done].
  destruct (a_str a) as [|x l]; [done|]. split; [by intros ?; apply H0; right|]. by inversion Hb.
Qed.

Lemma length_entry inum a : arg_ok a → 0 ≤ inum < NINODES → Z.of_nat (length (file_entry inum (host_name a))) = DIRENT.
Proof.
  intros Ha Hi. destruct (host_name_ok a Ha) as [_ Hb]. rewrite file_entry_eq.
  by destruct (new_entry_spec (host_name a) inum ltac:(unfold NINODES in *; lia) Hb).
Qed.

(** One file. *)
Lemma add_file_ok T C m r a :
  built T C m → C !! 0%nat = Some r → arg_ok a → Z.of_nat (length C) + 1 < NINODES →
  let inum := Z.of_nat (S (length C)) in
  let r' := r ++ file_entry inum (host_name a) in
  Z.of_nat (length r) + DIRENT ≤ MAXFILE * BSIZE →
  freeblock m + cost (blks (Z.of_nat (length r) + DIRENT)) - cost (blks (Z.of_nat (length r))) +
    cost (blks (Z.of_nat (length (host_data a)))) ≤ FSSIZE →
  ∃ m', add_file ROOTINO a m = Ok tt m' ∧ built (T ++ [T_FILE]) (<[0%nat := r']> C ++ [host_data a]) m'.
Proof.
  intros Hb Hr Ha Hn inum r' Hmax Hfit. pose proof Ha as (Hs & H0 & Hby & [reads Ho] & Hsz). pose proof (lookup_lt_Some _ _ _ Hr) as Hl.
  assert (Hd : host_data a = concat reads) by (unfold host_data; by rewrite Ho). rewrite Hd in *.
  pose proof (length_entry inum a Ha ltac:(lia)) as Hle.
  destruct (ialloc_ok T C m T_FILE Hb Hn (or_intror eq_refl)) as (m1 & H1 & Hb1 & Hf1). fold inum in H1.
  assert (Hr1 : (C ++ [[]]) !! 0%nat = Some r) by (by rewrite lookup_app_l).
  assert (Hc0 : 0 ≤ cost (blks (Z.of_nat (length (concat reads))))) by (unfold cost; destruct (_ <? _)%nat; lia).
  destruct (iappend_ok _ _ m1 0 r (file_entry inum (host_name a)) Hb1 Hr1) as (m2 & H2 & Hb2); rewrite ?Hle; try lia.
  pose proof (bt_fb _ _ _ Hb1) as F1. pose proof (bt_fb _ _ _ Hb2) as F2. rewrite (total_insert _ 0 r) in F2 by done.
  rewrite length_app, Nat2Z.inj_add, Hle in F2.
  rewrite insert_app_l in Hb2 by done. fold r' in Hb2.
  assert (Hj : (<[0%nat := r']> C ++ [[]]) !! length C = Some []) by (apply list_lookup_middle; by rewrite length_insert).
  destruct (reads_ok _ (length C) reads _ m2 [] Hb2 Hj) as (m3 & H3 & Hb3).
  { change (Z.of_nat (length [])) with 0. lia. }
  { change (Z.of_nat (length [])) with 0. rewrite Z.add_0_l. change (cost (blks 0)) with 0. lia. }
  exists m3. split.
  - unfold add_file. rewrite bool_decide_false, Ho by done. rewrite (bind_ok _ _ _ _ _ H1).
    change (iappend ROOTINO (file_entry inum (strip (a_str a))) DIRENT) with (iappend (Z.of_nat 1) (file_entry inum (host_name a)) DIRENT).
    rewrite <-Hle. rewrite (bind_ok _ _ _ _ _ H2). done.
  - rewrite insert_app_r_alt in Hb3 by (by rewrite length_insert). by rewrite length_insert, Nat.sub_diag in Hb3.
Qed.

(** The entries of files whose inodes are numbered from [n] on. *)
Fixpoint entries (n : nat) (files : list arg) : list (list Z) :=
  match files with
  | [] => []
  | a :: files' => file_entry (Z.of_nat n) (host_name a) :: entries (S n) files'
  end.

Lemma total_nonneg C : 0 ≤ total C.
Proof. induction C as [|c C IH]; cbn; [done|]. fold (total C). unfold cost at 1. destruct (_ <? _)%nat; lia. Qed.

Lemma files_ok files : ∀ T C m r,
  built T C m → C !! 0%nat = Some r → Forall arg_ok files → Z.of_nat (length C) + Z.of_nat (length files) < NINODES →
  let n := Z.of_nat (length files) in
  Z.of_nat (length r) + DIRENT * n ≤ MAXFILE * BSIZE →
  freeblock m + cost (blks (Z.of_nat (length r) + DIRENT * n)) - cost (blks (Z.of_nat (length r))) + total (host_data <$> files) ≤ FSSIZE →
  ∃ m', for_each files (add_file ROOTINO) m = Ok tt m' ∧
    built (T ++ replicate (length files) T_FILE) (<[0%nat := r ++ concat (entries (S (length C)) files)]> C ++ (host_data <$> files)) m'.
Proof.
  induction files as [|a files IH]; intros T C m r Hb Hr Hok Hn n Hmax Hfit.
  { exists m. split; [done|]. cbn. by rewrite !app_nil_r, list_insert_id. }
  apply Forall_cons in Hok as [Ha Hok]. cbn [length] in Hn. subst n. pose proof (lookup_lt_Some _ _ _ Hr) as Hl.
  set (k := Z.of_nat (length files)) in *. set (x := Z.of_nat (length r)) in *.
  replace (Z.of_nat (length (a :: files))) with (k + 1) in Hmax, Hfit by (cbn [length]; lia).
  replace (x + DIRENT * (k + 1)) with (x + DIRENT + DIRENT * k) in Hmax, Hfit by lia. cbn [fmap list_fmap] in Hfit.
  change (total (host_data a :: (host_data <$> files))) with (cost (blks (Z.of_nat (length (host_data a)))) + total (host_data <$> files)) in Hfit.
  pose proof (cost_mono (blks (x + DIRENT)) (blks (x + DIRENT + DIRENT * k)) ltac:(apply blks_mono; unfold DIRENT; lia)) as Hcm.
  pose proof (total_nonneg (host_data <$> files)) as Ht0. set (inum := Z.of_nat (S (length C))).
  destruct (add_file_ok T C m r a Hb Hr Ha) as (m1 & H1 & Hb1); [lia|unfold DIRENT in *; fold x; lia|fold x; lia|]. fold inum in Hb1.
  pose proof (length_entry inum a Ha ltac:(lia)) as Hle.
  set (r1 := r ++ file_entry inum (host_name a)) in *.
  assert (Hr1 : Z.of_nat (length r1) = x + DIRENT) by (unfold r1; rewrite length_app; lia).
  pose proof (bt_fb _ _ _ Hb) as F0. pose proof (bt_fb _ _ _ Hb1) as F1. rewrite total_cat, (total_insert C 0 r), Hr1 in F1 by done.
  change (total [host_data a]) with (cost (blks (Z.of_nat (length (host_data a)))) + 0) in F1. fold x in F1.
  destruct (IH _ _ m1 r1 Hb1) as (m2 & H2 & Hb2).
  - rewrite lookup_app_l by (by rewrite length_insert). by apply list_lookup_insert_eq.
  - done.
  - rewrite length_app, length_insert. cbn [length]. lia.
  - fold k. lia.
  - fold k. rewrite Hr1. lia.
  - exists m2. cbn [for_each]. rewrite (bind_ok _ _ _ _ _ H1). split; [done|].
    rewrite length_app, length_insert, insert_app_l, list_insert_insert_eq, <-!app_assoc in Hb2 by (by rewrite length_insert).
    cbn [length] in Hb2. rewrite Nat.add_1_r in Hb2. unfold r1 in Hb2. rewrite <-app_assoc in Hb2. exact Hb2.
Qed.

(** Zeros at the end of the contents are there already. *)
Lemma data_ok_pad I C l fb j c k :
  data_ok I C l fb → C !! j = Some c → data_ok I (<[j := c ++ replicate k 0]> C) l fb.
Proof.
  intros Hd Hc. split; try apply Hd. intros i ip d o Hi Hd' Ho. destruct (decide (i = j)) as [->|Hne].
  - rewrite list_lookup_insert_eq in Hd' by (by apply lookup_lt_Some in Hc). injection Hd' as <-.
    rewrite (dt_bytes _ _ _ _ Hd j ip c o Hi Hc Ho), !nth_lookup. destruct (decide (Z.to_nat o < length c)%nat).
    + by rewrite lookup_app_l.
    + rewrite lookup_app_r by lia. rewrite (lookup_ge_None_2 c) by lia. symmetry. rewrite <-nth_lookup. apply nth_replicate_0.
  - rewrite list_lookup_insert_ne in Hd' by done. by apply (dt_bytes _ _ _ _ Hd i).
Qed.

Definition root_pad (x : Z) : nat := Z.to_nat (BSIZE - x mod BSIZE).

Lemma root_size x :
  0 ≤ x ≤ MAXFILE * BSIZE → x mod BSIZE ≠ 0 →
  u32 ((x / BSIZE + 1) * BSIZE) = x + Z.of_nat (root_pad x) ∧ blks (x + Z.of_nat (root_pad x)) = blks x ∧
  x + Z.of_nat (root_pad x) ≤ MAXFILE * BSIZE.
Proof.
  intros Hx Hm. unfold root_pad, blks, MAXFILE, BSIZE in *. rewrite u32_small by (unfold is_u32; Z.div_mod_to_equations; lia).
  split_and!; [Z.div_mod_to_equations; lia| |Z.div_mod_to_equations; lia].
  f_equal. Z.div_mod_to_equations. lia.
Qed.

(** The size of the root directory, rounded up to whole blocks. *)
Lemma fix_root_ok T C m r ty :
  built T C m → C !! 0%nat = Some r → T !! 0%nat = Some ty → Z.of_nat (length r) mod BSIZE ≠ 0 → Z.of_nat (length r) ≤ MAXFILE * BSIZE →
  ∃ m', fix_root ROOTINO m = Ok tt m' ∧ built T (<[0%nat := r ++ replicate (root_pad (Z.of_nat (length r))) 0]> C) m'.
Proof.
  intros Hb Hr Hty Hm Hmax. pose proof (bt_data _ _ _ Hb) as Hd. pose proof (data_image _ _ _ _ Hd) as Him.
  pose proof (lookup_lt_Some _ _ _ Hr) as Hl. pose proof nmeta_eq as Hne.
  destruct (bt_ino _ _ _ Hb 0 ty r Hty Hr) as [I1 I2 I3 I4]. change (Z.of_nat 1) with ROOTINO in *. rewrite dinode_view in I1, I2, I3, I4.
  set (din := din_of (img m) ROOTINO) in *. set (x := Z.of_nat (length r)) in *.
  assert (Hdl : length din = DINODE) by (by apply length_din_of).
  destruct (root_size x ltac:(lia) Hm) as (Hs & Hbl & Hsm). set (pad := root_pad x) in *.
  assert (Hsz : u32 (xint (x + Z.of_nat pad)) = x + Z.of_nat pad)
    by (rewrite xint_eq, !u32_small; [done|..]; rewrite ?u32_small; unfold is_u32, MAXFILE, BSIZE in *; lia).
  assert (Hi2 : ino ROOTINO (din_set_size (xint (x + Z.of_nat pad)) din) = (ino ROOTINO din) <| i_size := x + Z.of_nat pad |>)
    by (by rewrite ino_set_size, Hsz).
  set (din2 := din_set_size (xint (x + Z.of_nat pad)) din) in *.
  destruct (winode_ok ROOTINO din2 m Him ltac:(done)) as (l' & Hw & Him' & Hlow' & Hdin); [by apply length_set_size|].
  destruct (data_ok_low _ _ _ _ l' Hd Him') as [Hd2 Hs2]; [intros b Hb'; apply Hlow'; lia|].
  assert (Hlr : Z.of_nat (length (r ++ replicate pad 0)) = x + Z.of_nat pad) by (rewrite length_app, length_replicate; lia).
  exists (mkmkfs l' (freeinode m) (freeblock m)). split.
  { unfold fix_root. rewrite (bind_ok _ _ _ _ _ (rinode_ok ROOTINO m Him ltac:(done))). fold din. cbv zeta.
    rewrite (xint_eq (din_size din)), (u32_small (din_size din)) by apply get32_range.
    change (din_size din) with (i_size (ino ROOTINO din)). rewrite I3, Hs.
    fold din2. rewrite Hw. by destruct m. }
  apply (built_update T C m 0 r _ ty din2); try done; try (intros; by apply Hlow'; lia).
  - apply data_ok_pad; [|done]. eapply data_ok_fields; [exact Hd2|]. intros i ip'. destruct (decide (i = 0%nat)) as [->|Hnz].
    + rewrite list_lookup_insert_eq by (unfold inos; by rewrite length_fmap, length_seq). intros Hi. apply (inj Some) in Hi. subst ip'.
      exists (ino ROOTINO din). rewrite inos_lookup_lt by done. change (Z.of_nat 1) with ROOTINO. rewrite dinode_view. split; [done|]. by rewrite Hi2.
    + rewrite list_lookup_insert_ne by done. intros Hi. by exists ip'.
  - change (Z.of_nat 1) with ROOTINO. split; rewrite Hi2, ?Hlr; try done. rewrite Hbl.
    eapply (dense_fields _ (ino ROOTINO din)); [done|]. eapply dense_low; [|exact I4]. intros k. apply (Hs2 0%nat).
    rewrite inos_lookup_lt by done. change (Z.of_nat 1) with ROOTINO. by rewrite dinode_view.
  - rewrite Hlr, Hbl. fold x. lia.
  - intros j' jp k _. by apply Hs2.
Qed.

(** ** The bitmap *)

Definition bitmap (n : nat) : list Z := foldl (λ buf i, set_bit i buf) zeros (seqZ 0 (Z.of_nat n)).

Lemma bitmap_S n : bitmap (S n) = set_bit (Z.of_nat n) (bitmap n).
Proof.
  unfold bitmap. replace (Z.of_nat (S n)) with (Z.of_nat n + 1) by lia. rewrite seqZ_app, foldl_app by lia. done.
Qed.

Lemma bitmap_ok n :
  Z.of_nat n ≤ BPB →
  length (bitmap n) = Z.to_nat BSIZE ∧ ∀ b, 0 ≤ b < BPB → bit_clear b (bitmap n) = negb (b <? Z.of_nat n).
Proof.
  induction n as [|n IH]; intros Hn.
  - split; [apply length_zeros|]. intros b Hb. rewrite (proj2 (Z.ltb_ge b _)) by lia. change (bitmap 0) with zeros.
    unfold bit_clear, zeros. by rewrite nth_replicate_0.
  - destruct IH as [Hl Hb]; [lia|]. rewrite bitmap_S. split; [by rewrite length_set_bit|]. intros b Hbb.
    rewrite set_bit_clear, Hb by (done || lia). destruct (Z.ltb_spec b (Z.of_nat n)), (Z.eqb_spec b (Z.of_nat n)), (Z.ltb_spec b (Z.of_nat (S n))); lia.
Qed.

(** The image at the end: that of [built], with the bitmap. *)
Record finished (T : list Z) (C : list (list Z)) (l : list (list Z)) (fb : Z) : Prop := {
  fn_len : length T = length C;
  fn_max : Z.of_nat (length C) < NINODES;
  fn_fb : fb = nmeta + total C;
  fn_data : data_ok (inos l (length C)) C l fb;
  fn_ino : ∀ j ty c, T !! j = Some ty → C !! j = Some c → inode_for l (dinode (view l) (Z.of_nat (S j))) ty c;
  fn_zero : ∀ n, n = 0 ∨ 1 + Z.of_nat (length C) ≤ n < NINODES → din_of l n = replicate DINODE 0;
  fn_low : ∀ n, 0 ≤ n < 32 → block (view l) n = if n =? 1 then splice 0 (sb_bytes sb0) zeros else zeros;
  fn_map : ∀ n, 0 ≤ n < FSSIZE → bit_clear n (block (view l) 58) = negb (n <? fb) }.

Lemma balloc_built T C m :
  built T C m → ∃ m', balloc (freeblock m) m = Ok tt m' ∧ finished T C (img m') (freeblock m').
Proof.
  intros [Hlen Hmax Hfi Hfb Hd Hino Hz Hlow]. pose proof nmeta_eq as Hne. pose proof (dt_fb _ _ _ _ Hd) as Hf.
  pose proof (data_image _ _ _ _ Hd) as Him. unfold balloc. rewrite (proj2 (Z.ltb_lt _ _)) by (unfold FSSIZE, BSIZE in *; lia). cbn [negb].
  change (sb_bmapstart sb0) with 58. cbv zeta. rewrite wsect_ok by (unfold FSSIZE; lia || apply Him).
  destruct (bitmap_ok (Z.to_nat (freeblock m))) as [Hbl Hbb]; [unfold FSSIZE, BPB, BSIZE in *; lia|].
  replace (foldl (λ buf i, set_bit i buf) zeros (seqZ 0 (freeblock m))) with (bitmap (Z.to_nat (freeblock m)))
    by (unfold bitmap; by rewrite Z2Nat.id by lia).
  set (bm := bitmap _) in *. set (l' := <[Z.to_nat 58 := bm]> (img m)). exists (mkmkfs l' (freeinode m) (freeblock m)).
  split; [by destruct m|]. cbn [img freeblock]. pose proof (dt_len _ _ _ _ Hd) as Hll.
  assert (Hb : ∀ n, 0 ≤ n → block (view l') n = if decide (n = 58) then bm else block (view (img m)) n)
    by (intros n Hn; apply view_insert; unfold FSSIZE in *; lia).
  assert (Him' : image_ok l') by (split; [unfold l'; by rewrite length_insert|apply Forall_insert; [apply Hd|done]]).
  destruct (data_ok_low _ _ _ _ l' Hd Him') as [Hd' Hs]; [intros n Hn; rewrite Hb, decide_False by lia; done|].
  assert (Hdi : ∀ n, 0 ≤ n < NINODES → din_of l' n = din_of (img m) n)
    by (intros n Hn; apply ino_eq; [intros b Hb'; rewrite Hb, decide_False by lia; done|done]).
  split; try done.
  - rewrite (inos_ext (img m) l'); [done|]. intros n Hn. apply Hdi. lia.
  - intros j ty c Hj Hc. pose proof (lookup_lt_Some _ _ _ Hc). destruct (Hino j ty c Hj Hc) as [I1 I2 I3 I4].
    rewrite dinode_view, Hdi, <-dinode_view by lia. split; try done. eapply dense_low; [|done]. intros k. apply (Hs j). by apply inos_lookup_lt.
  - intros n Hn. rewrite Hdi by (unfold NINODES in *; lia). apply Hz. lia.
  - intros n Hn. rewrite Hb, decide_False by lia. apply Hlow; lia.
  - intros n Hn. rewrite Hb, decide_True, Hbb by (done || unfold FSSIZE, BPB, BSIZE in *; lia). by rewrite Z2Nat.id by lia.
Qed.

(** ** main *)

(** The entries of the root directory. *)
Definition root_entries (files : list arg) : list (list Z) :=
  dot_entry ROOTINO [dot] :: dot_entry ROOTINO [dot; dot] :: entries 2 files.
Definition root_data (files : list arg) : list Z :=
  let r := concat (root_entries files) in r ++ replicate (root_pad (Z.of_nat (length r))) 0.

(** The files can be read and fit on the disk: there are inodes, and blocks for
    the files and the directory. *)
Record mkfs_fits (files : list arg) : Prop := {
  mf_args : Forall arg_ok files;
  mf_inodes : Z.of_nat (length files) + 1 < NINODES;
  mf_blocks : nmeta + cost (blks (DIRENT * (2 + Z.of_nat (length files)))) + total (host_data <$> files) ≤ FSSIZE }.

(** The entries of the root directory do not end with a block: 30 files, or 62,
    or 94 and so on, would fill its last one. *)
Definition root_partial (files : list arg) : Prop := (DIRENT * (2 + Z.of_nat (length files))) mod BSIZE ≠ 0.

Lemma length_entries files : ∀ n, Forall arg_ok files → Z.of_nat n + Z.of_nat (length files) ≤ NINODES →
  Forall (λ e, Z.of_nat (length e) = DIRENT) (entries n files) ∧ length (entries n files) = length files.
Proof.
  induction files as [|a files IH]; intros n Hok Hn; [done|]. apply Forall_cons in Hok as [Ha Hok]. cbn [length] in Hn.
  destruct (IH (S n) Hok ltac:(lia)) as [H1 H2]. split; [|cbn; by rewrite H2]. cbn [entries]. constructor; [|done]. apply length_entry; [done|lia].
Qed.

Lemma length_concat_entries (es : list (list Z)) :
  Forall (λ e, Z.of_nat (length e) = DIRENT) es → Z.of_nat (length (concat es)) = DIRENT * Z.of_nat (length es).
Proof. induction 1 as [|e es He _ IH]; [done|]. cbn [concat length]. rewrite length_app. lia. Qed.

(** The empty root directory. *)
Lemma main_start :
  ∃ m, (for_each (seqZ 0 FSSIZE) (λ i, wsect i zeros) ;;
        wsect 1 (splice 0 (sb_bytes sb0) zeros) ;;
        ialloc T_DIR) (mkmkfs [] 1 nmeta) = Ok ROOTINO m ∧ built [T_DIR] [[]] m ∧ freeblock m = nmeta.
Proof.
  rewrite (bind_ok _ _ _ _ _ (zero_image 1 nmeta)).
  assert (Hw : wsect 1 (splice 0 (sb_bytes sb0) zeros) (mkmkfs (replicate (Z.to_nat FSSIZE) zeros) 1 nmeta) = Ok tt (mkmkfs first_image 1 nmeta)).
  { rewrite wsect_ok; [done|unfold FSSIZE; lia|]. cbn [img]. rewrite length_replicate. done. }
  rewrite (bind_ok _ _ _ _ _ Hw). destruct (ialloc_ok [] [] (mkmkfs first_image 1 nmeta) T_DIR first_built) as (m & H & Hb & Hf); [done|by left|].
  exists m. split; [exact H|]. split; [exact Hb|exact Hf].
Qed.

Lemma dots_length : length (dot_entry ROOTINO [dot]) = 16%nat ∧ length (dot_entry ROOTINO [dot; dot]) = 16%nat.
Proof. done. Qed.

(** The root directory with its first two entries. *)
Lemma main_dots m :
  built [T_DIR] [[]] m → freeblock m = nmeta →
  ∃ m', (iappend ROOTINO (dot_entry ROOTINO [dot]) DIRENT ;; iappend ROOTINO (dot_entry ROOTINO [dot; dot]) DIRENT) m = Ok tt m' ∧
    built [T_DIR] [dot_entry ROOTINO [dot] ++ dot_entry ROOTINO [dot; dot]] m'.
Proof.
  intros Hb Hf. pose proof nmeta_eq. destruct dots_length as [L1 L2]. pose proof (bt_fb _ _ _ Hb) as F0.
  destruct (iappend_ok _ _ m 0 [] (dot_entry ROOTINO [dot]) Hb eq_refl) as (m1 & H1 & Hb1); rewrite ?L1; [done|rewrite Hf; done|].
  rewrite L1 in H1. pose proof (bt_fb _ _ _ Hb1) as F1. cbn [list_insert insert app] in Hb1, F1.
  assert (Hf1 : freeblock m1 = nmeta + 1) by (rewrite F1; unfold total; cbn [foldr]; rewrite L1; done).
  destruct (iappend_ok _ _ m1 0 _ (dot_entry ROOTINO [dot; dot]) Hb1 eq_refl) as (m2 & H2 & Hb2);
    rewrite ?L1, ?L2; [done|rewrite Hf1; done|].
  rewrite L2 in H2. exists m2. split; [|exact Hb2]. change DIRENT with (Z.of_nat 16). change ROOTINO with (Z.of_nat 1) at 1 3.
  rewrite (bind_ok _ _ _ _ _ H1). exact H2.
Qed.

Lemma bind_seq2 {A} (a b : MM unit) (K : MM A) m m' : (a ;; b) m = Ok tt m' → (a ;; b ;; K) m = K m'.
Proof. unfold bind. destruct (a m) as [? m1| |]; [|done..]. by intros ->. Qed.
Lemma bind_seq3 {A} (a b : MM unit) (c : MM Z) (K : Z → MM A) m x m' :
  (a ;; b ;; c) m = Ok x m' → (a ;; b ;; bind c K) m = K x m'.
Proof. unfold bind. destruct (a m) as [? m1| |]; [|done..]. destruct (b m1) as [? m2| |]; [|done..]. by intros ->. Qed.

Lemma main_ok prog image files :
  is_Some (a_open image) → mkfs_fits files → root_partial files →
  ∃ m, main (prog :: image :: files) mkfs0 = Ok tt m ∧
    finished (T_DIR :: replicate (length files) T_FILE) (root_data files :: (host_data <$> files)) (img m) (freeblock m).
Proof.
  intros [r0 Himg] [Hargs Hin Hblk] Hroot. pose proof nmeta_eq as Hne. destruct dots_length as [L1 L2].
  destruct main_start as (m1 & H1 & Hb1 & Hf1). destruct (main_dots m1 Hb1 Hf1) as (m2 & H2 & Hb2).
  set (dd := dot_entry ROOTINO [dot] ++ dot_entry ROOTINO [dot; dot]) in *.
  assert (Hdd : Z.of_nat (length dd) = 2 * DIRENT) by (unfold dd; rewrite length_app, L1, L2; done).
  set (n := Z.of_nat (length files)) in *.
  assert (Hx : 2 * DIRENT + DIRENT * n = DIRENT * (2 + n)) by lia.
  pose proof (bt_fb _ _ _ Hb2) as F2. unfold total in F2. cbn [foldr] in F2. rewrite Hdd, Z.add_0_r in F2.
  assert (Hmaxr : DIRENT * (2 + n) ≤ MAXFILE * BSIZE) by (unfold DIRENT, MAXFILE, BSIZE, NINODES in *; lia).
  destruct (files_ok files [T_DIR] [dd] m2 dd Hb2 eq_refl Hargs) as (m3 & H3 & Hb3); rewrite ?Hdd; fold n; rewrite ?Hx; [cbn; lia|done|lia|].
  cbn [length insert list_insert app] in Hb3.
  assert (Hr : dd ++ concat (entries 2 files) = concat (root_entries files)) by (unfold dd, root_entries; cbn [concat]; by rewrite <-app_assoc).
  rewrite Hr in Hb3. destruct (length_entries files 2 Hargs ltac:(lia)) as [E1 E2].
  assert (Hlr : Z.of_nat (length (concat (root_entries files))) = DIRENT * (2 + n)).
  { rewrite <-Hr, length_app, Nat2Z.inj_add, Hdd, length_concat_entries, E2 by done. fold n. lia. }
  destruct (fix_root_ok _ _ m3 _ T_DIR Hb3 eq_refl eq_refl) as (m4 & H4 & Hb4); rewrite ?Hlr; [exact Hroot|exact Hmaxr|].
  destruct (balloc_built _ _ m4 Hb4) as (m5 & H5 & Hb5). exists m5. split; [|exact Hb5].
  unfold main. rewrite Himg. unfold bind at 1, modify_state at 1. change (mkfs0 <| img := [] |> <| freeblock := nmeta |>) with (mkmkfs [] 1 nmeta).
  rewrite (bind_seq3 _ _ _ _ _ _ _ H1). change (ROOTINO =? ROOTINO) with true. cbn [negb].
  rewrite (bind_seq2 _ _ _ _ _ H2), (bind_ok _ _ _ _ _ H3), (bind_ok _ _ _ _ _ H4).
  unfold bind, gets. exact H5.
Qed.
