(* ===== verification/Mktree.v ===== *)
(** * The file system of mkfs, mounted

    A kernel that mounts the image of [mkfs] has a file system and a directory
    tree in order; every file of the command line is in the root directory, with
    its contents. *)

From S2P Require Import Prelude Bytes Kernel Cstring Sched Proc Waiting Sleeplock Bio Log Crash Reserve.
From S2P Require Import Fs Dinode Txn Smallfs Blocks Inode Content Icache Dir Dirent Namei Mkfs Mkimage.

(** The kernel [s] has the image [l] on its disk, and the super block from it. *)
Definition mounts (l : list (list Z)) (s : kernel) : Prop :=
  sb s = sb_of (block s 1) ∧ (∀ n, block s n = default [] (l !! Z.to_nat n)) ∧ length (memdisk (kdisk s)) = length l.

Lemma load_twice o d ip : load_dinode o d (load_dinode o d ip) = load_dinode o d ip.
Proof.
  unfold load_dinode. generalize (s16 (get16 o d)) (s16 (get16 (o + 2) d)) (s16 (get16 (o + 4) d)) (s16 (get16 (o + 6) d)).
  generalize (get32 (o + 8) d) (di_addrs o d). intros. destruct ip. by vm_compute.
Qed.

Section mounted.
Context (T : list Z) (C l : list (list Z)) (fb : Z) (s : kernel).
Context (Hfn : finished T C l fb) (Hmt : mounts l s).

#[local] Lemma mt_block n : block s n = block (view l) n.
Proof using Hmt. rewrite view_block. apply Hmt. Qed.

Lemma mt_sb : sb s = sb0.
Proof using Hfn Hmt.
  destruct Hmt as [-> _]. rewrite mt_block, (fn_low _ _ _ _ Hfn 1 ltac:(lia)). by vm_compute.
Qed.

#[local] Lemma mt_slot ip k : slot s ip k = slot (view l) ip k.
Proof using Hmt. apply slot_block. intros _. apply mt_block. Qed.

#[local] Lemma mt_fbyte ip o : fbyte s ip o = fbyte (view l) ip o.
Proof using Hmt. apply fbyte_same. intros n. apply mt_block. Qed.

Lemma mt_dinode n : dinode s n = ino n (din_of l n).
Proof using Hfn Hmt.
  rewrite <-dinode_view. unfold dinode, stored, iblock. by rewrite mt_sb, view_sb, mt_block.
Qed.

Lemma mt_used n : 0 ≤ n < FSSIZE → used s n = (n <? fb).
Proof using Hfn Hmt.
  intros Hn. unfold used. rewrite mt_sb, mt_block. unfold FSSIZE in Hn.
  rewrite Z.mod_small by (unfold BPB, BSIZE; lia). unfold BBLOCK. rewrite Z.div_small by (unfold BPB, BSIZE; lia).
  change (u32 (0 + sb_bmapstart sb0)) with 58. rewrite (fn_map _ _ _ _ Hfn n) by (unfold FSSIZE; lia). apply negb_involutive.
Qed.

Lemma mt_layout : layout nmeta (sb s) (length (memdisk (kdisk s))).
Proof using Hfn Hmt.
  destruct Hmt as (_ & _ & ->). pose proof (dt_len _ _ _ _ (fn_data _ _ _ _ Hfn)) as Hl. rewrite mt_sb.
  assert (length l = Z.to_nat FSSIZE) as -> by lia. pose proof nmeta_eq as Hm.
  change sb0 with (mksb 1500 1441 200 30 2 32 58). rewrite Hm. unfold FSSIZE.
  split; cbn [sb_size sb_ninodes sb_inodestart sb_bmapstart]; try lia; intros i Hi; unfold IPB, BPB, BSIZE; Z.div_mod_to_equations; lia.
Qed.

Lemma mt_fs_ok : fs_ok nmeta s.
Proof using Hfn Hmt.
  split; [apply mt_layout|apply nmeta_pos|]. intros n Hn. pose proof (dt_fb _ _ _ _ (fn_data _ _ _ _ Hfn)).
  rewrite mt_used by lia. apply Z.ltb_lt. lia.
Qed.

(** *** A file *)

Context (j : nat) (ty : Z) (c : list Z).
Context (HT : T !! j = Some ty) (HC : C !! j = Some c) (Hmax : Z.of_nat (length c) ≤ MAXFILE * BSIZE).

#[local] Lemma mt_ino : inode_for l (dinode s (Z.of_nat (S j))) ty c.
Proof using Hfn Hmt HT HC. rewrite mt_dinode, <-dinode_view. by apply (fn_ino _ _ _ _ Hfn). Qed.

#[local] Lemma mt_lookup : inos l (length C) !! j = Some (dinode s (Z.of_nat (S j))).
Proof using Hfn Hmt HC. rewrite mt_dinode, <-dinode_view. apply inos_lookup_lt. by apply lookup_lt_Some in HC. Qed.

Lemma mt_type : i_type (dinode s (Z.of_nat (S j))) = ty ∧ i_nlink (dinode s (Z.of_nat (S j))) = 1 ∧
  i_size (dinode s (Z.of_nat (S j))) = Z.of_nat (length c).
Proof using Hfn Hmt HT HC. by destruct mt_ino. Qed.

Lemma mt_byte o : 0 ≤ o < MAXFILE * BSIZE → fbyte s (dinode s (Z.of_nat (S j))) o = nth (Z.to_nat o) c 0.
Proof using Hfn Hmt HC. intros Ho. rewrite mt_fbyte. by apply (dt_bytes _ _ _ _ (fn_data _ _ _ _ Hfn) j _ _ _ mt_lookup). Qed.

Lemma mt_bytes off n :
  0 ≤ off → 0 ≤ n → off + n ≤ Z.of_nat (length c) →
  fbytes s (dinode s (Z.of_nat (S j))) off n = slice (Z.to_nat off) (Z.to_nat n) c.
Proof using Hfn Hmt HC Hmax.
  intros Ho Hn Hle. apply list_eq. intros i. unfold fbytes. rewrite list_lookup_fmap. destruct (decide (i < Z.to_nat n)%nat) as [Hi|Hi].
  - rewrite lookup_slice by done. rewrite (proj2 (lookup_seqZ _ _ _ (off + Z.of_nat i))) by lia. cbn [fmap option_fmap option_map].
    rewrite mt_byte, nth_lookup by lia. replace (Z.to_nat (off + Z.of_nat i)) with (Z.to_nat off + i)%nat by lia.
    by destruct (lookup_lt_is_Some_2 c (Z.to_nat off + i)) as [x ->]; [lia|].
  - rewrite lookup_slice_ge, lookup_seqZ_ge by lia. done.
Qed.

Lemma mt_inode_ok : inode_ok nmeta s (dinode s (Z.of_nat (S j))).
Proof using Hfn Hmt HC.
  pose proof (fn_data _ _ _ _ Hfn) as Hd. pose proof mt_lookup as Hj. pose proof (dt_fb _ _ _ _ Hd) as Hf. pose proof nmeta_pos. split.
  - by apply (dt_addrs _ _ _ _ Hd j).
  - by rewrite mt_dinode.
  - intros k Hk. rewrite mt_slot. intros Hne. pose proof (dt_slot _ _ _ _ Hd j _ k Hj Hk Hne) as Hr.
    rewrite mt_used by lia. rewrite mt_sb. change (sb_size sb0) with FSSIZE. split; [lia|]. apply Z.ltb_lt. lia.
  - intros k k' Hk Hk'. rewrite !mt_slot. intros Hne He. by destruct (dt_inj _ _ _ _ Hd j j _ _ k k' Hj Hj Hk Hk' Hne He).
Qed.

Lemma mt_file_ok : file_ok nmeta s (dinode s (Z.of_nat (S j))).
Proof using Hfn Hmt HT HC Hmax.
  destruct mt_ino as [I1 I2 I3 I4]. pose proof (lookup_lt_Some _ _ _ HC) as Hj. pose proof (fn_max _ _ _ _ Hfn).
  assert (Hin : i_inum (dinode s (Z.of_nat (S j))) = Z.of_nat (S j)) by (by rewrite mt_dinode). split.
  - apply mt_inode_ok.
  - intros bn Hbn. rewrite I3 in Hbn. rewrite mt_slot.
    assert (Hlt : (bn < blks (Z.of_nat (length c)))%nat) by (unfold blks, BSIZE in *; Z.div_mod_to_equations; lia).
    apply I4.
    + apply bslot_lt. unfold blks, MAXFILE, BSIZE, NDIRECT, NINDIRECT in *. Z.div_mod_to_equations. lia.
    + unfold needed, bslot. destruct (Nat.ltb_spec bn NDIRECT); case_decide; lia.
  - rewrite I3. lia.
  - rewrite Hin, mt_sb. change (sb_ninodes sb0) with NINODES. lia.
  - rewrite Hin. unfold iblock. rewrite Hin.
    assert (He : dinode s (Z.of_nat (S j)) =
      load_dinode (inode_off (Z.of_nat (S j))) (block s (IBLOCK (Z.of_nat (S j)) (sb s))) (inode0 <| i_dev := 1 |> <| i_inum := Z.of_nat (S j) |>)) by done.
    rewrite He. apply load_twice.
Qed.
End mounted.

(** ** Whose the blocks are *)

(** The slots with a block of the files [C], the first of which has number [j]. *)
Definition slots_needed (c : list Z) : nat := Z.to_nat (cost (blks (Z.of_nat (length c)))).
Fixpoint all_slots (j : nat) (C : list (list Z)) : list (nat * nat) :=
  match C with
  | [] => []
  | c :: C' => ((λ k, (j, k)) <$> seq 0 (slots_needed c)) ++ all_slots (S j) C'
  end.

Lemma all_slots_length C : ∀ j, Z.of_nat (length (all_slots j C)) = total C.
Proof.
  induction C as [|c C IH]; intros j; [done|]. cbn [all_slots]. rewrite length_app, length_fmap, length_seq, Nat2Z.inj_add, IH.
  unfold slots_needed, total, cost. cbn [foldr]. destruct (NDIRECT <? _)%nat; lia.
Qed.

Lemma all_slots_elem C : ∀ j i k, (i, k) ∈ all_slots j C →
  (j ≤ i)%nat ∧ ∃ c, C !! (i - j)%nat = Some c ∧ (k < slots_needed c)%nat.
Proof.
  induction C as [|c C IH]; intros j i k; cbn [all_slots]; [by intros ?%not_elem_of_nil|].
  rewrite elem_of_app, list_elem_of_fmap. intros [(x & [= -> ->] & Hx%elem_of_seq)|H].
  - split; [lia|]. exists c. rewrite Nat.sub_diag. split; [done|lia].
  - destruct (IH _ _ _ H) as (Hle & d & Hd & Hk). split; [lia|]. exists d. split; [|done].
    by replace (i - j)%nat with (S (i - S j)) by lia.
Qed.

Lemma all_slots_nodup C : ∀ j, NoDup (all_slots j C).
Proof.
  induction C as [|c C IH]; intros j; cbn [all_slots]; [constructor|]. apply NoDup_app. split_and!.
  - apply NoDup_fmap_2; [|apply NoDup_seq]. intros x y. by intros [= ->].
  - intros [i k] (x & [= -> ->] & _)%list_elem_of_fmap H. apply all_slots_elem in H as [H _]. lia.
  - apply IH.
Qed.

Lemma needed_slots c k : Z.of_nat (length c) ≤ MAXFILE * BSIZE → (k < slots_needed c)%nat →
  (k < NSLOT)%nat ∧ needed (blks (Z.of_nat (length c))) k.
Proof.
  intros Hc Hk. unfold slots_needed, cost in Hk. assert (Hb : (blks (Z.of_nat (length c)) ≤ NDIRECT + NINDIRECT)%nat).
  { unfold blks, MAXFILE, BSIZE, NDIRECT, NINDIRECT in *. Z.div_mod_to_equations. lia. }
  unfold needed, NSLOT. destruct (Nat.ltb_spec NDIRECT (blks (Z.of_nat (length c)))); case_decide; lia.
Qed.

(** Every block below the first free one is a block of some file. *)
Lemma blocks_owned T C l fb n :
  finished T C l fb → Forall (λ c, Z.of_nat (length c) ≤ MAXFILE * BSIZE) C → nmeta ≤ n < fb →
  ∃ j k, (j < length C)%nat ∧ (k < NSLOT)%nat ∧ slot (view l) (dinode (view l) (Z.of_nat (S j))) k = n.
Proof.
  intros Hfn HC Hn. pose proof (fn_data _ _ _ _ Hfn) as Hd.
  set (at_ := λ jk : nat * nat, slot (view l) (dinode (view l) (Z.of_nat (S (fst jk)))) (snd jk)).
  assert (Hin : ∀ j k, (j, k) ∈ all_slots 0 C → (j < length C)%nat ∧ (k < NSLOT)%nat ∧ at_ (j, k) ≠ 0).
  { intros j k (_ & c & Hc & Hk)%all_slots_elem. rewrite Nat.sub_0_r in Hc. pose proof (lookup_lt_Some _ _ _ Hc) as Hj.
    destruct (needed_slots c k (Forall_lookup_1 _ _ _ _ HC Hc) Hk) as [Hks Hnd]. split_and!; [done|done|].
    destruct (lookup_lt_is_Some_2 T j) as [ty Hty]; [by rewrite (fn_len _ _ _ _ Hfn)|].
    apply (if_dense _ _ _ _ (fn_ino _ _ _ _ Hfn j ty c Hty Hc)); done. }
  assert (HN : NoDup (at_ <$> all_slots 0 C)).
  { apply NoDup_fmap_2_strong; [|apply all_slots_nodup]. intros [j k] [j' k'] H1 H2 He.
    destruct (Hin _ _ H1) as (Hj & Hk & Hz), (Hin _ _ H2) as (Hj' & Hk' & _).
    destruct (dt_inj _ _ _ _ Hd j j' _ _ k k' (inos_lookup_lt _ _ _ Hj) (inos_lookup_lt _ _ _ Hj') Hk Hk' Hz He) as [-> ->]. done. }
  assert (Hsub : at_ <$> all_slots 0 C ⊆+ seqZ nmeta (total C)).
  { apply NoDup_submseteq; [done|]. intros x ([j k] & -> & H)%list_elem_of_fmap. destruct (Hin _ _ H) as (Hj & Hk & Hz).
    pose proof (dt_slot _ _ _ _ Hd j _ k (inos_lookup_lt _ _ _ Hj) Hk Hz) as Hr. apply elem_of_seqZ. rewrite <-(fn_fb _ _ _ _ Hfn). exact Hr. }
  apply submseteq_length_Permutation in Hsub.
  2: { rewrite length_fmap, length_seqZ, <-(all_slots_length C 0). lia. }
  assert (Hx : n ∈ at_ <$> all_slots 0 C).
  { rewrite Hsub. apply elem_of_seqZ. rewrite <-(fn_fb _ _ _ _ Hfn). exact Hn. }
  apply list_elem_of_fmap in Hx as ([j k] & -> & H). destruct (Hin _ _ H) as (Hj & Hk & _). by exists j, k.
Qed.

(** ** The root directory *)

Lemma slice_concat {A} n (es : list (list A)) : ∀ k e,
  Forall (λ e, length e = n) es → es !! k = Some e → slice (n * k) n (concat es) = e.
Proof.
  induction es as [|x es IH]; intros k e Hes Hk; [done|]. apply Forall_cons in Hes as [Hx Hes]. destruct k as [|k]; simplify_eq/=.
  - rewrite Nat.mul_0_r. unfold slice. rewrite drop_0, take_app_length. done.
  - rewrite <-(IH k e Hes Hk). unfold slice. f_equal. rewrite drop_app_ge by lia. f_equal. lia.
Qed.

Lemma concat_replicate z k : concat (replicate z (replicate k 0)) = replicate (z * k) 0.
Proof. induction z as [|z IH]; [done|]. cbn. rewrite IH, replicate_add. done. Qed.

Definition zero_entry : list Z := replicate 16 0.
Definition all_entries (files : list arg) : list (list Z) :=
  root_entries files ++ replicate (root_pad (DIRENT * (2 + Z.of_nat (length files))) / 16) zero_entry.

Lemma root_entries_length files :
  mkfs_fits files → Forall (λ e, Z.of_nat (length e) = DIRENT) (root_entries files) ∧
  length (root_entries files) = (2 + length files)%nat ∧
  Z.of_nat (length (concat (root_entries files))) = DIRENT * (2 + Z.of_nat (length files)).
Proof.
  intros [Ha Hi _]. destruct (length_entries files 2 Ha ltac:(lia)) as [H1 H2]. destruct dots_length as [L1 L2].
  assert (Hf : Forall (λ e, Z.of_nat (length e) = DIRENT) (root_entries files))
    by (constructor; [by rewrite L1|constructor; [by rewrite L2|done]]).
  split_and!; [done|cbn; by rewrite H2|]. rewrite length_concat_entries by done. unfold root_entries. cbn [length]. lia.
Qed.

Lemma root_data_eq files :
  mkfs_fits files → root_data files = concat (all_entries files) ∧ Forall (λ e, length e = 16%nat) (all_entries files) ∧
  Z.of_nat (length (root_data files)) = DIRENT * Z.of_nat (length (all_entries files)) ∧
  Z.of_nat (length (root_data files)) ≤ MAXFILE * BSIZE.
Proof.
  intros Hm. destruct (root_entries_length files Hm) as (H1 & H2 & H3). pose proof (mf_inodes _ Hm) as Hi.
  set (x := DIRENT * (2 + Z.of_nat (length files))) in *.
  assert (Hp : (root_pad x / 16 * 16 = root_pad x)%nat).
  { unfold root_pad, x, DIRENT, BSIZE in *. apply Nat2Z.inj. rewrite Nat2Z.inj_mul, Nat2Z.inj_div, Z2Nat.id by (Z.div_mod_to_equations; lia).
    Z.div_mod_to_equations. lia. }
  assert (Hf : Forall (λ e, length e = 16%nat) (all_entries files)).
  { apply Forall_app. split; [|apply Forall_replicate; done]. eapply Forall_impl; [exact H1|]. unfold DIRENT. cbv beta. intros; lia. }
  assert (He : root_data files = concat (all_entries files)).
  { unfold root_data. rewrite H3. unfold all_entries. fold x. rewrite concat_app. unfold zero_entry. rewrite concat_replicate, Hp. done. }
  split_and!; [done|done|..].
  - rewrite He, length_concat_entries; [done|]. eapply Forall_impl; [exact Hf|]. cbv beta. unfold DIRENT. intros; lia.
  - unfold root_data. rewrite length_app, H3, length_replicate. unfold root_pad, x, MAXFILE, BSIZE, DIRENT, NINODES in *.
    Z.div_mod_to_equations. lia.
Qed.

Lemma entries_lookup files : ∀ n k e,
  entries n files !! k = Some e → ∃ a, files !! k = Some a ∧ e = file_entry (Z.of_nat (n + k)) (host_name a).
Proof.
  induction files as [|a files IH]; intros n [|k] e Hk; simplify_eq/=.
  - exists a. by rewrite Nat.add_0_r.
  - destruct (IH (S n) k e Hk) as (b & Hb & ->). exists b. split; [done|]. do 2 f_equal. lia.
Qed.

Lemma entries_lookup_2 files : ∀ n k a, files !! k = Some a → entries n files !! k = Some (file_entry (Z.of_nat (n + k)) (host_name a)).
Proof.
  induction files as [|b files IH]; intros n [|k] a Hk; simplify_eq/=; [by rewrite Nat.add_0_r|].
  rewrite (IH (S n) k a Hk). do 3 f_equal. lia.
Qed.

(** What the entries hold. *)
Lemma all_entries_lookup files k e :
  mkfs_fits files → all_entries files !! k = Some e →
  bytes_ok e ∧
  (de_inum e = 0 ∨ de_inum e = 1 ∧ fname (de_name e) = replicate (S k) dot ∧ (k < 2)%nat ∨
   ∃ i a, k = S (S i) ∧ files !! i = Some a ∧ de_inum e = Z.of_nat k ∧ fname (de_name e) = fname (host_name a)).
Proof.
  intros Hm Hk. pose proof (mf_inodes _ Hm) as Hi. unfold all_entries in Hk. apply lookup_app_Some in Hk as [Hk|[_ Hk]].
  - destruct k as [|[|k]].
    + injection Hk as <-. split; [by repeat constructor|]. right. left. split_and!; [done|done|lia].
    + injection Hk as <-. split; [by repeat constructor|]. right. left. split_and!; [done|done|lia].
    + apply entries_lookup in Hk as (a & Ha & ->). pose proof (lookup_lt_Some _ _ _ Ha) as Hl.
      destruct (host_name_ok a) as [_ Hb]; [by apply (Forall_lookup_1 _ _ _ _ (mf_args _ Hm) Ha)|].
      destruct (new_entry_spec (host_name a) (Z.of_nat (2 + k)) ltac:(unfold NINODES in *; lia) Hb) as (_ & N2 & N3 & N4).
      rewrite file_entry_eq. split; [done|]. right. right. by exists k, a.
  - apply lookup_replicate in Hk as [-> _]. split; [by apply Forall_replicate|]. by left.
Qed.

Section image.
Context (files : list arg) (l : list (list Z)) (fb : Z) (s : kernel).
Let T := T_DIR :: replicate (length files) T_FILE.
Let C := root_data files :: (host_data <$> files).
Context (Hfn : finished T C l fb) (Hmt : mounts l s) (Hfit : mkfs_fits files).

#[local] Lemma file_lookup i a : files !! i = Some a → C !! S i = Some (host_data a).
Proof using Type. intros Ha. change ((host_data <$> files) !! i = Some (host_data a)). by rewrite list_lookup_fmap, Ha. Qed.

Lemma root_inode : i_type (dinode s 1) = T_DIR ∧ i_nlink (dinode s 1) = 1 ∧ i_size (dinode s 1) = Z.of_nat (length (root_data files)).
Proof using Hfn Hmt. by apply (mt_type T C l fb s Hfn Hmt 0 T_DIR (root_data files)). Qed.

Lemma root_file_ok : file_ok nmeta s (dinode s 1).
Proof using Hfn Hmt Hfit.
  apply (mt_file_ok T C l fb s Hfn Hmt 0 T_DIR (root_data files) eq_refl eq_refl). by destruct (root_data_eq files Hfit) as (_ & _ & _ & ?).
Qed.

Lemma root_dents : dents s (dinode s 1) = all_entries files.
Proof using Hfn Hmt Hfit.
  destruct (root_data_eq files Hfit) as (He & Hf & Hl & Hm). destruct root_inode as (_ & _ & Hs).
  assert (Hn : nents (dinode s 1) = length (all_entries files)).
  { unfold nents. rewrite Hs, Hl. unfold DIRENT. rewrite Z.mul_comm, Z.div_mul by done. lia. }
  apply list_eq. intros k. destruct (decide (k < length (all_entries files))%nat) as [Hk|Hk].
  - rewrite dents_lookup by lia. destruct (lookup_lt_is_Some_2 (all_entries files) k Hk) as [e He']. rewrite He'. f_equal. unfold dent.
    change (dinode s 1) with (dinode s (Z.of_nat 1)).
    rewrite (mt_bytes T C l fb s Hfn Hmt 0 (root_data files) eq_refl Hm) by (rewrite ?Hl; unfold DIRENT in *; lia).
    rewrite He. replace (Z.to_nat (DIRENT * Z.of_nat k)) with (16 * k)%nat by (unfold DIRENT; lia).
    change (Z.to_nat DIRENT) with 16%nat. by apply slice_concat.
  - rewrite !lookup_ge_None_2; [done|lia|rewrite length_dents; lia].
Qed.

Lemma root_dir_ok : dir_ok nmeta s (dinode s 1).
Proof using Hfn Hmt Hfit.
  destruct (root_data_eq files Hfit) as (He & Hf & Hl & Hm). destruct root_inode as (Ht & _ & Hs). split.
  - apply root_file_ok.
  - done.
  - rewrite Hs, Hl, Z.mul_comm. apply Z.mod_mul. done.
  - intros o Ho. change (dinode s 1) with (dinode s (Z.of_nat 1)). rewrite (mt_byte T C l fb s Hfn Hmt 0 (root_data files)) by (done || lia).
    rewrite nth_lookup. destruct (root_data files !! Z.to_nat o) as [x|] eqn:E; [|done]. cbn. rewrite He in E.
    apply list_elem_of_lookup_2, list_elem_of_In, in_concat in E as (e & H1 & H2). apply list_elem_of_In in H1, H2.
    apply list_elem_of_lookup in H1 as [k Hk]. destruct (all_entries_lookup files k e Hfit Hk) as [Hb _].
    unfold bytes_ok in Hb. rewrite Forall_forall in Hb. by apply Hb.
Qed.

(** The inodes in use: the root directory and one for each file. *)
Lemma inode_cases n :
  0 ≤ n < NINODES →
  i_type (dinode s n) = 0 ∨ n = 1 ∨
  ∃ i a, n = Z.of_nat (S (S i)) ∧ files !! i = Some a ∧ i_type (dinode s n) = T_FILE ∧ i_nlink (dinode s n) = 1.
Proof using Hfn Hmt.
  intros Hn. destruct (decide (n = 0 ∨ 2 + Z.of_nat (length files) ≤ n)) as [Hz|Hz].
  - left. rewrite (mt_dinode T C l fb s Hfn Hmt), (fn_zero _ _ _ _ Hfn n); [by vm_compute|]. unfold C. cbn [length]. rewrite length_fmap. lia.
  - right. destruct (decide (n = 1)) as [|H1]; [by left|]. right. destruct (lookup_lt_is_Some_2 files (Z.to_nat (n - 2))) as [a Ha]; [lia|].
    exists (Z.to_nat (n - 2)), a. assert (Hn' : n = Z.of_nat (S (S (Z.to_nat (n - 2))))) by lia.
    assert (HT : T !! S (Z.to_nat (n - 2)) = Some T_FILE) by (apply lookup_replicate_2; lia).
    assert (HC : C !! S (Z.to_nat (n - 2)) = Some (host_data a)) by (by apply file_lookup).
    pose proof (mt_type T C l fb s Hfn Hmt _ _ _ HT HC) as (M1 & M2 & _). rewrite <-Hn' in M1, M2. done.
Qed.

Lemma image_tree_ok : tree_ok nmeta s.
Proof using Hfn Hmt Hfit.
  destruct root_inode as (Ht & Hl & _). pose proof (mf_inodes _ Hfit) as Hi.
  assert (Hn : sb_ninodes (sb s) = NINODES) by (by rewrite (mt_sb T C l fb s Hfn Hmt)).
  assert (Hd : ∀ n, 0 ≤ n < NINODES → i_type (dinode s n) = T_DIR → n = 1).
  { intros n Hn' Ht'. destruct (inode_cases n Hn') as [E|[E|(i & a & _ & _ & E & _)]]; [|done|]; rewrite Ht' in E; done. }
  split; rewrite Hn.
  - intros n Hn' Ht'. rewrite (Hd n Hn' Ht'). apply root_dir_ok.
  - intros n de Hn' Ht' Hde Hnz. rewrite (Hd n Hn' Ht'), root_dents in Hde. apply list_elem_of_lookup in Hde as [k Hk].
    destruct (all_entries_lookup files k de Hfit Hk) as (_ & [E|[(E & _ & _)|(i & a & -> & Ha & E & _)]]); [done|rewrite E|rewrite E].
    + split; [done|]. by rewrite Ht.
    + pose proof (lookup_lt_Some _ _ _ Ha). split; [lia|].
      destruct (mt_type T C l fb s Hfn Hmt (S i) T_FILE (host_data a)) as (M1 & _ & _); [apply lookup_replicate_2; lia|by apply file_lookup|].
      by rewrite M1.
  - intros n Hn' Ht'. destruct (inode_cases n Hn') as [E|[->|(i & a & _ & _ & _ & E)]]; [done|by rewrite Hl|by rewrite E].
Qed.

(** A file of the command line. *)
Lemma image_file i a :
  files !! i = Some a →
  let n := Z.of_nat (S (S i)) in
  i_type (dinode s n) = T_FILE ∧ i_size (dinode s n) = Z.of_nat (length (host_data a)) ∧ file_ok nmeta s (dinode s n) ∧
  fbytes s (dinode s n) 0 (i_size (dinode s n)) = host_data a.
Proof using Hfn Hmt Hfit.
  intros Ha n. pose proof (lookup_lt_Some _ _ _ Ha) as Hl.
  assert (HT : T !! S i = Some T_FILE) by (apply lookup_replicate_2; lia).
  assert (HC : C !! S i = Some (host_data a)) by (by apply file_lookup).
  pose proof (Forall_lookup_1 _ _ _ _ (mf_args _ Hfit) Ha) as (_ & _ & _ & _ & Hm).
  destruct (mt_type T C l fb s Hfn Hmt _ _ _ HT HC) as (M1 & _ & M3). split_and!; [done|done| |].
  - by apply (mt_file_ok T C l fb s Hfn Hmt (S i) T_FILE (host_data a)).
  - unfold n. rewrite M3, (mt_bytes T C l fb s Hfn Hmt (S i) (host_data a) HC Hm) by lia. unfold slice. rewrite drop_0, Nat2Z.id. by apply take_ge.
Qed.

(** Its name leads to it, if it is the first with that name. *)
Lemma image_walk i a :
  files !! i = Some a → fname (host_name a) ≠ [dot] → fname (host_name a) ≠ [dot; dot] →
  (∀ j b, (j < i)%nat → files !! j = Some b → fname (host_name b) ≠ fname (host_name a)) →
  dir_find s (dinode s ROOTINO) (fname (host_name a)) = Some (S (S i), Z.of_nat (S (S i))).
Proof using Hfn Hmt Hfit.
  intros Ha H1 H2 Hfirst. pose proof (lookup_lt_Some _ _ _ Ha) as Hl. pose proof (mf_inodes _ Hfit) as Hi.
  assert (He : all_entries files !! S (S i) = Some (file_entry (Z.of_nat (2 + i)) (host_name a))).
  { unfold all_entries. rewrite lookup_app_l; [by apply entries_lookup_2|]. destruct (root_entries_length files Hfit) as (_ & -> & _). lia. }
  unfold dir_find, ROOTINO. rewrite root_dents. unfold find_name.
  assert (Hx : find_index (has_name (fname (host_name a))) (all_entries files) = Some (S (S i))).
  { apply find_index_Some. eexists. split; [exact He|]. split.
    - destruct (all_entries_lookup files _ _ Hfit He) as (_ & [E|[(_ & _ & E)|(i' & a' & Hi' & Ha' & E & En)]]); [|lia|].
      + exfalso. revert E. rewrite file_entry_eq. destruct (host_name_ok a) as [_ Hb]; [by apply (Forall_lookup_1 _ _ _ _ (mf_args _ Hfit) Ha)|].
        destruct (new_entry_spec (host_name a) (Z.of_nat (2 + i)) ltac:(unfold NINODES in *; lia) Hb) as (_ & -> & _). lia.
      + injection Hi' as <-. rewrite Ha in Ha'. injection Ha' as <-. unfold has_name. rewrite E, En. by rewrite bool_decide_true.
    - intros j e Hj Hje. unfold has_name. destruct (all_entries_lookup files j e Hfit Hje) as (_ & [E|[(E & En & Hj2)|(i' & b & -> & Hb & E & En)]]).
      + by rewrite E.
      + rewrite En, bool_decide_false; [by rewrite andb_false_r|]. destruct j as [|[|j]]; [by intros Hd; apply H1|by intros Hd; apply H2|lia].
      + rewrite En, bool_decide_false; [by rewrite andb_false_r|]. apply (Hfirst i'); [lia|done]. }
  rewrite Hx. rewrite nth_lookup, He. cbn [default]. do 2 f_equal. rewrite file_entry_eq.
  destruct (host_name_ok a) as [_ Hb]; [by apply (Forall_lookup_1 _ _ _ _ (mf_args _ Hfit) Ha)|].
  destruct (new_entry_spec (host_name a) (Z.of_nat (2 + i)) ltac:(unfold NINODES in *; lia) Hb) as (_ & E & _). exact E.
Qed.
End image.

(** ** Properties *)

Lemma fname_take e : (0 ∉ e) → fname e = elem_name e.
Proof.
  intros H0. unfold fname, elem_name. generalize (Z.to_nat DIRSIZ) as n. revert H0. induction e as [|c e IH]; intros H0 [|n]; try done.
  cbn. rewrite (proj2 (Z.eqb_neq c 0)) by (intros ->; apply H0; left). f_equal. apply IH. intros H. apply H0. by right.
Qed.

(** No file before [a] in the command line has its name, and it is not that of
    the directory. *)
Definition first_name (files : list arg) (i : nat) (a : arg) : Prop :=
  elem_name (host_name a) ≠ [dot] ∧ elem_name (host_name a) ≠ [dot; dot] ∧
  ∀ j b, (j < i)%nat → files !! j = Some b → elem_name (host_name b) ≠ elem_name (host_name a).

Lemma image_find files l fb s i a :
  finished (T_DIR :: replicate (length files) T_FILE) (root_data files :: (host_data <$> files)) l fb → mounts l s → mkfs_fits files →
  files !! i = Some a → first_name files i a → walk s ROOTINO [host_name a] = Some (Z.of_nat (S (S i))).
Proof.
  intros Hfn Hmt Hfit Ha (H1 & H2 & H3).
  assert (Hn : ∀ j b, files !! j = Some b → fname (host_name b) = elem_name (host_name b)).
  { intros j b Hb. apply fname_take. by destruct (host_name_ok b (Forall_lookup_1 _ _ _ _ (mf_args _ Hfit) Hb)). }
  cbn [walk]. destruct (root_inode files l fb s Hfn Hmt) as (Ht & _). change ROOTINO with 1 at 1. rewrite Ht. change (T_DIR =? T_DIR) with true. cbv iota.
  rewrite <-(Hn i a Ha). rewrite (image_walk files l fb s Hfn Hmt Hfit i a Ha); [done|by rewrite (Hn i)|by rewrite (Hn i)|].
  intros j b Hj Hb. rewrite (Hn j b Hb), (Hn i a Ha). by apply (H3 j).
Qed.

(** The blocks the bitmap of the image marks are those of the files. *)
Lemma image_used files l fb s n :
  finished (T_DIR :: replicate (length files) T_FILE) (root_data files :: (host_data <$> files)) l fb → mounts l s → mkfs_fits files →
  0 ≤ n < FSSIZE →
  used s n = true ↔ n < nmeta ∨
    ∃ i k, (i ≤ length files)%nat ∧ (k < NSLOT)%nat ∧ slot s (dinode s (Z.of_nat (S i))) k = n.
Proof.
  intros Hfn Hmt Hfit Hn. pose proof (fn_data _ _ _ _ Hfn) as Hd. pose proof (dt_fb _ _ _ _ Hd) as Hf. pose proof nmeta_pos.
  rewrite (mt_used _ _ _ _ s Hfn Hmt) by done. rewrite Z.ltb_lt.
  set (C := root_data files :: (host_data <$> files)) in *.
  assert (Hlen : length C = S (length files)) by (unfold C; cbn; by rewrite length_fmap).
  assert (Hsl : ∀ i k, slot s (dinode s (Z.of_nat (S i))) k = slot (view l) (dinode (view l) (Z.of_nat (S i))) k).
  { intros i k. rewrite (mt_dinode _ _ _ _ s Hfn Hmt), <-dinode_view. apply slot_block. intros _. rewrite view_block. apply Hmt. }
  setoid_rewrite Hsl. split.
  - intros Hlt. destruct (decide (n < nmeta)) as [|Hge]; [by left|right].
    destruct (blocks_owned _ _ _ _ n Hfn) as (j & k & Hj & Hk & E); [|lia|exists j, k; split; [lia|done]].
    constructor; [by destruct (root_data_eq files Hfit) as (_ & _ & _ & ?)|]. apply Forall_fmap, Forall_forall. intros a Ha.
    pose proof (mf_args _ Hfit) as Hok. rewrite Forall_forall in Hok. by destruct (Hok a Ha) as (_ & _ & _ & _ & ?).
  - intros [Hlt|(i & k & Hi & Hk & E)]; [lia|]. destruct (decide (n = 0)) as [->|Hz]; [lia|].
    rewrite <-E in Hz. pose proof (dt_slot _ _ _ _ Hd i _ k (inos_lookup_lt l (length C) i ltac:(lia)) Hk Hz). lia.
Qed.

(** [C10] The image of [mkfs].  If the files of the command line can be read and
    fit on the disk, and the root directory does not end exactly with a block,
    [mkfs] succeeds, and a kernel that mounts the image has a file system in
    order with an empty log, a bitmap that marks exactly the blocks of [mkfs]'s
    metadata and those of its files, and a root directory tree in order; each
    file is an inode of its own, with the contents the host gave; and the name of
    a file, without a leading underscore and cut to [DIRSIZ] characters, leads to
    it from the root if no earlier file has it and it is neither [.] nor [..]. *)
Theorem mkfs_spec prog image files :
  is_Some (a_open image) → mkfs_fits files → root_partial files →
  ∃ m, main (prog :: image :: files) mkfs0 = Ok tt m ∧ Z.of_nat (length (img m)) = FSSIZE ∧
    ∀ s, mounts (img m) s →
      fs_ok nmeta s ∧ tree_ok nmeta s ∧ head_n (block s (sb_logstart (sb s))) = 0 ∧
      (∀ n, 0 ≤ n < FSSIZE → used s n = true ↔ n < nmeta ∨
         ∃ i k, (i ≤ length files)%nat ∧ (k < NSLOT)%nat ∧ slot s (dinode s (Z.of_nat (S i))) k = n) ∧
      ∀ i a, files !! i = Some a →
        let n := Z.of_nat (S (S i)) in
        i_type (dinode s n) = T_FILE ∧ file_ok nmeta s (dinode s n) ∧
        fbytes s (dinode s n) 0 (i_size (dinode s n)) = host_data a ∧
        (first_name files i a → walk s ROOTINO [host_name a] = Some n).
Proof.
  intros Himg Hfit Hpart. destruct (main_ok prog image files Himg Hfit Hpart) as (m & Hm & Hfn). exists m. split; [exact Hm|]. clear Hm.
  split; [apply (dt_len _ _ _ _ (fn_data _ _ _ _ Hfn))|]. intros s Hmt. split_and!.
  - by eapply mt_fs_ok.
  - by eapply image_tree_ok.
  - rewrite (mt_sb _ _ _ _ s Hfn Hmt). change (sb_logstart sb0) with 2. destruct Hmt as (_ & Hb & _).
    rewrite Hb, <-view_block, (fn_low _ _ _ _ Hfn 2 ltac:(lia)). by vm_compute.
  - intros n Hn. by eapply image_used.
  - intros i a Ha n. destruct (image_file files _ _ s Hfn Hmt Hfit i a Ha) as (F1 & _ & F3 & F4). split_and!; try done.
    intros Hfirst. by eapply image_find.
Qed.

(** A file [_a] with three bytes. *)
Definition ex_args : list arg := [mkarg [95; 97] (Some [[1; 2]; [3]])].
Definition ex_image : arg := mkarg [102] (Some []).

Lemma ex_fits : mkfs_fits ex_args.
Proof.
  split; [|done..]. constructor; [|done]. split_and!; [set_solver|set_solver|by repeat constructor|by eexists|done].
Qed.

Lemma ex_partial : root_partial ex_args.
Proof. vm_compute. discriminate. Qed.

Lemma ex_first : first_name ex_args 0 (mkarg [95; 97] (Some [[1; 2]; [3]])).
Proof. split_and!; [done|done|]. intros j b Hj. lia. Qed.

Lemma mkfs_spec_witness :
  ∃ m, main (ex_image :: ex_image :: ex_args) mkfs0 = Ok tt m ∧
    ∀ s, mounts (img m) s → walk s ROOTINO [[97]] = Some 2 ∧ fbytes s (dinode s 2) 0 (i_size (dinode s 2)) = [1; 2; 3].
Proof.
  destruct (mkfs_spec ex_image ex_image ex_args) as (m & Hm & _ & H).
  - by eexists.
  - exact ex_fits.
  - exact ex_partial.
  - exists m. split; [exact Hm|]. clear Hm. intros s Hs. destruct (H s Hs) as (_ & _ & _ & _ & Hf).
    destruct (Hf 0%nat _ eq_refl) as (_ & _ & H1 & H2). split; [exact (H2 ex_first)|exact H1].
Defined.

Lemma elems_plain p : ∀ cur, (slash ∉ p) → elems cur p = flush (cur ++ p).
Proof.
  induction p as [|c p IH]; intros cur Hp; cbn [elems]; [by rewrite app_nil_r|].
  rewrite (proj2 (Z.eqb_neq c slash)) by (intros ->; apply Hp; left). rewrite IH by (intros H; apply Hp; by right).
  by rewrite <-app_assoc.
Qed.

Lemma strip_slash nm : (slash ∉ nm) → (slash ∉ strip nm).
Proof. unfold strip. destruct (_ =? _), nm as [|c nm]; try done. intros H H'. apply H. by right. Qed.

(** A locked inode is read as the one on the disk. *)
Lemma read_inode {dk : Disk} {dv : Devsw} meta q k s i ip ip' :
  txn q [] k s → 0 ≤ k → inode_at i ip' s → fs_ok meta s → file_ok meta s ip → same_inode ip ip' → i_type ip ≠ T_DEV →
  ∃ s', readi i 0 (i_size ip) s = Ok (i_size ip, fbytes s ip 0 (i_size ip)) s'.
Proof.
  intros Ht Hk Hat Hfs [[I1 I2 I3 I4] F S _ _] Hsm Hty.
  assert (Hf : i_type ip' = i_type ip ∧ i_size ip' = i_size ip ∧ i_addrs ip' = i_addrs ip ∧ i_dev ip' = i_dev ip) by (rewrite Hsm; done).
  destruct Hf as (F1 & F2 & F3 & F4). assert (Hs : ∀ k, slot s ip' k = slot s ip k) by (intros k'; unfold slot; by rewrite F3).
  assert (Hi : inode_ok meta s ip').
  { split; [by rewrite F3|by rewrite F4|..].
    - intros k' Hk'. rewrite Hs. by apply I3.
    - intros k1 k2 H1 H2. rewrite !Hs. by apply I4. }
  assert (Hfull : full s ip') by (intros bn Hbn; rewrite Hs; apply F; lia).
  destruct (readi_ok meta q k i ip' 0 (i_size ip) s Ht Hk Hat Hfs Hi Hfull) as (s' & Hr & _); rewrite ?F1, ?F2; try lia; try done.
  { unfold MAXFILE, BSIZE in *. lia. }
  exists s'. rewrite Hr, F2. unfold clipped. rewrite (proj2 (Z.ltb_ge _ _)) by lia. do 2 f_equal.
  apply fbytes_ext. intros o _. unfold fbyte, contents. by rewrite Hs.
Qed.

(** [C11] The files of the image, read by the kernel.  [mkfs] has made the image
    from files that can be read and fit, with a root directory that does not end
    exactly with a block.  On a kernel that mounts it, inside an operation and
    with room for two inodes in the cache, [namei] finds a file of the command
    line by its name in the root directory, if the name is not empty, no earlier
    file has it (cut to [DIRSIZ] characters, without a leading underscore) and it
    is neither [.] nor [..]; [ilock] locks it, and [readi] gives the contents it
    had on the host. *)
Theorem mkfs_read {dk : Disk} {dv : Devsw} prog image files :
  is_Some (a_open image) → mkfs_fits files → root_partial files →
  ∃ m, main (prog :: image :: files) mkfs0 = Ok tt m ∧
    ∀ q k s i a, mounts (img m) s → txn q [] k s → 0 ≤ k → icache_ok q [] s → (size (live s) + 2 ≤ length (icache s))%nat →
      files !! i = Some a → first_name files i a → host_name a ≠ [] →
      let n := Z.of_nat (length (host_data a)) in
      ∃ j s1 s2 s3, namei (slash :: host_name a) s = Ok (Some j) s1 ∧ ilock j s1 = Ok tt s2 ∧
        readi j 0 n s2 = Ok (n, host_data a) s3.
Proof.
  intros Himg Hfit Hpart. destruct (main_ok prog image files Himg Hfit Hpart) as (m & Hm & Hfn). exists m. split; [exact Hm|]. clear Hm.
  intros q k s i a Hmt Ht Hk Hic Hroom Ha Hfirst Hne n. pose proof (mt_fs_ok _ _ _ _ s Hfn Hmt) as Hfs.
  pose proof (image_tree_ok files _ _ s Hfn Hmt Hfit) as Htr. destruct (image_file files _ _ s Hfn Hmt Hfit i a Ha) as (F1 & F2 & F3 & F4).
  pose proof (Forall_lookup_1 _ _ _ _ (mf_args _ Hfit) Ha) as Hok. destruct (host_name_ok a Hok) as [H0 Hb].
  assert (Hel : elems [] (slash :: host_name a) = [host_name a]).
  { change (elems [] (slash :: host_name a)) with (elems [] (host_name a)). rewrite elems_plain by (apply strip_slash, Hok). by destruct (host_name a). }
  destruct (root_inode files _ _ s Hfn Hmt) as (Ht1 & _ & _).
  destruct (namex_ok nmeta q k false s (slash :: host_name a) ROOTINO name0 Ht Hk Hic Hfs Htr) as (r & nm & s1 & Hr & Hmv & Hres & _); try done.
  { rewrite (mt_sb _ _ _ _ s Hfn Hmt). done. }
  { change ROOTINO with 1. by rewrite Ht1. }
  { intros H. apply elem_of_cons in H as [H|H]; [done|by apply H0]. }
  { constructor; [done|done]. }
  { by apply Forall_replicate. }
  rewrite Hel in Hres. cbn [target] in Hres. rewrite (image_find files _ _ s i a Hfn Hmt Hfit Ha Hfirst) in Hres.
  destruct Hres as (Hic1 & j & -> & Href & _). set (num := Z.of_nat (S (S i))) in *.
  pose proof (fs_ok_moved nmeta q k s s1 Hmv Hfs) as Hfs1.
  assert (Hdn : dinode s1 num = dinode s num) by (by eapply dinode_moved).
  destruct (lock_step nmeta q k s1 j num (mv_txn _ _ _ _ Hmv) Hk Hic1 Hfs1 Href) as (ip & ip' & s2 & H2 & Hat & Hes & Hsm & _); [by rewrite Hdn, F1|].
  rewrite Hdn in Hsm. pose proof (moved_trans _ _ _ _ _ Hmv (es_moved _ _ _ _ _ _ _ Hes)) as Hm2.
  destruct (read_inode nmeta q k s2 j (dinode s num) ip' (mv_txn _ _ _ _ Hm2) Hk (entry_set_at _ _ _ _ _ _ _ _ Hes Hat)
              (fs_ok_moved nmeta q k s s2 Hm2 Hfs)) as (s3 & H3); [|exact Hsm|by rewrite F1|].
  { eapply file_ok_same; [exact F3|apply (nstep_sb _ _ (mv_step _ _ _ _ Hm2))|apply (mv_block _ _ _ _ Hm2)]. }
  assert (Hc : fbytes s2 (dinode s num) 0 (i_size (dinode s num)) = host_data a).
  { rewrite <-F4. apply fbytes_ext. intros o _. apply fbyte_same. apply (mv_block _ _ _ _ Hm2). }
  rewrite Hc, F2 in H3. exists j, s1, s2, s3. split; [unfold namei; by rewrite (bind_ok _ _ _ _ _ Hr)|]. split; [exact H2|exact H3].
Qed.

(** A kernel that has just mounted an image. *)
Definition boot_of (l : list (list Z)) (s : kernel) : kernel :=
  s <| sb := sb_of (default [] (l !! 1%nat)) |> <| icache := replicate 50 inode0 |>.
Definition booted (l : list (list Z)) : kernel := boot_of l (fs_kernel l small_log).

Lemma boot_of_facts l s :
  image_ok l → bc 7 [] (reverse (seq 0 NBUF)) s → alone 7 s → memdisk (kdisk s) = l → pinned s = ∅ →
  klog s = small_log → (∀ i, (i < NBUF)%nat → dev (nd (nodes s) i) = 0) →
  txn 7 [] 28 (boot_of l s) ∧ mounts l (boot_of l s).
Proof.
  intros [Hll Hlb] Hbc Ha Hd Hp Hl Hdev.
  assert (Hb : ∀ n, block (boot_of l s) n = default [] (l !! Z.to_nat n)).
  { intros n. change (block (boot_of l s) n) with (block s n). unfold block. rewrite (blk_none n); [by rewrite Hd|].
    apply (cached_none Hbc). intros i Hi Hd1. rewrite Hdev in Hd1 by done. done. }
  split.
  - split; change (klog (boot_of l s)) with (klog s); rewrite ?Hl; try done.
    + eexists. exact Hbc.
    + intros i Hi. by apply not_elem_of_nil in Hi.
    + change (pinned (boot_of l s)) with (pinned s). rewrite Hp. set_solver.
    + change (kdisk (boot_of l s)) with (kdisk s). rewrite Hd, Hll. done.
  - split_and!; [by rewrite Hb|done|]. change (kdisk (boot_of l s)) with (kdisk s). by rewrite Hd.
Qed.

Lemma booted_facts l : image_ok l → txn 7 [] 28 (booted l) ∧ mounts l (booted l) ∧ icache (booted l) = replicate 50 inode0.
Proof.
  intros Hl. destruct (fs_kernel_ok l small_log (proj2 Hl)) as (Hbc & Ha & Hd & Hp & Hk & Hdev). unfold booted.
  destruct (boot_of_facts l _ Hl Hbc Ha Hd Hp Hk Hdev) as [H1 H2]. split; [exact H1|]. split; [exact H2|].
  unfold boot_of. by destruct (fs_kernel l small_log).
Qed.

Lemma fresh_icache_ok q s : icache s = replicate 50 inode0 → icache_ok q [] s ∧ live s = ∅.
Proof.
  intros Hc. assert (Hat : ∀ i ip, inode_at i ip s → ip = inode0).
  { intros i ip Hi. unfold inode_at in Hi. rewrite Hc in Hi. by apply lookup_replicate in Hi as [-> _]. }
  split; [|unfold live; rewrite Hc; by vm_compute]. split.
  - intros i ip ->%Hat. split; simpl; try lia. by intros ?%not_elem_of_nil.
  - intros i j ip jp ->%Hat ->%Hat. simpl. lia.
Qed.

Lemma mkfs_read_witness :
  ∃ m j s1 s2 s3, main (ex_image :: ex_image :: ex_args) mkfs0 = Ok tt m ∧
    namei (dk := memide) (dv := Build_Devsw (λ _, None) (λ _, None)) [47; 97] (booted (img m)) = Ok (Some j) s1 ∧
    ilock (dk := memide) j s1 = Ok tt s2 ∧
    readi (dk := memide) (dv := Build_Devsw (λ _, None) (λ _, None)) j 0 3 s2 = Ok (3, [1; 2; 3]) s3.
Proof.
  destruct (mkfs_read (dk := memide) (dv := Build_Devsw (λ _, None) (λ _, None)) ex_image ex_image ex_args) as (m & Hm & H).
  - by eexists.
  - exact ex_fits.
  - exact ex_partial.
  - destruct (main_ok ex_image ex_image ex_args ltac:(by eexists) ex_fits ex_partial) as (m' & Hm' & Hfn).
    assert (E : m' = m). { rewrite Hm in Hm'. apply Ok_inj in Hm' as [_ ->]. reflexivity. }
    rewrite E in Hfn. clear Hm' E. pose proof (data_image _ _ _ _ (fn_data _ _ _ _ Hfn)) as Hi.
    destruct (booted_facts (img m) Hi) as (B1 & B2 & B3). destruct (fresh_icache_ok 7 _ B3) as [C1 C2].
    destruct (H 7 28 (booted (img m)) 0%nat (mkarg [95; 97] (Some [[1; 2]; [3]])) B2 B1 ltac:(lia) C1) as (j & s1 & s2 & s3 & H1 & H2 & H3).
    + rewrite C2, B3. apply Nat.leb_le. vm_compute. reflexivity.
    + reflexivity.
    + exact ex_first.
    + discriminate.
    + exists m, j, s1, s2, s3. split; [exact Hm|]. split; [exact H1|]. split; [exact H2|exact H3].
Defined.

(** ** Where mkfs goes wrong *)

Definition empty_files (n : nat) : list arg := replicate n (mkarg [97] (Some [])).
Definition image_of (files : list arg) : option (list (list Z)) :=
  match main (ex_image :: ex_image :: files) mkfs0 with Ok _ m => Some (img m) | _ => None end.

(** With 30 files the entries fill the first block of the root directory, and its
    size is rounded up to a second block, which it does not have. *)
Lemma mkfs_root_hole :
  (λ l, (i_size (dinode (view l) ROOTINO), slot (view l) (dinode (view l) ROOTINO) 1)) <$> image_of (empty_files 30) = Some (1024, 0).
Proof. vm_compute. reflexivity. Qed.

(** With 207 files there are no inodes for the last ones, and the inode of the
    last file, in the block of the bitmap, is lost when the bitmap is written. *)
Lemma mkfs_too_many_files :
  (λ l, let n := de_inum (dent (view l) (dinode (view l) ROOTINO) 208) in
        (n, i_type (ino n (din_of l n)), IBLOCK n sb0, sb_bmapstart sb0)) <$> image_of (empty_files 207) = Some (208, -1, 58, 58).
Proof. vm_compute. reflexivity. Qed.
