(* ===== verification/Consdev.v ===== *)
(** * The console as a device: consoleread, consolewrite and the device switch *)

From Stdlib Require Import Ascii String.
From S2P Require Import Prelude Kernel Sched Proc Waiting Screen Console Pipe Sleeplock Bio Log Fs.
Open Scope Z_scope.

Section Consdev.
Context {dk : Disk}.

(** [consoleread] from its exit on, with [n] of the [target] bytes missing. *)
Definition consoleread_end (ip : nat) (target n : Z) : KM (Z * list Z) :=
  release LkCons ;;
  ilock ip ;;
  ret (target - n, []).

(** [consoleread] with the lock held; the bytes are those read from here on
    ([*dst++]). *)
Fixpoint consoleread_from (fuel ip : nat) (target n : Z) : KM (Z * list Z) :=
  match fuel with
  | O => consoleread_end ip target n
  | S fuel' =>
      if n <=? 0 then consoleread_end ip target n else
      k ← getcons;
      if in_r k =? in_w k then
        kl ← is_killed;
        if (kl : bool) then release LkCons ;; ilock ip ;; ret (-1, [])
        else sleep ChInput LkCons
      else
        let c := in_at k (in_r k) in
        updcons (λ k, k <| in_r := u32 (in_r k + 1) |>) ;;
        if c =? C "D" then
          (if n <? target then updcons (λ k, k <| in_r := u32 (in_r k - 1) |>) else ret tt) ;;
          consoleread_end ip target n
        else
          '(r, l) ← (if c =? NL then consoleread_end ip target (n - 1)
                     else consoleread_from fuel' ip target (n - 1));
          ret (r, c :: l)
  end.

Definition consoleread (ip : nat) (n : Z) : KM (Z * list Z) :=
  iunlock ip ;;
  acquire LkCons ;;
  consoleread_from (Z.to_nat n) ip n n.

Definition consolewrite (ip : nat) (buf : list Z) (n : Z) : KM Z :=
  iunlock ip ;;
  acquire LkCons ;;
  for_each (take (Z.to_nat n) buf) (λ c, consputc (Z.land c 0xff)) ;;
  release LkCons ;;
  ilock ip ;;
  ret n.

(** [consoleinit] after the locks: the console is device [CONSOLE], the only one. *)
#[export] Instance console_devsw : Devsw := {
  dev_read m := if m =? CONSOLE then Some consoleread else None;
  dev_write m := if m =? CONSOLE then Some consolewrite else None }.

Definition consoleinit : KM unit := updcons (λ k, k <| cons_locking := true |>).
End Consdev.
