(* ===== verification/File.v ===== *)
(** * Open files: file.c and pipealloc of pipe.c

    A [struct file] pointer is an index in [ftable.file]. *)

From Stdlib Require Import Ascii String.
From S2P Require Import Prelude Kernel Cstring Kalloc Sched Proc Waiting Screen Console Pipe Sleeplock Bio Log Fs.
Open Scope Z_scope.

Definition getf (f : nat) : KM file := gets (λ s, default file0 (ftable s !! f)).
Definition updf (f : nat) (g : file → file) : KM unit := modify_state (λ s, s <| ftable ::= alter g f |>).

Definition filealloc : KM (option nat) :=
  acquire LkFtable ;;
  l ← gets ftable;
  match find_index (λ f, f_ref f =? 0) l with
  | Some f =>
      updf f (λ x, x <| f_ref := 1 |>) ;;
      release LkFtable ;;
      ret (Some f)
  | None =>
      release LkFtable ;;
      ret None
  end.

Definition filedup (f : nat) : KM nat :=
  acquire LkFtable ;;
  x ← getf f;
  if f_ref x <? 1 then panic "filedup" else
  updf f (λ x, x <| f_ref := f_ref x + 1 |>) ;;
  release LkFtable ;;
  ret f.

(** [*f] where the pointer cannot be null but for a defect; the kernel would
    fault. *)
Definition deref (o : option nat) : KM nat :=
  match o with Some i => ret i | None => panic "trap" end.

Section File.
Context {dk : Disk} {dv : Devsw}.

Definition fileclose (f : nat) : KM unit :=
  acquire LkFtable ;;
  x ← getf f;
  if f_ref x <? 1 then panic "fileclose" else
  updf f (λ x, x <| f_ref := f_ref x - 1 |>) ;;
  ff ← getf f;
  if 0 <? f_ref ff then release LkFtable
  else
    updf f (λ x, x <| f_ref := 0 |> <| f_type := FD_NONE |>) ;;
    release LkFtable ;;
    match f_type ff with
    | FD_PIPE => pipeclose (f_pipe ff) (negb (f_writable ff =? 0))
    | FD_INODE =>
        begin_op ;;
        ip ← deref (f_ip ff);
        iput ip ;;
        end_op
    | FD_NONE => ret tt
    end.

(** The value returned, and the [stat] if there is one. *)
Definition filestat (f : nat) : KM (Z * option stat) :=
  x ← getf f;
  match f_type x with
  | FD_INODE =>
      ip ← deref (f_ip x);
      ilock ip ;;
      st ← stati ip;
      iunlock ip ;;
      ret (0, Some st)
  | _ => ret (-1, None)
  end.

(** The value returned, and the bytes put at [addr]. *)
Definition fileread (f : nat) (n : Z) : KM (Z * list Z) :=
  x ← getf f;
  if f_readable x =? 0 then ret (-1, []) else
  match f_type x with
  | FD_PIPE => piperead (f_pipe x) n
  | FD_INODE =>
      ip ← deref (f_ip x);
      ilock ip ;;
      '(r, l) ← readi ip (f_off x) (u32 n);
      (if 0 <? r then updf f (λ x, x <| f_off := u32 (f_off x + r) |>) else ret tt) ;;
      iunlock ip ;;
      ret (r, l)
  | FD_NONE => panic "fileread"
  end.

(** The most [filewrite] puts in a transaction, in bytes. *)
Definition filewrite_max : Z := (MAXOPBLOCKS - 1 - 1 - 2) / 2 * 512.

(** The loop of [filewrite] when the bytes [src] are still to be written, [i] the
    number of those written; each turn writes [filewrite_max] bytes or the rest. *)
Fixpoint filewrite_loop (fuel f ip : nat) (src : list Z) (i n : Z) : KM Z :=
  match fuel with
  | O => panic "filewrite: out of fuel"
  | S fuel' =>
      if i <? n then
        let n1 := Z.min (n - i) filewrite_max in
        begin_op ;;
        ilock ip ;;
        x ← getf f;
        r ← writei ip (take (Z.to_nat n1) src) (f_off x) (u32 n1);
        (if 0 <? r then updf f (λ x, x <| f_off := u32 (f_off x + r) |>) else ret tt) ;;
        iunlock ip ;;
        end_op ;;
        if r <? 0 then ret i
        else if negb (r =? n1) then panic "short filewrite"
        else filewrite_loop fuel' f ip (drop (Z.to_nat n1) src) (i + r) n
      else ret i
  end.

Definition filewrite (f : nat) (src : list Z) (n : Z) : KM Z :=
  x ← getf f;
  if f_writable x =? 0 then ret (-1) else
  match f_type x with
  | FD_PIPE => pipewrite (f_pipe x) src n
  | FD_INODE =>
      ip ← deref (f_ip x);
      i ← filewrite_loop (S (Z.to_nat (n / filewrite_max + 1))) f ip src 0 n;
      ret (if i =? n then n else -1)
  | FD_NONE => panic "filewrite"
  end.

(** ** pipealloc *)

(** The file for one end of a pipe; the other fields stay. *)
Definition pipe_end (p : Z) (r w : Z) (f : file) : file :=
  f <| f_type := FD_PIPE |> <| f_readable := r |> <| f_writable := w |> <| f_pipe := p |>.

(** The bytes of a new pipe are whatever the page held; only its counters are
    set. *)
Definition page_pipe (m : memory) (a : Z) : pipe :=
  mkpipe ((λ i, m (a + 52 + Z.of_nat i)) <$> seq 0 (Z.to_nat PIPESIZE)) 0 0 1 1.

Definition pipealloc : KM (option (nat * nat)) :=
  f0 ← filealloc;
  match f0 with
  | None => ret None
  | Some f0 =>
      f1 ← filealloc;
      match f1 with
      | None => fileclose f0 ;; ret None
      | Some f1 =>
          p ← kalloc;
          if p =? 0 then fileclose f0 ;; fileclose f1 ;; ret None
          else
            m ← gets (λ s, bytes (kmem s));
            setpipe p (page_pipe m p) ;;
            updf f0 (pipe_end p 1 0) ;;
            updf f1 (pipe_end p 0 1) ;;
            ret (Some (f0, f1))
      end
  end.
End File.
