(* ===== verification/Fork.v ===== *)
(** * Making and ending processes: fork, exit and userinit of proc.c

    The parts of Proc.v with the open files and the current directory. *)

From Stdlib Require Import Ascii String.
From S2P Require Import Prelude Kernel Cstring Kalloc Vm Sched Proc Waiting Screen Console Pipe Sleeplock.
From S2P Require Import Bio Log Fs Dir File.
Open Scope Z_scope.

Definition SEG_UCODE : Z := 3.
Definition SEG_UDATA : Z := 4.
Definition DPL_USER : Z := 3.
Definition FL_IF : Z := 0x200.

Definition set_ofile (i k : nat) (f : option nat) : KM unit :=
  updp i (λ p, p <| ofile ::= <[k := f]> |>).

Section Fork.
Context {dk : Disk} {dv : Devsw}.

(** The loop of [fork] over the open files of [c]. *)
Definition fork_files (c : proc) (np : nat) : KM unit :=
  for_each (seq 0 NOFILE) (λ k,
    match ofile c !! k with
    | Some (Some f) =>
        g ← filedup f;
        set_ofile np k (Some g)
    | _ => ret tt
    end).

Definition fork : KM Z :=
  cur ← curproc;
  r ← allocproc;
  match r with
  | None => ret (-1)
  | Some np =>
      c ← getp cur;
      d ← copyuvm (pgdir c) (sz c);
      updp np (λ p, p <| pgdir := d |>) ;;
      if d =? 0 then fork_abort np ;; ret (-1)
      else
        updp np (λ p, p <| sz := sz c |> <| parent := Some cur |> <| tf := tf c |>) ;;
        updp np (λ p, p <| tf ::= λ t, t <| tf_eax := 0 |> |>) ;;
        fork_files c np ;;
        w ← deref (cwd c);
        w ← idup w;
        updp np (λ p, p <| cwd := Some w |>) ;;
        updp np (λ p, p <| name := safestrcpy (name p) (name c) 16 |>) ;;
        p ← getp np;
        publish np ;;
        ret (pid p)
  end.

(** The loop of [exit] over the open files. *)
Definition exit_files (cur : nat) : KM unit :=
  for_each (seq 0 NOFILE) (λ k,
    c ← getp cur;
    match ofile c !! k with
    | Some (Some f) => fileclose f ;; set_ofile cur k None
    | _ => ret tt
    end).

Definition exit : KM unit :=
  cur ← exit_enter;
  exit_files cur ;;
  begin_op ;;
  c ← getp cur;
  w ← deref (cwd c);
  iput w ;;
  end_op ;;
  updp cur (λ p, p <| cwd := None |>) ;;
  exit_table cur.

(** The trap frame with which the first process starts. *)
Definition init_tf : trapframe :=
  let ds := Z.lor (Z.shiftl SEG_UDATA 3) DPL_USER in
  tf0 <| tf_cs := Z.lor (Z.shiftl SEG_UCODE 3) DPL_USER |> <| tf_ds := ds |> <| tf_es := ds |>
      <| tf_ss := ds |> <| tf_eflags := FL_IF |> <| tf_esp := PGSIZE |> <| tf_eip := 0 |>.

Definition userinit : KM unit :=
  r ← allocproc;
  modify_state (λ s, s <| kproc ::= λ k, k <| initproc := r |> |>) ;;
  p ← deref r;
  d ← setupkvm;
  updp p (λ q, q <| pgdir := d |>) ;;
  if d =? 0 then panic "userinit: out of memory?" else
  v ← gets kvm;
  inituvm d (sym_initcode_start v) (sym_initcode_size v) ;;
  updp p (λ q, q <| sz := PGSIZE |> <| tf := init_tf |>) ;;
  updp p (λ q, q <| name := safestrcpy (name q) (str "initcode") 16 |>) ;;
  w ← namei (str "/");
  updp p (λ q, q <| cwd := w |>) ;;
  publish p.
End Fork.
