(* ===== verification/Syscall.v ===== *)
(** * System call arguments: the first half of syscall.c

    User memory as the kernel reads and writes it on behalf of the current
    process: through the page table in [%cr3]. *)

From Stdlib Require Import Ascii String.
From S2P Require Import Prelude Bytes Kernel Cstring Kalloc Vm Sched Proc.
Open Scope Z_scope.

(** ** User memory *)

(** The kernel address of the byte at user address [a]; an address that is not
    mapped faults, and a fault in the kernel ends in [panic("trap")]. *)
Definition user_addr (a : Z) : KM Z :=
  s ← gets id;
  match translate (bytes (kmem s)) (P2V (default 0 (cpu_cr3 (kcpu s) !! me (kcpu s)))) a with
  | Some ka => ret ka
  | None => panic "trap"
  end.

Definition uload (a : Z) : KM Z :=
  ka ← user_addr a;
  gets (λ s, bytes (kmem s) ka).

Definition ustore (a v : Z) : KM unit :=
  ka ← user_addr a;
  modify_state (λ s, s <| kmem ::= λ k, k <| bytes ::= store ka v |> |>).

(** The [n] bytes at [a]. *)
Fixpoint uloads (a : Z) (n : nat) : KM (list Z) :=
  match n with
  | O => ret []
  | S n' => c ← uload a; l ← uloads (a + 1) n'; ret (c :: l)
  end.

Fixpoint ustores (a : Z) (l : list Z) : KM unit :=
  match l with
  | [] => ret tt
  | c :: l' => ustore a c ;; ustores (a + 1) l'
  end.

(** ** Arguments

    A function that returns 0 or the length and sets [*ip] or [*pp] returns the
    value, and [None] where the code returns -1. *)

Definition fetchint (addr : Z) : KM (option Z) :=
  i ← curproc;
  p ← getp i;
  if (sz p <=? addr) || (sz p <? u32 (addr + 4)) then ret None else
  l ← uloads addr 4;
  ret (Some (s32 (le_val l))).

(** The loop of [fetchstr] over [n] bytes: the string, if a zero ends it. *)
Fixpoint fetchstr_loop (n : nat) (a : Z) : KM (option (list Z)) :=
  match n with
  | O => ret None
  | S n' =>
      c ← uload a;
      if c =? 0 then ret (Some [])
      else r ← fetchstr_loop n' (a + 1); ret (cons c <$> r)
  end.

(** [*pp] and the string there; the length returned is that of the string. *)
Definition fetchstr (addr : Z) : KM (option (Z * list Z)) :=
  i ← curproc;
  p ← getp i;
  if sz p <=? addr then ret None else
  r ← fetchstr_loop (Z.to_nat (sz p - addr)) addr;
  ret (pair addr <$> r).

Definition argint (n : Z) : KM (option Z) :=
  i ← curproc;
  p ← getp i;
  fetchint (u32 (tf_esp (tf p) + 4 + 4 * n)).

Definition argptr (n size : Z) : KM (option Z) :=
  c ← curproc;
  p ← getp c;
  i ← argint n;
  match i with
  | None => ret None
  | Some i =>
      if (size <? 0) || (sz p <=? u32 i) || (sz p <? u32 (u32 i + size)) then ret None
      else ret (Some (u32 i))
  end.

Definition argstr (n : Z) : KM (option (Z * list Z)) :=
  addr ← argint n;
  match addr with
  | None => ret None
  | Some addr => fetchstr (u32 addr)
  end.

(** ** Properties *)

(** Every address of the process below [n] is mapped. *)
Definition user_mapped (n : Z) (s : kernel) : Prop :=
  ∀ a, 0 ≤ a < n →
    is_Some (translate (bytes (kmem s)) (P2V (default 0 (cpu_cr3 (kcpu s) !! me (kcpu s)))) a).

(** The current process is [i], with the entry [p]. *)
Definition current (i : nat) (p : proc) (s : kernel) : Prop :=
  curproc s = Ok i s ∧ ptable (kproc s) !! i = Some p.

Lemma current_getp i p s : current i p s → getp i s = Ok p s.
Proof. intros [_ H]. unfold getp, gets. by rewrite H. Qed.

Lemma uload_ok n s a : user_mapped n s → 0 ≤ a < n → ∃ c, uload a s = Ok c s.
Proof.
  intros Hm Ha. destruct (Hm a Ha) as [ka Hka]. unfold uload, user_addr. munfold. cbn.
  rewrite Hka. by eexists.
Qed.

Lemma uloads_ok k : ∀ n s a, user_mapped n s → 0 ≤ a → a + Z.of_nat k ≤ n →
  ∃ l, uloads a k s = Ok l s ∧ length l = k.
Proof.
  induction k as [|k IH]; intros n s a Hm Ha Hk; [by exists []|]. cbn [uloads].
  destruct (uload_ok n s a Hm ltac:(lia)) as [c Hc]. rewrite (bind_ok _ _ _ _ _ Hc).
  destruct (IH n s (a + 1) Hm ltac:(lia) ltac:(lia)) as (l & Hl & Hlen). rewrite (bind_ok _ _ _ _ _ Hl).
  exists (c :: l). by rewrite <-Hlen.
Qed.

Lemma fetchint_ok s i p addr :
  current i p s → user_mapped (sz p) s → 0 ≤ sz p ≤ KERNBASE → is_u32 addr →
  ∃ r, fetchint addr s = Ok r s ∧ ∀ v, r = Some v → is_s32 v.
Proof.
  intros Hc Hm Hsz Ha. unfold fetchint. rewrite (bind_ok _ _ _ _ _ (proj1 Hc)).
  rewrite (bind_ok _ _ _ _ _ (current_getp _ _ _ Hc)).
  destruct (Z.leb_spec (sz p) addr); [by exists None|].
  destruct (Z.ltb_spec (sz p) (u32 (addr + 4))) as [|Hle]; [by exists None|]. cbn [orb].
  rewrite u32_small in Hle by (unfold is_u32, KERNBASE in *; lia).
  destruct (uloads_ok 4 (sz p) s addr Hm) as (l & Hl & _); [unfold is_u32 in Ha; lia|lia|].
  rewrite (bind_ok _ _ _ _ _ Hl). eexists. split; [done|]. intros v [= <-]. apply s32_range.
Qed.

Lemma argint_ok s i p n :
  current i p s → user_mapped (sz p) s → 0 ≤ sz p ≤ KERNBASE →
  ∃ r, argint n s = Ok r s ∧ ∀ v, r = Some v → is_s32 v.
Proof.
  intros Hc Hm Hsz. unfold argint. rewrite (bind_ok _ _ _ _ _ (proj1 Hc)).
  rewrite (bind_ok _ _ _ _ _ (current_getp _ _ _ Hc)).
  eapply fetchint_ok; [done..|apply u32_range].
Qed.

(** An argument is an [int]. *)
Lemma argint_s32 n s v s' : argint n s = Ok (Some v) s' → is_s32 v.
Proof.
  unfold argint. intros (i & s1 & _ & H)%bind_inv_ok. apply bind_inv_ok in H as (p & s2 & _ & H).
  unfold fetchint in H. apply bind_inv_ok in H as (i' & s3 & _ & H).
  apply bind_inv_ok in H as (p' & s4 & _ & H). destruct (_ || _); [done|].
  apply bind_inv_ok in H as (l & s5 & _ & H). injection H as <- <-. apply s32_range.
Qed.

Lemma argptr_ok s i p n size :
  current i p s → user_mapped (sz p) s → 0 ≤ sz p ≤ KERNBASE → is_s32 size →
  ∃ r, argptr n size s = Ok r s ∧ ∀ a, r = Some a → 0 ≤ a < sz p ∧ 0 ≤ size ∧ a + size ≤ sz p.
Proof.
  intros Hc Hm Hsz Hsize. unfold argptr. rewrite (bind_ok _ _ _ _ _ (proj1 Hc)).
  rewrite (bind_ok _ _ _ _ _ (current_getp _ _ _ Hc)).
  destruct (argint_ok s i p n Hc Hm Hsz) as (r & Hr & _). rewrite (bind_ok _ _ _ _ _ Hr).
  destruct r as [v|]; [|by exists None].
  destruct (Z.ltb_spec size 0); [by exists None|]. destruct (Z.leb_spec (sz p) (u32 v)); [by exists None|].
  destruct (Z.ltb_spec (sz p) (u32 (u32 v + size))) as [|Hle]; [by exists None|]. cbn [orb].
  exists (Some (u32 v)). split; [done|]. intros a [= <-]. pose proof (u32_range v) as Hv.
  rewrite u32_small in Hle; unfold is_u32, is_s32, KERNBASE in *; lia.
Qed.

Lemma fetchstr_loop_ok k : ∀ n s a,
  user_mapped n s → 0 ≤ a → a + Z.of_nat k ≤ n →
  ∃ r, fetchstr_loop k a s = Ok r s ∧
    ∀ l, r = Some l → (length l < k)%nat ∧ (0 ∉ l) ∧ uloads a (S (length l)) s = Ok (l ++ [0]) s.
Proof.
  induction k as [|k IH]; intros n s a Hm Ha Hk; [by exists None|]. cbn [fetchstr_loop].
  destruct (uload_ok n s a Hm ltac:(lia)) as [c Hc]. rewrite (bind_ok _ _ _ _ _ Hc).
  destruct (Z.eqb_spec c 0) as [->|Hnz].
  { exists (Some []). split; [done|]. intros l [= <-]. split_and!; [simpl; lia|apply not_elem_of_nil|].
    cbn [uloads length]. by rewrite (bind_ok _ _ _ _ _ Hc). }
  destruct (IH n s (a + 1) Hm ltac:(lia) ltac:(lia)) as (r & Hr & Hl). rewrite (bind_ok _ _ _ _ _ Hr).
  exists (cons c <$> r). split; [done|]. intros l Hrl.
  apply fmap_Some in Hrl as (l' & -> & ->). destruct (Hl l' eq_refl) as (Hlen & Hn0 & Hu).
  split_and!; [simpl; lia|set_solver|]. cbn [length].
  change (uloads a (S (S (length l')))) with (c ← uload a; l ← uloads (a + 1) (S (length l')); ret (c :: l)).
  rewrite (bind_ok _ _ _ _ _ Hc), (bind_ok _ _ _ _ _ Hu). done.
Qed.

Lemma argstr_ok s i p n :
  current i p s → user_mapped (sz p) s → 0 ≤ sz p ≤ KERNBASE →
  ∃ r, argstr n s = Ok r s ∧
    ∀ a l, r = Some (a, l) → 0 ≤ a ∧ a + Z.of_nat (length l) < sz p ∧ (0 ∉ l) ∧
      uloads a (S (length l)) s = Ok (l ++ [0]) s.
Proof.
  intros Hc Hm Hsz. unfold argstr.
  destruct (argint_ok s i p n Hc Hm Hsz) as (r & Hr & _). rewrite (bind_ok _ _ _ _ _ Hr).
  destruct r as [v|]; [|by exists None]. unfold fetchstr. rewrite (bind_ok _ _ _ _ _ (proj1 Hc)).
  rewrite (bind_ok _ _ _ _ _ (current_getp _ _ _ Hc)).
  destruct (Z.leb_spec (sz p) (u32 v)) as [|Hv]; [by exists None|]. pose proof (u32_range v) as [Hv0 _].
  destruct (fetchstr_loop_ok (Z.to_nat (sz p - u32 v)) (sz p) s (u32 v) Hm) as (r & Hr' & Hl); [lia..|].
  rewrite (bind_ok _ _ _ _ _ Hr'). exists (pair (u32 v) <$> r). split; [done|].
  intros a l Hal. apply fmap_Some in Hal as (l' & -> & [= -> ->]).
  destruct (Hl l' eq_refl) as (Hlen & Hn0 & Hu). split_and!; [done|lia|done|done].
Qed.

(** [C39] System call arguments are checked.  Whatever the process has put in its
    stack pointer and in its memory, fetching an argument neither faults nor
    changes anything, as long as the memory below [sz] is mapped (and [sz] is in
    the user half): [argint] gives an [int]; what [argptr] accepts as a block of
    [size] bytes lies below [sz], with no wrap-around at 2^32; what [argstr]
    accepts is a string that ends in a zero byte below [sz]. *)
Theorem arguments_in_bounds s i p n size :
  current i p s → user_mapped (sz p) s → 0 ≤ sz p ≤ KERNBASE → is_s32 size →
  (∃ r, argint n s = Ok r s ∧ ∀ v, r = Some v → is_s32 v) ∧
  (∃ r, argptr n size s = Ok r s ∧
     ∀ a, r = Some a → 0 ≤ a < sz p ∧ 0 ≤ size ∧ a + size ≤ sz p) ∧
  (∃ r, argstr n s = Ok r s ∧
     ∀ a l, r = Some (a, l) → 0 ≤ a ∧ a + Z.of_nat (length l) < sz p ∧ (0 ∉ l) ∧
       uloads a (S (length l)) s = Ok (l ++ [0]) s).
Proof.
  intros Hc Hm Hsz Hsize.
  split_and!; [by eapply argint_ok|by apply argptr_ok with i|by eapply argstr_ok].
Qed.

(** ** Witness *)

(** A process with one page of memory: the page directory, the page table and the
    page are three pages of the kernel; [ws] are words of user memory. *)
Definition u_pgdir : Z := KERNBASE + 0x400000.
Definition u_pt : Z := KERNBASE + 0x401000.
Definition u_page : Z := KERNBASE + 0x402000.
Definition user_memory (ws : list (Z * Z)) : memory :=
  foldr (λ w m, store32 (u_page + fst w) (snd w) m)
    (store32 u_pt (V2P u_page + 7) (store32 u_pgdir (V2P u_pt + 7) (λ _, 0))) ws.
Definition user_proc : proc :=
  proc0 <| state := RUNNING |> <| pid := 3 |> <| sz := PGSIZE |> <| pgdir := u_pgdir |>
        <| tf := tf0 <| tf_esp := 0x100 |> |>.
Definition user_kernel (ws : list (Z * Z)) : kernel :=
  kernel0 <| kproc ::= λ k, k <| ptable := [user_proc] |> |>
          <| kcpu ::= λ c, c <| cpu_proc := [Some 0%nat; None] |> <| cpu_cr3 := [V2P u_pgdir; 0] |> |>
          <| kmem ::= λ k, k <| bytes := user_memory ws |> |>.

Lemma user_kernel_current ws : current 0 user_proc (user_kernel ws).
Proof. split; reflexivity. Qed.

(** The tables of [user_kernel] map the page, when the words are in the page. *)
Lemma user_kernel_mapped ws :
  load32 u_pgdir (user_memory ws) = V2P u_pt + 7 → load32 u_pt (user_memory ws) = V2P u_page + 7 →
  user_mapped PGSIZE (user_kernel ws).
Proof.
  intros Hd Ht a Ha. unfold translate.
  assert (PDX a = 0) as -> by (unfold PDX; rewrite Z.shiftr_div_pow2 by lia; rewrite Z.div_small; [done|unfold PGSIZE in *; lia]).
  assert (PTX a = 0) as -> by (unfold PTX; rewrite Z.shiftr_div_pow2 by lia; rewrite Z.div_small; [done|unfold PGSIZE in *; lia]).
  change (bytes (kmem (user_kernel ws))) with (user_memory ws).
  change (P2V (default 0 (cpu_cr3 (kcpu (user_kernel ws)) !! me (kcpu (user_kernel ws))))) with u_pgdir.
  change (4 * 0) with 0. rewrite Z.add_0_r, Hd.
  change (is_set (V2P u_pt + 7) PTE_P) with true. cbv iota.
  change (P2V (PTE_ADDR (V2P u_pt + 7)) + 0) with u_pt. rewrite Ht.
  change (is_set (V2P u_page + 7) PTE_P) with true. by eexists.
Qed.

(** Evaluating an argument. *)
Definition tables_ok (ws : list (Z * Z)) : bool :=
  (load32 u_pgdir (user_memory ws) =? V2P u_pt + 7) && (load32 u_pt (user_memory ws) =? V2P u_page + 7).

Lemma user_argint ws n v :
  tables_ok ws = true →
  match argint n (user_kernel ws) with Ok r _ => r | _ => None end = Some v →
  argint n (user_kernel ws) = Ok (Some v) (user_kernel ws).
Proof.
  intros [Hd%Z.eqb_eq Ht%Z.eqb_eq]%andb_true_iff Hv.
  destruct (argint_ok (user_kernel ws) 0 user_proc n (user_kernel_current ws)
              (user_kernel_mapped ws Hd Ht)) as (r & Hr & _).
  { vm_compute. split; discriminate. }
  rewrite Hr in Hv |- *. by rewrite Hv.
Qed.

(** The stack holds a pointer to the string [ok] as argument 0. *)
Definition string_words : list (Z * Z) := [(0x104, 0x200); (0x200, 0x6b6f)].

Lemma arguments_in_bounds_witness :
  argstr 0 (user_kernel string_words) = Ok (Some (0x200, [0x6f; 0x6b])) (user_kernel string_words) ∧
  0x200 + 2 < PGSIZE.
Proof.
  destruct (arguments_in_bounds (user_kernel string_words) 0 user_proc 0 16) as (_ & _ & r & Hr & Hb).
  - exact (user_kernel_current _).
  - apply user_kernel_mapped; vm_compute; reflexivity.
  - vm_compute. split; discriminate.
  - vm_compute. split; congruence.
  - assert (Hv : r = Some (0x200, [0x6f; 0x6b])).
    { assert (E : match argstr 0 (user_kernel string_words) with Ok v _ => v | _ => None end
                  = Some (0x200, [0x6f; 0x6b])) by (vm_compute; reflexivity).
      rewrite Hr in E. exact E. }
    rewrite Hv in Hr. split; [exact Hr|]. exact (proj1 (proj2 (Hb _ _ Hv))).
Defined.
