(* ===== verification/Exec.v ===== *)
(** * Loading a program: exec.c, elf.h and loaduvm of vm.c *)

From Stdlib Require Import Ascii String.
From S2P Require Import Prelude Bytes Kernel Cstring Kalloc Vm Sched Proc Waiting Screen Console Sleeplock.
From S2P Require Import Bio Log Fs Dir.
Open Scope Z_scope.

(** ** ELF headers, as the bytes of the file *)

Definition ELF_MAGIC : Z := 0x464C457F.
Definition ELF_PROG_LOAD : Z := 1.
Definition ELFHDR : Z := 52.
Definition PROGHDR : Z := 32.

Definition elf_magic (e : list Z) : Z := get32 0 e.
Definition elf_entry (e : list Z) : Z := get32 24 e.
Definition elf_phoff (e : list Z) : Z := get32 28 e.
Definition elf_phnum (e : list Z) : Z := get16 44 e.

Definition ph_type (p : list Z) : Z := get32 0 p.
Definition ph_off (p : list Z) : Z := get32 4 p.
Definition ph_vaddr (p : list Z) : Z := get32 8 p.
Definition ph_filesz (p : list Z) : Z := get32 16 p.
Definition ph_memsz (p : list Z) : Z := get32 20 p.

(** Bytes written by the kernel at its own address [a]. *)
Definition store_bytes (a : Z) (l : list Z) (m : memory) : memory := λ x,
  if (a <=? x) && (x <? a + Z.of_nat (length l)) then nth (Z.to_nat (x - a)) l 0 else m x.
Definition kwrite (a : Z) (l : list Z) : KM unit :=
  modify_state (λ s, s <| kmem ::= λ k, k <| bytes ::= store_bytes a l |> |>).

(** [copyout] of the bytes [l], which the caller has outside of the memory
    [copyout] writes to. *)
Fixpoint copyout_bytes_loop (fuel : nat) (d va : Z) (l : list Z) : KM Z :=
  match fuel with
  | O => panic "copyout: out of fuel"
  | S fuel' =>
      match l with
      | [] => ret 0
      | _ =>
          let va0 := PGROUNDDOWN va in
          pa0 ← uva2ka d va0;
          if pa0 =? 0 then ret (-1)
          else
            let n := Z.to_nat (Z.min (PGSIZE - (va - va0)) (Z.of_nat (length l))) in
            kwrite (pa0 + (va - va0)) (take n l) ;;
            copyout_bytes_loop fuel' d (u32 (va0 + PGSIZE)) (drop n l)
      end
  end.
Definition copyout_bytes (d va : Z) (l : list Z) : KM Z :=
  copyout_bytes_loop (S (Z.to_nat (Z.of_nat (length l) / PGSIZE + 2))) d va l.

Section Exec.
Context {dk : Disk} {dv : Devsw}.

(** The loop of [loaduvm] at [i]. *)
Fixpoint loaduvm_loop (fuel : nat) (d addr : Z) (ip : nat) (offset size i : Z) : KM Z :=
  match fuel with
  | O => panic "loaduvm: out of fuel"
  | S fuel' =>
      if i <? size then
        pte ← walkpgdir d (u32 (addr + i)) false;
        if pte =? 0 then panic "loaduvm: address should exist" else
        e ← rd32 pte;
        let n := if size - i <? PGSIZE then size - i else PGSIZE in
        '(r, l) ← readi ip (u32 (offset + i)) n;
        kwrite (P2V (PTE_ADDR e)) l ;;
        if negb (u32 r =? n) then ret (-1)
        else loaduvm_loop fuel' d addr ip offset size (u32 (i + PGSIZE))
      else ret 0
  end.

Definition loaduvm (d addr : Z) (ip : nat) (offset size : Z) : KM Z :=
  if negb (addr mod PGSIZE =? 0) then panic "loaduvm: addr must be page aligned" else
  loaduvm_loop (S (Z.to_nat (size / PGSIZE + 1))) d addr ip offset size 0.

(** The label [bad], with [ip] locked and referenced if it is not null. *)
Definition exec_bad (d : Z) (ip : option nat) : KM Z :=
  (if d =? 0 then ret tt else freevm d) ;;
  match ip with
  | None => ret tt
  | Some i => iunlockput i ;; end_op
  end ;;
  ret (-1).

(** The loop over the [n] program headers at [off]: the size, or [None] for
    [goto bad]. *)
Fixpoint exec_load (n : nat) (d : Z) (ip : nat) (off size : Z) : KM (option Z) :=
  match n with
  | O => ret (Some size)
  | S n' =>
      let next := u32 (off + PROGHDR) in
      '(r, ph) ← readi ip off PROGHDR;
      if negb (r =? PROGHDR) then ret None
      else if negb (ph_type ph =? ELF_PROG_LOAD) then exec_load n' d ip next size
      else if ph_memsz ph <? ph_filesz ph then ret None
      else if u32 (ph_vaddr ph + ph_memsz ph) <? ph_vaddr ph then ret None
      else
        size ← allocuvm d size (u32 (ph_vaddr ph + ph_memsz ph));
        if size =? 0 then ret None
        else if negb (ph_vaddr ph mod PGSIZE =? 0) then ret None
        else
          l ← loaduvm d (ph_vaddr ph) ip (ph_off ph) (ph_filesz ph);
          if l <? 0 then ret None else exec_load n' d ip next size
  end.

(** The argument strings go on the stack, from [sp] down: the new [sp] and the
    addresses, or [None] for [goto bad]. *)
Fixpoint exec_args (argv : list (list Z)) (argc : nat) (d sp : Z) (us : list Z)
    : KM (option (Z * list Z)) :=
  match argv with
  | [] => ret (Some (sp, us))
  | a :: argv' =>
      if (MAXARG <=? argc)%nat then ret None else
      let sp := Z.land (u32 (sp - (Z.of_nat (length a) + 1))) (u32 (Z.lnot 3)) in
      r ← copyout_bytes d sp (a ++ [0]);
      if r <? 0 then ret None
      else exec_args argv' (S argc) d sp (us ++ [sp])
  end.

(** The words of [ustack]. *)
Definition exec_ustack (sp : Z) (us : list Z) : list Z :=
  let argc := Z.of_nat (length us) in
  0xffffffff :: argc :: u32 (sp - (argc + 1) * 4) :: us ++ [0].

(** The last element of the path. *)
Fixpoint path_last (s last : list Z) : list Z :=
  match s with
  | [] => last
  | c :: s' => path_last s' (if c =? slash then s' else last)
  end.

(** [exec] from [sz = PGROUNDUP(sz)] on: the stack and the commit. *)
Definition exec_stack (cur : nat) (path : list Z) (argv : list (list Z)) (entry d size : Z) : KM Z :=
  let size := PGROUNDUP size in
  size ← allocuvm d size (u32 (size + 2 * PGSIZE));
  if size =? 0 then exec_bad d None else
  clearpteu d (u32 (size - 2 * PGSIZE)) ;;
  r ← exec_args argv 0 d size [];
  match r with
  | None => exec_bad d None
  | Some (sp, us) =>
      let ustack := exec_ustack sp us in
      let sp := u32 (sp - 4 * Z.of_nat (length ustack)) in
      r ← copyout_bytes d sp (concat (le_bytes 4 <$> ustack));
      if r <? 0 then exec_bad d None else
      updp cur (λ p, p <| name := safestrcpy (name p) (path_last path path) 16 |>) ;;
      p ← getp cur;
      updp cur (λ p, p <| pgdir := d |> <| sz := size |>
                       <| tf ::= λ t, t <| tf_eip := entry |> <| tf_esp := sp |> |>) ;;
      switchuvm (Some cur) ;;
      freevm (pgdir p) ;;
      ret 0
  end.

Definition exec (path : list Z) (argv : list (list Z)) : KM Z :=
  cur ← curproc;
  begin_op ;;
  r ← namei path;
  match r with
  | None =>
      end_op ;;
      cprintf "exec: fail
" [] ;;
      ret (-1)
  | Some ip =>
      ilock ip ;;
      '(n, elf) ← readi ip 0 ELFHDR;
      if negb (n =? ELFHDR) then exec_bad 0 (Some ip)
      else if negb (elf_magic elf =? ELF_MAGIC) then exec_bad 0 (Some ip)
      else
        d ← setupkvm;
        if d =? 0 then exec_bad 0 (Some ip) else
        r ← exec_load (Z.to_nat (elf_phnum elf)) d ip (elf_phoff elf) 0;
        match r with
        | None => exec_bad d (Some ip)
        | Some size =>
            iunlockput ip ;;
            end_op ;;
            exec_stack cur path argv (elf_entry elf) d size
        end
  end.
End Exec.
