(* ===== verification/Sysfile.v ===== *)
(** * File system calls: sysfile.c

    A call returns the value the process gets; [let*] leaves a call with -1 when
    an argument is bad. *)

From Stdlib Require Import Ascii String.
From S2P Require Import Prelude Bytes Kernel Cstring Kalloc Vm Sched Proc Waiting Screen Console Pipe.
From S2P Require Import Sleeplock Bio Log Fs Dir File Fork Syscall Exec.
Open Scope Z_scope.

Definition O_RDONLY : Z := 0.
Definition O_WRONLY : Z := 1.
Definition O_RDWR : Z := 2.
Definition O_CREATE : Z := 0x200.

(** [if(m < 0) return -1;] for a function that sets an argument [x]. *)
Definition or_fail {A} (m : KM (option A)) (f : A → KM Z) : KM Z :=
  r ← m;
  match r with Some x => f x | None => ret (-1) end.
Notation "'let*' x := m 'in' k" := (or_fail m (λ x, k))
  (at level 10, x pattern, m at level 100, k at level 200, only parsing) : kernel_scope.

(** ** Descriptors *)

Definition argfd (n : Z) : KM (option (nat * nat)) :=
  fd ← argint n;
  match fd with
  | None => ret None
  | Some fd =>
      if (fd <? 0) || (Z.of_nat NOFILE <=? fd) then ret None else
      i ← curproc;
      p ← getp i;
      match ofile p !! Z.to_nat fd with
      | Some (Some f) => ret (Some (Z.to_nat fd, f))
      | _ => ret None
      end
  end.

Definition fdalloc (f : nat) : KM (option nat) :=
  i ← curproc;
  p ← getp i;
  match find_index (λ o, bool_decide (o = None)) (ofile p) with
  | Some fd => set_ofile i fd (Some f) ;; ret (Some fd)
  | None => ret None
  end.

Definition sys_dup : KM Z :=
  let* (_, f) := argfd 0 in
  let* fd := fdalloc f in
  filedup f ;;
  ret (Z.of_nat fd).

Section Sysfile.
Context {dk : Disk} {dv : Devsw}.

Definition sys_read : KM Z :=
  let* (_, f) := argfd 0 in
  let* n := argint 2 in
  let* p := argptr 1 n in
  '(r, l) ← fileread f n;
  ustores p l ;;
  ret r.

Definition sys_write : KM Z :=
  let* (_, f) := argfd 0 in
  let* n := argint 2 in
  let* p := argptr 1 n in
  src ← uloads p (Z.to_nat n);
  filewrite f src n.

Definition sys_close : KM Z :=
  let* (fd, f) := argfd 0 in
  i ← curproc;
  set_ofile i fd None ;;
  fileclose f ;;
  ret 0.

(** [struct stat] in user memory: 20 bytes. *)
Definition SIZEOF_STAT : Z := 20.
Definition ustore_stat (a : Z) (st : stat) : KM unit :=
  ustores a (le_bytes 2 (st_type st)) ;;
  ustores (a + 4) (le_bytes 4 (st_dev st)) ;;
  ustores (a + 8) (le_bytes 4 (st_ino st)) ;;
  ustores (a + 12) (le_bytes 2 (st_nlink st)) ;;
  ustores (a + 16) (le_bytes 4 (st_size st)).

Definition sys_fstat : KM Z :=
  let* (_, f) := argfd 0 in
  let* a := argptr 1 SIZEOF_STAT in
  '(r, st) ← filestat f;
  match st with
  | Some st => ustore_stat a st
  | None => ret tt
  end ;;
  ret r.

(** ** Links *)

Definition add_nlink (i : nat) (n : Z) : KM unit := updi i (λ ip, ip <| i_nlink := s16 (i_nlink ip + n) |>).

(** The label [bad] of [sys_link]. *)
Definition link_bad (ip : nat) : KM Z :=
  ilock ip ;;
  add_nlink ip (-1) ;;
  iupdate ip ;;
  iunlockput ip ;;
  end_op ;;
  ret (-1).

Definition sys_link : KM Z :=
  let* (_, old) := argstr 0 in
  let* (_, new) := argstr 1 in
  begin_op ;;
  r ← namei old;
  match r with
  | None => end_op ;; ret (-1)
  | Some ip =>
      ilock ip ;;
      x ← geti ip;
      if i_type x =? T_DIR then iunlockput ip ;; end_op ;; ret (-1) else
      add_nlink ip 1 ;;
      iupdate ip ;;
      iunlock ip ;;
      '(r, name) ← nameiparent new;
      match r with
      | None => link_bad ip
      | Some dp =>
          ilock dp ;;
          y ← geti dp;
          x ← geti ip;
          l ← (if negb (i_dev y =? i_dev x) then ret (-1) else dirlink dp name (i_inum x));
          if l <? 0 then iunlockput dp ;; link_bad ip
          else
            iunlockput dp ;;
            iput ip ;;
            end_op ;;
            ret 0
      end
  end.

(** The entries of a directory from [offs] on are free. *)
Fixpoint isdirempty_loop (dp : nat) (offs : list Z) : KM bool :=
  match offs with
  | [] => ret true
  | off :: offs' =>
      de ← read_dirent dp off "isdirempty: readi";
      if negb (de_inum de =? 0) then ret false else isdirempty_loop dp offs'
  end.
Definition isdirempty (dp : nat) : KM bool :=
  x ← geti dp;
  isdirempty_loop dp (dir_offs (2 * DIRENT) (i_size x)).

(** The label [bad] of [sys_unlink]. *)
Definition unlink_bad (dp : nat) : KM Z :=
  iunlockput dp ;;
  end_op ;;
  ret (-1).

(** [sys_unlink] of the entry at [off] of [dp], which is the inode [ip]. *)
Definition unlink_entry (dp ip : nat) (off : Z) : KM Z :=
  ilock ip ;;
  x ← geti ip;
  if i_nlink x <? 1 then panic "unlink: nlink < 1" else
  full ← (if i_type x =? T_DIR then e ← isdirempty ip; ret (negb e) else ret false);
  if (full : bool) then iunlockput ip ;; unlink_bad dp else
  w ← writei dp (replicate (Z.to_nat DIRENT) 0) off DIRENT;
  if negb (w =? DIRENT) then panic "unlink: writei" else
  (if i_type x =? T_DIR then add_nlink dp (-1) ;; iupdate dp else ret tt) ;;
  iunlockput dp ;;
  add_nlink ip (-1) ;;
  iupdate ip ;;
  iunlockput ip ;;
  end_op ;;
  ret 0.

Definition sys_unlink : KM Z :=
  let* (_, path) := argstr 0 in
  begin_op ;;
  '(r, name) ← nameiparent path;
  match r with
  | None => end_op ;; ret (-1)
  | Some dp =>
      ilock dp ;;
      if (namecmp name (str ".") =? 0) || (namecmp name (str "..") =? 0) then unlink_bad dp else
      r ← dirlookup dp name;
      match r with
      | None => unlink_bad dp
      | Some (ip, off) => unlink_entry dp ip off
      end
  end.

(** ** Files *)

(** [create] when [name] is not in [dp] yet. *)
Definition create_new (dp : nat) (name : list Z) (type major minor : Z) : KM nat :=
  d ← geti dp;
  ip ← ialloc (i_dev d) type;
  ilock ip ;;
  updi ip (λ x, x <| i_major := major |> <| i_minor := minor |> <| i_nlink := 1 |>) ;;
  iupdate ip ;;
  x ← geti ip;
  (if type =? T_DIR then
     add_nlink dp 1 ;;
     iupdate dp ;;
     r ← dirlink ip (str ".") (i_inum x);
     r ← (if r <? 0 then ret r else dirlink ip (str "..") (i_inum d));
     if r <? 0 then panic "create dots" else ret tt
   else ret tt) ;;
  r ← dirlink dp name (i_inum x);
  if r <? 0 then panic "create: dirlink" else
  iunlockput dp ;;
  ret ip.

(** The inode made or found, locked. *)
Definition create (path : list Z) (type major minor : Z) : KM (option nat) :=
  '(r, name) ← nameiparent path;
  match r with
  | None => ret None
  | Some dp =>
      ilock dp ;;
      r ← dirlookup dp name;
      match r with
      | Some (ip, _) =>
          iunlockput dp ;;
          ilock ip ;;
          x ← geti ip;
          if (type =? T_FILE) && (i_type x =? T_FILE) then ret (Some ip)
          else iunlockput ip ;; ret None
      | None => ip ← create_new dp name type major minor; ret (Some ip)
      end
  end.

Definition has (flags m : Z) : bool := negb (Z.land flags m =? 0).

(** The inode [sys_open] opens, locked. *)
Definition open_inode (path : list Z) (omode : Z) : KM (option nat) :=
  if has omode O_CREATE then create path T_FILE 0 0
  else
    r ← namei path;
    match r with
    | None => ret None
    | Some ip =>
        ilock ip ;;
        x ← geti ip;
        if (i_type x =? T_DIR) && negb (omode =? O_RDONLY) then iunlockput ip ;; ret None
        else ret (Some ip)
    end.

Definition b2z (b : bool) : Z := if b then 1 else 0.

(** The failure of [filealloc] or [fdalloc] in [sys_open]. *)
Definition open_bad (ip : nat) : KM Z :=
  iunlockput ip ;;
  end_op ;;
  ret (-1).

Definition sys_open : KM Z :=
  let* (_, path) := argstr 0 in
  let* omode := argint 1 in
  begin_op ;;
  r ← open_inode path omode;
  match r with
  | None => end_op ;; ret (-1)
  | Some ip =>
      r ← filealloc;
      match r with
      | None => open_bad ip
      | Some f =>
          r ← fdalloc f;
          match r with
          | None => fileclose f ;; open_bad ip
          | Some fd =>
              iunlock ip ;;
              end_op ;;
              updf f (λ x, x <| f_type := FD_INODE |> <| f_ip := Some ip |> <| f_off := 0 |>
                             <| f_readable := b2z (negb (has omode O_WRONLY)) |>
                             <| f_writable := b2z (has omode O_WRONLY || has omode O_RDWR) |>) ;;
              ret (Z.of_nat fd)
          end
      end
  end.

(** The end of [sys_mkdir] and [sys_mknod]. *)
Definition made (r : option nat) : KM Z :=
  match r with
  | None => end_op ;; ret (-1)
  | Some ip => iunlockput ip ;; end_op ;; ret 0
  end.

Definition sys_mkdir : KM Z :=
  begin_op ;;
  a ← argstr 0;
  r ← match a with
      | None => ret None
      | Some (_, path) => create path T_DIR 0 0
      end;
  made r.

Definition sys_mknod : KM Z :=
  begin_op ;;
  a ← argstr 0;
  r ← match a with
      | None => ret None
      | Some (_, path) =>
          major ← argint 1;
          match major with
          | None => ret None
          | Some major =>
              minor ← argint 2;
              match minor with
              | None => ret None
              | Some minor => create path T_DEV (s16 major) (s16 minor)
              end
          end
      end;
  made r.

Definition sys_chdir : KM Z :=
  cur ← curproc;
  begin_op ;;
  a ← argstr 0;
  r ← match a with
      | None => ret None
      | Some (_, path) => namei path
      end;
  match r with
  | None => end_op ;; ret (-1)
  | Some ip =>
      ilock ip ;;
      x ← geti ip;
      if negb (i_type x =? T_DIR) then iunlockput ip ;; end_op ;; ret (-1) else
      iunlock ip ;;
      p ← getp cur;
      w ← deref (cwd p);
      iput w ;;
      end_op ;;
      updp cur (λ p, p <| cwd := Some ip |>) ;;
      ret 0
  end.

(** The argument vector of [sys_exec] at [uargv], [n] entries at most. *)
Fixpoint exec_argv (n : nat) (uargv : Z) : KM (option (list (list Z))) :=
  match n with
  | O => ret None
  | S n' =>
      uarg ← fetchint uargv;
      match uarg with
      | None => ret None
      | Some uarg =>
          if uarg =? 0 then ret (Some []) else
          r ← fetchstr (u32 uarg);
          match r with
          | None => ret None
          | Some (_, a) =>
              l ← exec_argv n' (u32 (uargv + 4));
              ret (cons a <$> l)
          end
      end
  end.

Definition sys_exec : KM Z :=
  let* (_, path) := argstr 0 in
  let* uargv := argint 1 in
  let* argv := exec_argv MAXARG (u32 uargv) in
  exec path argv.

Definition sys_pipe : KM Z :=
  let* a := argptr 0 8 in
  let* (rf, wf) := pipealloc in
  i ← curproc;
  r0 ← fdalloc rf;
  match r0 with
  | None => fileclose rf ;; fileclose wf ;; ret (-1)
  | Some fd0 =>
      r1 ← fdalloc wf;
      match r1 with
      | None => set_ofile i fd0 None ;; fileclose rf ;; fileclose wf ;; ret (-1)
      | Some fd1 =>
          ustores a (le_bytes 4 (Z.of_nat fd0)) ;;
          ustores (a + 4) (le_bytes 4 (Z.of_nat fd1)) ;;
          ret 0
      end
  end.

(** The loop of [sys_copy_file] at [off] of both files; it tells whether the copy
    is complete or [writei] failed. *)
Fixpoint copy_loop (fuel src dest : nat) (off : Z) : KM bool :=
  match fuel with
  | O => panic "sys_copy_file: out of fuel"
  | S fuel' =>
      x ← geti src;
      if off <? i_size x then
        '(n, l) ← readi src off 512;
        if n <=? 0 then ret true else
        w ← writei dest l off n;
        if negb (w =? n) then ret false
        else copy_loop fuel' src dest (u32 (off + n))
      else ret true
  end.

Definition sys_copy_file : KM Z :=
  let* (_, src) := argstr 0 in
  let* (_, dest) := argstr 1 in
  begin_op ;;
  r ← namei src;
  match r with
  | None => end_op ;; ret (-1)
  | Some ip_src =>
      ilock ip_src ;;
      x ← geti ip_src;
      if negb (i_type x =? T_FILE) then iunlockput ip_src ;; end_op ;; ret (-1) else
      r ← create dest T_FILE 0 0;
      match r with
      | None => iunlockput ip_src ;; end_op ;; ret (-1)
      | Some ip_dest =>
          ok ← copy_loop (Z.to_nat (i_size x / 512) + 2) ip_src ip_dest 0;
          iunlockput ip_src ;;
          iunlockput ip_dest ;;
          end_op ;;
          ret (if (ok : bool) then 0 else -1)
      end
  end.
End Sysfile.
