(* ===== verification/Sysproc.v ===== *)
(** * Process system calls and the dispatch: sysproc.c and syscall of syscall.c *)

From Stdlib Require Import Ascii String.
From S2P Require Import Prelude Bytes Kernel Cstring Kalloc Vm Sched Proc Waiting Screen Console Pipe.
From S2P Require Import Sleeplock Bio Log Fs Dir File Fork Syscall Exec Sysfile.
Open Scope Z_scope.

(** A newline in a message. *)
Definition nl : string := String "010" EmptyString.
Definition tab : string := String "009" EmptyString.

Definition sys_wait : KM Z := wait.

Definition sys_kill : KM Z :=
  let* pid' := argint 0 in
  kill pid'.

Definition sys_getpid : KM Z :=
  i ← curproc;
  p ← getp i;
  ret (pid p).

Definition sys_sbrk : KM Z :=
  let* n := argint 0 in
  i ← curproc;
  p ← getp i;
  let addr := s32 (sz p) in
  r ← growproc n;
  if r <? 0 then ret (-1) else ret addr.

(** [sys_sleep] from the test of its loop on; [n] is converted to [uint]. *)
Definition sys_sleep_from (ticks0 n : Z) : KM Z :=
  t ← get_ticks;
  if u32 (t - ticks0) <? u32 n then
    k ← is_killed;
    if (k : bool) then release LkTicks ;; ret (-1)
    else sleep ChTicks LkTicks
  else
    release LkTicks ;;
    ret 0.

Definition sys_sleep : KM Z :=
  let* n := argint 0 in
  acquire LkTicks ;;
  ticks0 ← get_ticks;
  sys_sleep_from ticks0 n.

(** [ticks], read under its lock. *)
Definition read_ticks : KM Z :=
  acquire LkTicks ;;
  t ← get_ticks;
  release LkTicks ;;
  ret t.

Definition sys_uptime : KM Z :=
  t ← read_ticks;
  ret (s32 t).

(** The loop of [sys_find_digit_root]. *)
Fixpoint digit_root_loop (fuel : nat) (num root : Z) : option Z :=
  match fuel with
  | O => None
  | S fuel' =>
      if (0 <? num) || (9 <? root) then
        let '(num, root) := if num =? 0 then (root, 0) else (num, root) in
        digit_root_loop fuel' (num / 10) (root + num mod 10)
      else Some root
  end.

(** Thirty turns are enough for any [int]: ten for its digits, whose sum has two. *)
Definition sys_find_digit_root : KM Z :=
  let* num := argint 0 in
  match digit_root_loop 30 num 0 with
  | Some r => ret r
  | None => panic "sys_find_digit_root: out of fuel"
  end.

Definition sys_get_uncle_count : KM Z :=
  let* pid' := argint 0 in
  get_uncle_count pid'.

Definition sys_get_process_lifetime : KM Z :=
  let* pid' := argint 0 in
  acquire LkPtable ;;
  l ← gets (λ s, ptable (kproc s));
  match find_index (λ p, bool_decide (state p ≠ UNUSED) && (pid p =? pid')) l with
  | Some i =>
      p ← getp i;
      t ← read_ticks;
      release LkPtable ;;
      ret (s32 (t - createtime p))
  | None =>
      release LkPtable ;;
      ret (-1)
  end.

Definition sys_getnumsyscalls : KM Z :=
  i ← curproc;
  p ← getp i;
  ret (s32 (syscall_count p)).

Definition sys_getnumsyscallsgood : KM Z :=
  i ← curproc;
  p ← getp i;
  ret (s32 (good_syscall_count p)).

Definition sys_waitx : KM Z :=
  let* wtime := argptr 0 4 in
  let* rtime := argptr 1 4 in
  '(r, x) ← waitx;
  match x with
  | Some (w, t) => ustores wtime (le_bytes 4 w) ;; ustores rtime (le_bytes 4 t)
  | None => ret tt
  end ;;
  ret r.

Definition sys_set_priority : KM Z :=
  let* new_priority := argint 0 in
  i ← curproc;
  updp i (λ p, p <| priority := new_priority |>) ;;
  ret 0.

Definition ps_state (st : procstate) : string :=
  match st with
  | UNUSED => "UNUSED  " | EMBRYO => "EMBRYO  " | SLEEPING => "SLEEPING" | RUNNABLE => "RUNNABLE"
  | RUNNING => "RUNNING " | ZOMBIE => "ZOMBIE  "
  end.

Definition ps_format : string :=
  "%d" ++ tab ++ "%s" ++ tab ++ "%d" ++ tab ++ tab ++ "%d" ++ tab ++ "%d" ++ tab ++ "%s" ++ nl.

Definition sys_ps : KM Z :=
  cprintf ("PID" ++ tab ++ "STATE" ++ tab ++ tab ++ "PRIORITY" ++ tab ++ "RUNTIME" ++ tab ++ "BURST"
             ++ tab ++ "NAME" ++ nl) [] ;;
  cprintf ("--------------------------------------------------" ++ nl) [] ;;
  acquire LkPtable ;;
  for_each (seq 0 NPROC) (λ i,
    p ← getp i;
    if bool_decide (state p = UNUSED) then ret tt else
    cprintf ps_format [CInt (pid p); CStr (Some (str (ps_state (state p)))); CInt (priority p);
                       CInt (runtime p); CInt (estimated_burst p); CStr (Some (cstring (name p)))]) ;;
  release LkPtable ;;
  ret 0.

Definition sys_setschedpolicy : KM Z :=
  let* policy := argint 0 in
  if (policy <? SCHED_FCFS) || (SCHED_RR <? policy) then ret (-1) else
  acquire LkPtable ;;
  modify_state (λ s, s <| kproc ::= λ k, k <| current_scheduler := policy |> |>) ;;
  release LkPtable ;;
  cprintf ("Scheduler policy changed to %d" ++ nl) [CInt policy] ;;
  ret 0.

Definition sys_set_burst_estimate : KM Z :=
  let* burst := argint 0 in
  if burst <? 0 then ret (-1) else
  i ← curproc;
  updp i (λ p, p <| estimated_burst := burst |>) ;;
  ret 0.

Definition sys_yield : KM Z :=
  yield ;;
  ret 0.

Section Sysproc.
Context {dk : Disk} {dv : Devsw}.

Definition sys_fork : KM Z := fork.

Definition sys_exit : KM Z :=
  exit ;;
  ret 0.

(** The branch of [sys_test_rr] for [pid == 0]; the [yield] of the inner loop is
    at each multiple of 10000000 below 100000000. *)
Definition test_rr_child (child_id : Z) : KM unit :=
  for_each (seq 0 10) (λ j,
    for_each (seq 0 10) (λ _, yield) ;;
    cprintf ("Process %d: completed iteration %d/%d" ++ nl)
            [CInt child_id; CInt (Z.of_nat j + 1); CInt 10]) ;;
  cprintf ("Process %d: FINISHED" ++ nl) [CInt child_id] ;;
  exit.

(** The loop that makes the processes [i], [i + 1], ...; it tells whether a
    [fork] failed. *)
Fixpoint test_rr_forks (n : nat) (i : Z) : KM bool :=
  match n with
  | O => ret true
  | S n' =>
      pid' ← fork;
      if pid' <? 0 then
        cprintf ("Fork failed in test_rr system call" ++ nl) [] ;;
        ret false
      else
        (if pid' =? 0 then test_rr_child (i + 1) else ret tt) ;;
        test_rr_forks n' (i + 1)
  end.

Definition sys_test_rr : KM Z :=
  a ← argint 0;
  let n := Z.max 1 (Z.min 8 (default 3 a)) in
  cprintf (nl ++ "=== ROUND ROBIN SCHEDULING TEST ===" ++ nl) [] ;;
  cprintf ("Creating %d CPU-intensive processes" ++ nl) [CInt n] ;;
  cprintf ("Each process will report its progress periodically" ++ nl) [] ;;
  cprintf ("You should observe interleaved execution if RR is working" ++ nl ++ nl) [] ;;
  start_time ← read_ticks;
  ok ← test_rr_forks (Z.to_nat n) 0;
  if negb ok then ret (-1) else
  for_each (seq 0 (Z.to_nat n)) (λ _, _ ← wait; ret tt) ;;
  now ← read_ticks;
  let elapsed := s32 (now - start_time) in
  cprintf (nl ++ "=== TEST COMPLETE ===" ++ nl) [] ;;
  cprintf ("All processes completed in %d timer ticks" ++ nl) [CInt elapsed] ;;
  cprintf ("If you observed interleaved outputs from different processes," ++ nl) [] ;;
  cprintf ("then Round Robin scheduling is working correctly." ++ nl) [] ;;
  ret 0.

(** ** The dispatch *)

Definition syscalls (num : Z) : option (KM Z) :=
  match num with
  | 1 => Some sys_fork | 2 => Some sys_exit | 3 => Some sys_wait | 4 => Some sys_pipe
  | 5 => Some sys_read | 6 => Some sys_kill | 7 => Some sys_exec | 8 => Some sys_fstat
  | 9 => Some sys_chdir | 10 => Some sys_dup | 11 => Some sys_getpid | 12 => Some sys_sbrk
  | 13 => Some sys_sleep | 14 => Some sys_uptime | 15 => Some sys_open | 16 => Some sys_write
  | 17 => Some sys_mknod | 18 => Some sys_unlink | 19 => Some sys_link | 20 => Some sys_mkdir
  | 21 => Some sys_close | 22 => Some sys_find_digit_root | 23 => Some sys_copy_file
  | 24 => Some sys_get_uncle_count | 25 => Some sys_get_process_lifetime
  | 26 => Some sys_getnumsyscalls | 27 => Some sys_getnumsyscallsgood | 28 => Some sys_waitx
  | 29 => Some sys_set_priority | 30 => Some sys_ps | 31 => Some sys_test_rr
  | 32 => Some sys_setschedpolicy | 33 => Some sys_set_burst_estimate | 34 => Some sys_yield
  | _ => None
  end.

Definition set_eax (i : nat) (v : Z) : KM unit :=
  updp i (λ p, p <| tf ::= λ t, t <| tf_eax := u32 v |> |>).

Definition syscall : KM unit :=
  i ← curproc;
  p ← getp i;
  let num := s32 (tf_eax (tf p)) in
  match syscalls num with
  | Some f =>
      (if 0 <? pid p then updp i (λ p, p <| syscall_count := u32 (syscall_count p + 1) |>) else ret tt) ;;
      r ← f;
      q ← getp i;
      (if (0 <=? r) && (0 <? pid q)
       then updp i (λ p, p <| good_syscall_count := u32 (good_syscall_count p + 1) |>) else ret tt) ;;
      set_eax i r
  | None =>
      cprintf ("%d %s: unknown sys call %d" ++ nl)
              [CInt (pid p); CStr (Some (cstring (name p))); CInt num] ;;
      set_eax i (-1)
  end.
End Sysproc.

#[local] Opaque acquire release.

(** ** The digit root *)

(** The digit root of a number that is not negative, in closed form. *)
Definition digit_root (n : Z) : Z := if n <=? 0 then 0 else 1 + (n - 1) mod 9.

Lemma digit_root_more f : ∀ num root r,
  digit_root_loop f num root = Some r → digit_root_loop (S f) num root = Some r.
Proof.
  induction f as [|f IH]; intros num root r H; [done|]. cbn [digit_root_loop] in H |- *.
  destruct (_ || _); [|done]. destruct (if num =? 0 then _ else _) as [n' r']. by apply IH.
Qed.

(** Sums of up to ten digits, by enumeration. *)
Lemma digit_root_small root : 0 ≤ root ≤ 90 → digit_root_loop 20 0 root = Some (digit_root root).
Proof.
  intros H.
  assert (Hall : forallb (λ k, bool_decide (digit_root_loop 20 0 (Z.of_nat k) = Some (digit_root (Z.of_nat k))))
                   (seq 0 91) = true) by (vm_compute; reflexivity).
  rewrite forallb_forall in Hall. specialize (Hall (Z.to_nat root) ltac:(apply in_seq; lia)).
  apply bool_decide_eq_true in Hall. by rewrite Z2Nat.id in Hall by lia.
Qed.

Lemma digit_root_loop_ok k : ∀ num root,
  0 ≤ num < 10 ^ Z.of_nat k → 0 ≤ root ≤ 90 - 9 * Z.of_nat k →
  digit_root_loop (k + 20) num root = Some (digit_root (num + root)).
Proof.
  induction k as [|k IH]; intros num root Hn Hr.
  { replace num with 0 by lia. apply digit_root_small. lia. }
  destruct (decide (num = 0)) as [->|Hnz].
  { change (S k + 20)%nat with (S (k + 20)). apply digit_root_more, IH; lia. }
  change (S k + 20)%nat with (S (k + 20)). cbn [digit_root_loop].
  rewrite (proj2 (Z.ltb_lt 0 num)), (proj2 (Z.eqb_neq num 0)) by lia. cbn [orb].
  rewrite Nat2Z.inj_succ, Z.pow_succ_r in Hn by lia.
  rewrite IH; [|split; [apply Z.div_pos; lia|apply Z.div_lt_upper_bound; lia]
               |pose proof (Z.mod_pos_bound num 10); lia].
  f_equal. unfold digit_root. pose proof (Z.div_mod num 10). pose proof (Z.mod_pos_bound num 10).
  destruct (Z.leb_spec (num / 10 + (root + num mod 10)) 0), (Z.leb_spec (num + root) 0); [lia|lia|lia|].
  f_equal. replace (num + root - 1) with (num / 10 + (root + num mod 10) - 1 + (num / 10) * 9) by lia.
  by rewrite Z.mod_add.
Qed.

(** ** Properties *)

(** [sys_find_digit_root] ends for every argument.  For a number that is not
    negative it returns the single digit to which repeated digit sums lead, the
    one congruent to the number modulo 9 that is 0 for 0 only.  For a negative
    number it returns 0, which the comment on the call does not say. *)
Theorem find_digit_root_spec s n s' :
  argint 0 s = Ok (Some n) s' →
  ∃ r, sys_find_digit_root s = Ok r s' ∧
    (0 ≤ n → 0 ≤ r ≤ 9 ∧ r mod 9 = n mod 9 ∧ (r = 0 ↔ n = 0)) ∧
    (n < 0 → r = 0).
Proof.
  intros Ha. pose proof (argint_s32 _ _ _ _ Ha) as Hn. unfold sys_find_digit_root, or_fail. rewrite (bind_ok _ _ _ _ _ Ha).
  destruct (decide (n < 0)) as [Hlt|Hge].
  { exists 0. cbn [digit_root_loop]. rewrite (proj2 (Z.ltb_ge 0 n)) by lia. split; [done|lia]. }
  exists (digit_root n). change 30%nat with (10 + 20)%nat.
  rewrite (digit_root_loop_ok 10 n 0) by (unfold is_s32 in Hn; lia). rewrite Z.add_0_r. split; [done|].
  unfold digit_root. destruct (Z.leb_spec n 0).
  - replace n with 0 by lia. done.
  - pose proof (Z.mod_pos_bound (n - 1) 9). split; [|lia]. intros _. split; [lia|]. split; [|lia].
    rewrite Zplus_mod_idemp_r. f_equal. lia.
Qed.

(** 38 leads to 11 and to 2. *)
Example find_digit_root_38 : digit_root_loop 30 38 0 = Some 2.
Proof. reflexivity. Qed.
