(* ===== verification/Trap.v ===== *)
(** * Traps: trap.c *)

From Stdlib Require Import Ascii String.
From S2P Require Import Prelude Bytes Kernel Cstring Kalloc Vm Sched Proc Waiting Screen Console Kbd Pipe.
From S2P Require Import Sleeplock Bio Log Fs Dir File Fork Syscall Exec Sysfile Sysproc.
Open Scope Z_scope.

Definition T_SYSCALL : Z := 64.
Definition T_IRQ0 : Z := 32.
Definition IRQ_TIMER : Z := 0.
Definition IRQ_KBD : Z := 1.
Definition IRQ_COM1 : Z := 4.
Definition IRQ_IDE : Z := 14.
Definition IRQ_SPURIOUS : Z := 31.

(** [ticks++] by the first processor. *)
Definition timer_tick : KM unit :=
  c ← gets (λ s, me (kcpu s));
  if (c =? 0)%nat then
    acquire LkTicks ;;
    modify_state (λ s, s <| kproc ::= λ k, k <| ticks := u32 (ticks k + 1) |> |>) ;;
    wakeup ChTicks ;;
    release LkTicks
  else ret tt.

Section Trap.
Context {dk : Disk} {dv : Devsw}.
(** The disk driver's interrupt handler. *)
Context (ideintr : KM unit).

(** The process this processor runs, if it has been killed while in user space
    ([cs] is the code segment of the trap), exits. *)
Definition exit_if_killed (cs : Z) : KM unit :=
  m ← myproc;
  match m with
  | None => ret tt
  | Some i =>
      p ← getp i;
      if negb (killed p =? 0) && (Z.land cs 3 =? DPL_USER) then exit else ret tt
  end.

(** The accounting of a clock tick, and the preemption when the quantum is used
    up.  The condition of the [#if] holds in the kernel the Makefile builds. *)
Definition charge_tick : KM unit :=
  m ← myproc;
  match m with
  | None => ret tt
  | Some i =>
      p ← getp i;
      if bool_decide (state p = RUNNING) then
        updp i (λ p, p <| runtime := u32 (runtime p + 1) |>
                       <| last_burst_ticks := s32 (last_burst_ticks p + 1) |>
                       <| pticks := u32 (pticks p + 1) |>) ;;
        p ← getp i;
        if QUANTUM <=? pticks p then
          updp i (λ p, p <| yield_request := 1 |>) ;;
          yield
        else ret tt
      else ret tt
  end.

(** The [switch] of [trap]; [inp] are the bytes that the keyboard or the serial
    port has, [cr2] the fault address.  [lapiceoi] acknowledges the interrupt. *)
Definition trap_dispatch (t : trapframe) (inp : list Z) (cr2 : Z) : KM unit :=
  let n := tf_trapno t in
  c ← gets (λ s, Z.of_nat (me (kcpu s)));
  if n =? T_IRQ0 + IRQ_TIMER then timer_tick
  else if n =? T_IRQ0 + IRQ_IDE then ideintr
  else if n =? T_IRQ0 + IRQ_IDE + 1 then ret tt
  else if n =? T_IRQ0 + IRQ_KBD then kbdintr inp
  else if n =? T_IRQ0 + IRQ_COM1 then consoleintr inp
  else if (n =? T_IRQ0 + 7) || (n =? T_IRQ0 + IRQ_SPURIOUS) then
    cprintf ("cpu%d: spurious interrupt at %x:%x" ++ nl) [CInt c; CInt (tf_cs t); CInt (tf_eip t)]
  else
    m ← myproc;
    match m with
    | Some i =>
        if Z.land (tf_cs t) 3 =? 0 then
          cprintf ("unexpected trap %d from cpu %d eip %x (cr2=0x%x)" ++ nl)
                  [CInt n; CInt c; CInt (tf_eip t); CInt cr2] ;;
          panic "trap"
        else
          p ← getp i;
          cprintf ("pid %d %s: trap %d err %d on cpu %d eip 0x%x addr 0x%x--kill proc" ++ nl)
                  [CInt (pid p); CStr (Some (cstring (name p))); CInt n; CInt (tf_err t); CInt c;
                   CInt (tf_eip t); CInt cr2] ;;
          updp i (λ p, p <| killed := 1 |>)
    | None =>
        cprintf ("unexpected trap %d from cpu %d eip %x (cr2=0x%x)" ++ nl)
                [CInt n; CInt c; CInt (tf_eip t); CInt cr2] ;;
        panic "trap"
    end.

Definition trap (t : trapframe) (inp : list Z) (cr2 : Z) : KM unit :=
  if tf_trapno t =? T_SYSCALL then
    k ← is_killed;
    (if (k : bool) then exit else ret tt) ;;
    i ← curproc;
    updp i (λ p, p <| tf := t |>) ;;
    syscall ;;
    k ← is_killed;
    if (k : bool) then exit else ret tt
  else
    trap_dispatch t inp cr2 ;;
    exit_if_killed (tf_cs t) ;;
    (if tf_trapno t =? T_IRQ0 + IRQ_TIMER then charge_tick else ret tt) ;;
    exit_if_killed (tf_cs t).
End Trap.

#[local] Opaque acquire release.

(** ** The time slice *)

Definition tick_counts (s : kernel) : list Z := pticks <$> ptable (kproc s).
Definition same_ticks (s s' : kernel) : Prop := tick_counts s' = tick_counts s.

#[local] Instance same_ticks_preorder : PreOrder same_ticks.
Proof. split; [done|]. intros a b c H1 H2. unfold same_ticks in *. congruence. Qed.

Abbreviation KeepTicks := (Pres same_ticks same_ticks).

#[local] Instance keep_acquire l : KeepTicks (acquire l).
Proof. intros s. rewrite acquire_eq. by destruct (bool_decide _). Qed.
#[local] Instance keep_release l : KeepTicks (release l).
Proof. intros s. rewrite release_eq. by destruct (bool_decide _). Qed.
#[local] Instance keep_modify f : (∀ s, same_ticks s (f s)) → KeepTicks (modify_state f : KM unit).
Proof. intros Hf s. apply Hf. Qed.
Lemma keep_updp i f : (∀ p, pticks (f p) = pticks p) → KeepTicks (updp i f).
Proof. intros Hf s. unfold same_ticks, tick_counts. simpl. by apply fmap_alter_same. Qed.
#[local] Instance keep_curproc : KeepTicks curproc.
Proof. unfold curproc, myproc. solve_pres. Qed.
#[local] Instance keep_sched {A} pt : KeepTicks (sched (A:=A) pt).
Proof. unfold sched, holding, getp. solve_pres. intros s. simpl. reflexivity. Qed.
#[local] Instance keep_wakeup1 ch : KeepTicks (wakeup1 ch).
Proof.
  apply keep_modify. intros s. unfold same_ticks, tick_counts. simpl.
  rewrite <-list_fmap_compose. apply list_fmap_ext. intros i p _. unfold wake. simpl.
  by destruct (_ && _).
Qed.

#[local] Hint Extern 2 (Pres same_ticks same_ticks (updp _ _)) =>
  (apply keep_updp; intros ?; reflexivity) : typeclass_instances.
#[local] Hint Extern 3 (Pres same_ticks same_ticks (modify_state _)) =>
  (apply keep_modify; intros ?; reflexivity) : typeclass_instances.

#[local] Instance keep_wakeup ch : KeepTicks (wakeup ch).
Proof.
  unfold wakeup, wakeup_ops. cbn [run_ops run_op]. change (modify_state (wake_all (Some ch))) with (wakeup1 (Some ch)).
  solve_pres.
Qed.
#[local] Instance keep_yield : KeepTicks yield.
Proof. unfold yield. solve_pres. Qed.
#[local] Instance keep_sleep ch lk : KeepTicks (sleep (A:=unit) ch lk).
Proof.
  unfold sleep, sleep_locks, sleep_marks, myproc, get_ticks.
  assert (Hs : ∀ i f, (∀ p, pticks (f p) = pticks p) → KeepTicks (modify_state (set_slot i f) : KM unit)) by exact keep_updp.
  destruct (bool_decide (lk = LkPtable)); cbn [run_ops run_op]; solve_pres; by apply Hs.
Qed.
#[local] Instance keep_sleep_resume i lk t : KeepTicks (sleep_resume i lk t).
Proof. unfold sleep_resume, get_ticks. solve_pres. Qed.
#[local] Instance keep_switchuvm p : KeepTicks (switchuvm p).
Proof. unfold switchuvm, lcr3, set_cpu_proc. solve_pres. Qed.
#[local] Instance keep_dispatch p : KeepTicks (dispatch p).
Proof. unfold dispatch, set_cpu_proc. solve_pres. Qed.
#[local] Instance keep_random_pick : KeepTicks random_pick.
Proof. unfold random_pick, rand. solve_pres. Qed.
#[local] Instance keep_bjf_pick : KeepTicks bjf_pick.
Proof.
  eapply (pres_mono cons_only); [| |exact cons_only_bjf_pick]; [|done]. intros a b ->. done.
Qed.
#[local] Instance keep_scheduler_start : KeepTicks scheduler_start.
Proof. unfold scheduler_start, choose. solve_pres. Qed.
#[local] Instance keep_scheduler_back p pol : KeepTicks (scheduler_back p pol).
Proof. unfold scheduler_back, switchkvm, lcr3, set_cpu_proc. solve_pres. Qed.

(** [m] leaves the tick counters of all processes as they are. *)
Definition leaves_ticks {A} (m : KM A) : Prop :=
  ∀ s, match m s with Ok _ s' | Sleep _ s' => tick_counts s' = tick_counts s | Panic _ => True end.

(** ** Properties *)

(** [C40] The time slice is never renewed.  A process whose counter has reached
    the end of its slice ([QUANTUM - 1] ticks before this one) is preempted by
    this clock tick, whatever policy is in force, which adds one to its counter.
    The operations that take a process off the processor and bring it back leave
    the counters alone: [yield], [sleep] before and after the switch, [wakeup],
    and the scheduler before and after the switch.  So a process that runs on is
    preempted at every tick once it has used its first [QUANTUM] ticks. *)
Theorem slice_never_renewed s i p :
  runs s i → ptable (kproc s) !! i = Some p → state p = RUNNING → held s = [] →
  QUANTUM - 1 ≤ pticks p < 2 ^ 32 - 1 →
  (∃ s', charge_tick s = Sleep AtYield s' ∧ tick_counts s' = <[i := pticks p + 1]> (tick_counts s)) ∧
  (∀ ch lk j t q pol,
     leaves_ticks yield ∧ leaves_ticks (sleep (A:=unit) ch lk) ∧ leaves_ticks (sleep_resume j lk t) ∧
     leaves_ticks (wakeup ch) ∧ leaves_ticks scheduler_start ∧ leaves_ticks (scheduler_back q pol)).
Proof.
  intros Hr Hp Hst Hh Hq. split.
  2: { intros. split_and!; intros s1; exact (pres (R:=same_ticks) (RS:=same_ticks) s1). }
  unfold charge_tick, myproc, getp, updp.
  rewrite (bind_ok (gets _) _ s (Some i) s) by (unfold gets; by rewrite Hr).
  rewrite (bind_ok (gets _) _ s p s) by (unfold gets; by rewrite Hp).
  rewrite bool_decide_true by done. rewrite (bind_ok (modify_state _) _ _ _ _ eq_refl).
  match goal with |- ∃ s', _ ?x = _ ∧ _ => set (s1 := x) end.
  set (p1 := p <| runtime := u32 (runtime p + 1) |> <| last_burst_ticks := s32 (last_burst_ticks p + 1) |>
               <| pticks := u32 (pticks p + 1) |>).
  assert (Hp1 : ptable (kproc s1) !! i = Some p1) by (simpl; by rewrite list_lookup_alter_eq, Hp).
  rewrite (bind_ok (gets _) _ s1 p1 s1) by (unfold gets; by rewrite Hp1).
  assert (Hpt : pticks p1 = pticks p + 1) by (apply u32_small; unfold is_u32, QUANTUM in *; lia).
  rewrite Hpt, (proj2 (Z.leb_le _ _)) by lia. rewrite (bind_ok (modify_state _) _ _ _ _ eq_refl).
  erewrite yield_eq; [|done|done|simpl; by rewrite list_lookup_alter_eq, list_lookup_alter_eq, Hp].
  eexists. split; [done|]. unfold tick_counts. simpl. rewrite !fmap_alter_same by done.
  apply list_eq. intros j. destruct (decide (j = i)) as [->|Hne].
  - rewrite list_lookup_insert_eq by (rewrite length_fmap; by eapply lookup_lt_Some).
    rewrite list_lookup_fmap, list_lookup_alter_eq, Hp. simpl. by f_equal.
  - by rewrite list_lookup_insert_ne, !list_lookup_fmap, list_lookup_alter_ne by done.
Qed.

(** Round robin is in force on a process that has used up its slice. *)
Definition slice_kernel : kernel :=
  kernel0 <| kproc ::= λ k, k <| ptable := [ proc0 <| state := RUNNING |> <| pid := 1 |> <| pticks := 4 |> ] |>
                              <| current_scheduler := SCHED_RR |> |>
          <| kcpu ::= λ c, c <| cpu_proc := [Some 0%nat; None] |> |>.

Lemma slice_never_renewed_witness :
  ∃ s', charge_tick slice_kernel = Sleep AtYield s' ∧ tick_counts s' = [5].
Proof.
  destruct (slice_never_renewed slice_kernel 0 (proc0 <| state := RUNNING |> <| pid := 1 |> <| pticks := 4 |>))
    as [H _]; [reflexivity|reflexivity|reflexivity|reflexivity|vm_compute; split; congruence|exact H].
Defined.
