(* ===== verification/Grep.v ===== *)
(** * grep.c

    The matcher of grep against a declarative meaning of its patterns, and the
    loop that reads a file in pieces and prints the lines that match.  A string
    is the list of its characters, without the NUL that ends it. *)

From S2P Require Import Prelude.

(** ** The matcher *)

#[local] Abbreviation caret := 94.
#[local] Abbreviation dollar := 36.
#[local] Abbreviation dot := 46.
#[local] Abbreviation star := 42.
#[local] Abbreviation nl := 10.

(** [matchstar(c, re, text)], given [matchhere(re, _)]. *)
Fixpoint matchstar (here : list Z → bool) (c : Z) (text : list Z) : bool :=
  if here text then true
  else match text with
       | [] => false
       | t :: text' => if (t =? c) || (c =? dot) then matchstar here c text' else false
       end.

Fixpoint matchhere (re text : list Z) : bool :=
  match re with
  | [] => true
  | c :: re1 =>
      match re1 with
      | d :: re2 =>
          if d =? star then matchstar (matchhere re2) c text
          else match text with
               | [] => false
               | t :: text' => if (c =? dot) || (c =? t) then matchhere re1 text' else false
               end
      | [] =>
          if c =? dollar then (match text with [] => true | _ => false end)
          else match text with
               | [] => false
               | t :: text' => if (c =? dot) || (c =? t) then matchhere re1 text' else false
               end
      end
  end.

(** The loop of [match]: every suffix, the empty one too. *)
Fixpoint match_loop (re text : list Z) : bool :=
  if matchhere re text then true
  else match text with
       | [] => false
       | _ :: text' => match_loop re text'
       end.

Definition match_ (re text : list Z) : bool :=
  match re with
  | c :: re' => if c =? caret then matchhere re' text else match_loop re text
  | [] => match_loop re text
  end.

(** ** The loop over the file *)

(** [strchr(s, c) - s], for [s] up to its first NUL. *)
Fixpoint strchr (s : list Z) (c : Z) : option nat :=
  match s with
  | [] => None
  | x :: s' => if x =? 0 then None else if x =? c then Some 0%nat else S <$> strchr s' c
  end.

(** The inner loop: the lines of the buffer that are printed, and the bytes
    after the last newline. *)
Fixpoint grep_lines (fuel : nat) (pattern p : list Z) : list (list Z) * list Z :=
  match fuel with
  | O => ([], p)
  | S fuel' =>
      match strchr p nl with
      | None => ([], p)
      | Some q =>
          let line := take q p in
          let '(out, rest) := grep_lines fuel' pattern (drop (S q) p) in
          (if match_ pattern line then (line ++ [nl]) :: out else out, rest)
      end
  end.

Definition BUFSIZE : nat := 1024.

(** The outer loop, over a descriptor whose state is in [W]: [read n] gives at
    most [n] bytes, none at the end or on an error.  The result is what is
    written to the standard output, one element for each [write]. *)
Fixpoint grep_loop {W} (read : nat → W → list Z * W) (fuel : nat) (pattern buf : list Z) (w : W) :
    option (list (list Z)) :=
  match fuel with
  | O => None
  | S fuel' =>
      let '(bs, w') := read (BUFSIZE - length buf - 1)%nat w in
      match bs with
      | [] => Some []
      | _ =>
          let b := buf ++ bs in
          let '(out, rest) := grep_lines (S (length b)) pattern b in
          let m := if (length rest =? length b)%nat then [] else rest in
          app out <$> grep_loop read fuel' pattern m w'
      end
  end.

Definition grep {W} (read : nat → W → list Z * W) (fuel : nat) (pattern : list Z) (w : W) :=
  grep_loop read fuel pattern [] w.

(** ** What a pattern means *)

(** A pattern is a sequence of characters, each once or any number of times,
    and may be tied to the beginning or to the end of the line. *)
Inductive item := One (c : Z) | Star (c : Z).

Definition fits (c t : Z) : Prop := c = dot ∨ c = t.

Inductive denotes : list item → list Z → Prop :=
  | denotes_nil : denotes [] []
  | denotes_one c t its ts : fits c t → denotes its ts → denotes (One c :: its) (t :: ts)
  | denotes_star c ts its ts' : Forall (fits c) ts → denotes its ts' → denotes (Star c :: its) (ts ++ ts').

(** The items of a pattern without its [^], and whether it ends in [$]. *)
Fixpoint items (re : list Z) : list item * bool :=
  match re with
  | [] => ([], false)
  | c :: re1 =>
      match re1 with
      | d :: re2 => if d =? star then let '(its, e) := items re2 in (Star c :: its, e)
                    else let '(its, e) := items re1 in (One c :: its, e)
      | [] => if c =? dollar then ([], true) else ([One c], false)
      end
  end.

(** The pattern [re] is found in [text]. *)
Definition found (re text : list Z) : Prop :=
  let '(front, re') := match re with c :: r => if c =? caret then (true, r) else (false, re) | [] => (false, []) end in
  let '(its, back) := items re' in
  ∃ pre mid suf, text = pre ++ mid ++ suf ∧ denotes its mid ∧
    (front = true → pre = []) ∧ (back = true → suf = []).

Definition found_here (re text : list Z) : Prop :=
  ∃ mid suf, text = mid ++ suf ∧ denotes (items re).1 mid ∧ ((items re).2 = true → suf = []).

Lemma matchstar_spec here c text :
  matchstar here c text = true ↔ ∃ ts rest, text = ts ++ rest ∧ Forall (fits c) ts ∧ here rest = true.
Proof.
  induction text as [|t text IH]; simpl.
  - destruct (here []) eqn:E; split; try done.
    + intros _. by exists [], [].
    + intros (ts & rest & Hx & _ & Hr). symmetry in Hx. apply app_eq_nil in Hx as [-> ->]. congruence.
  - destruct (here (t :: text)) eqn:E.
    { split; [|done]. intros _. by exists [], (t :: text). }
    assert (Hc : (t =? c) || (c =? dot) = true ↔ fits c t) by (unfold fits; lia).
    split.
    + destruct ((t =? c) || (c =? dot)) eqn:Ec; [|done]. rewrite IH. intros (ts & rest & -> & Hts & Hr).
      exists (t :: ts), rest. split_and!; [done| |done]. constructor; [by apply Hc|done].
    + intros ([|t' ts] & rest & Hx & Hts & Hr); simplify_eq/=; [congruence|]. apply Forall_cons in Hts as [Ht Hts].
      rewrite (proj2 Hc Ht). apply IH. by exists ts, rest.
Qed.

Lemma found_nil text : found_here [] text.
Proof. exists [], text. split_and!; [done|constructor|done]. Qed.

Lemma found_end text : found_here [dollar] text ↔ text = [].
Proof.
  split.
  - intros (mid & suf & -> & Hd & Hs). simpl in Hd, Hs. inversion Hd. by rewrite Hs.
  - intros ->. exists [], []. split_and!; [done|constructor|done].
Qed.

(** A plain first character takes one character of the text. *)
Lemma found_one c re text its e :
  items (c :: re) = (One c :: its, e) → items re = (its, e) →
  found_here (c :: re) text ↔ ∃ t text', text = t :: text' ∧ fits c t ∧ found_here re text'.
Proof.
  intros H1 H2. unfold found_here. rewrite H1, H2. simpl. split.
  - intros (mid & suf & -> & Hd & Hs). inversion Hd as [|? t ? ts Hf Hd'|]; subst. exists t, (ts ++ suf).
    split_and!; [done|done|]. by exists ts, suf.
  - intros (t & text' & -> & Hf & mid & suf & -> & Hd & Hs). exists (t :: mid), suf. split_and!; [done|by constructor|done].
Qed.

Lemma found_star c re text :
  found_here (c :: star :: re) text ↔ ∃ ts rest, text = ts ++ rest ∧ Forall (fits c) ts ∧ found_here re rest.
Proof.
  unfold found_here. simpl. destruct (items re) as [its e]. simpl. split.
  - intros (mid & suf & -> & Hd & Hs). inversion Hd as [| |? ts ? ts' Hf Hd']; subst. exists ts, (ts' ++ suf).
    split_and!; [by rewrite app_assoc|done|]. by exists ts', suf.
  - intros (ts & rest & -> & Hf & mid & suf & -> & Hd & Hs). exists (ts ++ mid), suf.
    split_and!; [by rewrite app_assoc|by constructor|done].
Qed.

Lemma one_char c text (here : list Z → bool) (P : list Z → Prop) :
  (∀ text', here text' = true ↔ P text') →
  (match text with [] => false | t :: text' => if (c =? dot) || (c =? t) then here text' else false end) = true ↔
  ∃ t text', text = t :: text' ∧ fits c t ∧ P text'.
Proof.
  intros H. destruct text as [|t text']; [split; [done|naive_solver]|].
  assert (Hc : (c =? dot) || (c =? t) = true ↔ fits c t) by (unfold fits; lia).
  destruct ((c =? dot) || (c =? t)) eqn:E; rewrite ?H; naive_solver.
Qed.

Lemma matchhere_spec re text : matchhere re text = true ↔ found_here re text.
Proof.
  cut (∀ n re, (length re ≤ n)%nat → ∀ text, matchhere re text = true ↔ found_here re text); [eauto|].
  clear re text. induction n as [|n IH]; intros [|c re] Hn text; try (simpl in Hn; lia).
  1, 2: split; [intros _; apply found_nil|done].
  simpl in Hn. destruct re as [|d re].
  - cbn [matchhere]. destruct (Z.eqb_spec c dollar) as [->|Hc].
    + rewrite found_end. by destruct text.
    + rewrite (one_char c text (λ _, true) (found_here [])) by (intros text'; split; [intros _; apply found_nil|done]).
      symmetry. apply (found_one c [] text [] false); [|done]. cbn [items]. by rewrite (proj2 (Z.eqb_neq _ _) Hc).
  - cbn [matchhere]. destruct (Z.eqb_spec d star) as [->|Hd].
    + rewrite matchstar_spec, found_star. simpl in Hn. setoid_rewrite IH; [done|lia].
    + rewrite (one_char c text (matchhere (d :: re)) (found_here (d :: re))) by (intros text'; apply IH; lia).
      symmetry. destruct (items (d :: re)) as [its e] eqn:E. apply (found_one c (d :: re) text its e); [|done].
      cbn [items]. rewrite (proj2 (Z.eqb_neq _ _) Hd). cbn [items] in E. by rewrite E.
Qed.

Lemma match_loop_spec re text :
  match_loop re text = true ↔ ∃ pre rest, text = pre ++ rest ∧ found_here re rest.
Proof.
  induction text as [|t text IH]; cbn [match_loop].
  - destruct (matchhere re []) eqn:E.
    + split; [|done]. intros _. exists [], []. split; [done|by apply matchhere_spec].
    + split; [done|]. intros (pre & rest & Hx & Hr). symmetry in Hx. apply app_eq_nil in Hx as [-> ->].
      apply matchhere_spec in Hr. congruence.
  - destruct (matchhere re (t :: text)) eqn:E.
    + split; [|done]. intros _. exists [], (t :: text). split; [done|by apply matchhere_spec].
    + rewrite IH. split.
      * intros (pre & rest & -> & Hr). by exists (t :: pre), rest.
      * intros ([|t' pre] & rest & Hx & Hr); simplify_eq/=; [|by exists pre, rest].
        apply matchhere_spec in Hr. congruence.
Qed.

(** [C31] The matcher of grep, for every pattern and every line, decides whether the
    line has the characters the pattern denotes: somewhere, or from its
    beginning if the pattern starts with [^], or up to its end if it ends in
    [$].  The recursion of [matchhere] and [matchstar] always ends. *)
Theorem match_correct re text : match_ re text = true ↔ found re text.
Proof.
  assert (Hloop : ∀ r, match_loop r text = true ↔
    let '(its, back) := items r in ∃ pre mid suf, text = pre ++ mid ++ suf ∧ denotes its mid ∧
      (false = true → pre = []) ∧ (back = true → suf = [])).
  { intros r. rewrite match_loop_spec. unfold found_here. destruct (items r) as [its back]. simpl. split.
    - intros (pre & rest & -> & mid & suf & -> & Hd & Hs). by exists pre, mid, suf.
    - intros (pre & mid & suf & -> & Hd & _ & Hs). exists pre, (mid ++ suf). split; [done|]. by exists mid, suf. }
  unfold match_, found. destruct re as [|c re]; [apply Hloop|]. destruct (c =? caret) eqn:E; [|apply Hloop].
  rewrite matchhere_spec. unfold found_here. destruct (items re) as [its back]. simpl. split.
  - intros (mid & suf & -> & Hd & Hs). by exists [], mid, suf.
  - intros (pre & mid & suf & -> & Hd & Hp & Hs). rewrite Hp by done. by exists mid, suf.
Qed.

(** ** Reading a file *)

(** [read] of a file at its offset, the rest of it being [bs]. *)
Definition file_read (n : nat) (bs : list Z) : list Z * list Z := (take n bs, drop n bs).

(** The lines that end in a newline, and what follows the last one. *)
Fixpoint lines (cur bs : list Z) : list (list Z) * list Z :=
  match bs with
  | [] => ([], cur)
  | c :: bs' => if c =? nl then let '(ls, r) := lines [] bs' in (cur :: ls, r) else lines (cur ++ [c]) bs'
  end.

Definition printed (pattern : list Z) (ls : list (list Z)) : list (list Z) :=
  (λ l, l ++ [nl]) <$> filter (λ l, match_ pattern l = true) ls.

Lemma lines_app cur bs bs' :
  lines cur (bs ++ bs') =
  let '(ls, r) := lines cur bs in let '(ls', r') := lines r bs' in (ls ++ ls', r').
Proof.
  revert cur. induction bs as [|c bs IH]; intros cur; simpl.
  - by destruct (lines cur bs').
  - destruct (c =? nl); [|apply IH]. rewrite IH. destruct (lines [] bs) as [ls r]. by destruct (lines r bs').
Qed.

Lemma lines_none cur bs : nl ∉ bs → lines cur bs = ([], cur ++ bs).
Proof.
  revert cur. induction bs as [|c bs IH]; intros cur Hn; simpl; [by rewrite app_nil_r|].
  apply not_elem_of_cons in Hn as [Hc Hn]. rewrite (proj2 (Z.eqb_neq _ _)) by done.
  rewrite IH by done. by rewrite <-app_assoc.
Qed.

(** The rest is a suffix without a newline. *)
Lemma lines_rest cur bs : nl ∉ cur → (nl ∉ (lines cur bs).2) ∧ ∃ pre, cur ++ bs = pre ++ (lines cur bs).2.
Proof.
  revert cur. induction bs as [|c bs IH]; intros cur Hc; simpl.
  { split; [done|]. exists []. by rewrite app_nil_r. }
  destruct (Z.eqb_spec c nl) as [->|Hne].
  - destruct (IH []) as [Hr (pre & Hp)]; [set_solver|]. destruct (lines [] bs) as [ls r]. split; [done|].
    exists (cur ++ nl :: pre). simpl in Hp |- *. by rewrite Hp, <-app_assoc.
  - destruct (IH (cur ++ [c])) as [Hr (pre & Hp)]; [set_solver|]. split; [done|]. exists pre.
    by rewrite <-Hp, <-app_assoc.
Qed.

Lemma strchr_none s c : 0 ∉ s → strchr s c = None → c ∉ s.
Proof.
  induction s as [|x s IH]; simpl; intros H0 Hs; [set_solver|]. apply not_elem_of_cons in H0 as [Hx H0].
  rewrite (proj2 (Z.eqb_neq x 0)) in Hs by done. destruct (Z.eqb_spec x c); [done|].
  destruct (strchr s c); [done|]. apply not_elem_of_cons. split; [done|by apply IH].
Qed.

Lemma strchr_some s c q : strchr s c = Some q → (c ∉ take q s) ∧ s = take q s ++ c :: drop (S q) s.
Proof.
  revert q. induction s as [|x s IH]; intros q; simpl; [done|]. destruct (x =? 0); [done|].
  destruct (Z.eqb_spec x c) as [->|Hne].
  - intros [= <-]. simpl. split; [set_solver|done].
  - intros (q' & Hq & ->)%fmap_Some. destruct (IH q' Hq) as [Hn Hs]. simpl. split; [set_solver|]. by rewrite <-Hs.
Qed.

Lemma grep_lines_spec fuel pattern p :
  (length p < fuel)%nat → 0 ∉ p → grep_lines fuel pattern p = (printed pattern (lines [] p).1, (lines [] p).2).
Proof.
  revert p. induction fuel as [|fuel IH]; intros p Hf H0; [lia|]. simpl.
  destruct (strchr p nl) as [q|] eqn:Hq.
  - apply strchr_some in Hq as [Hn Hp]. assert (Hlen := f_equal length Hp). rewrite length_app in Hlen. simpl in Hlen.
    set (a := take q p) in *. set (b := drop (S q) p) in *. rewrite IH; [|lia|rewrite Hp in H0; set_solver].
    rewrite Hp, lines_app, (lines_none [] a) by done. simpl. destruct (lines [] b) as [ls r]. simpl.
    unfold printed. rewrite filter_cons. by destruct (match_ pattern a) eqn:E; [rewrite decide_True|rewrite decide_False].
  - apply strchr_none in Hq; [|done]. by rewrite lines_none.
Qed.

Definition short_lines (bs : list Z) : Prop :=
  ∀ pre l suf, bs = pre ++ l ++ suf → nl ∉ l → (length l < BUFSIZE - 1)%nat.

Lemma short_suffix pre bs : short_lines (pre ++ bs) → short_lines bs.
Proof. intros Hs a l b -> Hn. apply (Hs (pre ++ a) l b); [by rewrite <-app_assoc|done]. Qed.

Lemma grep_loop_file fuel pattern buf bs :
  (length bs < fuel)%nat → 0 ∉ buf ++ bs → nl ∉ buf → short_lines (buf ++ bs) →
  grep_loop file_read fuel pattern buf bs = Some (printed pattern (lines buf bs).1).
Proof.
  revert buf bs. induction fuel as [|fuel IH]; intros buf bs Hf H0 Hnl Hs; [lia|]. cbn [grep_loop].
  assert (Hbuf := Hs [] buf bs eq_refl Hnl). unfold BUFSIZE in *. unfold file_read at 1.
  set (n := (1024 - length buf - 1)%nat). assert (Hn : n = (1024 - length buf - 1)%nat) by done. clearbody n.
  rewrite <-(take_drop n bs) in H0, Hs. rewrite <-(take_drop n bs) at 2.
  assert (Hlen : length (take n bs) = (n `min` length bs)%nat) by apply length_take.
  assert (Hdrop : length (drop n bs) = (length bs - n)%nat) by apply length_drop.
  destruct (take n bs) as [|x a] eqn:Ht.
  { simpl in Hlen. assert (bs = []) as -> by (destruct bs; [done|simpl in Hlen; lia]). by rewrite drop_nil. }
  assert (Hax : (0 < length (x :: a))%nat) by (simpl; lia).
  cbv iota. set (r := x :: a) in *. clearbody r. clear x a. set (d := drop n bs) in *. clearbody d. rewrite grep_lines_spec by (lia || set_solver).
  assert (Hcur : lines [] (buf ++ r) = lines buf r).
  { rewrite lines_app, (lines_none [] buf) by done. simpl. by destruct (lines buf r). }
  rewrite Hcur, lines_app. destruct (lines_rest buf r Hnl) as [Hrest (pre & Hpre)].
  destruct (lines buf r) as [ls rest] eqn:Hl. cbn [fst snd] in *.
  destruct (Nat.eqb_spec (length rest) (length (buf ++ r))) as [Heq|Hne].
  - assert (pre = []) as -> by (rewrite Hpre, length_app in Heq; destruct pre; [done|simpl in Heq; lia]).
    simpl in Hpre. subst rest. rewrite app_assoc in Hs. pose proof (Hs [] (buf ++ r) d eq_refl Hrest) as Hb.
    rewrite length_app in Hb. unfold BUFSIZE in Hb. assert (Hd : d = []) by (destruct d; [done|simpl in Hdrop; lia]). rewrite Hd. simpl.
    assert (Hls : ls = []). { rewrite lines_none in Hl by set_solver. by simplify_eq. } subst ls.
    rewrite IH; [done|simpl; lia|set_solver|set_solver|]. intros [|??] [|? ?] [|? ?] Hx _; simpl in *; try done; lia.
  - rewrite app_assoc, Hpre, <-app_assoc in Hs. apply short_suffix in Hs.
    rewrite IH; [|lia| |done|done].
    + destruct (lines rest d) as [ls' r']. simpl. unfold printed. by rewrite filter_app, fmap_app.
    + rewrite app_assoc, Hpre in H0. set_solver.
Qed.

(** ** Reading a pipe *)

(** [read] of a pipe or the console: what has been written so far comes in
    pieces. *)
Definition piece_read (n : nat) (ps : list (list Z)) : list Z * list (list Z) :=
  match ps with
  | [] => ([], [])
  | p :: ps' => if (length p <=? n)%nat then (p, ps') else (take n p, drop n p :: ps')
  end.

Lemma lines_one b : nl ∉ b → lines [] (b ++ [nl]) = ([b], []).
Proof. intros Hb. by rewrite lines_app, lines_none. Qed.

(** One turn, for a piece that fits the buffer. *)
Lemma grep_piece fuel pattern p ps :
  p ≠ [] → (length p < BUFSIZE)%nat → 0 ∉ p →
  grep_loop piece_read (S fuel) pattern [] (p :: ps) =
  let '(ls, r) := lines [] p in
  app (printed pattern ls) <$> grep_loop piece_read fuel pattern (if (length r =? length p)%nat then [] else r) ps.
Proof.
  intros Hp Hl H0. unfold BUFSIZE in *. cbn [grep_loop piece_read]. rewrite (proj2 (Nat.leb_le _ _)) by (simpl; lia).
  destruct p as [|x p]; [done|]. cbv iota. set (p' := x :: p) in *. clearbody p'. clear x p. cbn [app].
  rewrite grep_lines_spec by (done || lia). by destruct (lines [] p').
Qed.

(** Pieces that [grep] handles, when [buf] is what it has kept: every piece fits
    the buffer, and all but the last one end a line. *)
Fixpoint pieces_ok (buf : list Z) (ps : list (list Z)) : Prop :=
  match ps with
  | [] => True
  | p :: ps' => p ≠ [] ∧ (0 ∉ p) ∧ (length buf + length p < BUFSIZE)%nat ∧ (ps' = [] ∨ nl ∈ p) ∧
                pieces_ok (lines buf p).2 ps'
  end.

Lemma lines_buf buf r : nl ∉ buf → lines [] (buf ++ r) = lines buf r.
Proof. intros Hb. rewrite lines_app, (lines_none [] buf) by done. simpl. by destruct (lines buf r). Qed.

Lemma grep_loop_pieces pattern ps : ∀ fuel buf,
  (length ps < fuel)%nat → nl ∉ buf → 0 ∉ buf → pieces_ok buf ps →
  grep_loop piece_read fuel pattern buf ps = Some (printed pattern (lines buf (concat ps)).1).
Proof.
  induction ps as [|p ps IH]; intros [|fuel] buf Hf Hnl H0 Hok; simpl in Hf; try lia; [done|].
  destruct Hok as (Hp & Hp0 & Hlen & Hcut & Hok). cbn [grep_loop piece_read concat].
  rewrite (proj2 (Nat.leb_le _ _)) by (unfold BUFSIZE in *; lia).
  destruct p as [|x p]; [done|]. cbv iota. set (p' := x :: p) in *. clearbody p'. clear x p.
  rewrite grep_lines_spec by (lia || set_solver). rewrite lines_buf, lines_app by done.
  destruct (lines_rest buf p' Hnl) as [Hrest (pre & Hpre)]. destruct (lines buf p') as [ls rest] eqn:El. cbn [fst snd] in *.
  assert (Hr0 : 0 ∉ rest) by (intros H; assert (0 ∈ buf ++ p') as Hx by (rewrite Hpre; set_solver); set_solver).
  destruct (Nat.eqb_spec (length rest) (length (buf ++ p'))) as [Heq|Hne].
  - assert (pre = []) as -> by (rewrite Hpre, length_app in Heq; destruct pre; [done|simpl in Heq; lia]).
    simpl in Hpre. destruct Hcut as [->|Hin]; [|exfalso; apply Hrest; rewrite <-Hpre; set_solver].
    assert (ls = []) as -> by (rewrite lines_none in El by set_solver; by simplify_eq).
    rewrite (IH fuel []); [reflexivity|simpl in *; lia|set_solver|set_solver|exact I].
  - rewrite (IH fuel rest); [|lia|exact Hrest|exact Hr0|exact Hok]. destruct (lines rest (concat ps)) as [ls' r']. simpl. unfold printed. by rewrite filter_app, fmap_app.
Qed.

(** A read that ends inside a line loses what it read: when the buffer holds
    no newline grep empties it.  Of a line that arrives in two pieces only the
    second is matched and printed. *)
Theorem grep_drops_piece pattern a b fuel :
  (4 ≤ fuel)%nat → a ≠ [] → 0 ∉ a → nl ∉ a → (length a < BUFSIZE)%nat →
  0 ∉ b → nl ∉ b → (length b < BUFSIZE - 1)%nat →
  grep piece_read fuel pattern [a; b ++ [nl]] = Some (printed pattern [b]).
Proof.
  intros Hf Ha Ha0 Han Hal Hb0 Hbn Hbl. destruct fuel as [|[|[|fuel]]]; try lia. unfold grep.
  rewrite grep_piece, lines_none, Nat.eqb_refl by done.
  rewrite grep_piece, lines_one by (done || set_solver || (by destruct b) || (rewrite length_app; unfold BUFSIZE in *; simpl; lia)).
  rewrite (proj2 (Nat.eqb_neq _ _)) by (rewrite length_app; simpl; lia). simpl. by rewrite app_nil_r.
Qed.

(** ** Properties *)

(** [C32] grep prints, in order, exactly the lines ended by a newline that match;
    what follows the last newline is not printed, whether it matches or not.  This
    holds for a file, whose reads fill the buffer, if every line is shorter than
    the buffer; and for reads that return any pieces of the input, if each of
    them fits behind the unfinished line in the buffer and all but the last
    contain a newline.  In both cases the input holds no NUL, and grep stops
    after at most one turn per byte, or per piece. *)
Theorem grep_file pattern bs ps fuel :
  ((length bs < fuel)%nat → 0 ∉ bs → short_lines bs →
   grep file_read fuel pattern bs = Some (printed pattern (lines [] bs).1)) ∧
  ((length ps < fuel)%nat → pieces_ok [] ps →
   grep piece_read fuel pattern ps = Some (printed pattern (lines [] (concat ps)).1)).
Proof.
  split.
  - intros Hf H0 Hs. apply grep_loop_file; [done|done|set_solver|done].
  - intros Hf Hok. apply grep_loop_pieces; [done|set_solver|set_solver|done].
Qed.

(** ** Witnesses *)

(** The lines of [ab\nb\nc] that end in [b], read from a file and in two pieces. *)
Lemma grep_file_witness :
  grep file_read 7 [98; dollar] [97; 98; nl; 98; nl; 99] = Some [[97; 98; nl]; [98; nl]] ∧
  grep piece_read 7 [98; dollar] [[97; 98; nl; 98]; [nl; 99]] = Some [[97; 98; nl]; [98; nl]].
Proof.
  destruct (grep_file [98; dollar] [97; 98; nl; 98; nl; 99] [[97; 98; nl; 98]; [nl; 99]] 7) as [H1 H2]. split.
  - rewrite H1.
    + vm_compute. reflexivity.
    + simpl. lia.
    + set_solver.
    + intros pre l suf Hx _. apply (f_equal length) in Hx. rewrite !length_app in Hx. simpl in Hx. unfold BUFSIZE. lia.
  - rewrite H2.
    + vm_compute. reflexivity.
    + simpl. lia.
    + simpl. unfold BUFSIZE. split_and!; try done; try set_solver; try lia.
Defined.

(** The line [ab] does not match [ab] if [a] and [b] come in two pieces, and
    matches [^b], which it does not start with. *)
Lemma grep_drops_piece_witness :
  grep piece_read 4 [97; 98] [[97]; [98; nl]] = Some [] ∧
  grep piece_read 4 [caret; 98] [[97]; [98; nl]] = Some [[98; nl]] ∧
  match_ [97; 98] [97; 98] = true ∧ match_ [caret; 98] [97; 98] = false.
Proof.
  split; [|split; [|split; reflexivity]].
  - apply (grep_drops_piece [97; 98] [97] [98] 4); (done || set_solver || (unfold BUFSIZE; simpl; lia)).
  - apply (grep_drops_piece [caret; 98] [97] [98] 4); (done || set_solver || (unfold BUFSIZE; simpl; lia)).
Defined.
