(* ===== verification/Ulib.v ===== *)
(** * The user library: ulib.c and printf.c

    A user program is a tree of system calls ([prog]): each node is a call of
    usys.S with what the program does for each result.  A string is the list of
    its characters without the NUL; [printf] yields the characters that [putc]
    writes one by one. *)

From Stdlib Require Import Ascii String.
From S2P Require Import Prelude.
Open Scope Z_scope.
Open Scope list_scope.

(** ** Programs *)

Record stat := mkstat { st_type : Z; st_ino : Z; st_size : Z }.

(** The system calls the modelled programs use.  [read] gives the bytes it put
    in the buffer, [None] for -1; [pipe] the two descriptors. *)
Inductive sys : Type → Type :=
  | Sfork : sys Z
  | Swait : sys Z
  | Spipe : sys (option (Z * Z))
  | Swrite (fd : Z) (bs : list Z) : sys Z
  | Sread (fd : Z) (n : Z) : sys (option (list Z))
  | Sclose (fd : Z) : sys Z
  | Skill (pid : Z) : sys Z
  | Sexec (path : list Z) (argv : list (list Z)) : sys Z
  | Sopen (path : list Z) (mode : Z) : sys Z
  | Smknod (path : list Z) (major minor : Z) : sys Z
  | Sunlink (path : list Z) : sys Z
  | Sfstat (fd : Z) : sys (option stat)
  | Slink (old new : list Z) : sys Z
  | Smkdir (path : list Z) : sys Z
  | Schdir (path : list Z) : sys Z
  | Sdup (fd : Z) : sys Z
  | Ssleep (n : Z) : sys Z.

(** [Exit] is the system call that does not return; [Fuel] ends a loop that was
    given too few turns. *)
Inductive prog (A : Type) : Type :=
  | Ret (a : A)
  | Exit
  | Fuel
  | Call {R : Type} (c : sys R) (k : R → prog A).
Arguments Ret {A} a.
Arguments Exit {A}.
Arguments Fuel {A}.
Arguments Call {A R} c k.

Fixpoint pbind {A B} (p : prog A) (f : A → prog B) : prog B :=
  match p with
  | Ret a => f a
  | Exit => Exit
  | Fuel => Fuel
  | Call c k => Call c (λ r, pbind (k r) f)
  end.

Definition call {R} (c : sys R) : prog R := Call c Ret.

Declare Scope prog_scope.
Delimit Scope prog_scope with prog.
Notation "x ⇐ y ; z" := (pbind y (λ x, z))
  (at level 20, y at level 100, z at level 200, only parsing) : prog_scope.
Notation "y ⨾ z" := (pbind y (λ _, z))
  (at level 100, z at level 200, only parsing, right associativity) : prog_scope.
#[global] Open Scope prog_scope.

(** A program over a system whose state is in [W]. *)
Class Sys (W : Type) := sys_call : ∀ R, sys R → W → R * W.

Fixpoint run {W A} `{Sys W} (p : prog A) (w : W) : prog A * W :=
  match p with
  | Call c k => let '(r, w') := sys_call _ c w in run (k r) w'
  | p => (p, w)
  end.

Lemma run_bind {W A B} `{Sys W} (p : prog A) (f : A → prog B) w :
  run (pbind p f) w =
  match run p w with
  | (Ret a, w') => run (f a) w'
  | (Exit, w') => (Exit, w')
  | (Fuel, w') => (Fuel, w')
  | (Call c k, w') => (Call c (λ r, pbind (k r) f), w')
  end.
Proof.
  revert w. induction p as [a| | |R c k IH]; intros w; try done.
  simpl. destruct (sys_call R c w) as [r w']. apply IH.
Qed.

(** ** Strings *)

Definition ch (c : ascii) : Z := Z.of_N (N_of_ascii c).
Definition lit (s : string) : list Z := ch <$> list_ascii_of_string s.

(** [strcpy(s, t)]: the buffer [s] afterwards; the loop copies the NUL too. *)
Fixpoint strcpy (s t : list Z) : list Z :=
  match t with
  | [] => 0 :: tail s
  | c :: t' => c :: strcpy (tail s) t'
  end.

Fixpoint strcmp (p q : list Z) : Z :=
  match p, q with
  | c :: p', d :: q' => if c =? d then strcmp p' q' else u8 c - u8 d
  | c :: _, [] => u8 c
  | [], d :: _ => - u8 d
  | [], [] => 0
  end.

Fixpoint strlen (s : list Z) : Z :=
  match s with
  | [] => 0
  | _ :: s' => 1 + strlen s'
  end.

(** [strchr(s, c)]: the rest of the string from the first [c]. *)
Fixpoint strchr (s : list Z) (c : Z) : option (list Z) :=
  match s with
  | [] => None
  | x :: s' => if x =? c then Some s else strchr s' c
  end.

Fixpoint atoi_loop (n : Z) (s : list Z) : Z :=
  match s with
  | [] => n
  | c :: s' => if (ch "0" <=? c) && (c <=? ch "9") then atoi_loop (s32 (n * 10 + c - ch "0")) s' else n
  end.

Definition atoi (s : list Z) : Z := atoi_loop 0 s.

(** [gets(buf, max)]: the string in [buf]; one turn for each character. *)
Fixpoint gets_loop (fuel : nat) (i max : Z) : prog (list Z) :=
  match fuel with
  | O => Ret []
  | S fuel' =>
      if i + 1 <? max then
        r ⇐ call (Sread 0 1);
        match r with
        | Some (c :: _) =>
            if (c =? 10) || (c =? 13) then Ret [c]
            else s ⇐ gets_loop fuel' (i + 1) max; Ret (c :: s)
        | _ => Ret []
        end
      else Ret []
  end.

Definition gets (max : Z) : prog (list Z) := gets_loop (Z.to_nat max) 0 max.

(** [stat(n, st)]: [None] is -1. *)
Definition stat_ (n : list Z) : prog (option stat) :=
  fd ⇐ call (Sopen n 0);
  if fd <? 0 then Ret None
  else
    r ⇐ call (Sfstat fd);
    call (Sclose fd) ⨾
    Ret r.

(** ** printf *)

Fixpoint puts (fd : Z) (s : list Z) : prog unit :=
  match s with
  | [] => Ret tt
  | c :: s' => call (Swrite fd [c]) ⨾ puts fd s'
  end.

Definition digits : list Z := lit "0123456789ABCDEF".

(** The [do] loop of [printint], the digits in the order of [buf]. *)
Fixpoint digit_loop (fuel : nat) (x base : Z) : list Z :=
  match fuel with
  | O => []
  | S fuel' =>
      nth (Z.to_nat (x mod base)) digits 0 ::
      (if x / base =? 0 then [] else digit_loop fuel' (x / base) base)
  end.

(** The characters [printint] writes; [buf] has 16. *)
Definition printint (xx base : Z) (sgn : bool) : list Z :=
  let neg := sgn && (s32 xx <? 0) in
  let x := if neg then u32 (- s32 xx) else u32 xx in
  reverse (digit_loop 16 x base ++ (if neg then [ch "-"] else [])).

Inductive arg := AInt (x : Z) | AStr (s : option (list Z)).

(** The characters [printf] writes; [None] where the arguments do not fit the
    format. *)
Fixpoint format (fmt : list Z) (args : list arg) : option (list Z) :=
  match fmt with
  | [] => Some []
  | c :: fmt1 =>
      if negb (c =? ch "%") then cons c <$> format fmt1 args
      else
        match fmt1 with
        | [] => Some []
        | c :: fmt2 =>
            if c =? ch "d" then
              match args with
              | AInt x :: args' => app (printint x 10 true) <$> format fmt2 args'
              | _ => None
              end
            else if (c =? ch "x") || (c =? ch "p") then
              match args with
              | AInt x :: args' => app (printint x 16 false) <$> format fmt2 args'
              | _ => None
              end
            else if c =? ch "s" then
              match args with
              | AStr s :: args' => app (default (lit "(null)") s) <$> format fmt2 args'
              | _ => None
              end
            else if c =? ch "c" then
              match args with
              | AInt x :: args' => cons (u8 x) <$> format fmt2 args'
              | _ => None
              end
            else if c =? ch "%" then cons c <$> format fmt2 args
            else app [ch "%"; c] <$> format fmt2 args
        end
  end.

Definition printf (fd : Z) (fmt : list Z) (args : list arg) : prog unit :=
  puts fd (default [] (format fmt args)).

(** ** Properties *)

Definition value (base : Z) (ds : list Z) : Z := foldl (λ n d, n * base + d) 0 ds.

(** The value of a digit character. *)
Definition digit_val (c : Z) : Z := if c <=? ch "9" then c - ch "0" else c - ch "A" + 10.

Lemma digit_val_digit x : 0 ≤ x < 16 → digit_val (nth (Z.to_nat x) digits 0) = x.
Proof.
  intros Hx. assert (Hall : Forall (λ i, digit_val (nth i digits 0) = Z.of_nat i) (seq 0 16)) by (by repeat constructor).
  rewrite Forall_forall in Hall. rewrite Hall; [lia|]. apply elem_of_seq. lia.
Qed.

Lemma value_app base xs d : value base (xs ++ [d]) = value base xs * base + d.
Proof. unfold value. by rewrite foldl_app. Qed.

(** The loop writes the digits of [x], at most [n] if [x < base ^ n]. *)
Lemma digit_loop_spec n : ∀ x base, 2 ≤ base ≤ 16 → 0 ≤ x < base ^ Z.of_nat n → (0 < n)%nat →
  ∀ fuel, (n ≤ fuel)%nat →
  value base (digit_val <$> reverse (digit_loop fuel x base)) = x ∧
  Forall (λ c, 0 ≤ digit_val c < base) (digit_loop fuel x base) ∧ (length (digit_loop fuel x base) ≤ n)%nat.
Proof.
  induction n as [|n IH]; intros x base Hb Hx Hn fuel Hf; [lia|]. destruct fuel as [|fuel]; [lia|].
  assert (Hm : 0 ≤ x mod base < base) by (apply Z.mod_pos_bound; lia).
  cbn [digit_loop]. destruct (Z.eqb_spec (x / base) 0) as [H0|H0].
  - split_and!; [|repeat constructor; rewrite digit_val_digit; lia|simpl; lia].
    rewrite reverse_cons, fmap_app, fmap_cons, fmap_nil, value_app, digit_val_digit by lia.
    change (value base _) with 0. pose proof (Z.div_mod x base). lia.
  - assert (Hd : 0 ≤ x / base < base ^ Z.of_nat n).
    { split; [apply Z.div_pos; lia|]. apply Z.div_lt_upper_bound; [lia|]. rewrite Nat2Z.inj_succ, Z.pow_succ_r in Hx by lia. lia. }
    assert (Hn' : (0 < n)%nat) by (destruct n; [simpl in Hd; lia|lia]).
    destruct (IH (x / base) base Hb Hd Hn' fuel ltac:(lia)) as (Hv & Hall & Hl). split_and!.
    + rewrite reverse_cons, fmap_app, fmap_cons, fmap_nil, value_app, Hv, digit_val_digit by lia.
      pose proof (Z.div_mod x base). lia.
    + constructor; [rewrite digit_val_digit; lia|done].
    + simpl. lia.
Qed.

(** [printf] of a number: for [%d] and for [%x] the characters are the digits
    of the number in that base, after a minus sign if it is negative, and they
    fit in the 16 characters of the buffer. *)
Theorem printint_digits xx base (sgn : bool) :
  base = 10 ∧ sgn = true ∨ base = 16 ∧ sgn = false →
  ∃ (neg : bool) ds, printint xx base sgn = (if neg then [ch "-"] else []) ++ ds ∧ (length ds ≤ 15)%nat ∧
    Forall (λ c, 0 ≤ digit_val c < base) ds ∧
    value base (digit_val <$> ds) = (if sgn then Z.abs (s32 xx) else u32 xx) ∧ (neg = sgn && (s32 xx <? 0)).
Proof.
  intros Hb. unfold printint. set (neg := sgn && (s32 xx <? 0)).
  set (x := if neg then u32 (- s32 xx) else u32 xx).
  assert (Hx : x = (if sgn then Z.abs (s32 xx) else u32 xx)).
  { unfold x, neg. unfold s32, u32. destruct sgn; [|done]. cbn [andb].
    destruct (Z.ltb_spec ((xx + 2 ^ 31) mod 2 ^ 32 - 2 ^ 31) 0); Z.div_mod_to_equations; lia. }
  assert (Hr : 0 ≤ x < 2 ^ 32).
  { unfold x. destruct neg; apply Z.mod_pos_bound; done. }
  destruct (digit_loop_spec 10 x base) with (fuel := 16%nat) as (Hv & Hall & Hl); [lia| |lia|lia|].
  { destruct Hb as [[-> _]|[-> _]]; cbn; lia. }
  exists neg, (reverse (digit_loop 16 x base)). split_and!; try done.
  - rewrite reverse_app. by destruct neg.
  - rewrite length_reverse. lia.
  - by apply Forall_reverse.
  - by rewrite Hv.
Qed.

Lemma digit_loop_decimal fuel x : Forall (λ c, 48 ≤ c ≤ 57) (digit_loop fuel x 10).
Proof.
  revert x. induction fuel as [|fuel IH]; intros x; [constructor|]. cbn [digit_loop]. constructor.
  - assert (Hm : 0 ≤ x mod 10 < 10) by (apply Z.mod_pos_bound; lia).
    assert (Hall : Forall (λ i, 48 ≤ nth i digits 0 ≤ 57) (seq 0 10)) by (by repeat constructor).
    rewrite Forall_forall in Hall. apply Hall. apply elem_of_seq. lia.
  - destruct (x / 10 =? 0); [constructor|apply IH].
Qed.

Lemma digit_val_dec c : 48 ≤ c ≤ 57 → digit_val c = c - 48.
Proof.
  intros Hc. unfold digit_val. change (ch "9") with 57. change (ch "0") with 48. by rewrite (proj2 (Z.leb_le _ _)) by lia.
Qed.

Lemma atoi_loop_value ds : ∀ n,
  0 ≤ n → Forall (λ c, 48 ≤ c ≤ 57) ds → foldl (λ n d, n * 10 + d) n (digit_val <$> ds) < 2 ^ 31 →
  atoi_loop n ds = foldl (λ n d, n * 10 + d) n (digit_val <$> ds).
Proof.
  assert (Hmono : ∀ ds n, 0 ≤ n → Forall (λ c, 48 ≤ c ≤ 57) ds → n ≤ foldl (λ n d, n * 10 + d) n (digit_val <$> ds)).
  { clear. induction ds as [|c ds IH]; intros n Hn Hd; [done|]. apply Forall_cons in Hd as [Hc Hd]. csimpl.
    assert (Hv : digit_val c = c - 48) by (by apply digit_val_dec).
    rewrite Hv. etrans; [|apply IH; [lia|done]]. lia. }
  induction ds as [|c ds IH]; intros n Hn Hd Hlt; [done|]. apply Forall_cons in Hd as [Hc Hd]. csimpl in Hlt. csimpl.
  assert (Hv : digit_val c = c - 48) by (by apply digit_val_dec).
  rewrite Hv in *. pose proof (Hmono ds (n * 10 + (c - 48)) ltac:(lia) Hd) as Hle. cbn [atoi_loop].
  change (ch "0") with 48. change (ch "9") with 57. rewrite (proj2 (Z.leb_le 48 c)), (proj2 (Z.leb_le c 57)) by lia. cbn [andb].
  assert (Hs : s32 (n * 10 + c - 48) = n * 10 + (c - 48)) by (unfold s32; rewrite Z.mod_small by lia; lia).
  rewrite Hs. apply IH; (done || lia).
Qed.

(** [C33] A number that [printf] wrote with [%d] is read back by [atoi]. *)
Theorem printf_atoi x : 0 ≤ x < 2 ^ 31 → format (lit "%d") [AInt x] = Some (printint x 10 true) ∧ atoi (printint x 10 true) = x.
Proof.
  intros Hx. split; [cbn; by rewrite app_nil_r|].
  assert (Hs : s32 x = x) by (unfold s32; rewrite Z.mod_small by lia; lia).
  assert (Hu : u32 x = x) by (unfold u32; rewrite Z.mod_small by lia; lia).
  unfold printint. rewrite Hs, Hu, (proj2 (Z.ltb_ge x 0)) by lia. cbn [andb]. rewrite app_nil_r.
  destruct (digit_loop_spec 10 x 10 ltac:(lia)) with (fuel := 16%nat) as (Hv & _); [cbn; lia|lia|lia|].
  unfold value in Hv. unfold atoi. rewrite atoi_loop_value; [done|lia| |by rewrite Hv; lia].
  apply Forall_reverse, digit_loop_decimal.
Qed.

Lemma printint_digits_witness :
  ∃ (neg : bool) ds, printint (-2147483648) 10 true = (if neg then [ch "-"] else []) ++ ds ∧
    value 10 (digit_val <$> ds) = 2147483648.
Proof.
  destruct (printint_digits (-2147483648) 10 true) as (neg & ds & H1 & _ & _ & H2 & _); [by left|].
  exists neg, ds. split; [exact H1|exact H2].
Defined.

Lemma printf_atoi_witness : printint 2026 10 true = lit "2026" ∧ atoi (lit "2026") = 2026.
Proof. split; [reflexivity|]. exact (proj2 (printf_atoi 2026 ltac:(lia))). Defined.
