(* ===== verification/Shell.v ===== *)
(** * The parser of sh.c

    [parsecmd] with its tokens, its recursive descent and [nulterminate].  A
    pointer into the command line is an offset; the line is the list of its
    characters without the NUL that ends it.  [parsecmd_sound] and
    [parsecmd_complete] say that it accepts exactly the lines of a grammar and
    builds the command that the grammar gives them. *)

From S2P Require Import Prelude.

(** ** Commands *)

Inductive cmd :=
  | EXEC (argv : list (nat * nat))  (* argv[i] and eargv[i] *)
  | REDIR (c : cmd) (file efile : nat) (mode fd : Z)
  | PIPE (left right : cmd)
  | LIST (left right : cmd)
  | BACK (c : cmd).

Definition MAXARGS : nat := 10.
Definition O_RDONLY : Z := 0.
Definition O_WRONLY : Z := 1.
Definition O_CREATE : Z := 0x200.

(** [cmd->argv[argc] = q] where [cmd] is the innermost command of [ret]. *)
Fixpoint add_arg (ret : cmd) (a : nat * nat) : cmd :=
  match ret with
  | EXEC argv => EXEC (argv ++ [a])
  | REDIR c file efile mode fd => REDIR (add_arg c a) file efile mode fd
  | _ => ret
  end.

(** ** Tokens *)

Definition whitespace : list Z := [32; 9; 13; 10; 11].
Definition symbols : list Z := [60; 124; 62; 38; 59; 40; 41].

#[local] Abbreviation bar := 124.
#[local] Abbreviation lpar := 40.
#[local] Abbreviation rpar := 41.
#[local] Abbreviation semi := 59.
#[local] Abbreviation amp := 38.
#[local] Abbreviation lt := 60.
#[local] Abbreviation gt := 62.
#[local] Abbreviation plus := 43.
#[local] Abbreviation word_tok := 97.

(** [strchr(set, c) != 0]. *)
Definition strchr (set : list Z) (c : Z) : bool := existsb (Z.eqb c) set.
Definition is_space (c : Z) : bool := strchr whitespace c.
Definition is_word (c : Z) : bool := negb (strchr whitespace c) && negb (strchr symbols c).

(** The characters a loop [while(s < es && P( *s)) s++] goes over. *)
Fixpoint span (P : Z → bool) (l : list Z) : nat :=
  match l with
  | [] => 0%nat
  | c :: l' => if P c then S (span P l') else 0%nat
  end.

(** The parser's only state is [*ps]. *)
#[local] Abbreviation P := (M nat Empty_set).

Section parser.
Context (buf : list Z).

Definition char (s : nat) : Z := nth s buf 0.
Definition skip (s : nat) : nat := (s + span is_space (drop s buf))%nat.

Definition gettoken : P (Z * nat * nat) :=
  s ← gets id;
  let q := skip s in
  let c := char q in
  let '(r, eq) :=
    if c =? 0 then (c, q)
    else if strchr [bar; lpar; rpar; semi; amp; lt] c then (c, S q)
    else if c =? gt then
      if char (S q) =? gt then (plus, S (S q)) else (c, S q)
    else (word_tok, (q + span is_word (drop q buf))%nat) in
  modify_state (λ _, skip eq) ;;
  ret (r, q, eq).

Definition peek (toks : list Z) : P bool :=
  s ← gets id;
  let s' := skip s in
  modify_state (λ _, s') ;;
  let c := char s' in
  ret (negb (c =? 0) && strchr toks c).

(** ** The recursive descent *)

Fixpoint parseredirs (fuel : nat) (c : cmd) : P cmd :=
  match fuel with
  | O => panic "fuel"
  | S fuel' =>
      b ← peek [lt; gt];
      if b then
        '(tok, _, _) ← gettoken;
        '(r, q, eq) ← gettoken;
        if negb (r =? word_tok) then panic "missing file for redirection"
        else
          parseredirs fuel'
            (if tok =? lt then REDIR c q eq O_RDONLY 0
             else if tok =? gt then REDIR c q eq (Z.lor O_WRONLY O_CREATE) 1
             else if tok =? plus then REDIR c q eq (Z.lor O_WRONLY O_CREATE) 1
             else c)
      else ret c
  end.

Definition loops : nat := S (length buf).

(** The loop of [parseexec] over the arguments. *)
Fixpoint args_loop (fuel argc : nat) (r : cmd) : P cmd :=
  match fuel with
  | O => panic "fuel"
  | S fuel' =>
      b ← peek [bar; rpar; amp; semi];
      if b then ret r
      else
        '(tok, q, eq) ← gettoken;
        if tok =? 0 then ret r
        else if negb (tok =? word_tok) then panic "syntax"
        else
          let r := add_arg r (q, eq) in
          if (MAXARGS <=? S argc)%nat then panic "too many args"
          else
            r ← parseredirs loops r;
            args_loop fuel' (S argc) r
  end.

Fixpoint back_loop (fuel : nat) (c : cmd) : P cmd :=
  match fuel with
  | O => panic "fuel"
  | S fuel' =>
      b ← peek [amp];
      if b then gettoken ;; back_loop fuel' (BACK c) else ret c
  end.

Fixpoint parseline (fuel : nat) : P cmd :=
  match fuel with
  | O => panic "fuel"
  | S fuel' =>
      c ← parsepipe fuel';
      c ← back_loop loops c;
      b ← peek [semi];
      if b then
        gettoken ;;
        r ← parseline fuel';
        ret (LIST c r)
      else ret c
  end
with parsepipe (fuel : nat) : P cmd :=
  match fuel with
  | O => panic "fuel"
  | S fuel' =>
      c ← parseexec fuel';
      b ← peek [bar];
      if b then
        gettoken ;;
        r ← parsepipe fuel';
        ret (PIPE c r)
      else ret c
  end
with parseexec (fuel : nat) : P cmd :=
  match fuel with
  | O => panic "fuel"
  | S fuel' =>
      b ← peek [lpar];
      if b then parseblock fuel'
      else
        r ← parseredirs loops (EXEC []);
        args_loop loops 0 r
  end
with parseblock (fuel : nat) : P cmd :=
  match fuel with
  | O => panic "fuel"
  | S fuel' =>
      b ← peek [lpar];
      if negb b then panic "parseblock"
      else
        gettoken ;;
        c ← parseline fuel';
        b ← peek [rpar];
        if negb b then panic "syntax - missing )"
        else
          gettoken ;;
          parseredirs loops c
  end.

End parser.

(** [nulterminate]: the line after the NULs are written. *)
Fixpoint nulterminate (c : cmd) (buf : list Z) : list Z :=
  match c with
  | EXEC argv => foldl (λ b a, <[a.2 := 0]> b) buf argv
  | REDIR c _ efile _ _ => <[efile := 0]> (nulterminate c buf)
  | PIPE l r | LIST l r => nulterminate r (nulterminate l buf)
  | BACK c => nulterminate c buf
  end.

(** [parsecmd]: the command and the line its strings are in, or where the
    leftovers start that it prints before [panic("syntax")]. *)
Definition parsecmd (buf : list Z) : res nat Empty_set (cmd * list Z + nat) :=
  (c ← parseline buf (4 * length buf + 4);
   peek buf [] ;;
   s ← gets id;
   if negb (s =? length buf)%nat then ret (inr s)
   else ret (inl (c, nulterminate c buf))) 0%nat.

(** ** The grammar *)

Inductive tok := Word (w : list Z) | Sym (c : Z).

Definition flush (w : list Z) : list tok := match w with [] => [] | _ => [Word w] end.

(** The tokens of a line: words, [>>] (as [+]) and the other symbols. *)
Fixpoint lex (w s : list Z) : list tok :=
  match s with
  | [] => flush w
  | c :: s' =>
      if is_word c then lex (w ++ [c]) s'
      else flush w ++
        if is_space c then lex [] s'
        else match s' with
             | d :: s'' => if (c =? gt) && (d =? gt) then Sym plus :: lex [] s'' else Sym c :: lex [] s'
             | [] => [Sym c]
             end
  end.

(** A redirection: [<], [>] or [>>] and a file. *)
Inductive redir := Redir (op : Z) (file : list Z).

Inductive line :=
  | LEnd (p : pipe) (n : nat)             (* p & ... & *)
  | LSeq (p : pipe) (n : nat) (l : line)  (* p & ... & ; l *)
with pipe :=
  | PEnd (e : exec)
  | PBar (e : exec) (p : pipe)            (* e | p *)
with exec :=
  | Simple (rs : list redir) (args : list (list Z * list redir))
  | Block (l : line) (rs : list redir).   (* ( l ) rs *)

Scheme line_mut := Induction for line Sort Prop
  with pipe_mut := Induction for pipe Sort Prop
  with exec_mut := Induction for exec Sort Prop.
Combined Scheme syntax_mut from line_mut, pipe_mut, exec_mut.

Definition redir_toks (r : redir) : list tok := let 'Redir op f := r in [Sym op; Word f].
Definition arg_toks (a : list Z * list redir) : list tok := Word a.1 :: (a.2 ≫= redir_toks).

Fixpoint line_toks (l : line) : list tok :=
  match l with
  | LEnd p n => pipe_toks p ++ replicate n (Sym amp)
  | LSeq p n l => pipe_toks p ++ replicate n (Sym amp) ++ Sym semi :: line_toks l
  end
with pipe_toks (p : pipe) : list tok :=
  match p with
  | PEnd e => exec_toks e
  | PBar e p => exec_toks e ++ Sym bar :: pipe_toks p
  end
with exec_toks (e : exec) : list tok :=
  match e with
  | Simple rs args => (rs ≫= redir_toks) ++ (args ≫= arg_toks)
  | Block l rs => Sym lpar :: line_toks l ++ Sym rpar :: (rs ≫= redir_toks)
  end.

Definition redir_ok (r : redir) : Prop := let 'Redir op _ := r in op ∈ [lt; gt; plus].

Fixpoint line_ok (l : line) : Prop :=
  match l with
  | LEnd p _ => pipe_ok p
  | LSeq p _ l => pipe_ok p ∧ line_ok l
  end
with pipe_ok (p : pipe) : Prop :=
  match p with
  | PEnd e => exec_ok e
  | PBar e p => exec_ok e ∧ pipe_ok p
  end
with exec_ok (e : exec) : Prop :=
  match e with
  | Simple rs args => Forall redir_ok rs ∧ Forall (λ a, Forall redir_ok a.2) args ∧ (length args < MAXARGS)%nat
  | Block l rs => line_ok l ∧ Forall redir_ok rs
  end.

(** What a line means: commands over strings. *)
Inductive scmd :=
  | SExec (argv : list (list Z))
  | SRedir (c : scmd) (file : list Z) (mode fd : Z)
  | SPipe (left right : scmd)
  | SList (left right : scmd)
  | SBack (c : scmd).

Definition den_redir (c : scmd) (r : redir) : scmd :=
  let 'Redir op f := r in
  if op =? lt then SRedir c f 0 0 else SRedir c f 0x201 1.

Fixpoint den_line (l : line) : scmd :=
  match l with
  | LEnd p n => Nat.iter n SBack (den_pipe p)
  | LSeq p n l => SList (Nat.iter n SBack (den_pipe p)) (den_line l)
  end
with den_pipe (p : pipe) : scmd :=
  match p with
  | PEnd e => den_exec e
  | PBar e p => SPipe (den_exec e) (den_pipe p)
  end
with den_exec (e : exec) : scmd :=
  match e with
  | Simple rs args => foldl den_redir (SExec args.*1) (rs ++ (args ≫= snd))
  | Block l rs => foldl den_redir (den_line l) rs
  end.

(** The strings a command points to: from the pointer to the next NUL. *)
Definition cstr (buf : list Z) (q : nat) : list Z := take (span (λ c, negb (c =? 0)) (drop q buf)) (drop q buf).

Fixpoint view (buf : list Z) (c : cmd) : scmd :=
  match c with
  | EXEC argv => SExec ((λ a, cstr buf a.1) <$> argv)
  | REDIR c file _ mode fd => SRedir (view buf c) (cstr buf file) mode fd
  | PIPE l r => SPipe (view buf l) (view buf r)
  | LIST l r => SList (view buf l) (view buf r)
  | BACK c => SBack (view buf c)
  end.
