(* ===== verification/Shgram.v ===== *)
(** * The parser of sh.c implements the grammar

    Tokens first: [gettoken] and [peek] against [lex].  Then the recursive
    descent, sound and complete, and the strings after [nulterminate]. *)

From S2P Require Import Prelude Shell.

#[local] Abbreviation bar := 124.
#[local] Abbreviation lpar := 40.
#[local] Abbreviation rpar := 41.
#[local] Abbreviation semi := 59.
#[local] Abbreviation amp := 38.
#[local] Abbreviation lt := 60.
#[local] Abbreviation gt := 62.
#[local] Abbreviation plus := 43.
#[local] Abbreviation word_tok := 97.

(** ** Characters *)

Lemma strchr_elem set c : strchr set c = true ↔ c ∈ set.
Proof.
  unfold strchr. rewrite existsb_exists. split.
  - intros (x & Hx & He). assert (c = x) as -> by lia. by apply list_elem_of_In.
  - intros Hc. exists c. split; [by apply list_elem_of_In|lia].
Qed.

Lemma span_all P l : span P l = length (take (span P l) l) ∧ Forall (λ c, P c = true) (take (span P l) l).
Proof.
  induction l as [|c l IH]; simpl; [split; [done|constructor]|]. destruct (P c) eqn:E; simpl; [|split; [done|constructor]].
  destruct IH as [IH1 IH2]. split; [congruence|by constructor].
Qed.

Lemma span_le P l : (span P l ≤ length l)%nat.
Proof. induction l as [|c l IH]; simpl; [lia|]. destruct (P c); lia. Qed.

Lemma span_stop P l c l' : drop (span P l) l = c :: l' → P c = false.
Proof.
  induction l as [|d l IH]; simpl; [done|]. destruct (P d) eqn:E; simpl; [apply IH|]. by intros [= -> ->].
Qed.

(** ** Tokens *)

Lemma lex_space l : lex [] l = lex [] (drop (span is_space l) l).
Proof.
  induction l as [|c l IH]; [done|]. simpl span. destruct (is_space c) eqn:E; [|done]. simpl drop. rewrite <-IH.
  cbn [lex]. rewrite E. unfold is_space in E. unfold is_word. by rewrite E.
Qed.

Lemma lex_word w u r : Forall (λ c, is_word c = true) u → lex w (u ++ r) = lex (w ++ u) r.
Proof.
  revert w. induction u as [|c u IH]; intros w Hu; [by rewrite app_nil_r|]. apply Forall_cons in Hu as [Hc Hu].
  cbn [app lex]. rewrite Hc, IH by done. by rewrite <-app_assoc.
Qed.

Lemma lex_flush w r : (∀ c r', r = c :: r' → is_word c = false) → lex w r = flush w ++ lex [] r.
Proof.
  destruct r as [|c r]; intros H; simpl; [by rewrite app_nil_r|]. by rewrite (H c r).
Qed.

Lemma lex_word_tok l :
  (∃ c l', l = c :: l' ∧ is_word c = true) →
  lex [] l = Word (take (span is_word l) l) :: lex [] (drop (span is_word l) l).
Proof.
  intros (c & l' & -> & Hc). set (l := c :: l'). rewrite <-(take_drop (span is_word l) l) at 1.
  destruct (span_all is_word l) as [Hn Hall]. rewrite lex_word by done.
  rewrite lex_flush by (intros d r Hr; by eapply span_stop). unfold l. simpl. by rewrite Hc.
Qed.

Section parser.
Context (buf : list Z).
Hypothesis Hbuf : 0 ∉ buf.

#[local] Abbreviation len := (length buf).

(** The tokens from [s] on. *)
Definition toks (s : nat) : list tok := lex [] (drop s buf).

Lemma char_drop s : char buf s = match drop s buf with [] => 0 | c :: _ => c end.
Proof.
  unfold char. rewrite nth_lookup. pose proof (lookup_drop buf s 0) as Hd. rewrite Nat.add_0_r in Hd. rewrite <-Hd.
  by destruct (drop s buf).
Qed.

Lemma char_nonzero s : (s < len)%nat → char buf s ≠ 0.
Proof.
  intros Hs Hc. apply Hbuf. apply list_elem_of_In. rewrite <-Hc. by apply nth_In.
Qed.

Lemma drop_char s : (s < len)%nat → drop s buf = char buf s :: drop (S s) buf.
Proof.
  intros Hs. rewrite char_drop. destruct (drop s buf) as [|c l] eqn:E.
  - apply (f_equal length) in E. rewrite length_drop in E. simpl in E. lia.
  - f_equal. replace (S s) with (s + 1)%nat by lia. rewrite <-drop_drop, E. done.
Qed.

Lemma drop_end s : (len ≤ s)%nat → drop s buf = [].
Proof. apply drop_ge. Qed.

Lemma char_end s : (len ≤ s)%nat → char buf s = 0.
Proof. intros Hs. by rewrite char_drop, drop_end. Qed.

Lemma skip_spec s : (s ≤ len)%nat →
  (s ≤ skip buf s ≤ len)%nat ∧ toks (skip buf s) = toks s ∧ (is_space (char buf (skip buf s)) = false).
Proof.
  intros Hs. unfold skip, toks. pose proof (span_le is_space (drop s buf)) as Hle. rewrite length_drop in Hle.
  split_and!; [lia|lia|..].
  - rewrite <-drop_drop. symmetry. apply lex_space.
  - rewrite char_drop, <-drop_drop. destruct (drop (span is_space (drop s buf)) (drop s buf)) as [|c l] eqn:E; [done|].
    by eapply span_stop.
Qed.

Lemma skip_end s : (s ≤ len)%nat → toks s = [] → skip buf s = len.
Proof.
  intros Hs Ht. destruct (skip_spec s Hs) as (Hle & Heq & Hsp). destruct (decide (skip buf s = len)) as [|Hne]; [done|exfalso].
  rewrite Ht in Heq. unfold toks in Heq. rewrite drop_char in Heq by lia. set (c := char buf (skip buf s)) in *.
  destruct (is_word c) eqn:Ew.
  - rewrite lex_word_tok in Heq by eauto. done.
  - cbn [lex] in Heq. rewrite Ew, Hsp in Heq. simpl in Heq. destruct (drop _ _); [done|]. by destruct (_ && _).
Qed.

(** What [gettoken] returns for a token, and the word it points to. *)
Definition word_at (q eq : nat) : Prop :=
  (q < eq ≤ len)%nat ∧ (∀ i, (q ≤ i < eq)%nat → is_word (char buf i) = true) ∧ (eq = len ∨ is_word (char buf eq) = false).

Definition word (q eq : nat) : list Z := take (eq - q) (drop q buf).

Definition sym_char (c : Z) : Z := if c =? plus then gt else c.

Definition peeks (set : list Z) (ts : list tok) : bool :=
  match ts with Sym c :: _ => strchr set (sym_char c) | _ => false end.

Lemma toks_char s : (s < len)%nat → toks s = lex [] (char buf s :: drop (S s) buf).
Proof. intros Hs. unfold toks. by rewrite drop_char. Qed.

(** The token at a character that is no space. *)
Lemma toks_word s : (s < len)%nat → is_word (char buf s) = true →
  let eq := (s + span is_word (drop s buf))%nat in
  word_at s eq ∧ toks s = Word (word s eq) :: toks eq.
Proof.
  intros Hs Hw eq. pose proof (span_le is_word (drop s buf)) as Hle. rewrite length_drop in Hle.
  assert (Hpos : (0 < span is_word (drop s buf))%nat) by (rewrite drop_char by done; simpl; rewrite Hw; lia).
  split.
  - unfold word_at, eq. split_and!; [lia|lia| |].
    + intros i Hi. destruct (span_all is_word (drop s buf)) as [Hn Hall]. rewrite Forall_lookup in Hall.
      apply (Hall (i - s)%nat). rewrite lookup_take_lt by lia. rewrite lookup_drop. replace (s + (i - s))%nat with i by lia.
      unfold char. rewrite nth_lookup. destruct (lookup_lt_is_Some_2 buf i) as [x Hx]; [lia|]. by rewrite Hx.
    + destruct (decide ((s + span is_word (drop s buf))%nat = len)) as [|Hne]; [by left|right].
      destruct (drop (span is_word (drop s buf)) (drop s buf)) as [|c l] eqn:E.
      * apply (f_equal length) in E. rewrite !length_drop in E. simpl in E. lia.
      * rewrite char_drop, <-drop_drop, E. by eapply span_stop.
  - unfold toks at 1. rewrite lex_word_tok by (rewrite drop_char by done; eauto). unfold word, eq, toks.
    rewrite drop_drop. do 2 f_equal. f_equal. lia.
Qed.

Lemma toks_sym s : (s < len)%nat → is_word (char buf s) = false → is_space (char buf s) = false →
  (char buf s = gt ∧ char buf (S s) = gt ∧ (S (S s) ≤ len)%nat ∧ toks s = Sym plus :: toks (S (S s))) ∨
  (¬ (char buf s = gt ∧ char buf (S s) = gt) ∧ toks s = Sym (char buf s) :: toks (S s)).
Proof.
  intros Hs Hw Hsp. rewrite toks_char by done. cbn [lex]. rewrite Hw, Hsp. cbn [flush app].
  destruct (decide (S s < len)%nat) as [Hlt|Hge].
  - rewrite (drop_char (S s)) by done. destruct ((char buf s =? gt) && (char buf (S s) =? gt)) eqn:E.
    + left. split_and!; [lia|lia|lia|done].
    + right. split; [lia|]. unfold toks. by rewrite (drop_char (S s)).
  - rewrite drop_end by lia. right. split; [rewrite (char_end (S s)) by lia; lia|]. unfold toks. by rewrite drop_end by lia.
Qed.

(** [peek] sees the first token. *)
Lemma peek_run set s :
  (s ≤ len)%nat → (∀ c, strchr set c = true → strchr symbols c = true) →
  ∃ s', peek buf set s = Ok (peeks set (toks s)) s' ∧ (s ≤ s' ≤ len)%nat ∧ toks s' = toks s.
Proof.
  intros Hs Hset. destruct (skip_spec s Hs) as (Hle & Heq & Hsp). exists (skip buf s). split; [|done].
  unfold peek, bind, gets, modify_state, ret, id. cbv beta iota zeta. f_equal. rewrite <-Heq. set (q := skip buf s) in *.
  destruct (decide (q = len)) as [Hq|Hne].
  { rewrite char_end by lia. unfold toks. by rewrite drop_end by lia. }
  rewrite (proj2 (Z.eqb_neq _ 0)) by (apply char_nonzero; lia). cbn [negb andb].
  destruct (is_word (char buf q)) eqn:Ew.
  - destruct (toks_word q) as [_ ->]; [lia|done|]. cbn [peeks]. destruct (strchr set (char buf q)) eqn:E; [|done].
    apply Hset in E. unfold is_word in Ew. rewrite E in Ew. by rewrite andb_false_r in Ew.
  - destruct (toks_sym q) as [(Hc & _ & _ & ->)|[Hng ->]]; [lia|done|done|..]; cbn [peeks]; unfold sym_char; [by rewrite Hc|].
    destruct (Z.eqb_spec (char buf q) plus) as [Hp|]; [by rewrite Hp in Ew|done].
Qed.

Definition tok_ret (t : tok) (r : Z) (q eq : nat) : Prop :=
  match t with
  | Word w => r = word_tok ∧ word_at q eq ∧ w = word q eq
  | Sym c => r = c ∧ c ≠ 0 ∧ c ≠ word_tok
  end.

(** [gettoken] takes the first token. *)
Lemma gettoken_run s :
  (s ≤ len)%nat →
  ∃ r q eq s', gettoken buf s = Ok (r, q, eq) s' ∧ (s ≤ s' ≤ len)%nat ∧
    match toks s with
    | [] => r = 0 ∧ s' = len
    | t :: ts => tok_ret t r q eq ∧ toks s' = ts
    end.
Proof.
  intros Hs. destruct (skip_spec s Hs) as (Hle & Heq & Hsp). unfold gettoken, bind, gets, modify_state, ret, id. cbv beta iota zeta. rewrite <-Heq.
  set (q := skip buf s) in *. destruct (decide (q = len)) as [Hq|Hne].
  { rewrite char_end by lia. cbn. do 4 eexists. split; [done|]. unfold toks at 1. rewrite drop_end by lia. cbn.
    assert (Hl : skip buf q = len). { apply skip_end; [lia|]. unfold toks. by rewrite drop_end by lia. }
    rewrite Hl. split_and!; (done || lia). }
  assert (Hlt : (q < len)%nat) by lia. pose proof (char_nonzero q Hlt) as Hnz. rewrite (proj2 (Z.eqb_neq _ 0) Hnz).
  assert (Hrest : ∀ eq, (q ≤ eq ≤ len)%nat → (s ≤ skip buf eq ≤ len)%nat ∧ toks (skip buf eq) = toks eq).
  { intros eq Hq. destruct (skip_spec eq) as (? & ? & _); [lia|]. split; [lia|done]. }
  destruct (is_word (char buf q)) eqn:Ew.
  - assert (Hn : strchr symbols (char buf q) = false) by (unfold is_word in Ew; destruct (strchr symbols _); [by rewrite andb_false_r in Ew|done]).
    assert (strchr [bar; lpar; rpar; semi; amp; lt] (char buf q) = false ∧ char buf q ≠ gt) as [-> Hg].
    { cbn in Hn |- *. lia. }
    rewrite (proj2 (Z.eqb_neq _ _) Hg). destruct (toks_word q Hlt Ew) as [Hwa ->]. set (eq := (q + _)%nat) in *.
    do 4 eexists. split; [done|]. destruct (Hrest eq) as [? ?]; [pose proof (proj1 Hwa); lia|]. split_and!; [lia|lia|done..].
  - assert (Hsy : strchr symbols (char buf q) = true).
    { unfold is_word in Ew. unfold is_space in Hsp. rewrite Hsp in Ew. by destruct (strchr symbols _). }
    destruct (toks_sym q Hlt Ew Hsp) as [(Hc & Hc' & Hl2 & ->)|[Hng ->]].
    + rewrite Hc, Hc'. change (strchr [bar; lpar; rpar; semi; amp; lt] gt) with false. rewrite Z.eqb_refl. do 4 eexists. split; [done|]. destruct (Hrest (S (S q))) as [? ?]; [lia|]. split_and!; (done || lia).
    + assert (Hret : (if strchr [bar; lpar; rpar; semi; amp; lt] (char buf q) then (char buf q, S q)
        else if char buf q =? gt then if char buf (S q) =? gt then (plus, S (S q)) else (char buf q, S q)
        else (word_tok, (q + span is_word (drop q buf))%nat)) = (char buf q, S q)).
      { destruct (strchr [bar; lpar; rpar; semi; amp; lt] (char buf q)) eqn:E; [done|].
        destruct (Z.eqb_spec (char buf q) gt) as [Hg|Hg].
        - by rewrite (proj2 (Z.eqb_neq _ _)) by tauto.
        - cbn in E, Hsy. lia. }
      rewrite Hret. do 4 eexists. split; [done|]. destruct (Hrest (S q)) as [? ?]; [lia|].
      split; [lia|]. split; [|done]. cbn [tok_ret]. split_and!; [done|done|]. intros Hx. by rewrite Hx in Ew.
Qed.

Lemma lex_length w l : (length (lex w l) ≤ length (flush w) + length l)%nat.
Proof.
  cut (∀ n w l, (length l ≤ n)%nat → (length (lex w l) ≤ length (flush w) + length l)%nat); [eauto|]. clear.
  induction n as [|n IH]; intros w [|c l] Hn; simpl in *; try lia.
  destruct (is_word c).
  - etrans; [apply IH; lia|]. destruct w; simpl; lia.
  - rewrite length_app. destruct (is_space c).
    + pose proof (IH [] l ltac:(lia)). simpl in *. lia.
    + destruct l as [|d l]; simpl in *; [lia|]. destruct (_ && _); simpl.
      * pose proof (IH [] l ltac:(lia)). simpl in *. lia.
      * pose proof (IH [] (d :: l) ltac:(simpl; lia)) as H. simpl in *. lia.
Qed.

Lemma toks_length s : (length (toks s) ≤ len - s)%nat.
Proof. unfold toks. etrans; [apply lex_length|]. simpl. by rewrite length_drop. Qed.

(** ** Commands and their strings *)

Fixpoint cmd_ok (c : cmd) : Prop :=
  match c with
  | EXEC argv => Forall (λ a, word_at a.1 a.2) argv
  | REDIR c q eq _ _ => word_at q eq ∧ cmd_ok c
  | PIPE l r | LIST l r => cmd_ok l ∧ cmd_ok r
  | BACK c => cmd_ok c
  end.

Fixpoint erase (c : cmd) : scmd :=
  match c with
  | EXEC argv => SExec ((λ a, word a.1 a.2) <$> argv)
  | REDIR c q eq mode fd => SRedir (erase c) (word q eq) mode fd
  | PIPE l r => SPipe (erase l) (erase r)
  | LIST l r => SList (erase l) (erase r)
  | BACK c => SBack (erase c)
  end.

Lemma den_redir_shape c r : ∃ f m fd, den_redir c r = SRedir c f m fd.
Proof. destruct r as [op f]. unfold den_redir. destruct (op =? lt); eauto. Qed.

Lemma den_redir_cong c c' r f m fd : den_redir c r = SRedir c' f m fd → c = c' ∧ ∀ d, den_redir d r = SRedir d f m fd.
Proof. destruct r as [op f']. unfold den_redir. destruct (op =? lt); by intros [= -> -> <- <-]. Qed.

(** An argument added to the innermost command. *)
Lemma erase_add_arg r q eq args rs :
  erase r = foldl den_redir (SExec args) rs →
  erase (add_arg r (q, eq)) = foldl den_redir (SExec (args ++ [word q eq])) rs.
Proof.
  revert r. induction rs as [|x rs IH] using rev_ind; intros r Hr.
  - simpl in *. destruct r as [argv| | | |]; try done. simpl in *. injection Hr as <-. by rewrite fmap_app.
  - rewrite foldl_app in *. simpl in *.
    destruct (den_redir_shape (foldl den_redir (SExec args) rs) x) as (f & m & fd & Hx). rewrite Hx in Hr.
    destruct r as [|c q' eq' m' fd'| | |]; try done. simpl in Hr. injection Hr as Hc <- <- <-.
    destruct (den_redir_cong _ _ _ _ _ _ Hx) as [_ Hd]. rewrite Hd. simpl. by rewrite (IH c).
Qed.

Lemma cmd_ok_add_arg r q eq : cmd_ok r → word_at q eq → cmd_ok (add_arg r (q, eq)).
Proof.
  induction r as [argv|c IH ? ? ? ?| | |]; simpl; try done.
  - intros Ha Hw. apply Forall_app. split; [done|]. by constructor.
  - intros [? ?] ?. split; [done|by apply IH].
Qed.

(** ** Soundness *)

Definition msgs : list string := ["missing file for redirection"; "syntax"; "too many args"; "syntax - missing )"]%string.

(** [m] returns with [Q] or ends in one of the shell's messages. *)
Definition safe {A} (m : M nat Empty_set A) (Q : A → nat → Prop) (s : nat) : Prop :=
  match m s with
  | Ok a s' => (s ≤ s' ≤ len)%nat ∧ Q a s'
  | Panic msg => msg ∈ msgs
  | Sleep _ _ => False
  end.

Lemma safe_bind {A B} (m : M nat Empty_set A) (f : A → M nat Empty_set B) Q R s :
  safe m Q s → (∀ a s', (s ≤ s' ≤ len)%nat → Q a s' → safe (f a) R s') → safe (bind m f) R s.
Proof.
  unfold safe, bind. destruct (m s) as [a s'| |]; [|done..]. intros [Hs HQ] H. specialize (H a s' Hs HQ).
  destruct (f a s'); [|done..]. split; [lia|tauto].
Qed.

Lemma safe_mono {A} (m : M nat Empty_set A) (Q R : A → nat → Prop) s :
  safe m Q s → (∀ a s', (s ≤ s' ≤ len)%nat → Q a s' → R a s') → safe m R s.
Proof. unfold safe. destruct (m s); [|done..]. intros [Hs HQ] H. split; [done|by apply H]. Qed.

Lemma safe_ret {A} (a : A) (Q : A → nat → Prop) s : (s ≤ len)%nat → Q a s → safe (ret a) Q s.
Proof. unfold safe, ret. split; [lia|done]. Qed.

Lemma safe_panic {A} msg (Q : A → nat → Prop) s : msg ∈ msgs → safe (panic msg) Q s.
Proof. done. Qed.

Definition syms (set : list Z) : Prop := ∀ c, strchr set c = true → strchr symbols c = true.

Lemma safe_peek set s : (s ≤ len)%nat → syms set → safe (peek buf set) (λ b s', b = peeks set (toks s) ∧ toks s' = toks s) s.
Proof. intros Hs Hset. destruct (peek_run set s Hs Hset) as (s' & Hr & Hle & Ht). unfold safe. by rewrite Hr. Qed.

Lemma safe_gettoken s :
  (s ≤ len)%nat →
  safe (gettoken buf) (λ '(r, q, eq) s', match toks s with
    | [] => r = 0 ∧ toks s' = []
    | t :: ts => tok_ret t r q eq ∧ toks s' = ts
    end) s.
Proof.
  intros Hs. destruct (gettoken_run s Hs) as (r & q & eq & s' & Hr & Hle & Ht). unfold safe. rewrite Hr.
  split; [done|]. destruct (toks s); [|done]. destruct Ht as [-> ->]. split; [done|]. unfold toks. by rewrite drop_end.
Qed.

Ltac solve_syms := unfold syms; intros ?; cbn; lia.

Lemma peeks_true set ts : peeks set ts = true → ∃ c ts', ts = Sym c :: ts' ∧ strchr set (sym_char c) = true.
Proof. destruct ts as [|[w|c] ts]; simpl; [done..|]. eauto. Qed.

Lemma peeks_one d ts : d ≠ gt → d ≠ plus → peeks [d] ts = true → ∃ ts', ts = Sym d :: ts'.
Proof.
  intros Hg Hp (c & ts' & -> & Hc)%peeks_true. exists ts'. unfold strchr, sym_char in Hc. simpl in Hc.
  destruct (Z.eqb_spec c plus); [lia|]. by assert (c = d) as -> by lia.
Qed.

Lemma redirs_sound fuel : ∀ c s,
  (s ≤ len)%nat → (length (toks s) < fuel)%nat →
  safe (parseredirs buf fuel c) (λ c' s', ∃ rs, Forall redir_ok rs ∧ toks s = (rs ≫= redir_toks) ++ toks s' ∧
    (cmd_ok c → cmd_ok c') ∧ erase c' = foldl den_redir (erase c) rs) s.
Proof.
  induction fuel as [|fuel IH]; intros c s Hs Hf; [lia|]. cbn [parseredirs].
  eapply safe_bind; [apply safe_peek; [done|solve_syms]|]. intros b s1 Hs1 [-> Ht1]. rewrite <-Ht1 in *.
  destruct (peeks [lt; gt] (toks s1)) eqn:Hp; [|apply safe_ret; [lia|by exists []]].
  apply peeks_true in Hp as (op & ts & Ht & Hop).
  eapply safe_bind; [apply safe_gettoken; lia|]. intros [[r q] eq] s2 Hs2 Hr. rewrite Ht in Hr.
  destruct Hr as [(-> & _ & _) Ht2].
  eapply safe_bind; [apply safe_gettoken; lia|]. intros [[r q'] eq'] s3 Hs3 Hr. rewrite Ht2 in Hr.
  destruct (Z.eqb_spec r word_tok) as [->|Hne]; cbn [negb]; [|by apply safe_panic; set_solver].
  destruct ts as [|[w|c'] ts]; [naive_solver| |naive_solver]. destruct Hr as [(_ & Hw & ->) Ht3].
  assert (Hopc : op = lt ∨ op = gt ∨ op = plus).
  { unfold sym_char in Hop. destruct (Z.eqb_spec op plus); [tauto|]. cbn in Hop. lia. }
  set (c1 := if op =? lt then _ else _).
  assert (Hc1 : (cmd_ok c → cmd_ok c1) ∧ erase c1 = den_redir (erase c) (Redir op (word q' eq'))).
  { unfold c1. destruct Hopc as [->|[->| ->]]; cbn; done. }
  destruct Hc1 as [Hok He]. rewrite Ht in Hf. simpl in Hf.
  eapply safe_mono; [apply IH; [lia|rewrite Ht3; lia]|]. intros c2 s4 Hs4 (rs & Hrs & Hts & Hok' & He').
  rewrite Ht3 in Hts. exists (Redir op (word q' eq') :: rs). split_and!.
  - constructor; [|done]. simpl. set_solver.
  - rewrite Ht. simpl. by rewrite Hts.
  - tauto.
  - rewrite He', He. done.
Qed.

Lemma back_sound fuel : ∀ c s,
  (s ≤ len)%nat → (length (toks s) < fuel)%nat →
  safe (back_loop buf fuel c) (λ c' s', ∃ n, toks s = replicate n (Sym amp) ++ toks s' ∧
    (cmd_ok c → cmd_ok c') ∧ erase c' = Nat.iter n SBack (erase c)) s.
Proof.
  induction fuel as [|fuel IH]; intros c s Hs Hf; [lia|]. cbn [back_loop].
  eapply safe_bind; [apply safe_peek; [done|solve_syms]|]. intros b s1 Hs1 [-> Ht1]. rewrite <-Ht1 in *.
  destruct (peeks [amp] (toks s1)) eqn:Hp; [|apply safe_ret; [lia|by exists 0%nat]].
  apply peeks_one in Hp as (ts & Ht); [|done..]. rewrite Ht in Hf. simpl in Hf.
  eapply safe_bind; [apply safe_gettoken; lia|]. intros [[r q] eq] s2 Hs2 Hr. rewrite Ht in Hr. destruct Hr as [_ Ht2].
  eapply safe_mono; [apply IH; [lia|rewrite Ht2; lia]|]. intros c2 s3 Hs3 (n & Hn & Hok & He).
  rewrite Ht2 in Hn. exists (S n). split_and!; [|done|].
  - rewrite Ht. simpl. by rewrite Hn.
  - rewrite He. simpl. by rewrite <-Nat.iter_succ_r.
Qed.

Lemma args_sound fuel : ∀ argc r s rs args,
  (s ≤ len)%nat → (length (toks s) < fuel)%nat → cmd_ok r → length args = argc → (argc < MAXARGS)%nat →
  Forall (λ a : _ * _, Forall redir_ok a.2) args →
  erase r = foldl den_redir (SExec args.*1) (rs ++ (args ≫= snd)) →
  safe (args_loop buf fuel argc r) (λ r' s', ∃ more, toks s = (more ≫= arg_toks) ++ toks s' ∧ cmd_ok r' ∧
    Forall (λ a, Forall redir_ok a.2) (args ++ more) ∧ (length (args ++ more) < MAXARGS)%nat ∧
    erase r' = foldl den_redir (SExec (args ++ more).*1) (rs ++ ((args ++ more) ≫= snd))) s.
Proof.
  induction fuel as [|fuel IH]; intros argc r s rs args Hs Hf Hok Hlen Hmax Hargs Her; [lia|]. cbn [args_loop].
  eapply safe_bind; [apply safe_peek; [done|solve_syms]|]. intros b s1 Hs1 [-> Ht1]. rewrite <-Ht1 in *.
  assert (Hend : safe (ret r) (λ r' s', ∃ more, toks s1 = (more ≫= arg_toks) ++ toks s' ∧ cmd_ok r' ∧
    Forall (λ a, Forall redir_ok a.2) (args ++ more) ∧ (length (args ++ more) < MAXARGS)%nat ∧
    erase r' = foldl den_redir (SExec (args ++ more).*1) (rs ++ ((args ++ more) ≫= snd))) s1).
  { apply safe_ret; [lia|]. exists []. rewrite !app_nil_r. split_and!; (done || lia). }
  destruct (peeks _ (toks s1)) eqn:Hp; [exact Hend|].
  eapply safe_bind; [apply safe_gettoken; lia|]. intros [[tok q] eq] s2 Hs2 Hr.
  destruct (Z.eqb_spec tok 0) as [->|Htok].
  { destruct (toks s1) as [|[w|c] ts] eqn:Ht; [|naive_solver..]. destruct Hr as [_ Ht2]. apply safe_ret; [lia|].
    exists []. rewrite Ht2, !app_nil_r. split_and!; (done || lia). }
  destruct (Z.eqb_spec tok word_tok) as [->|Hne]; cbn [negb]; [|by apply safe_panic; set_solver].
  destruct (toks s1) as [|[w|c] ts] eqn:Ht; [naive_solver| |naive_solver]. destruct Hr as [(_ & Hw & ->) Ht2].
  destruct (Nat.leb_spec MAXARGS (S argc)) as [Hle|Hlt]; [by apply safe_panic; set_solver|]. simpl in Hf.
  eapply safe_bind; [apply (redirs_sound (loops buf) (add_arg r (q, eq))); [lia|]|].
  { unfold loops. pose proof (toks_length s2). lia. }
  intros r3 s3 Hs3 (rs3 & Hrs3 & Ht3 & Hok3 & He3). rewrite Ht2 in Ht3.
  eapply safe_mono; [apply (IH (S argc) r3 s3 rs (args ++ [(word q eq, rs3)]))|].
  - lia.
  - assert (length (toks s3) ≤ length ts)%nat; [|lia]. rewrite Ht3, length_app. lia.
  - by apply Hok3, cmd_ok_add_arg.
  - rewrite length_app. simpl. lia.
  - lia.
  - apply Forall_app. split; [done|]. by constructor.
  - rewrite He3. rewrite (erase_add_arg _ _ _ args.*1 (rs ++ (args ≫= snd))) by done. rewrite <-foldl_app.
    rewrite fmap_app, bind_app. simpl. by rewrite app_nil_r, app_assoc.
  - intros r4 s4 Hs4 (more & Hm & Hok4 & Hall & Hl4 & He4). exists ((word q eq, rs3) :: more).
    rewrite <-app_assoc in *. simpl in *. split_and!; try done. by rewrite Ht3, Hm, <-app_assoc.
Qed.

Lemma loops_enough s : (length (toks s) < loops buf)%nat.
Proof. unfold loops. pose proof (toks_length s). lia. Qed.

Definition Line c s s' := ∃ l, line_ok l ∧ toks s = line_toks l ++ toks s' ∧ cmd_ok c ∧ erase c = den_line l.
Definition Pipe c s s' := ∃ p, pipe_ok p ∧ toks s = pipe_toks p ++ toks s' ∧ cmd_ok c ∧ erase c = den_pipe p.
Definition Exec c s s' := ∃ e, exec_ok e ∧ toks s = exec_toks e ++ toks s' ∧ cmd_ok c ∧ erase c = den_exec e.

#[local] Abbreviation todo s := (length (toks s)).

(** The four procedures with [fuel] enough for the tokens that are left. *)
Definition line_safe fuel := ∀ s, (s ≤ len → 4 * todo s + 4 ≤ fuel)%nat → (s ≤ len)%nat → safe (parseline buf fuel) (λ c s', Line c s s') s.
Definition pipe_safe fuel := ∀ s, (s ≤ len → 4 * todo s + 3 ≤ fuel)%nat → (s ≤ len)%nat → safe (parsepipe buf fuel) (λ c s', Pipe c s s') s.
Definition exec_safe fuel := ∀ s, (s ≤ len → 4 * todo s + 2 ≤ fuel)%nat → (s ≤ len)%nat → safe (parseexec buf fuel) (λ c s', Exec c s s') s.
Definition block_safe fuel := ∀ s, (s ≤ len → 4 * todo s + 1 ≤ fuel)%nat → (s ≤ len)%nat →
  peeks [lpar] (toks s) = true → safe (parseblock buf fuel) (λ c s', Exec c s s') s.

Lemma block_step fuel : line_safe fuel → block_safe (S fuel).
Proof.
  intros IH s Hf Hs Hp. specialize (Hf Hs). cbn [parseblock].
  eapply safe_bind; [apply safe_peek; [done|solve_syms]|]. intros b s1 Hs1 [-> Ht1]. rewrite Hp. cbn [negb].
  apply peeks_one in Hp as (ts & Ht); [|done..]. rewrite Ht in Hf. simpl in Hf.
  eapply safe_bind; [apply safe_gettoken; lia|]. intros [[r q] eq] s2 Hs2 Hr. rewrite Ht1, Ht in Hr. destruct Hr as [_ Ht2].
  eapply safe_bind; [apply IH; [rewrite Ht2|]; lia|]. intros c s3 Hs3 (l & Hl & Htl & Hok & He).
  eapply safe_bind; [apply safe_peek; [lia|solve_syms]|]. intros b s4 Hs4 [-> Ht4].
  destruct (peeks [rpar] (toks s3)) eqn:Hp3; cbn [negb]; [|by apply safe_panic; set_solver].
  apply peeks_one in Hp3 as (ts3 & Ht3); [|done..].
  eapply safe_bind; [apply safe_gettoken; lia|]. intros [[r' q'] eq'] s5 Hs5 Hr. rewrite Ht4, Ht3 in Hr. destruct Hr as [_ Ht5].
  eapply safe_mono; [apply redirs_sound; [lia|apply loops_enough]|]. intros c' s6 Hs6 (rs & Hrs & Hts & Hok' & He').
  exists (Block l rs). split_and!; [by split| |tauto|].
  - rewrite Ht, <-Ht2, Htl, Ht3, <-Ht5, Hts. simpl. by rewrite <-!app_assoc.
  - rewrite He', He. done.
Qed.

Lemma exec_step fuel : block_safe fuel → exec_safe (S fuel).
Proof.
  intros IH s Hf Hs. specialize (Hf Hs). cbn [parseexec].
  eapply safe_bind; [apply safe_peek; [done|solve_syms]|]. intros b s1 Hs1 [-> Ht1].
  destruct (peeks [lpar] (toks s)) eqn:Hp.
  { eapply safe_mono; [apply IH; rewrite ?Ht1; (lia || done)|]. intros c s' Hs' (e & He). exists e. by rewrite <-Ht1. }
  eapply safe_bind; [apply redirs_sound; [lia|apply loops_enough]|]. intros r s2 Hs2 (rs & Hrs & Hts & Hok & He).
  eapply safe_mono; [apply (args_sound (loops buf) 0 r s2 rs []); try done|].
  - lia.
  - apply loops_enough.
  - apply Hok. constructor.
  - unfold MAXARGS. lia.
  - simpl. by rewrite app_nil_r.
  - intros r' s3 Hs3 (more & Hm & Hok' & Hall & Hlen & He'). exists (Simple rs more). simpl. split_and!; try done.
    by rewrite <-Ht1, Hts, Hm, <-app_assoc.
Qed.

Lemma pipe_step fuel : exec_safe fuel → pipe_safe fuel → pipe_safe (S fuel).
Proof.
  intros IHe IHp s Hf Hs. specialize (Hf Hs). cbn [parsepipe].
  eapply safe_bind; [apply IHe; lia|]. intros c s1 Hs1 (e & Hoke & Hte & Hok & He).
  eapply safe_bind; [apply safe_peek; [lia|solve_syms]|]. intros b s2 Hs2 [-> Ht2].
  destruct (peeks [bar] (toks s1)) eqn:Hp.
  2: { apply safe_ret; [lia|]. exists (PEnd e). by rewrite Ht2. }
  apply peeks_one in Hp as (ts & Ht); [|done..]. apply (f_equal length) in Hte as Hlen. rewrite length_app, Ht in Hlen. simpl in Hlen.
  eapply safe_bind; [apply safe_gettoken; lia|]. intros [[r q] eq] s3 Hs3 Hr. rewrite Ht2, Ht in Hr. destruct Hr as [_ Ht3].
  eapply safe_bind; [apply IHp; [rewrite Ht3|]; lia|]. intros c' s4 Hs4 (p & Hokp & Htp & Hok' & He').
  apply safe_ret; [lia|]. exists (PBar e p). simpl. split_and!; try done; [|congruence].
  by rewrite Hte, Ht, <-Ht3, Htp, <-app_assoc.
Qed.

Lemma line_step fuel : pipe_safe fuel → line_safe fuel → line_safe (S fuel).
Proof.
  intros IHp IHl s Hf Hs. specialize (Hf Hs). cbn [parseline].
  eapply safe_bind; [apply IHp; lia|]. intros c s1 Hs1 (p & Hokp & Htp & Hok & He).
  eapply safe_bind; [apply back_sound; [lia|apply loops_enough]|]. intros c' s2 Hs2 (n & Htn & Hok' & He').
  eapply safe_bind; [apply safe_peek; [lia|solve_syms]|]. intros b s3 Hs3 [-> Ht3].
  destruct (peeks [semi] (toks s2)) eqn:Hp.
  2: { apply safe_ret; [lia|]. exists (LEnd p n). simpl. split_and!; [done| |tauto|congruence].
       by rewrite Htp, Htn, Ht3, <-app_assoc. }
  apply peeks_one in Hp as (ts & Ht); [|done..].
  assert (Hlen : (length ts < todo s)%nat) by (rewrite Htp, Htn, Ht, !length_app; simpl; lia).
  eapply safe_bind; [apply safe_gettoken; lia|]. intros [[r q] eq] s4 Hs4 Hr. rewrite Ht3, Ht in Hr. destruct Hr as [_ Ht4].
  eapply safe_bind; [apply IHl; [rewrite Ht4|]; lia|]. intros c'' s5 Hs5 (l & Hokl & Htl & Hok'' & He'').
  apply safe_ret; [lia|]. exists (LSeq p n l). simpl. split_and!; try done; [|tauto|congruence].
  by rewrite Htp, Htn, Ht, <-Ht4, Htl, <-!app_assoc.
Qed.

Lemma parse_sound fuel : line_safe fuel ∧ pipe_safe fuel ∧ exec_safe fuel ∧ block_safe fuel.
Proof.
  induction fuel as [|fuel (IHl & IHp & IHe & IHb)].
  - split_and!; intros s Hf Hs; specialize (Hf Hs); lia.
  - split_and!; [by apply line_step|by apply pipe_step|by apply exec_step|by apply block_step].
Qed.

(** ** Completeness *)

Definition runs {A} (m : M nat Empty_set A) (Q : A → nat → Prop) (s : nat) : Prop :=
  ∃ a s', m s = Ok a s' ∧ (s ≤ s' ≤ len)%nat ∧ Q a s'.

Lemma runs_bind {A B} (m : M nat Empty_set A) (f : A → M nat Empty_set B) Q R s :
  runs m Q s → (∀ a s', (s ≤ s' ≤ len)%nat → Q a s' → runs (f a) R s') → runs (bind m f) R s.
Proof.
  intros (a & s1 & Hm & Hs1 & HQ) H. destruct (H a s1 Hs1 HQ) as (b & s2 & Hf & Hs2 & HR).
  exists b, s2. rewrite (bind_ok _ _ _ _ _ Hm). split_and!; (done || lia).
Qed.

Lemma runs_mono {A} (m : M nat Empty_set A) (Q R : A → nat → Prop) s :
  runs m Q s → (∀ a s', (s ≤ s' ≤ len)%nat → Q a s' → R a s') → runs m R s.
Proof. intros (a & s' & Hm & Hs & HQ) H. exists a, s'. split_and!; [done|lia|lia|by apply H]. Qed.

Lemma runs_ret {A} (a : A) (Q : A → nat → Prop) s : (s ≤ len)%nat → Q a s → runs (ret a) Q s.
Proof. intros Hs HQ. exists a, s. split_and!; (done || lia). Qed.

Lemma runs_peek set s : (s ≤ len)%nat → syms set → runs (peek buf set) (λ b s', b = peeks set (toks s) ∧ toks s' = toks s) s.
Proof. intros Hs Hset. destruct (peek_run set s Hs Hset) as (s' & Hr & Hle & Ht). by do 2 eexists. Qed.

Lemma runs_gettoken s :
  (s ≤ len)%nat →
  runs (gettoken buf) (λ '(r, q, eq) s', match toks s with
    | [] => r = 0 ∧ toks s' = []
    | t :: ts => tok_ret t r q eq ∧ toks s' = ts
    end) s.
Proof.
  intros Hs. destruct (gettoken_run s Hs) as (r & q & eq & s' & Hr & Hle & Ht). do 2 eexists. split; [exact Hr|].
  split; [done|]. destruct (toks s); [|done]. destruct Ht as [-> ->]. split; [done|]. unfold toks. by rewrite drop_end.
Qed.

(** What may follow: the end, or one of these symbols. *)
Definition follows (set : list Z) (rest : list tok) : Prop := rest = [] ∨ ∃ c ts, rest = Sym c :: ts ∧ c ∈ set.

Lemma follows_peeks set set' rest :
  follows set rest → Forall (λ c, strchr set' (sym_char c) = false) set → peeks set' rest = false.
Proof. intros [->|(c & ts & -> & Hc)] Hall; [done|]. rewrite Forall_forall in Hall. by apply Hall. Qed.

Lemma follows_mono set set' rest : follows set rest → set ⊆ set' → follows set' rest.
Proof. intros [->|(c & ts & -> & Hc)] Hs; [by left|right]. eauto. Qed.

#[local] Abbreviation exec_end := [bar; rpar; amp; semi].
#[local] Abbreviation pipe_end := [rpar; amp; semi].
#[local] Abbreviation line_end := [rpar].

Lemma redirs_complete rs : ∀ fuel c s rest,
  (s ≤ len)%nat → (todo s < fuel)%nat → Forall redir_ok rs → toks s = (rs ≫= redir_toks) ++ rest →
  peeks [lt; gt] rest = false →
  runs (parseredirs buf fuel c) (λ c' s', toks s' = rest ∧ erase c' = foldl den_redir (erase c) rs) s.
Proof.
  induction rs as [|[op f] rs IH]; intros [|fuel] c s rest Hs Hf Hrs Ht Hp; try lia; cbn [parseredirs];
    (eapply runs_bind; [apply runs_peek; [done|solve_syms]|]); intros b s1 Hs1 [-> Ht1]; csimpl in Ht; rewrite Ht in *.
  { rewrite Hp. apply runs_ret; [lia|done]. }
  apply Forall_cons in Hrs as [Hop Hrs]. simpl in Hop.
  assert (Hb : peeks [lt; gt] (Sym op :: Word f :: (rs ≫= redir_toks) ++ rest) = true).
  { cbn [peeks]. repeat (apply elem_of_cons in Hop as [->|Hop]; [done|]). by apply not_elem_of_nil in Hop. }
  rewrite Hb.
  eapply runs_bind; [apply runs_gettoken; lia|]. intros [[r q] eq] s2 Hs2 Hr. rewrite Ht1 in Hr. destruct Hr as [(-> & _) Ht2].
  eapply runs_bind; [apply runs_gettoken; lia|]. intros [[r q'] eq'] s3 Hs3 Hr. rewrite Ht2 in Hr. destruct Hr as [(-> & Hw & ->) Ht3].
  rewrite Z.eqb_refl. cbn [negb]. simpl in Hf.
  eapply runs_mono; [apply (IH fuel _ s3 rest); try done; [lia|rewrite Ht3; lia]|].
  intros c' s4 Hs4 [Ht4 He4]. split; [done|]. rewrite He4. simpl. f_equal.
  repeat (apply elem_of_cons in Hop as [->|Hop]; [done|]). by apply not_elem_of_nil in Hop.
Qed.

Lemma back_complete n : ∀ fuel c s rest,
  (s ≤ len)%nat → (todo s < fuel)%nat → toks s = replicate n (Sym amp) ++ rest → peeks [amp] rest = false →
  runs (back_loop buf fuel c) (λ c' s', toks s' = rest ∧ erase c' = Nat.iter n SBack (erase c)) s.
Proof.
  induction n as [|n IH]; intros [|fuel] c s rest Hs Hf Ht Hp; try lia; cbn [back_loop];
    (eapply runs_bind; [apply runs_peek; [done|solve_syms]|]); intros b s1 Hs1 [-> Ht1]; csimpl in Ht; rewrite Ht in *.
  { rewrite Hp. apply runs_ret; [lia|done]. }
  change (peeks [amp] (Sym amp :: _)) with true. cbv iota. simpl in Hf.
  eapply runs_bind; [apply runs_gettoken; lia|]. intros [[r q] eq] s2 Hs2 Hr. rewrite Ht1 in Hr. destruct Hr as [_ Ht2].
  eapply runs_mono; [apply (IH fuel _ s2 rest); try done; [lia|rewrite Ht2; lia]|].
  intros c' s4 Hs4 [Ht4 He4]. split; [done|]. rewrite He4. simpl. by rewrite <-Nat.iter_succ_r.
Qed.

Lemma args_complete more : ∀ fuel argc r s rest args rs,
  (s ≤ len)%nat → (todo s < fuel)%nat → (argc + length more < MAXARGS)%nat →
  Forall (λ a : _ * _, Forall redir_ok a.2) more → toks s = (more ≫= arg_toks) ++ rest → follows exec_end rest →
  erase r = foldl den_redir (SExec args) rs →
  runs (args_loop buf fuel argc r)
    (λ r' s', toks s' = rest ∧ erase r' = foldl den_redir (SExec (args ++ more.*1)) (rs ++ (more ≫= snd))) s.
Proof.
  induction more as [|[w rs1] more IH]; intros [|fuel] argc r s rest args rs Hs Hf Hmax Hok Ht Hfol Her; try lia; cbn [args_loop];
    (eapply runs_bind; [apply runs_peek; [done|solve_syms]|]); intros b s1 Hs1 [-> Ht1]; csimpl in Ht; rewrite Ht in *.
  - destruct Hfol as [->|(c & ts & -> & Hc)].
    + cbn [peeks]. eapply runs_bind; [apply runs_gettoken; lia|]. intros [[tok q] eq] s2 Hs2 Hr. rewrite Ht1 in Hr.
      destruct Hr as [-> Ht2]. apply runs_ret; [lia|]. simpl. by rewrite !app_nil_r.
    + assert (Hb : peeks exec_end (Sym c :: ts) = true).
      { cbn [peeks]. repeat (apply elem_of_cons in Hc as [->|Hc]; [done|]). by apply not_elem_of_nil in Hc. }
      rewrite Hb. apply runs_ret; [lia|]. simpl. by rewrite !app_nil_r.
  - cbn [peeks]. apply Forall_cons in Hok as [Hrs1 Hok]. simpl in Hrs1, Hmax, Hf.
    eapply runs_bind; [apply runs_gettoken; lia|]. intros [[tok q] eq] s2 Hs2 Hr. rewrite Ht1 in Hr.
    destruct Hr as [(-> & Hw & ->) Ht2]. cbn [Z.eqb negb]. rewrite (proj2 (Nat.leb_gt _ _)) by lia.
    rewrite <-app_assoc in Ht2.
    eapply runs_bind; [apply (redirs_complete rs1 _ _ s2 _ ltac:(lia) (loops_enough s2) Hrs1 Ht2)|].
    { destruct more as [|[w' ?] more]; [|done]. simpl. eapply follows_peeks; [exact Hfol|]. by repeat constructor. }
    intros r3 s3 Hs3 [Ht3 He3].
    eapply runs_mono; [apply (IH fuel (S argc) r3 s3 rest (args ++ [word q eq]) (rs ++ rs1)); try done|].
    + lia.
    + rewrite Ht3. rewrite !length_app in *. lia.
    + lia.
    + rewrite He3, (erase_add_arg _ _ _ args rs) by done. by rewrite <-foldl_app.
    + intros r4 s4 Hs4 [Ht4 He4]. split; [done|]. rewrite He4. simpl. by rewrite <-!app_assoc.
Qed.

Definition line_runs l := ∀ fuel s rest, (s ≤ len)%nat → (4 * todo s + 4 ≤ fuel)%nat → line_ok l →
  toks s = line_toks l ++ rest → follows line_end rest →
  runs (parseline buf fuel) (λ c s', toks s' = rest ∧ erase c = den_line l) s.
Definition pipe_runs p := ∀ fuel s rest, (s ≤ len)%nat → (4 * todo s + 3 ≤ fuel)%nat → pipe_ok p →
  toks s = pipe_toks p ++ rest → follows pipe_end rest →
  runs (parsepipe buf fuel) (λ c s', toks s' = rest ∧ erase c = den_pipe p) s.
Definition exec_runs e := ∀ fuel s rest, (s ≤ len)%nat → (4 * todo s + 2 ≤ fuel)%nat → exec_ok e →
  toks s = exec_toks e ++ rest → follows exec_end rest →
  runs (parseexec buf fuel) (λ c s', toks s' = rest ∧ erase c = den_exec e) s.

Lemma follows_sym c ts set : c ∈ set → follows set (Sym c :: ts).
Proof. right. eauto. Qed.

Ltac solve_follows :=
  match goal with H : follows _ _ |- _ => solve [eapply follows_peeks; [exact H|by repeat constructor]] end.

(** One symbol. *)
Lemma runs_sym {B} c ts s (f : Z * nat * nat → M nat Empty_set B) Q :
  (s ≤ len)%nat → toks s = Sym c :: ts →
  (∀ a s', (s ≤ s' ≤ len)%nat → toks s' = ts → runs (f a) Q s') → runs (bind (gettoken buf) f) Q s.
Proof.
  intros Hs Ht H. eapply runs_bind; [by apply runs_gettoken|]. intros [[r q] eq] s' Hs' Hr. rewrite Ht in Hr.
  apply H; [lia|tauto].
Qed.

Lemma simple_runs rs args : exec_runs (Simple rs args).
Proof.
  intros [|fuel] s rest Hs Hf (Hrs & Hargs & Hmax) Ht Hfol; [lia|]. cbn [parseexec]. simpl in Ht. rewrite <-app_assoc in Ht.
  assert (Hhead : peeks [lpar] (toks s) = false ∧ peeks [lt; gt] ((args ≫= arg_toks) ++ rest) = false).
  { rewrite Ht. split; [destruct rs as [|[op f] rs]|]; [destruct args as [|[w rs1] args]| |destruct args as [|[w rs1] args]];
      try done; try (csimpl; solve_follows).
    apply Forall_cons in Hrs as [Hop _]. simpl in Hop. csimpl.
    repeat (apply elem_of_cons in Hop as [->|Hop]; [done|]). by apply not_elem_of_nil in Hop. }
  destruct Hhead as [Hp1 Hp2].
  eapply runs_bind; [apply runs_peek; [done|solve_syms]|]. intros b s1 Hs1 [-> Ht1]. rewrite Hp1. rewrite Ht in Ht1.
  eapply runs_bind; [apply (redirs_complete rs _ _ s1 _ ltac:(lia) (loops_enough s1) Hrs Ht1 Hp2)|].
  intros r s2 Hs2 [Ht2 He2].
  eapply runs_mono; [apply (args_complete args (loops buf) 0 r s2 rest [] rs ltac:(lia) (loops_enough s2)); try done|].
  intros r' s3 Hs3 [Ht3 He3]. split; [done|]. by rewrite He3.
Qed.

Lemma block_runs l rs : line_runs l → exec_runs (Block l rs).
Proof.
  intros IH [|[|fuel]] s rest Hs Hf (Hl & Hrs) Ht Hfol; [lia..|]. cbn [parseexec parseblock]. simpl in Ht. rewrite <-app_assoc in Ht.
  assert (Hlen : todo s = S (length (line_toks l ++ (Sym rpar :: rs ≫= redir_toks) ++ rest))) by (by rewrite Ht).
  rewrite Hlen in Hf. clear Hlen.
  eapply runs_bind; [apply runs_peek; [done|solve_syms]|]. intros b s1 Hs1 [-> Ht1]. rewrite Ht in *.
  change (peeks [lpar] (Sym lpar :: _)) with true. cbv iota.
  eapply runs_bind; [apply runs_peek; [lia|solve_syms]|]. intros b s2 Hs2 [-> Ht2]. rewrite Ht1 in *.
  change (negb (peeks [lpar] (Sym lpar :: _))) with false. cbv iota.
  eapply runs_sym; [lia|exact Ht2|]. intros _ s3 Hs3 Ht3.
  eapply runs_bind; [apply (IH fuel s3 ((Sym rpar :: rs ≫= redir_toks) ++ rest) ltac:(lia)); [rewrite Ht3; lia|done|exact Ht3|by apply follows_sym; left]|].
  intros c s4 Hs4 [Ht4 He4].
  eapply runs_bind; [apply runs_peek; [lia|solve_syms]|]. intros b s5 Hs5 [-> Ht5]. rewrite Ht4 in *.
  change (negb (peeks [rpar] (Sym rpar :: _))) with false. cbv iota.
  eapply runs_sym; [lia|exact Ht5|]. intros _ s6 Hs6 Ht6.
  eapply runs_mono; [apply (redirs_complete rs _ _ s6 rest ltac:(lia) (loops_enough s6) Hrs Ht6)|].
  - solve_follows.
  - intros c' s7 Hs7 [Ht7 He7]. split; [done|]. by rewrite He7, He4.
Qed.

Lemma pipe_end_runs e : exec_runs e → pipe_runs (PEnd e).
Proof.
  intros IH [|fuel] s rest Hs Hf Hok Ht Hfol; [lia|]. cbn [parsepipe].
  eapply runs_bind; [apply (IH fuel s rest Hs); [lia|done|done|eapply follows_mono; [exact Hfol|set_solver]]|].
  intros c s1 Hs1 [Ht1 He1].
  eapply runs_bind; [apply runs_peek; [lia|solve_syms]|]. intros b s2 Hs2 [-> Ht2]. rewrite Ht1 in *.
  replace (peeks [bar] rest) with false by (symmetry; solve_follows). apply runs_ret; [lia|done].
Qed.

Lemma pipe_bar_runs e p : exec_runs e → pipe_runs p → pipe_runs (PBar e p).
Proof.
  intros IHe IHp [|fuel] s rest Hs Hf [Hoke Hokp] Ht Hfol; [lia|]. cbn [parsepipe]. simpl in Ht. rewrite <-app_assoc in Ht.
  eapply runs_bind; [apply (IHe fuel s _ Hs ltac:(lia) Hoke Ht); by apply follows_sym; left|].
  intros c s1 Hs1 [Ht1 He1].
  eapply runs_bind; [apply runs_peek; [lia|solve_syms]|]. intros b s2 Hs2 [-> Ht2]. simpl in Ht1. rewrite Ht1 in *.
  change (peeks [bar] (Sym bar :: _)) with true. cbv iota.
  eapply runs_sym; [lia|exact Ht2|]. intros _ s3 Hs3 Ht3.
  assert (Hlen : (todo s3 < todo s)%nat) by (rewrite Ht, Ht3, !length_app; simpl; rewrite ?length_app; simpl; lia).
  eapply runs_bind; [apply (IHp fuel s3 rest ltac:(lia) ltac:(lia) Hokp Ht3 Hfol)|].
  intros c' s4 Hs4 [Ht4 He4]. apply runs_ret; [lia|]. split; [done|]. simpl. congruence.
Qed.

Lemma backs_follow n rest : follows pipe_end rest → follows pipe_end (replicate n (Sym amp) ++ rest).
Proof. destruct n as [|n]; [done|]. intros _. apply follows_sym. set_solver. Qed.

Lemma line_end_runs p n : pipe_runs p → line_runs (LEnd p n).
Proof.
  intros IH [|fuel] s rest Hs Hf Hok Ht Hfol; [lia|]. cbn [parseline]. simpl in Ht. rewrite <-app_assoc in Ht.
  assert (Hfol' : follows pipe_end rest) by (eapply follows_mono; [exact Hfol|set_solver]).
  eapply runs_bind; [apply (IH fuel s _ Hs ltac:(lia) Hok Ht); by apply backs_follow|]. intros c s1 Hs1 [Ht1 He1].
  eapply runs_bind; [apply (back_complete n _ _ s1 rest ltac:(lia) (loops_enough s1) Ht1); solve_follows|].
  intros c' s2 Hs2 [Ht2 He2].
  eapply runs_bind; [apply runs_peek; [lia|solve_syms]|]. intros b s3 Hs3 [-> Ht3]. rewrite Ht2 in *.
  replace (peeks [semi] rest) with false by (symmetry; solve_follows). apply runs_ret; [lia|]. split; [done|].
  by rewrite He2, He1.
Qed.

Lemma line_seq_runs p n l : pipe_runs p → line_runs l → line_runs (LSeq p n l).
Proof.
  intros IHp IHl [|fuel] s rest Hs Hf [Hokp Hokl] Ht Hfol; [lia|]. cbn [parseline]. simpl in Ht. rewrite <-!app_assoc in Ht.
  simpl in Ht.
  eapply runs_bind; [apply (IHp fuel s _ Hs ltac:(lia) Hokp Ht); apply backs_follow, follows_sym; set_solver|].
  intros c s1 Hs1 [Ht1 He1].
  eapply runs_bind; [by apply (back_complete n _ _ s1 _ ltac:(lia) (loops_enough s1) Ht1)|]. intros c' s2 Hs2 [Ht2 He2].
  eapply runs_bind; [apply runs_peek; [lia|solve_syms]|]. intros b s3 Hs3 [-> Ht3]. rewrite Ht2 in *.
  change (peeks [semi] (Sym semi :: _)) with true. cbv iota.
  eapply runs_sym; [lia|exact Ht3|]. intros _ s4 Hs4 Ht4.
  assert (Hlen : (todo s4 < todo s)%nat) by (rewrite Ht, Ht4, !length_app; simpl; rewrite ?length_app; simpl; lia).
  eapply runs_bind; [apply (IHl fuel s4 rest ltac:(lia) ltac:(lia) Hokl Ht4 Hfol)|].
  intros c'' s5 Hs5 [Ht5 He5]. apply runs_ret; [lia|]. split; [done|]. simpl. congruence.
Qed.

Lemma parse_complete : (∀ l, line_runs l) ∧ (∀ p, pipe_runs p) ∧ (∀ e, exec_runs e).
Proof.
  apply syntax_mut; intros.
  - by apply line_end_runs.
  - by apply line_seq_runs.
  - by apply pipe_end_runs.
  - by apply pipe_bar_runs.
  - apply simple_runs.
  - by apply block_runs.
Qed.

(** ** The strings after [nulterminate] *)

Fixpoint ends (c : cmd) : list nat :=
  match c with
  | EXEC argv => argv.*2
  | REDIR c _ efile _ _ => ends c ++ [efile]
  | PIPE l r | LIST l r => ends l ++ ends r
  | BACK c => ends c
  end.

Definition nuls (es : list nat) (b : list Z) : list Z := foldl (λ b e, <[e := 0]> b) b es.

Lemma nulterminate_ends c b : nulterminate c b = nuls (ends c) b.
Proof.
  unfold nuls. revert b. induction c as [argv|c IH q eq mode fd|l IHl r IHr|l IHl r IHr|c IH]; intros b; simpl;
    rewrite ?foldl_app, ?IH, ?IHl, ?IHr; try done.
  revert b. induction argv as [|a argv IH]; intros b; [done|]. simpl. apply IH.
Qed.

Lemma nuls_lookup es b i : (i < length b)%nat → nuls es b !! i = if decide (i ∈ es) then Some 0 else b !! i.
Proof.
  unfold nuls. induction es as [|e es IH] using rev_ind; intros Hi; [done|]. rewrite foldl_app. simpl.
  assert (Hl : ∀ es, length (foldl (λ b e, <[e := 0]> b) b es) = length b).
  { clear. intros es. revert b. induction es as [|e es IH]; intros b; simpl; [done|]. by rewrite IH, length_insert. }
  destruct (decide (i = e)) as [->|Hne].
  - rewrite list_lookup_insert_eq by (by rewrite Hl). by rewrite decide_True by set_solver.
  - rewrite list_lookup_insert_ne, IH by done. by destruct (decide (i ∈ es)), (decide (i ∈ es ++ [e])); try done; set_solver.
Qed.

Lemma nuls_length es b : length (nuls es b) = length b.
Proof. unfold nuls. revert b. induction es as [|e es IH]; intros b; simpl; [done|]. by rewrite IH, length_insert. Qed.

Lemma span_word b q n :
  (∀ i, (i < n)%nat → ∃ c, b !! (q + i)%nat = Some c ∧ c ≠ 0) → (b !! (q + n)%nat = None ∨ b !! (q + n)%nat = Some 0) →
  cstr b q = take n (drop q b).
Proof.
  intros Hin Hend. unfold cstr. set (l := drop q b).
  assert (Hl : ∀ i, l !! i = b !! (q + i)%nat) by (intros i; apply lookup_drop).
  assert (Hin' : ∀ i, (i < n)%nat → ∃ c, l !! i = Some c ∧ c ≠ 0) by (intros i Hi; rewrite Hl; auto).
  assert (Hend' : l !! n = None ∨ l !! n = Some 0) by (by rewrite Hl).
  clearbody l. clear -Hin' Hend'. f_equal. revert l Hin' Hend'. induction n as [|n IH]; intros [|c l] Hin Hend; simpl.
  - done.
  - destruct Hend as [|Hend]; [done|]. by injection Hend as ->.
  - by destruct (Hin 0%nat ltac:(lia)) as (? & ? & _).
  - destruct (Hin 0%nat ltac:(lia)) as (? & [= ->] & Hc). rewrite (proj2 (Z.eqb_neq _ 0) Hc). simpl. f_equal. apply IH.
    + intros i Hi. apply (Hin (S i)). lia.
    + done.
Qed.

(** The ends of the words, wherever they are cut, cut no other word. *)
Lemma cstr_word es q eq :
  Forall (λ e, e = len ∨ is_word (char buf e) = false) es → word_at q eq → eq ∈ es → cstr (nuls es buf) q = word q eq.
Proof.
  intros Hes (Hr & Hall & _) Hin. rewrite Forall_forall in Hes.
  assert (Hkeep : ∀ i, (q ≤ i < eq)%nat → nuls es buf !! i = Some (char buf i)).
  { intros i Hi. rewrite nuls_lookup by lia. rewrite decide_False.
    - unfold char. rewrite nth_lookup. destruct (lookup_lt_is_Some_2 buf i) as [x Hx]; [lia|]. by rewrite Hx.
    - intros Hi'. destruct (Hes i Hi') as [->|Hw]; [lia|]. by rewrite Hall in Hw. }
  rewrite (span_word _ q (eq - q)).
  - unfold word. apply list_eq. intros i. destruct (decide (i < eq - q)%nat) as [Hi|Hi].
    + rewrite !lookup_take_lt, !lookup_drop, Hkeep by lia. unfold char. rewrite nth_lookup.
      destruct (lookup_lt_is_Some_2 buf (q + i)) as [x Hx]; [lia|]. by rewrite Hx.
    + by rewrite !lookup_take_ge by lia.
  - intros i Hi. exists (char buf (q + i)). split; [apply Hkeep; lia|apply char_nonzero; lia].
  - replace (q + (eq - q))%nat with eq by lia. destruct (decide (eq < len)%nat) as [Hlt|Hge].
    + right. rewrite nuls_lookup by done. by rewrite decide_True.
    + left. apply lookup_ge_None_2. rewrite nuls_length. lia.
Qed.

Lemma view_erase es c :
  Forall (λ e, e = len ∨ is_word (char buf e) = false) es → cmd_ok c → ends c ⊆ es → view (nuls es buf) c = erase c.
Proof.
  intros Hes. induction c as [argv|c IH q eq mode fd|l IHl r IHr|l IHl r IHr|c IH]; simpl; intros Hok Hsub.
  - f_equal. apply list_fmap_ext. intros i [q eq] Hi. simpl. rewrite Forall_forall in Hok.
    apply cstr_word; [done|by apply (Hok (q, eq)), (list_elem_of_lookup_2 _ i)|]. apply Hsub. apply list_elem_of_fmap.
    exists (q, eq). split; [done|by apply (list_elem_of_lookup_2 _ i)].
  - destruct Hok as [Hw Hok]. rewrite IH by (done || set_solver). f_equal. apply cstr_word; [done|done|set_solver].
  - destruct Hok. rewrite IHl, IHr by (done || set_solver). done.
  - destruct Hok. rewrite IHl, IHr by (done || set_solver). done.
  - by rewrite IH.
Qed.

Lemma ends_ok c : cmd_ok c → Forall (λ e, e = len ∨ is_word (char buf e) = false) (ends c).
Proof.
  induction c as [argv|c IH q eq mode fd|l IHl r IHr|l IHl r IHr|c IH]; simpl; try tauto.
  - intros Ha. rewrite Forall_fmap. eapply Forall_impl; [exact Ha|]. by intros [q eq] (_ & _ & ?).
  - intros [(_ & _ & ?) ?]. apply Forall_app. split; [tauto|]. by constructor.
  - intros [? ?]. apply Forall_app. tauto.
  - intros [? ?]. apply Forall_app. tauto.
Qed.

Lemma view_nulterminate c : cmd_ok c → view (nulterminate c buf) c = erase c.
Proof. intros Hok. rewrite nulterminate_ends. apply view_erase; [by apply ends_ok|done|done]. Qed.
End parser.

(** ** Properties *)

(** [C30] The shell's parser, on every command line without NULs, builds a command of
    the grammar, or finds leftovers, or ends in one of its error messages.  When
    it builds one, the tokens of the line are those of a derivation, and the
    strings of the command in the line after [nulterminate] are what the
    derivation denotes. *)
Theorem parsecmd_sound buf :
  0 ∉ buf →
  match parsecmd buf with
  | Ok (inl (c, buf')) _ => ∃ l, line_ok l ∧ lex [] buf = line_toks l ∧ view buf' c = den_line l
  | Ok (inr s) _ => (s < length buf)%nat
  | Panic msg => msg ∈ msgs
  | Sleep _ _ => False
  end.
Proof.
  intros Hbuf. cut (safe buf (c ← parseline buf (4 * length buf + 4); peek buf [] ;; s ← gets id;
    if negb (s =? length buf)%nat then ret (inr s) else ret (inl (c, nulterminate c buf)))
    (λ r _, match r with
      | inl (c, buf') => ∃ l, line_ok l ∧ lex [] buf = line_toks l ∧ view buf' c = den_line l
      | inr s => (s < length buf)%nat end) 0).
  { unfold parsecmd, safe. destruct (bind _ _ 0%nat) as [[[c b]|s] s'| |]; [tauto|tauto|done..]. }
  destruct (parse_sound buf Hbuf (4 * length buf + 4)) as (Hl & _).
  eapply safe_bind; [apply Hl; [|lia]; pose proof (toks_length buf 0); lia|].
  intros c s Hs (l & Hok & Ht & Hc & He).
  eapply safe_bind; [apply safe_peek; [done|lia|by intros ?]|]. intros b s' Hs' [_ Ht'].
  eapply (safe_bind _ _ _ (λ a t, a = s' ∧ t = s')); [by split; [lia|]|]. intros t s'' _ [-> ->].
  destruct (Nat.eqb_spec s' (length buf)) as [->|Hne]; cbn [negb]; [|apply safe_ret; lia].
  apply safe_ret; [lia|]. exists l. split_and!; [done| |by rewrite view_nulterminate].
  rewrite <-Ht' in Ht. unfold toks in Ht. by rewrite drop_0, drop_ge, app_nil_r in Ht.
Qed.

(** The shell's parser accepts every line whose tokens the grammar derives, and
    the command it builds, in the line after [nulterminate], is what the
    derivation denotes; so a line has one meaning. *)
Theorem parsecmd_complete buf l :
  0 ∉ buf → line_ok l → lex [] buf = line_toks l →
  ∃ c buf' s, parsecmd buf = Ok (inl (c, buf')) s ∧ view buf' c = den_line l.
Proof.
  intros Hbuf Hok Ht. destruct (parse_complete buf Hbuf) as (Hl & _).
  destruct (parse_sound buf Hbuf (4 * length buf + 4)) as (Hsafe & _).
  assert (Hf : (4 * length (toks buf 0) + 4 ≤ 4 * length buf + 4)%nat) by (pose proof (toks_length buf 0); lia).
  destruct (Hl l (4 * length buf + 4)%nat 0%nat []) as (c & s & Hr & Hs & Hts & He);
    [lia|lia|done|unfold toks; by rewrite drop_0, app_nil_r|by left|].
  specialize (Hsafe 0%nat (λ _, Hf) ltac:(lia)). unfold safe in Hsafe. rewrite Hr in Hsafe.
  destruct Hsafe as [_ (l' & _ & _ & Hc & _)].
  exists c, (nulterminate c buf), (length buf). split; [|by rewrite view_nulterminate].
  unfold parsecmd. rewrite (bind_ok _ _ _ _ _ Hr). unfold bind, peek, bind, gets, modify_state, ret, id. cbv beta iota zeta.
  rewrite (skip_end buf s) by (lia || done). by rewrite Nat.eqb_refl.
Qed.

(** The line [(a;b)|c>d]. *)
Definition ex_line : list Z := [40; 97; 59; 98; 41; 124; 99; 62; 100].
Definition ex_tree : line :=
  LEnd (PBar (Block (LSeq (PEnd (Simple [] [([97], [])])) 0 (LEnd (PEnd (Simple [] [([98], [])])) 0)) [])
             (PEnd (Simple [] [([99], [Redir 62 [100]])]))) 0.

Lemma ex_line_ok : 0 ∉ ex_line.
Proof. unfold ex_line. set_solver. Qed.

Lemma parsecmd_sound_witness :
  match parsecmd ex_line with
  | Ok (inl (c, buf')) _ => view buf' c = SPipe (SList (SExec [[97]]) (SExec [[98]])) (SRedir (SExec [[99]]) [100] 0x201 1)
  | _ => False
  end ∧ ∃ l, line_ok l ∧ lex [] ex_line = line_toks l.
Proof.
  split; [by vm_compute|]. pose proof (parsecmd_sound ex_line ex_line_ok) as H.
  assert (Hx : ∃ c b s, parsecmd ex_line = Ok (inl (c, b)) s) by (do 3 eexists; vm_compute; reflexivity). destruct Hx as (c & b & s & Hx).
  rewrite Hx in H.
  destruct H as (l & Hok & Ht & _). exists l. split; [exact Hok|exact Ht].
Defined.

Lemma parsecmd_complete_witness :
  ∃ c buf' s, parsecmd ex_line = Ok (inl (c, buf')) s ∧
    view buf' c = SPipe (SList (SExec [[97]]) (SExec [[98]])) (SRedir (SExec [[99]]) [100] 0x201 1).
Proof.
  apply (parsecmd_complete ex_line ex_tree).
  - exact ex_line_ok.
  - simpl. unfold MAXARGS. repeat split; repeat constructor; set_solver.
  - reflexivity.
Defined.
