(* ===== verification/Shrun.v ===== *)
(** * The shell: sh.c without its parser

    [main], [getcmd] and [runcmd] as programs over system calls, and what the
    processes that [runcmd] starts have as their open files. *)

From Stdlib Require Import Ascii String.
From S2P Require Import Prelude Shell Shgram Ulib.
Open Scope Z_scope.
Open Scope list_scope.

Definition nl : list Z := [10].

Definition panic {A} (s : string) : prog A :=
  printf 2 (lit "%s" ++ nl) [AStr (Some (lit s))] ⨾ Exit.

Definition fork1 : prog Z :=
  pid ⇐ call Sfork;
  if pid =? -1 then panic "fork" else Ret pid.

(** [runcmd]: it ends in [exec] or [exit]. *)
Fixpoint runcmd (c : scmd) : prog unit :=
  match c with
  | SExec [] => Exit
  | SExec ((path :: _) as argv) =>
      call (Sexec path argv) ⨾
      printf 2 (lit "exec %s failed" ++ nl) [AStr (Some path)] ⨾
      Exit
  | SRedir c file mode fd =>
      call (Sclose fd) ⨾
      r ⇐ call (Sopen file mode);
      if r <? 0 then
        printf 2 (lit "open %s failed" ++ nl) [AStr (Some file)] ⨾
        Exit
      else runcmd c ⨾ Exit
  | SList l r =>
      pid ⇐ fork1;
      (if pid =? 0 then runcmd l else Ret tt) ⨾
      call Swait ⨾
      runcmd r ⨾
      Exit
  | SPipe l r =>
      p ⇐ call Spipe;
      match p with
      | None => panic "pipe"
      | Some (p0, p1) =>
          pid ⇐ fork1;
          (if pid =? 0 then
             call (Sclose 1) ⨾
             call (Sdup p1) ⨾
             call (Sclose p0) ⨾
             call (Sclose p1) ⨾
             runcmd l
           else Ret tt) ⨾
          pid ⇐ fork1;
          (if pid =? 0 then
             call (Sclose 0) ⨾
             call (Sdup p0) ⨾
             call (Sclose p0) ⨾
             call (Sclose p1) ⨾
             runcmd r
           else Ret tt) ⨾
          call (Sclose p0) ⨾
          call (Sclose p1) ⨾
          call Swait ⨾
          call Swait ⨾
          Exit
      end
  | SBack c =>
      pid ⇐ fork1;
      (if pid =? 0 then runcmd c else Ret tt) ⨾
      Exit
  end.

(** [getcmd(buf, 100)]: the line, [None] at the end of the input. *)
Definition getcmd : prog (option (list Z)) :=
  printf 2 (lit "$ ") [] ⨾
  buf ⇐ gets 100;
  let s := cstr buf 0 in
  Ret (match s with [] => None | _ => Some s end).

(** [runcmd(parsecmd(buf))] *)
Definition run_line (s : list Z) : prog unit :=
  match parsecmd s with
  | Ok (inl (c, buf)) _ => runcmd (view buf c)
  | Ok (inr i) _ => printf 2 (lit "leftovers: %s" ++ nl) [AStr (Some (drop i s))] ⨾ panic "syntax"
  | Panic msg => panic msg
  | Sleep _ _ => Exit
  end.

Definition is_cd (s : list Z) : bool :=
  match s with
  | a :: b :: c :: _ => (a =? ch "c") && (b =? ch "d") && (c =? ch " ")
  | _ => false
  end.

(** One turn of the loop of [main]: [false] at the end of the input. *)
Definition turn : prog bool :=
  r ⇐ getcmd;
  match r with
  | None => Ret false
  | Some s =>
      if is_cd s then
        let dir := drop 3 (take (Z.to_nat (strlen s) - 1) s) in
        r ⇐ call (Schdir dir);
        (if r <? 0 then printf 2 (lit "cannot cd %s" ++ nl) [AStr (Some dir)] else Ret tt) ⨾
        Ret true
      else
        pid ⇐ fork1;
        (if pid =? 0 then run_line s else Ret tt) ⨾
        call Swait ⨾
        Ret true
  end.

Fixpoint open_console (fuel : nat) : prog unit :=
  match fuel with
  | O => Fuel
  | S fuel' =>
      fd ⇐ call (Sopen (lit "console") 2);
      if fd <? 0 then Ret tt
      else if 3 <=? fd then call (Sclose fd) ⨾ Ret tt
      else open_console fuel'
  end.

Fixpoint commands (fuel : nat) : prog unit :=
  match fuel with
  | O => Fuel
  | S fuel' => more ⇐ turn; if more then commands fuel' else Ret tt
  end.

Definition main (fuel : nat) : prog unit :=
  open_console fuel ⨾
  commands fuel ⨾
  Exit.

(** ** The processes of a command *)

(** An open file: one the shell had, a file opened by name, or an end of a
    pipe.  A pipe is named by the place where it is made: the forks and pipes
    before it, a [true] for the child's side of a fork. *)
Definition place := list bool.
Inductive obj := Given (n : nat) | Named (path : list Z) (mode : Z) | Rend (pipe : place) | Wend (pipe : place).

(** The table of a process; [fdalloc] takes the lowest free descriptor. *)
Abbreviation table := (list (option obj)).
Definition lowest (t : table) : option nat := fst <$> list_find (λ o, o = None) t.

(** What a process does, for every outcome of the calls that can fail: it
    executes a program with the open files of a table, or goes on when [exec]
    fails; it opens a file or makes a pipe; it forks, and then there are two
    processes or it goes on alone; it waits, with the open files of a table;
    it writes to an open file; it exits. *)
Inductive ptree :=
  | PExit
  | PExec (t : table) (path : list Z) (argv : list (list Z)) (failed : ptree)
  | POpen (path : list Z) (mode : Z) (opened failed : ptree)
  | PPipe (made failed : ptree)
  | PFork (child parent failed : ptree)
  | PWait (t : table) (next : ptree)
  | PWrite (o : option (option obj)) (bs : list Z) (next : ptree).

Definition world : Type := place → table → ptree.

(** The calls, on the table of a process.  [open] and [pipe] fail without a free
    descriptor and may fail otherwise; [close] and [dup] fail on a descriptor
    that is not open.  [pid] is what [fork] and [wait] return to a parent.  The
    calls of the last line are none of the shell's commands. *)
Definition step {R} (pid : Z) (c : sys R) : (R → world) → world :=
  match c in sys R return (R → world) → world with
  | Sfork => λ k n t, PFork (k 0 (true :: n) t) (k pid (false :: n) t) (k (-1) n t)
  | Spipe => λ k n t,
      match lowest t with
      | None => k None n t
      | Some a =>
          let t1 := <[a := Some (Rend n)]> t in
          match lowest t1 with
          | None => k None n t
          | Some b =>
              PPipe (k (Some (Z.of_nat a, Z.of_nat b)) (false :: n) (<[b := Some (Wend n)]> t1)) (k None n t)
          end
      end
  | Sclose fd => λ k n t,
      match t !! Z.to_nat fd with
      | Some (Some _) => k 0 n (<[Z.to_nat fd := None]> t)
      | _ => k (-1) n t
      end
  | Sdup fd => λ k n t,
      match t !! Z.to_nat fd, lowest t with
      | Some (Some o), Some a => k (Z.of_nat a) n (<[a := Some o]> t)
      | _, _ => k (-1) n t
      end
  | Sopen path mode => λ k n t,
      match lowest t with
      | Some a => POpen path mode (k (Z.of_nat a) n (<[a := Some (Named path mode)]> t)) (k (-1) n t)
      | None => k (-1) n t
      end
  | Sexec path argv => λ k n t, PExec t path argv (k (-1) n t)
  | Swrite fd bs => λ k n t, PWrite (t !! Z.to_nat fd) bs (k (Z.of_nat (length bs)) n t)
  | Swait => λ k n t, PWait t (k pid n t)
  | Sread _ _ => λ k, k None
  | Sfstat _ => λ k, k None
  | Skill _ | Smknod _ _ _ | Sunlink _ | Slink _ _ | Smkdir _ | Schdir _ | Ssleep _ => λ k, k (-1)
  end.

Fixpoint spawn {A} (pid : Z) (p : prog A) : world :=
  match p with
  | Call c k => step pid c (λ r, spawn pid (k r))
  | _ => λ _ _, PExit
  end.

(** A message on descriptor 2, byte by byte, and the end of the process. *)
Definition complain (t : table) (msg : list Z) : ptree := foldr (λ c, PWrite (t !! 2%nat) [c]) PExit msg.

(** The processes a command stands for.  A redirection changes one descriptor
    and nothing else.  Of a pipe, the left side has one end as descriptor 1, the
    right side has the other as descriptor 0, and the process that waits for the
    two has neither.  The right side of a list starts after a wait for the left
    side.  Nothing is started after a failure: the process complains and exits. *)
Fixpoint procs (c : scmd) (n : place) (t : table) : ptree :=
  match c with
  | SExec [] => PExit
  | SExec ((path :: _) as argv) => PExec t path argv (complain t (lit "exec " ++ path ++ lit " failed" ++ nl))
  | SRedir c file mode fd =>
      POpen file mode (procs c n (<[Z.to_nat fd := Some (Named file mode)]> t))
        (complain t (lit "open " ++ file ++ lit " failed" ++ nl))
  | SList l r =>
      PFork (procs l (true :: n) t) (PWait t (procs r (false :: n) t)) (complain t (lit "fork" ++ nl))
  | SPipe l r =>
      PPipe
        (PFork (procs l (true :: false :: n) (<[1%nat := Some (Wend n)]> t))
           (PFork (procs r (true :: false :: false :: n) (<[0%nat := Some (Rend n)]> t))
              (PWait t (PWait t PExit))
              (complain t (lit "fork" ++ nl)))
           (complain t (lit "fork" ++ nl)))
        (complain t (lit "pipe" ++ nl))
  | SBack c => PFork (procs c (true :: n) t) PExit (complain t (lit "fork" ++ nl))
  end.

(** No part of the command runs in the background. *)
Fixpoint foreground (c : scmd) : bool :=
  match c with
  | SExec _ => true
  | SRedir c _ _ _ => foreground c
  | SList l r | SPipe l r => foreground l && foreground r
  | SBack _ => false
  end.

(** A process that has [k] children and whose forks succeed waits for each of
    its children before it executes a program or exits, and so do they. *)
Fixpoint settled (k : nat) (p : ptree) : Prop :=
  match p with
  | PExit => k = 0%nat
  | PExec _ _ _ p => k = 0%nat ∧ settled k p
  | POpen _ _ p q | PPipe p q => settled k p ∧ settled k q
  | PFork c p _ => settled 0 c ∧ settled (S k) p
  | PWait _ p => settled (pred k) p
  | PWrite _ _ p => settled k p
  end.

(** The redirections the parser makes. *)
Fixpoint std_redirs (c : scmd) : Prop :=
  match c with
  | SExec _ => True
  | SRedir c _ _ fd => (fd = 0 ∨ fd = 1) ∧ std_redirs c
  | SList l r | SPipe l r => std_redirs l ∧ std_redirs r
  | SBack c => std_redirs c
  end.

(** Descriptors 0, 1 and 2 are open, and there is room for a pipe: the lowest two
    free ones are [a] and [b]. *)
Record roomy (t : table) (a b : nat) : Prop := {
  rm_in : ∃ o, t !! 0%nat = Some (Some o);
  rm_out : ∃ o, t !! 1%nat = Some (Some o);
  rm_err : ∃ o, t !! 2%nat = Some (Some o);
  rm_a : t !! a = Some None;
  rm_b : t !! b = Some None;
  rm_ab : (a < b)%nat;
  rm_low : ∀ i, (i < b)%nat → i ≠ a → ∃ o, t !! i = Some (Some o) }.

Lemma lowest_spec t a :
  t !! a = Some None → (∀ i, (i < a)%nat → ∃ o, t !! i = Some (Some o)) → lowest t = Some a.
Proof.
  intros Ha Hlow. unfold lowest. rewrite (proj2 (list_find_Some _ _ a None)); [done|].
  split_and!; [done|done|]. intros i y Hy Hi ->. destruct (Hlow i Hi) as [o Ho]. congruence.
Qed.

Lemma roomy_insert t a b i o : roomy t a b → (i = 0 ∨ i = 1)%nat → roomy (<[i := Some o]> t) a b.
Proof.
  intros [[o0 H0] [o1 H1] [o2 H2] Ha Hb Hab Hlow] Hi.
  assert (Hlen : (i < length t)%nat) by (destruct Hi as [->| ->]; [by eapply lookup_lt_Some|by eapply lookup_lt_Some]).
  assert (Hia : i ≠ a ∧ i ≠ b).
  { destruct Hi as [->| ->]; split; intros <-; simplify_eq. }
  assert (Hget : ∀ j, j ≠ a → j ≠ b → (∃ x, t !! j = Some (Some x)) → ∃ x, <[i:=Some o]> t !! j = Some (Some x)).
  { intros j _ _ [x Hx]. destruct (decide (i = j)) as [->|]; [rewrite list_lookup_insert_eq by done; eauto|].
    rewrite list_lookup_insert_ne by done. eauto. }
  split.
  - apply Hget; [intros <-; simplify_eq|intros <-; simplify_eq|eauto].
  - apply Hget; [intros <-; simplify_eq|intros <-; simplify_eq|eauto].
  - apply Hget; [intros <-; simplify_eq|intros <-; simplify_eq|eauto].
  - by rewrite list_lookup_insert_ne by tauto.
  - by rewrite list_lookup_insert_ne by tauto.
  - done.
  - intros j Hj Hne. apply Hget; [done|lia|by apply Hlow].
Qed.

(** ** Running a command *)

Fixpoint halts {A} (p : prog A) : Prop :=
  match p with
  | Ret _ => False
  | Exit | Fuel => True
  | Call c k => ∀ r, halts (k r)
  end.

Lemma halts_bind {A B} (p : prog A) (f : A → prog B) : (halts p ∨ ∀ a, halts (f a)) → halts (pbind p f).
Proof. induction p as [a| | |R c k IH]; simpl; [|done..|]; intros [H|H]; try done; [intros r; apply IH; auto..]. Qed.

Ltac halt := repeat first [done | intros ? | (progress cbn [halts pbind call]) | case_match | (apply halts_bind; right)].

Lemma halts_runcmd c : halts (runcmd c).
Proof. destruct c as [[|path argv]| | | |]; cbn [runcmd]; halt. Qed.

(** The messages. *)
Lemma format_str s : format (lit "%s" ++ nl) [AStr (Some s)] = Some (s ++ nl).
Proof. reflexivity. Qed.

Lemma format_exec path : format (lit "exec %s failed" ++ nl) [AStr (Some path)] = Some (lit "exec " ++ path ++ lit " failed" ++ nl).
Proof. reflexivity. Qed.

Lemma format_open path : format (lit "open %s failed" ++ nl) [AStr (Some path)] = Some (lit "open " ++ path ++ lit " failed" ++ nl).
Proof. reflexivity. Qed.

Section Running.
Context (pid : Z) (Hpid : 0 < pid).

Lemma step_ext {R} (c : sys R) (k k' : R → world) n t :
  (∀ r n t, k r n t = k' r n t) → step pid c k n t = step pid c k' n t.
Proof. intros H. destruct c; simpl; repeat case_match; rewrite ?H; done. Qed.

Lemma spawn_halts {A B} (p : prog A) (f : A → prog B) n t : halts p → spawn pid (pbind p f) n t = spawn pid p n t.
Proof.
  revert n t. induction p as [a| | |R c k IH]; intros n t Hp; [done..|]. cbn [pbind spawn].
  apply (step_ext c). intros r n' t'. by apply IH.
Qed.

Lemma spawn_call {B R} (c : sys R) (f : R → prog B) n t :
  spawn pid (pbind (call c) f) n t = step pid c (λ r, spawn pid (f r)) n t.
Proof. done. Qed.

Lemma spawn_puts {B} (bs : list Z) (f : unit → prog B) n t :
  spawn pid (pbind (puts 2 bs) f) n t = foldr (λ c, PWrite (t !! 2%nat) [c]) (spawn pid (f tt) n t) bs.
Proof. induction bs as [|c bs IH]; [done|]. cbn. by rewrite <- IH. Qed.

Lemma spawn_printf {B} fmt args bs (f : unit → prog B) n t :
  format fmt args = Some bs → spawn pid (f tt) n t = PExit →
  spawn pid (pbind (printf 2 fmt args) f) n t = complain t bs.
Proof. intros H Hf. unfold printf. by rewrite H, spawn_puts, Hf. Qed.

Lemma spawn_fork1 {B} (f : Z → prog B) n t :
  spawn pid (pbind fork1 f) n t =
  PFork (spawn pid (f 0) (true :: n) t) (spawn pid (f pid) (false :: n) t) (complain t (lit "fork" ++ nl)).
Proof.
  unfold fork1. cbn [pbind call spawn step]. rewrite (proj2 (Z.eqb_neq pid (-1))) by lia. f_equal.
Qed.

Lemma spawn_close {B} (fd : nat) (f : Z → prog B) n t o :
  t !! fd = Some (Some o) →
  spawn pid (pbind (call (Sclose (Z.of_nat fd))) f) n t = spawn pid (f 0) n (<[fd := None]> t).
Proof. intros Ht. rewrite spawn_call. cbn [step]. by rewrite Nat2Z.id, Ht. Qed.

Lemma spawn_dup {B} (fd a : nat) (f : Z → prog B) n t o :
  t !! fd = Some (Some o) → lowest t = Some a →
  spawn pid (pbind (call (Sdup (Z.of_nat fd))) f) n t = spawn pid (f (Z.of_nat a)) n (<[a := Some o]> t).
Proof. intros Ht Ha. rewrite spawn_call. cbn [step]. by rewrite Nat2Z.id, Ht, Ha. Qed.

(** The calls of a child of a pipe: descriptor [i] becomes the end of the pipe
    that is at [e], and the others are as before the pipe. *)
Lemma spawn_child {B} (i e : nat) (p : prog B) n t a b x y o :
  roomy t a b → (i = 0 ∨ i = 1)%nat → e = a ∧ o = x ∨ e = b ∧ o = y →
  let t' := <[b := Some y]> (<[a := Some x]> t) in
  spawn pid (call (Sclose (Z.of_nat i)) ⨾ call (Sdup (Z.of_nat e)) ⨾ call (Sclose (Z.of_nat a)) ⨾ call (Sclose (Z.of_nat b)) ⨾ p) n t' =
  spawn pid p n (<[i := Some o]> t).
Proof.
  intros Hr Hi He t'. pose proof Hr as [[o0 H0] [o1 H1] [o2 H2] Ha Hb Hab Hlow].
  assert (Hla : (a < length t)%nat) by (by eapply lookup_lt_Some). assert (Hlb : (b < length t)%nat) by (by eapply lookup_lt_Some).
  assert (Hge : (2 ≤ a)%nat).
  { destruct a as [|[|a]]; [congruence..|lia]. }
  assert (Hget : ∀ j, t' !! j = if decide (j = b) then Some (Some y) else if decide (j = a) then Some (Some x) else t !! j).
  { intros j. unfold t'. rewrite !list_lookup_insert, length_insert. repeat case_decide; try done; lia. }
  assert (Hit : ∃ z, t' !! i = Some (Some z)).
  { rewrite Hget, !decide_False by lia. destruct Hi as [->| ->]; eauto. }
  destruct Hit as [z Hz]. erewrite spawn_close by exact Hz.
  assert (Hli : (i < length t')%nat) by (by eapply lookup_lt_Some).
  assert (Hlow' : lowest (<[i := None]> t') = Some i).
  { apply lowest_spec; [by apply list_lookup_insert_eq|]. intros j Hj. rewrite list_lookup_insert_ne by lia.
    assert (j = 0%nat) as -> by lia. rewrite Hget, !decide_False by lia. eauto. }
  assert (Heo : <[i := None]> t' !! e = Some (Some o)).
  { rewrite list_lookup_insert_ne by lia. rewrite Hget. destruct He as [[-> ->]|[-> ->]].
    - rewrite decide_False, decide_True by lia. done.
    - by rewrite decide_True. }
  erewrite spawn_dup by (exact Heo || exact Hlow').
  erewrite (spawn_close a). 2: { rewrite list_insert_insert_eq, list_lookup_insert_ne by lia. rewrite Hget, decide_False, decide_True by lia. done. }
  erewrite (spawn_close b). 2: { rewrite list_lookup_insert_ne, list_insert_insert_eq, list_lookup_insert_ne by lia. by rewrite Hget, decide_True. }
  f_equal. apply list_eq. intros j. rewrite list_insert_insert_eq.
  assert (Hlt : length t' = length t) by (unfold t'; by rewrite !length_insert).
  destruct (decide (j = b)) as [->|Hjb].
  { rewrite list_lookup_insert_eq, list_lookup_insert_ne by (rewrite ?length_insert; lia). done. }
  rewrite list_lookup_insert_ne by done. destruct (decide (j = a)) as [->|Hja].
  { rewrite list_lookup_insert_eq, list_lookup_insert_ne by (rewrite ?length_insert; lia). done. }
  rewrite list_lookup_insert_ne by done. destruct (decide (j = i)) as [->|Hji].
  { by rewrite !list_lookup_insert_eq by lia. }
  rewrite !list_lookup_insert_ne by done. by rewrite Hget, !decide_False.
Qed.

(** The table of a process that has made a pipe, and what it is again once the
    two ends are closed. *)
Definition piped (t : table) (a b : nat) (x y : obj) : table := <[b := Some y]> (<[a := Some x]> t).

Lemma piped_lookup t a b x y j :
  roomy t a b →
  piped t a b x y !! j = if decide (j = b) then Some (Some y) else if decide (j = a) then Some (Some x) else t !! j.
Proof.
  intros [_ _ _ Ha%lookup_lt_Some Hb%lookup_lt_Some Hab _]. unfold piped.
  rewrite !list_lookup_insert, length_insert. repeat case_decide; try done; lia.
Qed.

Lemma roomy_above t a b : roomy t a b → (3 ≤ a)%nat.
Proof. intros [[o0 H0] [o1 H1] [o2 H2] Ha _ _ _]. destruct a as [|[|[|a]]]; [congruence..|lia]. Qed.

Lemma spawn_parent t a b x y n :
  roomy t a b →
  spawn pid (call (Sclose (Z.of_nat a)) ⨾ call (Sclose (Z.of_nat b)) ⨾ call Swait ⨾ call Swait ⨾ @Exit unit) n
    (piped t a b x y) = PWait t (PWait t PExit).
Proof.
  intros Hr. pose proof (rm_ab _ _ _ Hr) as Hab.
  erewrite (spawn_close a) by (rewrite (piped_lookup _ _ _ _ _ _ Hr), decide_False, decide_True by lia; done).
  erewrite (spawn_close b) by (rewrite list_lookup_insert_ne, (piped_lookup _ _ _ _ _ _ Hr), decide_True by lia; done).
  assert (<[b := None]> (<[a := None]> (piped t a b x y)) = t) as ->; [|done].
  pose proof Hr as [_ _ _ Ha Hb _ _]. apply list_eq. intros j.
  assert (length (piped t a b x y) = length t) as Hlen by (unfold piped; by rewrite !length_insert).
  apply lookup_lt_Some in Ha as Hla. apply lookup_lt_Some in Hb as Hlb.
  destruct (decide (j = b)) as [->|Hjb]; [by rewrite list_lookup_insert_eq by (rewrite length_insert; lia)|].
  rewrite list_lookup_insert_ne by done. destruct (decide (j = a)) as [->|Hja].
  - by rewrite list_lookup_insert_eq by lia.
  - by rewrite list_lookup_insert_ne, (piped_lookup _ _ _ _ _ _ Hr), !decide_False by done.
Qed.

Lemma complain_piped t a b x y msg : roomy t a b → complain (piped t a b x y) msg = complain t msg.
Proof.
  intros Hr. pose proof (roomy_above _ _ _ Hr). pose proof (rm_ab _ _ _ Hr).
  unfold complain. by rewrite (piped_lookup _ _ _ _ _ _ Hr), !decide_False by lia.
Qed.

(** The two calls of a redirection. *)
Lemma spawn_redir {B} (fd : Z) file mode (f : Z → prog B) n t a b :
  roomy t a b → fd = 0 ∨ fd = 1 →
  spawn pid (call (Sclose fd) ⨾ pbind (call (Sopen file mode)) f) n t =
  POpen file mode (spawn pid (f fd) n (<[Z.to_nat fd := Some (Named file mode)]> t))
    (spawn pid (f (-1)) n (<[Z.to_nat fd := None]> t)).
Proof.
  intros Hr Hfd. set (i := Z.to_nat fd). assert (Hi : (i = 0 ∨ i = 1)%nat) by lia.
  replace fd with (Z.of_nat i) by lia. pose proof Hr as [[o0 H0] [o1 H1] _ _ _ _ _].
  assert (Hit : ∃ z, t !! i = Some (Some z)) by (destruct Hi as [->| ->]; eauto). destruct Hit as [z Hz].
  erewrite spawn_close by exact Hz. rewrite spawn_call. cbn [step]. rewrite (lowest_spec _ i).
  - by rewrite list_insert_insert_eq.
  - apply list_lookup_insert_eq. by eapply lookup_lt_Some.
  - intros j Hj. assert (j = 0%nat) as -> by lia. rewrite list_lookup_insert_ne by lia. eauto.
Qed.

Lemma spawn_pipe {B} (f : option (Z * Z) → prog B) n t a b :
  roomy t a b →
  spawn pid (pbind (call Spipe) f) n t =
  PPipe (spawn pid (f (Some (Z.of_nat a, Z.of_nat b))) (false :: n) (piped t a b (Rend n) (Wend n)))
    (spawn pid (f None) n t).
Proof.
  intros [_ _ _ Ha Hb Hab Hlow]. rewrite spawn_call. cbn [step].
  rewrite (lowest_spec t a) by (done || (intros i Hi; apply Hlow; lia)).
  rewrite (lowest_spec _ b); [done|by rewrite list_lookup_insert_ne by lia|].
  intros i Hi. destruct (decide (i = a)) as [->|].
  - rewrite list_lookup_insert_eq by (by eapply lookup_lt_Some). eauto.
  - rewrite list_lookup_insert_ne by done. by apply Hlow.
Qed.

(** [runcmd] does what the command stands for. *)
Lemma runcmd_plumbing c n t a b :
  roomy t a b → std_redirs c → spawn pid (runcmd c) n t = procs c n t.
Proof.
  assert (Hz : (pid =? 0) = false) by lia.
  revert n t. induction c as [[|path argv]|c IH file mode fd|l IHl r IHr|l IHl r IHr|c IH]; intros n t Hr Hs; cbn [runcmd procs].
  - done.
  - rewrite spawn_call. cbn [step]. f_equal. apply spawn_printf; [|done]. apply format_exec.
  - destruct Hs as [Hfd Hs]. rewrite (spawn_redir _ _ _ _ _ _ _ _ Hr Hfd). f_equal.
    + rewrite (proj2 (Z.ltb_ge _ _)) by lia. rewrite spawn_halts by apply halts_runcmd.
      apply IH; [apply roomy_insert; [done|lia]|done].
    + change (-1 <? 0) with true. cbv iota. erewrite spawn_printf by (apply format_open || done). unfold complain.
      by rewrite list_lookup_insert_ne by lia.
  - destruct Hs as [Hsl Hsr]. rewrite (spawn_pipe _ _ _ _ _ Hr). pose proof (roomy_above _ _ _ Hr) as Hge. f_equal.
    pose proof (spawn_child 1 b (runcmd l) (true :: false :: n) t a b (Rend n) (Wend n) (Wend n) Hr ltac:(tauto) ltac:(tauto)) as Hc1.
    pose proof (spawn_child 0 a (runcmd r) (true :: false :: false :: n) t a b (Rend n) (Wend n) (Rend n) Hr ltac:(tauto) ltac:(tauto)) as Hc2.
    cbv zeta in Hc1, Hc2. change (Z.of_nat 1) with 1 in Hc1. change (Z.of_nat 0) with 0 in Hc2.
    rewrite spawn_fork1. cbn [Z.eqb]. rewrite Hz.
    rewrite spawn_halts by (repeat (apply halts_bind; right; intros _); apply halts_runcmd).
    unfold piped at 1. rewrite Hc1, IHl by (done || (apply roomy_insert; [done|by right])).
    cbn [pbind]. rewrite spawn_fork1. cbn [Z.eqb]. rewrite Hz.
    rewrite spawn_halts by (repeat (apply halts_bind; right; intros _); apply halts_runcmd).
    unfold piped at 1. rewrite Hc2, IHr by (done || (apply roomy_insert; [done|by left])).
    cbn [pbind]. rewrite (spawn_parent _ _ _ _ _ _ Hr). rewrite (complain_piped _ _ _ _ _ _ Hr). done.
  - destruct Hs as [Hsl Hsr]. rewrite spawn_fork1. cbn [Z.eqb]. rewrite Hz, spawn_halts by apply halts_runcmd.
    rewrite IHl by done. cbn [pbind]. rewrite spawn_call. cbn [step].
    rewrite spawn_halts by apply halts_runcmd. by rewrite IHr.
  - rewrite spawn_fork1. cbn [Z.eqb]. rewrite Hz, spawn_halts by apply halts_runcmd. by rewrite IH by done.
Qed.
End Running.

Lemma std_redirs_fold c rs : std_redirs c → std_redirs (foldl den_redir c rs).
Proof.
  revert c. induction rs as [|[op f] rs IH]; intros c Hc; [done|]. simpl. apply IH. by destruct (op =? 60); simpl; auto.
Qed.

(** The redirections of a line are of descriptors 0 and 1. *)
Lemma den_std : (∀ l, std_redirs (den_line l)) ∧ (∀ p, std_redirs (den_pipe p)) ∧ (∀ e, std_redirs (den_exec e)).
Proof.
  assert (Hback : ∀ n c, std_redirs c → std_redirs (Nat.iter n SBack c)) by (induction n; simpl; auto).
  apply syntax_mut; simpl; intros; auto; by apply std_redirs_fold.
Qed.

(** The processes of a command without background parts wait for their children. *)
Lemma complain_settled t msg : settled 0 (complain t msg).
Proof. by induction msg. Qed.

Lemma procs_settled c : ∀ n t, foreground c = true → settled 0 (procs c n t).
Proof.
  induction c as [[|path argv]|c IH file mode fd|l IHl r IHr|l IHl r IHr|c IH]; intros n t Hf; cbn [foreground] in Hf;
    cbn [procs settled pred]; try apply andb_prop in Hf as [Hl Hr]; split_and?; auto using complain_settled; done.
Qed.

(** [C29] From a command line to its processes: if the grammar derives the tokens of
    the line, the shell's child parses it and does exactly what the derivation
    stands for, whatever the outcome of each [open], [pipe], [fork] and [exec].
    Each program has the descriptors of the shell but for its own redirections
    and pipe ends: descriptor 0 or 1 is the file or the end of the pipe, and no
    other end of a pipe is open in it, nor in the process that waits for the two
    sides.  The right side of [;] starts after a wait for the left side.  After a
    failure the process writes its message to descriptor 2 and exits.  In a line
    without [&] every process whose forks succeed has waited for all its children
    when it executes a program or exits. *)
Theorem shell_line pid s l n t a b :
  0 < pid → 0 ∉ s → line_ok l → lex [] s = line_toks l → roomy t a b →
  spawn pid (run_line s) n t = procs (den_line l) n t ∧
  (foreground (den_line l) = true → settled 0 (spawn pid (run_line s) n t)).
Proof.
  intros Hpid H0 Hok Ht Hr. destruct (parsecmd_complete s l H0 Hok Ht) as (c & buf & i & Hp & Hv).
  assert (spawn pid (run_line s) n t = procs (den_line l) n t) as ->.
  { unfold run_line. rewrite Hp, Hv. eapply runcmd_plumbing; [done|exact Hr|apply den_std]. }
  split; [done|apply procs_settled].
Qed.

(** [(a;b)|c>d] from a shell with its three descriptors: [a] and [b] write to
    the pipe, [b] after a wait for [a]; [c] reads from it and writes to [d]. *)
Lemma shell_line_witness :
  let t := [Some (Given 0); Some (Given 1); Some (Given 2); None; None; None] in
  let tl := [Some (Given 0); Some (Wend []); Some (Given 2); None; None; None] in
  let tr := [Some (Rend []); Some (Named [100] 0x201); Some (Given 2); None; None; None] in
  let no_fork := complain t (lit "fork" ++ nl) in
  let runs t p := PExec t [p] [[p]] (complain t (lit "exec " ++ [p] ++ lit " failed" ++ nl)) in
  spawn 7 (run_line ex_line) [] t =
  PPipe
    (PFork (PFork (runs tl 97) (PWait tl (runs tl 98)) no_fork)
       (PFork (POpen [100] 0x201 (runs tr 99) (complain t (lit "open d failed" ++ nl)))
          (PWait t (PWait t PExit)) no_fork)
       no_fork)
    (complain t (lit "pipe" ++ nl)) ∧
  settled 0 (spawn 7 (run_line ex_line) [] t).
Proof.
  intros t tl tr no_fork runs.
  assert (Hr : roomy t 3 4).
  { split; [eauto|eauto|eauto|done|done|lia|]. intros [|[|[|[|i]]]] Hi Hne; [eauto..|done|lia]. }
  assert (Hok : line_ok ex_tree) by (simpl; unfold MAXARGS; repeat split; repeat constructor; set_solver).
  destruct (shell_line 7 ex_line ex_tree [] t 3%nat 4%nat ltac:(lia) ex_line_ok Hok eq_refl Hr) as [Hs Hw].
  split; [|apply Hw; reflexivity]. rewrite Hs. reflexivity.
Defined.
