(* ===== verification/Utils.v ===== *)
(** * Small user programs: cat.c, wc.c, echo.c, copy.c, kill.c, ln.c, mkdir.c,
      rm.c, zombie.c and init.c

    Each [main] is a program over system calls, with its arguments after
    [argv[0]].  The theorems are about any system that reads and writes as the
    class [Streams] says. *)

From Stdlib Require Import Ascii String.
From S2P Require Import Prelude Ulib.
Open Scope Z_scope.
Open Scope list_scope.

Definition eol : list Z := [10].

(** ** cat *)

Fixpoint cat (fuel : nat) (fd : Z) : prog unit :=
  match fuel with
  | O => Fuel
  | S fuel' =>
      r ⇐ call (Sread fd 512);
      match r with
      | None => printf 1 (lit "cat: read error" ++ eol) [] ⨾ Exit
      | Some [] => Ret tt
      | Some buf =>
          w ⇐ call (Swrite 1 buf);
          if negb (w =? Z.of_nat (length buf)) then printf 1 (lit "cat: write error" ++ eol) [] ⨾ Exit
          else cat fuel' fd
      end
  end.

Fixpoint cat_files (fuel : nat) (files : list (list Z)) : prog unit :=
  match files with
  | [] => Exit
  | f :: files' =>
      fd ⇐ call (Sopen f 0);
      if fd <? 0 then printf 1 (lit "cat: cannot open %s" ++ eol) [AStr (Some f)] ⨾ Exit
      else cat fuel fd ⨾ call (Sclose fd) ⨾ cat_files fuel files'
  end.

Definition cat_main (fuel : nat) (args : list (list Z)) : prog unit :=
  match args with
  | [] => cat fuel 0 ⨾ Exit
  | _ => cat_files fuel args
  end.

(** ** wc *)

Record counts := { wl : Z; ww : Z; wc_ : Z; inword : bool }.

Definition count (s : counts) (b : Z) : counts :=
  let l := if b =? 10 then wl s + 1 else wl s in
  match strchr [32; 13; 9; 10; 11] b with
  | Some _ => {| wl := l; ww := ww s; wc_ := wc_ s + 1; inword := false |}
  | None =>
      {| wl := l; ww := if inword s then ww s else ww s + 1; wc_ := wc_ s + 1; inword := true |}
  end.

Fixpoint wc_loop (fuel : nat) (fd : Z) (s : counts) : prog (option counts) :=
  match fuel with
  | O => Fuel
  | S fuel' =>
      r ⇐ call (Sread fd 512);
      match r with
      | None => Ret None
      | Some [] => Ret (Some s)
      | Some buf => wc_loop fuel' fd (foldl count s buf)
      end
  end.

Definition wc (fuel : nat) (fd : Z) (name : list Z) : prog unit :=
  r ⇐ wc_loop fuel fd {| wl := 0; ww := 0; wc_ := 0; inword := false |};
  match r with
  | None => printf 1 (lit "wc: read error" ++ eol) [] ⨾ Exit
  | Some s => printf 1 (lit "%d %d %d %s" ++ eol) [AInt (wl s); AInt (ww s); AInt (wc_ s); AStr (Some name)]
  end.

Fixpoint wc_files (fuel : nat) (files : list (list Z)) : prog unit :=
  match files with
  | [] => Exit
  | f :: files' =>
      fd ⇐ call (Sopen f 0);
      if fd <? 0 then printf 1 (lit "wc: cannot open %s" ++ eol) [AStr (Some f)] ⨾ Exit
      else wc fuel fd f ⨾ call (Sclose fd) ⨾ wc_files fuel files'
  end.

Definition wc_main (fuel : nat) (args : list (list Z)) : prog unit :=
  match args with
  | [] => wc fuel 0 [] ⨾ Exit
  | _ => wc_files fuel args
  end.

(** ** copy *)

Fixpoint copy_loop (fuel : nat) (src dest : Z) : prog bool :=
  match fuel with
  | O => Fuel
  | S fuel' =>
      r ⇐ call (Sread src 512);
      match r with
      | None | Some [] => Ret true
      | Some buf =>
          w ⇐ call (Swrite dest buf);
          if negb (w =? Z.of_nat (length buf)) then Ret false else copy_loop fuel' src dest
      end
  end.

Definition local_copy_file (fuel : nat) (src dest : list Z) : prog Z :=
  fd_src ⇐ call (Sopen src 0);
  if fd_src <? 0 then Ret (-1)
  else
    fd_dest ⇐ call (Sopen dest (Z.lor 0x200 0x002));
    if fd_dest <? 0 then call (Sclose fd_src) ⨾ Ret (-1)
    else
      ok ⇐ copy_loop fuel fd_src fd_dest;
      call (Sclose fd_src) ⨾
      call (Sclose fd_dest) ⨾
      Ret (if ok then 0 else -1).

Definition copy_main (fuel : nat) (args : list (list Z)) : prog unit :=
  match args with
  | [src; dest] =>
      r ⇐ local_copy_file fuel src dest;
      (if r <? 0 then printf 1 (lit "Copy failed" ++ eol) [] else printf 1 (lit "Copy succeeded" ++ eol) []) ⨾
      Exit
  | _ => printf 1 (lit "Usage: copy <src> <dest>" ++ eol) [] ⨾ Exit
  end.

(** ** echo, kill, ln, mkdir, rm, zombie, init *)

Fixpoint echo_main (args : list (list Z)) : prog unit :=
  match args with
  | [] => Exit
  | a :: args' =>
      printf 1 (lit "%s%s") [AStr (Some a); AStr (Some (match args' with [] => eol | _ => lit " " end))] ⨾
      echo_main args'
  end.

Fixpoint kill_loop (args : list (list Z)) : prog unit :=
  match args with
  | [] => Exit
  | a :: args' => call (Skill (atoi a)) ⨾ kill_loop args'
  end.

Definition kill_main (args : list (list Z)) : prog unit :=
  match args with
  | [] => printf 2 (lit "usage: kill pid..." ++ eol) [] ⨾ Exit
  | _ => kill_loop args
  end.

Definition ln_main (args : list (list Z)) : prog unit :=
  match args with
  | [old; new] =>
      r ⇐ call (Slink old new);
      (if r <? 0 then printf 2 (lit "link %s %s: failed" ++ eol) [AStr (Some old); AStr (Some new)] else Ret tt) ⨾
      Exit
  | _ => printf 2 (lit "Usage: ln old new" ++ eol) [] ⨾ Exit
  end.

Fixpoint mkdir_loop (args : list (list Z)) : prog unit :=
  match args with
  | [] => Exit
  | a :: args' =>
      r ⇐ call (Smkdir a);
      if r <? 0 then printf 2 (lit "mkdir: %s failed to create" ++ eol) [AStr (Some a)] ⨾ Exit else mkdir_loop args'
  end.

Definition mkdir_main (args : list (list Z)) : prog unit :=
  match args with
  | [] => printf 2 (lit "Usage: mkdir files..." ++ eol) [] ⨾ Exit
  | _ => mkdir_loop args
  end.

Fixpoint rm_loop (args : list (list Z)) : prog unit :=
  match args with
  | [] => Exit
  | a :: args' =>
      r ⇐ call (Sunlink a);
      if r <? 0 then printf 2 (lit "rm: %s failed to delete" ++ eol) [AStr (Some a)] ⨾ Exit else rm_loop args'
  end.

Definition rm_main (args : list (list Z)) : prog unit :=
  match args with
  | [] => printf 2 (lit "Usage: rm files..." ++ eol) [] ⨾ Exit
  | _ => rm_loop args
  end.

Definition zombie_main : prog unit :=
  pid ⇐ call Sfork;
  (if 0 <? pid then call (Ssleep 5) ⨾ Ret tt else Ret tt) ⨾
  Exit.

(** The inner loop of init: until the shell [pid] is reaped. *)
Fixpoint reap_loop (fuel : nat) (pid : Z) : prog unit :=
  match fuel with
  | O => Fuel
  | S fuel' =>
      wpid ⇐ call Swait;
      if (0 <=? wpid) && negb (wpid =? pid) then printf 1 (lit "zombie!" ++ eol) [] ⨾ reap_loop fuel' pid
      else Ret tt
  end.

Fixpoint init_loop (fuel : nat) : prog unit :=
  match fuel with
  | O => Fuel
  | S fuel' =>
      printf 1 (lit "init: starting sh" ++ eol) [] ⨾
      pid ⇐ call Sfork;
      if pid <? 0 then printf 1 (lit "init: fork failed" ++ eol) [] ⨾ Exit
      else if pid =? 0 then
        call (Sexec (lit "sh") [lit "sh"]) ⨾
        printf 1 (lit "init: exec sh failed" ++ eol) [] ⨾
        Exit
      else reap_loop fuel' pid ⨾ init_loop fuel'
  end.

Definition init_main (fuel : nat) : prog unit :=
  r ⇐ call (Sopen (lit "console") 2);
  (if r <? 0 then
     call (Smknod (lit "console") 1 1) ⨾
     call (Sopen (lit "console") 2) ⨾
     Ret tt
   else Ret tt) ⨾
  call (Sdup 0) ⨾
  call (Sdup 0) ⨾
  init_loop fuel.

(** ** Systems that read and write *)

(** [feeds fd bs w]: reading from [fd] yields [bs], in pieces of any size, and
    then the end; [sink fd w]: what is written to [fd] is appended to
    [written fd w]. *)
Class Streams (W : Type) `{Sys W} := {
  feeds : Z → list Z → W → Prop;
  sink : Z → W → Prop;
  written : Z → W → list Z;
  read_law fd bs n w : feeds fd bs w → 0 < n →
    ∃ k w', sys_call _ (Sread fd n) w = (Some (take k bs), w') ∧ Z.of_nat k ≤ n ∧ (bs ≠ [] → (0 < k)%nat) ∧
      feeds fd (drop k bs) w' ∧ (∀ fd', written fd' w' = written fd' w) ∧ (∀ fd', sink fd' w → sink fd' w');
  write_law fd bs w : sink fd w →
    ∃ w', sys_call _ (Swrite fd bs) w = (Z.of_nat (length bs), w') ∧ written fd w' = written fd w ++ bs ∧
      sink fd w' ∧ (∀ fd' bs', fd' ≠ fd → feeds fd' bs' w → feeds fd' bs' w') }.

Section streams.
Context {W : Type} `{Hstr : Streams W}.

(** What a loop that reads to the end gets each time. *)
Lemma read_turn fd bs w :
  feeds fd bs w →
  ∃ w', (∀ fd', written fd' w' = written fd' w) ∧ (∀ fd', sink fd' w → sink fd' w') ∧
    ((bs = [] ∧ sys_call _ (Sread fd 512) w = (Some [], w') ∧ feeds fd [] w') ∨
     ∃ c a b, bs = (c :: a) ++ b ∧ sys_call _ (Sread fd 512) w = (Some (c :: a), w') ∧ feeds fd b w').
Proof.
  intros Hf. destruct (read_law fd bs 512 w Hf ltac:(lia)) as (k & w' & Hr & _ & Hk & Hf' & Hw & Hs). exists w'.
  split_and!; [done|done|]. destruct bs as [|c bs]; [left; by rewrite take_nil, drop_nil in *|right].
  destruct k as [|k]; [by specialize (Hk ltac:(done)); lia|]. exists c, (take k bs), (drop k bs).
  split_and!; [simpl; by rewrite take_drop|done|done].
Qed.

Lemma puts_run fd s w :
  sink fd w → ∃ w', run (puts fd s) w = (Ret tt, w') ∧ written fd w' = written fd w ++ s ∧ sink fd w' ∧
    ∀ fd' bs', fd' ≠ fd → feeds fd' bs' w → feeds fd' bs' w'.
Proof.
  revert w. induction s as [|c s IH]; intros w Hs; [exists w; by rewrite app_nil_r|].
  destruct (write_law fd [c] w Hs) as (w1 & Hr & Hw & Hs1 & Hf1). destruct (IH w1 Hs1) as (w2 & Hr2 & Hw2 & Hs2 & Hf2).
  exists w2. split_and!; [|by rewrite Hw2, Hw, <-app_assoc|done|auto].
  cbn [puts]. rewrite run_bind. cbn [run call]. by rewrite Hr.
Qed.

(** cat copies all of its input to its standard output, whatever the pieces it
    reads, and returns. *)
Theorem cat_copies fd bs w fuel :
  feeds fd bs w → sink 1 w → fd ≠ 1 → (length bs < fuel)%nat →
  ∃ w', run (cat fuel fd) w = (Ret tt, w') ∧ written 1 w' = written 1 w ++ bs ∧ feeds fd [] w'.
Proof.
  intros Hf Hs Hfd. revert bs w Hf Hs. induction fuel as [|fuel IH]; intros bs w Hf Hs Hl; [lia|]. cbn [cat].
  rewrite run_bind. cbn [run call].
  destruct (read_turn fd bs w Hf) as (w1 & Hw1 & Hs1 & [(-> & Hr & Hf1)|(c & a & b & -> & Hr & Hf1)]); rewrite Hr.
  { exists w1. split_and!; [done|by rewrite Hw1, app_nil_r|done]. }
  destruct (write_law 1 (c :: a) w1 (Hs1 _ Hs)) as (w2 & Hr2 & Hw2 & Hs2 & Hf2).
  rewrite run_bind. cbn [run call]. rewrite Hr2, Z.eqb_refl. cbn [negb].
  destruct (IH b w2) as (w3 & Hr3 & Hw3 & Hf3); [by apply Hf2|done|rewrite length_app in Hl; simpl in Hl; lia|].
  exists w3. split_and!; [done| |done]. by rewrite Hw3, Hw2, Hw1, <-app_assoc.
Qed.

Definition is_blank (b : Z) : bool := match strchr [32; 13; 9; 10; 11] b with Some _ => true | None => false end.

(** The words of a text, [cur] being the word that goes on. *)
Fixpoint words_of (cur bs : list Z) : list (list Z) :=
  let flush := match cur with [] => [] | _ => [cur] end in
  match bs with
  | [] => flush
  | b :: bs' => if is_blank b then flush ++ words_of [] bs' else words_of (cur ++ [b]) bs'
  end.

Lemma count_spec bs : ∀ s cur, inword s = (match cur with [] => false | _ => true end) →
  let s' := foldl count s bs in
  wl s' = wl s + Z.of_nat (length (filter (λ b, b = 10) bs)) ∧ wc_ s' = wc_ s + Z.of_nat (length bs) ∧
  ww s' + (if inword s then 1 else 0) = ww s + Z.of_nat (length (words_of cur bs)).
Proof.
  induction bs as [|b bs IH]; intros s cur Hc; [simpl; rewrite Hc; destruct cur; simpl; lia|].
  assert (Hwl : wl (count s b) = wl s + (if decide (b = 10) then 1 else 0)).
  { unfold count. destruct (strchr _ b), (Z.eqb_spec b 10); case_decide; simpl; lia. }
  assert (Hwc : wc_ (count s b) = wc_ s + 1) by (unfold count; by destruct (strchr _ b)).
  cbn [foldl words_of]. rewrite filter_cons.
  destruct (is_blank b) eqn:Hb; unfold is_blank in Hb; destruct (strchr [32; 13; 9; 10; 11] b) eqn:Es; try done.
  - destruct (IH (count s b) []) as (H1 & H2 & H3); [by unfold count; rewrite Es|].
    assert (Hin : inword (count s b) = false ∧ ww (count s b) = ww s) by (unfold count; by rewrite Es).
    destruct Hin as [Hin Hww]. rewrite Hin, Hww in H3. rewrite H1, H2, Hwl, Hwc, length_app.
    split_and!; [case_decide; simpl; lia|simpl; lia|rewrite Hc; destruct cur; simpl; lia].
  - destruct (IH (count s b) (cur ++ [b])) as (H1 & H2 & H3); [unfold count; rewrite Es; by destruct cur|].
    assert (Hin : inword (count s b) = true ∧ ww (count s b) = if inword s then ww s else ww s + 1) by (unfold count; by rewrite Es).
    destruct Hin as [Hin Hww]. rewrite Hin, Hww in H3. rewrite H1, H2, Hwl, Hwc.
    split_and!; [case_decide; simpl; lia|simpl; lia|destruct (inword s); lia].
Qed.

Lemma wc_loop_run fd bs fuel : ∀ s w,
  feeds fd bs w → (length bs < fuel)%nat →
  ∃ w', run (wc_loop fuel fd s) w = (Ret (Some (foldl count s bs)), w') ∧ (∀ fd', written fd' w' = written fd' w) ∧
    ∀ fd', sink fd' w → sink fd' w'.
Proof.
  revert bs. induction fuel as [|fuel IH]; intros bs s w Hf Hl; [lia|]. cbn [wc_loop]. rewrite run_bind. cbn [run call].
  destruct (read_turn fd bs w Hf) as (w1 & Hw1 & Hs1 & [(-> & Hr & Hf1)|(c & a & b & -> & Hr & Hf1)]); rewrite Hr.
  { by exists w1. }
  destruct (IH b (foldl count s (c :: a)) w1 Hf1) as (w2 & Hr2 & Hw2 & Hs2); [rewrite length_app in Hl; simpl in Hl; lia|].
  exists w2. rewrite Hr2, foldl_app. split_and!; [done|intros fd'; by rewrite Hw2|auto].
Qed.

(** wc prints the number of newlines, of words and of characters of its input,
    whatever the pieces it reads: a word is not cut where a piece ends. *)
Theorem wc_counts fd bs name w fuel :
  feeds fd bs w → sink 1 w → (length bs < fuel)%nat →
  ∃ w', run (wc fuel fd name) w = (Ret tt, w') ∧
    written 1 w' = written 1 w ++
      printint (Z.of_nat (length (filter (λ b, b = 10) bs))) 10 true ++ lit " " ++
      printint (Z.of_nat (length (words_of [] bs))) 10 true ++ lit " " ++
      printint (Z.of_nat (length bs)) 10 true ++ lit " " ++ name ++ eol.
Proof.
  intros Hf Hs Hl. unfold wc. set (s0 := {| wl := 0; ww := 0; wc_ := 0; inword := false |}).
  destruct (wc_loop_run fd bs fuel s0 w Hf Hl) as (w1 & Hr1 & Hw1 & Hs1).
  rewrite run_bind, Hr1. destruct (count_spec bs s0 [] eq_refl) as (H1 & H2 & H3).
  cbn [s0 wl ww wc_ inword] in H1, H2, H3. rewrite Z.add_0_r in H3. rewrite H1, H2, H3, !Z.add_0_l.
  set (x := Z.of_nat _). set (y := Z.of_nat _). set (z := Z.of_nat _).
  destruct (puts_run 1 (default [] (format (lit "%d %d %d %s" ++ eol) [AInt x; AInt y; AInt z; AStr (Some name)])) w1 (Hs1 _ Hs))
    as (w2 & Hr2 & Hw2 & _). exists w2. unfold printf. split; [exact Hr2|]. rewrite Hw2, Hw1. f_equal.
Qed.
End streams.

(** ** A system with one input and one output *)

Record memio := { mem_in : list Z; mem_out : list Z }.

(** Descriptor 0 is read at most three bytes at a time, 1 is written. *)
#[export] Instance memio_sys : Sys memio := λ R c,
  match c in sys R return memio → R * memio with
  | Sread fd n => λ w,
      if fd =? 0 then
        let k := Nat.min 3 (Z.to_nat n) in
        (Some (take k (mem_in w)), {| mem_in := drop k (mem_in w); mem_out := mem_out w |})
      else (None, w)
  | Swrite fd bs => λ w,
      if fd =? 1 then (Z.of_nat (length bs), {| mem_in := mem_in w; mem_out := mem_out w ++ bs |}) else (-1, w)
  | Sopen _ mode => λ w, (if mode =? 0 then 3 else 1, w)
  | Spipe => λ w, (None, w)
  | Sfstat _ => λ w, (None, w)
  | Sfork | Swait | Sclose _ | Skill _ | Sexec _ _ | Smknod _ _ _ | Sunlink _ | Slink _ _ | Smkdir _ | Schdir _
  | Sdup _ | Ssleep _ => λ w, (0, w)
  end.

#[export] Program Instance memio_streams : Streams memio := {|
  feeds fd bs w := fd = 0 ∧ mem_in w = bs;
  sink fd w := fd = 1;
  written fd w := if fd =? 1 then mem_out w else [] |}.
Next Obligation.
  intros fd bs n w [-> <-] Hn. eexists (Nat.min 3 (Z.to_nat n)), _. split; [done|].
  split_and!; [lia|intros _; lia|done|done|done|done].
Qed.
Next Obligation.
  intros fd bs w ->. eexists. split; [done|]. split_and!; done.
Qed.

Lemma cat_copies_witness :
  ∃ w', run (cat 6 0) {| mem_in := lit "hello"; mem_out := [] |} = (Ret tt, w') ∧ written 1 w' = lit "hello".
Proof.
  destruct (cat_copies 0 (lit "hello") {| mem_in := lit "hello"; mem_out := [] |} 6) as (w' & Hr & Hw & _).
  - by split.
  - done.
  - done.
  - simpl. lia.
  - exists w'. split; [exact Hr|exact Hw].
Defined.

(** The words of [to be\nor] are not cut at the pieces of three bytes. *)
Lemma wc_counts_witness :
  ∃ w', run (wc 10 0 (lit "f")) {| mem_in := lit "to be" ++ eol ++ lit "or"; mem_out := [] |} = (Ret tt, w') ∧
    written 1 w' = lit "1 3 8 f" ++ eol.
Proof.
  destruct (wc_counts 0 (lit "to be" ++ eol ++ lit "or") (lit "f") {| mem_in := lit "to be" ++ eol ++ lit "or"; mem_out := [] |} 10)
    as (w' & Hr & Hw).
  - by split.
  - done.
  - simpl. lia.
  - exists w'. split; [exact Hr|]. rewrite Hw. reflexivity.
Defined.

(** A read error in the middle of a copy is not reported: the loop takes it for
    the end of the file, so [local_copy_file] returns 0 and copy prints that it
    succeeded. *)
Lemma copy_hides_read_error :
  run (local_copy_file 2 (lit "a") (lit "b")) {| mem_in := lit "text"; mem_out := [] |} =
  (Ret 0, {| mem_in := lit "text"; mem_out := [] |}).
Proof. reflexivity. Qed.
