(* ===== verification/Umalloc.v ===== *)
(** * The allocator of user programs: umalloc.c

    [malloc] and [free] over the words of a process's memory: a header at [p] is
    the pointer at [p] and the size, in units of 8 bytes, at [p + 4].  The free
    blocks are a ring in the order of their addresses through [base].  [sbrk] is
    the system call: an oracle says whether it succeeds. *)

From Stdlib Require Import Sorted.
From stdpp Require Import sorting list_tactics.
From S2P Require Import Prelude.

(** ** The code *)

Record heap := mkheap {
  mem : Z → Z;           (* the words of the memory *)
  freep : Z;
  brk : Z;               (* the size of the process *)
  grants : list bool }.  (* whether the next calls of sbrk find memory *)

#[export] Instance heap_eta : Eta heap := λ h, mkheap (mem h) (freep h) (brk h) (grants h).

Definition set (a v : Z) (m : Z → Z) : Z → Z := λ x, if x =? a then v else m x.

Section umalloc.
(** The address of the static variable [base]. *)
Context (base : Z).

Definition ptr (h : heap) (p : Z) : Z := mem h p.
Definition size (h : heap) (p : Z) : Z := mem h (p + 4).
Definition set_ptr (p v : Z) (h : heap) : heap := h <| mem ::= set p v |>.
Definition set_size (p v : Z) (h : heap) : heap := h <| mem ::= set (p + 4) v |>.

(** [p + n] for a [Header] pointer. *)
Definition units (p n : Z) : Z := u32 (p + 8 * n).

(** The [for] loop of [free]: where [bp] goes. *)
Fixpoint free_loop (fuel : nat) (bp p : Z) (h : heap) : option Z :=
  match fuel with
  | O => None
  | S fuel' =>
      if (p <? bp) && (bp <? ptr h p) then Some p
      else if (ptr h p <=? p) && ((p <? bp) || (bp <? ptr h p)) then Some p
      else free_loop fuel' bp (ptr h p) h
  end.

(** [bp] before the next free block: joined if they touch. *)
Definition free_next (bp p : Z) (h : heap) : heap :=
  if units bp (size h bp) =? ptr h p then
    let h := set_size bp (u32 (size h bp + size h (ptr h p))) h in
    set_ptr bp (ptr h (ptr h p)) h
  else set_ptr bp (ptr h p) h.

(** [bp] after the previous one. *)
Definition free_prev (bp p : Z) (h : heap) : heap :=
  if units p (size h p) =? bp then
    let h := set_size p (u32 (size h p + size h bp)) h in
    set_ptr p (ptr h bp) h
  else set_ptr p bp h.

Definition free_at (bp p : Z) (h : heap) : heap :=
  (free_prev bp p (free_next bp p h)) <| freep := p |>.

Definition free (fuel : nat) (ap : Z) (h : heap) : option heap :=
  let bp := ap - 8 in
  match free_loop fuel bp (freep h) h with
  | Some p => Some (free_at bp p h)
  | None => None
  end.

(** [sbrk(n)]: the old size, or -1.  Growing needs memory below [KERNBASE];
    shrinking to a size that wraps around leaves the process as it is. *)
Definition sbrk (n : Z) (h : heap) : Z * heap :=
  let sz := u32 (brk h + n) in
  if 0 <? n then
    let h' := h <| grants ::= tail |> in
    if hd false (grants h) && (sz <? 2 ^ 31) then (brk h, h' <| brk := sz |>) else (-1, h')
  else if n <? 0 then
    let sz := if brk h <=? sz then brk h else sz in
    if sz =? 0 then (-1, h) else (brk h, h <| brk := sz |>)
  else (brk h, h).

Definition morecore (fuel : nat) (nu : Z) (h : heap) : option (Z * heap) :=
  let nu := if nu <? 4096 then 4096 else nu in
  let '(p, h) := sbrk (s32 (u32 (nu * 8))) h in
  if p =? -1 then Some (0, h)
  else
    let h := set_size p nu h in
    match free fuel (p + 8) h with
    | Some h => Some (freep h, h)
    | None => None
    end.

(** The block [p] is big enough: it is taken out of the ring, or its tail is. *)
Definition take_block (nunits prevp p : Z) (h : heap) : Z * heap :=
  if size h p =? nunits then (p, set_ptr prevp (ptr h p) h)
  else
    let h := set_size p (size h p - nunits) h in
    let p := units p (size h p) in
    (p, set_size p nunits h).

Fixpoint malloc_loop (fuel turns : nat) (nunits prevp p : Z) (h : heap) : option (Z * heap) :=
  match turns with
  | O => None
  | S turns' =>
      if nunits <=? size h p then
        let '(p, h) := take_block nunits prevp p h in
        Some (p + 8, h <| freep := prevp |>)
      else if p =? freep h then
        match morecore fuel nunits h with
        | None => None
        | Some (q, h) => if q =? 0 then Some (0, h) else malloc_loop fuel turns' nunits q (ptr h q) h
        end
      else malloc_loop fuel turns' nunits p (ptr h p) h
  end.

(** [malloc(nbytes)]: 0 when there is no memory. *)
Definition malloc (fuel turns : nat) (nbytes : Z) (h : heap) : option (Z * heap) :=
  let nunits := u32 (u32 (u32 (nbytes + 8) - 1) / 8 + 1) in
  let h :=
    if freep h =? 0 then set_size base 0 (set_ptr base base (h <| freep := base |>)) else h in
  let prevp := freep h in
  malloc_loop fuel turns nunits prevp (ptr h prevp) h.

(** ** The invariant *)

(** A block is its address and its size in units. *)
#[local] Abbreviation block := (Z * Z)%type.

(** The nodes [F] follow [x], and the last one points to [e]. *)
Fixpoint chain (m : Z → Z) (x : Z) (F : list block) (e : Z) : Prop :=
  match F with
  | [] => m x = e
  | (b, s) :: F' => m x = b ∧ m (b + 4) = s ∧ chain m b F' e
  end.

Definition apart (x y : block) : Prop := x.1 + 8 * x.2 ≤ y.1 ∨ y.1 + 8 * y.2 ≤ x.1.

(** [x] ends before [y] starts, and they do not touch. *)
Definition before (x y : block) : Prop := x.1 + 8 * x.2 < y.1.

(** [R] holds between any two elements. *)
Fixpoint pairs {X} (R : X → X → Prop) (l : list X) : Prop :=
  match l with
  | [] => True
  | x :: l' => Forall (R x) l' ∧ pairs R l'
  end.

#[local] Abbreviation all_apart := (pairs apart).

Definition total (l : list block) : Z := foldr (λ x n, x.2 + n) 0 l.

(** The blocks [l] tile the memory from [lo] to [hi]. *)
Record tiles (lo hi : Z) (l : list block) : Prop := {
  tl_block : Forall (λ x, x.1 mod 8 = 0 ∧ 1 ≤ x.2 ∧ lo ≤ x.1 ∧ x.1 + 8 * x.2 ≤ hi) l;
  tl_apart : all_apart l;
  tl_total : 8 * total l = hi - lo }.

(** The free blocks [F] and the blocks in use [A] tile the memory from [lo] to
    the size of the process; [F] is in order and no two of its blocks touch. *)
Record heap_ok (lo : Z) (h : heap) (F A : list block) : Prop := {
  ok_base : 0 < base ∧ base + 8 ≤ lo ∧ lo ≤ brk h < 2 ^ 31;
  ok_align : base mod 8 = 0 ∧ lo mod 8 = 0;
  ok_ring : chain (mem h) base F base;
  ok_base_size : size h base = 0;
  ok_freep : freep h ∈ base :: F.*1;
  ok_sizes : Forall (λ x, mem h (x.1 + 4) = x.2) A;
  ok_tiles : tiles lo (brk h) (F ++ A);
  ok_sorted : StronglySorted before F }.

Lemma apart_sym x y : apart x y → apart y x.
Proof. unfold apart. tauto. Qed.

Lemma pairs_perm {X} (R : X → X → Prop) l l' : (∀ x y, R x y → R y x) → l ≡ₚ l' → pairs R l → pairs R l'.
Proof.
  intros Hsym. induction 1 as [|x l l' Hp IH|x y l|l1 l2 l3 H1 IH1 H2 IH2]; simpl; [done| | |tauto].
  - intros [Hx Hl]. split; [by rewrite <-Hp|auto].
  - rewrite !Forall_cons. intros [[Hyx Hy] [Hx Hl]]. split_and!; [by apply Hsym|done|done|done].
Qed.

Lemma pairs_app {X} (R : X → X → Prop) l l' :
  pairs R (l ++ l') ↔ pairs R l ∧ pairs R l' ∧ (∀ x y, x ∈ l → y ∈ l' → R x y).
Proof.
  induction l as [|x l IH]; simpl; [split; [intros; split_and!; [done|done|set_solver]|tauto]|].
  rewrite IH, Forall_app, (Forall_forall (R x) l'). set_solver.
Qed.

Lemma total_perm l l' : l ≡ₚ l' → total l = total l'.
Proof. induction 1; simpl; lia. Qed.

Lemma tiles_perm lo hi l l' : l ≡ₚ l' → tiles lo hi l → tiles lo hi l'.
Proof.
  intros Hp [Hb Ha Ht]. split; [by rewrite <-Hp|eapply (pairs_perm apart); [exact apart_sym|exact Hp|exact Ha]|by rewrite <-(total_perm _ _ Hp)].
Qed.

(** Two blocks that touch become one. *)
Lemma tiles_join lo hi x y l :
  tiles lo hi (x :: y :: l) → x.1 + 8 * x.2 = y.1 → tiles lo hi ((x.1, x.2 + y.2) :: l).
Proof.
  intros [Hb [Hx [Hy Hl]] Ht] Hxy. rewrite !Forall_cons in Hb. destruct Hb as (Hbx & Hby & Hbl).
  apply Forall_cons in Hx as [_ Hx]. split.
  - apply Forall_cons. split; [cbn [fst snd total foldr]; lia|done].
  - split; [|done]. rewrite Forall_forall in *. intros z Hz. specialize (Hx z Hz). specialize (Hy z Hz).
    specialize (Hbl z Hz). unfold apart in *. cbn [fst snd total foldr]. lia.
  - cbn [fst snd total foldr] in *. lia.
Qed.

(** A block is cut in two. *)
Lemma tiles_cut lo hi b s n l :
  tiles lo hi ((b, s) :: l) → 0 < n < s → tiles lo hi ((b, s - n) :: (b + 8 * (s - n), n) :: l).
Proof.
  intros [Hb [Hx Hl] Ht] Hn. rewrite Forall_cons in Hb. destruct Hb as (Hbx & Hbl). cbn [fst snd] in Hbx. split.
  - rewrite !Forall_cons. cbn [fst snd total foldr]. split_and!; try done; try lia. rewrite Z.add_mod, Z.mul_mod by lia.
    rewrite (proj1 Hbx), Z.mod_same by lia. done.
  - split; [constructor; [unfold apart; cbn [fst snd total foldr]; lia|]|split; [|done]]; rewrite Forall_forall in *; intros z Hz;
      specialize (Hx z Hz); specialize (Hbl z Hz); unfold apart in *; cbn [fst snd total foldr] in *; lia.
  - cbn [fst snd total foldr] in *. lia.
Qed.

(** A block is added at the end. *)
Lemma tiles_grow lo hi n l :
  tiles lo hi l → lo ≤ hi → hi mod 8 = 0 → 1 ≤ n → tiles lo (hi + 8 * n) ((hi, n) :: l).
Proof.
  intros [Hb Ha Ht] Hle Hm Hn. split.
  - apply Forall_cons. split; [cbn [fst snd total foldr]; lia|]. eapply Forall_impl; [exact Hb|]. cbn [fst snd total foldr]. intros x Hx. lia.
  - split; [|done]. eapply Forall_impl; [exact Hb|]. intros x (? & ? & ? & ?). unfold apart. cbn [fst snd total foldr]. lia.
  - change (total ((hi, n) :: l)) with (n + total l). lia.
Qed.

Lemma total_app l l' : total (l ++ l') = total l + total l'.
Proof. induction l; simpl; lia. Qed.

(** The last node of a chain, and the node that follows. *)
Definition endp (x : Z) (F : list block) : Z := foldl (λ _ b, b.1) x F.
Definition headp (F : list block) (e : Z) : Z := match F with [] => e | x :: _ => x.1 end.

Lemma endp_app x F b s : endp x (F ++ [(b, s)]) = b.
Proof. unfold endp. by rewrite foldl_app. Qed.

Lemma chain_app m x F1 F2 e :
  chain m x (F1 ++ F2) e ↔
  chain m x F1 (headp F2 e) ∧ (match F2 with [] => True | (b, s) :: F2' => m (b + 4) = s ∧ chain m b F2' e end).
Proof.
  revert x. induction F1 as [|[b s] F1 IH]; intros x; simpl.
  - destruct F2 as [|[b s] F2]; simpl; tauto.
  - rewrite IH. tauto.
Qed.

Lemma chain_end m x F e : chain m x F e → m (endp x F) = e.
Proof. revert x. induction F as [|[b s] F IH]; intros x; simpl; [done|]. intros (_ & _ & Hc). by apply IH. Qed.

Lemma chain_frame m m' x F e :
  chain m x F e → m' x = m x → Forall (λ b, m' b.1 = m b.1 ∧ m' (b.1 + 4) = m (b.1 + 4)) F → chain m' x F e.
Proof.
  revert x. induction F as [|[b s] F IH]; intros x; simpl; [congruence|]. intros (Hx & Hb & Hc) Hm Hall.
  apply Forall_cons in Hall as [[Hb1 Hb2] Hall]. simpl in Hb1, Hb2. split_and!; [congruence|congruence|by apply IH].
Qed.

Lemma chain_move m m' x x' F e :
  chain m x F e → m' x' = m x → Forall (λ b, m' b.1 = m b.1 ∧ m' (b.1 + 4) = m (b.1 + 4)) F → chain m' x' F e.
Proof.
  destruct F as [|[b s] F]; simpl; [congruence|]. intros (Hx & Hb & Hc) Hm Hall.
  apply Forall_cons in Hall as [[Hb1 Hb2] Hall]. simpl in Hb1, Hb2.
  split_and!; [congruence|congruence|by eapply chain_frame].
Qed.

(** Changing only where the last node points. *)
Lemma chain_retarget m m' x F e e' :
  chain m x F e → m' (endp x F) = e' →
  Forall (λ b, m' (b.1 + 4) = m (b.1 + 4) ∧ (b.1 ≠ endp x F → m' b.1 = m b.1)) F → (x ≠ endp x F → m' x = m x) →
  NoDup (x :: F.*1) → chain m' x F e'.
Proof.
  revert x. induction F as [|[b s] F IH]; intros x; simpl; [done|]. intros (Hx & Hb & Hc) He Hall Hm Hnd.
  apply Forall_cons in Hall as [[Hb1 Hb2] Hall]. simpl in Hb1, Hb2. apply NoDup_cons in Hnd as [Hxn Hnd].
  assert (Hin : ∀ y G, endp y G ∈ y :: G.*1).
  { clear. intros y G. revert y. induction G as [|[c t] G IHG]; intros y; simpl; [set_solver|]. specialize (IHG c). set_solver. }
  assert (Hne : x ≠ endp b F) by (intros Hxe; apply Hxn; rewrite Hxe; apply Hin).
  split_and!; [rewrite <-Hx; auto|congruence|]. apply IH; auto.
Qed.

(** Two headers that do not overlap. *)
Definition far (x y : Z) : Prop := x + 8 ≤ y ∨ y + 8 ≤ x.

Lemma set_eq a v m : set a v m a = v.
Proof. unfold set. by rewrite Z.eqb_refl. Qed.
Lemma set_ne a v m x : x ≠ a → set a v m x = m x.
Proof. intros H. unfold set. by rewrite (proj2 (Z.eqb_neq _ _)). Qed.

Section facts.
Context (lo : Z) (h : heap) (F A : list block) (Hok : heap_ok lo h F A).

Lemma block_facts x : x ∈ F ++ A → x.1 mod 8 = 0 ∧ 1 ≤ x.2 ∧ lo ≤ x.1 ∧ x.1 + 8 * x.2 ≤ brk h.
Proof. intros Hx. pose proof (tl_block _ _ _ (ok_tiles _ _ _ _ Hok)) as Hb. rewrite Forall_forall in Hb. by apply Hb. Qed.

Lemma base_far x : x ∈ F ++ A → base + 8 ≤ x.1 ∧ far base x.1.
Proof. intros Hx%block_facts. pose proof (ok_base _ _ _ _ Hok). unfold far. lia. Qed.

Lemma blocks_far l1 x l2 y : F ++ A = l1 ++ x :: l2 → y ∈ l1 ++ l2 → far x.1 y.1 ∧ apart x y.
Proof.
  intros Hl Hy.
  assert (Hx' : x ∈ F ++ A) by (rewrite Hl; set_solver). assert (Hy' : y ∈ F ++ A) by (rewrite Hl; set_solver).
  apply block_facts in Hx', Hy'. pose proof (tl_apart _ _ _ (ok_tiles _ _ _ _ Hok)) as Hap. rewrite Hl in Hap.
  apply (pairs_perm _ _ (x :: l1 ++ l2)) in Hap; [|exact apart_sym|by rewrite Permutation_middle]. destruct Hap as [Hall _].
  rewrite Forall_forall in Hall. specialize (Hall y Hy). split; [|done]. unfold apart in Hall. unfold far. lia.
Qed.
End facts.

(** The nodes before and after an address. *)
Definition below (a : Z) (F : list block) : Prop := Forall (λ x, x.1 < a) F.
Definition above (a : Z) (F : list block) : Prop := Forall (λ x, a < x.1) F.

Lemma endp_below a x F : x < a → below a F → endp x F < a.
Proof. revert x. induction F as [|[b s] F IH]; intros x Hx Hb; [done|]. apply Forall_cons in Hb as [? ?]. by apply IH. Qed.

Lemma endp_above a x F : a < x → above a F → a < endp x F.
Proof. revert x. induction F as [|[b s] F IH]; intros x Hx Hb; [done|]. apply Forall_cons in Hb as [? ?]. by apply IH. Qed.

Lemma endp_elem x F : endp x F ∈ x :: F.*1.
Proof. revert x. induction F as [|[b s] F IH]; intros x; simpl; [set_solver|]. specialize (IH b). set_solver. Qed.

Lemma node_split x F : x ∈ base :: F.*1 → ∃ F1 F2, F = F1 ++ F2 ∧ x = endp base F1.
Proof.
  intros [->|Hx]%elem_of_cons; [by exists [], F|]. apply list_elem_of_fmap in Hx as ([b s] & -> & Hin).
  apply list_elem_of_split in Hin as (l1 & l2 & ->). exists (l1 ++ [(b, s)]), l2. rewrite endp_app, <-app_assoc. done.
Qed.

Lemma node_split_last F : endp base F = base ∨ ∃ G s, F = G ++ [(endp base F, s)].
Proof.
  destruct F as [|[b s] G _] using rev_ind; [by left|right]. exists G, s. by rewrite endp_app.
Qed.

(** ** free *)

Section free_loop.
Context (h : heap) (bp : Z) (F1 F2 : list block).
Hypothesis Hring : chain (mem h) base (F1 ++ F2) base.
Hypothesis Hb : base < bp.
Hypothesis H1 : below bp F1.
Hypothesis H2 : above bp F2.
Hypothesis Hlow : above base F1.
Hypothesis Hsort : StronglySorted (λ x y, x.1 < y.1) (F1 ++ F2).

Lemma endp_sorted l1 b s l2 : F1 ++ F2 = l1 ++ (b, s) :: l2 → endp base l1 < b.
Proof.
  intros Hl. rewrite Hl in Hsort. destruct l1 as [|[c t] l1 _] using rev_ind.
  - simpl. assert (Hin : (b, s) ∈ F1 ++ F2) by (rewrite Hl; set_solver). apply elem_of_app in Hin.
    unfold above in *. rewrite Forall_forall in Hlow, H2. destruct Hin as [Hin|Hin]; [by apply (Hlow (b, s))|].
    specialize (H2 (b, s) Hin). simpl in H2. lia.
  - rewrite endp_app. apply StronglySorted_app_1_elem_of with (x1 := (c, t)) (x2 := (b, s)) in Hsort; set_solver.
Qed.

(** From a node before [bp] the loop goes on to the last one. *)
Lemma free_loop_below G : ∀ G1 fuel, F1 = G1 ++ G → (length G < fuel)%nat → free_loop fuel bp (endp base G1) h = Some (endp base F1).
Proof.
  induction G as [|[b s] G IH]; intros G1 fuel HG Hf; (destruct fuel as [|fuel]; [simpl in Hf; lia|]); cbn [free_loop].
  - rewrite app_nil_r in HG. subst G1. unfold ptr. apply chain_app in Hring as [Hc _]. rewrite (chain_end _ _ _ _ Hc).
    assert (Hlt : endp base F1 < bp) by (by apply endp_below). rewrite (proj2 (Z.ltb_lt _ _) Hlt).
    destruct F2 as [|[q sq] F2']; cbn [headp fst].
    + rewrite (proj2 (Z.ltb_ge bp base)) by lia. cbn [andb orb].
      assert (Hge : base ≤ endp base F1).
      { destruct F1 as [|[c t] F1' _] using rev_ind; [done|]. rewrite endp_app. unfold above in Hlow.
        rewrite Forall_app, Forall_singleton in Hlow. simpl in Hlow. lia. }
      by rewrite (proj2 (Z.leb_le _ _) Hge).
    + apply Forall_cons in H2 as [Hq _]. simpl in Hq. by rewrite (proj2 (Z.ltb_lt _ _) Hq).
  - unfold ptr. pose proof Hring as Hc. rewrite HG, <-app_assoc in Hc. apply chain_app in Hc as [Hc _]. cbn [headp app fst] in Hc.
    rewrite (chain_end _ _ _ _ Hc). pose proof (endp_sorted G1 b s (G ++ F2) ltac:(by rewrite HG, <-app_assoc)) as Hlt.
    assert (Hbb : b < bp) by (unfold below in H1; rewrite HG, Forall_app, Forall_cons in H1; tauto).
    simpl fst. rewrite (proj2 (Z.ltb_ge bp b)), (proj2 (Z.leb_gt b _)) by lia. rewrite andb_false_r. cbn [andb].
    specialize (IH (G1 ++ [(b, s)]) fuel). rewrite endp_app in IH. apply IH; [by rewrite HG, <-app_assoc|simpl in Hf; lia].
Qed.

(** From a node after [bp] it goes through [base]. *)
Lemma free_loop_above G : ∀ G1 fuel, F2 = G1 ++ G → G1 ≠ [] → (length G + length F1 + 1 < fuel)%nat →
  free_loop fuel bp (endp base (F1 ++ G1)) h = Some (endp base F1).
Proof.
  induction G as [|[b s] G IH]; intros G1 fuel HG Hne Hf; (destruct fuel as [|fuel]; [simpl in Hf; lia|]); cbn [free_loop].
  all: assert (Hgt : bp < endp base (F1 ++ G1)) by
    (destruct G1 as [|[c t] G1 _] using rev_ind; [done|]; rewrite app_assoc, endp_app;
     unfold above in H2; rewrite HG, !Forall_app, Forall_cons in H2; simpl in H2; tauto).
  all: rewrite (proj2 (Z.ltb_ge (endp base (F1 ++ G1)) bp)) by lia; cbn [andb orb].
  - rewrite app_nil_r in HG. subst G1. unfold ptr. rewrite (chain_end _ _ _ _ Hring), (proj2 (Z.ltb_ge bp base)) by lia.
    rewrite andb_false_r. apply (free_loop_below F1 []); [done|simpl in Hf; lia].
  - unfold ptr. pose proof Hring as Hc. rewrite HG, app_assoc in Hc. apply chain_app in Hc as [Hc _]. cbn [headp fst] in Hc.
    rewrite (chain_end _ _ _ _ Hc).
    pose proof (endp_sorted (F1 ++ G1) b s G ltac:(by rewrite HG, <-app_assoc)) as Hlt. simpl fst.
    rewrite (proj2 (Z.leb_gt b _)) by lia. cbn [andb].
    specialize (IH (G1 ++ [(b, s)]) fuel). rewrite app_assoc, endp_app in IH.
    apply IH; [by rewrite HG, <-app_assoc|by destruct G1|simpl in Hf; lia].
Qed.

Lemma free_loop_finds x fuel :
  x ∈ base :: (F1 ++ F2).*1 → (length (F1 ++ F2) + 1 < fuel)%nat → free_loop fuel bp x h = Some (endp base F1).
Proof.
  intros (G1 & G2 & HG & ->)%node_split Hf. rewrite length_app in Hf.
  apply app_eq_inv in HG as [(k & HF1 & ->)|(k & -> & HF2)].
  - apply (free_loop_below k); [done|]. rewrite HF1, length_app in Hf. lia.
  - destruct k as [|y k]; [rewrite app_nil_r; apply (free_loop_below []); [by rewrite app_nil_r|simpl; lia]|].
    apply (free_loop_above G2 (y :: k)); [done|done|]. rewrite HF2, length_app in Hf. simpl in *. lia.
Qed.
End free_loop.


(** Blocks in order around a new one. *)
Section new_block.
Context (F1 F2 : list block) (x : block).
Hypothesis Hs : StronglySorted before (F1 ++ F2).
Hypothesis Hap : Forall (apart x) (F1 ++ F2).
Hypothesis Hsz : Forall (λ y, 1 ≤ y.2) (F1 ++ F2).

Lemma before_new : below x.1 F1 → 1 ≤ x.2 → (∀ G p, F1 = G ++ [p] → p.1 + 8 * p.2 ≠ x.1) → ∀ y, y ∈ F1 → before y x.
Proof using Hs Hap Hsz.
  intros Hb Hx Hp y Hy. rewrite Forall_forall in Hap, Hsz. unfold below in Hb. rewrite Forall_forall in Hb.
  unfold before, apart in *.
  pose proof (Hb y Hy) as Hby. pose proof (Hap y ltac:(set_solver)) as Hapy. assert (Hle : y.1 + 8 * y.2 ≤ x.1) by lia.
  destruct F1 as [|p G _] using rev_ind; [by apply not_elem_of_nil in Hy|].
  apply elem_of_app in Hy as [Hy|Hy%list_elem_of_singleton]; [|subst y; specialize (Hp G p eq_refl); lia].
  rewrite <-app_assoc in Hs. pose proof (StronglySorted_app_1_elem_of _ _ _ y p Hs Hy ltac:(set_solver)) as Hyp.
  simpl in Hyp. pose proof (Hb p ltac:(set_solver)). lia.
Qed.

Lemma new_before : above x.1 F2 → (∀ q G, F2 = q :: G → x.1 + 8 * x.2 ≠ q.1) → ∀ y, y ∈ F2 → before x y.
Proof using Hs Hap Hsz.
  intros Ha Hq y Hy. rewrite Forall_forall in Hap, Hsz. unfold above in Ha. rewrite Forall_forall in Ha. unfold before, apart in *.
  pose proof (Ha y Hy) as Hay. pose proof (Hap y ltac:(set_solver)) as Hapy. pose proof (Hsz y ltac:(set_solver)) as Hsy.
  assert (Hle : x.1 + 8 * x.2 ≤ y.1) by lia. destruct F2 as [|q G]; [by apply not_elem_of_nil in Hy|].
  specialize (Hq q G eq_refl). apply elem_of_cons in Hy as [->|Hy]; [lia|].
  apply StronglySorted_app_1_r, StronglySorted_inv in Hs as [_ Hs']. rewrite Forall_forall in Hs'. specialize (Hs' y Hy).
  pose proof (Ha q ltac:(set_solver)). pose proof (Hap q ltac:(set_solver)). pose proof (Hsz q ltac:(set_solver)). lia.
Qed.
End new_block.

(** What [free_next] leaves: the block [bp], joined with the next one if they
    touch, points to the rest of the ring. *)
Lemma free_next_spec h b s p F2 e :
  size h b = s → ptr h p = headp F2 e →
  (match F2 with [] => True | (q, sq) :: F2' => mem h (q + 4) = sq ∧ chain (mem h) q F2' e end) →
  0 ≤ b → 1 ≤ s → b + 8 * s < 2 ^ 32 → Forall (λ x, far b x.1 ∧ 1 ≤ x.2 ∧ b + 8 * s + 8 * x.2 < 2 ^ 33) F2 →
  (F2 = [] → b + 8 * s ≠ e) → far b p →
  let h1 := free_next b p h in
  ∃ s1 F2', chain (mem h1) b F2' e ∧ size h1 b = s1 ∧ (∀ a, a ≠ b → a ≠ b + 4 → mem h1 a = mem h a) ∧
    freep h1 = freep h ∧ brk h1 = brk h ∧ grants h1 = grants h ∧
    ((s1 = s ∧ F2' = F2 ∧ ∀ q G, F2 = q :: G → b + 8 * s ≠ q.1) ∨ ∃ q, F2 = q :: F2' ∧ b + 8 * s = q.1 ∧ s1 = s + q.2).
Proof.
  intros Hs Hp Hrest Hb Hs1 Hmax Hfar He Hbp. unfold free_next, units. rewrite Hs, u32_small by (unfold is_u32; lia).
  unfold ptr, size, set_ptr, set_size in *. simpl. destruct (Z.eqb_spec (b + 8 * s) (mem h p)) as [Heq|Hne]; simpl.
  - destruct F2 as [|[q sq] F2']; [simpl in Hp; specialize (He eq_refl); lia|]. simpl in Hp. rewrite Hp in *.
    apply Forall_cons in Hfar as [(Hfq & Hsq & Hmq) Hfar]. simpl in Hfq, Hsq, Hmq. destruct Hrest as [Hq Hc]. unfold far in *.
    rewrite Hq, (set_ne _ _ _ p), Hp, (set_ne _ _ _ q) by lia. rewrite u32_small by (unfold is_u32; lia).
    exists (s + sq), F2'. split_and!; try done.
    + eapply chain_move; [exact Hc|by rewrite set_eq|]. eapply Forall_impl; [exact Hfar|]. intros x ([?|?] & _ & _);
        rewrite !set_ne by lia; done.
    + rewrite set_ne, set_eq by lia. done.
    + intros a Ha1 Ha2. by rewrite !set_ne.
    + right. by exists (q, sq).
  - exists s, F2. split_and!; try done.
    + destruct F2 as [|[q sq] F2']; simpl in Hp |- *; [by rewrite set_eq|]. apply Forall_cons in Hfar as [(Hfq & _ & _) Hfar].
      destruct Hrest as [Hq Hc]. simpl in Hfq. unfold far in Hfq. rewrite set_eq, set_ne by lia. split_and!; [done|done|].
      eapply chain_frame; [exact Hc|by rewrite set_ne by lia|]. eapply Forall_impl; [exact Hfar|].
      intros x ([?|?] & _ & _); rewrite !set_ne by lia; done.
    + rewrite set_ne by lia. done.
    + intros a Ha1 Ha2. by rewrite set_ne.
    + left. split_and!; [done|done|]. intros q G ->. by simpl in Hp; rewrite <-Hp.
Qed.

(** Memories that differ in the header at [p] only. *)
Definition off (p : Z) (m m' : Z → Z) : Prop := ∀ a, a ≠ p → a ≠ p + 4 → m' a = m a.

Lemma off_ptr p v m : off p m (set p v m).
Proof. intros a Ha _. by rewrite set_ne. Qed.
Lemma off_both p v w m : off p m (set p v (set (p + 4) w m)).
Proof. intros a Ha Ha'. by rewrite !set_ne. Qed.

Lemma chain_move_off p m m' x x' F e :
  chain m x F e → off p m m' → m' x' = m x → Forall (far p) F.*1 → chain m' x' F e.
Proof.
  intros Hc Ho Hx Hfar. eapply chain_move; [exact Hc|exact Hx|]. rewrite Forall_fmap in Hfar.
  eapply Forall_impl; [exact Hfar|]. intros y [Hy|Hy]; simpl in Hy; rewrite !Ho by lia; done.
Qed.

Lemma chain_off p m m' x F e : chain m x F e → off p m m' → Forall (far p) (x :: F.*1) → chain m' x F e.
Proof.
  intros Hc Ho [[Hx|Hx] Hfar]%Forall_cons; (eapply chain_move_off; [exact Hc|exact Ho|by rewrite Ho by lia|done]).
Qed.

Lemma far_sym x y : far x y → far y x.
Proof. unfold far. tauto. Qed.

(** What [free_prev] leaves: the new node, or the previous one that has grown. *)
Lemma free_prev_spec h b s F1 F2 e :
  chain (mem h) base F1 e → chain (mem h) b F2 base → size h b = s → size h base = 0 →
  0 ≤ base → base + 8 ≤ b → b < 2 ^ 31 → 1 ≤ s → s < 2 ^ 31 → pairs far (base :: F1.*1 ++ b :: F2.*1) →
  Forall (λ x, 1 ≤ x.2 ∧ 0 ≤ x.1 ∧ x.1 + 8 * x.2 ≤ b) F1 →
  let p := endp base F1 in
  let h1 := free_prev b p h in
  (∀ a, a ≠ p → (p = base ∨ a ≠ p + 4) → mem h1 a = mem h a) ∧
  freep h1 = freep h ∧ brk h1 = brk h ∧ grants h1 = grants h ∧
  ((chain (mem h1) base (F1 ++ (b, s) :: F2) base ∧ (∀ G q, F1 = G ++ [q] → q.1 + 8 * q.2 ≠ b)) ∨
   ∃ G sp, F1 = G ++ [(p, sp)] ∧ p + 8 * sp = b ∧ chain (mem h1) base (G ++ (p, sp + s) :: F2) base).
Proof.
  intros Hc1 Hc2 Hs H0 Hb0 Hbb Hbm Hs1 Hsm Hfar Hsz p h1. subst p h1. unfold free_prev, units.
  unfold ptr, size, set_ptr, set_size in *.
  destruct F1 as [|[p sp] G _] using rev_ind.
  - simpl. rewrite H0, Z.mul_0_r, Z.add_0_r, u32_small by (unfold is_u32; lia).
    rewrite (proj2 (Z.eqb_neq base b)) by lia. simpl.
    split_and!; try done; [intros a Ha _; by rewrite set_ne|]. left. split; [|by intros [|? ?] ? ?].
    simpl in Hfar. destruct Hfar as [Hfb [Hfb2 _]]. apply Forall_cons in Hfb as [Hbb' Hfb]. unfold far in Hbb'.
    rewrite set_eq, set_ne by lia. split_and!; [done|done|].
    eapply (chain_off base); [exact Hc2|by apply off_ptr|by constructor].
  - rewrite endp_app. apply chain_app in Hc1 as [HcG [Hsp Hp]]. simpl in HcG, Hp.
    apply Forall_app in Hsz as [_ Hsp']. rewrite Forall_singleton in Hsp'. cbn [fst snd] in Hsp'.
    apply (pairs_perm far _ (p :: (base :: G.*1) ++ b :: F2.*1)) in Hfar;
      [|exact far_sym|rewrite fmap_app; simpl; solve_Permutation].
    destruct Hfar as [Hfar _]. apply Forall_app in Hfar as [HfG HfF]. apply Forall_cons in HfF as [Hpb HfF].
    rewrite Hsp, (u32_small (p + 8 * sp)) by (unfold is_u32; lia). unfold far in Hpb.
    destruct (Z.eqb_spec (p + 8 * sp) b) as [Heq|Hne]; simpl.
    + rewrite Hs, u32_small, (set_ne _ _ _ b) by (unfold is_u32; lia). split_and!; try done.
      { intros a Ha [->|Ha2]; [apply Forall_cons in HfG as [HfG _]; unfold far in HfG; lia|]. by rewrite !set_ne. }
      right. exists G, sp. split_and!; [done|done|]. apply chain_app. simpl. rewrite set_ne, set_eq by lia. split_and!; [|done|].
      * eapply (chain_off p); [exact HcG|apply off_both|done].
      * eapply (chain_move_off p); [exact Hc2|apply off_both|by rewrite set_eq|done].
    + split_and!; try done; [intros a Ha _; by rewrite set_ne|]. left. split.
      * rewrite <-app_assoc. apply chain_app. simpl. rewrite set_ne, set_eq, (set_ne _ _ _ (b + 4)) by lia. split_and!; try done.
        -- eapply (chain_off p); [exact HcG|apply off_ptr|done].
        -- eapply (chain_off p); [exact Hc2|apply off_ptr|constructor; [unfold far; lia|done]].
      * intros G' q Hq. apply app_inj_tail in Hq as [_ <-]. done.
Qed.

Lemma sorted_split a F :
  StronglySorted before F → Forall (λ x, 1 ≤ x.2 ∧ x.1 ≠ a) F → ∃ F1 F2, F = F1 ++ F2 ∧ below a F1 ∧ above a F2.
Proof.
  induction 1 as [|x F Hs IH Hall]; intros Hne; [exists [], []; split_and!; [done|by apply Forall_nil|by apply Forall_nil]|]. apply Forall_cons in Hne as [Hx Hne].
  destruct (decide (x.1 < a)) as [Hlt|Hge].
  - destruct (IH Hne) as (F1 & F2 & -> & H1 & H2). exists (x :: F1), F2. split_and!; [done|by apply Forall_cons_2|done].
  - exists [], (x :: F). split_and!; [done|by apply Forall_nil|]. apply Forall_cons_2; [lia|].
    eapply Forall_impl; [exact Hall|].
    unfold before. intros y Hy. lia.
Qed.

Lemma apart_far l : pairs apart l → Forall (λ x, 1 ≤ x.2) l → pairs far l.*1.
Proof.
  induction l as [|x l IH]; simpl; [done|]. intros [Hx Hl] [Hsx Hs]%Forall_cons. split; [|auto].
  rewrite Forall_fmap. rewrite Forall_forall in *. intros y Hy. specialize (Hx y Hy). specialize (Hs y Hy).
  unfold apart in Hx. unfold far. simpl. lia.
Qed.

(** The words of a block. *)
Definition inside (a : Z) (x : block) : Prop := x.1 ≤ a < x.1 + 8 * x.2.

(** The blocks after a [free]. *)
Lemma free_tiles lo hi F1 F2 b s s1 F2' A :
  tiles lo hi ((b, s) :: F1 ++ F2 ++ A) →
  (s1 = s ∧ F2' = F2 ∧ ∀ q G, F2 = q :: G → b + 8 * s ≠ q.1) ∨ (∃ q, F2 = q :: F2' ∧ b + 8 * s = q.1 ∧ s1 = s + q.2) →
  tiles lo hi ((b, s1) :: F1 ++ F2' ++ A).
Proof.
  intros Ht [(-> & -> & _)|(q & -> & Hq & ->)]; [done|].
  apply (tiles_join lo hi (b, s) q (F1 ++ F2' ++ A)); [|done]. eapply tiles_perm; [|exact Ht]. simpl. solve_Permutation.
Qed.

Lemma free_sorted F1 F2 b s s1 F2' :
  StronglySorted before (F1 ++ F2) →
  (s1 = s ∧ F2' = F2 ∧ ∀ q G, F2 = q :: G → b + 8 * s ≠ q.1) ∨ (∃ q, F2 = q :: F2' ∧ b + 8 * s = q.1 ∧ s1 = s + q.2) →
  StronglySorted before (F1 ++ F2') ∧ (∀ q G, F2' = q :: G → b + 8 * s1 ≠ q.1) ∧ F2' ⊆ F2.
Proof.
  intros Hs [(-> & -> & Hn)|(q & -> & Hq & ->)]; [done|]. apply StronglySorted_app in Hs as (H1 & H2 & H3).
  apply StronglySorted_inv in H3 as [H3 H4]. split_and!.
  - apply StronglySorted_app. split_and!; [|done|done]. intros x y Hx Hy. apply H1; [done|set_solver].
  - intros q' G ->. apply Forall_cons in H4 as [H4 _]. unfold before in H4. lia.
  - set_solver.
Qed.

(** A block in use and the free blocks around it. *)
Lemma free_split lo h F b s A :
  heap_ok lo h F ((b, s) :: A) →
  ∃ F1 F2, F = F1 ++ F2 ∧ below b F1 ∧ above b F2 ∧ pairs far (base :: F1.*1 ++ b :: F2.*1) ∧
    tiles lo (brk h) ((b, s) :: F1 ++ F2 ++ A) ∧ Forall (λ x, 1 ≤ x.2 ∧ 0 ≤ x.1 ∧ x.1 + 8 * x.2 ≤ b) F1.
Proof.
  intros Hok. pose proof (ok_tiles _ _ _ _ Hok) as Ht. pose proof (ok_base _ _ _ _ Hok) as Hb.
  assert (Ht' : tiles lo (brk h) ((b, s) :: F ++ A)) by (eapply tiles_perm; [|exact Ht]; solve_Permutation).
  destruct Ht' as [Hbl [Hap Hap'] Htot] eqn:E. clear E.
  apply Forall_cons in Hbl as [Hbb Hbl]. apply Forall_app in Hbl as [HblF HblA]. apply Forall_app in Hap as [HapF HapA].
  cbn [fst snd] in Hbb.
  destruct (sorted_split b F (ok_sorted _ _ _ _ Hok)) as (F1 & F2 & -> & H1 & H2).
  { rewrite Forall_forall in *. intros x Hx. specialize (HblF x Hx). specialize (HapF x Hx). unfold apart in HapF.
    cbn [fst snd] in HapF. lia. }
  exists F1, F2. split_and!; try done.
  - split.
    + rewrite Forall_forall. intros y Hy. apply elem_of_app in Hy as [Hy|[->|Hy]%elem_of_cons];
        [| |apply list_elem_of_fmap in Hy as (x & -> & Hy)];
        [apply list_elem_of_fmap in Hy as (x & -> & Hy)|unfold far; lia|];
        (rewrite Forall_forall in HblF; specialize (HblF x ltac:(set_solver)); unfold far; lia).
    + apply (pairs_perm far (((b, s) :: F1 ++ F2).*1)); [exact far_sym|rewrite fmap_cons, fmap_app; simpl; solve_Permutation|].
      apply apart_far.
      * split; [done|]. by apply pairs_app in Hap' as [? _].
      * apply Forall_cons. split; [simpl; lia|]. eapply Forall_impl; [exact HblF|]. simpl. tauto.
  - eapply tiles_perm; [|exact Ht]. solve_Permutation.
  - unfold below in H1. rewrite Forall_forall in *. intros x Hx. specialize (HblF x ltac:(set_solver)).
    specialize (HapF x ltac:(set_solver)). specialize (H1 x Hx). unfold apart in HapF. cbn [fst snd] in *. lia.
Qed.

(** The heap after the pointers are set, from the blocks and the ring. *)
Lemma heap_ok_intro lo h h' F F' A A' :
  heap_ok lo h F A → brk h' = brk h → chain (mem h') base F' base → size h' base = 0 → freep h' ∈ base :: F'.*1 →
  Forall (λ x, mem h' (x.1 + 4) = x.2) A' → tiles lo (brk h) (F' ++ A') → StronglySorted before F' → heap_ok lo h' F' A'.
Proof. intros [Hb Hal _ _ _ _ _ _] Hbrk Hc Hs Hf Hsz Ht Hso. split; rewrite ?Hbrk; done. Qed.

Lemma sorted_weak F : StronglySorted before F → Forall (λ x, 1 ≤ x.2) F → StronglySorted (λ x y : block, x.1 < y.1) F.
Proof.
  induction 1 as [|x F Hs IH Hall]; intros Hsz; [constructor|]. apply Forall_cons in Hsz as [Hx Hsz].
  constructor; [auto|]. eapply Forall_impl; [exact Hall|]. unfold before. intros y Hy. lia.
Qed.

(** The blocks that stay in use are not touched. *)
Lemma block_not_header lo hi x A a b :
  tiles lo hi (x :: A) → b ∈ A → inside a b → a ≠ x.1 ∧ a ≠ x.1 + 4.
Proof.
  intros [Hb [Hx _] _] Hin Ha. rewrite Forall_forall in Hx. specialize (Hx b Hin). apply Forall_cons in Hb as [Hbx _].
  unfold apart in Hx. unfold inside in Ha. lia.
Qed.

(** The setting of a [free] of the block [b]. *)
Record freeing (lo : Z) (h : heap) (F1 F2 : list block) (b s : Z) (A : list block) : Prop := {
  fr_ok : heap_ok lo h (F1 ++ F2) ((b, s) :: A);
  fr_below : below b F1;
  fr_above : above b F2;
  fr_far : pairs far (base :: F1.*1 ++ b :: F2.*1);
  fr_tiles : tiles lo (brk h) ((b, s) :: F1 ++ F2 ++ A);
  fr_prev : Forall (λ x, 1 ≤ x.2 ∧ 0 ≤ x.1 ∧ x.1 + 8 * x.2 ≤ b) F1;
  fr_size : size h b = s;
  fr_b : lo ≤ b ∧ 1 ≤ s ∧ b + 8 * s < 2 ^ 31;
  fr_fb1 : Forall (far b) (base :: F1.*1);
  fr_fb2 : Forall (far b) F2.*1 }.

Lemma freeing_intro lo h F b s A : heap_ok lo h F ((b, s) :: A) → ∃ F1 F2, F = F1 ++ F2 ∧ freeing lo h F1 F2 b s A.
Proof.
  intros Hok. destruct (free_split lo h F b s A Hok) as (F1 & F2 & -> & Hbel & Habv & Hfar & Ht & HF1). exists F1, F2.
  split; [done|]. pose proof (ok_base _ _ _ _ Hok) as Hb. pose proof (tl_block _ _ _ Ht) as Hbl. apply Forall_cons in Hbl as [Hbb _].
  pose proof (ok_sizes _ _ _ _ Hok) as Hsizes. apply Forall_cons in Hsizes as [Hsb _]. cbn [fst snd] in *.
  pose proof Hfar as Hfar'. apply (pairs_perm far _ (b :: (base :: F1.*1) ++ F2.*1)) in Hfar'; [|exact far_sym|solve_Permutation].
  destruct Hfar' as [Hfb _]. apply Forall_app in Hfb as [Hfb1 Hfb2]. split; try done. lia.
Qed.

(** [free_next] in this setting. *)
Lemma freeing_next lo h F1 F2 b s A :
  freeing lo h F1 F2 b s A →
  let p := endp base F1 in
  let h1 := free_next b p h in
  ∃ s1 F2', chain (mem h1) base F1 (headp F2 base) ∧ chain (mem h1) b F2' base ∧ size h1 b = s1 ∧ off b (mem h) (mem h1) ∧
    freep h1 = freep h ∧ brk h1 = brk h ∧ grants h1 = grants h ∧
    ((s1 = s ∧ F2' = F2 ∧ ∀ q G, F2 = q :: G → b + 8 * s ≠ q.1) ∨ ∃ q, F2 = q :: F2' ∧ b + 8 * s = q.1 ∧ s1 = s + q.2).
Proof.
  intros [Hok Hbel Habv Hfar Ht HF1 Hsb Hbs Hfb1 Hfb2] p. pose proof (ok_base _ _ _ _ Hok) as Hb.
  pose proof (ok_ring _ _ _ _ Hok) as Hring. apply chain_app in Hring as [Hc1 Hrest].
  pose proof (tl_block _ _ _ Ht) as Hbl. apply Forall_cons in Hbl as [_ Hbl]. rewrite !Forall_app in Hbl. destruct Hbl as (_ & Hbl2 & _).
  assert (Hfbp : far b p) by (rewrite Forall_forall in Hfb1; apply Hfb1, endp_elem).
  destruct (free_next_spec h b s p F2 base) as (s1 & F2' & Hc2 & Hs1 & Hoff & Hfr1 & Hbr1 & Hgr1 & Hcase); try done; try lia.
  { unfold p. by apply chain_end. }
  { rewrite Forall_fmap in Hfb2. rewrite Forall_forall in *. intros x Hx. specialize (Hfb2 x Hx). specialize (Hbl2 x Hx).
    simpl in Hfb2. split_and!; [done|lia|lia]. }
  exists s1, F2'. split_and!; try done. by eapply chain_off.
Qed.

Lemma freeing_far lo h F1 F2 b s A s1 F2' :
  freeing lo h F1 F2 b s A →
  ((s1 = s ∧ F2' = F2 ∧ ∀ q G, F2 = q :: G → b + 8 * s ≠ q.1) ∨ ∃ q, F2 = q :: F2' ∧ b + 8 * s = q.1 ∧ s1 = s + q.2) →
  pairs far (base :: F1.*1 ++ b :: F2'.*1).
Proof.
  intros Hfr [(_ & -> & _)|(q & -> & _)]; pose proof (fr_far _ _ _ _ _ _ _ Hfr) as Hfar; [done|].
  apply (pairs_perm far _ (q.1 :: (base :: F1.*1) ++ b :: F2'.*1)) in Hfar; [by destruct Hfar as [_ ?]|exact far_sym|].
  rewrite fmap_cons. solve_Permutation.
Qed.

Lemma freeing_frame lo h F1 F2 b s A a x :
  freeing lo h F1 F2 b s A → x ∈ A → inside a x →
  let p := endp base F1 in a ≠ b ∧ a ≠ b + 4 ∧ a ≠ p ∧ (p = base ∨ a ≠ p + 4).
Proof.
  intros Hfr Hx Ha p. pose proof (fr_tiles _ _ _ _ _ _ _ Hfr) as Ht. pose proof (ok_base _ _ _ _ (fr_ok _ _ _ _ _ _ _ Hfr)) as Hb.
  destruct (block_not_header lo (brk h) (b, s) (F1 ++ F2 ++ A) a x Ht ltac:(set_solver) Ha) as [Hab Hab4].
  split_and!; [done|done|..]; (destruct (node_split_last F1) as [HF1|(G & sp & HF1)]; fold p in HF1).
  - pose proof (tl_block _ _ _ Ht) as Hbl. rewrite Forall_forall in Hbl. specialize (Hbl x ltac:(set_solver)).
    unfold inside in Ha. lia.
  - eapply (block_not_header lo (brk h) (p, sp) (G ++ (b, s) :: F2 ++ A) a x); [|set_solver|done].
    eapply tiles_perm; [|exact Ht]. rewrite HF1. solve_Permutation.
  - by left.
  - right. eapply (block_not_header lo (brk h) (p, sp) (G ++ (b, s) :: F2 ++ A) a x); [|set_solver|done].
    eapply tiles_perm; [|exact Ht]. rewrite HF1. solve_Permutation.
Qed.

(** The free blocks stay in order, and no two of them touch. *)
Lemma free_order F1 F2 b s s1 F2' A lo h :
  freeing lo h F1 F2 b s A →
  ((s1 = s ∧ F2' = F2 ∧ ∀ q G, F2 = q :: G → b + 8 * s ≠ q.1) ∨ ∃ q, F2 = q :: F2' ∧ b + 8 * s = q.1 ∧ s1 = s + q.2) →
  ((∀ G q, F1 = G ++ [q] → q.1 + 8 * q.2 ≠ b) → StronglySorted before (F1 ++ (b, s1) :: F2')) ∧
  (∀ G p sp, F1 = G ++ [(p, sp)] → p + 8 * sp = b → StronglySorted before (G ++ (p, sp + s1) :: F2')).
Proof.
  intros Hfr Hcase. pose proof Hfr as [Hok Hbel Habv _ Ht _ _ _ _ _].
  pose proof (free_tiles lo (brk h) F1 F2 b s s1 F2' A Ht Hcase) as [Hbl [Hap _] _].
  destruct (free_sorted F1 F2 b s s1 F2' (ok_sorted _ _ _ _ Hok) Hcase) as (Hsort & Hnt & Hsub).
  apply Forall_cons in Hbl as [Hbb Hbl]. rewrite app_assoc, Forall_app in Hbl, Hap. destruct Hbl as [Hbl _], Hap as [Hap _].
  assert (Hsz : Forall (λ y : block, 1 ≤ y.2) (F1 ++ F2')) by (eapply Forall_impl; [exact Hbl|]; simpl; tauto).
  assert (Habv' : above b F2') by (unfold above in *; rewrite Forall_forall in *; auto).
  pose proof (new_before F1 F2' (b, s1) Hsort Hap Hsz Habv' Hnt) as Hnew.
  pose proof Hsort as Hsort'. apply StronglySorted_app in Hsort' as (H12 & H1 & H2). split.
  - intros Hnp. pose proof (before_new F1 F2' (b, s1) Hsort Hap Hsz Hbel (proj1 (proj2 Hbb)) Hnp) as Hold.
    apply StronglySorted_app. split_and!; [|done|].
    + intros x y Hx [->|Hy]%elem_of_cons; auto.
    + constructor; [done|]. apply Forall_forall. auto.
  - intros G p sp HG Hp. rewrite HG in H1, H12. apply StronglySorted_app in H1 as (HGp & HG1 & _).
    apply StronglySorted_app. split_and!; [|done|].
    + intros x y Hx [->|Hy]%elem_of_cons; [|apply H12; set_solver]. apply (HGp x (p, sp)); set_solver.
    + constructor; [done|]. apply Forall_forall. intros y Hy. specialize (Hnew y Hy). unfold before in *. cbn [fst snd] in *. lia.
Qed.

(** The sizes of blocks whose words do not change. *)
Lemma sizes_kept lo hi l (m m' : Z → Z) A :
  tiles lo hi l → (∀ x, x ∈ A → x ∈ l) → Forall (λ x, m (x.1 + 4) = x.2) A →
  (∀ a x, x ∈ A → inside a x → m' a = m a) → Forall (λ x, m' (x.1 + 4) = x.2) A.
Proof.
  intros Ht Hsub Hsz Hfr. pose proof (tl_block _ _ _ Ht) as Hbl. rewrite Forall_forall in *. intros x Hx.
  rewrite (Hfr _ x Hx); [by apply Hsz|]. specialize (Hbl x (Hsub x Hx)). unfold inside. lia.
Qed.

Lemma free_at_ok lo h F1 F2 b s A :
  freeing lo h F1 F2 b s A →
  let h' := free_at b (endp base F1) h in
  ∃ F', heap_ok lo h' F' A ∧ brk h' = brk h ∧ grants h' = grants h ∧
    (∀ a x, x ∈ A → inside a x → mem h' a = mem h a) ∧ (∃ x, x ∈ F' ∧ s ≤ x.2) ∧ (length F' ≤ S (length (F1 ++ F2)))%nat.
Proof.
  intros Hfr. destruct (freeing_next lo h F1 F2 b s A Hfr) as (s1 & F2' & Hc1 & Hc2 & Hs1 & Hoff & Hfr1 & Hbr1 & Hgr1 & Hcase).
  pose proof (freeing_far _ _ _ _ _ _ _ _ _ Hfr Hcase) as Hfar.
  pose proof Hfr as [Hok Hbel Habv _ Ht HF1 Hsb Hbs Hfb1 _]. pose proof (ok_base _ _ _ _ Hok) as Hb.
  pose proof (free_tiles lo (brk h) F1 F2 b s s1 F2' A Ht Hcase) as Ht1.
  destruct (free_sorted F1 F2 b s s1 F2' (ok_sorted _ _ _ _ Hok) Hcase) as (Hsort1 & Hnt & Hsub).
  pose proof (tl_block _ _ _ Ht1) as Hbl. apply Forall_cons in Hbl as [Hbb1 _]. cbn [fst snd] in Hbb1.
  set (p := endp base F1) in *. set (h1 := free_next b p h) in *.
  assert (Hbase1 : size h1 base = 0) by (unfold size; rewrite Hoff by lia; apply (ok_base_size _ _ _ _ Hok)).
  destruct (free_prev_spec h1 b s1 F1 F2' _ Hc1 Hc2 Hs1 Hbase1) as (Hoff2 & Hfr2 & Hbr2 & Hgr2 & Hcase2); try done; try lia.
  fold p in Hoff2, Hfr2, Hbr2, Hgr2, Hcase2. unfold free_at. fold p. fold h1. set (h2 := free_prev b p h1) in *.
  assert (Hframe : ∀ a x, x ∈ A → inside a x → mem h2 a = mem h a).
  { intros a x Hx Ha. destruct (freeing_frame lo h F1 F2 b s A a x Hfr Hx Ha) as (Hab & Hab4 & Hap & Hap4).
    rewrite Hoff2 by done. by apply Hoff. }
  assert (Hsizes : Forall (λ x, mem h2 (x.1 + 4) = x.2) A).
  { pose proof (ok_sizes _ _ _ _ Hok) as Hsz. apply Forall_cons in Hsz as [_ Hsz].
    eapply sizes_kept; [exact Ht|set_solver|exact Hsz|exact Hframe]. }
  assert (Hpin : p ∈ base :: F1.*1) by apply endp_elem.
  assert (Hbp : p = base ∨ far base p).
  { apply elem_of_cons in Hpin as [|Hpin]; [by left|right].
    destruct Hfar as [Hfar _]. rewrite Forall_forall in Hfar. apply Hfar. set_solver. }
  assert (Hbase2 : size h2 base = 0).
  { unfold size. rewrite Hoff2; [exact Hbase1|unfold far in Hbp; lia|]. destruct Hbp as [Hbp|Hbp]; [by left|right]. unfold far in Hbp. lia. }
  assert (Hlen : (length F2' ≤ length F2)%nat) by (destruct Hcase as [(_ & -> & _)|(q & -> & _)]; simpl; lia).
  assert (Hs1ge : s ≤ s1).
  { destruct Hcase as [(-> & _)|(q & -> & Hq & ->)]; [lia|]. pose proof (tl_block _ _ _ Ht) as Hbl.
    rewrite Forall_forall in Hbl. specialize (Hbl q ltac:(set_solver)). lia. }
  destruct (free_order F1 F2 b s s1 F2' A lo h Hfr Hcase) as [Ho1 Ho2].
  destruct Hcase2 as [[Hc Hnp]|(G & sp & HG & Hp & Hc)].
  - exists (F1 ++ (b, s1) :: F2'). split_and!; try done; [|simpl; congruence|simpl; congruence| |rewrite !length_app; simpl; lia].
    + apply (heap_ok_intro lo h _ (F1 ++ F2) _ ((b, s) :: A) A Hok); try done.
      * simpl. congruence.
      * simpl. rewrite fmap_app. set_solver.
      * eapply tiles_perm; [|exact Ht1]. solve_Permutation.
      * by apply Ho1.
    + exists (b, s1). split; [set_solver|done].
  - exists (G ++ (p, sp + s1) :: F2'). split_and!; try done; [|simpl; congruence|simpl; congruence| |rewrite HG, !length_app; simpl; lia].
    + apply (heap_ok_intro lo h _ (F1 ++ F2) _ ((b, s) :: A) A Hok); try done.
      * simpl. congruence.
      * simpl. rewrite fmap_app. set_solver.
      * eapply tiles_perm; [|apply (tiles_join lo (brk h) (p, sp) (b, s1) (G ++ F2' ++ A)); [|exact Hp]]; [simpl; solve_Permutation|].
        eapply tiles_perm; [|exact Ht1]. rewrite HG. solve_Permutation.
      * by apply Ho2.
    + exists (p, sp + s1). split; [set_solver|]. rewrite HG, Forall_app, Forall_singleton in HF1. cbn [fst snd] in *. lia.
Qed.

Lemma free_ok lo h F b s A fuel :
  heap_ok lo h F ((b, s) :: A) → (length F + 1 < fuel)%nat →
  ∃ h' F', free fuel (b + 8) h = Some h' ∧ heap_ok lo h' F' A ∧ brk h' = brk h ∧ grants h' = grants h ∧
    (∀ a x, x ∈ A → inside a x → mem h' a = mem h a) ∧ (∃ x, x ∈ F' ∧ s ≤ x.2) ∧ (length F' ≤ S (length F))%nat.
Proof.
  intros Hok0 Hf. destruct (freeing_intro lo h F b s A Hok0) as (F1 & F2 & -> & Hfr).
  destruct (free_at_ok lo h F1 F2 b s A Hfr) as (F' & HF'). exists (free_at b (endp base F1) h), F'.
  pose proof Hfr as [Hok Hbel Habv _ Ht _ _ Hbs _ _]. pose proof (ok_base _ _ _ _ Hok) as Hb.
  pose proof (tl_block _ _ _ Ht) as Hbl. apply Forall_cons in Hbl as [_ Hbl]. rewrite !Forall_app in Hbl. destruct Hbl as (Hbl1 & Hbl2 & _).
  assert (Hsz : Forall (λ x : block, 1 ≤ x.2) (F1 ++ F2)).
  { apply Forall_app; split; eapply Forall_impl; [exact Hbl1| |exact Hbl2|]; simpl; tauto. }
  assert (Hlow : above base F1) by (eapply Forall_impl; [exact Hbl1|]; simpl; intros x Hx; lia).
  split; [|done]. unfold free. replace (b + 8 - 8) with b by lia.
  by rewrite (free_loop_finds h b F1 F2 (ok_ring _ _ _ _ Hok) ltac:(lia) Hbel Habv Hlow
    (sorted_weak _ (ok_sorted _ _ _ _ Hok) Hsz) _ _ (ok_freep _ _ _ _ Hok) Hf).
Qed.

(** ** malloc *)

(** The last node of [F1] points elsewhere. *)
Lemma chain_relink m F1 e e' :
  chain m base F1 e → pairs far (base :: F1.*1) → chain (set (endp base F1) e' m) base F1 e'.
Proof.
  intros Hc Hfar. destruct (node_split_last F1) as [Hp|(G & sp & HG)].
  - destruct F1 as [|[b s] F1 _] using rev_ind; [simpl; by rewrite set_eq|]. rewrite endp_app in Hp. subst b.
    destruct Hfar as [Hfar _]. rewrite fmap_app, Forall_app in Hfar. destruct Hfar as [_ Hfar]. apply Forall_cons in Hfar as [Hfar _].
    unfold far in Hfar. simpl in Hfar. lia.
  - set (p := endp base F1) in *. clearbody p. subst F1. apply chain_app in Hc as [HcG [Hsp _]]. apply chain_app. simpl in HcG |- *.
    rewrite set_eq, set_ne by lia. split_and!; [|done|done].
    eapply (chain_off p); [exact HcG|apply off_ptr|].
    rewrite fmap_app in Hfar. apply (pairs_perm far _ (p :: base :: G.*1)) in Hfar; [by destruct Hfar as [? _]|exact far_sym|].
    simpl. solve_Permutation.
Qed.

(** Facts about a free block and its neighbours. *)
Record taking (lo : Z) (h : heap) (F1 : list block) (b s : Z) (F2 A : list block) : Prop := {
  tk_ok : heap_ok lo h (F1 ++ (b, s) :: F2) A;
  tk_tiles : tiles lo (brk h) ((b, s) :: F1 ++ F2 ++ A);
  tk_far : pairs far (b :: (base :: F1.*1) ++ F2.*1);
  tk_size : size h b = s;
  tk_ring : chain (mem h) base F1 b ∧ chain (mem h) b F2 base;
  tk_b : base + 8 ≤ b ∧ lo ≤ b ∧ 1 ≤ s ∧ b + 8 * s < 2 ^ 31 ∧ b mod 8 = 0 }.

Lemma taking_intro lo h F1 b s F2 A : heap_ok lo h (F1 ++ (b, s) :: F2) A → taking lo h F1 b s F2 A.
Proof.
  intros Hok. pose proof (ok_ring _ _ _ _ Hok) as Hc. apply chain_app in Hc as [Hc1 [Hs Hc2]]. simpl in Hc1.
  pose proof (ok_base _ _ _ _ Hok) as Hb.
  assert (Ht : tiles lo (brk h) ((b, s) :: F1 ++ F2 ++ A)) by (eapply tiles_perm; [|apply Hok]; solve_Permutation).
  pose proof Ht as [Hbl [Hap Hap'] _]. apply Forall_cons in Hbl as [Hbb Hbl]. cbn [fst snd] in Hbb.
  rewrite app_assoc, Forall_app in Hbl, Hap. destruct Hbl as [Hbl _], Hap as [Hap _].
  split; try done; [|lia].
  apply (pairs_perm far (base :: ((b, s) :: F1 ++ F2).*1)); [exact far_sym|rewrite fmap_cons, fmap_app; simpl; solve_Permutation|].
  split.
  - rewrite Forall_fmap. apply Forall_cons. split; [unfold far; simpl; lia|]. eapply Forall_impl; [exact Hbl|].
    intros x (? & ? & ? & ?). unfold far. simpl. lia.
  - apply apart_far; [split; [done|]; rewrite app_assoc in Hap'; by apply pairs_app in Hap' as [? _]|].
    apply Forall_cons. split; [simpl; lia|]. eapply Forall_impl; [exact Hbl|]. simpl. tauto.
Qed.

Lemma sorted_drop F1 x F2 : StronglySorted before (F1 ++ x :: F2) → StronglySorted before (F1 ++ F2).
Proof.
  intros (H12 & H1 & H2)%StronglySorted_app. apply StronglySorted_inv in H2 as [H2 _]. apply StronglySorted_app.
  split_and!; [|done|done]. intros y z Hy Hz. apply H12; [done|set_solver].
Qed.

Lemma sorted_shrink F1 b s s' F2 :
  s' ≤ s → StronglySorted before (F1 ++ (b, s) :: F2) → StronglySorted before (F1 ++ (b, s') :: F2).
Proof.
  intros Hle (H12 & H1 & H2)%StronglySorted_app. apply StronglySorted_inv in H2 as [H2 H3]. apply StronglySorted_app.
  split_and!; [|done|].
  - intros y z Hy [->|Hz]%elem_of_cons; [apply (H12 y (b, s)); set_solver|apply H12; set_solver].
  - constructor; [done|]. eapply Forall_impl; [exact H3|]. unfold before. intros y Hy. cbn [fst snd] in *. lia.
Qed.

Lemma sizes_frame lo h h' F A :
  heap_ok lo h F A → (∀ a x, x ∈ A → inside a x → mem h' a = mem h a) → Forall (λ x, mem h' (x.1 + 4) = x.2) A.
Proof.
  intros Hok Hframe. eapply sizes_kept; [exact (ok_tiles _ _ _ _ Hok)|set_solver|exact (ok_sizes _ _ _ _ Hok)|exact Hframe].
Qed.

(** The word of the last node of [F1] is in no block in use. *)
Lemma taking_frame lo h F1 b s F2 A a x : taking lo h F1 b s F2 A → x ∈ A → inside a x → a ≠ endp base F1.
Proof.
  intros Htk Hx Ha. pose proof (tk_tiles _ _ _ _ _ _ _ Htk) as Ht. pose proof (ok_base _ _ _ _ (tk_ok _ _ _ _ _ _ _ Htk)) as Hb.
  destruct (node_split_last F1) as [HF1|(G & sp & HF1)].
  - pose proof (tl_block _ _ _ Ht) as Hbl. rewrite Forall_forall in Hbl. specialize (Hbl x ltac:(set_solver)).
    unfold inside in Ha. lia.
  - set (p := endp base F1) in *. eapply (block_not_header lo (brk h) (p, sp) (G ++ (b, s) :: F2 ++ A) a x); [|set_solver|done].
    eapply tiles_perm; [|exact Ht]. rewrite HF1. solve_Permutation.
Qed.

(** Exactly the right size. *)
Lemma take_exact lo h F1 b s F2 A :
  taking lo h F1 b s F2 A →
  let p := endp base F1 in
  let h' := (set_ptr p (ptr h b) h) <| freep := p |> in
  heap_ok lo h' (F1 ++ F2) ((b, s) :: A) ∧ (∀ a x, x ∈ A → inside a x → mem h' a = mem h a).
Proof.
  intros Htk p h'. pose proof Htk as [Hok Ht Hfar Hs [Hc1 Hc2] Hbs]. pose proof (ok_base _ _ _ _ Hok) as Hb.
  assert (Hframe : ∀ a x, x ∈ A → inside a x → mem h' a = mem h a).
  { intros a x Hx Ha. unfold h'. simpl. apply set_ne. by eapply (taking_frame lo h F1 b s F2 A). }
  destruct Hfar as [Hfb Hfar]. apply pairs_app in Hfar as (HfF1 & HfF2 & Hf12).
  assert (Hpin : p ∈ base :: F1.*1) by apply endp_elem. apply Forall_app in Hfb as [Hfb1 Hfb2].
  assert (Hpb : far b p) by (rewrite Forall_forall in Hfb1; by apply Hfb1).
  split; [|done]. apply (heap_ok_intro lo h _ (F1 ++ (b, s) :: F2) _ A _ Hok); try done.
  - unfold h'. simpl. unfold ptr. destruct F2 as [|[q sq] F2'].
    + rewrite app_nil_r. simpl in Hc2. rewrite Hc2. by eapply chain_relink.
    + destruct Hc2 as (Hq & Hsq & Hc2). rewrite Hq. apply chain_app. simpl. rewrite set_ne.
      2: { specialize (Hf12 p q Hpin ltac:(set_solver)). unfold far in Hf12. lia. }
      split_and!; [by eapply chain_relink|done|]. eapply (chain_off p); [exact Hc2|apply off_ptr|].
      rewrite Forall_forall. intros y Hy. apply Hf12; [done|by rewrite fmap_cons].
  - unfold h', size. simpl. rewrite set_ne; [apply (ok_base_size _ _ _ _ Hok)|].
    apply elem_of_cons in Hpin as [->|Hpin]; [lia|]. destruct HfF1 as [HfF1 _]. rewrite Forall_forall in HfF1.
    specialize (HfF1 p Hpin). unfold far in HfF1. lia.
  - unfold h'. simpl. rewrite fmap_app. set_solver.
  - apply Forall_cons. split.
    + unfold h'. simpl. rewrite set_ne by (unfold far in Hpb; lia). exact Hs.
    + eapply sizes_frame; [exact Hok|exact Hframe].
  - eapply tiles_perm; [|exact Ht]. solve_Permutation.
  - eapply sorted_drop, ok_sorted. exact Hok.
Qed.

(** Cutting the tail off. *)
Lemma take_tail lo h F1 b s F2 A n :
  taking lo h F1 b s F2 A → 1 ≤ n < s →
  let p := endp base F1 in
  let q := b + 8 * (s - n) in
  let h' := (set_size q n (set_size b (s - n) h)) <| freep := p |> in
  heap_ok lo h' (F1 ++ (b, s - n) :: F2) ((q, n) :: A) ∧ (∀ a x, x ∈ A → inside a x → mem h' a = mem h a).
Proof.
  intros Htk Hn p q h'. pose proof Htk as [Hok Ht Hfar Hs [Hc1 Hc2] Hbs]. pose proof (ok_base _ _ _ _ Hok) as Hb.
  assert (Hin : ∀ a y, y ∈ F1 ++ F2 ++ A → inside a y → a ≠ b + 4 ∧ a ≠ q + 4).
  { intros a y Hy Ha. destruct Ht as [_ [Hap _] _]. rewrite Forall_forall in Hap. specialize (Hap y Hy).
    unfold apart in Hap. unfold inside in Ha. cbn [fst snd] in Hap. lia. }
  assert (Hmem : ∀ a y, y ∈ F1 ++ F2 ++ A → inside a y → mem h' a = mem h a).
  { intros a y Hy Ha. destruct (Hin a y Hy Ha). unfold h'. simpl. by rewrite !set_ne. }
  assert (Hnode : Forall (λ y, mem h' y.1 = mem h y.1 ∧ mem h' (y.1 + 4) = mem h (y.1 + 4)) (F1 ++ F2)).
  { rewrite Forall_forall. intros y Hy. pose proof (tl_block _ _ _ Ht) as Hbl. rewrite Forall_forall in Hbl.
    specialize (Hbl y ltac:(set_solver)). split; apply (Hmem _ y); (set_solver || unfold inside; lia). }
  apply Forall_app in Hnode as [Hn1 Hn2].
  assert (Hbb : mem h' b = mem h b ∧ mem h' (b + 4) = s - n ∧ mem h' (q + 4) = n ∧ mem h' base = mem h base ∧ size h' base = 0).
  { unfold h', size. simpl. rewrite !set_eq. rewrite !(set_ne (q + 4)) by lia. rewrite set_eq, !set_ne by lia.
    split_and!; try done. apply (ok_base_size _ _ _ _ Hok). }
  destruct Hbb as (Hb1 & Hb2 & Hb3 & Hb4 & Hb5).
  split; [|intros a x Hx; apply Hmem; set_solver].
  apply (heap_ok_intro lo h _ (F1 ++ (b, s) :: F2) _ A _ Hok); try done.
  - apply chain_app. simpl. split_and!; [by eapply chain_frame|done|by eapply chain_frame].
  - unfold h'. simpl. rewrite fmap_app. pose proof (endp_elem base F1) as Hp. fold p in Hp. set_solver.
  - apply Forall_cons. split; [done|]. eapply sizes_frame; [exact Hok|]. intros a x Hx. apply Hmem. set_solver.
  - eapply tiles_perm; [|apply (tiles_cut lo (brk h) b s n (F1 ++ F2 ++ A) Ht); lia]. solve_Permutation.
  - eapply sorted_shrink; [|apply (ok_sorted _ _ _ _ Hok)]. lia.
Qed.

(** [take_block] gives a block of the size asked for. *)
Lemma take_block_ok lo h F1 b s F2 A n :
  heap_ok lo h (F1 ++ (b, s) :: F2) A → 1 ≤ n ≤ s →
  ∃ p h1 F', take_block n (endp base F1) b h = (p, h1) ∧
    heap_ok lo (h1 <| freep := endp base F1 |>) F' ((p, n) :: A) ∧ brk h1 = brk h ∧ grants h1 = grants h ∧
    (∀ a x, x ∈ A → inside a x → mem h1 a = mem h a).
Proof.
  intros Hok Hn. pose proof (taking_intro lo h F1 b s F2 A Hok) as Htk.
  pose proof (tk_size _ _ _ _ _ _ _ Htk) as Hs. pose proof (tk_b _ _ _ _ _ _ _ Htk) as Hb. pose proof (ok_base _ _ _ _ Hok) as Hba.
  unfold take_block. rewrite Hs. destruct (Z.eqb_spec s n) as [->|Hne].
  - destruct (take_exact lo h F1 b n F2 A Htk) as [Hok' Hfr]. do 3 eexists. split; [done|]. split_and!; [exact Hok'|done|done|exact Hfr].
  - destruct (take_tail lo h F1 b s F2 A n Htk ltac:(lia)) as [Hok' Hfr].
    assert (Hq : units b (size (set_size b (s - n) h) b) = b + 8 * (s - n)).
    { unfold units, size, set_size. simpl. rewrite set_eq. apply u32_small. unfold is_u32. lia. }
    rewrite Hq. do 3 eexists. split; [done|]. split_and!; [exact Hok'|done|done|exact Hfr].
Qed.

(** A new block at the end of the memory. *)
Lemma grow_ok lo h F A n gs :
  heap_ok lo h F A → 1 ≤ n → brk h + 8 * n < 2 ^ 31 →
  let h1 := set_size (brk h) n (h <| grants := gs |> <| brk := brk h + 8 * n |>) in
  heap_ok lo h1 F ((brk h, n) :: A) ∧ (∀ a x, x ∈ F ++ A → inside a x → mem h1 a = mem h a).
Proof.
  intros Hok Hn Hmax h1. pose proof (ok_base _ _ _ _ Hok) as Hb. pose proof (ok_align _ _ _ _ Hok) as Hal.
  pose proof (ok_tiles _ _ _ _ Hok) as Ht. pose proof (tl_block _ _ _ Ht) as Hbl. rewrite Forall_forall in Hbl.
  assert (Hmod : brk h mod 8 = 0).
  { pose proof (tl_total _ _ _ Ht) as Htot. replace (brk h) with (lo + total (F ++ A) * 8) by lia. rewrite Z.mod_add by lia. tauto. }
  assert (Hmem : ∀ a, a < brk h → mem h1 a = mem h a) by (intros a Ha; unfold h1; simpl; apply set_ne; lia).
  assert (Hin : ∀ a x, x ∈ F ++ A → inside a x → mem h1 a = mem h a).
  { intros a x Hx Ha. apply Hmem. specialize (Hbl x Hx). unfold inside in Ha. lia. }
  split; [|exact Hin]. destruct Hok as [_ _ Hc Hbs Hfp Hsz _ Hso]. split; try done.
  - simpl. lia.
  - eapply chain_frame; [exact Hc|apply Hmem; lia|]. rewrite Forall_forall. intros x Hx. specialize (Hbl x ltac:(set_solver)).
    split; apply Hmem; lia.
  - unfold size in *. rewrite Hmem by lia. done.
  - apply Forall_cons. split; [unfold h1; simpl; by rewrite set_eq|]. rewrite Forall_forall in *. intros x Hx.
    specialize (Hbl x ltac:(set_solver)). rewrite Hmem by lia. by apply Hsz.
  - eapply tiles_perm; [|apply (tiles_grow lo (brk h) n (F ++ A)); [done|lia|done|done]]. solve_Permutation.
Qed.

Lemma morecore_ok lo h F A fuel nu :
  heap_ok lo h F A → 1 ≤ nu < 2 ^ 28 → (length F + 1 < fuel)%nat →
  ∃ q h', morecore fuel nu h = Some (q, h') ∧
    ((q = 0 ∧ heap_ok lo h' F A ∧ mem h' = mem h ∧ (hd false (grants h) = true → 2 ^ 31 ≤ brk h + 8 * Z.max nu 4096)) ∨
     (q ≠ 0 ∧ q = freep h' ∧ ∃ F' x, heap_ok lo h' F' A ∧ x ∈ F' ∧ nu ≤ x.2 ∧ (length F' ≤ S (length F))%nat ∧
        ∀ a x, x ∈ A → inside a x → mem h' a = mem h a)).
Proof.
  intros Hok Hnu Hf. pose proof (ok_base _ _ _ _ Hok) as Hb. unfold morecore. set (n := if nu <? 4096 then 4096 else nu).
  assert (Hn : n = Z.max nu 4096) by (unfold n; destruct (Z.ltb_spec nu 4096); lia). clearbody n.
  assert (Hs : s32 (u32 (n * 8)) = 8 * n) by (unfold u32; rewrite Z.mod_small by lia; unfold s32; rewrite Z.mod_small by lia; lia).
  unfold sbrk. rewrite Hs, (proj2 (Z.ltb_lt 0 _)), u32_small by (unfold is_u32; lia).
  destruct (hd false (grants h) && (brk h + 8 * n <? 2 ^ 31)) eqn:Hg.
  - apply andb_true_iff in Hg as [_ Hlt]. rewrite (proj2 (Z.eqb_neq (brk h) (-1))) by lia.
    destruct (grow_ok lo h F A n (tail (grants h)) Hok ltac:(lia) ltac:(lia)) as [Hok1 Hfr1].
    set (h1 := set_size (brk h) n _) in *. change (set_size (brk h) n _) with h1.
    destruct (free_ok lo h1 F (brk h) n A fuel Hok1 Hf) as (h2 & F' & Hfree & Hok2 & _ & _ & Hfr2 & (x & Hx & Hxs) & Hlen).
    rewrite Hfree. exists (freep h2), h2. split; [done|]. right. split_and!; [|done|].
    + pose proof (ok_freep _ _ _ _ Hok2) as Hfp. pose proof (tl_block _ _ _ (ok_tiles _ _ _ _ Hok2)) as Hbl.
      apply elem_of_cons in Hfp as [->|Hfp]; [lia|]. apply list_elem_of_fmap in Hfp as (y & -> & Hy). rewrite Forall_forall in Hbl.
      specialize (Hbl y ltac:(set_solver)). lia.
    + exists F', x. split_and!; [done|done|lia|done|]. intros a y Hy Ha. rewrite (Hfr2 a y), (Hfr1 a y) by (done || set_solver). done.
  - do 2 eexists. split; [done|]. left. split_and!; [done| |done|].
    + destruct Hok. by split.
    + intros Hg'. rewrite Hg' in Hg. simpl in Hg. lia.
Qed.

(** The outcome of a successful search. *)
Definition got (lo : Z) (h : heap) (A : list block) (n : Z) (o : option (Z * heap)) : Prop :=
  ∃ p h' F', o = Some (p + 8, h') ∧ heap_ok lo h' F' ((p, n) :: A) ∧ ∀ a x, x ∈ A → inside a x → mem h' a = mem h a.

Definition small (n : Z) (F : list block) : Prop := Forall (λ x, x.2 < n) F.

Section search.
Context (fuel : nat) (lo : Z) (h : heap) (F A : list block) (n : Z).
Hypothesis Hok : heap_ok lo h F A.
Hypothesis Hn : 1 ≤ n.

Lemma node_ring G1 b s G2 : F = G1 ++ (b, s) :: G2 → size h b = s ∧ ptr h b = headp G2 base.
Proof.
  intros HF. pose proof (ok_ring _ _ _ _ Hok) as Hc. rewrite HF in Hc. apply chain_app in Hc as [_ [Hs Hc]]. split; [done|].
  destruct G2 as [|[q sq] G2]; simpl in *; [done|]. apply Hc.
Qed.

(** At a block that is big enough. *)
Lemma malloc_here G1 b s G2 t :
  F = G1 ++ (b, s) :: G2 → n ≤ s → got lo h A n (malloc_loop fuel (S t) n (endp base G1) b h).
Proof.
  intros HF Hns. destruct (node_ring G1 b s G2 HF) as [Hs _]. cbn [malloc_loop]. rewrite Hs, (proj2 (Z.leb_le _ _) Hns).
  pose proof Hok as Hok'. rewrite HF in Hok'. destruct (take_block_ok lo h G1 b s G2 A n Hok' ltac:(lia)) as (p & h1 & F' & -> & Hok1 & _ & _ & Hfr).
  exists p, (h1 <| freep := endp base G1 |>), F'. split_and!; done.
Qed.

(** Past blocks that are too small. *)
Lemma malloc_past G : ∀ G1 G2 t,
  F = G1 ++ G ++ G2 → (∀ x, x ∈ G → x.1 ≠ freep h) →
  got lo h A n (malloc_loop fuel (length G + t) n (endp base G1) (headp (G ++ G2) base) h) ∨
  small n G ∧ malloc_loop fuel (length G + t) n (endp base G1) (headp (G ++ G2) base) h =
    malloc_loop fuel t n (endp base (G1 ++ G)) (headp G2 base) h.
Proof using Hok Hn.
  induction G as [|[b s] G IH]; intros G1 G2 t HF Hne.
  { right. split; [by apply Forall_nil|]. by rewrite app_nil_r. }
  cbn [length Nat.add app headp fst]. destruct (decide (n ≤ s)) as [Hbig|Hsm].
  { left. eapply malloc_here; [exact HF|done]. }
  cbn [malloc_loop]. destruct (node_ring G1 b s (G ++ G2) HF) as [Hs Hp]. rewrite Hs, Hp, (proj2 (Z.leb_gt _ _)) by lia.
  rewrite (proj2 (Z.eqb_neq b (freep h))) by (apply (Hne (b, s)); set_solver).
  destruct (IH (G1 ++ [(b, s)]) G2 t) as [Hgot|[Hsmall Heq]].
  - by rewrite HF, <-app_assoc.
  - intros x Hx. apply Hne. set_solver.
  - left. by rewrite endp_app in Hgot.
  - right. rewrite endp_app in Heq. split; [apply Forall_cons; split; [simpl; lia|done]|]. rewrite Heq. by rewrite <-app_assoc.
Qed.

Definition more (t : nat) : option (Z * heap) :=
  match morecore fuel n h with
  | None => None
  | Some (q, h') => if q =? 0 then Some (0, h') else malloc_loop fuel t n q (ptr h' q) h'
  end.

Lemma nodes_nodup : NoDup (base :: F.*1).
Proof using Hok.
  pose proof (ok_base _ _ _ _ Hok) as Hb. pose proof (ok_tiles _ _ _ _ Hok) as Ht. pose proof (tl_block _ _ _ Ht) as Hbl.
  apply Forall_app in Hbl as [Hbl _]. pose proof (tl_apart _ _ _ Ht) as Hap. apply pairs_app in Hap as [Hap _].
  assert (Hfar : pairs far F.*1) by (apply apart_far; [done|]; eapply Forall_impl; [exact Hbl|]; simpl; tauto).
  apply NoDup_cons. split.
  - intros (x & Hx & Hin)%list_elem_of_fmap. rewrite Forall_forall in Hbl. specialize (Hbl x Hin). lia.
  - clear -Hfar. induction F.*1 as [|x l IH]; [constructor|]. destruct Hfar as [Hx Hl]. apply NoDup_cons. split; [|auto].
    intros Hin. rewrite Forall_forall in Hx. specialize (Hx x Hin). unfold far in Hx. lia.
Qed.

(** Once around the ring. *)
Lemma malloc_around t :
  got lo h A n (malloc_loop fuel (length F + S t) n (freep h) (ptr h (freep h)) h) ∨
  small n F ∧ malloc_loop fuel (length F + S t) n (freep h) (ptr h (freep h)) h = more t.
Proof using Hok Hn.
  pose proof (ok_ring _ _ _ _ Hok) as Hring. pose proof nodes_nodup as Hnd. pose proof (ok_base_size _ _ _ _ Hok) as Hbs.
  destruct (node_split _ F (ok_freep _ _ _ _ Hok)) as (H1 & H2 & HF & Hfp).
  assert (Hptr : ptr h (freep h) = headp H2 base).
  { rewrite Hfp. unfold ptr. rewrite HF in Hring. apply chain_app in Hring as [Hc _]. by apply chain_end in Hc. }
  rewrite Hptr. assert (Hin : freep h ∈ base :: H1.*1) by (rewrite Hfp; apply endp_elem).
  rewrite HF, fmap_app, app_comm_cons in Hnd. apply NoDup_app in Hnd as (Hnd1 & Hdj & _).
  assert (Hne2 : ∀ x, x ∈ H2 → x.1 ≠ freep h).
  { intros x Hx Heq. apply (Hdj (freep h) Hin). rewrite <-Heq. apply list_elem_of_fmap. eauto. }
  rewrite Hfp. destruct H1 as [|[f sf] H1 _] using rev_ind.
  - simpl in HF, Hfp |- *. destruct (malloc_past H2 [] [] (S t)) as [Hg|[Hsm Heq]]; [by rewrite app_nil_r|done|..];
      rewrite app_nil_r, <-HF in *; [by left|right]. split; [done|]. simpl in Heq. rewrite Heq. cbn [malloc_loop headp].
    rewrite Hbs, (proj2 (Z.leb_gt n 0)), Hfp, Z.eqb_refl by lia. done.
  - rewrite endp_app in *. subst f. rewrite fmap_app, app_comm_cons in Hnd1. apply NoDup_app in Hnd1 as (Hnd1 & Hdj1 & _).
    assert (Hne1 : (base ≠ freep h) ∧ ∀ x, x ∈ H1 → x.1 ≠ freep h).
    { assert (Hno : freep h ∉ base :: H1.*1) by (intros Hx; apply (Hdj1 _ Hx); simpl; set_solver).
      split; [intros Heq|intros x Hx Heq]; apply Hno; [rewrite Heq; left|right]. rewrite <-Heq. apply list_elem_of_fmap. eauto. }
    destruct Hne1 as [Hneb Hne1].
    assert (Hlen : (length F + S t = length H2 + S (length H1 + S t))%nat) by (rewrite HF, !length_app; simpl; lia).
    rewrite Hlen. destruct (malloc_past H2 (H1 ++ [(freep h, sf)]) [] (S (length H1 + S t))) as [Hg|[Hsm2 Heq2]];
      [by rewrite app_nil_r|done|rewrite app_nil_r, endp_app in Hg; by left|]. rewrite app_nil_r, endp_app in Heq2. rewrite Heq2.
    cbn [headp malloc_loop]. rewrite Hbs, (proj2 (Z.leb_gt n 0)), (proj2 (Z.eqb_neq _ _) Hneb) by lia.
    assert (Hbp : ptr h base = headp (H1 ++ [(freep h, sf)] ++ H2) base).
    { rewrite HF, <-app_assoc in Hring. unfold ptr. by destruct H1 as [|[b s] H1]; simpl in Hring |- *; destruct Hring as (-> & _). }
    rewrite Hbp. destruct (malloc_past H1 [] ([(freep h, sf)] ++ H2) (S t)) as [Hg|[Hsm1 Heq1]];
      [by rewrite HF, <-app_assoc|done|by left|]. simpl endp in Heq1. rewrite Heq1. cbn [headp app fst].
    destruct (decide (n ≤ sf)) as [Hbig|Hsf].
    + left. eapply (malloc_here H1 (freep h) sf H2); [by rewrite HF, <-app_assoc|done].
    + right. split; [rewrite HF; apply Forall_app; split; [apply Forall_app; split; [done|by constructor; [simpl; lia|constructor]]|done]|].
      cbn [malloc_loop]. destruct (node_ring H1 (freep h) sf H2) as [Hsf' _]; [by rewrite HF, <-app_assoc|].
      rewrite Hsf', (proj2 (Z.leb_gt _ _)), Z.eqb_refl by lia. done.
Qed.
End search.

Lemma malloc_loop_ok lo h F A fuel turns n :
  heap_ok lo h F A → 1 ≤ n < 2 ^ 28 → (length F + 1 < fuel)%nat → (2 * length F + 3 ≤ turns)%nat →
  let o := malloc_loop fuel turns n (freep h) (ptr h (freep h)) h in
  got lo h A n o ∨
  ∃ h', o = Some (0, h') ∧ heap_ok lo h' F A ∧ mem h' = mem h ∧ small n F ∧
    (hd false (grants h) = true → 2 ^ 31 ≤ brk h + 8 * Z.max n 4096).
Proof.
  intros Hok Hn Hf Ht. replace turns with (length F + S (turns - length F - 1))%nat by lia. set (t := (turns - length F - 1)%nat).
  destruct (malloc_around fuel lo h F A n Hok ltac:(lia) t) as [Hg|[Hsm Heq]]; [by left|]. cbv zeta. rewrite Heq. unfold more.
  destruct (morecore_ok lo h F A fuel n Hok Hn Hf) as (q & h' & -> & [(-> & Hok' & Hmem & Hgr)|(Hq & Hqf & F' & x & Hok' & Hx & Hxn & Hlen & Hfr)]).
  - right. exists h'. by rewrite Z.eqb_refl.
  - left. rewrite (proj2 (Z.eqb_neq q 0) Hq), Hqf. replace t with (length F' + S (t - length F' - 1))%nat by lia.
    destruct (malloc_around fuel lo h' F' A n Hok' ltac:(lia) (t - length F' - 1)) as [(p & h2 & F2 & Ho & Hok2 & Hfr2)|[Hsm' _]].
    + exists p, h2, F2. split_and!; [done|done|]. intros a y Hy Ha. by rewrite (Hfr2 a y), (Hfr a y).
    + unfold small in Hsm'. rewrite Forall_forall in Hsm'. specialize (Hsm' x Hx). lia.
Qed.

(** ** Properties *)

(** Before the first call. *)
Definition fresh (lo : Z) (h : heap) : Prop :=
  freep h = 0 ∧ (0 < base ∧ base + 8 ≤ lo ∧ lo < 2 ^ 31) ∧ (base mod 8 = 0 ∧ lo mod 8 = 0) ∧ brk h = lo.

Definition usable (lo : Z) (h : heap) (F A : list block) : Prop :=
  heap_ok lo h F A ∨ fresh lo h ∧ F = [] ∧ A = [].

(** The first lines of [malloc]. *)
Lemma usable_ring lo h F A :
  usable lo h F A →
  let h0 := if freep h =? 0 then set_size base 0 (set_ptr base base (h <| freep := base |>)) else h in
  heap_ok lo h0 F A ∧ grants h0 = grants h ∧ brk h0 = brk h ∧ ∀ a x, x ∈ A → inside a x → mem h0 a = mem h a.
Proof.
  intros [Hok|[(Hfp & Hb & Hal & Hlo) [-> ->]]] h0; subst h0.
  - assert (Hne : freep h ≠ 0).
    { pose proof (ok_base _ _ _ _ Hok). pose proof (tl_block _ _ _ (ok_tiles _ _ _ _ Hok)) as Hbl.
      pose proof (ok_freep _ _ _ _ Hok) as [->|(x & -> & Hx)%list_elem_of_fmap]%elem_of_cons; [lia|].
      rewrite Forall_forall in Hbl. specialize (Hbl x ltac:(set_solver)). lia. }
    rewrite (proj2 (Z.eqb_neq _ _) Hne). by split_and!.
  - rewrite Hfp, Z.eqb_refl. split_and!; [|done|done|set_solver]. split; simpl; try done.
    + lia.
    + by rewrite set_ne, set_eq by lia.
    + unfold size. simpl. by rewrite set_eq.
    + set_solver.
    + split; [by apply Forall_nil|done|simpl; lia].
    + constructor.
Qed.

Lemma nunits_small nbytes :
  0 ≤ nbytes < 2 ^ 31 - 15 →
  let n := u32 (u32 (u32 (nbytes + 8) - 1) / 8 + 1) in 1 ≤ n < 2 ^ 28 ∧ nbytes ≤ 8 * (n - 1) < nbytes + 8.
Proof. intros Hn n. unfold n, u32. rewrite !Z.mod_small; Z.div_mod_to_equations; lia. Qed.

(** [malloc] in general, for the number of units it computes. *)
Lemma malloc_ok lo h F A nbytes fuel turns :
  usable lo h F A → (length F + 1 < fuel)%nat → (2 * length F + 3 ≤ turns)%nat →
  let n := u32 (u32 (u32 (nbytes + 8) - 1) / 8 + 1) in
  1 ≤ n < 2 ^ 28 →
  ∃ r h', malloc fuel turns nbytes h = Some (r, h') ∧
    ((r = 0 ∧ heap_ok lo h' F A ∧ small n F ∧ (hd false (grants h) = true → 2 ^ 31 ≤ brk h + 8 * Z.max n 4096)) ∨
     (r ≠ 0 ∧ ∃ F', heap_ok lo h' F' ((r - 8, n) :: A))) ∧
    (∀ a x, x ∈ A → inside a x → mem h' a = mem h a).
Proof.
  intros Hu Hf Ht n Hn. destruct (usable_ring lo h F A Hu) as (Hok & Hg & Hb & Hfr). unfold malloc. fold n.
  set (h0 := if freep h =? 0 then _ else _) in *.
  destruct (malloc_loop_ok lo h0 F A fuel turns n Hok Hn Hf Ht) as [(p & h' & F' & -> & Hok' & Hfr')|(h' & -> & Hok' & Hmem & Hsm & Hgr)].
  - exists (p + 8), h'. split; [done|]. split; [right|by intros a x Hx Ha; rewrite (Hfr' a x), (Hfr a x)].
    replace (p + 8 - 8) with p by lia. split; [|by exists F'].
    pose proof (tl_block _ _ _ (ok_tiles _ _ _ _ Hok')) as Hbl. rewrite Forall_forall in Hbl.
    specialize (Hbl (p, n) ltac:(set_solver)). pose proof (ok_base _ _ _ _ Hok'). simpl in Hbl. lia.
  - exists 0, h'. split; [done|]. split; [left|intros a x Hx Ha; by rewrite Hmem, (Hfr a x)].
    rewrite Hg, Hb in Hgr. done.
Qed.

Lemma heap_ok_perm lo h F A A' : A ≡ₚ A' → heap_ok lo h F A → heap_ok lo h F A'.
Proof.
  intros Hp [Hb Hal Hc Hs Hf Hsz Ht Hso]. split; try done; [by rewrite <-Hp|]. eapply tiles_perm; [|exact Ht]. by rewrite Hp.
Qed.

(** [C27] The allocator on requests of fewer than 2^31 - 15 bytes.  The blocks in use and the free blocks
    always tile the memory the allocator has got, and no two free blocks touch.
    [malloc] ends; it returns a block with room for the bytes asked for that
    overlaps no block in use, or 0, which happens only when no free block is big
    enough and the system has no memory.  It changes nothing in the blocks in
    use. *)
Theorem malloc_spec lo h F A nbytes fuel turns :
  usable lo h F A → 0 ≤ nbytes < 2 ^ 31 - 15 → (length F + 1 < fuel)%nat → (2 * length F + 3 ≤ turns)%nat →
  ∃ r h', malloc fuel turns nbytes h = Some (r, h') ∧
    ((r = 0 ∧ heap_ok lo h' F A ∧ (∀ x, x ∈ F → 8 * (x.2 - 1) < nbytes) ∧
        (hd false (grants h) = true → 2 ^ 31 ≤ brk h + 8 * Z.max ((nbytes + 7) / 8 + 1) 4096)) ∨
     (r ≠ 0 ∧ ∃ n F', heap_ok lo h' F' ((r - 8, n) :: A) ∧ nbytes ≤ 8 * (n - 1))) ∧
    (∀ a x, x ∈ A → inside a x → mem h' a = mem h a).
Proof.
  intros Hu Hn Hf Ht. destruct (nunits_small nbytes Hn) as [Hn1 Hn2].
  assert (Hnu : u32 (u32 (u32 (nbytes + 8) - 1) / 8 + 1) = (nbytes + 7) / 8 + 1) by (unfold u32; rewrite !Z.mod_small; Z.div_mod_to_equations; lia).
  destruct (malloc_ok lo h F A nbytes fuel turns Hu Hf Ht Hn1) as (r & h' & Hr & Hcase & Hfr). exists r, h'. split; [done|].
  split; [|done]. rewrite Hnu in *. destruct Hcase as [(-> & Hok & Hsm & Hg)|[Hr0 (F' & Hok)]]; [left|right].
  - split_and!; try done. unfold small in Hsm. rewrite Forall_forall in Hsm. intros x Hx. specialize (Hsm x Hx).
    Z.div_mod_to_equations. lia.
  - split; [done|]. exists ((nbytes + 7) / 8 + 1), F'. split; [done|lia].
Qed.

(** [C28] [free] of a block in use ends and gives it back: the other blocks in use
    and the free blocks tile the memory again, with the block joined to the free
    blocks it touches, and nothing in the other blocks in use changes. *)
Theorem free_spec lo h F A b s A' fuel :
  heap_ok lo h F A → A ≡ₚ (b, s) :: A' → (length F + 1 < fuel)%nat →
  ∃ h' F', free fuel (b + 8) h = Some h' ∧ heap_ok lo h' F' A' ∧ brk h' = brk h ∧
    (∀ a x, x ∈ A' → inside a x → mem h' a = mem h a).
Proof.
  intros Hok Hp Hf. destruct (free_ok lo h F b s A' fuel) as (h' & F' & Hr & Hok' & Hb & _ & Hfr & _);
    [by eapply heap_ok_perm|done|]. by exists h', F'.
Qed.

(** A request within 7 bytes of 4 GB wraps around in the computation of the
    units: [malloc] returns a block with room for no byte at all. *)
Theorem malloc_wraps lo h F A nbytes fuel turns :
  usable lo h F A → 2 ^ 32 - 7 ≤ nbytes < 2 ^ 32 → (length F + 1 < fuel)%nat → (2 * length F + 3 ≤ turns)%nat →
  hd false (grants h) = true → brk h + 8 * 4096 < 2 ^ 31 →
  ∃ r h' F', malloc fuel turns nbytes h = Some (r, h') ∧ r ≠ 0 ∧ heap_ok lo h' F' ((r - 8, 1) :: A).
Proof.
  intros Hu Hn Hf Ht Hg Hb.
  assert (Hnu : u32 (u32 (u32 (nbytes + 8) - 1) / 8 + 1) = 1) by (unfold u32; Z.div_mod_to_equations; lia).
  destruct (malloc_ok lo h F A nbytes fuel turns Hu Hf Ht) as (r & h' & Hr & Hcase & _); [rewrite Hnu; lia|].
  rewrite Hnu in *. destruct Hcase as [(_ & _ & _ & Hg')|[Hr0 (F' & Hok)]]; [specialize (Hg' Hg); lia|]. by exists r, h', F'.
Qed.

End umalloc.

(** ** Examples *)

(** A process of two pages with [base] in the first, and the same after a call
    [malloc(100)]. *)
Definition ex_fresh : heap := mkheap (λ _, 0) 0 8192 [true; true].
Definition ex_heap : heap :=
  mkheap (set 4096 8192 (set 8192 4096 (set 8196 4082 (set 40852 14 (λ _, 0))))) 4096 40960 [true].

Lemma ex_fresh_usable : usable 4096 8192 ex_fresh [] [].
Proof. right. unfold fresh. simpl. split_and!; done. Qed.

Lemma ex_heap_ok : heap_ok 4096 8192 ex_heap [(8192, 4082)] [(40848, 14)].
Proof.
  split; try done; [set_solver|by apply Forall_singleton| |by repeat constructor].
  split; [by repeat apply Forall_cons_2; try apply Forall_nil| |done].
  split; [apply Forall_singleton; by left|by split].
Qed.

Lemma malloc_spec_witness :
  ∃ r h', malloc 4096 2 3 100 ex_fresh = Some (r, h') ∧
    ((r = 0 ∧ heap_ok 4096 8192 h' [] [] ∧ (∀ x : Z * Z, x ∈ [] → 8 * (x.2 - 1) < 100) ∧
        (hd false (grants ex_fresh) = true → 2 ^ 31 ≤ brk ex_fresh + 8 * Z.max ((100 + 7) / 8 + 1) 4096)) ∨
     (r ≠ 0 ∧ ∃ n F', heap_ok 4096 8192 h' F' [(r - 8, n)] ∧ 100 ≤ 8 * (n - 1))) ∧
    (∀ a x, x ∈ [] → inside a x → mem h' a = mem ex_fresh a).
Proof. apply (malloc_spec 4096 8192 ex_fresh [] [] 100 2 3); [exact ex_fresh_usable|lia|simpl; lia|simpl; lia]. Defined.

Lemma free_spec_witness :
  ∃ h' F', free 3 40856 ex_heap = Some h' ∧ heap_ok 4096 8192 h' F' [] ∧ brk h' = brk ex_heap ∧
    (∀ a x, x ∈ [] → inside a x → mem h' a = mem ex_heap a).
Proof. apply (free_spec 4096 8192 ex_heap [(8192, 4082)] [(40848, 14)] 40848 14 [] 3); [exact ex_heap_ok|done|simpl; lia]. Defined.

Lemma malloc_wraps_witness :
  ∃ r h' F', malloc 4096 2 3 (2 ^ 32 - 1) ex_fresh = Some (r, h') ∧ r ≠ 0 ∧ heap_ok 4096 8192 h' F' [(r - 8, 1)].
Proof.
  apply (malloc_wraps 4096 8192 ex_fresh [] [] (2 ^ 32 - 1) 2 3); [exact ex_fresh_usable|lia|simpl; lia|simpl; lia|done|simpl; lia].
Defined.
